(* ===== verification/_CoqProject ===== *)
-Q . S2P
Prelude.v
Text.v
Money.v
Domain.v
Compiled.v
Ledger.v
Reserve.v
Prog.v
Crypto.v
Json.v
Credentials.v
Schema.v
Prisma.v
Infra.v
LedgerService.v
Invariant.v
Site.v
Demo.v
ReserveService.v
Effects.v
MintService.v
Deposits.v
Redemption.v
Paykh.v
Accounts.v
Seed.v
Admin.v
Gate.v
Operations.v
Registry.v
Boot.v
Stellar.v
Loyalty.v
Dto.v
Worker.v
Assurance.v
Scheduler.v
JsValue.v
Adapters.v
Console.v
ConsoleViews.v
EndToEnd.v
AuditGate.v
Platform.v
Controllers.v
TrusteeControllers.v
Routes.v
Router.v
System.v
Book.v
Delivery.v
MintFlow.v
Flows.v
Findings.v
Access.v
AuditFlow.v
ConsoleFlow.v
ConsoleQueues.v
Receiver.v
Portal.v
Enforcement.v
Api.v
