(* ===== verification/Prelude.v ===== *)
(** A verification of the Cambobia Trustee Banking Platform.

    The platform keeps the reserve behind a stablecoin.  A trustee bank holds the cash
    of a program; PayChain asks for mint authorizations against it and reports what
    circulates; PayKH collects payments and issues loyalty value out of program funds.
    Every movement of money is a journal entry of a double-entry ledger, minting is
    allowed only within the capacity that the reserve leaves, and sensitive steps need
    two different people.

    ** The parts and how they interact

    [apps/trustee-api] is a NestJS service.  An HTTP request passes four guards
    ([common/]), its controller calls one operation of a service ([modules/]), some
    through [infra/idempotency.service.ts].  Services share the PostgreSQL database
    (Prisma), post through [modules/reserve/reserve-ledger.service.ts], and publish
    events into an outbox that [apps/trustee-worker] delivers to the clients' webhooks.
    A scheduler runs proof-of-reserve and alerts.  The pure rules live in [packages/].

    ** The files, in the order of dependency

    - the base: this file (outcomes, machine widths and JavaScript numbers, strings,
      sums over maps, tactics), [Text] (digits), [Prog] (handlers as resumptions, the
      interleaving [pool_step] and the rely-guarantee judgement [safe]);
    - the packages: [Money] and [Domain] ([packages/domain]), [Compiled] (the JavaScript
      committed beside it), [Ledger] ([packages/ledger]), [Reserve] ([packages/reserves]), [Crypto], [Json] and
      [Credentials] ([packages/cryptography], [adapters/src/signed-envelope.ts]),
      [Stellar] and [Adapters] ([packages/adapters], the outbound adapters);
    - the database: [Schema] (a record per model of [schema.prisma], the tables, what
      is refused), [Prisma] (the client as a class with its documented laws);
    - the shared services: [Infra] ([infra/], [events/]), [LedgerService]
      ([reserve-ledger.service.ts]), [Invariant] (the invariant [good] of the database,
      the relation [later] along which it moves, the rules for handlers), [Site] (a
      process: database, memory, Redis), [Demo] (a seeded database for witnesses);
    - the services, one file each: [ReserveService], [MintService], [Deposits] (with
      funding), [Redemption] (with the liability feed), [Paykh], [Loyalty] (with program
      funds), [Assurance] (attestations, reconciliation), [Accounts]
      ([user-auth.service.ts]), [Admin], [Operations], [Registry] (with programs and
      published keys); beside them [Scheduler] and [Worker], and what runs before
      them: [Seed] ([database/prisma/seed.ts]) and [Boot] ([config/configuration.ts],
      [main.ts], the loading of keys);
    - the way in: [Gate] (the guards, client authentication, rate limits, error
      filter), [Dto] (request bodies and the validation pipe), [Controllers] and
      [TrusteeControllers] (a module per controller: its calls, [route], [serve]),
      [Routes] (the application: [respond] is guards, then the method), [Router] (the
      declared paths);
    - the compositions: [Platform] (all requests over the database, [reachable]),
      [System], [Book], [Effects], [MintFlow], [Flows], [Delivery], [Findings], [Access]
      (guards and routes together), and [Api] (requests behind guards, ticks and worker
      over a site, [site_reachable]);
    - what the operators' policies decide: [Enforcement] (programs that proceed in the
      same way whatever a table holds);
    - the clients of the repository: [EndToEnd], [AuditGate] and [AuditFlow]
      ([apps/e2e-audit]); [JsValue] (properties, truthiness and text of JavaScript
      values), [Console], [ConsoleViews], [ConsoleFlow] and [ConsoleQueues] (the script
      of [packages/portal-ui/src/admin-console.html.ts] as a client of [Routes]);
      [Receiver] (a partner's end of the webhooks, as the developer hub shows it),
      [Portal] (the pages with their base URL, the portal server, the hub's script).

    A definition bears the name of the function it translates; where two services use
    one name, it gets a noun ([create_order] is [PaymentOrdersService.create]).  A row is
    a record with the columns of the model, a table a [gmap] from its primary key.

    ** Asynchrony

    A handler is a [prog S A]: it returns, throws, or performs one atomic action (a
    query, a write, a call to the outside) and continues.  Between two actions any
    other request may run, and a handler may die.  A transaction is one action: the
    isolation of interactive transactions is taken for granted, the races that remain
    are those between transactions, and [Findings] exhibits some.

    ** What the theorems show

    - of every reachable database: the stored ledger is double-entry
      ([System.ledger_double_entry]); it implements an abstract account book
      ([Book.ledger_refines_book]) in which cash equals what is owed
      ([Book.cash_is_owed]); the statuses of authorizations, deposits, redemptions,
      orders and settlements agree with the booked evidence; maker and checker differ;
      history only grows and records keep what was agreed (that rows respect their
      columns, unique keys and references is what the database refuses otherwise, and is
      part of [good], not a theorem about the code);
    - of minting: an approval returns only if every precondition of the mint guard held
      ([MintFlow.approve_only_when_permitted], [Reserve.mint_guard_exact]) and reserves
      exactly its amount ([MintFlow.approve_reserves_exactly]);
    - of the other operations that move money: from which state they succeed, what they
      move and what they leave ([Flows.redemptions_move] and its neighbours);
    - of access: who passes the guards ([Gate.guards_sound]) and who is answered by
      which route ([Access.api_access]), nonces and reset tokens work once, login,
      session tokens, the n-th call of a client in a minute allowed exactly up to its
      limit ([Gate.rate_limit_exact]), the types of a validated body's properties, with
      the one that the decorators do not hold to its type ([Dto.validated_body_typed]);
    - of start-up: what a process that boots has, and that it is an entry for each purpose
      rather than a usable key ([Boot.boot_sound], [Boot.boots_without_keys]), keys across a
      rotation ([Boot.rotation_by_restart]), what seeding keeps, of all flags and controls,
      and what it resets ([Seed.seed_result]);
    - of the process: requests behind guards, ticks and the worker refine the platform
      ([Api.process_refines_platform]); a job's slot is exclusive, ticks return, the
      outbox drains for receivers whose answers the database can store
      ([Delivery.outbox_drains], [Delivery.nul_answer_blocks]);
    - of data: canonical bytes determine what a payload shows at every path
      ([Json.canonicalize_binding]), delivered bytes are the signed ones, base32 round-trips, the trial balance is right, journal entries are
      accepted exactly when they balance;
    - of the clients: what a Stellar transaction of the adapter says and that the
      platform sends none ([Adapters.stellar_writes_exact]); the requests of the audit
      are routes of the application, and what its exit code 0 shows
      ([AuditGate.audit_exit_zero]); every request of the operator console is a route of
      the application with a body it accepts ([ConsoleFlow.console_speaks_api]), the page
      keeps its session where it says, also when a view ends with an error
      ([ConsoleFlow.console_sessions], [ConsoleFlow.view_error_escapes]), its queues offer
      exactly the methods that take a row in its status
      ([ConsoleQueues.queues_offer_next_step]), its exports read back, that of every trial
      balance the platform answers included ([ConsoleViews.csv_roundtrip]); a partner who follows the developer hub accepts
      what the platform publishes and delivers ([Receiver.artifacts_verify]);
    - of the policies: on every route, which requests depend on the emergency controls,
      the ABAC policies and the feature flags, and which do not ([Enforcement.policies_bind]);
    - where the code does less than it means to: [Findings], [Access], [AuditFlow],
      [Receiver.pasted_receiver].

    ** Bounds and fuel

    [bigint]s are [Z], checked against 64 or 32 bits where they are stored
    ([Schema.in_range]); shifts of the base32 coder wrap at 32 bits; JavaScript numbers
    made from a [bigint] are rounded to 53 bits ([number_of_bigint]).  Strings are byte
    strings read as Latin-1.  No definition runs on fuel of its own choosing: loops are
    structural, [parse_json] and the 32-bit drain of base32 take the length of their
    input (or the number of bits held), which their lemmas show to be enough.

    ** Outside the model

    What lies outside the repository is a class with laws: [PrismaClient] (row order,
    fresh identifiers, and that a write it takes keeps keys, ranges and references; it may
    refuse any write, and theorems that need one to succeed say so), [Runtime] (UUIDs, dates, answers of bank, PayChain,
    Horizon, webhooks and mail), [NodeCrypto] and [NodeAuth] (Ed25519, SHA-256, HMAC,
    scrypt, codecs), [Redis].  Each has an instance, and every property with hypotheses a
    witness under it.  The properties are about the code, not about cryptography: no
    law says that a signature cannot be forged.

    [Network] (fetch, the Stellar SDK), [Web] (the browser's fetch) and [Validators]
    (class-validator) are classes of the same kind, [EndToEnd.NodeVerify] a record of the
    functions of Node that the auditor calls on whatever JSON holds.

    Not modelled: the module wiring of Nest, the routing of Express (a request comes
    with the call it was routed to; [Router] says what the declared paths match), the
    writing of a result to the response, CORS and security headers, Swagger; the bodies
    of the admin controller that have no DTO class, when they are not of the declared
    types; timers and the life cycle of connections; migrations; the HTML of the
    portals, of the console's views and of the audit report (a function of the console runs
    to its end before the next, but for late responses, so an element that is gone when an
    answer comes is not seen). *)
From Stdlib Require Export Ascii ZArith Lia.
From Stdlib Require Import DecimalString DecimalZ DecimalFacts.
From stdpp Require Export base gmap strings list fin_maps numbers sorting.

#[global] Open Scope string_scope.
#[global] Open Scope list_scope.
#[global] Open Scope Z_scope.

(** * Outcomes

    A TypeScript function either returns or throws.  [exn] lists what the
    sources throw: the NestJS HTTP exceptions, the named [Error] subclasses,
    and the errors of the database client. *)

Inductive exn : Type :=
| BadRequestException (message : string) (reasons : list string)
| NotFoundException (message : string)
| ForbiddenException (message : string)
| ConflictException (message : string)
| UnauthorizedException (message : string)
| HttpException (status : Z) (message : string)
| JsError (name message : string)
| PrismaError (code : string).

Inductive outcome (A : Type) : Type :=
| Ok (a : A)
| Err (e : exn).
Arguments Ok {_} _.
Arguments Err {_} _.

#[export] Instance exn_eq_dec : EqDecision exn.
Proof. solve_decision. Defined.
#[export] Instance outcome_eq_dec {A} `{EqDecision A} : EqDecision (outcome A).
Proof. solve_decision. Defined.

#[export] Instance outcome_ret : MRet outcome := @Ok.
#[export] Instance outcome_bind : MBind outcome := λ A B f o,
  match o with Ok a => f a | Err e => Err e end.
#[export] Instance outcome_fmap : FMap outcome := λ A B f o,
  match o with Ok a => Ok (f a) | Err e => Err e end.

Definition is_ok {A} (o : outcome A) : bool :=
  match o with Ok _ => true | Err _ => false end.

(** [throw_when b e] is the guard [if (b) throw e]. *)
Definition throw_when (b : bool) (e : exn) : outcome unit :=
  if b then Err e else Ok tt.

Lemma outcome_bind_ok {A B} (o : outcome A) (f : A → outcome B) b :
  (o ≫= f) = Ok b ↔ ∃ a, o = Ok a ∧ f a = Ok b.
Proof.
  split.
  - destruct o as [a|e]; [by exists a | done].
  - by intros (a & -> & ?).
Qed.

Lemma throw_when_ok b e : throw_when b e = Ok tt ↔ b = false.
Proof. by destruct b. Qed.

(** Monadic left fold: [for (const x of xs) acc = f(acc, x)] with throwing [f]. *)
Fixpoint ofold {A B} (f : A → B → outcome A) (acc : A) (l : list B) : outcome A :=
  match l with
  | [] => Ok acc
  | x :: l' => a ← f acc x; ofold f a l'
  end.

(** * Machine widths and JavaScript numbers *)

Definition int64_min : Z := - 2 ^ 63.
Definition int64_max : Z := 2 ^ 63 - 1.
Definition int32_min : Z := - 2 ^ 31.
Definition int32_max : Z := 2 ^ 31 - 1.

(** PostgreSQL [BIGINT] (Prisma [BigInt]) and [INTEGER] (Prisma [Int]) columns. *)
Definition in_int64 (z : Z) : bool := (int64_min <=? z) && (z <=? int64_max).
Definition in_int32 (z : Z) : bool := (int32_min <=? z) && (z <=? int32_max).

Definition MAX_SAFE_INTEGER : Z := 2 ^ 53 - 1.

(** [bigint] arithmetic: [/] truncates toward zero and [%] takes the sign of
    the dividend. *)
Definition big_div (a b : Z) : Z := Z.quot a b.
Definition big_rem (a b : Z) : Z := Z.rem a b.

(** A JavaScript number that came from a [bigint] by [Number(b)]. *)
Inductive number : Type :=
| Num (z : Z)
| Infinity (negative : bool).

#[export] Instance number_eq_dec : EqDecision number.
Proof. solve_decision. Defined.

(** Round a positive integer to 53 significant bits, ties to even. *)
Definition round53 (m : Z) : Z :=
  if m <=? 2 ^ 53 then m
  else
    let e := Z.log2 m - 52 in
    let q := Z.shiftr m e in
    let r := m - Z.shiftl q e in
    let half := 2 ^ (e - 1) in
    let q' := if (half <? r) || ((r =? half) && Z.odd q) then q + 1 else q in
    Z.shiftl q' e.

(** [Number(b)] for a [bigint] [b]. *)
Definition number_of_bigint (b : Z) : number :=
  let m := round53 (Z.abs b) in
  if 2 ^ 1024 <=? m then Infinity (b <? 0)
  else Num (Z.sgn b * m).

Lemma number_of_bigint_exact b :
  Z.abs b ≤ 2 ^ 53 → number_of_bigint b = Num b.
Proof.
  intros Hb. unfold number_of_bigint, round53.
  destruct (Z.leb_spec (Z.abs b) (2 ^ 53)); [|lia].
  destruct (Z.leb_spec (2 ^ 1024) (Z.abs b)) as [Hle|_].
  - exfalso. assert (2 ^ 53 < 2 ^ 1024) by (vm_compute; done). lia.
  - f_equal. rewrite Z.mul_comm. apply Z.abs_sgn.
Qed.

(** * Strings *)

Definition ascii_upper (a : ascii) : ascii :=
  let n := nat_of_ascii a in
  if (97 <=? n)%nat && (n <=? 122)%nat then ascii_of_nat (n - 32) else a.

(** [s.toUpperCase()], on the ASCII range. *)
Fixpoint to_upper (s : string) : string :=
  match s with
  | EmptyString => EmptyString
  | String a s' => String (ascii_upper a) (to_upper s')
  end.

Definition ascii_lower (a : ascii) : ascii :=
  let n := nat_of_ascii a in
  if (65 <=? n)%nat && (n <=? 90)%nat then ascii_of_nat (n + 32) else a.

Fixpoint to_lower (s : string) : string :=
  match s with
  | EmptyString => EmptyString
  | String a s' => String (ascii_lower a) (to_lower s')
  end.

Lemma ascii_upper_idem a : ascii_upper (ascii_upper a) = ascii_upper a.
Proof. destruct a as [[] [] [] [] [] [] [] []]; reflexivity. Qed.

Lemma to_upper_idem s : to_upper (to_upper s) = to_upper s.
Proof. induction s as [|a s IH]; simpl; [done|]. by rewrite ascii_upper_idem, IH. Qed.

(** [code.split(':')[0]]. *)
Fixpoint before_colon (s : string) : string :=
  match s with
  | EmptyString => EmptyString
  | String a s' => if bool_decide (a = ":"%char) then EmptyString else String a (before_colon s')
  end.

Fixpoint starts_with (p s : string) : bool :=
  match p, s with
  | EmptyString, _ => true
  | String a p', String b s' => bool_decide (a = b) && starts_with p' s'
  | _, EmptyString => false
  end.

(** [s.slice(0, n)] and [s.slice(n)]. *)
Fixpoint take_string (n : nat) (s : string) : string :=
  match n, s with
  | S n', String a s' => String a (take_string n' s')
  | _, _ => EmptyString
  end.
Fixpoint drop_string (n : nat) (s : string) : string :=
  match n, s with
  | S n', String a s' => drop_string n' s'
  | _, _ => s
  end.

Fixpoint join_with (sep : string) (l : list string) : string :=
  match l with
  | [] => ""
  | [s] => s
  | s :: l' => s +:+ sep +:+ join_with sep l'
  end.

Definition is_space (a : ascii) : bool :=
  let n := nat_of_ascii a in
  ((9 <=? n)%nat && (n <=? 13)%nat) || (n =? 32)%nat || (n =? 160)%nat.

Fixpoint trim_start (s : string) : string :=
  match s with
  | String a s' => if is_space a then trim_start s' else s
  | EmptyString => EmptyString
  end.
Fixpoint trim_end (s : string) : string :=
  match s with
  | EmptyString => EmptyString
  | String a s' =>
      match trim_end s' with
      | EmptyString => if is_space a then EmptyString else String a EmptyString
      | t => String a t
      end
  end.
Definition trim (s : string) : string := trim_end (trim_start s).

(** ** [BigInt(s)] and [b.toString()]

    The grammar of [StringToBigInt]: surrounding white space is dropped, the
    empty string is [0n], a decimal literal may carry a sign, and the [0x],
    [0o] and [0b] forms may not.  Anything else is a [SyntaxError]. *)

Definition digit_value (a : ascii) : option Z :=
  let n := nat_of_ascii a in
  if (48 <=? n)%nat && (n <=? 57)%nat then Some (Z.of_nat n - 48)
  else if (97 <=? n)%nat && (n <=? 102)%nat then Some (Z.of_nat n - 87)
  else if (65 <=? n)%nat && (n <=? 70)%nat then Some (Z.of_nat n - 55)
  else None.

Fixpoint digits_in_base (base acc : Z) (s : string) : option Z :=
  match s with
  | EmptyString => Some acc
  | String a s' =>
      match digit_value a with
      | Some d => if d <? base then digits_in_base base (acc * base + d) s' else None
      | None => None
      end
  end.

Definition radix_literal (base : Z) (s : string) : option Z :=
  match s with EmptyString => None | _ => digits_in_base base 0 s end.

Definition string_to_bigint (s0 : string) : option Z :=
  let s := trim s0 in
  match s with
  | EmptyString => Some 0
  | String "0" (String ("x" | "X") r) => radix_literal 16 r
  | String "0" (String ("o" | "O") r) => radix_literal 8 r
  | String "0" (String ("b" | "B") r) => radix_literal 2 r
  | String "+" r => Z.of_uint <$> NilZero.uint_of_string r
  | _ => Z.of_int <$> NilZero.int_of_string s
  end.

Definition BigInt (s : string) : outcome Z :=
  match string_to_bigint s with
  | Some z => Ok z
  | None => Err (JsError "SyntaxError" ("Cannot convert " +:+ s +:+ " to a BigInt"))
  end.

Definition big_to_string (z : Z) : string := NilZero.string_of_int (Z.to_int z).

(** Characters of decimal literals. *)
Definition is_digit (a : ascii) : bool :=
  let n := nat_of_ascii a in (48 <=? n)%nat && (n <=? 57)%nat.

Fixpoint all_digits (s : string) : bool :=
  match s with
  | EmptyString => true
  | String a s' => is_digit a && all_digits s'
  end.

Fixpoint no_space (s : string) : bool :=
  match s with
  | EmptyString => true
  | String a s' => negb (is_space a) && no_space s'
  end.

Lemma digit_not_space a : is_digit a = true → is_space a = false.
Proof. destruct a as [[] [] [] [] [] [] [] []]; done. Qed.

Lemma all_digits_no_space s : all_digits s = true → no_space s = true.
Proof.
  induction s as [|a s IH]; simpl; [done|].
  intros [Ha Hs]%andb_true_iff. by rewrite digit_not_space, IH.
Qed.

Lemma trim_start_no_space s : no_space s = true → trim_start s = s.
Proof.
  destruct s as [|a s]; simpl; [done|].
  intros [Ha _]%andb_true_iff. by apply negb_true_iff in Ha as ->.
Qed.

Lemma trim_end_no_space s : no_space s = true → trim_end s = s.
Proof.
  induction s as [|a s IH]; simpl; [done|].
  intros [Ha Hs]%andb_true_iff. apply negb_true_iff in Ha. rewrite IH by done.
  destruct s; [by rewrite Ha | done].
Qed.

Lemma trim_no_space s : no_space s = true → trim s = s.
Proof.
  intros H. unfold trim. rewrite trim_start_no_space by done. by apply trim_end_no_space.
Qed.

Lemma string_of_uint_digits d : all_digits (NilEmpty.string_of_uint d) = true.
Proof. induction d; simpl; done. Qed.

Lemma nz_string_of_uint_digits d :
  all_digits (NilZero.string_of_uint d) = true ∧ NilZero.string_of_uint d ≠ "".
Proof.
  split.
  - destruct d; try apply (string_of_uint_digits (_ d)); done.
  - by destruct d.
Qed.

(** A digit string takes the signed-decimal branch of the literal grammar. *)
Lemma string_to_bigint_digits s :
  all_digits s = true → s ≠ "" →
  string_to_bigint s = Z.of_int <$> NilZero.int_of_string s.
Proof.
  intros Hd Hne. unfold string_to_bigint.
  rewrite trim_no_space by by apply all_digits_no_space.
  destruct s as [|a s]; [done|].
  simpl in Hd. apply andb_true_iff in Hd as [Ha Hs].
  destruct a as [[] [] [] [] [] [] [] []]; try done; clear Ha.
  destruct s as [|b s]; [done|].
  simpl in Hs. apply andb_true_iff in Hs as [Hb _].
  destruct b as [[] [] [] [] [] [] [] []]; done.
Qed.

Lemma string_to_bigint_neg_digits s :
  all_digits s = true →
  string_to_bigint (String "-" s) = Z.of_int <$> NilZero.int_of_string (String "-" s).
Proof.
  intros Hd. unfold string_to_bigint.
  by rewrite trim_no_space by (simpl; by apply all_digits_no_space).
Qed.

(** [BigInt(b.toString())] is [b]. *)
Lemma string_to_bigint_of_big z : string_to_bigint (big_to_string z) = Some z.
Proof.
  assert (string_to_bigint (big_to_string z) =
          Z.of_int <$> NilZero.int_of_string (big_to_string z)) as ->.
  { unfold big_to_string, NilZero.string_of_int. destruct (Z.to_int z) as [d|d].
    - by apply string_to_bigint_digits; apply nz_string_of_uint_digits.
    - apply string_to_bigint_neg_digits, nz_string_of_uint_digits. }
  unfold big_to_string. rewrite NilZero.isi; simpl.
  - by rewrite DecimalZ.of_to.
  - intros E. pose proof (DecimalZ.of_to z) as Hz. rewrite E in Hz. by subst z.
  - intros E. pose proof (DecimalZ.of_to z) as Hz. rewrite E in Hz. by subst z.
Qed.

Lemma BigInt_to_string z : BigInt (big_to_string z) = Ok z.
Proof. unfold BigInt. by rewrite string_to_bigint_of_big. Qed.

Example BigInt_examples :
  (BigInt "-5", BigInt " 42 ", BigInt "", BigInt "0x1F", BigInt "+7", BigInt "007") =
  (Ok (-5), Ok 42, Ok 0, Ok 31, Ok 7, Ok 7).
Proof. vm_compute. reflexivity. Qed.

Example BigInt_rejects :
  forallb (λ s, negb (is_ok (BigInt s))) ["1.5"; "-"; "abc"; "-0x1"; "1e3"; "0x"] = true.
Proof. vm_compute. reflexivity. Qed.

(** * Sums over lists *)

Fixpoint sumZ {A} (f : A → Z) (l : list A) : Z :=
  match l with
  | [] => 0
  | x :: l' => f x + sumZ f l'
  end.

Lemma sumZ_nil {A} (f : A → Z) : sumZ f [] = 0.
Proof. done. Qed.
Lemma sumZ_cons {A} (f : A → Z) x l : sumZ f (x :: l) = f x + sumZ f l.
Proof. done. Qed.
Lemma sumZ_app {A} (f : A → Z) l k : sumZ f (l ++ k) = sumZ f l + sumZ f k.
Proof. induction l as [|x l IH]; simpl; lia. Qed.
Lemma sumZ_perm {A} (f : A → Z) l k : l ≡ₚ k → sumZ f l = sumZ f k.
Proof. induction 1 as [|x l k _ IH|x y l|l k m _ IH1 _ IH2]; simpl; [done|by rewrite IH|lia|by rewrite IH1]. Qed.
Lemma sumZ_ext {A} (f g : A → Z) l :
  (∀ x, x ∈ l → f x = g x) → sumZ f l = sumZ g l.
Proof.
  induction l as [|x l IH]; intros H; simpl; [done|].
  rewrite (H x), IH by set_solver. done.
Qed.
Lemma sumZ_nonneg {A} (f : A → Z) l : (∀ x, x ∈ l → 0 ≤ f x) → 0 ≤ sumZ f l.
Proof.
  induction l as [|x l IH]; intros H; simpl; [done|].
  specialize (H x ltac:(set_solver)) as Hx. pose proof (IH ltac:(set_solver)). lia.
Qed.
Lemma sumZ_zero {A} (l : list A) : sumZ (λ _, 0) l = 0.
Proof. induction l as [|x l IH]; simpl; lia. Qed.
Lemma sumZ_opp {A} (f : A → Z) l : sumZ (λ x, - f x) l = - sumZ f l.
Proof. induction l as [|x l IH]; simpl; lia. Qed.
Lemma sumZ_add {A} (f g : A → Z) l : sumZ (λ x, f x + g x) l = sumZ f l + sumZ g l.
Proof. induction l as [|x l IH]; simpl; lia. Qed.
Lemma sumZ_sub {A} (f g : A → Z) l : sumZ (λ x, f x - g x) l = sumZ f l - sumZ g l.
Proof. induction l as [|x l IH]; simpl; lia. Qed.
Lemma sumZ_map {A B} (g : A → B) (f : B → Z) l : sumZ f (g <$> l) = sumZ (λ x, f (g x)) l.
Proof. induction l as [|x l IH]; csimpl; [done|]. by rewrite IH. Qed.
Lemma sumZ_le {A} (f g : A → Z) l :
  (∀ x, x ∈ l → f x ≤ g x) → sumZ f l ≤ sumZ g l.
Proof.
  induction l as [|x l IH]; intros H; simpl; [done|].
  specialize (H x ltac:(set_solver)) as Hx. pose proof (IH ltac:(set_solver)). lia.
Qed.

(** [f] of every element that satisfies the boolean [p]. *)
Lemma sumZ_filter {A} (p : A → bool) (f : A → Z) l :
  sumZ f (filter (λ x, p x = true) l) = sumZ (λ x, if p x then f x else 0) l.
Proof.
  induction l as [|x l IH]; [done|].
  rewrite filter_cons. case_decide as E; simpl; rewrite IH.
  - by rewrite E.
  - destruct (p x); [done | lia].
Qed.

(** ** Sums over the values of a finite map *)

Definition map_sum {A} (f : A → Z) (m : gmap string A) : Z :=
  sumZ (λ kv, f kv.2) (map_to_list m).

Lemma map_sum_empty {A} (f : A → Z) : map_sum f ∅ = 0.
Proof. unfold map_sum. by rewrite map_to_list_empty. Qed.

Lemma map_sum_insert_new {A} (f : A → Z) m k x :
  m !! k = None → map_sum f (<[k:=x]> m) = f x + map_sum f m.
Proof.
  intros Hk. unfold map_sum.
  rewrite (sumZ_perm _ _ _ (map_to_list_insert m k x Hk)). done.
Qed.

Lemma map_sum_delete {A} (f : A → Z) m k x :
  m !! k = Some x → map_sum f m = f x + map_sum f (delete k m).
Proof.
  intros Hk. unfold map_sum.
  rewrite <- (sumZ_perm _ _ _ (map_to_list_delete m k x Hk)). done.
Qed.

Lemma map_sum_insert {A} (f : A → Z) m k x y :
  m !! k = Some y → map_sum f (<[k:=x]> m) = map_sum f m - f y + f x.
Proof.
  intros Hk. rewrite (map_sum_delete f m k y Hk).
  rewrite <- insert_delete_eq, map_sum_insert_new by apply lookup_delete_eq. lia.
Qed.

Lemma map_sum_zero {A} (m : gmap string A) : map_sum (λ _, 0) m = 0.
Proof. apply sumZ_zero. Qed.

Lemma map_sum_ext {A} (f g : A → Z) m :
  (∀ k x, m !! k = Some x → f x = g x) → map_sum f m = map_sum g m.
Proof.
  intros H. apply sumZ_ext. intros [k x] Hx%elem_of_map_to_list. simpl. eauto.
Qed.

Lemma map_sum_nonneg {A} (f : A → Z) m :
  (∀ k x, m !! k = Some x → 0 ≤ f x) → 0 ≤ map_sum f m.
Proof.
  intros H. apply sumZ_nonneg. intros [k x] Hx%elem_of_map_to_list. simpl. eauto.
Qed.

Lemma map_sum_sub {A} (f g : A → Z) m :
  map_sum (λ x, f x - g x) m = map_sum f m - map_sum g m.
Proof. unfold map_sum. by rewrite <- sumZ_sub. Qed.

(** * Hints and tactics *)

Create HintDb trustee discriminated.
Create Rewrite HintDb trustee.
#[export] Hint Rewrite @sumZ_nil @sumZ_cons @sumZ_app @map_sum_empty : trustee.

(** Invert every [_ = Ok _] hypothesis that comes from a bind or a guard. *)
Ltac inv_ok :=
  repeat match goal with
  | H : (_ ≫= _) = Ok _ |- _ => apply outcome_bind_ok in H as (? & ? & ?)
  | H : Ok _ = Ok _ |- _ => injection H as H; subst
  | H : Err _ = Ok _ |- _ => discriminate H
  | H : throw_when _ _ = Ok ?u |- _ => destruct u; apply throw_when_ok in H
  end.
