(* ===== verification/Text.v ===== *)
(** Strings of digits: padding, lengths, and the value a decimal string denotes.
    The adapters and the credentials print and read numbers with these. *)
From Stdlib Require Import DecimalString DecimalPos DecimalFacts.
From S2P Require Import Prelude.
#[local] Open Scope string_scope.
#[local] Open Scope list_scope.
#[local] Open Scope Z_scope.

(** [c.repeat(n)], [s.padStart(n, '0')]. *)
Fixpoint repeat_char (c : ascii) (n : nat) : string :=
  match n with O => "" | S n' => String c (repeat_char c n') end.
Definition pad_start0 (n : nat) (s : string) : string :=
  repeat_char "0" (n - String.length s) +:+ s.

Lemma app_String a s t : String a s +:+ t = String a (s +:+ t).
Proof. done. Qed.

Lemma string_app_nil s : s +:+ "" = s.
Proof. induction s as [|a s IH]; [done|]. by rewrite app_String, IH. Qed.

(** * The value of a digit string *)

Definition digit_val (a : ascii) : Z := Z.of_nat (nat_of_ascii a) - 48.

Fixpoint digits_val (acc : Z) (s : string) : Z :=
  match s with
  | EmptyString => acc
  | String a s' => digits_val (10 * acc + digit_val a) s'
  end.

Fixpoint uint_val (acc : Z) (d : Decimal.uint) : Z :=
  match d with
  | Decimal.Nil => acc
  | Decimal.D0 d => uint_val (10 * acc) d
  | Decimal.D1 d => uint_val (10 * acc + 1) d
  | Decimal.D2 d => uint_val (10 * acc + 2) d
  | Decimal.D3 d => uint_val (10 * acc + 3) d
  | Decimal.D4 d => uint_val (10 * acc + 4) d
  | Decimal.D5 d => uint_val (10 * acc + 5) d
  | Decimal.D6 d => uint_val (10 * acc + 6) d
  | Decimal.D7 d => uint_val (10 * acc + 7) d
  | Decimal.D8 d => uint_val (10 * acc + 8) d
  | Decimal.D9 d => uint_val (10 * acc + 9) d
  end.

Lemma of_uint_acc_val d p : Z.pos (Pos.of_uint_acc d p) = uint_val (Z.pos p) d.
Proof.
  revert p. induction d; intros p; cbn [Pos.of_uint_acc uint_val]; [done|..];
    rewrite IHd; f_equal; lia.
Qed.

Lemma of_uint_val d : Z.of_uint d = uint_val 0 d.
Proof.
  unfold Z.of_uint. induction d; cbn [Pos.of_uint uint_val]; try done;
    rewrite ?of_uint_acc_val; cbn; try done; apply of_uint_acc_val.
Qed.

Lemma uint_of_digits s :
  all_digits s = true →
  ∃ d, NilEmpty.uint_of_string s = Some d ∧ ∀ acc, uint_val acc d = digits_val acc s.
Proof.
  induction s as [|a s IH]; intros H; [by exists Decimal.Nil|].
  cbn in H. apply andb_true_iff in H as [Ha Hs]. destruct (IH Hs) as (d & Hd & Hval).
  destruct a as [[] [] [] [] [] [] [] []]; try done; clear Ha;
    cbn [NilEmpty.uint_of_string]; rewrite Hd; cbn;
    (eexists; split; [reflexivity|]); intros acc; cbn [uint_val digits_val]; rewrite Hval;
    f_equal;
    match goal with |- context [digit_val ?a] =>
      let v := eval vm_compute in (digit_val a) in change (digit_val a) with v end; lia.
Qed.

Lemma BigInt_digits s : all_digits s = true → s ≠ "" → BigInt s = Ok (digits_val 0 s).
Proof.
  intros Hd Hne. unfold BigInt. rewrite string_to_bigint_digits by done.
  destruct (uint_of_digits s Hd) as (d & Hs & Hval).
  destruct s as [|a s]; [done|].
  assert (NilZero.int_of_string (String a s) = Decimal.Pos <$> NilZero.uint_of_string (String a s)) as ->.
  { cbn in Hd. apply andb_true_iff in Hd as [Ha _].
    destruct a as [[] [] [] [] [] [] [] []]; try done. }
  unfold NilZero.uint_of_string. rewrite Hs. cbn. f_equal.
  change (Z.of_N (Pos.of_uint d)) with (Z.of_uint d). by rewrite of_uint_val, Hval.
Qed.

Lemma digits_val_app acc s t :
  digits_val acc (s +:+ t) = digits_val (digits_val acc s) t.
Proof. revert acc. induction s as [|a s IH]; intros acc; [done|]. rewrite app_String. apply IH. Qed.

Lemma digits_val_acc acc s :
  digits_val acc s = acc * 10 ^ Z.of_nat (String.length s) + digits_val 0 s.
Proof.
  revert acc. induction s as [|a s IH]; intros acc; cbn [digits_val String.length]; [rewrite Z.mul_1_r; lia|].
  rewrite IH, (IH (10 * 0 + _)). rewrite Nat2Z.inj_succ, Z.pow_succ_r by lia. lia.
Qed.

Lemma digits_val_zeros n s : digits_val 0 (repeat_char "0" n +:+ s) = digits_val 0 s.
Proof. induction n as [|n IH]; [done|]. cbn. exact IH. Qed.

Lemma all_digits_app s t : all_digits (s +:+ t) = all_digits s && all_digits t.
Proof.
  induction s as [|a s IH]; [done|].
  change (String a s +:+ t) with (String a (s +:+ t)). cbn [all_digits]. by rewrite IH, andb_assoc.
Qed.
Lemma all_digits_zeros n : all_digits (repeat_char "0" n) = true.
Proof. by induction n. Qed.

Lemma take_drop_string n s : take_string n s +:+ drop_string n s = s.
Proof.
  revert s. induction n as [|n IH]; intros s; [done|].
  destruct s as [|a s]; [done|]. change (String a (take_string n s +:+ drop_string n s) = String a s).
  by rewrite IH.
Qed.
Lemma length_take_string n s : String.length (take_string n s) = Nat.min n (String.length s).
Proof. revert s. induction n as [|n IH]; intros [|a s]; cbn; [done..|]. by rewrite IH. Qed.
Lemma length_drop_string n s : String.length (drop_string n s) = (String.length s - n)%nat.
Proof. revert s. induction n as [|n IH]; intros [|a s]; cbn; [done..|]. by rewrite IH. Qed.
Lemma take_string_all n s t :
  n = String.length s → take_string n (s +:+ t) = s.
Proof.
  intros ->. induction s as [|a s IH]; [by destruct t|]. rewrite app_String. cbn [String.length take_string].
  by rewrite IH.
Qed.
Lemma length_repeat_char c n : String.length (repeat_char c n) = n.
Proof. induction n as [|n IH]; cbn; [done|]. by rewrite IH. Qed.
Lemma length_string_app s t : String.length (s +:+ t) = (String.length s + String.length t)%nat.
Proof. induction s as [|a s IH]; [done|]. rewrite app_String. cbn [String.length]. by rewrite IH. Qed.

Lemma big_to_string_abs m : all_digits (big_to_string (Z.abs m)) = true ∧ digits_val 0 (big_to_string (Z.abs m)) = Z.abs m.
Proof.
  assert (all_digits (big_to_string (Z.abs m)) = true ∧ big_to_string (Z.abs m) ≠ "") as [Hd Hne].
  { unfold big_to_string. destruct m; cbn; apply nz_string_of_uint_digits. }
  split; [done|]. pose proof (BigInt_to_string (Z.abs m)) as H.
  rewrite BigInt_digits in H by done. by injection H.
Qed.

(** A decimal string without leading zero is as long as its value is large. *)
Lemma digits_val_nonneg s : all_digits s = true → 0 ≤ digits_val 0 s.
Proof.
  induction s as [|a s IH]; intros H; [done|]. cbn in H. apply andb_true_iff in H as [Ha Hs].
  cbn [digits_val]. rewrite digits_val_acc. specialize (IH Hs).
  assert (0 ≤ digit_val a); [|assert (0 < 10 ^ Z.of_nat (String.length s)) by (by apply Z.pow_pos_nonneg; lia); nia].
  destruct a as [[] [] [] [] [] [] [] []]; done.
Qed.

Lemma pos_to_uint_head p d : Pos.to_uint p ≠ Decimal.D0 d.
Proof.
  intros E.
  assert (Decimal.unorm (Pos.to_uint p) = Pos.to_uint p) as Hn.
  { rewrite <- Unsigned.to_of. by rewrite Unsigned.of_to. }
  rewrite E, unorm_D0 in Hn. destruct (Decimal.uint_eq_dec d Decimal.Nil) as [->|Hd].
  - pose proof (Unsigned.of_to p) as H. by rewrite E in H.
  - pose proof (nb_digits_unorm d Hd) as H. rewrite Hn in H. cbn in H. lia.
Qed.

Lemma big_to_string_length z k :
  0 ≤ z < 10 ^ Z.of_nat k → (0 < k)%nat → (String.length (big_to_string z) ≤ k)%nat.
Proof.
  intros Hz Hk. destruct z as [|p|p]; [cbn; lia| |lia].
  destruct (big_to_string_abs (Z.pos p)) as [Hd Hv]. change (Z.abs (Z.pos p)) with (Z.pos p) in Hd, Hv.
  destruct (big_to_string (Z.pos p)) as [|a s] eqn:E; [cbn; lia|].
  cbn [String.length]. cut (Z.of_nat (String.length s) < Z.of_nat k); [lia|].
  apply (Z.pow_lt_mono_r_iff 10); [lia|lia|]. eapply Z.le_lt_trans; [|apply Hz]. rewrite <- Hv.
  cbn [digits_val]. rewrite digits_val_acc. cbn in Hd. apply andb_true_iff in Hd as [Ha Hs].
  pose proof (digits_val_nonneg s Hs) as Hp.
  assert (1 ≤ digit_val a); [|nia].
  unfold big_to_string in E. cbn in E. pose proof (pos_to_uint_head p) as Hh.
  unfold NilZero.string_of_uint in E.
  pose proof (Unsigned.to_uint_nonnil p) as Hn.
  destruct (Pos.to_uint p) eqn:Ep; try (by destruct (Hh u)); try done; cbn in E; injection E as <- _; by vm_compute.
Qed.

Lemma pad_start0_length n s : (String.length s ≤ n)%nat → String.length (pad_start0 n s) = n.
Proof. intros H. unfold pad_start0. rewrite length_string_app, length_repeat_char. lia. Qed.

Lemma pad_start0_digits n s : all_digits s = true → all_digits (pad_start0 n s) = true.
Proof. intros H. unfold pad_start0. by rewrite all_digits_app, all_digits_zeros, H. Qed.

(** A text without the character [c]. *)
Fixpoint lacks (c : ascii) (s : string) : bool :=
  match s with EmptyString => true | String a s' => negb (Ascii.eqb a c) && lacks c s' end.

Lemma lacks_app c s t : lacks c (s +:+ t) = lacks c s && lacks c t.
Proof. induction s as [|a s IH]; [done|]. change (String a s +:+ t) with (String a (s +:+ t)). cbn [lacks]. by rewrite IH, andb_assoc. Qed.

(** The text before and after the last separator is determined. *)
Lemma last_separator c a b x y :
  lacks c x = true → lacks c y = true → a +:+ String c x = b +:+ String c y → a = b ∧ x = y.
Proof.
  assert (∀ a x, lacks c (a +:+ String c x) = false) as Hl.
  { induction a0 as [|z a0 IH]; intros x0; [change (negb (Ascii.eqb c c) && lacks c x0 = false); by rewrite Ascii.eqb_refl|].
    change (negb (Ascii.eqb z c) && lacks c (a0 +:+ String c x0) = false). by rewrite IH, andb_false_r. }
  intros Hx Hy. revert b. induction a as [|z a IH]; intros [|z' b]; rewrite ?app_String; cbn [String.app].
  - by intros [= ->].
  - intros [= <- E]. rewrite E in Hx. by rewrite Hl in Hx.
  - intros [= -> E]. rewrite <- E in Hy. by rewrite Hl in Hy.
  - intros [= <- E]. destruct (IH b E) as [-> ->]. done.
Qed.

Lemma all_digits_lacks_colon s : all_digits s = true → lacks ":" s = true.
Proof.
  induction s as [|a s IH]; [done|]. cbn. intros [Ha Hs]%andb_true_iff. rewrite IH by done.
  destruct (Ascii.eqb_spec a ":"); [by subst|done].
Qed.

Lemma big_to_string_lacks_colon z : lacks ":" (big_to_string z) = true.
Proof.
  unfold big_to_string, NilZero.string_of_int. destruct (Z.to_int z) as [d|d]; cbn.
  - apply all_digits_lacks_colon, nz_string_of_uint_digits.
  - rewrite all_digits_lacks_colon; [done|]. apply nz_string_of_uint_digits.
Qed.

Lemma big_to_string_inj a b : big_to_string a = big_to_string b → a = b.
Proof. intros H. pose proof (string_to_bigint_of_big a) as Ha. rewrite H, string_to_bigint_of_big in Ha. congruence. Qed.
