(* ===== verification/Money.v ===== *)
(** Money in integer minor units and currency pegs:
    [packages/domain/src/money.ts] and [packages/domain/src/peg.ts]. *)
From S2P Require Import Prelude.
#[local] Open Scope string_scope.
#[local] Open Scope list_scope.
#[local] Open Scope Z_scope.

(** * Money *)

Abbreviation CurrencyCode := string (only parsing).

Record Money : Type := mkMoney {
  minor : Z;
  currency : CurrencyCode
}.

#[export] Instance Money_eq_dec : EqDecision Money.
Proof. solve_decision. Defined.

Definition CurrencyMismatchError (a b : CurrencyCode) : exn :=
  JsError "CurrencyMismatchError" ("Currency mismatch: " +:+ a +:+ " vs " +:+ b).

(** The [minor] argument of [money]: a [bigint], or a JavaScript number.  A
    number is an integer, a fraction (given by its truncation), a [NaN], or an
    infinity; [BigInt] of the last two is a [RangeError]. *)
Inductive minor_arg : Type :=
| Big (z : Z)
| NumInt (z : Z)
| NumFrac (trunc : Z)
| NumNotFinite.

Definition money_of (m : minor_arg) (c : CurrencyCode) : outcome Money :=
  match m with
  | Big z => Ok (mkMoney z (to_upper c))
  | NumInt z => Ok (mkMoney z (to_upper c))
  | NumFrac _ => Err (JsError "Error" "Money minor units must be integers")
  | NumNotFinite => Err (JsError "RangeError" "cannot be converted to a BigInt")
  end.

(** [money] at a [bigint], as every caller in the repository uses it. *)
Definition money (z : Z) (c : CurrencyCode) : Money := mkMoney z (to_upper c).

Definition zero (c : CurrencyCode) : Money := mkMoney 0 (to_upper c).

Definition assertSameCurrency (a b : Money) : outcome unit :=
  throw_when (bool_decide (currency a ≠ currency b))
    (CurrencyMismatchError (currency a) (currency b)).

Definition add (a b : Money) : outcome Money :=
  _ ← assertSameCurrency a b;
  Ok (mkMoney (minor a + minor b) (currency a)).

Definition subtract (a b : Money) : outcome Money :=
  _ ← assertSameCurrency a b;
  Ok (mkMoney (minor a - minor b) (currency a)).

Definition sum (values : list Money) : outcome Money :=
  match values with
  | [] => Err (JsError "Error" "Cannot sum an empty list of Money without a currency")
  | first :: rest => ofold add first rest
  end.

Definition negate (a : Money) : Money := mkMoney (- minor a) (currency a).
Definition isZero (a : Money) : bool := minor a =? 0.
Definition isNegative (a : Money) : bool := minor a <? 0.
Definition isPositive (a : Money) : bool := 0 <? minor a.

(** [compare] returns [-1], [0] or [1]. *)
Definition compare (a b : Money) : outcome Z :=
  _ ← assertSameCurrency a b;
  Ok (if minor a <? minor b then -1 else if minor b <? minor a then 1 else 0).

Definition gte (a b : Money) : outcome bool := c ← compare a b; Ok (0 <=? c).
Definition gt (a b : Money) : outcome bool := c ← compare a b; Ok (0 <? c).
Definition max (a b : Money) : outcome Money := g ← gte a b; Ok (if g : bool then a else b).
Definition min (a b : Money) : outcome Money := g ← gte a b; Ok (if g : bool then b else a).
Definition equals (a b : Money) : bool :=
  bool_decide (currency a = currency b) && (minor a =? minor b).

(** The JSON shape [{ minor: string, currency }]. *)
Definition toJSON (a : Money) : string * CurrencyCode := (big_to_string (minor a), currency a).
Definition fromJSON (v : string * CurrencyCode) : outcome Money :=
  z ← BigInt v.1;
  Ok (mkMoney z (to_upper v.2)).

(** A money value as the smart constructors build it: upper-case currency. *)
Definition money_wf (a : Money) : Prop := to_upper (currency a) = currency a.

(** * Pegs *)

Record Peg : Type := mkPeg {
  pegCurrency : CurrencyCode;
  denominationMinor : Z
}.

Definition makePeg (c : CurrencyCode) (d : Z) : outcome Peg :=
  if d <=? 0 then Err (JsError "Error" "Peg denomination must be positive")
  else Ok (mkPeg (to_upper c) d).

Definition backingForUnits (units : Z) (peg : Peg) : outcome Money :=
  if units <? 0 then Err (JsError "Error" "Token units cannot be negative")
  else Ok (money (units * denominationMinor peg) (pegCurrency peg)).

Definition unitsForBacking (backing : Money) (peg : Peg) : outcome (option Z) :=
  if bool_decide (currency backing ≠ pegCurrency peg) then
    Err (JsError "Error" ("Backing currency " +:+ currency backing +:+
      " does not match peg currency " +:+ pegCurrency peg))
  else if big_rem (minor backing) (denominationMinor peg) =? 0 then
    Ok (Some (big_div (minor backing) (denominationMinor peg)))
  else Ok None.

(** * Lemmas *)

Lemma money_of_big z c : money_of (Big z) c = Ok (money z c).
Proof. done. Qed.

Lemma money_well_formed z c : money_wf (money z c).
Proof. apply to_upper_idem. Qed.

Lemma assertSameCurrency_ok a b :
  assertSameCurrency a b = Ok tt ↔ currency a = currency b.
Proof.
  unfold assertSameCurrency. rewrite throw_when_ok, bool_decide_eq_false.
  split; [apply dec_stable | auto].
Qed.

Lemma assertSameCurrency_same a b :
  currency a = currency b → assertSameCurrency a b = Ok tt.
Proof. apply assertSameCurrency_ok. Qed.

Lemma add_ok a b c :
  add a b = Ok c ↔ currency a = currency b ∧ c = mkMoney (minor a + minor b) (currency a).
Proof.
  unfold add. rewrite outcome_bind_ok. split.
  - intros ([] & H%assertSameCurrency_ok & Hc). naive_solver.
  - intros [H ->]. exists tt. by rewrite assertSameCurrency_ok.
Qed.

Lemma add_same a b :
  currency a = currency b → add a b = Ok (mkMoney (minor a + minor b) (currency a)).
Proof. intros. by apply add_ok. Qed.

Lemma subtract_ok a b c :
  subtract a b = Ok c ↔ currency a = currency b ∧ c = mkMoney (minor a - minor b) (currency a).
Proof.
  unfold subtract. rewrite outcome_bind_ok. split.
  - intros ([] & H%assertSameCurrency_ok & Hc). naive_solver.
  - intros [H ->]. exists tt. by rewrite assertSameCurrency_ok.
Qed.

Lemma subtract_same a b :
  currency a = currency b → subtract a b = Ok (mkMoney (minor a - minor b) (currency a)).
Proof. intros. by apply subtract_ok. Qed.

Lemma compare_same a b :
  currency a = currency b →
  compare a b = Ok (if minor a <? minor b then -1 else if minor b <? minor a then 1 else 0).
Proof. intros H. unfold compare. by rewrite assertSameCurrency_same. Qed.

Lemma gte_same a b : currency a = currency b → gte a b = Ok (minor b <=? minor a).
Proof.
  intros H. unfold gte. rewrite compare_same by done. simpl. f_equal.
  repeat case_match; lia.
Qed.

Lemma max_same a b :
  currency a = currency b → max a b = Ok (mkMoney (Z.max (minor a) (minor b)) (currency a)).
Proof.
  intros H. unfold max. rewrite gte_same by done. simpl. f_equal.
  destruct (Z.leb_spec (minor b) (minor a)).
  - rewrite Z.max_l by done. by destruct a.
  - rewrite Z.max_r, H by lia. by destruct b.
Qed.

(** Summing money in one currency is summing the minor units. *)
Lemma ofold_add_same c l : ∀ acc,
  currency acc = c → Forall (λ m, currency m = c) l →
  ofold add acc l = Ok (mkMoney (minor acc + sumZ minor l) c).
Proof.
  induction l as [|m l IH]; intros acc Hacc Hl; simpl.
  - rewrite Z.add_0_r. rewrite <- Hacc. by destruct acc.
  - apply Forall_cons in Hl as [Hm Hl]. rewrite add_same by congruence. simpl.
    rewrite IH by done. simpl. do 2 f_equal. lia.
Qed.

Lemma sum_same c l :
  l ≠ [] → Forall (λ m, currency m = c) l → sum l = Ok (mkMoney (sumZ minor l) c).
Proof.
  destruct l as [|m l]; intros Hne H; [done|].
  apply Forall_cons in H as [Hm Hl]. unfold sum. by rewrite (ofold_add_same c).
Qed.

#[export] Hint Resolve assertSameCurrency_same money_well_formed : trustee.

(** * Properties *)

(** Sum: [sum] returns a value exactly on a non-empty list whose
    amounts share one currency, and then the value is the sum of the minor
    units in that currency; on every other list it throws. *)
Theorem sum_correct (l : list Money) :
  match sum l with
  | Ok s => ∃ c, l ≠ [] ∧ Forall (λ m, currency m = c) l ∧ s = mkMoney (sumZ minor l) c
  | Err _ => l = [] ∨ ¬ ∃ c, Forall (λ m, currency m = c) l
  end.
Proof.
  destruct l as [|m0 l]; [by left|]. unfold sum.
  assert (∀ acc, match ofold add acc l with
    | Ok s => Forall (λ m, currency m = currency acc) l ∧
              s = mkMoney (minor acc + sumZ minor l) (currency acc)
    | Err _ => ¬ Forall (λ m, currency m = currency acc) l end) as H.
  { induction l as [|m l IH]; intros acc; simpl.
    - split; [done|]. rewrite Z.add_0_r. by destruct acc.
    - destruct (decide (currency acc = currency m)) as [E|E].
      + rewrite add_same by done. simpl.
        specialize (IH (mkMoney (minor acc + minor m) (currency acc))). simpl in IH.
        case_match; [|by rewrite Forall_cons; intros [_ ?]].
        destruct IH as [? ->]. split; [by constructor|]. f_equal. lia.
      + unfold add, assertSameCurrency, throw_when.
        rewrite bool_decide_true by done. simpl.
        rewrite Forall_cons. intros [? _]. congruence. }
  specialize (H m0). case_match.
  - destruct H as [? ->]. exists (currency m0). split; [done|]. by split; [constructor|].
  - right. intros [c Hc%Forall_cons]. destruct Hc as [<- Hc]. done.
Qed.

(** A money value survives [fromJSON ∘ toJSON]: the minor
    units come back exactly, whatever their size, and the currency upper-cased. *)
Theorem json_roundtrip (a : Money) :
  fromJSON (toJSON a) = Ok (money (minor a) (currency a)).
Proof. unfold fromJSON, toJSON. simpl. by rewrite BigInt_to_string. Qed.

(** Peg: with a valid peg, issuing [units] requires a backing from
    which [unitsForBacking] recovers exactly [units]; negative units throw. *)
Theorem peg_roundtrip (c : CurrencyCode) (d units : Z) (peg : Peg)
    (Hpeg : makePeg c d = Ok peg) (Hunits : 0 ≤ units) :
  ∃ backing, backingForUnits units peg = Ok backing ∧
    minor backing = units * d ∧
    unitsForBacking backing peg = Ok (Some units).
Proof.
  unfold makePeg in Hpeg. destruct (Z.leb_spec d 0) as [|Hd]; [done|].
  injection Hpeg as <-. unfold backingForUnits. simpl.
  destruct (Z.ltb_spec units 0); [lia|]. eexists. split; [done|]. split; [done|].
  unfold unitsForBacking, money; simpl.
  rewrite bool_decide_false by (rewrite to_upper_idem; tauto).
  unfold big_rem, big_div. rewrite Z.rem_mul by lia. simpl.
  by rewrite Z.quot_mul by lia.
Qed.

Lemma peg_roundtrip_witness :
  ∃ backing, backingForUnits 3 (mkPeg "KHR" 5000) = Ok backing ∧
    minor backing = 3 * 5000 ∧
    unitsForBacking backing (mkPeg "KHR" 5000) = Ok (Some 3).
Proof. apply (peg_roundtrip "khr" 5000 3 (mkPeg "KHR" 5000)); [reflexivity | lia]. Defined.
