(* ===== verification/Domain.v ===== *)
(** The domain vocabulary: lifecycle statuses ([packages/domain/src/enums.ts]),
    the fund classification engine ([fund-classification.ts]), the permission
    catalogue ([permissions.ts]) and the attribute-based approval matrix
    ([abac.ts]). *)
From S2P Require Import Prelude.
#[local] Open Scope string_scope.
#[local] Open Scope list_scope.
#[local] Open Scope Z_scope.

(** * Statuses *)

Inductive DepositStatus : Type :=
| EXPECTED | DETECTED | UNMATCHED | MATCHED | PENDING_CLEARANCE | CLEARED | HELD
| DREJECTED | DRETURNED | ALLOCATED_TO_RESERVE | AVAILABLE_FOR_MINT | CONSUMED_BY_MINT
| DREFUNDED | DMANUAL_REVIEW.

Inductive MintAuthorizationStatus : Type :=
| DRAFT | PENDING_MAKER | PENDING_CHECKER | MAPPROVED | ISSUED | CONSUMED | EXPIRED
| REVOKED | REJECTED.

Inductive RedemptionStatus : Type :=
| REQUESTED | VALIDATING | COMPLIANCE_REVIEW | AWAITING_APPROVAL | RAPPROVED
| ASSET_LOCK_PENDING | ASSET_LOCKED | BURN_PENDING | BURN_CONFIRMED | PAYOUT_PENDING
| PAYOUT_SUBMITTED | PAYOUT_CONFIRMED | COMPLETED | RREJECTED | RFAILED | RRETURNED
| RMANUAL_REVIEW.

#[export] Instance DepositStatus_eq_dec : EqDecision DepositStatus.
Proof. solve_decision. Defined.
#[export] Instance MintAuthorizationStatus_eq_dec : EqDecision MintAuthorizationStatus.
Proof. solve_decision. Defined.
#[export] Instance RedemptionStatus_eq_dec : EqDecision RedemptionStatus.
Proof. solve_decision. Defined.

Definition DepositStatus_to_string (s : DepositStatus) : string :=
  match s with
  | EXPECTED => "EXPECTED" | DETECTED => "DETECTED" | UNMATCHED => "UNMATCHED"
  | MATCHED => "MATCHED" | PENDING_CLEARANCE => "PENDING_CLEARANCE" | CLEARED => "CLEARED"
  | HELD => "HELD" | DREJECTED => "REJECTED" | DRETURNED => "RETURNED"
  | ALLOCATED_TO_RESERVE => "ALLOCATED_TO_RESERVE"
  | AVAILABLE_FOR_MINT => "AVAILABLE_FOR_MINT" | CONSUMED_BY_MINT => "CONSUMED_BY_MINT"
  | DREFUNDED => "REFUNDED" | DMANUAL_REVIEW => "MANUAL_REVIEW"
  end.

Definition MintAuthorizationStatus_to_string (s : MintAuthorizationStatus) : string :=
  match s with
  | DRAFT => "DRAFT" | PENDING_MAKER => "PENDING_MAKER" | PENDING_CHECKER => "PENDING_CHECKER"
  | MAPPROVED => "APPROVED" | ISSUED => "ISSUED" | CONSUMED => "CONSUMED"
  | EXPIRED => "EXPIRED" | REVOKED => "REVOKED" | REJECTED => "REJECTED"
  end.

Definition RedemptionStatus_to_string (s : RedemptionStatus) : string :=
  match s with
  | REQUESTED => "REQUESTED" | VALIDATING => "VALIDATING"
  | COMPLIANCE_REVIEW => "COMPLIANCE_REVIEW" | AWAITING_APPROVAL => "AWAITING_APPROVAL"
  | RAPPROVED => "APPROVED" | ASSET_LOCK_PENDING => "ASSET_LOCK_PENDING"
  | ASSET_LOCKED => "ASSET_LOCKED" | BURN_PENDING => "BURN_PENDING"
  | BURN_CONFIRMED => "BURN_CONFIRMED" | PAYOUT_PENDING => "PAYOUT_PENDING"
  | PAYOUT_SUBMITTED => "PAYOUT_SUBMITTED" | PAYOUT_CONFIRMED => "PAYOUT_CONFIRMED"
  | COMPLETED => "COMPLETED" | RREJECTED => "REJECTED" | RFAILED => "FAILED"
  | RRETURNED => "RETURNED" | RMANUAL_REVIEW => "MANUAL_REVIEW"
  end.

Definition MINT_ELIGIBLE_DEPOSIT_STATUSES : list DepositStatus :=
  [CLEARED; ALLOCATED_TO_RESERVE; AVAILABLE_FOR_MINT].

(** * Fund classification *)

Inductive FundClassification : Type :=
| NON_MONETARY_PROMOTIONAL_POINT | CLOSED_LOOP_LOYALTY_VALUE | BACKED_LOYALTY_STABLECOIN
| MERCHANT_FUNDED_REWARD | PLATFORM_FUNDED_REWARD | CASHBACK_LIABILITY
| GIFT_CARD_LIABILITY | CUSTOMER_SAFEGUARDED_FUNDS | MERCHANT_SETTLEMENT_PAYABLE
| STABLE_VALUE_LIABILITY | FIAT_BACKED_STABLECOIN_LIABILITY | TOKENIZED_DEPOSIT_LIABILITY.

#[export] Instance FundClassification_eq_dec : EqDecision FundClassification.
Proof. solve_decision. Defined.

Definition FundClassification_to_string (c : FundClassification) : string :=
  match c with
  | NON_MONETARY_PROMOTIONAL_POINT => "NON_MONETARY_PROMOTIONAL_POINT"
  | CLOSED_LOOP_LOYALTY_VALUE => "CLOSED_LOOP_LOYALTY_VALUE"
  | BACKED_LOYALTY_STABLECOIN => "BACKED_LOYALTY_STABLECOIN"
  | MERCHANT_FUNDED_REWARD => "MERCHANT_FUNDED_REWARD"
  | PLATFORM_FUNDED_REWARD => "PLATFORM_FUNDED_REWARD"
  | CASHBACK_LIABILITY => "CASHBACK_LIABILITY"
  | GIFT_CARD_LIABILITY => "GIFT_CARD_LIABILITY"
  | CUSTOMER_SAFEGUARDED_FUNDS => "CUSTOMER_SAFEGUARDED_FUNDS"
  | MERCHANT_SETTLEMENT_PAYABLE => "MERCHANT_SETTLEMENT_PAYABLE"
  | STABLE_VALUE_LIABILITY => "STABLE_VALUE_LIABILITY"
  | FIAT_BACKED_STABLECOIN_LIABILITY => "FIAT_BACKED_STABLECOIN_LIABILITY"
  | TOKENIZED_DEPOSIT_LIABILITY => "TOKENIZED_DEPOSIT_LIABILITY"
  end.

Record FundBackingPolicy : Type := policy {
  classification : FundClassification;
  fiatBackingRequired : bool;
  requiredBackingBps : Z;
  redeemable : bool;
  transferable : bool;
  authorizationRequired : bool
}.

Definition POLICIES (c : FundClassification) : FundBackingPolicy :=
  match c with
  | NON_MONETARY_PROMOTIONAL_POINT => policy NON_MONETARY_PROMOTIONAL_POINT false 0 false false false
  | CLOSED_LOOP_LOYALTY_VALUE => policy CLOSED_LOOP_LOYALTY_VALUE false 0 true false false
  | BACKED_LOYALTY_STABLECOIN => policy BACKED_LOYALTY_STABLECOIN true 10000 true true true
  | MERCHANT_FUNDED_REWARD => policy MERCHANT_FUNDED_REWARD true 10000 true false true
  | PLATFORM_FUNDED_REWARD => policy PLATFORM_FUNDED_REWARD true 10000 true false true
  | CASHBACK_LIABILITY => policy CASHBACK_LIABILITY true 10000 true false true
  | GIFT_CARD_LIABILITY => policy GIFT_CARD_LIABILITY true 10000 true true true
  | CUSTOMER_SAFEGUARDED_FUNDS => policy CUSTOMER_SAFEGUARDED_FUNDS true 10000 true true true
  | MERCHANT_SETTLEMENT_PAYABLE => policy MERCHANT_SETTLEMENT_PAYABLE true 10000 false false true
  | STABLE_VALUE_LIABILITY => policy STABLE_VALUE_LIABILITY true 10000 true true true
  | FIAT_BACKED_STABLECOIN_LIABILITY => policy FIAT_BACKED_STABLECOIN_LIABILITY true 10000 true true true
  | TOKENIZED_DEPOSIT_LIABILITY => policy TOKENIZED_DEPOSIT_LIABILITY true 10000 true true true
  end.

Definition backingPolicyFor (c : FundClassification) : FundBackingPolicy := POLICIES c.
Definition requiresFiatBacking (c : FundClassification) : bool := fiatBackingRequired (POLICIES c).

(** * Permissions and built-in roles *)

Inductive Permission : Type :=
| ACCOUNT_REGISTER | ACCOUNT_ACTIVATE | ACCOUNT_CLOSE | PROGRAM_MANAGE | REGISTRY_MANAGE
| DEPOSIT_VIEW | DEPOSIT_MATCH | DEPOSIT_CLEAR | FUNDING_CREATE | RESERVE_VIEW
| MINT_REQUEST | MINT_APPROVE | MINT_REVOKE | REDEMPTION_APPROVE | PAYOUT_APPROVE
| PAYKH_PROFILE_VERIFY | PAYKH_SETTLEMENT_APPROVE | COMPLIANCE_REVIEW_P | COMPLIANCE_HOLD_P
| POR_GENERATE | ATTESTATION_APPROVE | ADMIN_USERS | ADMIN_ROLES | ADMIN_POLICIES
| ADMIN_FEATURE_FLAGS | ADMIN_EMERGENCY | AUDIT_VIEW | EXECUTIVE_VIEW.

#[export] Instance Permission_eq_dec : EqDecision Permission.
Proof. solve_decision. Defined.

Definition permission_slug (p : Permission) : string :=
  match p with
  | ACCOUNT_REGISTER => "account.register" | ACCOUNT_ACTIVATE => "account.activate"
  | ACCOUNT_CLOSE => "account.close" | PROGRAM_MANAGE => "program.manage"
  | REGISTRY_MANAGE => "registry.manage" | DEPOSIT_VIEW => "deposit.view"
  | DEPOSIT_MATCH => "deposit.match" | DEPOSIT_CLEAR => "deposit.clear"
  | FUNDING_CREATE => "funding.create" | RESERVE_VIEW => "reserve.view"
  | MINT_REQUEST => "mint.request" | MINT_APPROVE => "mint.approve"
  | MINT_REVOKE => "mint.revoke" | REDEMPTION_APPROVE => "redemption.approve"
  | PAYOUT_APPROVE => "payout.approve" | PAYKH_PROFILE_VERIFY => "paykh.profile.verify"
  | PAYKH_SETTLEMENT_APPROVE => "paykh.settlement.approve"
  | COMPLIANCE_REVIEW_P => "compliance.review" | COMPLIANCE_HOLD_P => "compliance.hold"
  | POR_GENERATE => "por.generate" | ATTESTATION_APPROVE => "attestation.approve"
  | ADMIN_USERS => "admin.users" | ADMIN_ROLES => "admin.roles"
  | ADMIN_POLICIES => "admin.policies" | ADMIN_FEATURE_FLAGS => "admin.feature-flags"
  | ADMIN_EMERGENCY => "admin.emergency" | AUDIT_VIEW => "audit.view"
  | EXECUTIVE_VIEW => "executive.view"
  end.

Definition all_permissions : list Permission :=
  [ACCOUNT_REGISTER; ACCOUNT_ACTIVATE; ACCOUNT_CLOSE; PROGRAM_MANAGE; REGISTRY_MANAGE;
   DEPOSIT_VIEW; DEPOSIT_MATCH; DEPOSIT_CLEAR; FUNDING_CREATE; RESERVE_VIEW;
   MINT_REQUEST; MINT_APPROVE; MINT_REVOKE; REDEMPTION_APPROVE; PAYOUT_APPROVE;
   PAYKH_PROFILE_VERIFY; PAYKH_SETTLEMENT_APPROVE; COMPLIANCE_REVIEW_P; COMPLIANCE_HOLD_P;
   POR_GENERATE; ATTESTATION_APPROVE; ADMIN_USERS; ADMIN_ROLES; ADMIN_POLICIES;
   ADMIN_FEATURE_FLAGS; ADMIN_EMERGENCY; AUDIT_VIEW; EXECUTIVE_VIEW].

(** [Object.values(Permission)]. *)
Definition ALL_PERMISSIONS : list string := permission_slug <$> all_permissions.

Record RoleDefinition : Type := mkRoleDefinition {
  rd_slug : string;
  rd_name : string;
  rd_institution : string;
  rd_permissions : list Permission
}.

Definition BUILTIN_ROLES : list RoleDefinition :=
  [mkRoleDefinition "trustee_super_admin" "Trustee Bank Super Administrator" "TRUSTEE_BANK"
     all_permissions;
   mkRoleDefinition "trustee_operations_maker" "Trustee Operations Maker" "TRUSTEE_BANK"
     [DEPOSIT_VIEW; DEPOSIT_MATCH; FUNDING_CREATE; RESERVE_VIEW; MINT_REQUEST];
   mkRoleDefinition "trustee_operations_checker" "Trustee Operations Checker" "TRUSTEE_BANK"
     [DEPOSIT_VIEW; DEPOSIT_CLEAR; RESERVE_VIEW; MINT_APPROVE; MINT_REVOKE];
   mkRoleDefinition "treasury_maker" "Treasury Maker" "TRUSTEE_BANK"
     [RESERVE_VIEW; POR_GENERATE];
   mkRoleDefinition "treasury_checker" "Treasury Checker" "TRUSTEE_BANK"
     [RESERVE_VIEW; PAYOUT_APPROVE; REDEMPTION_APPROVE];
   mkRoleDefinition "compliance_analyst" "Compliance Analyst" "TRUSTEE_BANK"
     [COMPLIANCE_REVIEW_P];
   mkRoleDefinition "compliance_approver" "Compliance Approver" "TRUSTEE_BANK"
     [COMPLIANCE_REVIEW_P; COMPLIANCE_HOLD_P];
   mkRoleDefinition "internal_auditor" "Internal Auditor" "TRUSTEE_BANK"
     [AUDIT_VIEW; RESERVE_VIEW; EXECUTIVE_VIEW];
   mkRoleDefinition "security_admin" "Security Administrator" "TRUSTEE_BANK"
     [ADMIN_USERS; ADMIN_ROLES; ADMIN_EMERGENCY];
   mkRoleDefinition "readonly_executive" "Read-only Executive" "TRUSTEE_BANK"
     [EXECUTIVE_VIEW; RESERVE_VIEW]].

Definition roleSetHasPermission (roleDefs : list (list string)) (p : string) : bool :=
  existsb (λ ps, bool_decide (p ∈ ps)) roleDefs.

(** * Attribute-based approval policies *)

Inductive abac_effect : Type := REQUIRE | DENY | OtherEffect (s : string).
#[export] Instance abac_effect_eq_dec : EqDecision abac_effect.
Proof. solve_decision. Defined.

Record AbacTransaction : Type := mkAbacTransaction {
  tx_transactionType : string;
  tx_amountMinor : option Z;
  tx_currency : option string;
  tx_riskLevel : option string;
  tx_programId : option string;
  tx_assetId : option string;
  tx_jurisdiction : option string
}.

Record AbacPolicyRule : Type := mkAbacPolicyRule {
  ap_id : string;
  ap_transactionType : string;
  ap_minAmountMinor : option Z;
  ap_maxAmountMinor : option Z;
  ap_currency : option string;
  ap_riskLevel : option string;
  ap_programId : option string;
  ap_assetId : option string;
  ap_jurisdiction : option string;
  ap_requiredApprovals : Z;
  ap_requiredRoles : list string;
  ap_effect : abac_effect;
  ap_priority : Z;
  ap_enabled : bool
}.

Record AbacDecision : Type := mkAbacDecision {
  denied : bool;
  requiredApprovals : Z;
  requiredRoles : list string;
  matchedPolicyId : option string
}.

(** [policy.x && policy.x !== tx.x] fails the match; [null] and the empty
    string are falsy, so they match anything. *)
Definition attr_matches (p t : option string) : bool :=
  match p with
  | None | Some "" => true
  | Some s => bool_decide (t = Some s)
  end.

Definition amount_at_least (lo amt : option Z) : bool :=
  match lo with
  | None => true
  | Some l => match amt with None => false | Some a => negb (a <? l) end
  end.
Definition amount_at_most (hi amt : option Z) : bool :=
  match hi with
  | None => true
  | Some h => match amt with None => false | Some a => negb (h <? a) end
  end.

Definition matches (p : AbacPolicyRule) (tx : AbacTransaction) : bool :=
  ap_enabled p &&
  bool_decide (ap_transactionType p = tx_transactionType tx) &&
  attr_matches (ap_currency p) (tx_currency tx) &&
  attr_matches (ap_riskLevel p) (tx_riskLevel tx) &&
  attr_matches (ap_programId p) (tx_programId tx) &&
  attr_matches (ap_assetId p) (tx_assetId tx) &&
  attr_matches (ap_jurisdiction p) (tx_jurisdiction tx) &&
  amount_at_least (ap_minAmountMinor p) (tx_amountMinor tx) &&
  amount_at_most (ap_maxAmountMinor p) (tx_amountMinor tx).

(** [Array.prototype.sort] with [(a, b) => b.priority - a.priority]: a stable
    descending sort. *)
Fixpoint insert_by_priority (x : AbacPolicyRule) (l : list AbacPolicyRule) : list AbacPolicyRule :=
  match l with
  | [] => [x]
  | y :: l' =>
      if ap_priority y <=? ap_priority x then x :: l
      else y :: insert_by_priority x l'
  end.
Definition sort_by_priority (l : list AbacPolicyRule) : list AbacPolicyRule :=
  foldr insert_by_priority [] l.

Definition evaluateAbac (policies : list AbacPolicyRule) (tx : AbacTransaction) : AbacDecision :=
  let matched := sort_by_priority (List.filter (λ p, matches p tx) policies) in
  match List.find (λ p, bool_decide (ap_effect p = DENY)) matched with
  | Some deny => mkAbacDecision true 0 [] (Some (ap_id deny))
  | None =>
      match List.find (λ p, bool_decide (ap_effect p = REQUIRE)) matched with
      | Some r => mkAbacDecision false (ap_requiredApprovals r) (ap_requiredRoles r) (Some (ap_id r))
      | None => mkAbacDecision false 2 [] None
      end
  end.

(** * Lemmas on the priority sort *)

Lemma insert_by_priority_perm x l : insert_by_priority x l ≡ₚ x :: l.
Proof.
  induction l as [|y l IH]; simpl; [done|]. case_match; [done|].
  rewrite IH. apply Permutation_swap.
Qed.

Lemma sort_by_priority_perm l : sort_by_priority l ≡ₚ l.
Proof.
  induction l as [|x l IH]; simpl; [done|].
  rewrite insert_by_priority_perm. by constructor.
Qed.

Abbreviation prio_desc := (λ a b, ap_priority b ≤ ap_priority a).

Lemma insert_by_priority_sorted x l :
  StronglySorted prio_desc l → StronglySorted prio_desc (insert_by_priority x l).
Proof.
  induction l as [|y l IH]; intros Hs; simpl; [by repeat constructor|].
  apply StronglySorted_inv in Hs as [Hs Hy].
  destruct (Z.leb_spec (ap_priority y) (ap_priority x)) as [Hle|Hgt].
  - constructor; [by constructor|]. constructor; [done|].
    eapply Forall_impl; [exact Hy|]. simpl. intros z ?. lia.
  - constructor; [by apply IH|]. rewrite insert_by_priority_perm.
    constructor; [lia | done].
Qed.

Lemma sort_by_priority_sorted l : StronglySorted prio_desc (sort_by_priority l).
Proof.
  induction l as [|x l IH]; simpl; [constructor|]. by apply insert_by_priority_sorted.
Qed.

(** The first match in a sorted list has the highest priority of all matches. *)
Lemma find_sorted_max f l p :
  StronglySorted prio_desc l → List.find f l = Some p →
  p ∈ l ∧ f p = true ∧ ∀ q, q ∈ l → f q = true → ap_priority q ≤ ap_priority p.
Proof.
  induction l as [|x l IH]; simpl; [done|].
  intros [Hs Hx]%StronglySorted_inv Hf. destruct (f x) eqn:E.
  - injection Hf as ->. split; [set_solver|]. split; [done|].
    intros q [->|Hq]%elem_of_cons _; [done|].
    rewrite Forall_forall in Hx. by apply Hx.
  - destruct (IH Hs Hf) as (? & ? & Hmax). split; [set_solver|]. split; [done|].
    intros q [->|Hq]%elem_of_cons ?; [congruence | by apply Hmax].
Qed.

Lemma elem_of_matched policies tx p :
  p ∈ sort_by_priority (List.filter (λ p, matches p tx) policies) ↔
  p ∈ policies ∧ matches p tx = true.
Proof.
  rewrite sort_by_priority_perm, !list_elem_of_In. apply filter_In.
Qed.

Lemma find_none_forall {A} (f : A → bool) l :
  List.find f l = None → ∀ x, x ∈ l → f x = false.
Proof. intros H x Hx. by apply (find_none f l H), list_elem_of_In. Qed.

(** * Properties *)

Definition applicable (policies : list AbacPolicyRule) (tx : AbacTransaction)
    (e : abac_effect) (p : AbacPolicyRule) : Prop :=
  p ∈ policies ∧ matches p tx = true ∧ ap_effect p = e.

(** [p] applies with effect [e], and no other applicable policy outranks it. *)
Definition top_applicable (policies : list AbacPolicyRule) (tx : AbacTransaction)
    (e : abac_effect) (p : AbacPolicyRule) : Prop :=
  applicable policies tx e p ∧
  ∀ q, applicable policies tx e q → ap_priority q ≤ ap_priority p.

Lemma find_effect_top policies tx e p :
  List.find (λ p, bool_decide (ap_effect p = e))
    (sort_by_priority (List.filter (λ p, matches p tx) policies)) = Some p →
  top_applicable policies tx e p.
Proof.
  intros (Hin & He & Hmax)%find_sorted_max; [|apply sort_by_priority_sorted].
  apply elem_of_matched in Hin as [? ?]. apply bool_decide_eq_true in He.
  split; [done|]. intros q (? & ? & ?). apply Hmax.
  - by apply elem_of_matched.
  - by apply bool_decide_eq_true.
Qed.

Lemma find_effect_none policies tx e :
  List.find (λ p, bool_decide (ap_effect p = e))
    (sort_by_priority (List.filter (λ p, matches p tx) policies)) = None →
  ∀ p, ¬ applicable policies tx e p.
Proof.
  intros H p (Hp & Hm & He). apply (find_none_forall _ _) with (x := p) in H.
  - by apply bool_decide_eq_false in H.
  - by apply elem_of_matched.
Qed.

(** C39. The approval decision for a transaction: denied exactly when some
    enabled, matching policy has effect DENY, whatever the priority of the
    REQUIRE policies; otherwise the requirements are those of a matching
    REQUIRE policy that no other one outranks; with none, two approvals and no
    role restriction. *)
Theorem evaluateAbac_correct (policies : list AbacPolicyRule) (tx : AbacTransaction) :
  let d := evaluateAbac policies tx in
  (denied d = true ∧ ∃ p, top_applicable policies tx DENY p ∧
     d = mkAbacDecision true 0 [] (Some (ap_id p))) ∨
  (denied d = false ∧ (¬ ∃ p, applicable policies tx DENY p) ∧
     ((∃ p, top_applicable policies tx REQUIRE p ∧
        d = mkAbacDecision false (ap_requiredApprovals p) (ap_requiredRoles p) (Some (ap_id p)))
      ∨ ((¬ ∃ p, applicable policies tx REQUIRE p) ∧ d = mkAbacDecision false 2 [] None))).
Proof.
  unfold evaluateAbac. simpl.
  destruct (List.find _ _) as [p|] eqn:Hd.
  - left. split; [done|]. exists p. split; [by apply find_effect_top | done].
  - right. pose proof (find_effect_none _ _ _ Hd) as Hno.
    destruct (List.find (λ p, bool_decide (ap_effect p = REQUIRE)) _) as [p|] eqn:Hr.
    + split; [done|]. split; [naive_solver|]. left. exists p.
      split; [by apply find_effect_top | done].
    + pose proof (find_effect_none _ _ _ Hr). split; [done|].
      split; [naive_solver|]. right. split; [naive_solver | done].
Qed.

(** The fund classification engine: a classification requires fiat backing
    exactly when its issuance needs trustee authorization, and then at 100%;
    the unbacked ones carry no required ratio and cannot be transferred. *)
Theorem backing_policy_coherent (c : FundClassification) :
  let p := backingPolicyFor c in
  classification p = c ∧
  requiresFiatBacking c = authorizationRequired p ∧
  requiredBackingBps p = (if requiresFiatBacking c then 10000 else 0) ∧
  (transferable p = true → redeemable p = true ∧ requiresFiatBacking c = true).
Proof. destruct c; repeat split; try done. Qed.

Lemma backing_policy_coherent_witness :
  redeemable (backingPolicyFor GIFT_CARD_LIABILITY) = true ∧
  requiresFiatBacking GIFT_CARD_LIABILITY = true.
Proof.
  destruct (backing_policy_coherent GIFT_CARD_LIABILITY) as (_ & _ & _ & H).
  apply H. reflexivity.
Defined.

(** C40. Segregation of duties in the role catalogue: apart from the super
    administrator, no built-in role holds both a maker permission (requesting a
    mint) and the checker permissions (approving a mint, clearing a deposit),
    and no role that can place a compliance hold can approve a mint. *)
Theorem builtin_roles_segregated :
  Forall (λ r, rd_slug r = "trustee_super_admin" ∨
    let has p := roleSetHasPermission [permission_slug <$> rd_permissions r] (permission_slug p) in
    (has MINT_REQUEST && has MINT_APPROVE = false) ∧
    (has DEPOSIT_MATCH && has DEPOSIT_CLEAR = false) ∧
    (has COMPLIANCE_HOLD_P && has MINT_APPROVE = false)) BUILTIN_ROLES.
Proof. repeat (constructor; [vm_compute; tauto|]). constructor. Qed.

Lemma all_permissions_complete p : p ∈ all_permissions.
Proof. apply list_elem_of_In. destruct p; simpl; tauto. Qed.
