(* ===== verification/Compiled.v ===== *)
(** The compiled JavaScript beside the sources of [packages/domain/src]: [money.js],
    [enums.js] and [fund-classification.js], which a resolver that tries [.js] before
    [.ts] loads instead of them, as the test runner of the package does.  They agree with
    the sources except for one fund classification. *)
From S2P Require Import Prelude.
From S2P Require Import Money.
From S2P Require Import Domain.
#[local] Open Scope string_scope.
#[local] Open Scope list_scope.
#[local] Open Scope Z_scope.

(** * Definitions *)

(** An object whose keys are its values, in the order of its entries. *)
Definition enum (keys : list string) : list (string * string) := (λ k, (k, k)) <$> keys.

(** ** The enums of [enums.ts] *)
Module Ts.

Definition AccountClassification : list (string * string) := enum
  ["SAFEGUARDED_CUSTOMER_FUNDS"; "TRUST_ACCOUNT"; "ESCROW_ACCOUNT"; "CLIENT_MONEY_ACCOUNT"; "RESERVE_ACCOUNT";
   "SETTLEMENT_ACCOUNT"; "REDEMPTION_ACCOUNT"; "OPERATIONAL_ACCOUNT"; "FEE_ACCOUNT"; "COLLATERAL_ACCOUNT";
   "TOKENIZED_DEPOSIT_ACCOUNT"].

Definition DepositStatus : list (string * string) := enum
  ["EXPECTED"; "DETECTED"; "UNMATCHED"; "MATCHED"; "PENDING_CLEARANCE"; "CLEARED"; "HELD"; "REJECTED";
   "RETURNED"; "ALLOCATED_TO_RESERVE"; "AVAILABLE_FOR_MINT"; "CONSUMED_BY_MINT"; "REFUNDED"; "MANUAL_REVIEW"].

Definition MintAuthorizationStatus : list (string * string) := enum
  ["DRAFT"; "PENDING_MAKER"; "PENDING_CHECKER"; "APPROVED"; "ISSUED"; "CONSUMED"; "EXPIRED"; "REVOKED";
   "REJECTED"].

Definition RedemptionStatus : list (string * string) := enum
  ["REQUESTED"; "VALIDATING"; "COMPLIANCE_REVIEW"; "AWAITING_APPROVAL"; "APPROVED"; "ASSET_LOCK_PENDING";
   "ASSET_LOCKED"; "BURN_PENDING"; "BURN_CONFIRMED"; "PAYOUT_PENDING"; "PAYOUT_SUBMITTED"; "PAYOUT_CONFIRMED";
   "COMPLETED"; "REJECTED"; "FAILED"; "RETURNED"; "MANUAL_REVIEW"].

Definition RiskLevel : list (string * string) := enum
  ["LOW"; "MEDIUM"; "HIGH"; "CRITICAL"].

Definition DataClassification : list (string * string) := enum
  ["PUBLIC"; "INTERNAL"; "CONFIDENTIAL"; "RESTRICTED"; "REGULATORY_RESTRICTED"].

Definition FundClassification : list (string * string) := enum
  ["NON_MONETARY_PROMOTIONAL_POINT"; "CLOSED_LOOP_LOYALTY_VALUE"; "BACKED_LOYALTY_STABLECOIN";
   "MERCHANT_FUNDED_REWARD"; "PLATFORM_FUNDED_REWARD"; "CASHBACK_LIABILITY"; "GIFT_CARD_LIABILITY";
   "CUSTOMER_SAFEGUARDED_FUNDS"; "MERCHANT_SETTLEMENT_PAYABLE"; "STABLE_VALUE_LIABILITY";
   "FIAT_BACKED_STABLECOIN_LIABILITY"; "TOKENIZED_DEPOSIT_LIABILITY"].

Definition ClientPlatform : list (string * string) := enum
  ["PAYCHAIN"; "PAYKH"; "TRUSTEE_BANK_PORTAL"; "AUDITOR_PORTAL"; "REGULATOR_PORTAL"].

Definition ReservePolicy : list (string * string) := enum
  ["FULL_100"; "OVERCOLLATERALIZED"; "ASSET_BUFFER"; "INTRADAY_BUFFER"; "REDEMPTION_LIQUIDITY_BUFFER";
   "REGULATORY_BUFFER"].

Definition all : list (string * list (string * string)) :=
  [("AccountClassification", AccountClassification);
   ("DepositStatus", DepositStatus);
   ("MintAuthorizationStatus", MintAuthorizationStatus);
   ("RedemptionStatus", RedemptionStatus);
   ("RiskLevel", RiskLevel);
   ("DataClassification", DataClassification);
   ("FundClassification", FundClassification);
   ("ClientPlatform", ClientPlatform);
   ("ReservePolicy", ReservePolicy)].
End Ts.

(** ** Those of [enums.js] *)
Module Js.

Definition AccountClassification : list (string * string) := enum
  ["SAFEGUARDED_CUSTOMER_FUNDS"; "TRUST_ACCOUNT"; "ESCROW_ACCOUNT"; "CLIENT_MONEY_ACCOUNT"; "RESERVE_ACCOUNT";
   "SETTLEMENT_ACCOUNT"; "REDEMPTION_ACCOUNT"; "OPERATIONAL_ACCOUNT"; "FEE_ACCOUNT"; "COLLATERAL_ACCOUNT";
   "TOKENIZED_DEPOSIT_ACCOUNT"].

Definition DepositStatus : list (string * string) := enum
  ["EXPECTED"; "DETECTED"; "UNMATCHED"; "MATCHED"; "PENDING_CLEARANCE"; "CLEARED"; "HELD"; "REJECTED";
   "RETURNED"; "ALLOCATED_TO_RESERVE"; "AVAILABLE_FOR_MINT"; "CONSUMED_BY_MINT"; "REFUNDED"; "MANUAL_REVIEW"].

Definition MintAuthorizationStatus : list (string * string) := enum
  ["DRAFT"; "PENDING_MAKER"; "PENDING_CHECKER"; "APPROVED"; "ISSUED"; "CONSUMED"; "EXPIRED"; "REVOKED";
   "REJECTED"].

Definition RedemptionStatus : list (string * string) := enum
  ["REQUESTED"; "VALIDATING"; "COMPLIANCE_REVIEW"; "AWAITING_APPROVAL"; "APPROVED"; "ASSET_LOCK_PENDING";
   "ASSET_LOCKED"; "BURN_PENDING"; "BURN_CONFIRMED"; "PAYOUT_PENDING"; "PAYOUT_SUBMITTED"; "PAYOUT_CONFIRMED";
   "COMPLETED"; "REJECTED"; "FAILED"; "RETURNED"; "MANUAL_REVIEW"].

Definition RiskLevel : list (string * string) := enum
  ["LOW"; "MEDIUM"; "HIGH"; "CRITICAL"].

Definition DataClassification : list (string * string) := enum
  ["PUBLIC"; "INTERNAL"; "CONFIDENTIAL"; "RESTRICTED"; "REGULATORY_RESTRICTED"].

Definition FundClassification : list (string * string) := enum
  ["NON_MONETARY_PROMOTIONAL_POINT"; "CLOSED_LOOP_LOYALTY_VALUE"; "MERCHANT_FUNDED_REWARD";
   "PLATFORM_FUNDED_REWARD"; "CASHBACK_LIABILITY"; "GIFT_CARD_LIABILITY"; "CUSTOMER_SAFEGUARDED_FUNDS";
   "MERCHANT_SETTLEMENT_PAYABLE"; "STABLE_VALUE_LIABILITY"; "FIAT_BACKED_STABLECOIN_LIABILITY";
   "TOKENIZED_DEPOSIT_LIABILITY"].

Definition ClientPlatform : list (string * string) := enum
  ["PAYCHAIN"; "PAYKH"; "TRUSTEE_BANK_PORTAL"; "AUDITOR_PORTAL"; "REGULATOR_PORTAL"].

Definition ReservePolicy : list (string * string) := enum
  ["FULL_100"; "OVERCOLLATERALIZED"; "ASSET_BUFFER"; "INTRADAY_BUFFER"; "REDEMPTION_LIQUIDITY_BUFFER";
   "REGULATORY_BUFFER"].

Definition MINT_ELIGIBLE_DEPOSIT_STATUSES : list string := ["CLEARED"; "ALLOCATED_TO_RESERVE"; "AVAILABLE_FOR_MINT"].

Definition all : list (string * list (string * string)) :=
  [("AccountClassification", AccountClassification);
   ("DepositStatus", DepositStatus);
   ("MintAuthorizationStatus", MintAuthorizationStatus);
   ("RedemptionStatus", RedemptionStatus);
   ("RiskLevel", RiskLevel);
   ("DataClassification", DataClassification);
   ("FundClassification", FundClassification);
   ("ClientPlatform", ClientPlatform);
   ("ReservePolicy", ReservePolicy)].
(** ** [fund-classification.js]: a table looked up by any text *)

Record FundBackingPolicy : Type := policy {
  classification : string; fiatBackingRequired : bool; requiredBackingBps : Z;
  redeemable : bool; transferable : bool; authorizationRequired : bool
}.

Definition POLICIES : list FundBackingPolicy :=
  [policy "NON_MONETARY_PROMOTIONAL_POINT" false 0 false false false;
   policy "CLOSED_LOOP_LOYALTY_VALUE" false 0 true false false;
   policy "MERCHANT_FUNDED_REWARD" true 10000 true false true;
   policy "PLATFORM_FUNDED_REWARD" true 10000 true false true;
   policy "CASHBACK_LIABILITY" true 10000 true false true;
   policy "GIFT_CARD_LIABILITY" true 10000 true true true;
   policy "CUSTOMER_SAFEGUARDED_FUNDS" true 10000 true true true;
   policy "MERCHANT_SETTLEMENT_PAYABLE" true 10000 false false true;
   policy "STABLE_VALUE_LIABILITY" true 10000 true true true;
   policy "FIAT_BACKED_STABLECOIN_LIABILITY" true 10000 true true true;
   policy "TOKENIZED_DEPOSIT_LIABILITY" true 10000 true true true].

Definition backingPolicyFor (c : string) : option FundBackingPolicy :=
  snd <$> list_find (λ p, classification p = c) POLICIES.
Definition requiresFiatBacking (c : string) : outcome bool :=
  match backingPolicyFor c with
  | Some p => Ok (fiatBackingRequired p)
  | None => Err (JsError "TypeError" "Cannot read properties of undefined (reading 'fiatBackingRequired')")
  end.

(** ** [money.js] *)

Definition CurrencyMismatchError (a b : string) : exn :=
  JsError "CurrencyMismatchError" ("Currency mismatch: " +:+ a +:+ " vs " +:+ b).

(** [BigInt(Math.trunc(minor))] runs before the check of a number. *)
Definition money (m : minor_arg) (currency : string) : outcome Money :=
  value ← match m with
          | Big z | NumInt z | NumFrac z => Ok z
          | NumNotFinite => Err (JsError "RangeError" "cannot be converted to a BigInt")
          end;
  match m with
  | NumFrac _ => Err (JsError "Error" "Money minor units must be integers")
  | _ => Ok (mkMoney value (to_upper currency))
  end.

Definition zero (currency : string) : Money := mkMoney 0 (to_upper currency).
Definition assertSameCurrency (a b : Money) : outcome unit :=
  if negb (bool_decide (currency a = currency b)) then Err (CurrencyMismatchError (currency a) (currency b)) else Ok tt.
Definition add (a b : Money) : outcome Money :=
  assertSameCurrency a b;; Ok (mkMoney (minor a + minor b) (currency a)).
Definition subtract (a b : Money) : outcome Money :=
  assertSameCurrency a b;; Ok (mkMoney (minor a - minor b) (currency a)).

(** [values.slice(1).reduce(...)] *)
Fixpoint reduce_add (acc : Money) (l : list Money) : outcome Money :=
  match l with
  | [] => Ok acc
  | m :: l' => acc' ← add acc m; reduce_add acc' l'
  end.
Definition sum (values : list Money) : outcome Money :=
  match values with
  | [] => Err (JsError "Error" "Cannot sum an empty list of Money without a currency")
  | first :: rest => reduce_add first rest
  end.

Definition negate (a : Money) : Money := mkMoney (- minor a) (currency a).
Definition isZero (a : Money) : bool := minor a =? 0.
Definition isNegative (a : Money) : bool := minor a <? 0.
Definition isPositive (a : Money) : bool := minor a >? 0.

(** Two early returns, then 0. *)
Definition compare (a b : Money) : outcome Z :=
  assertSameCurrency a b;;
  if minor a <? minor b then Ok (-1) else if minor a >? minor b then Ok 1 else Ok 0.
Definition gte (a b : Money) : outcome bool := c ← compare a b; Ok (c >=? 0).
Definition gt (a b : Money) : outcome bool := c ← compare a b; Ok (c >? 0).
Definition max (a b : Money) : outcome Money := g ← gte a b; Ok (if (g : bool) then a else b).
Definition min (a b : Money) : outcome Money := g ← gte a b; Ok (if (g : bool) then b else a).
Definition equals (a b : Money) : bool := bool_decide (currency a = currency b) && (minor a =? minor b).
Definition toJSON (a : Money) : string * string := (big_to_string (minor a), currency a).
Definition fromJSON (v : string * string) : outcome Money := z ← BigInt v.1; Ok (mkMoney z (to_upper v.2)).
End Js.

(** * The copies against the sources *)

Lemma same_currency a b : Js.assertSameCurrency a b = assertSameCurrency a b.
Proof.
  unfold Js.assertSameCurrency, assertSameCurrency, throw_when.
  rewrite (bool_decide_not (currency a = currency b)). by destruct (bool_decide _).
Qed.

Lemma same_add a b : Js.add a b = add a b.
Proof. unfold Js.add, add. by rewrite same_currency. Qed.

Lemma same_compare a b : Js.compare a b = compare a b.
Proof.
  unfold Js.compare, compare. rewrite same_currency. destruct (assertSameCurrency a b); [|done].
  cbn [mbind outcome_bind]. rewrite Z.gtb_ltb. by destruct (minor a <? minor b), (minor b <? minor a).
Qed.

Lemma same_gte a b : Js.gte a b = gte a b.
Proof. unfold Js.gte, gte. rewrite same_compare. destruct (compare a b); [|done]. cbn. by rewrite Z.geb_leb. Qed.

Lemma same_sum l : Js.sum l = sum l.
Proof.
  destruct l as [|first l]; [done|]. cbn. revert first. induction l as [|m l IH]; intros first; [done|].
  cbn. rewrite same_add. destruct (add first m); [apply IH|done].
Qed.

(** The functions of [money.js] are those of [money.ts]. *)
Theorem money_copy_agrees :
  (∀ m c, Js.money m c = money_of m c) ∧ (∀ l, Js.sum l = sum l) ∧
  (∀ a b, Js.add a b = add a b ∧ Js.subtract a b = subtract a b ∧ Js.compare a b = compare a b ∧
     Js.gte a b = gte a b ∧ Js.gt a b = gt a b ∧ Js.max a b = max a b ∧ Js.min a b = min a b ∧
     Js.equals a b = equals a b) ∧
  (∀ a, Js.negate a = negate a ∧ Js.isZero a = isZero a ∧ Js.isNegative a = isNegative a ∧
     Js.isPositive a = isPositive a ∧ Js.toJSON a = toJSON a) ∧
  (∀ v, Js.fromJSON v = fromJSON v).
Proof.
  split_and!; [by intros []|apply same_sum| | |done].
  - intros a b. unfold Js.subtract, subtract, Js.gt, gt, Js.max, max, Js.min, min.
    rewrite same_currency, same_add, same_compare, same_gte. split_and!; try done.
    destruct (compare a b); [|done]. cbn. by rewrite Z.gtb_ltb.
  - intros a. split_and!; try done. apply Z.gtb_ltb.
Qed.

(** The enums of [enums.js] are those of [enums.ts] but for the classification it lacks;
    that one has no policy in [fund-classification.js], where asking whether it needs
    backing throws; every other policy is that of the source. *)
Theorem enums_copy_stale :
  (∀ name, name ≠ "FundClassification" →
     list_find (λ e, e.1 = name) Js.all = list_find (λ e, e.1 = name) Ts.all) ∧
  Js.FundClassification = filter (λ e, e.1 ≠ "BACKED_LOYALTY_STABLECOIN") Ts.FundClassification ∧
  Js.MINT_ELIGIBLE_DEPOSIT_STATUSES = DepositStatus_to_string <$> MINT_ELIGIBLE_DEPOSIT_STATUSES ∧
  (∀ c, Js.backingPolicyFor (FundClassification_to_string c) =
     if bool_decide (c = BACKED_LOYALTY_STABLECOIN) then None
     else let p := backingPolicyFor c in
          Some (Js.policy (FundClassification_to_string c) (fiatBackingRequired p) (requiredBackingBps p)
                  (redeemable p) (transferable p) (authorizationRequired p))) ∧
  is_ok (Js.requiresFiatBacking "BACKED_LOYALTY_STABLECOIN") = false.
Proof.
  split_and!; [|reflexivity|reflexivity|by intros []|reflexivity].
  intros name Hn. unfold Js.all, Ts.all. cbn [list_find fst].
  repeat (destruct (decide (_ = name)) as [E|_]; [first [reflexivity|by destruct (Hn (eq_sym E))]|cbn [fmap option_fmap option_map]]). done.
Qed.

(** The status objects of the source are the texts of the constructors of [Domain]. *)
Theorem enums_are_domains :
  Ts.DepositStatus = enum (DepositStatus_to_string <$>
    [EXPECTED; DETECTED; UNMATCHED; MATCHED; PENDING_CLEARANCE; CLEARED; HELD; DREJECTED; DRETURNED; ALLOCATED_TO_RESERVE;
     AVAILABLE_FOR_MINT; CONSUMED_BY_MINT; DREFUNDED; DMANUAL_REVIEW]) ∧
  Ts.MintAuthorizationStatus = enum (MintAuthorizationStatus_to_string <$>
    [DRAFT; PENDING_MAKER; PENDING_CHECKER; MAPPROVED; ISSUED; CONSUMED; EXPIRED; REVOKED; REJECTED]) ∧
  Ts.RedemptionStatus = enum (RedemptionStatus_to_string <$>
    [REQUESTED; VALIDATING; COMPLIANCE_REVIEW; AWAITING_APPROVAL; RAPPROVED; ASSET_LOCK_PENDING; ASSET_LOCKED; BURN_PENDING;
     BURN_CONFIRMED; PAYOUT_PENDING; PAYOUT_SUBMITTED; PAYOUT_CONFIRMED; COMPLETED; RREJECTED; RFAILED; RRETURNED;
     RMANUAL_REVIEW]) ∧
  (∀ c, (FundClassification_to_string c, FundClassification_to_string c) ∈ Ts.FundClassification).
Proof. split_and!; [reflexivity..|]. intros c. unfold Ts.FundClassification, enum. apply list_elem_of_fmap. exists (FundClassification_to_string c). split; [done|]. destruct c; set_solver. Qed.
