(* ===== verification/Ledger.v ===== *)
(** The double-entry journal engine: the chart of accounts
    ([packages/ledger/src/accounts.ts]), validated journal entries and their
    reversals ([journal.ts]) and the entry templates ([entries.ts]). *)
From S2P Require Import Prelude.
From S2P Require Import Money.
#[local] Open Scope string_scope.
#[local] Open Scope list_scope.
#[local] Open Scope Z_scope.

(** * Chart of accounts *)

Inductive LedgerAccountType : Type := ASSET | LIABILITY | INCOME | EXPENSE | SUSPENSE.
#[export] Instance LedgerAccountType_eq_dec : EqDecision LedgerAccountType.
Proof. solve_decision. Defined.

Definition ASSET_TRUSTEE_BANK_CASH := "ASSET:TRUSTEE_BANK_CASH".
Definition ASSET_PAYCHAIN_RESERVE_CASH := "ASSET:PAYCHAIN_RESERVE_CASH".
Definition ASSET_SETTLEMENT_RECEIVABLE := "ASSET:SETTLEMENT_RECEIVABLE".
Definition ASSET_REDEMPTION_RECEIVABLE := "ASSET:REDEMPTION_RECEIVABLE".
Definition LIABILITY_PAYCHAIN_RESERVE_OBLIGATION := "LIABILITY:PAYCHAIN_RESERVE_OBLIGATION".
Definition LIABILITY_PENDING_MINT := "LIABILITY:PENDING_MINT".
Definition LIABILITY_PENDING_REDEMPTION := "LIABILITY:PENDING_REDEMPTION".
Definition LIABILITY_UNMATCHED_DEPOSIT := "LIABILITY:UNMATCHED_DEPOSIT".
Definition LIABILITY_PAYKH_MERCHANT_PAYABLE := "LIABILITY:PAYKH_MERCHANT_PAYABLE".
Definition LIABILITY_PAYKH_CASHBACK_PROGRAM := "LIABILITY:PAYKH_CASHBACK_PROGRAM".
Definition LIABILITY_PAYKH_GIFT_CARD_FLOAT := "LIABILITY:PAYKH_GIFT_CARD_FLOAT".
Definition LIABILITY_PAYKH_CUSTOMER_SAFEGUARDING := "LIABILITY:PAYKH_CUSTOMER_SAFEGUARDING".
Definition LIABILITY_PAYKH_PROGRAM_FUND := "LIABILITY:PAYKH_PROGRAM_FUND".
Definition LIABILITY_PAYKH_LOYALTY_STABLECOIN := "LIABILITY:PAYKH_LOYALTY_STABLECOIN".
Definition INCOME_TRUSTEE_FEE := "INCOME:TRUSTEE_FEE".
Definition EXPENSE_BANK_CHARGE := "EXPENSE:BANK_CHARGE".
Definition SUSPENSE_UNRECONCILED_ITEM := "SUSPENSE:UNRECONCILED_ITEM".

Definition LedgerAccountCode : list string :=
  [ASSET_TRUSTEE_BANK_CASH; ASSET_PAYCHAIN_RESERVE_CASH; ASSET_SETTLEMENT_RECEIVABLE;
   ASSET_REDEMPTION_RECEIVABLE; LIABILITY_PAYCHAIN_RESERVE_OBLIGATION; LIABILITY_PENDING_MINT;
   LIABILITY_PENDING_REDEMPTION; LIABILITY_UNMATCHED_DEPOSIT; LIABILITY_PAYKH_MERCHANT_PAYABLE;
   LIABILITY_PAYKH_CASHBACK_PROGRAM; LIABILITY_PAYKH_GIFT_CARD_FLOAT;
   LIABILITY_PAYKH_CUSTOMER_SAFEGUARDING; LIABILITY_PAYKH_PROGRAM_FUND;
   LIABILITY_PAYKH_LOYALTY_STABLECOIN; INCOME_TRUSTEE_FEE; EXPENSE_BANK_CHARGE;
   SUSPENSE_UNRECONCILED_ITEM].

Definition ledgerAccountTypeOf (code : string) : outcome LedgerAccountType :=
  let prefix := before_colon code in
  if bool_decide (prefix = "ASSET") then Ok ASSET
  else if bool_decide (prefix = "LIABILITY") then Ok LIABILITY
  else if bool_decide (prefix = "INCOME") then Ok INCOME
  else if bool_decide (prefix = "EXPENSE") then Ok EXPENSE
  else if bool_decide (prefix = "SUSPENSE") then Ok SUSPENSE
  else Err (JsError "Error" ("Unknown ledger account prefix in code " +:+ code)).

(** [type === ASSET || type === EXPENSE]. *)
Definition debit_positive (t : LedgerAccountType) : bool :=
  bool_decide (t = ASSET) || bool_decide (t = EXPENSE).

(** * Journal entries *)

Record Posting : Type := mkPosting {
  account : string;
  debit : Money;
  credit : Money;
  memo : option string
}.

Record JournalReferences : Type := mkRefs {
  ref_source : string;
  ref_programId : string;
  ref_assetId : string;
  ref_actor : string;
  ref_approvalRef : option string;
  ref_correlationId : option string
}.

Record JournalEntryInput : Type := mkInput {
  in_currency : CurrencyCode;
  in_description : string;
  in_postings : list Posting;
  in_references : JournalReferences
}.

Record JournalEntry : Type := mkEntry {
  je_currency : CurrencyCode;
  je_description : string;
  je_postings : list Posting;
  je_references : JournalReferences;
  je_totalDebit : Money;
  je_totalCredit : Money;
  je_reversalOf : option string
}.

#[export] Instance Posting_eq_dec : EqDecision Posting.
Proof. solve_decision. Defined.
#[export] Instance JournalReferences_eq_dec : EqDecision JournalReferences.
Proof. solve_decision. Defined.
#[export] Instance JournalEntry_eq_dec : EqDecision JournalEntry.
Proof. solve_decision. Defined.

Definition UnbalancedJournalError (d c : Money) : exn :=
  JsError "UnbalancedJournalError"
    ("Journal does not balance: debits=" +:+ big_to_string (minor d) +:+ " credits=" +:+
     big_to_string (minor c) +:+ " " +:+ currency d).
Definition InvalidPostingError (msg : string) : exn := JsError "InvalidPostingError" msg.

Definition assertPostingWellFormed (p : Posting) (c : CurrencyCode) : outcome unit :=
  _ ← throw_when (bool_decide (currency (debit p) ≠ c) || bool_decide (currency (credit p) ≠ c))
        (InvalidPostingError ("Posting on " +:+ account p +:+
           " uses a currency other than journal currency " +:+ c));
  _ ← throw_when ((minor (debit p) <? 0) || (minor (credit p) <? 0))
        (InvalidPostingError ("Posting on " +:+ account p +:+
           " has a negative amount; use the opposite side instead"));
  _ ← throw_when ((0 <? minor (debit p)) && (0 <? minor (credit p)))
        (InvalidPostingError ("Posting on " +:+ account p +:+
           " has both debit and credit amounts"));
  _ ← throw_when ((minor (debit p) =? 0) && (minor (credit p) =? 0))
        (InvalidPostingError ("Posting on " +:+ account p +:+ " is empty"));
  _ ← ledgerAccountTypeOf (account p);
  Ok tt.

(** The loop of [buildJournalEntry] over the running totals. *)
Definition total_posting (c : CurrencyCode) (acc : Money * Money) (p : Posting)
    : outcome (Money * Money) :=
  _ ← assertPostingWellFormed p c;
  td ← add acc.1 (debit p);
  tc ← add acc.2 (credit p);
  Ok (td, tc).

Definition buildJournalEntry (input : JournalEntryInput) : outcome JournalEntry :=
  _ ← throw_when (length (in_postings input) <? 2)%nat
        (InvalidPostingError "A journal entry requires at least two postings");
  totals ← ofold (total_posting (in_currency input))
             (zero (in_currency input), zero (in_currency input)) (in_postings input);
  diff ← subtract totals.1 totals.2;
  _ ← throw_when (negb (isZero diff)) (UnbalancedJournalError totals.1 totals.2);
  Ok (mkEntry (in_currency input) (in_description input) (in_postings input)
        (in_references input) totals.1 totals.2 None).

Definition swap_posting (p : Posting) : Posting :=
  mkPosting (account p) (credit p) (debit p) (memo p).

Definition reverse (entry : JournalEntry) (reversalRef actor reason : string)
    : outcome JournalEntry :=
  let refs := je_references entry in
  reversed ← buildJournalEntry
    (mkInput (je_currency entry)
       ("REVERSAL: " +:+ je_description entry +:+ " — " +:+ reason)
       (swap_posting <$> je_postings entry)
       (mkRefs reversalRef (ref_programId refs) (ref_assetId refs) actor
          (ref_approvalRef refs) (ref_correlationId refs)));
  Ok (mkEntry (je_currency reversed) (je_description reversed) (je_postings reversed)
        (je_references reversed) (je_totalDebit reversed) (je_totalCredit reversed)
        (Some (ref_source (je_references entry)))).

(** One step of the loop of [accountEffect]. *)
Definition effect_step (acct : string) (dp : bool) (net : Money) (p : Posting) : outcome Money :=
  if bool_decide (account p ≠ acct) then Ok net
  else
    delta ← (if dp then subtract (debit p) (credit p) else subtract (credit p) (debit p));
    add net delta.

Definition accountEffect (entry : JournalEntry) (acct : string) : outcome Money :=
  t ← ledgerAccountTypeOf acct;
  ofold (effect_step acct (debit_positive t)) (zero (je_currency entry)) (je_postings entry).

(** * Entry templates *)

Definition debit_line (acct : string) (amount : Money) : Posting :=
  mkPosting acct amount (zero (currency amount)) None.
Definition credit_line (acct : string) (amount : Money) : Posting :=
  mkPosting acct (zero (currency amount)) amount None.

(** Every template debits one account and credits another with the amount. *)
Definition transfer_entry (description from_debit to_credit : string)
    (amount : Money) (refs : JournalReferences) : outcome JournalEntry :=
  buildJournalEntry
    (mkInput (currency amount) description
       [debit_line from_debit amount; credit_line to_credit amount] refs).

Definition clearedDepositEntry :=
  transfer_entry "Cleared reserve deposit allocated to PayChain obligation"
    ASSET_TRUSTEE_BANK_CASH LIABILITY_PAYCHAIN_RESERVE_OBLIGATION.
Definition mintReservationEntry :=
  transfer_entry "Reserve earmarked for pending mint authorization"
    LIABILITY_PAYCHAIN_RESERVE_OBLIGATION LIABILITY_PENDING_MINT.
Definition mintReleaseEntry :=
  transfer_entry "Pending mint reservation released to reserve obligation"
    LIABILITY_PENDING_MINT LIABILITY_PAYCHAIN_RESERVE_OBLIGATION.
Definition redemptionObligationEntry :=
  transfer_entry "Reserve obligation moved to pending redemption"
    LIABILITY_PAYCHAIN_RESERVE_OBLIGATION LIABILITY_PENDING_REDEMPTION.
Definition payoutConfirmedEntry :=
  transfer_entry "Fiat payout confirmed; pending redemption discharged"
    LIABILITY_PENDING_REDEMPTION ASSET_TRUSTEE_BANK_CASH.
Definition paykhPaymentCollectionEntry :=
  transfer_entry "PayKH customer payment collected"
    ASSET_TRUSTEE_BANK_CASH LIABILITY_PAYKH_MERCHANT_PAYABLE.
Definition paykhMerchantSettlementEntry :=
  transfer_entry "PayKH merchant settlement executed"
    LIABILITY_PAYKH_MERCHANT_PAYABLE ASSET_TRUSTEE_BANK_CASH.
Definition paykhProgramFundingEntry :=
  transfer_entry "PayKH program fund safeguarded"
    ASSET_TRUSTEE_BANK_CASH LIABILITY_PAYKH_PROGRAM_FUND.
Definition paykhLoyaltyIssuanceEntry :=
  transfer_entry "PayKH backed loyalty stablecoin issued (program fund earmarked)"
    LIABILITY_PAYKH_PROGRAM_FUND LIABILITY_PAYKH_LOYALTY_STABLECOIN.
Definition paykhLoyaltyRedemptionEntry :=
  transfer_entry "PayKH loyalty stablecoin redeemed to merchant payable"
    LIABILITY_PAYKH_LOYALTY_STABLECOIN LIABILITY_PAYKH_MERCHANT_PAYABLE.

(** * Specification of a journal entry *)

Definition posting_wf (c : CurrencyCode) (p : Posting) : Prop :=
  currency (debit p) = c ∧ currency (credit p) = c ∧
  ((0 < minor (debit p) ∧ minor (credit p) = 0) ∨ (minor (debit p) = 0 ∧ 0 < minor (credit p))) ∧
  is_ok (ledgerAccountTypeOf (account p)) = true.

Definition debits (ps : list Posting) : Z := sumZ (λ p, minor (debit p)) ps.
Definition credits (ps : list Posting) : Z := sumZ (λ p, minor (credit p)) ps.

(** The input of an entry that may be posted: at least two one-sided positive
    postings on known accounts, all in one upper-case currency, in balance. *)
Definition input_valid (i : JournalEntryInput) : Prop :=
  (2 ≤ length (in_postings i))%nat ∧
  to_upper (in_currency i) = in_currency i ∧
  Forall (posting_wf (in_currency i)) (in_postings i) ∧
  debits (in_postings i) = credits (in_postings i).

Definition entry_of (i : JournalEntryInput) (rev : option string) : JournalEntry :=
  mkEntry (in_currency i) (in_description i) (in_postings i) (in_references i)
    (mkMoney (debits (in_postings i)) (in_currency i))
    (mkMoney (credits (in_postings i)) (in_currency i)) rev.

(** A posted entry, reversal or not. *)
Definition input_of (e : JournalEntry) : JournalEntryInput :=
  mkInput (je_currency e) (je_description e) (je_postings e) (je_references e).
Definition entry_valid (e : JournalEntry) : Prop :=
  input_valid (input_of e) ∧
  je_totalDebit e = mkMoney (debits (je_postings e)) (je_currency e) ∧
  je_totalCredit e = mkMoney (credits (je_postings e)) (je_currency e).

Lemma assertPostingWellFormed_ok p c :
  assertPostingWellFormed p c = Ok tt ↔ posting_wf c p.
Proof.
  unfold assertPostingWellFormed, posting_wf. split.
  - intros H. inv_ok. repeat match goal with
    | H : (_ || _) = false |- _ => apply orb_false_iff in H as [? ?]
    | H : (_ && _) = false |- _ => apply andb_false_iff in H
    | H : bool_decide _ = false |- _ => apply bool_decide_eq_false in H; apply dec_stable in H
    | H : ledgerAccountTypeOf _ = Ok _ |- _ => rewrite H
    end.
    split; [done|]. split; [done|]. split; [lia|done].
  - intros (Hd & Hc & Hside & Ht). rewrite Hd, Hc, !bool_decide_false by tauto. simpl.
    destruct (ledgerAccountTypeOf (account p)); [|done].
    destruct Hside as [[? ?]|[? ?]].
    + destruct (Z.ltb_spec (minor (debit p)) 0), (Z.ltb_spec (minor (credit p)) 0),
        (Z.ltb_spec 0 (minor (debit p))), (Z.ltb_spec 0 (minor (credit p))),
        (Z.eqb_spec (minor (debit p)) 0); try lia; done.
    + destruct (Z.ltb_spec (minor (debit p)) 0), (Z.ltb_spec (minor (credit p)) 0),
        (Z.ltb_spec 0 (minor (debit p))), (Z.eqb_spec (minor (debit p)) 0),
        (Z.eqb_spec (minor (credit p)) 0); try lia; done.
Qed.

Lemma total_posting_ok c acc p r :
  currency acc.1 = to_upper c → currency acc.2 = to_upper c →
  total_posting c acc p = Ok r ↔
  posting_wf c p ∧ to_upper c = c ∧
  r = (mkMoney (minor acc.1 + minor (debit p)) c, mkMoney (minor acc.2 + minor (credit p)) c).
Proof.
  intros H1 H2. unfold total_posting. split.
  - intros H. inv_ok. destruct x. repeat match goal with
    | H : assertPostingWellFormed _ _ = _ |- _ => apply assertPostingWellFormed_ok in H
    | H : add _ _ = _ |- _ => apply add_ok in H as [? ->]
    end.
    split; [done|]. destruct H as (? & ? & _). split; [congruence|]. f_equal; f_equal; congruence.
  - intros (Hw & Hu & ->). pose proof Hw as (? & ? & _).
    rewrite (proj2 (assertPostingWellFormed_ok p c) Hw). simpl.
    rewrite !add_same by congruence. simpl. by rewrite H1, H2, Hu.
Qed.

Lemma ofold_total_ok c l : ∀ acc r,
  to_upper c = c → currency acc.1 = c → currency acc.2 = c →
  ofold (total_posting c) acc l = Ok r ↔
  Forall (posting_wf c) l ∧
  r = (mkMoney (minor acc.1 + debits l) c, mkMoney (minor acc.2 + credits l) c).
Proof.
  unfold debits, credits.
  induction l as [|p l IH]; intros acc r Hu H1 H2; simpl.
  - rewrite !Z.add_0_r. destruct acc as [[] []]; simpl in *; subst. naive_solver.
  - rewrite outcome_bind_ok. setoid_rewrite (total_posting_ok c acc p); [|congruence..].
    rewrite Forall_cons. split.
    + intros (a & (Hp & _ & ->) & Hl). apply IH in Hl as [? ->]; [|done..].
      split; [done|]. simpl. f_equal; f_equal; lia.
    + intros ([Hp Hl] & ->). eexists. split; [done|]. apply IH; [done..|].
      split; [done|]. simpl. f_equal; f_equal; lia.
Qed.

(** The engine accepts exactly the valid inputs. *)
Lemma buildJournalEntry_ok i e :
  buildJournalEntry i = Ok e ↔ input_valid i ∧ e = entry_of i None.
Proof.
  unfold buildJournalEntry, input_valid. split.
  - intros H. inv_ok. apply Nat.ltb_ge in H.
    assert (to_upper (in_currency i) = in_currency i) as Hu.
    { destruct (in_postings i) as [|p l]; simpl in *; [lia|]. inv_ok.
      apply total_posting_ok in H0 as (_ & ? & _); done. }
    apply ofold_total_ok in H0 as [Hw ->]; [|done..]. simpl in *.
    apply subtract_ok in H1 as [_ ->]. unfold isZero in H2.
    apply negb_false_iff, Z.eqb_eq in H2. simpl in H2.
    split; [|done]. split; [done|]. split; [done|]. split; [done|]. lia.
  - intros ((Hlen & Hu & Hw & Hb) & ->).
    destruct (Nat.ltb_spec (length (in_postings i)) 2); [lia|]. simpl.
    rewrite (proj2 (ofold_total_ok (in_currency i) (in_postings i)
      (zero (in_currency i), zero (in_currency i)) _ Hu Hu Hu) (conj Hw eq_refl)). simpl.
    rewrite subtract_same by done. simpl. unfold isZero. simpl.
    rewrite !Z.add_0_l, (proj2 (Z.eqb_eq _ _)) by lia. done.
Qed.

Lemma buildJournalEntry_valid i e : buildJournalEntry i = Ok e → entry_valid e.
Proof.
  intros [Hv ->]%buildJournalEntry_ok. destruct i. split; [exact Hv|]. done.
Qed.

(** ** Reversal *)

Lemma debits_swap l : debits (swap_posting <$> l) = credits l.
Proof. unfold debits. by rewrite sumZ_map. Qed.
Lemma credits_swap l : credits (swap_posting <$> l) = debits l.
Proof. unfold credits. by rewrite sumZ_map. Qed.

Lemma posting_wf_swap c p : posting_wf c p → posting_wf c (swap_posting p).
Proof. unfold posting_wf. simpl. tauto. Qed.

Definition reversal_of (e : JournalEntry) (ref actor reason : string) : JournalEntry :=
  let refs := je_references e in
  entry_of
    (mkInput (je_currency e) ("REVERSAL: " +:+ je_description e +:+ " — " +:+ reason)
       (swap_posting <$> je_postings e)
       (mkRefs ref (ref_programId refs) (ref_assetId refs) actor
          (ref_approvalRef refs) (ref_correlationId refs)))
    (Some (ref_source refs)).

Lemma reverse_ok e ref actor reason :
  entry_valid e → reverse e ref actor reason = Ok (reversal_of e ref actor reason).
Proof.
  intros ((Hlen & Hu & Hw & Hb) & _). unfold reverse. simpl in *.
  match goal with |- context [buildJournalEntry ?i] =>
    assert (buildJournalEntry i = Ok (entry_of i None)) as -> end; [|done].
  apply buildJournalEntry_ok. split; [|done].
  split; [simpl; by rewrite length_fmap|]. split; [done|]. simpl. split.
  - apply Forall_fmap. eapply Forall_impl; [exact Hw|]. apply posting_wf_swap.
  - by rewrite debits_swap, credits_swap.
Qed.

Lemma reversal_valid e ref actor reason :
  entry_valid e → entry_valid (reversal_of e ref actor reason).
Proof.
  intros ((Hlen & Hu & Hw & Hb) & _). split; [|done]. split; simpl in *.
  - by rewrite length_fmap.
  - split; [done|]. split.
    + apply Forall_fmap. eapply Forall_impl; [exact Hw|]. apply posting_wf_swap.
    + rewrite debits_swap, credits_swap. done.
Qed.

(** ** Effects on accounts *)

Definition signed_minor (dp : bool) (p : Posting) : Z :=
  if dp then minor (debit p) - minor (credit p) else minor (credit p) - minor (debit p).

Definition effect_on (acct : string) (dp : bool) (ps : list Posting) : Z :=
  sumZ (λ p, if bool_decide (account p = acct) then signed_minor dp p else 0) ps.

Lemma effect_step_ok acct dp c net p :
  currency net = c → posting_wf c p →
  effect_step acct dp net p =
    Ok (mkMoney (minor net + if bool_decide (account p = acct) then signed_minor dp p else 0) c).
Proof.
  intros Hn (Hd & Hc & _). unfold effect_step, signed_minor.
  destruct (decide (account p = acct)) as [E|E];
    repeat case_bool_decide; try (exfalso; tauto); simpl.
  - destruct dp; rewrite subtract_same by congruence; simpl; rewrite add_same; simpl; congruence.
  - rewrite Z.add_0_r, <- Hn. by destruct net.
Qed.

Lemma ofold_effect acct dp c l : ∀ net,
  currency net = c → Forall (posting_wf c) l →
  ofold (effect_step acct dp) net l = Ok (mkMoney (minor net + effect_on acct dp l) c).
Proof.
  unfold effect_on. induction l as [|p l IH]; intros net Hn Hl; simpl.
  - rewrite Z.add_0_r, <- Hn. by destruct net.
  - apply Forall_cons in Hl as [Hp Hl]. rewrite (effect_step_ok _ _ c) by done. simpl.
    rewrite IH by done. simpl. do 2 f_equal. lia.
Qed.

Lemma accountEffect_ok e acct t :
  entry_valid e → ledgerAccountTypeOf acct = Ok t →
  accountEffect e acct = Ok (mkMoney (effect_on acct (debit_positive t) (je_postings e)) (je_currency e)).
Proof.
  intros ((_ & Hu & Hw & _) & _) Ht. unfold accountEffect. rewrite Ht. simpl.
  by rewrite (ofold_effect _ _ (je_currency e)).
Qed.

Lemma effect_on_swap acct dp l : effect_on acct dp (swap_posting <$> l) = - effect_on acct dp l.
Proof.
  unfold effect_on. rewrite sumZ_map, <- sumZ_opp. apply sumZ_ext. intros p _. simpl.
  case_bool_decide; [|done]. unfold signed_minor; simpl. destruct dp; lia.
Qed.

(** ** Templates *)

Lemma transfer_entry_ok d a b amt refs e :
  transfer_entry d a b amt refs = Ok e ↔
  (0 < minor amt ∧ money_wf amt ∧
   is_ok (ledgerAccountTypeOf a) = true ∧ is_ok (ledgerAccountTypeOf b) = true) ∧
  e = entry_of (mkInput (currency amt) d [debit_line a amt; credit_line b amt] refs) None.
Proof.
  unfold transfer_entry. rewrite buildJournalEntry_ok.
  unfold input_valid, debits, credits, posting_wf, money_wf; simpl.
  rewrite !Forall_cons; simpl. split.
  - intros ((_ & Hu & ((_ & _ & Hs & Ha) & (_ & _ & _ & Hb) & _) & _) & ->).
    split; [|done]. split; [lia|done].
  - intros ((Hpos & Hu & Ha & Hb) & ->). split; [|done].
    split; [lia|]. split; [done|]. split; [|lia].
    split; [split_and!; [done|done|lia|done]|].
    split; [split_and!; [done|done|lia|done]|done].
Qed.

(** ** The kinds of booking the platform makes

    The account each debits and the account it credits. *)

Inductive BookKind : Type :=
| DetectDeposit | ClearDeposit | ReserveMint | ReleaseMint | ObligateRedemption | PayOut
| CollectPayment | RefundPayment | SettleMerchant | FundProgram | IssueLoyalty | RedeemLoyalty.

#[export] Instance BookKind_eq_dec : EqDecision BookKind.
Proof. solve_decision. Defined.

Definition book_debit (k : BookKind) : string :=
  match k with
  | DetectDeposit | CollectPayment | FundProgram => ASSET_TRUSTEE_BANK_CASH
  | ClearDeposit => LIABILITY_UNMATCHED_DEPOSIT
  | ReserveMint | ObligateRedemption => LIABILITY_PAYCHAIN_RESERVE_OBLIGATION
  | ReleaseMint => LIABILITY_PENDING_MINT
  | PayOut => LIABILITY_PENDING_REDEMPTION
  | RefundPayment | SettleMerchant => LIABILITY_PAYKH_MERCHANT_PAYABLE
  | IssueLoyalty => LIABILITY_PAYKH_PROGRAM_FUND
  | RedeemLoyalty => LIABILITY_PAYKH_LOYALTY_STABLECOIN
  end.

Definition book_credit (k : BookKind) : string :=
  match k with
  | DetectDeposit => LIABILITY_UNMATCHED_DEPOSIT
  | ClearDeposit | ReleaseMint => LIABILITY_PAYCHAIN_RESERVE_OBLIGATION
  | ReserveMint => LIABILITY_PENDING_MINT
  | ObligateRedemption => LIABILITY_PENDING_REDEMPTION
  | PayOut | RefundPayment | SettleMerchant => ASSET_TRUSTEE_BANK_CASH
  | CollectPayment | RedeemLoyalty => LIABILITY_PAYKH_MERCHANT_PAYABLE
  | FundProgram => LIABILITY_PAYKH_PROGRAM_FUND
  | IssueLoyalty => LIABILITY_PAYKH_LOYALTY_STABLECOIN
  end.

(** The entry debits and credits its whole amount on the accounts of a kind. *)
Definition is_booking (e : JournalEntry) : Prop :=
  ∃ k p q, p ∈ je_postings e ∧ q ∈ je_postings e ∧
    account p = book_debit k ∧ minor (debit p) = minor (je_totalDebit e) ∧
    account q = book_credit k ∧ minor (credit q) = minor (je_totalDebit e).

(** What the handlers post. *)
Definition postable (e : JournalEntry) : Prop := entry_valid e ∧ is_booking e.

Lemma pair_postable k e c z d refs :
  entry_valid e →
  e = entry_of (mkInput c d [debit_line (book_debit k) (mkMoney z c); credit_line (book_credit k) (mkMoney z c)] refs) None →
  postable e.
Proof.
  intros Hv ->. split; [done|]. eexists k, _, _. cbn [je_postings entry_of in_postings je_totalDebit].
  split; [left|]. split; [right; left|]. unfold debits. cbn. split_and!; [done|lia|done|lia].
Qed.

Lemma transfer_postable k d m refs e :
  transfer_entry d (book_debit k) (book_credit k) m refs = Ok e → postable e.
Proof.
  intros H. destruct m as [z c]. eapply (pair_postable k e c z); [by eapply buildJournalEntry_valid|].
  apply transfer_entry_ok in H as [_ ->]. done.
Qed.

(** The balance change of a template on an account: [+amount] on the debited
    side of a debit-positive account, and so on. *)
Definition transfer_effect (a b acct : string) (dp : bool) (z : Z) : Z :=
  (if bool_decide (a = acct) then if dp then z else - z else 0) +
  (if bool_decide (b = acct) then if dp then - z else z else 0).

Lemma effect_on_transfer a b acct dp amt :
  effect_on acct dp [debit_line a amt; credit_line b amt] =
  transfer_effect a b acct dp (minor amt).
Proof.
  unfold effect_on, transfer_effect, signed_minor. simpl.
  repeat case_bool_decide; destruct dp; lia.
Qed.

(** * Properties *)

(** C34. [buildJournalEntry] is exact: it returns an entry if and only if the
    input has at least two postings, each one-sided, positive, on a recognised
    account, all in the (upper-case) journal currency, and debits equal
    credits; the entry then carries the postings unchanged and the true
    totals. *)
Theorem buildJournalEntry_exact (i : JournalEntryInput) (e : JournalEntry) :
  buildJournalEntry i = Ok e ↔
  input_valid i ∧ e = entry_of i None.
Proof. apply buildJournalEntry_ok. Qed.

(** C27. Reversal is total on valid entries and compensates them: the reversing
    entry is itself valid, names the reversed source, keeps the program, and
    its effect on every known account is the exact negation, so entry plus
    reversal leave every balance unchanged. *)
Theorem reverse_compensates (e : JournalEntry) (ref actor reason acct : string)
    (t : LedgerAccountType)
    (He : entry_valid e) (Hacct : ledgerAccountTypeOf acct = Ok t) :
  ∃ r m1 m2, reverse e ref actor reason = Ok r ∧ entry_valid r ∧
    je_reversalOf r = Some (ref_source (je_references e)) ∧
    ref_programId (je_references r) = ref_programId (je_references e) ∧
    accountEffect e acct = Ok m1 ∧ accountEffect r acct = Ok m2 ∧
    add m1 m2 = Ok (zero (je_currency e)).
Proof.
  eexists _, _, _. split; [by apply reverse_ok|]. split; [by apply reversal_valid|].
  split; [done|]. split; [done|]. split; [by apply accountEffect_ok|].
  split; [by apply accountEffect_ok, Hacct; apply reversal_valid|].
  rewrite add_same by done. simpl. rewrite effect_on_swap, Z.add_opp_diag_r.
  destruct He as ((_ & Hu & _) & _). simpl in Hu. unfold zero. by rewrite Hu.
Qed.

Definition sample_refs : JournalReferences :=
  mkRefs "deposit:dep_1" "prog_1" "asset_1" "svc:test" None None.
Definition sample_entry : JournalEntry :=
  entry_of (mkInput "USD" "Cleared reserve deposit allocated to PayChain obligation"
    [debit_line ASSET_TRUSTEE_BANK_CASH (mkMoney 500 "USD");
     credit_line LIABILITY_PAYCHAIN_RESERVE_OBLIGATION (mkMoney 500 "USD")] sample_refs) None.

Lemma sample_entry_built :
  clearedDepositEntry (mkMoney 500 "USD") sample_refs = Ok sample_entry.
Proof. vm_compute. reflexivity. Qed.

Lemma reverse_compensates_witness :
  ∃ r m1 m2, reverse sample_entry "rev_1" "user:supervisor" "error" = Ok r ∧ entry_valid r ∧
    je_reversalOf r = Some "deposit:dep_1" ∧
    ref_programId (je_references r) = "prog_1" ∧
    accountEffect sample_entry ASSET_TRUSTEE_BANK_CASH = Ok m1 ∧
    accountEffect r ASSET_TRUSTEE_BANK_CASH = Ok m2 ∧
    add m1 m2 = Ok (zero "USD").
Proof.
  apply (reverse_compensates sample_entry "rev_1" "user:supervisor" "error"
           ASSET_TRUSTEE_BANK_CASH ASSET).
  - eapply buildJournalEntry_valid. apply sample_entry_built.
  - reflexivity.
Defined.

(** C26. Every entry template moves exactly the amount: for a positive amount in
    an upper-case currency it builds an entry whose effect on each known
    account is the transfer between the debited and the credited account and
    nothing elsewhere; for a zero or negative amount, or a lower-case currency,
    it throws. *)
Theorem templates_transfer :
  Forall (λ '(template, a, b),
    ∀ (amt : Money) (refs : JournalReferences),
      match (template : Money → JournalReferences → outcome JournalEntry) amt refs with
      | Ok e => 0 < minor amt ∧ money_wf amt ∧ je_references e = refs ∧
          ∀ acct t, ledgerAccountTypeOf acct = Ok t →
            accountEffect e acct =
              Ok (mkMoney (transfer_effect a b acct (debit_positive t) (minor amt)) (currency amt))
      | Err _ => ¬ (0 < minor amt ∧ money_wf amt)
      end)
  [(clearedDepositEntry, ASSET_TRUSTEE_BANK_CASH, LIABILITY_PAYCHAIN_RESERVE_OBLIGATION);
   (mintReservationEntry, LIABILITY_PAYCHAIN_RESERVE_OBLIGATION, LIABILITY_PENDING_MINT);
   (mintReleaseEntry, LIABILITY_PENDING_MINT, LIABILITY_PAYCHAIN_RESERVE_OBLIGATION);
   (redemptionObligationEntry, LIABILITY_PAYCHAIN_RESERVE_OBLIGATION, LIABILITY_PENDING_REDEMPTION);
   (payoutConfirmedEntry, LIABILITY_PENDING_REDEMPTION, ASSET_TRUSTEE_BANK_CASH);
   (paykhPaymentCollectionEntry, ASSET_TRUSTEE_BANK_CASH, LIABILITY_PAYKH_MERCHANT_PAYABLE);
   (paykhMerchantSettlementEntry, LIABILITY_PAYKH_MERCHANT_PAYABLE, ASSET_TRUSTEE_BANK_CASH);
   (paykhProgramFundingEntry, ASSET_TRUSTEE_BANK_CASH, LIABILITY_PAYKH_PROGRAM_FUND);
   (paykhLoyaltyIssuanceEntry, LIABILITY_PAYKH_PROGRAM_FUND, LIABILITY_PAYKH_LOYALTY_STABLECOIN);
   (paykhLoyaltyRedemptionEntry, LIABILITY_PAYKH_LOYALTY_STABLECOIN, LIABILITY_PAYKH_MERCHANT_PAYABLE)].
Proof.
  assert (∀ d a b amt refs,
    is_ok (ledgerAccountTypeOf a) = true → is_ok (ledgerAccountTypeOf b) = true →
    match transfer_entry d a b amt refs with
    | Ok e => 0 < minor amt ∧ money_wf amt ∧ je_references e = refs ∧
        ∀ acct t, ledgerAccountTypeOf acct = Ok t →
          accountEffect e acct =
            Ok (mkMoney (transfer_effect a b acct (debit_positive t) (minor amt)) (currency amt))
    | Err _ => ¬ (0 < minor amt ∧ money_wf amt)
    end) as H.
  { intros d a b amt refs Ha Hb. destruct (transfer_entry d a b amt refs) as [e|x] eqn:E.
    - pose proof (buildJournalEntry_valid _ _ E) as Hv.
      apply transfer_entry_ok in E as [(? & ? & _) ->].
      split; [done|]. split; [done|]. split; [done|]. intros acct t Ht.
      rewrite (accountEffect_ok _ _ t) by done. simpl. by rewrite effect_on_transfer.
    - intros [? ?]. assert (∃ e, transfer_entry d a b amt refs = Ok e) as [e He].
      { eexists. by apply transfer_entry_ok. } congruence. }
  repeat (constructor; [intros amt refs; by apply H|]). constructor.
Qed.

(** The hypothesis of the effect clause holds for every listed account. *)
Lemma templates_transfer_witness :
  accountEffect sample_entry LIABILITY_PAYCHAIN_RESERVE_OBLIGATION = Ok (mkMoney 500 "USD").
Proof.
  pose proof templates_transfer as H. rewrite Forall_forall in H.
  specialize (H (clearedDepositEntry, ASSET_TRUSTEE_BANK_CASH,
    LIABILITY_PAYCHAIN_RESERVE_OBLIGATION) ltac:(left) (mkMoney 500 "USD") sample_refs).
  rewrite sample_entry_built in H. destruct H as (_ & _ & _ & H).
  exact (H LIABILITY_PAYCHAIN_RESERVE_OBLIGATION LIABILITY eq_refl).
Defined.
