(* ===== verification/Reserve.v ===== *)
(** Reserve arithmetic and the mint guard, pure functions over money:
    [packages/reserves/src/reserve-calculation.ts] and [mint-guard.ts]. *)
From S2P Require Import Prelude.
From S2P Require Import Money.
#[local] Open Scope string_scope.
#[local] Open Scope list_scope.
#[local] Open Scope Z_scope.

(** * Reserve calculation *)

Record EligibleReserveInput : Type := mkEligibleReserveInput {
  er_currency : CurrencyCode;
  clearedBankBalance : Money;
  restrictedFunds : Money;
  unmatchedFunds : Money;
  pendingOutgoingPayouts : Money;
  bankChargesDue : Money;
  regulatoryHolds : Money;
  operationalFunds : Money;
  otherIneligibleAmounts : Money
}.

Definition deduction_list (i : EligibleReserveInput) : list Money :=
  [restrictedFunds i; unmatchedFunds i; pendingOutgoingPayouts i; bankChargesDue i;
   regulatoryHolds i; operationalFunds i; otherIneligibleAmounts i].

Definition eligibleReserve (i : EligibleReserveInput) : outcome Money :=
  deductions ← sum (deduction_list i);
  result ← subtract (clearedBankBalance i) deductions;
  Ok (if isNegative result then zero (er_currency i) else result).

Record ReserveObligationInput : Type := mkReserveObligationInput {
  ro_currency : CurrencyCode;
  circulatingSupply : Money;
  confirmedRedemptionObligations : Money;
  otherContractualLiabilities : Money;
  legallyApprovedExclusions : Money
}.

Definition reserveObligation (i : ReserveObligationInput) : outcome Money :=
  gross ← sum [circulatingSupply i; confirmedRedemptionObligations i;
               otherContractualLiabilities i];
  result ← subtract gross (legallyApprovedExclusions i);
  Ok (if isNegative result then zero (ro_currency i) else result).

Definition reserveRatioBps (eligible obligation : Money) : outcome (option number) :=
  if bool_decide (currency obligation ≠ currency eligible) then
    Err (JsError "Error" "Reserve ratio requires a single reference currency")
  else if minor obligation =? 0 then Ok None
  else Ok (Some (number_of_bigint (big_div (minor eligible * 10000) (minor obligation)))).

Record MintCapacityInput : Type := mkMintCapacityInput {
  mc_currency : CurrencyCode;
  mc_eligibleReserve : Money;
  existingReserveObligation : Money;
  mc_requiredSafetyBuffer : Money;
  pendingMintAuthorizations : Money
}.

Definition mintCapacity (i : MintCapacityInput) : outcome Money :=
  consumed ← sum [existingReserveObligation i; mc_requiredSafetyBuffer i;
                  pendingMintAuthorizations i];
  result ← subtract (mc_eligibleReserve i) consumed;
  max result (zero (mc_currency i)).

(** [bufferBps] and [requiredRatioBps] are [Int] columns, so integral numbers:
    [Math.trunc] is the identity on them. *)
Definition requiredSafetyBuffer (obligation : Money) (bufferBps : Z) : outcome Money :=
  if bufferBps <? 0 then Err (JsError "Error" "Buffer basis points cannot be negative")
  else Ok (mkMoney (big_div (minor obligation * bufferBps) 10000) (currency obligation)).

Definition isFullyReserved (eligible obligation : Money) (requiredRatioBps : Z) : outcome bool :=
  if minor obligation =? 0 then Ok true
  else
    gte eligible
      (mkMoney (big_div (minor obligation * requiredRatioBps) 10000) (currency obligation)).

Definition reserveSurplus (eligible obligation : Money) : outcome Money :=
  subtract eligible obligation.

(** * Mint guard *)

Inductive MintBlockReason : Type :=
| INSUFFICIENT_CAPACITY | RESERVE_DATA_STALE | BANK_CONNECTIVITY_UNAVAILABLE
| RECONCILIATION_UNRESOLVED | COMPLIANCE_HOLD | ASSET_MINTING_SUSPENDED | PROGRAM_SUSPENDED
| ACCOUNT_RESTRICTED | DEPOSIT_NOT_CLEARED | APPROVAL_INCOMPLETE | LIABILITY_FEED_STALE
| PROOF_OF_RESERVE_EXPIRED | MINT_FEATURE_DISABLED | NON_POSITIVE_AMOUNT | CURRENCY_MISMATCH.

#[export] Instance MintBlockReason_eq_dec : EqDecision MintBlockReason.
Proof. solve_decision. Defined.

Definition MintBlockReason_to_string (r : MintBlockReason) : string :=
  match r with
  | INSUFFICIENT_CAPACITY => "INSUFFICIENT_CAPACITY"
  | RESERVE_DATA_STALE => "RESERVE_DATA_STALE"
  | BANK_CONNECTIVITY_UNAVAILABLE => "BANK_CONNECTIVITY_UNAVAILABLE"
  | RECONCILIATION_UNRESOLVED => "RECONCILIATION_UNRESOLVED"
  | COMPLIANCE_HOLD => "COMPLIANCE_HOLD"
  | ASSET_MINTING_SUSPENDED => "ASSET_MINTING_SUSPENDED"
  | PROGRAM_SUSPENDED => "PROGRAM_SUSPENDED"
  | ACCOUNT_RESTRICTED => "ACCOUNT_RESTRICTED"
  | DEPOSIT_NOT_CLEARED => "DEPOSIT_NOT_CLEARED"
  | APPROVAL_INCOMPLETE => "APPROVAL_INCOMPLETE"
  | LIABILITY_FEED_STALE => "LIABILITY_FEED_STALE"
  | PROOF_OF_RESERVE_EXPIRED => "PROOF_OF_RESERVE_EXPIRED"
  | MINT_FEATURE_DISABLED => "MINT_FEATURE_DISABLED"
  | NON_POSITIVE_AMOUNT => "NON_POSITIVE_AMOUNT"
  | CURRENCY_MISMATCH => "CURRENCY_MISMATCH"
  end.

Record MintGuardFacts : Type := mkMintGuardFacts {
  requested : Money;
  capacityInput : MintCapacityInput;
  reserveSnapshotAgeSeconds : Z;
  maxReserveSnapshotAgeSeconds : Z;
  bankConnectivityAgeSeconds : Z;
  maxBankConnectivityAgeSeconds : Z;
  liabilityFeedAgeSeconds : Z;
  maxLiabilityFeedAgeSeconds : Z;
  proofOfReserveAgeSeconds : option Z;
  maxProofOfReserveAgeSeconds : option Z;
  hasUnresolvedReconciliation : bool;
  complianceHoldActive : bool;
  assetMintingSuspended : bool;
  programSuspended : bool;
  accountRestricted : bool;
  fundingDepositsCleared : bool;
  makerCheckerComplete : bool;
  mintFeatureEnabled : bool
}.

Record MintGuardDecision : Type := mkMintGuardDecision {
  allowed : bool;
  reasons : list MintBlockReason;
  capacity : Money
}.

(** [if (b) reasons.push(r)]. *)
Definition push_when (b : bool) (r : MintBlockReason) : list MintBlockReason :=
  if b then [r] else [].

(** The [if / else if] chain on the requested amount. *)
Definition amount_reasons (req cap : Money) : outcome (list MintBlockReason) :=
  if negb (isPositive req) then Ok [NON_POSITIVE_AMOUNT]
  else if bool_decide (currency req ≠ currency cap) then Ok [CURRENCY_MISMATCH]
  else
    enough ← gte cap req;
    Ok (push_when (negb enough) INSUFFICIENT_CAPACITY).

Definition proof_of_reserve_expired (f : MintGuardFacts) : bool :=
  match maxProofOfReserveAgeSeconds f with
  | None => false
  | Some mx =>
      match proofOfReserveAgeSeconds f with
      | None => true
      | Some age => mx <? age
      end
  end.

Definition evaluateMintGuard (f : MintGuardFacts) : outcome MintGuardDecision :=
  cap ← mintCapacity (capacityInput f);
  amt ← amount_reasons (requested f) cap;
  let rs :=
    push_when (negb (mintFeatureEnabled f)) MINT_FEATURE_DISABLED ++
    amt ++
    push_when (maxReserveSnapshotAgeSeconds f <? reserveSnapshotAgeSeconds f) RESERVE_DATA_STALE ++
    push_when (maxBankConnectivityAgeSeconds f <? bankConnectivityAgeSeconds f)
      BANK_CONNECTIVITY_UNAVAILABLE ++
    push_when (maxLiabilityFeedAgeSeconds f <? liabilityFeedAgeSeconds f) LIABILITY_FEED_STALE ++
    push_when (proof_of_reserve_expired f) PROOF_OF_RESERVE_EXPIRED ++
    push_when (hasUnresolvedReconciliation f) RECONCILIATION_UNRESOLVED ++
    push_when (complianceHoldActive f) COMPLIANCE_HOLD ++
    push_when (assetMintingSuspended f) ASSET_MINTING_SUSPENDED ++
    push_when (programSuspended f) PROGRAM_SUSPENDED ++
    push_when (accountRestricted f) ACCOUNT_RESTRICTED ++
    push_when (negb (fundingDepositsCleared f)) DEPOSIT_NOT_CLEARED ++
    push_when (negb (makerCheckerComplete f)) APPROVAL_INCOMPLETE in
  Ok (mkMintGuardDecision (bool_decide (rs = [])) rs cap).

(** * Specifications *)

(** All the amounts of a calculation are in one upper-case currency [c]. *)
Definition in_currency (c : CurrencyCode) (ms : list Money) : Prop :=
  to_upper c = c ∧ Forall (λ m, currency m = c) ms.

Definition eligible_spec (i : EligibleReserveInput) : Z :=
  Z.max 0 (minor (clearedBankBalance i) - sumZ minor (deduction_list i)).

Definition capacity_spec (i : MintCapacityInput) : Z :=
  Z.max 0 (minor (mc_eligibleReserve i) - minor (existingReserveObligation i)
           - minor (mc_requiredSafetyBuffer i) - minor (pendingMintAuthorizations i)).

(** Figures in the upper-case form of the input's currency, whatever its case. *)
Lemma eligibleReserve_upper i :
  Forall (λ m, currency m = to_upper (er_currency i)) (clearedBankBalance i :: deduction_list i) →
  eligibleReserve i = Ok (mkMoney (eligible_spec i) (to_upper (er_currency i))).
Proof.
  intros [Hc Hd]%Forall_cons. unfold eligibleReserve, eligible_spec.
  rewrite (sum_same (to_upper (er_currency i))) by done. cbn [mbind outcome_bind].
  rewrite subtract_same by done. cbn [mbind outcome_bind].
  unfold isNegative, zero. cbn [minor]. rewrite Hc.
  case_match; f_equal; f_equal; lia.
Qed.

Lemma reserveObligation_upper i :
  Forall (λ m, currency m = to_upper (ro_currency i)) [circulatingSupply i; confirmedRedemptionObligations i;
    otherContractualLiabilities i; legallyApprovedExclusions i] →
  reserveObligation i = Ok (mkMoney (Z.max 0
    (minor (circulatingSupply i) + minor (confirmedRedemptionObligations i)
     + minor (otherContractualLiabilities i) - minor (legallyApprovedExclusions i))) (to_upper (ro_currency i))).
Proof.
  intros H. repeat setoid_rewrite Forall_cons in H. destruct H as (? & ? & ? & ? & _).
  unfold reserveObligation. rewrite (sum_same (to_upper (ro_currency i))) by (done || by repeat constructor).
  cbn [mbind outcome_bind]. rewrite subtract_same by done. cbn [mbind outcome_bind].
  unfold isNegative, zero. cbn [minor currency sumZ].
  case_match; f_equal; f_equal; lia.
Qed.

Lemma mintCapacity_upper i :
  Forall (λ m, currency m = to_upper (mc_currency i)) [mc_eligibleReserve i; existingReserveObligation i;
    mc_requiredSafetyBuffer i; pendingMintAuthorizations i] →
  mintCapacity i = Ok (mkMoney (capacity_spec i) (to_upper (mc_currency i))).
Proof.
  intros H. repeat setoid_rewrite Forall_cons in H. destruct H as (He & ? & ? & ? & _).
  unfold mintCapacity, capacity_spec.
  rewrite (sum_same (to_upper (mc_currency i))) by (done || by repeat constructor).
  cbn [mbind outcome_bind]. rewrite subtract_same by done. cbn [mbind outcome_bind].
  rewrite max_same by (unfold zero; cbn [currency]; by rewrite He).
  unfold zero. cbn [minor currency sumZ]. rewrite He. f_equal. f_equal. lia.
Qed.

Lemma eligibleReserve_same i :
  in_currency (er_currency i) (clearedBankBalance i :: deduction_list i) →
  eligibleReserve i = Ok (mkMoney (eligible_spec i) (er_currency i)).
Proof. intros [Hu H]. rewrite eligibleReserve_upper by by rewrite Hu. by rewrite Hu. Qed.

Lemma mintCapacity_same i :
  in_currency (mc_currency i) [mc_eligibleReserve i; existingReserveObligation i;
    mc_requiredSafetyBuffer i; pendingMintAuthorizations i] →
  mintCapacity i = Ok (mkMoney (capacity_spec i) (mc_currency i)).
Proof. intros [Hu H]. rewrite mintCapacity_upper by by rewrite Hu. by rewrite Hu. Qed.

Lemma push_when_nil b r : push_when b r = [] ↔ b = false.
Proof. by destruct b. Qed.
Lemma elem_of_push_when b r x : x ∈ push_when b r ↔ b = true ∧ x = r.
Proof. destruct b; simpl; set_solver. Qed.

Lemma amount_reasons_nil req cap :
  amount_reasons req cap = Ok [] ↔
  0 < minor req ∧ currency req = currency cap ∧ minor req ≤ minor cap.
Proof.
  unfold amount_reasons, isPositive.
  destruct (Z.ltb_spec 0 (minor req)); simpl; [|split; [done | lia]].
  case_bool_decide as E; [split; [done | tauto]|].
  rewrite gte_same by done. simpl.
  destruct (Z.leb_spec (minor req) (minor cap)); simpl; split; try done; lia.
Qed.

(** * Properties *)

(** C23. Eligible reserve and mint capacity, on inputs in one currency: eligible
    reserve is the cleared balance less every deduction and capacity is the
    eligible reserve less obligation, buffer and pending mints, both clamped at
    zero; so a positive capacity means obligation, buffer and pending mints are
    all covered by eligible reserve. *)
Theorem reserve_arithmetic (i : EligibleReserveInput) (obl buf pend : Money)
    (Hi : in_currency (er_currency i)
            (clearedBankBalance i :: deduction_list i ++ [obl; buf; pend])) :
  ∃ e c, eligibleReserve i = Ok e ∧
    mintCapacity (mkMintCapacityInput (er_currency i) e obl buf pend) = Ok c ∧
    minor e = Z.max 0 (minor (clearedBankBalance i) - sumZ minor (deduction_list i)) ∧
    minor c = Z.max 0 (minor e - minor obl - minor buf - minor pend) ∧
    (0 < minor c → minor obl + minor buf + minor pend + minor c = minor e) ∧
    currency e = er_currency i ∧ currency c = er_currency i.
Proof.
  destruct Hi as [Hu [Hb Hl]%Forall_cons]. apply Forall_app in Hl as [Hd Hr].
  repeat setoid_rewrite Forall_cons in Hr. destruct Hr as (? & ? & ? & _).
  eexists _, _. split; [apply eligibleReserve_same; split; [done | by constructor]|].
  split; [apply mintCapacity_same; split; [done | by repeat constructor]|].
  unfold eligible_spec, capacity_spec. cbn. split; [done|]. split; [done|]. split; [lia | done].
Qed.

Lemma reserve_arithmetic_witness :
  ∃ e c,
    eligibleReserve (mkEligibleReserveInput "USD" (mkMoney 1000 "USD") (mkMoney 100 "USD")
      (mkMoney 50 "USD") (mkMoney 25 "USD") (mkMoney 5 "USD") (mkMoney 0 "USD")
      (mkMoney 20 "USD") (mkMoney 0 "USD")) = Ok e ∧
    mintCapacity (mkMintCapacityInput "USD" e (mkMoney 600 "USD") (mkMoney 60 "USD")
      (mkMoney 40 "USD")) = Ok c ∧
    minor e = 800 ∧ minor c = 100.
Proof.
  destruct (reserve_arithmetic (mkEligibleReserveInput "USD" (mkMoney 1000 "USD") (mkMoney 100 "USD")
      (mkMoney 50 "USD") (mkMoney 25 "USD") (mkMoney 5 "USD") (mkMoney 0 "USD")
      (mkMoney 20 "USD") (mkMoney 0 "USD")) (mkMoney 600 "USD") (mkMoney 60 "USD")
      (mkMoney 40 "USD")) as (e & c & He & Hc & Me & Mc & _).
  - split; [reflexivity | repeat constructor].
  - exists e, c. rewrite Me in Mc. by split_and!.
Defined.

(** The conditions under which the guard lets a mint through. *)
Definition mint_preconditions (f : MintGuardFacts) (cap : Money) : Prop :=
  mintFeatureEnabled f = true ∧
  0 < minor (requested f) ∧ currency (requested f) = currency cap ∧
  minor (requested f) ≤ minor cap ∧
  reserveSnapshotAgeSeconds f ≤ maxReserveSnapshotAgeSeconds f ∧
  bankConnectivityAgeSeconds f ≤ maxBankConnectivityAgeSeconds f ∧
  liabilityFeedAgeSeconds f ≤ maxLiabilityFeedAgeSeconds f ∧
  (∀ mx, maxProofOfReserveAgeSeconds f = Some mx →
     ∃ age, proofOfReserveAgeSeconds f = Some age ∧ age ≤ mx) ∧
  hasUnresolvedReconciliation f = false ∧ complianceHoldActive f = false ∧
  assetMintingSuspended f = false ∧ programSuspended f = false ∧ accountRestricted f = false ∧
  fundingDepositsCleared f = true ∧ makerCheckerComplete f = true.

Lemma proof_of_reserve_fresh f :
  proof_of_reserve_expired f = false ↔
  ∀ mx, maxProofOfReserveAgeSeconds f = Some mx →
    ∃ age, proofOfReserveAgeSeconds f = Some age ∧ age ≤ mx.
Proof.
  unfold proof_of_reserve_expired.
  destruct (maxProofOfReserveAgeSeconds f) as [mx|]; [|naive_solver].
  destruct (proofOfReserveAgeSeconds f) as [age|]; [rewrite Z.ltb_ge|]; naive_solver.
Qed.

Lemma evaluateMintGuard_ok f d :
  evaluateMintGuard f = Ok d →
  mintCapacity (capacityInput f) = Ok (capacity d) ∧
  (allowed d = true ↔ mint_preconditions f (capacity d)) ∧
  (allowed d = true ↔ reasons d = []).
Proof.
  unfold evaluateMintGuard. intros H. inv_ok. cbn [capacity allowed reasons].
  split; [done|]. split; [|apply bool_decide_eq_true].
  rewrite bool_decide_eq_true, !app_nil, !push_when_nil, !negb_false_iff, !Z.ltb_ge,
    proof_of_reserve_fresh.
  unfold mint_preconditions.
  assert (x0 = [] ↔ 0 < minor (requested f) ∧ currency (requested f) = currency x ∧
                    minor (requested f) ≤ minor x) as ->.
  { rewrite <- amount_reasons_nil, H0. naive_solver. }
  tauto.
Qed.

(** Claim C40.  C33. The mint guard fails safe and is exact: whenever it returns a decision,
    the decision allows the mint if and only if every one of the platform's
    preconditions holds (feature on, positive amount within capacity in the
    reserve currency, fresh reserve, bank, liability feed and proof of reserve,
    no unresolved reconciliation, hold, suspension or restriction, deposits
    cleared, maker-checker complete), and it is blocked exactly when at least
    one reason is reported. *)
Theorem mint_guard_exact (f : MintGuardFacts) :
  match evaluateMintGuard f with
  | Ok d => (allowed d = true ↔ mint_preconditions f (capacity d)) ∧
            (allowed d = false ↔ reasons d ≠ []) ∧
            mintCapacity (capacityInput f) = Ok (capacity d)
  | Err _ => ¬ in_currency (mc_currency (capacityInput f))
      [mc_eligibleReserve (capacityInput f); existingReserveObligation (capacityInput f);
       mc_requiredSafetyBuffer (capacityInput f); pendingMintAuthorizations (capacityInput f)]
  end.
Proof.
  destruct (evaluateMintGuard f) as [d|e] eqn:E.
  - apply evaluateMintGuard_ok in E as (? & ? & Hr). split; [done|]. split; [|done].
    rewrite <- not_true_iff_false. tauto.
  - intros Hc%mintCapacity_same. unfold evaluateMintGuard in E. rewrite Hc in E. simpl in E.
    unfold amount_reasons in E. repeat case_match; try done.
    case_bool_decide as Hcur; [done|].
    rewrite gte_same in E by done. done.
Qed.

(** C24. The reserve ratio is the truncated basis-point quotient, exact as long
    as it is below 2^53, [null] on a zero obligation; and a ratio of at least
    [r] basis points implies that the position is fully reserved at [r]. *)
Theorem reserve_ratio_correct (e o : Money) (r : Z)
    (Hcur : currency e = currency o) (He : 0 ≤ minor e) (Ho : 0 ≤ minor o) (Hr : 0 ≤ r)
    (Hsmall : minor e * 10000 ≤ 2 ^ 53) :
  match reserveRatioBps e o with
  | Ok None => minor o = 0 ∧ isFullyReserved e o r = Ok true
  | Ok (Some q) => 0 < minor o ∧ q = Num (minor e * 10000 / minor o) ∧
      (r ≤ minor e * 10000 / minor o → isFullyReserved e o r = Ok true)
  | Err _ => False
  end.
Proof.
  unfold reserveRatioBps, isFullyReserved, big_div.
  rewrite bool_decide_false by auto. destruct (Z.eqb_spec (minor o) 0) as [|Hne]; [done|].
  assert (0 ≤ minor e * 10000 / minor o) by (apply Z.div_pos; lia).
  assert (minor e * 10000 / minor o ≤ minor e * 10000) by (apply Z.div_le_upper_bound; nia).
  rewrite Z.quot_div_nonneg by lia. split; [lia|]. split.
  - rewrite number_of_bigint_exact by lia. done.
  - intros Hle. rewrite gte_same by done. cbn [minor]. f_equal. apply Z.leb_le.
    rewrite Z.quot_div_nonneg by nia.
    assert (minor o * (minor e * 10000 / minor o) ≤ minor e * 10000) by (apply Z.mul_div_le; lia).
    apply Z.div_le_upper_bound; nia.
Qed.

Lemma reserve_ratio_correct_witness :
  match reserveRatioBps (mkMoney 1500 "USD") (mkMoney 1000 "USD") with
  | Ok None => 1000 = 0 ∧ isFullyReserved (mkMoney 1500 "USD") (mkMoney 1000 "USD") 12000 = Ok true
  | Ok (Some q) => 0 < 1000 ∧ q = Num 15000 ∧
      (12000 ≤ 15000 → isFullyReserved (mkMoney 1500 "USD") (mkMoney 1000 "USD") 12000 = Ok true)
  | Err _ => False
  end.
Proof.
  apply (reserve_ratio_correct (mkMoney 1500 "USD") (mkMoney 1000 "USD") 12000);
    [reflexivity | simpl; lia | simpl; lia | lia | vm_compute; discriminate].
Defined.
