(* ===== verification/Prog.v ===== *)
(** Asynchronous handlers as resumptions.

    A NestJS handler is an [async] function: it runs from one [await] of the
    database to the next without interruption, and between two awaits any other
    request may run.  [prog S A] is such a handler over a store [S]: it returns,
    throws, or performs one atomic action on the store and continues.  [run]
    executes a handler alone; [pool_step] interleaves a pool of handlers and
    lets any of them die at any await (a lost connection or a killed replica).
    [safe] is a rely-guarantee judgement: a handler that is [safe] keeps the
    invariant and moves the store only along the relation, whatever the other
    handlers do in between, provided they do the same. *)
From S2P Require Import Prelude.
#[local] Open Scope string_scope.
#[local] Open Scope list_scope.
#[local] Open Scope Z_scope.

Inductive prog (S A : Type) : Type :=
| Ret (a : A)
| Throw (e : exn)
| Act (f : S → prog S A * S).
Arguments Ret {_ _} _.
Arguments Throw {_ _} _.
Arguments Act {_ _} _.

(** The induction principle that reaches the continuation of an action. *)
Lemma prog_ind' {S A} (P : prog S A → Prop) :
  (∀ a, P (Ret a)) → (∀ e, P (Throw e)) →
  (∀ f, (∀ s, P (f s).1) → P (Act f)) → ∀ p, P p.
Proof.
  intros HR HT HA. fix IH 1. intros [a|e|f].
  - apply HR.
  - apply HT.
  - apply HA. intros s. destruct (f s) as [p s']. apply IH.
Defined.

Fixpoint prog_bind {S A B} (p : prog S A) (k : A → prog S B) : prog S B :=
  match p with
  | Ret a => k a
  | Throw e => Throw e
  | Act f => Act (λ s, let '(p', s') := f s in (prog_bind p' k, s'))
  end.

#[export] Instance prog_mret {S} : MRet (prog S) := λ A, Ret.
#[export] Instance prog_mbind {S} : MBind (prog S) := λ A B k p, prog_bind p k.

(** [try { p } catch (e) { h(e) }]. *)
Fixpoint prog_catch {S A} (p : prog S A) (h : exn → prog S A) : prog S A :=
  match p with
  | Ret a => Ret a
  | Throw e => h e
  | Act f => Act (λ s, let '(p', s') := f s in (prog_catch p' h, s'))
  end.

(** A synchronous computation inside a handler. *)
Definition lift {S A} (o : outcome A) : prog S A :=
  match o with Ok a => Ret a | Err e => Throw e end.

(** [if (b) throw e]. *)
Definition throw_if {S} (b : bool) (e : exn) : prog S unit := lift (throw_when b e).

(** [if (x === null) throw e]. *)
Definition or_throw {S A} (o : option A) (e : exn) : prog S A :=
  match o with Some a => Ret a | None => Throw e end.

(** One atomic action that reads, and one that may update or fail. *)
Definition read {S A} (f : S → A) : prog S A := Act (λ s, (Ret (f s), s)).
Definition action {S A} (f : S → outcome A * S) : prog S A :=
  Act (λ s, let '(o, s') := f s in (lift o, s')).

Fixpoint run {S A} (p : prog S A) (s : S) : outcome A * S :=
  match p with
  | Ret a => (Ok a, s)
  | Throw e => (Err e, s)
  | Act f => let '(p', s') := f s in run p' s'
  end.

(** [prisma.$transaction]: the block commits as a whole or not at all. *)
Definition transaction {S A} (p : prog S A) : prog S A :=
  action (λ s, match run p s with
               | (Ok a, s') => (Ok a, s')
               | (Err e, _) => (Err e, s)
               end).

Fixpoint for_each {S A} (l : list A) (body : A → prog S unit) : prog S unit :=
  match l with
  | [] => Ret tt
  | x :: l' => prog_bind (body x) (λ _, for_each l' body)
  end.

(** [for (const x of l) acc = await body(acc, x)]. *)
Fixpoint fold_each {S A B} (l : list A) (acc : B) (body : B → A → prog S B) : prog S B :=
  match l with
  | [] => Ret acc
  | x :: l' => prog_bind (body acc x) (λ acc', fold_each l' acc' body)
  end.

(** * Sequential execution *)

Lemma run_bind {S A B} (p : prog S A) (k : A → prog S B) s :
  run (p ≫= k) s = match run p s with
                   | (Ok a, s') => run (k a) s'
                   | (Err e, s') => (Err e, s')
                   end.
Proof.
  unfold mbind, prog_mbind. revert s.
  induction p as [a|e|f IH] using prog_ind'; intros s; simpl; [done..|].
  specialize (IH s). destruct (f s) as [p' s']. apply IH.
Qed.

(** Continue after a part that is known to succeed. *)
Lemma run_bind_at {S A B} (p : prog S A) (k : A → prog S B) s a s1 :
  run p s = (Ok a, s1) → run (p ≫= k) s = run (k a) s1.
Proof. intros H. by rewrite run_bind, H. Qed.

Lemma run_bind_ok {S A B} (p : prog S A) (k : A → prog S B) s b s' :
  run (p ≫= k) s = (Ok b, s') ↔
  ∃ a s1, run p s = (Ok a, s1) ∧ run (k a) s1 = (Ok b, s').
Proof.
  rewrite run_bind. split.
  - destruct (run p s) as [[a|e] s1]; [by exists a, s1 | done].
  - by intros (a & s1 & -> & ?).
Qed.

Lemma run_ret {S A} (a : A) (s : S) : run (mret a) s = (Ok a, s).
Proof. done. Qed.
Lemma run_throw {S A} e (s : S) : run (A:=A) (Throw e) s = (Err e, s).
Proof. done. Qed.
Lemma run_lift {S A} (o : outcome A) (s : S) : run (lift o) s = (o, s).
Proof. by destruct o. Qed.
Lemma run_throw_if {S} b e (s : S) : run (throw_if b e) s = (throw_when b e, s).
Proof. apply run_lift. Qed.
Lemma run_or_throw {S A} (o : option A) e (s : S) :
  run (or_throw o e) s = (match o with Some a => Ok a | None => Err e end, s).
Proof. by destruct o. Qed.
Lemma run_read {S A} (f : S → A) s : run (read f) s = (Ok (f s), s).
Proof. done. Qed.
Lemma run_action {S A} (f : S → outcome A * S) s : run (action f) s = f s.
Proof. simpl. destruct (f s) as [o s']. apply run_lift. Qed.
(** A run that is known to succeed, with its final state. *)
Lemma run_is_ok {S A} (p : prog S A) s : is_ok (run p s).1 = true → ∃ a, run p s = (Ok a, (run p s).2).
Proof. destruct (run p s) as [[a|e] s']; [by exists a|done]. Qed.

Lemma run_transaction {S A} (p : prog S A) s :
  run (transaction p) s = match run p s with
                          | (Ok a, s') => (Ok a, s')
                          | (Err e, _) => (Err e, s)
                          end.
Proof. unfold transaction. by rewrite run_action. Qed.

Lemma run_catch {S A} (p : prog S A) h s :
  run (prog_catch p h) s = match run p s with
                           | (Ok a, s') => (Ok a, s')
                           | (Err e, s') => run (h e) s'
                           end.
Proof.
  revert s. induction p as [a|e|f IH] using prog_ind'; intros s; simpl; [done..|].
  specialize (IH s). destruct (f s) as [p' s']. apply IH.
Qed.

(** Invert every successful run of a composed handler. *)
Ltac inv_run :=
  repeat match goal with
  | H : run (_ ≫= _) _ = (Ok _, _) |- _ => apply run_bind_ok in H as (? & ? & ? & ?)
  | H : run (mret _) _ = (Ok _, _) |- _ => rewrite run_ret in H
  | H : run (Ret _) _ = (Ok _, _) |- _ => simpl in H
  | H : run (Throw _) _ = (Ok _, _) |- _ => discriminate H
  | H : run (lift _) _ = _ |- _ => rewrite run_lift in H
  | H : run (throw_if _ _) _ = (Ok ?u, _) |- _ => destruct u; rewrite run_throw_if in H
  | H : run (read _) _ = _ |- _ => rewrite run_read in H
  | H : run (or_throw _ _) _ = _ |- _ => rewrite run_or_throw in H
  | H : (_, _) = (_, _) |- _ => apply pair_eq in H as [? ?]; try subst
  | H : Ok _ = Ok _ |- _ => injection H as H; try subst
  | H : Err _ = Ok _ |- _ => discriminate H
  | H : throw_when _ _ = Ok _ |- _ => apply throw_when_ok in H
  | H : match ?o with Some _ => _ | None => Err _ end = Ok _ |- _ =>
      let E := fresh "E" in destruct o eqn:E; [|discriminate H]
  end.

(** * Interleaved execution *)

(** A pool of handlers in flight over one store. *)
Abbreviation pool S := (list (prog S unit) * S)%type (only parsing).

(** [new] are the requests that may arrive, [env] the moves of the outside world
    (time passing, another program writing the database). *)
Inductive pool_step {S} (new : prog S unit → Prop) (env : S → S → Prop) : pool S → pool S → Prop :=
| step_act i ps s f p' s' :
    ps !! i = Some (Act f) → f s = (p', s') →
    pool_step new env (ps, s) (<[i := p']> ps, s')
| step_crash i ps s e :
    pool_step new env (ps, s) (<[i := Throw e]> ps, s)
| step_spawn ps s p :
    new p → pool_step new env (ps, s) (ps ++ [p], s)
| step_env ps s s' :
    env s s' → pool_step new env (ps, s) (ps, s').

(** Run the pool by a schedule: each number is the handler that acts next. *)
Fixpoint run_schedule {S} (sched : list nat) (ps : list (prog S unit)) (s : S) : list (prog S unit) * S :=
  match sched with
  | [] => (ps, s)
  | i :: sched' =>
      match ps !! i with
      | Some (Act f) => let '(p', s') := f s in run_schedule sched' (<[i := p']> ps) s'
      | _ => run_schedule sched' ps s
      end
  end.

Lemma run_schedule_reachable {S} new env sched (ps : list (prog S unit)) s :
  rtc (pool_step new env) (ps, s) (run_schedule sched ps s).
Proof.
  revert ps s. induction sched as [|i sched IH]; intros ps s; simpl; [done|].
  destruct (ps !! i) as [[a|e|f]|] eqn:Hi; try apply IH.
  destruct (f s) as [p' s'] eqn:Hf.
  eapply rtc_l; [by eapply step_act | apply IH].
Qed.

(** Running one handler alone, to completion, is one schedule of the pool. *)
Lemma pool_run {S} new env i (ps : list (prog S unit)) p s :
  ps !! i = Some p → ∃ ps', rtc (pool_step new env) (ps, s) (ps', (run p s).2).
Proof.
  revert ps s. induction p as [a|e|f IH] using prog_ind'; intros ps s Hi; simpl; [by eexists..|].
  specialize (IH s). destruct (f s) as [p' s'] eqn:Hf.
  destruct (IH (<[i:=p']> ps) s') as [ps' H].
  { apply list_lookup_insert_eq. by eapply lookup_lt_Some. }
  exists ps'. eapply rtc_l; [by eapply step_act|done].
Qed.

Lemma pool_arrival {S} (new : prog S unit → Prop) env (ps : list (prog S unit)) p s :
  new p → ∃ ps', rtc (pool_step new env) (ps, s) (ps', (run p s).2).
Proof.
  intros Hp. destruct (pool_run new env (length ps) (ps ++ [p]) p s) as [ps' H].
  { by apply list_lookup_middle. }
  exists ps'. eapply rtc_l; [by apply step_spawn|done].
Qed.

(** Handlers already in the pool may stay where they are. *)
Lemma pool_frame {S} new env (ps0 : list (prog S unit)) c c' :
  rtc (pool_step new env) c c' → rtc (pool_step new env) (ps0 ++ c.1, c.2) (ps0 ++ c'.1, c'.2).
Proof.
  induction 1 as [c|c c1 c' Hstep _ IH]; [done|]. eapply rtc_l; [|exact IH].
  destruct Hstep as [i ps s f p' s' Hi Hf|i ps s e|ps s p Hp|ps s s' He]; simpl.
  - rewrite <- insert_app_r. eapply step_act; [|done]. rewrite lookup_app_r by lia. by replace (length ps0 + i - length ps0)%nat with i by lia.
  - rewrite <- insert_app_r. apply step_crash.
  - rewrite app_assoc. by apply step_spawn.
  - by apply step_env.
Qed.

(** Requests arriving together, then scheduled. *)
Lemma pool_schedule {S} (new : prog S unit → Prop) env ps sched s :
  Forall new ps → rtc (pool_step new env) ([], s) (run_schedule sched ps s).
Proof.
  intros Hps. etrans; [|apply run_schedule_reachable].
  assert (∀ ps0, rtc (pool_step new env) (ps0, s) (ps0 ++ ps, s)) as H; [|apply (H [])].
  induction Hps as [|p ps Hp _ IH]; intros ps0; [by rewrite app_nil_r|].
  eapply rtc_l; [by apply step_spawn|]. specialize (IH (ps0 ++ [p])). by rewrite <- app_assoc in IH.
Qed.

(** * Rely and guarantee *)

Section safe.
Context {S : Type} (I : S → Prop) (R : relation S) `{!PreOrder R}.

Fixpoint safe {A} (p : prog S A) (Q : A → S → Prop) (s : S) : Prop :=
  match p with
  | Ret a => ∀ s1, R s s1 → I s1 → Q a s1
  | Throw e => True
  | Act f => ∀ s1, R s s1 → I s1 →
               let '(p', s2) := f s1 in I s2 ∧ R s1 s2 ∧ safe p' Q s2
  end.

(** A handler that is safe from every good state. *)
Definition keeps {A} (p : prog S A) : Prop := ∀ s, I s → safe p (λ _ _, True) s.

Lemma safe_rely {A} (p : prog S A) Q s s' : R s s' → safe p Q s → safe p Q s'.
Proof.
  destruct p as [a|e|f]; simpl; intros HR H; [|done|].
  - intros s1 ? ?. apply H; [by transitivity s' | done].
  - intros s1 ? ?. apply H; [by transitivity s' | done].
Qed.

Lemma safe_mono {A} (p : prog S A) (Q Q' : A → S → Prop) s :
  (∀ a s', R s s' → I s' → Q a s' → Q' a s') → safe p Q s → safe p Q' s.
Proof.
  revert s. induction p as [a|e|f IH] using prog_ind'; intros s HQ; simpl; [|done|].
  - intros H s1 HR HI. by apply HQ, H.
  - intros H s1 HR HI. specialize (H s1 HR HI). specialize (IH s1).
    destruct (f s1) as [p' s2]. destruct H as (HI2 & HR2 & Hp).
    split_and!; [done..|]. apply IH; [|done].
    intros a s' HR' HI' HQa. apply HQ; [|done|done]. transitivity s1; [done|by transitivity s2].
Qed.

Lemma safe_bind {A B} (p : prog S A) (k : A → prog S B) Q s :
  I s → safe p (λ a s', safe (k a) Q s') s → safe (p ≫= k) Q s.
Proof.
  unfold mbind, prog_mbind.
  revert s. induction p as [a|e|f IH] using prog_ind'; intros s HI; simpl; [|done|].
  - intros H. by apply H.
  - intros H s1 HR HI1. specialize (H s1 HR HI1). specialize (IH s1).
    destruct (f s1) as [p' s2]. destruct H as (HI2 & HR2 & Hp). simpl.
    split_and!; [done..|]. by apply IH.
Qed.

Lemma safe_ret {A} (a : A) (Q : A → S → Prop) s :
  (∀ s1, R s s1 → I s1 → Q a s1) → safe (mret a) Q s.
Proof. done. Qed.

Lemma safe_read {A B} (f : S → A) (k : A → prog S B) Q s :
  (∀ s1, R s s1 → I s1 → safe (k (f s1)) Q s1) → safe (read f ≫= k) Q s.
Proof. intros H s1 HR HI. simpl. by split_and!; [..|apply H]. Qed.

Lemma safe_action {A B} (f : S → outcome A * S) (k : A → prog S B) Q s :
  (∀ s1, R s s1 → I s1 →
     I (f s1).2 ∧ R s1 (f s1).2 ∧
     ∀ a, (f s1).1 = Ok a → safe (k a) Q (f s1).2) →
  safe (action f ≫= k) Q s.
Proof.
  intros H s1 HR HI. simpl. destruct (H s1 HR HI) as (HI2 & HR2 & Hk).
  destruct (f s1) as [[a|e] s2]; simpl in *; split_and!; eauto.
Qed.

Lemma safe_action_last {A} (f : S → outcome A * S) (Q : A → S → Prop) s :
  (∀ s1, R s s1 → I s1 →
     I (f s1).2 ∧ R s1 (f s1).2 ∧
     ∀ a s2, (f s1).1 = Ok a → R (f s1).2 s2 → I s2 → Q a s2) →
  safe (action f) Q s.
Proof.
  intros H s1 HR HI. simpl. destruct (H s1 HR HI) as (HI2 & HR2 & Hk).
  destruct (f s1) as [[a|e] s2]; simpl in *; split_and!; eauto.
Qed.

Lemma safe_lift {A B} (o : outcome A) (k : A → prog S B) Q s :
  (∀ a, o = Ok a → safe (k a) Q s) → safe (lift o ≫= k) Q s.
Proof. destruct o as [a|e]; intros H; [by apply H | done]. Qed.

Lemma safe_throw_if {B} b e (k : unit → prog S B) Q s :
  (b = false → safe (k tt) Q s) → safe (throw_if b e ≫= k) Q s.
Proof. destruct b; intros H; [done | by apply H]. Qed.

Lemma safe_or_throw {A B} (o : option A) e (k : A → prog S B) Q s :
  (∀ a, o = Some a → safe (k a) Q s) → safe (or_throw o e ≫= k) Q s.
Proof. destruct o as [a|]; intros H; [by apply H | done]. Qed.

Lemma safe_for_each {A} (l : list A) (body : A → prog S unit) s :
  I s → (∀ x s', x ∈ l → I s' → safe (body x) (λ _ _, True) s') →
  safe (for_each l body) (λ _ _, True) s.
Proof.
  revert s. induction l as [|x l IH]; intros s HI H; simpl; [done|].
  apply safe_bind; [done|].
  eapply safe_mono; [|apply H; [set_solver|done]].
  intros [] s' _ HI' _. apply IH; [done|]. intros y s1 Hy. apply H. set_solver.
Qed.

Lemma safe_fold_each {A B} (l : list A) (acc : B) (body : B → A → prog S B) s :
  I s → (∀ acc x s', x ∈ l → I s' → safe (body acc x) (λ _ _, True) s') →
  safe (fold_each l acc body) (λ _ _, True) s.
Proof.
  revert acc s. induction l as [|x l IH]; intros acc s HI H; simpl; [done|].
  apply safe_bind; [done|].
  eapply safe_mono; [|apply H; [set_solver|done]].
  intros a s' _ HI' _. apply IH; [done|]. intros b y s1 Hy. apply H. set_solver.
Qed.

Lemma safe_catch {A} (p : prog S A) h Q s :
  I s → safe p Q s → (∀ e s', R s s' → I s' → safe (h e) Q s') → safe (prog_catch p h) Q s.
Proof.
  revert s. induction p as [a|e|f IH] using prog_ind'; intros s HI; simpl; [done| |].
  - intros _ H. by apply H.
  - intros H Hh s1 HR HI1. specialize (H s1 HR HI1). specialize (IH s1).
    destruct (f s1) as [p' s2]. destruct H as (HI2 & HR2 & Hp). simpl.
    split_and!; [done..|]. apply IH; [done..|].
    intros e s' HR' HI'. apply Hh; [|done]. transitivity s1; [done|by transitivity s2].
Qed.

(** Running a safe handler alone is one of its executions. *)
Lemma safe_run {A} (p : prog S A) Q s :
  I s → safe p Q s →
  I (run p s).2 ∧ R s (run p s).2 ∧ ∀ a, (run p s).1 = Ok a → Q a (run p s).2.
Proof.
  revert s. induction p as [a|e|f IH] using prog_ind'; intros s HI; simpl.
  - intros H. split_and!; [done..|]. intros ? [= <-]. by apply H.
  - done.
  - intros H. specialize (H s). destruct (f s) as [p' s2] eqn:E.
    destruct H as (HI2 & HR2 & Hp); [done..|].
    specialize (IH s). rewrite E in IH. destruct (IH s2 HI2 Hp) as (? & ? & ?).
    split_and!; [done| by transitivity s2 | done].
Qed.

Lemma safe_transaction {A B} (p : prog S A) (k : A → prog S B) Q' Q s :
  (∀ s1, R s s1 → I s1 → safe p Q' s1) →
  (∀ a s1, R s s1 → I s1 → Q' a s1 → safe (k a) Q s1) →
  safe (transaction p ≫= k) Q s.
Proof.
  intros Hp Hk. unfold transaction. apply safe_action. intros s1 HR HI.
  destruct (safe_run p Q' s1 HI (Hp s1 HR HI)) as (HI2 & HR2 & HQ).
  destruct (run p s1) as [[a|e] s2]; simpl in *; [|by split_and!].
  split_and!; [done..|]. intros ? [= <-]. apply Hk; [by transitivity s1|done|by apply HQ].
Qed.

Lemma safe_transaction_last {A} (p : prog S A) Q s :
  (∀ s1, R s s1 → I s1 → safe p Q s1) →
  (∀ a s1 s2, Q a s1 → R s1 s2 → I s2 → Q a s2) →
  safe (transaction p) Q s.
Proof.
  intros Hp HQ. unfold transaction. apply safe_action_last. intros s1 HR HI.
  destruct (safe_run p Q s1 HI (Hp s1 HR HI)) as (HI2 & HR2 & Ha).
  destruct (run p s1) as [[a|e] s2]; simpl in *; [|by split_and!].
  split_and!; [done..|]. intros ? s3 [= <-] HR3 HI3. by eapply HQ; [apply Ha|..].
Qed.

Lemma safe_keeps {A B} (p : prog S A) (k : A → prog S B) Q s :
  I s → keeps p → (∀ a s1, R s s1 → I s1 → safe (k a) Q s1) → safe (p ≫= k) Q s.
Proof.
  intros HI Hp Hk. apply safe_bind; [done|].
  eapply safe_mono; [|by apply Hp]. intros a s1 HR HI1 _. by apply Hk.
Qed.

(** Every state a pool of safe handlers reaches satisfies the invariant and is
    an [R]-successor of the initial one, whatever the schedule, the crashes,
    the arrivals and the environment's moves. *)
Theorem pool_safe (new : prog S unit → Prop) (env : S → S → Prop) c c' :
  (∀ p, new p → keeps p) →
  (∀ s s', env s s' → I s → I s' ∧ R s s') →
  rtc (pool_step new env) c c' →
  I c.2 → (∀ p, p ∈ c.1 → safe p (λ _ _, True) c.2) →
  I c'.2 ∧ R c.2 c'.2 ∧ (∀ p, p ∈ c'.1 → safe p (λ _ _, True) c'.2).
Proof.
  intros Hnew Henv. induction 1 as [c|c c1 c' Hstep _ IH]; intros HI Hps; [done|].
  assert (I c1.2 ∧ R c.2 c1.2 ∧ (∀ p, p ∈ c1.1 → safe p (λ _ _, True) c1.2)) as (HI1 & HR1 & Hps1).
  { destruct Hstep as [i ps s f p' s' Hi Hf|i ps s e|ps s p Hp|ps s s' He]; simpl in *.
    - pose proof (Hps _ (list_elem_of_lookup_2 _ _ _ Hi)) as Hsafe. simpl in Hsafe.
      specialize (Hsafe s ltac:(done) HI). rewrite Hf in Hsafe.
      destruct Hsafe as (HI2 & HR2 & Hp'). split_and!; [done..|].
      intros p [j Hj]%list_elem_of_lookup.
      destruct (decide (i = j)) as [<-|Hne].
      + rewrite list_lookup_insert_eq in Hj by by eapply lookup_lt_Some. by simplify_eq.
      + rewrite list_lookup_insert_ne in Hj by done.
        eapply safe_rely; [done|]. eapply Hps, list_elem_of_lookup_2, Hj.
    - split_and!; [done..|]. intros p [j Hj]%list_elem_of_lookup.
      apply list_lookup_insert_Some in Hj as [(_ & <- & _)|[_ Hj]]; [done|].
      eapply Hps, list_elem_of_lookup_2, Hj.
    - split_and!; [done..|]. intros q [Hq|Hq]%elem_of_app; [by apply Hps|].
      apply list_elem_of_singleton in Hq as ->. by apply Hnew.
    - destruct (Henv _ _ He HI) as [HI' HR']. split_and!; [done..|].
      intros p Hp. eapply safe_rely; [done|]. by apply Hps. }
  destruct (IH HI1 Hps1) as (? & ? & ?). split_and!; [done| by etrans |done].
Qed.
End safe.
