(* ===== verification/Crypto.v ===== *)
(** JavaScript values, canonical JSON and signatures:
    [packages/cryptography/src/signing.ts], [hashing.ts],
    [packages/adapters/src/signed-envelope.ts] and
    [apps/trustee-api/src/infra/signing.service.ts].

    Ed25519, SHA-256 and the process-wide key material come from outside the
    repository: they are the class [NodeCrypto], of which only the documented
    "a signature verifies under the matching public key" is assumed. *)
From S2P Require Import Prelude.
#[local] Open Scope string_scope.
#[local] Open Scope list_scope.
#[local] Open Scope Z_scope.

(** * JavaScript values

    An object is the list of its own properties in enumeration order.  Numbers
    are the integral ones the sources build (counters, basis points, ages). *)

Inductive jsval : Type :=
| JUndefined
| JNull
| JBool (b : bool)
| JNum (n : number)
| JBig (z : Z)
| JStr (s : string)
| JArr (l : list jsval)
| JObj (kvs : list (string * jsval)).

Lemma jsval_ind' (P : jsval → Prop) :
  P JUndefined → P JNull → (∀ b, P (JBool b)) → (∀ n, P (JNum n)) → (∀ z, P (JBig z)) →
  (∀ s, P (JStr s)) → (∀ l, Forall P l → P (JArr l)) →
  (∀ kvs, Forall (λ kv, P kv.2) kvs → P (JObj kvs)) → ∀ v, P v.
Proof.
  intros Hu Hn Hb Hnum Hbig Hs Ha Ho. fix IH 1. intros [| |b|n|z|s|l|kvs].
  - apply Hu. - apply Hn. - apply Hb. - apply Hnum. - apply Hbig. - apply Hs.
  - apply Ha. induction l as [|v l IHl]; constructor; [apply IH | apply IHl].
  - apply Ho. induction kvs as [|[k v] l IHl]; constructor; [apply IH | apply IHl].
Defined.

(** ** [JSON.stringify] *)

Definition hex_digit (n : nat) : ascii :=
  if (n <? 10)%nat then ascii_of_nat (48 + n) else ascii_of_nat (87 + n).

(** The escapes of [JSON.stringify]; characters above 127 are copied. *)
Definition json_escape (a : ascii) : string :=
  let n := nat_of_ascii a in
  if (n =? 34)%nat then "\" +:+ String a ""
  else if (n =? 92)%nat then "\\"
  else if (n =? 8)%nat then "\b"
  else if (n =? 9)%nat then "\t"
  else if (n =? 10)%nat then "\n"
  else if (n =? 12)%nat then "\f"
  else if (n =? 13)%nat then "\r"
  else if (n <? 32)%nat then
    "\u00" +:+ String (hex_digit (n / 16)) (String (hex_digit (n mod 16)) "")
  else String a "".

Fixpoint json_escape_all (s : string) : string :=
  match s with
  | EmptyString => ""
  | String a s' => json_escape a +:+ json_escape_all s'
  end.

Definition dquote : string := String (ascii_of_nat 34) "".
Definition json_quote (s : string) : string := dquote +:+ json_escape_all s +:+ dquote.

Definition number_to_json (n : number) : string :=
  match n with Num z => big_to_string z | Infinity _ => "null" end.

(** [None] is [undefined]: an undefined property is left out of its object, an
    undefined element of an array prints as [null].  A [bigint] throws in
    [JSON.stringify]; every caller in the sources replaces it beforehand. *)
Fixpoint json_stringify (v : jsval) : option string :=
  match v with
  | JUndefined => None
  | JNull => Some "null"
  | JBool b => Some (if b then "true" else "false")
  | JNum n => Some (number_to_json n)
  | JBig z => None
  | JStr s => Some (json_quote s)
  | JArr l =>
      Some ("[" +:+ join_with "," (map (λ x, default "null" (json_stringify x)) l) +:+ "]")
  | JObj kvs =>
      let fields :=
        omap (λ kv, match kv with
                    | (k, Some t) => Some (json_quote k +:+ ":" +:+ t)
                    | (_, None) => None
                    end) (map (λ kv, (kv.1, json_stringify kv.2)) kvs) in
      Some ("{" +:+ join_with "," fields +:+ "}")
  end.

(** [JSON.parse(JSON.stringify(v, (_k, x) => typeof x === 'bigint' ? x.toString() : x))],
    the value the Json columns and the stored responses keep. *)
Fixpoint json_roundtrip_value (v : jsval) : jsval :=
  match v with
  | JUndefined => JUndefined
  | JNum (Infinity _) => JNull
  | JBig z => JStr (big_to_string z)
  | JArr l => JArr (map (λ x, match json_roundtrip_value x with JUndefined => JNull | y => y end) l)
  | JObj kvs =>
      JObj (omap (λ kv, match kv with
                        | (_, JUndefined) => None
                        | kv => Some kv
                        end) (map (λ kv, (kv.1, json_roundtrip_value kv.2)) kvs))
  | v => v
  end.

(** ** Objects under assignment *)

(** An array index: a canonical decimal numeral below 2^32 - 1.  Such keys
    enumerate first, in numeric order. *)
Definition array_index (k : string) : option Z :=
  if all_digits k && negb (bool_decide (k = "")) then
    match string_to_bigint k with
    | Some z => if bool_decide (big_to_string z = k) && (z <? 2 ^ 32 - 1) then Some z else None
    | None => None
    end
  else None.

Fixpoint obj_insert (k : string) (v : jsval) (o : list (string * jsval)) : list (string * jsval) :=
  match o with
  | [] => [(k, v)]
  | (k', v') :: o' =>
      match array_index k, array_index k' with
      | Some i, Some j => if i <? j then (k, v) :: o else (k', v') :: obj_insert k v o'
      | Some i, None => (k, v) :: o
      | None, _ => (k', v') :: obj_insert k v o'
      end
  end.

(** [out[k] = v] on an ordinary object: assigning [__proto__] sets the
    prototype (or does nothing) and creates no own property. *)
Definition obj_set (o : list (string * jsval)) (kv : string * jsval) : list (string * jsval) :=
  if bool_decide (kv.1 = "__proto__") then o
  else if existsb (λ p, bool_decide (p.1 = kv.1)) o then
    map (λ p, if bool_decide (p.1 = kv.1) then kv else p) o
  else obj_insert kv.1 kv.2 o.

(** ** [canonicalize] *)

Definition string_leb (a b : string) : bool :=
  match String.compare a b with Gt => false | _ => true end.

Definition key_le (a b : string * jsval) : Prop := string_leb a.1 b.1 = true.
#[export] Instance key_le_dec : RelDecision key_le := λ a b, decide (string_leb a.1 b.1 = true).

Fixpoint sortValue (v : jsval) : jsval :=
  match v with
  | JBig z => JStr (big_to_string z)
  | JArr l => JArr (map sortValue l)
  | JObj kvs =>
      JObj (fold_left obj_set (merge_sort key_le (map (λ kv, (kv.1, sortValue kv.2)) kvs)) [])
  | v => v
  end.

(** [canonicalize(undefined)] is [undefined], whose bytes [Buffer.from] rejects;
    the callers pass objects. *)
Definition canonicalize (v : jsval) : string := default "undefined" (json_stringify (sortValue v)).

Example canonicalize_example :
  canonicalize (JObj [("b", JBig 5); ("10", JNull); ("a", JArr [JBool true; JUndefined]); ("9", JUndefined)])
  = "{" +:+ json_quote "10" +:+ ":null," +:+ json_quote "a" +:+ ":[true,null],"
        +:+ json_quote "b" +:+ ":" +:+ json_quote "5" +:+ "}".
Proof. vm_compute. reflexivity. Qed.

(** ** Structural equality of payloads

    Two values that differ only in the order of the properties of their
    objects.  [js_wf] says that the property names of each object are distinct,
    which holds of every JavaScript object. *)

Inductive js_equiv : jsval → jsval → Prop :=
| equiv_undefined : js_equiv JUndefined JUndefined
| equiv_null : js_equiv JNull JNull
| equiv_bool b : js_equiv (JBool b) (JBool b)
| equiv_num n : js_equiv (JNum n) (JNum n)
| equiv_big z : js_equiv (JBig z) (JBig z)
| equiv_str s : js_equiv (JStr s) (JStr s)
| equiv_arr l k : Forall2 js_equiv l k → js_equiv (JArr l) (JArr k)
| equiv_obj l k k' :
    Forall2 (λ a b, a.1 = b.1 ∧ js_equiv a.2 b.2) l k → k ≡ₚ k' → js_equiv (JObj l) (JObj k').

Fixpoint js_wf (v : jsval) : bool :=
  match v with
  | JArr l => forallb js_wf l
  | JObj kvs => bool_decide (NoDup (map fst kvs)) && forallb (λ kv, js_wf kv.2) kvs
  | _ => true
  end.

Lemma string_leb_total a b : string_leb a b = true ∨ string_leb b a = true.
Proof.
  unfold string_leb. rewrite (String.compare_antisym a b).
  destruct (String.compare b a); simpl; auto.
Qed.

Lemma string_leb_antisym a b : string_leb a b = true → string_leb b a = true → a = b.
Proof.
  unfold string_leb. rewrite (String.compare_antisym b a). intros H1 H2.
  apply String.compare_eq_iff. by destruct (String.compare a b).
Qed.

Lemma ascii_compare_lt_trans a b c :
  Ascii.compare a b = Lt → Ascii.compare b c = Lt → Ascii.compare a c = Lt.
Proof. unfold Ascii.compare. rewrite !N.compare_lt_iff. apply N.lt_trans. Qed.

Lemma string_compare_lt_trans a b c :
  String.compare a b = Lt → String.compare b c = Lt → String.compare a c = Lt.
Proof.
  revert b c. induction a as [|x a IH]; intros [|y b] [|z c]; simpl; try done.
  destruct (Ascii.compare x y) eqn:Exy; try done; destruct (Ascii.compare y z) eqn:Eyz; try done.
  - apply Ascii.compare_eq_iff in Exy as ->. rewrite Eyz. apply IH.
  - apply Ascii.compare_eq_iff in Exy as ->. by rewrite Eyz.
  - apply Ascii.compare_eq_iff in Eyz as <-. by rewrite Exy.
  - by rewrite (ascii_compare_lt_trans x y z).
Qed.

#[export] Instance key_le_total : Total key_le.
Proof. intros a b. apply string_leb_total. Qed.

#[export] Instance key_le_trans : Transitive key_le.
Proof.
  intros [a ?] [b ?] [c ?]. unfold key_le, string_leb; simpl.
  destruct (String.compare a b) eqn:Eab; try done; destruct (String.compare b c) eqn:Ebc; try done; intros _ _.
  - apply String.compare_eq_iff in Eab as ->. by rewrite Ebc.
  - apply String.compare_eq_iff in Eab as ->. by rewrite Ebc.
  - apply String.compare_eq_iff in Ebc as <-. by rewrite Eab.
  - by rewrite (string_compare_lt_trans a b c).
Qed.

(** Lists of properties with distinct names have one sorted order. *)
Lemma sort_properties_perm l k :
  l ≡ₚ k → NoDup (map fst l) → merge_sort key_le l = merge_sort key_le k.
Proof.
  intros HP HN. eapply (StronglySorted_unique_strong key_le).
  - intros x1 x2 Hx1 Hx2 H12 H21.
    rewrite (merge_sort_Permutation key_le l) in Hx1.
    rewrite (merge_sort_Permutation key_le k), <- HP in Hx2.
    assert (x1.1 = x2.1) as E by by apply string_leb_antisym.
    destruct x1 as [a v1], x2 as [b v2]; simpl in E; subst b. f_equal.
    apply list_elem_of_lookup in Hx1 as [i Hi], Hx2 as [j Hj].
    assert (i = j) as <-; [|by simplify_eq].
    eapply NoDup_lookup; [exact HN| |]; rewrite (list_lookup_fmap fst l).
    + by rewrite Hi.
    + by rewrite Hj.
  - apply StronglySorted_merge_sort; apply _.
  - apply StronglySorted_merge_sort; apply _.
  - by rewrite !merge_sort_Permutation.
Qed.

Lemma sortValue_equiv v v' : js_wf v = true → js_equiv v v' → sortValue v = sortValue v'.
Proof.
  revert v'. induction v as [| |b|n|z|s|l IH|kvs IH] using jsval_ind'; intros v' Hwf He;
    inversion He as [| | | | | |? k Hk|? k k' Hk HP]; subst; simpl; try done.
  - f_equal. simpl in Hwf. clear He. revert k Hk Hwf.
    induction IH as [|v l IHv _ IHl]; intros k Hk Hwf; inversion Hk; subst; simpl; [done|].
    simpl in Hwf. apply andb_true_iff in Hwf as [Hv Hl]. f_equal; auto.
  - simpl in Hwf. apply andb_true_iff in Hwf as [HN Hwf]. apply bool_decide_eq_true in HN.
    f_equal. f_equal.
    rewrite (sort_properties_perm (map _ k') (map (λ kv, (kv.1, sortValue kv.2)) k)).
    + f_equal. clear HP HN He. revert k Hk Hwf.
      induction IH as [|v l IHv _ IHl]; intros k Hk Hwf; inversion Hk as [|? y ? ? [E ?]]; subst;
        simpl; [done|].
      simpl in Hwf. apply andb_true_iff in Hwf as [Hv Hl].
      f_equal; [|by apply IHl]. rewrite E. f_equal. by apply IHv.
    + apply Permutation_map. by symmetry.
    + rewrite map_map; simpl.
      assert (map fst kvs = map fst k) as Ek.
      { clear -Hk. induction Hk as [|? ? ? ? [E _]]; simpl; [done|]. by rewrite E, IHHk. }
      change (NoDup (fst <$> k')). by rewrite <- HP; change (NoDup (map fst k)); rewrite <- Ek.
Qed.

(** * Keys and signatures *)

Inductive SigningPurpose : Type :=
| API_AUTH | REQUEST_SIGNING | RESPONSE_SIGNING | MINT_AUTHORIZATION | RESERVE_SNAPSHOT
| ATTESTATION | WEBHOOK | DOCUMENT_HASH.

#[export] Instance SigningPurpose_eq_dec : EqDecision SigningPurpose.
Proof. solve_decision. Defined.

Record SigningKey : Type := mkSigningKey {
  sk_keyId : string;
  sk_purpose : SigningPurpose;
  privateKeyPem : string;
  publicKeyPem : string
}.

Record Signature : Type := mkSignature {
  keyId : string;
  algorithm : string;
  value : string
}.

#[export] Instance Signature_eq_dec : EqDecision Signature.
Proof. solve_decision. Defined.

(** Node's [crypto] module: [createPrivateKey] throws on a text that is not the
    PEM of a private key to sign with, signing with a key that loads returns the
    base64 text of the signature, verification is [false] on any failure. *)
Class NodeCrypto : Type := {
  createPrivateKey : string → outcome unit;
  ed_sign : string → string → string;
  ed_verify : string → string → string → bool;
  key_pair : string → string → Prop;
  createPrivateKey_pair priv pub : key_pair priv pub → createPrivateKey priv = Ok tt;
  ed_verify_sign priv pub bytes :
    key_pair priv pub → ed_verify pub bytes (ed_sign priv bytes) = true;
  sha256Hex : string → string
}.

Definition signature_to_js (s : Signature) : jsval :=
  JObj [("keyId", JStr (keyId s)); ("algorithm", JStr (algorithm s)); ("value", JStr (value s))].

Section signing.
Context `{!NodeCrypto}.

Definition signPayload (key : SigningKey) (payload : jsval) : outcome Signature :=
  _ ← createPrivateKey (privateKeyPem key);
  Ok {| keyId := sk_keyId key; algorithm := "ed25519";
        value := ed_sign (privateKeyPem key) (canonicalize payload) |}.

Definition verifyPayload (publicKeyPem : string) (payload : jsval) (signature : Signature) : bool :=
  if bool_decide (algorithm signature ≠ "ed25519") then false
  else ed_verify publicKeyPem (canonicalize payload) (value signature).

(** [hashesEqual] compares digests of equal length. *)
Definition hashesEqual (a b : string) : bool :=
  if bool_decide (String.length a ≠ String.length b) then false else bool_decide (a = b).

(** ** [SigningService]: the keys of the process *)

Record SigningService : Type := mkSigningService {
  keys : list (SigningPurpose * SigningKey);
  previousKeys : list (SigningPurpose * SigningKey)
}.

Definition key (sv : SigningService) (p : SigningPurpose) : outcome SigningKey :=
  match list_find (λ e, e.1 = p) (keys sv) with
  | Some (_, e) => Ok e.2
  | None => Err (JsError "Error" "No signing key for purpose")
  end.

Definition sign (sv : SigningService) (p : SigningPurpose) (payload : jsval) : outcome Signature :=
  k ← key sv p; signPayload k payload.

Definition superseded (sv : SigningService) (p : SigningPurpose) : list SigningKey :=
  map snd (filter (λ e, e.1 = p) (previousKeys sv)).

Definition verify (sv : SigningService) (p : SigningPurpose) (payload : jsval) (s : Signature) : outcome bool :=
  k ← key sv p;
  Ok (existsb (λ k, (bool_decide (keyId s = sk_keyId k) || bool_decide (keyId s = ""))
                    && verifyPayload (publicKeyPem k) payload s)
              (k :: superseded sv p)).

(** Rotation: the new key becomes active, the old one stays trusted. *)
Definition rotate (sv : SigningService) (p : SigningPurpose) (k' : SigningKey) : outcome SigningService :=
  k ← key sv p;
  Ok {| keys := (p, k') :: filter (λ e, e.1 ≠ p) (keys sv);
        previousKeys := (p, k) :: previousKeys sv |}.

(** ** Signed envelope *)

Record EnvelopeInput : Type := mkEnvelopeInput {
  eventId : string; env_eventType : string; eventSequence : string; env_targetPlatform : string;
  env_timestamp : string; env_clientId : string; env_programId : option string;
  env_correlationId : string; requestId : string; env_nonce : string; apiVersion : string;
  env_payload : jsval
}.

Definition js_opt (o : option string) : jsval := match o with Some s => JStr s | None => JNull end.

Definition envelopeSigningSubject (i : EnvelopeInput) : string * jsval :=
  let bodyHash := sha256Hex (canonicalize (env_payload i)) in
  (bodyHash,
   JObj [("eventId", JStr (eventId i)); ("eventType", JStr (env_eventType i));
         ("eventSequence", JStr (eventSequence i)); ("targetPlatform", JStr (env_targetPlatform i));
         ("timestamp", JStr (env_timestamp i)); ("clientId", JStr (env_clientId i));
         ("programId", js_opt (env_programId i)); ("correlationId", JStr (env_correlationId i));
         ("requestId", JStr (requestId i)); ("nonce", JStr (env_nonce i));
         ("apiVersion", JStr (apiVersion i)); ("bodyHash", JStr bodyHash)]).

(** The envelope keeps the caller's fields and adds the aliases, the hash of
    the body and the signature. *)
Definition buildSignedEnvelope (i : EnvelopeInput) (s : Signature) : jsval :=
  JObj [("eventId", JStr (eventId i)); ("eventType", JStr (env_eventType i));
        ("eventSequence", JStr (eventSequence i)); ("targetPlatform", JStr (env_targetPlatform i));
        ("timestamp", JStr (env_timestamp i)); ("clientId", JStr (env_clientId i));
        ("programId", match env_programId i with Some s => JStr s | None => JUndefined end);
        ("correlationId", JStr (env_correlationId i)); ("requestId", JStr (requestId i));
        ("nonce", JStr (env_nonce i)); ("apiVersion", JStr (apiVersion i));
        ("payload", env_payload i); ("id", JStr (eventId i)); ("type", JStr (env_eventType i));
        ("bodyHash", JStr (envelopeSigningSubject i).1); ("signingKeyId", JStr (keyId s));
        ("signature", JStr (value s))].

(** Signing succeeds exactly with a private key that loads. *)
Lemma signPayload_ok k payload s :
  signPayload k payload = Ok s ↔
  createPrivateKey (privateKeyPem k) = Ok tt ∧
  s = mkSignature (sk_keyId k) "ed25519" (ed_sign (privateKeyPem k) (canonicalize payload)).
Proof.
  unfold signPayload, mbind, outcome_bind. destruct (createPrivateKey _) as [[]|e]; naive_solver.
Qed.

Lemma signPayload_pair k pub payload :
  key_pair (privateKeyPem k) pub →
  signPayload k payload =
    Ok (mkSignature (sk_keyId k) "ed25519" (ed_sign (privateKeyPem k) (canonicalize payload))).
Proof. intros Hk. apply signPayload_ok. split; [by apply createPrivateKey_pair with pub|done]. Qed.

Lemma sign_ok sv p k payload s :
  key sv p = Ok k →
  sign sv p payload = Ok s ↔
  createPrivateKey (privateKeyPem k) = Ok tt ∧
  s = mkSignature (sk_keyId k) "ed25519" (ed_sign (privateKeyPem k) (canonicalize payload)).
Proof. intros Hk. unfold sign. rewrite Hk. apply signPayload_ok. Qed.

Lemma verifyPayload_signPayload k payload payload' s :
  key_pair (privateKeyPem k) (publicKeyPem k) →
  js_wf payload = true → js_equiv payload payload' → signPayload k payload = Ok s →
  verifyPayload (publicKeyPem k) payload' s = true.
Proof.
  intros Hk Hwf He [_ ->]%signPayload_ok. unfold verifyPayload; simpl.
  unfold canonicalize.
  rewrite <- (sortValue_equiv payload payload') by done. by apply ed_verify_sign.
Qed.

Lemma key_cons p k ks prev : key (mkSigningService ((p, k) :: ks) prev) p = Ok k.
Proof. unfold key; simpl. by rewrite decide_True. Qed.

(** [verify] tries the active key, then every superseded one. *)
Lemma verify_candidate sv p k active payload s :
  key sv p = Ok active → k ∈ active :: superseded sv p → keyId s = sk_keyId k →
  verifyPayload (publicKeyPem k) payload s = true → verify sv p payload s = Ok true.
Proof.
  intros Hkey Hk Hid Hv. unfold verify. rewrite Hkey. unfold mbind, outcome_bind.
  f_equal. apply existsb_exists. exists k. split; [by apply list_elem_of_In|].
  rewrite Hid, Hv, (bool_decide_true (sk_keyId k = sk_keyId k)) by done. done.
Qed.
End signing.

(** Canonical bytes and signatures.  A payload and any reordering of
    the properties of its objects have the same canonical bytes; a signature
    made by [signPayload] verifies, under the matching public key, against the
    payload and against every such reordering of it; and [SigningService.verify]
    accepts what [SigningService.sign] signed, both before and after the key of
    that purpose has been rotated. *)
Theorem signature_roundtrip `{!NodeCrypto} (sv sv' : SigningService) p k k' payload payload' s
    (Hkey : key sv p = Ok k) (Hpair : key_pair (privateKeyPem k) (publicKeyPem k))
    (Hrot : rotate sv p k' = Ok sv')
    (Hwf : js_wf payload = true) (He : js_equiv payload payload')
    (Hs : sign sv p payload = Ok s) :
  canonicalize payload = canonicalize payload' ∧
  verifyPayload (publicKeyPem k) payload' s = true ∧
  verify sv p payload' s = Ok true ∧ verify sv' p payload' s = Ok true.
Proof.
  unfold rotate in Hrot. rewrite Hkey in Hrot. injection Hrot as <-.
  unfold sign in Hs. rewrite Hkey in Hs.
  pose proof (verifyPayload_signPayload k payload payload' s Hpair Hwf He Hs) as Hv.
  apply signPayload_ok in Hs as [_ Hs]. assert (keyId s = sk_keyId k) as Hid by by rewrite Hs.
  split_and!; [|done|..].
  - unfold canonicalize. by rewrite (sortValue_equiv payload payload').
  - eapply verify_candidate; [done|apply list_elem_of_here|done|done].
  - eapply (verify_candidate _ p k k'); [apply key_cons| |done|done].
    apply list_elem_of_further. unfold superseded. cbn [previousKeys].
    rewrite filter_cons_True by done. apply list_elem_of_here.
Qed.

(** A concrete [NodeCrypto]: the signature of [m] under [k] is [k ++ ":" ++ m]. *)
Definition toy_crypto : NodeCrypto.
Proof.
  refine {| createPrivateKey := λ _, Ok tt; ed_sign := λ k m, k +:+ ":" +:+ m;
            ed_verify := λ k m s, bool_decide (s = k +:+ ":" +:+ m);
            key_pair := eq; sha256Hex := λ s, "h" +:+ s |}.
  - done.
  - intros k ? m <-. by apply bool_decide_true.
Defined.

Definition toy_key (p : SigningPurpose) (n : string) : SigningKey :=
  {| sk_keyId := n; sk_purpose := p; privateKeyPem := n; publicKeyPem := n |}.

Definition all_purposes : list SigningPurpose :=
  [API_AUTH; REQUEST_SIGNING; RESPONSE_SIGNING; MINT_AUTHORIZATION; RESERVE_SNAPSHOT;
   ATTESTATION; WEBHOOK; DOCUMENT_HASH].

(** Keys for every purpose, as the constructor of [SigningService] loads them. *)
Definition toy_service : SigningService :=
  {| keys := map (λ p, (p, toy_key p "k")) all_purposes; previousKeys := [] |}.

Definition toy_rotated : SigningService :=
  match rotate toy_service WEBHOOK (toy_key WEBHOOK "k2") with Ok sv => sv | Err _ => toy_service end.

Lemma signature_roundtrip_witness :
  ∃ s, @signPayload toy_crypto (toy_key WEBHOOK "k") (JObj [("a", JBig 1); ("b", JNull)]) = Ok s ∧
    @verify toy_crypto toy_rotated WEBHOOK (JObj [("b", JNull); ("a", JBig 1)]) s = Ok true.
Proof.
  eexists. split; [reflexivity|].
  eapply (@signature_roundtrip toy_crypto toy_service toy_rotated WEBHOOK (toy_key WEBHOOK "k")
            (toy_key WEBHOOK "k2") (JObj [("a", JBig 1); ("b", JNull)])).
  - reflexivity.
  - reflexivity.
  - reflexivity.
  - reflexivity.
  - eapply (equiv_obj _ [("a", JBig 1); ("b", JNull)]).
    + repeat constructor.
    + apply Permutation_swap.
  - reflexivity.
Defined.
