(* ===== verification/Json.v ===== *)
(** Reading back what [JSON.stringify] and [canonicalize] write.

    [parse_json] reads the compact JSON texts that [json_stringify] produces.  It
    is a concrete [JSON.parse] for the witnesses, and it shows that the signed
    bytes of a payload determine what the payload shows at every path ([look]):
    [canonicalize_binding]. *)
From Stdlib Require Import DecimalString.
From S2P Require Import Prelude.
From S2P Require Import Text.
From S2P Require Import Crypto.
#[local] Open Scope string_scope.
#[local] Open Scope list_scope.
#[local] Open Scope Z_scope.

(** Values without [bigint]s, whose printing throws. *)
Fixpoint no_big (v : jsval) : bool :=
  match v with
  | JBig _ => false
  | JArr l => forallb no_big l
  | JObj kvs => forallb (λ kv, no_big kv.2) kvs
  | _ => true
  end.

(** * The reader *)

Definition hex_of_ascii (a : ascii) : nat :=
  let n := nat_of_ascii a in if (n <? 58)%nat then (n - 48)%nat else (n - 87)%nat.

(** The character an escape stands for, and what follows it. *)
Definition unescape (s : string) : option (ascii * string) :=
  match s with
  | String e t =>
      let n := nat_of_ascii e in
      if (n =? 117)%nat then
        match t with
        | String _ (String _ (String h (String l t'))) =>
            Some (ascii_of_nat (16 * hex_of_ascii h + hex_of_ascii l), t')
        | _ => None
        end
      else if (n =? 98)%nat then Some (ascii_of_nat 8, t)
      else if (n =? 116)%nat then Some (ascii_of_nat 9, t)
      else if (n =? 110)%nat then Some (ascii_of_nat 10, t)
      else if (n =? 102)%nat then Some (ascii_of_nat 12, t)
      else if (n =? 114)%nat then Some (ascii_of_nat 13, t)
      else Some (e, t)
  | EmptyString => None
  end.

(** The characters of a string literal up to its closing quote. *)
Fixpoint parse_chars (fuel : nat) (s : string) : option (string * string) :=
  match fuel, s with
  | S fuel', String a t =>
      if (nat_of_ascii a =? 34)%nat then Some ("", t)
      else if (nat_of_ascii a =? 92)%nat then
        match unescape t with
        | Some (c, t') =>
            match parse_chars fuel' t' with Some (x, r) => Some (String c x, r) | None => None end
        | None => None
        end
      else match parse_chars fuel' t with Some (x, r) => Some (String a x, r) | None => None end
  | _, _ => None
  end.

Definition parse_string (s : string) : option (string * string) :=
  match s with
  | String a t => if (nat_of_ascii a =? 34)%nat then parse_chars (String.length t) t else None
  | EmptyString => None
  end.

Definition number_char (a : ascii) : bool := is_digit a || Ascii.eqb a "-".

Fixpoint number_span (s : string) : string * string :=
  match s with
  | EmptyString => ("", "")
  | String a t => if number_char a then let '(x, r) := number_span t in (String a x, r) else ("", s)
  end.

(** [p, p, ..., p] and the closing character. *)
Fixpoint parse_seq {A} (p : string → option (A * string)) (close : ascii) (fuel : nat) (s : string) :
    option (list A * string) :=
  match fuel with
  | O => None
  | S fuel' =>
      match p s with
      | Some (x, String c r) =>
          if Ascii.eqb c close then Some ([x], r)
          else if Ascii.eqb c "," then
            match parse_seq p close fuel' r with Some (l, r') => Some (x :: l, r') | None => None end
          else None
      | _ => None
      end
  end.

Definition parse_member (p : string → option (jsval * string)) (s : string) :
    option ((string * jsval) * string) :=
  match parse_string s with
  | Some (k, String c r) =>
      if Ascii.eqb c ":" then match p r with Some (v, r') => Some ((k, v), r') | None => None end else None
  | _ => None
  end.

Fixpoint parse_value (fuel : nat) (s : string) : option (jsval * string) :=
  match fuel, s with
  | S fuel', String a t =>
      if Ascii.eqb a "n" then Some (JNull, drop_string 3 t)
      else if Ascii.eqb a "t" then Some (JBool true, drop_string 3 t)
      else if Ascii.eqb a "f" then Some (JBool false, drop_string 4 t)
      else if (nat_of_ascii a =? 34)%nat then
        match parse_string s with Some (x, r) => Some (JStr x, r) | None => None end
      else if Ascii.eqb a "[" then
        match t with
        | String "]" r => Some (JArr [], r)
        | _ => match parse_seq (parse_value fuel') "]" fuel' t with
               | Some (l, r) => Some (JArr l, r)
               | None => None
               end
        end
      else if Ascii.eqb a "{" then
        match t with
        | String "}" r => Some (JObj [], r)
        | _ => match parse_seq (parse_member (parse_value fuel')) "}" fuel' t with
               | Some (l, r) => Some (JObj l, r)
               | None => None
               end
        end
      else
        let '(x, r) := number_span s in
        match string_to_bigint x with Some z => Some (JNum (Num z), r) | None => None end
  | _, _ => None
  end.

Definition parse_json (s : string) : option jsval :=
  match parse_value (String.length s) s with
  | Some (v, EmptyString) => Some v
  | _ => None
  end.

Example parse_json_example :
  (json_stringify (JObj [("a", JArr [JNum (Num (-12)); JNull]); ("b", JStr (String "010" "x")); ("c", JObj [])]) ≫= parse_json)
  = Some (JObj [("a", JArr [JNum (Num (-12)); JNull]); ("b", JStr (String "010" "x")); ("c", JObj [])]).
Proof. vm_compute. reflexivity. Qed.

(** * What the writer writes, the reader reads *)

Lemma app_assoc_string s t u : (s +:+ t) +:+ u = s +:+ t +:+ u.
Proof. induction s as [|a s IH]; [done|]. rewrite !app_String. by rewrite IH. Qed.

Lemma escape_length s : (String.length s ≤ String.length (json_escape_all s))%nat.
Proof.
  induction s as [|a s IH]; [done|]. cbn [json_escape_all String.length]. rewrite length_string_app.
  assert (1 ≤ String.length (json_escape a))%nat; [|lia].
  destruct a as [[] [] [] [] [] [] [] []]; vm_compute; lia.
Qed.

(** One escaped character. *)
Lemma parse_escaped a fuel u :
  parse_chars (S fuel) (json_escape a +:+ u) =
    match parse_chars fuel u with Some (x, r) => Some (String a x, r) | None => None end.
Proof. destruct a as [[] [] [] [] [] [] [] []]; reflexivity. Qed.

Lemma parse_chars_escape s rest fuel :
  (String.length s < fuel)%nat → parse_chars fuel (json_escape_all s +:+ dquote +:+ rest) = Some (s, rest).
Proof.
  revert fuel. induction s as [|a s IH]; intros [|fuel] Hf; [cbn in Hf; lia|done|cbn in Hf; lia|].
  cbn [json_escape_all]. rewrite app_assoc_string, parse_escaped, IH; [done|]. cbn in Hf. lia.
Qed.

Lemma parse_string_quote s rest : parse_string (json_quote s +:+ rest) = Some (s, rest).
Proof.
  unfold json_quote. rewrite !app_assoc_string. unfold dquote at 1. rewrite app_String. cbn [parse_string].
  apply parse_chars_escape. change ("" +:+ ?x) with x. rewrite length_string_app.
  pose proof (escape_length s). unfold dquote. cbn [String.length String.append]. rewrite app_String. cbn [String.length]. lia.
Qed.

(** A text that ends a number. *)
Definition stops (rest : string) : bool :=
  match rest with String a _ => negb (number_char a) | EmptyString => true end.

Fixpoint number_chars (s : string) : bool :=
  match s with EmptyString => true | String a t => number_char a && number_chars t end.

Lemma number_span_app s rest : number_chars s = true → stops rest = true → number_span (s +:+ rest) = (s, rest).
Proof.
  induction s as [|a s IH]; intros Hs Hr.
  - change ("" +:+ rest) with rest. destruct rest as [|b rest]; [done|]. cbn in *.
    apply negb_true_iff in Hr. by rewrite Hr.
  - cbn in Hs. apply andb_true_iff in Hs as [Ha Hs]. rewrite app_String. cbn [number_span]. by rewrite Ha, IH.
Qed.

Lemma all_digits_number_chars s : all_digits s = true → number_chars s = true.
Proof.
  induction s as [|a s IH]; [done|]. cbn. intros [Ha Hs]%andb_true_iff. unfold number_char. by rewrite Ha, IH.
Qed.

Lemma big_to_string_chars z :
  number_chars (big_to_string z) = true ∧ ∃ a s, big_to_string z = String a s ∧ number_char a = true.
Proof.
  assert (∀ z, 0 ≤ z → number_chars (big_to_string z) = true ∧ big_to_string z ≠ "") as H.
  { intros y Hy. destruct (big_to_string_abs y) as [Hd _]. rewrite Z.abs_eq in Hd by done.
    split; [by apply all_digits_number_chars|]. intros E. pose proof (BigInt_to_string y) as HB.
    pose proof (string_to_bigint_of_big y) as HS. rewrite E in HS. 
    destruct y; [done| |done]. unfold big_to_string in E. cbn in E. 
    unfold NilZero.string_of_uint in E. by destruct (Pos.to_uint p). }
  assert (number_chars (big_to_string z) = true) as Hc.
  { destruct z as [|p|p]; [by vm_compute|by apply H|].
    change (big_to_string (Z.neg p)) with (String "-" (big_to_string (Z.pos p))).
    change (number_char "-" && number_chars (big_to_string (Z.pos p)) = true).
    by destruct (H (Z.pos p)) as [-> _]. }
  split; [done|]. destruct (big_to_string z) as [|a s] eqn:E.
  - destruct z as [|p|p]; [done| |done]. by destruct (H (Z.pos p)) as [_ Hn]; [lia|].
  - exists a, s. cbn in Hc. by apply andb_true_iff in Hc as [? _].
Qed.

Lemma parse_seq_join {A} (p : string → option (A * string)) close (tvs : list (string * A)) fuel rest :
  tvs ≠ [] → Ascii.eqb close "," = false → number_char close = false →
  (∀ t v r, (t, v) ∈ tvs → stops r = true → p (t +:+ r) = Some (v, r)) →
  (length tvs ≤ fuel)%nat →
  parse_seq p close fuel (join_with "," (map fst tvs) +:+ String close rest) = Some (map snd tvs, rest).
Proof.
  intros Hne Hc Hn. revert fuel. induction tvs as [|[t v] tvs IH]; intros fuel Hp Hf; [done|].
  destruct fuel as [|fuel]; [cbn in Hf; lia|]. cbn [map fst snd parse_seq].
  destruct tvs as [|[t' v'] tvs].
  - cbn [map join_with]. rewrite (Hp t v); [by rewrite Ascii.eqb_refl|left|]. cbn. by rewrite Hn.
  - change (join_with "," (t :: map fst ((t', v') :: tvs)))
      with (t +:+ "," +:+ join_with "," (map fst ((t', v') :: tvs))).
    rewrite !app_assoc_string. rewrite (Hp t v); [|left|done].
    change ("," +:+ ?x) with (String "," x). cbn iota.
    rewrite (proj2 (Ascii.eqb_neq "," close)) by (intros <-; done). cbn iota.
    rewrite IH; [done|done| |cbn in *; lia].
    intros t1 v1 r Hin. apply Hp. by right.
Qed.

(** The text [t] reads as the value [v], and it does not close a bracket. *)
Definition reads (t : string) (v : jsval) : Prop :=
  (∀ fuel rest, (String.length t ≤ fuel)%nat → stops rest = true → parse_value fuel (t +:+ rest) = Some (v, rest)) ∧
  ∃ a t', t = String a t' ∧ Ascii.eqb a "]" = false.

Lemma reads_number z : reads (big_to_string z) (JNum (Num z)).
Proof.
  destruct (big_to_string_chars z) as (Hc & a & s & E & Ha). split.
  - intros fuel rest Hf Hr. pose proof (number_span_app _ rest Hc Hr) as HS.
    pose proof (string_to_bigint_of_big z) as HB. rewrite E in *. rewrite app_String in *.
    destruct fuel as [|fuel]; [cbn in Hf; lia|]. cbn [parse_value]. rewrite HS, HB.
    clear -Ha. destruct a as [[] [] [] [] [] [] [] []]; done.
  - exists a, s. split; [done|]. clear -Ha. destruct a as [[] [] [] [] [] [] [] []]; done.
Qed.

Lemma reads_string s : reads (json_quote s) (JStr s).
Proof.
  split.
  - intros fuel rest Hf Hr. pose proof (parse_string_quote s rest) as HP.
    unfold json_quote, dquote in *. rewrite !app_assoc_string in HP |- *. rewrite app_String in HP, Hf |- *.
    destruct fuel as [|fuel]; [cbn in Hf; lia|].
    cbn [parse_value]. rewrite HP. done.
  - unfold json_quote, dquote. rewrite app_String. do 2 eexists. by split.
Qed.

Lemma join_length sep (l : list string) t : t ∈ l → (String.length t ≤ String.length (join_with sep l))%nat.
Proof.
  induction l as [|x l IH]; [by intros ?%not_elem_of_nil|]. intros Hin.
  destruct l as [|y l]; [apply elem_of_cons in Hin as [->|Hin]; [done|by apply not_elem_of_nil in Hin]|].
  change (join_with sep (x :: y :: l)) with (x +:+ sep +:+ join_with sep (y :: l)).
  rewrite !length_string_app. apply elem_of_cons in Hin as [->|Hin]; [lia|]. specialize (IH Hin). lia.
Qed.

Lemma join_count (l : list string) : (∀ t, t ∈ l → t ≠ "") → (length l ≤ String.length (join_with "," l))%nat.
Proof.
  induction l as [|x l IH]; intros H; [done|].
  assert (1 ≤ String.length x)%nat as Hx.
  { specialize (H x ltac:(left)). destruct x; [done|cbn; lia]. }
  destruct l as [|y l]; [cbn; lia|].
  change (join_with "," (x :: y :: l)) with (x +:+ "," +:+ join_with "," (y :: l)).
  rewrite !length_string_app. cbn [length String.length] in *.
  specialize (IH ltac:(intros t Ht; apply H; by right)). lia.
Qed.

(** A bracketed sequence of texts that read as values. *)
Lemma parse_bracketed {A} (p : string → option (A * string)) close (tvs : list (string * A)) fuel rest :
  tvs ≠ [] → Ascii.eqb close "," = false → number_char close = false →
  (∀ t v, (t, v) ∈ tvs → t ≠ "") →
  (∀ t v r, (t, v) ∈ tvs → stops r = true → p (t +:+ r) = Some (v, r)) →
  (String.length (join_with "," (map fst tvs)) ≤ fuel)%nat →
  parse_seq p close fuel (join_with "," (map fst tvs) +:+ String close rest) = Some (map snd tvs, rest).
Proof.
  intros Hne Hc Hn H0 Hp Hf. apply parse_seq_join; try done.
  rewrite <- (length_map fst). etrans; [apply join_count|done].
  intros t Ht. apply list_elem_of_In, in_map_iff in Ht as ([t' v] & <- & Hin%list_elem_of_In). by eapply H0.
Qed.

(** The texts of the elements of an array, and of the members of an object. *)
Definition element_text (x : jsval) : string * jsval :=
  (default "null" (json_stringify x), match json_roundtrip_value x with JUndefined => JNull | y => y end).

Definition member_text (kv : string * jsval) : option (string * (string * jsval)) :=
  match json_stringify kv.2 with
  | Some t => Some (json_quote kv.1 +:+ ":" +:+ t, (kv.1, json_roundtrip_value kv.2))
  | None => None
  end.

Definition value_reads (v : jsval) : Prop :=
  match json_stringify v with
  | Some t => reads t (json_roundtrip_value v) ∧ json_roundtrip_value v ≠ JUndefined
  | None => json_roundtrip_value v = JUndefined
  end.

Lemma element_text_reads x : value_reads x → reads (element_text x).1 (element_text x).2.
Proof.
  unfold value_reads, element_text. cbn [fst snd]. destruct (json_stringify x) as [t|].
  - intros [H Hn]. cbn [default]. by destruct (json_roundtrip_value x).
  - intros ->. cbn [default]. split; [|by do 2 eexists].
    intros [|fuel] rest Hf _; [cbn in Hf; lia|]. done.
Qed.

Lemma reads_array l : Forall value_reads l →
  reads ("[" +:+ join_with "," (map (λ x, default "null" (json_stringify x)) l) +:+ "]")
        (JArr (map (λ x, match json_roundtrip_value x with JUndefined => JNull | y => y end) l)).
Proof.
  intros Hl. split; [|by do 2 eexists]. intros fuel rest Hf Hr.
  rewrite !app_assoc_string. change ("[" +:+ ?x) with (String "[" x). change ("]" +:+ rest) with (String "]" rest).
  rewrite !length_string_app in Hf. change (String.length "[") with 1%nat in Hf. change (String.length "]") with 1%nat in Hf.
  destruct fuel as [|fuel]; [lia|].
  set (tvs := map element_text l).
  assert (map (λ x, default "null" (json_stringify x)) l = map fst tvs) as E1
    by (unfold tvs; by rewrite map_map).
  assert (map (λ x, match json_roundtrip_value x with JUndefined => JNull | y => y end) l = map snd tvs) as E2
    by (unfold tvs; by rewrite map_map).
  rewrite E1 in *. rewrite E2. clear E1 E2.
  assert (∀ t v, (t, v) ∈ tvs → reads t v) as Hin.
  { intros t v Ht. apply list_elem_of_In, in_map_iff in Ht as (x & Ex & Hx%list_elem_of_In).
    rewrite Forall_forall in Hl. specialize (element_text_reads x (Hl x Hx)). by rewrite Ex. }
  destruct tvs as [|[t0 v0] tvs'] eqn:Et; [done|]. rewrite <- Et in *.
  assert (∃ a t', join_with "," (map fst tvs) +:+ String "]" rest = String a t' ∧ Ascii.eqb a "]" = false) as (a & t' & Ea & Ha).
  { destruct (Hin t0 v0) as (_ & a & t' & -> & Ha); [rewrite Et; left|].
    rewrite Et. destruct tvs' as [|[t1 v1] tvs']; cbn [map fst join_with]; rewrite !app_String; by do 2 eexists. }
  assert (parse_seq (parse_value fuel) "]" fuel (join_with "," (map fst tvs) +:+ String "]" rest)
          = Some (map snd tvs, rest)) as HP.
  { apply parse_bracketed; [by rewrite Et|done|done| | |lia].
    - intros t v Ht. destruct (Hin t v Ht) as (_ & ? & ? & -> & _). done.
    - intros t v r Ht Hs. apply (Hin t v Ht); [|done].
      pose proof (join_length "," (map fst tvs) t) as Hj.
      specialize (Hj ltac:(apply list_elem_of_In, in_map_iff; exists (t, v); split; [done|by apply list_elem_of_In])).
      lia. }
  cbn [parse_value]. change (Ascii.eqb "[" "n") with false. change (Ascii.eqb "[" "t") with false.
  change (Ascii.eqb "[" "f") with false. change ((nat_of_ascii "[" =? 34)%nat) with false.
  change (Ascii.eqb "[" "[") with true. cbn iota. rewrite Ea in *.
  clear -HP Ha. destruct a as [[] [] [] [] [] [] [] []]; try (by cbn in Ha); by rewrite HP.
Qed.

Lemma object_texts kvs : Forall (λ kv, value_reads kv.2) kvs →
  omap (λ kv, match kv with
              | (k, Some t) => Some (json_quote k +:+ ":" +:+ t)
              | (_, None) => None
              end) (map (λ kv, (kv.1, json_stringify kv.2)) kvs) = map fst (omap member_text kvs) ∧
  omap (λ kv, match kv with
              | (_, JUndefined) => None
              | kv => Some kv
              end) (map (λ kv, (kv.1, json_roundtrip_value kv.2)) kvs) = map snd (omap member_text kvs).
Proof.
  induction 1 as [|[k v] kvs Hv _ [IH1 IH2]]; [done|]. cbn [map omap list_omap fst snd].
  unfold value_reads in Hv. cbn [snd] in Hv.
  assert (member_text (k, v) = match json_stringify v with
            | Some t => Some (json_quote k +:+ ":" +:+ t, (k, json_roundtrip_value v)) | None => None end) as -> by done.
  destruct (json_stringify v) as [t|].
  - destruct Hv as [_ Hn]. cbn [map fst snd]. rewrite <- IH1, <- IH2. split; [done|].
    by destruct (json_roundtrip_value v).
  - rewrite Hv. by split.
Qed.

Lemma reads_object tvs :
  (∀ t kv, (t, kv) ∈ tvs → ∃ k u, t = json_quote k +:+ ":" +:+ u ∧ kv.1 = k ∧ reads u kv.2) →
  reads ("{" +:+ join_with "," (map fst tvs) +:+ "}") (JObj (map snd tvs)).
Proof.
  intros Hin. split; [|by do 2 eexists]. intros fuel rest Hf Hr.
  rewrite !app_assoc_string. change ("{" +:+ ?x) with (String "{" x). change ("}" +:+ rest) with (String "}" rest).
  rewrite !length_string_app in Hf. change (String.length "{") with 1%nat in Hf. change (String.length "}") with 1%nat in Hf.
  destruct fuel as [|fuel]; [lia|].
  destruct tvs as [|[t0 kv0] tvs'] eqn:Et; [done|]. rewrite <- Et in *.
  assert (∃ t', join_with "," (map fst tvs) +:+ String "}" rest = dquote +:+ t') as (t' & Ea).
  { destruct (Hin t0 kv0) as (k & u & -> & _); [rewrite Et; left|]. unfold json_quote.
    rewrite Et. destruct tvs' as [|[t1 v1] tvs']; cbn [map fst join_with]; rewrite !app_assoc_string; by eexists. }
  assert (parse_seq (parse_member (parse_value fuel)) "}" fuel (join_with "," (map fst tvs) +:+ String "}" rest)
          = Some (map snd tvs, rest)) as HP.
  { apply parse_bracketed; [by rewrite Et|done|done| | |lia].
    - intros t kv Ht. destruct (Hin t kv Ht) as (k & u & -> & _). unfold json_quote, dquote. by rewrite !app_String.
    - intros t kv r Ht Hs. destruct (Hin t kv Ht) as (k & u & -> & Hk & Hu).
      pose proof (join_length "," (map fst tvs) _
        ltac:(apply list_elem_of_In, in_map_iff; eexists (_, kv); split; [reflexivity|by apply list_elem_of_In])) as Hj.
      cbn [fst] in Hj. rewrite !length_string_app in Hj.
      unfold parse_member. rewrite !app_assoc_string, parse_string_quote. change (":" +:+ ?x) with (String ":" x).
      cbn iota. change (Ascii.eqb ":" ":") with true. cbn iota.
      destruct Hu as [Hu _]. rewrite Hu by (done || lia). subst k. by destruct kv. }
  cbn [parse_value]. change (Ascii.eqb "{" "n") with false. change (Ascii.eqb "{" "t") with false.
  change (Ascii.eqb "{" "f") with false. change ((nat_of_ascii "{" =? 34)%nat) with false.
  change (Ascii.eqb "{" "[") with false. change (Ascii.eqb "{" "{") with true. cbn iota.
  rewrite HP. rewrite Ea. done.
Qed.

(** Every printed value reads back as its JSON image. *)
Lemma json_reads v : no_big v = true → value_reads v.
Proof.
  induction v as [| |b|n|z|s|l IH|kvs IH] using jsval_ind'; intros Hb; unfold value_reads.
  - done.
  - cbn [json_stringify]. split; [|done]. split; [|by do 2 eexists].
    intros [|fuel] rest Hf _; [cbn in Hf; lia|done].
  - cbn [json_stringify]. split; [|done]. split; [|destruct b; by do 2 eexists].
    intros [|fuel] rest Hf _; [destruct b; cbn in Hf; lia|by destruct b].
  - cbn [json_stringify]. destruct n as [z|neg]; cbn [number_to_json json_roundtrip_value]; (split; [|done]).
    + apply reads_number.
    + split; [|by do 2 eexists]. intros [|fuel] rest Hf _; [cbn in Hf; lia|done].
  - done.
  - cbn [json_stringify]. split; [apply reads_string|done].
  - cbn [json_stringify]. split; [|done]. apply reads_array. cbn in Hb.
    rewrite forallb_forall in Hb. rewrite Forall_forall in IH |- *. intros x Hx. apply IH; [done|].
    by apply Hb, list_elem_of_In.
  - assert (Forall (λ kv, value_reads kv.2) kvs) as Hk.
    { cbn in Hb. rewrite forallb_forall in Hb. rewrite Forall_forall in IH |- *. intros x Hx. apply IH; [done|].
      by apply Hb, list_elem_of_In. }
    cbn [json_stringify json_roundtrip_value]. cbv zeta.
    destruct (object_texts kvs Hk) as [E1 E2]. split; [|done].
    match goal with |- reads (_ +:+ join_with _ ?a +:+ _) (JObj ?b) =>
      replace a with (map fst (omap member_text kvs)) by (symmetry; exact E1);
      replace b with (map snd (omap member_text kvs)) by (symmetry; exact E2) end.
    apply reads_object. intros t kv (x & Hx & Ht)%list_elem_of_omap.
    rewrite Forall_forall in Hk. specialize (Hk x Hx). unfold member_text in Ht. unfold value_reads in Hk.
    destruct (json_stringify x.2) as [u|]; [|done]. injection Ht as <- <-.
    exists x.1, u. split_and!; [done|done|]. apply Hk.
Qed.

Lemma parse_json_stringify v s :
  no_big v = true → json_stringify v = Some s → parse_json s = Some (json_roundtrip_value v).
Proof.
  intros Hb E. pose proof (json_reads v Hb) as H. unfold value_reads in H. rewrite E in H.
  destruct H as [[H _] _]. unfold parse_json. specialize (H (String.length s) "" ltac:(lia) eq_refl).
  rewrite string_app_nil in H. by rewrite H.
Qed.

(** ** Canonical texts *)

Lemma no_big_obj_set o kv :
  forallb (λ kv, no_big kv.2) o = true → no_big kv.2 = true → forallb (λ kv, no_big kv.2) (obj_set o kv) = true.
Proof.
  intros Ho Hk. unfold obj_set. case_bool_decide; [done|]. destruct (existsb _ _).
  - rewrite forallb_forall in Ho |- *. intros x (y & <- & Hy)%in_map_iff. case_bool_decide; [done|by apply Ho].
  - destruct kv as [k v]. cbn [fst snd] in *. clear -Ho Hk. induction o as [|[k' v'] o IH]; cbn in *; [by rewrite Hk|].
    apply andb_true_iff in Ho as [H1 H2].
    destruct (array_index k), (array_index k'); [destruct (_ <? _)| |..]; cbn; rewrite ?H1, ?H2, ?Hk, ?IH; done.
Qed.

Lemma no_big_sortValue v : no_big (sortValue v) = true.
Proof.
  induction v as [| |b|n|z|s|l IH|kvs IH] using jsval_ind'; cbn [sortValue no_big]; [done..| |].
  - rewrite forallb_forall. intros x (y & <- & Hy%list_elem_of_In)%in_map_iff.
    rewrite Forall_forall in IH. by apply IH.
  - assert (∀ l o, Forall (λ kv, no_big kv.2 = true) l → forallb (λ kv, no_big kv.2) o = true →
      forallb (λ kv, no_big kv.2) (fold_left obj_set l o) = true) as HF.
    { induction l as [|kv l IHl]; intros o Hl Ho; [done|]. apply Forall_cons in Hl as [H1 H2].
      cbn [fold_left]. apply IHl; [done|]. by apply no_big_obj_set. }
    apply HF; [|done]. rewrite Forall_forall. intros kv Hkv.
    rewrite merge_sort_Permutation in Hkv. apply list_elem_of_In, in_map_iff in Hkv as (x & <- & Hx%list_elem_of_In).
    rewrite Forall_forall in IH. by apply IH.
Qed.

Lemma canonicalize_stringify v : v ≠ JUndefined → json_stringify (sortValue v) = Some (canonicalize v).
Proof.
  intros Hv. unfold canonicalize. pose proof (json_reads _ (no_big_sortValue v)) as H. unfold value_reads in H.
  destruct (json_stringify (sortValue v)) as [t|] eqn:E; [done|].
  destruct v; cbn in E, H; done.
Qed.

(** ** What a payload shows

    The value at a path of property names and indices, whatever the order of the
    properties: an independent reading of a payload, which knows neither of
    sorting nor of JSON texts.  An [undefined] property is not there, an
    [undefined] element is [null], and so is a number that is not finite; a
    [bigint] is its decimal text. *)

Inductive step : Type := Property (k : string) | Element (i : nat).

Inductive leaf : Type :=
| LNull | LBool (b : bool) | LNumber (z : Z) | LText (s : string) | LArray (n : nat) | LObject.

Definition shown (v : jsval) : option leaf :=
  match v with
  | JUndefined => None
  | JNull | JNum (Infinity _) => Some LNull
  | JBool b => Some (LBool b)
  | JNum (Num z) => Some (LNumber z)
  | JBig z => Some (LText (big_to_string z))
  | JStr s => Some (LText s)
  | JArr l => Some (LArray (length l))
  | JObj _ => Some LObject
  end.

Fixpoint own_property (k : string) (kvs : list (string * jsval)) : jsval :=
  match kvs with
  | [] => JUndefined
  | (k', v) :: r => if bool_decide (k = k') then v else own_property k r
  end.

Definition element (v : jsval) : jsval := match v with JUndefined => JNull | v => v end.

Fixpoint look (p : list step) (v : jsval) : option leaf :=
  match p with
  | [] => shown v
  | Property k :: p' => match v with JObj kvs => look p' (own_property k kvs) | _ => None end
  | Element i :: p' =>
      match v with
      | JArr l => match l !! i with Some x => look p' (element x) | None => None end
      | _ => None
      end
  end.

(** No object of the payload has a property named [__proto__]. *)
Fixpoint proto_free (v : jsval) : bool :=
  match v with
  | JArr l => forallb proto_free l
  | JObj kvs => forallb (λ kv, negb (bool_decide (kv.1 = "__proto__")) && proto_free kv.2) kvs
  | _ => true
  end.

Lemma own_property_in kvs k v : NoDup (map fst kvs) → (k, v) ∈ kvs → own_property k kvs = v.
Proof.
  induction kvs as [|[k' v'] r IH]; cbn; [by intros _ ?%not_elem_of_nil|].
  intros [Hn HN]%NoDup_cons [[= -> ->]|Hin]%elem_of_cons; [by rewrite bool_decide_true|].
  rewrite bool_decide_false; [by apply IH|]. intros ->. apply Hn.
  apply list_elem_of_fmap. by exists (k', v).
Qed.

Lemma own_property_out kvs k : k ∉ map fst kvs → own_property k kvs = JUndefined.
Proof.
  induction kvs as [|[k' v'] r IH]; cbn; [done|]. intros [Hne Hr]%not_elem_of_cons.
  rewrite bool_decide_false by done. by apply IH.
Qed.

Lemma own_property_perm l l' k : NoDup (map fst l) → l ≡ₚ l' → own_property k l = own_property k l'.
Proof.
  intros HN HP. assert (map fst l ≡ₚ map fst l') as HK by by apply Permutation_map.
  destruct (decide (k ∈ map fst l)) as [Hin|Hout].
  - apply list_elem_of_fmap in Hin as ([k0 v] & -> & Hv). cbn [fst].
    rewrite (own_property_in l k0 v) by done. symmetry. apply own_property_in; [by rewrite <- HK|by rewrite <- HP].
  - rewrite !own_property_out; [done| |done]. by rewrite <- HK.
Qed.

Lemma own_property_map (f : jsval → jsval) kvs k :
  f JUndefined = JUndefined → own_property k (map (λ kv, (kv.1, f kv.2)) kvs) = f (own_property k kvs).
Proof.
  intros Hf. induction kvs as [|[k' v] r IH]; cbn; [done|]. by case_bool_decide.
Qed.

(** Leaving out what is [undefined] changes no property. *)
Lemma own_property_defined kvs k :
  NoDup (map fst kvs) →
  own_property k (omap (λ kv, match kv with (_, JUndefined) => None | kv => Some kv end) kvs) = own_property k kvs.
Proof.
  induction kvs as [|[k' v] r IH]; [done|]. intros [Hn HN]%NoDup_cons.
  change (omap ?f ((k', v) :: r)) with (match f (k', v) with Some x => x :: omap f r | None => omap f r end).
  specialize (IH HN). destruct v; cbn [own_property]; case_bool_decide as E; try done.
  subst k'. rewrite IH. by apply own_property_out.
Qed.

Lemma js_wf_property kvs k : js_wf (JObj kvs) = true → js_wf (own_property k kvs) = true.
Proof.
  cbn [js_wf]. intros [_ H]%andb_true_iff. induction kvs as [|[k' v] r IH]; [done|]. cbn in *.
  apply andb_true_iff in H as [H1 H2]. case_bool_decide; [done|by apply IH].
Qed.

Lemma proto_free_property kvs k : proto_free (JObj kvs) = true → proto_free (own_property k kvs) = true.
Proof.
  cbn [proto_free]. intros H. induction kvs as [|[k' v] r IH]; [done|]. cbn in *.
  apply andb_true_iff in H as [[_ H1]%andb_true_iff H2]. case_bool_decide; [done|by apply IH].
Qed.

Lemma forallb_lookup {A} (f : A → bool) l i x : forallb f l = true → l !! i = Some x → f x = true.
Proof. rewrite forallb_forall. intros H Hx%list_elem_of_lookup_2%list_elem_of_In. by apply H. Qed.

(** *** Sorting keeps the properties *)

Lemma obj_insert_perm k v o : obj_insert k v o ≡ₚ (k, v) :: o.
Proof.
  induction o as [|[k' v'] o IH]; cbn [obj_insert]; [done|].
  destruct (array_index k), (array_index k'); [destruct (_ <? _)| |..]; try done; rewrite IH; apply Permutation_swap.
Qed.

Lemma obj_set_fresh o kv : kv.1 ≠ "__proto__" → kv.1 ∉ map fst o → obj_set o kv ≡ₚ kv :: o.
Proof.
  intros Hp Hn. unfold obj_set. rewrite bool_decide_false by done.
  destruct (existsb _ o) eqn:E.
  - apply existsb_exists in E as (x & Hx%list_elem_of_In & Hk%bool_decide_eq_true).
    destruct Hn. rewrite <- Hk. apply list_elem_of_fmap. by exists x.
  - rewrite obj_insert_perm. by destruct kv.
Qed.

Lemma assign_all_perm l o :
  (∀ kv, kv ∈ l → kv.1 ≠ "__proto__") → NoDup (map fst (l ++ o)) → fold_left obj_set l o ≡ₚ l ++ o.
Proof.
  revert o. induction l as [|kv l IH]; intros o Hp HN; [done|]. cbn [fold_left app map] in *.
  apply NoDup_cons in HN as [Hn HN]. rewrite map_app, not_elem_of_app in Hn.
  assert (obj_set o kv ≡ₚ kv :: o) as E by (apply obj_set_fresh; [by apply Hp; left|apply Hn]).
  assert (l ++ obj_set o kv ≡ₚ kv :: l ++ o) as E' by by rewrite E, Permutation_middle.
  rewrite IH; [done|by intros x Hx; apply Hp; right|].
  rewrite (Permutation_map fst E'). cbn [map]. apply NoDup_cons. split; [|done]. rewrite map_app, not_elem_of_app. done.
Qed.

(** The properties of a sorted object: those of the object, sorted. *)
Lemma sortValue_properties kvs :
  js_wf (JObj kvs) = true → proto_free (JObj kvs) = true →
  ∃ l, sortValue (JObj kvs) = JObj l ∧ l ≡ₚ map (λ kv, (kv.1, sortValue kv.2)) kvs.
Proof.
  cbn [js_wf proto_free]. intros [HN%bool_decide_eq_true _]%andb_true_iff Hp. eexists. split; [reflexivity|].
  assert (map fst (map (λ kv, (kv.1, sortValue kv.2)) kvs) = map fst kvs) as EK by by rewrite map_map.
  rewrite assign_all_perm.
  - rewrite app_nil_r. apply merge_sort_Permutation.
  - intros kv Hkv. rewrite merge_sort_Permutation in Hkv. apply list_elem_of_fmap in Hkv as (x & -> & Hx).
    apply list_elem_of_In in Hx. rewrite forallb_forall in Hp. apply Hp, andb_true_iff in Hx as [Hx _].
    cbn [fst]. intros E. rewrite E in Hx. done.
  - rewrite app_nil_r. change (NoDup (fst <$> merge_sort key_le (map (λ kv, (kv.1, sortValue kv.2)) kvs))).
    rewrite merge_sort_Permutation. rewrite <- EK in HN. exact HN.
Qed.

Lemma js_wf_sortValue v : js_wf v = true → proto_free v = true → js_wf (sortValue v) = true.
Proof.
  induction v as [| |b|n|z|s|l IH|kvs IH] using jsval_ind'; intros Hwf Hp; try done.
  - cbn [sortValue js_wf proto_free] in *. rewrite forallb_forall in Hwf, Hp |- *.
    intros x (y & <- & Hy)%in_map_iff. rewrite Forall_forall in IH. apply IH; auto. by apply list_elem_of_In.
  - destruct (sortValue_properties kvs Hwf Hp) as (l & -> & HP). cbn [js_wf proto_free] in *.
    apply andb_true_iff in Hwf as [HN%bool_decide_eq_true Hwf]. apply andb_true_iff. split.
    + apply bool_decide_eq_true. rewrite (Permutation_map fst HP), map_map. done.
    + rewrite forallb_forall in Hwf, Hp |- *. intros kv Hkv%list_elem_of_In. rewrite HP in Hkv.
      apply list_elem_of_fmap in Hkv as (x & -> & Hx). cbn [snd]. rewrite Forall_forall in IH.
      apply list_elem_of_In in Hx as Hx'. apply IH; [done|by apply Hwf|]. by apply Hp, andb_true_iff in Hx' as [_ ?].
Qed.

Lemma look_sortValue p v : js_wf v = true → proto_free v = true → look p (sortValue v) = look p v.
Proof.
  revert v. induction p as [|[k|i] p IH]; intros v Hwf Hp.
  - destruct v as [| | |[]| | |l|kvs]; cbn; by rewrite ?length_map.
  - destruct v as [| | |[]| | |l|kvs]; try done. destruct (sortValue_properties kvs Hwf Hp) as (l & -> & HP). cbn [look].
    assert (NoDup (map fst kvs)) as HN by (cbn [js_wf] in Hwf; by apply andb_true_iff in Hwf as [?%bool_decide_eq_true _]).
    rewrite (own_property_perm l (map (λ kv, (kv.1, sortValue kv.2)) kvs) k); [|by rewrite (Permutation_map fst HP), map_map|exact HP].
    rewrite own_property_map by done. apply IH; [by apply js_wf_property|by apply proto_free_property].
  - destruct v as [| | |[]| | |l|kvs]; try done. cbn [sortValue look js_wf proto_free] in *.
    rewrite list_lookup_fmap. destruct (l !! i) as [x|] eqn:Ex; [|done]. cbn [fmap option_fmap option_map].
    pose proof (forallb_lookup _ _ _ _ Hwf Ex). pose proof (forallb_lookup _ _ _ _ Hp Ex).
    rewrite <- (IH (element x)) by by destruct x. by destruct x.
Qed.

(** A value read back from its text shows what the value does. *)
Lemma look_roundtrip p v : js_wf v = true → look p (json_roundtrip_value v) = look p v.
Proof.
  revert v. induction p as [|[k|i] p IH]; intros v Hwf.
  - destruct v as [| | |[]| | |l|kvs]; cbn; by rewrite ?length_map.
  - destruct v as [| | |[]| | |l|kvs]; try done. cbn [json_roundtrip_value look].
    assert (NoDup (map fst kvs)) as HN by (cbn [js_wf] in Hwf; by apply andb_true_iff in Hwf as [?%bool_decide_eq_true _]).
    rewrite own_property_defined by by rewrite map_map.
    rewrite own_property_map by done. apply IH. by apply js_wf_property.
  - destruct v as [| | |[]| | |l|kvs]; try done. cbn [json_roundtrip_value look js_wf] in *.
    rewrite list_lookup_fmap. destruct (l !! i) as [x|] eqn:Ex; [|done]. cbn [fmap option_fmap option_map].
    pose proof (forallb_lookup _ _ _ _ Hwf Ex). rewrite <- (IH (element x)) by by destruct x.
    by destruct x as [| | |[]| | | |].
Qed.

(** The text of a payload reads back as a value that shows what the payload does. *)
Lemma canonicalize_shows v p :
  v ≠ JUndefined → js_wf v = true → proto_free v = true →
  ∃ w, parse_json (canonicalize v) = Some w ∧ look p w = look p v.
Proof.
  intros Hv Hwf Hp. exists (json_roundtrip_value (sortValue v)). split.
  - exact (parse_json_stringify _ _ (no_big_sortValue v) (canonicalize_stringify v Hv)).
  - rewrite look_roundtrip by by apply js_wf_sortValue. by apply look_sortValue.
Qed.

(** Claim C29 (canonical bytes bind the payload).  For payloads without a property
    named [__proto__] (the code drops that one): the canonical text reads back as
    JSON that shows, at every path of property names and indices, what the payload
    shows there; two payloads with the same canonical bytes show the same at every
    path, so a signature over one cannot be presented for a payload with other
    contents; and any reordering of the properties has the same bytes.  An
    undefined property shows nothing, an undefined element and an infinite number
    show null, a bigint shows its decimal text. *)
Theorem canonicalize_binding (v v' : jsval)
    (Hv : v ≠ JUndefined) (Hwf : js_wf v = true) (Hp : proto_free v = true)
    (Hv' : v' ≠ JUndefined) (Hwf' : js_wf v' = true) (Hp' : proto_free v' = true) :
  (∃ w, parse_json (canonicalize v) = Some w ∧ ∀ p, look p w = look p v) ∧
  (canonicalize v = canonicalize v' → ∀ p, look p v = look p v') ∧
  (js_equiv v v' → canonicalize v = canonicalize v').
Proof.
  split_and!.
  - destruct (canonicalize_shows v [] Hv Hwf Hp) as (w & Hw & _). exists w. split; [done|]. intros p.
    destruct (canonicalize_shows v p Hv Hwf Hp) as (w' & Hw' & Hl). rewrite Hw in Hw'. by injection Hw' as ->.
  - intros E p. destruct (canonicalize_shows v p Hv Hwf Hp) as (w & Hw & <-).
    destruct (canonicalize_shows v' p Hv' Hwf' Hp') as (w' & Hw' & <-). rewrite E, Hw' in Hw. by injection Hw as ->.
  - intros He. unfold canonicalize. by rewrite (sortValue_equiv v v').
Qed.

Lemma canonicalize_binding_witness :
  ∃ w, parse_json (canonicalize (JObj [("b", JNull); ("a", JBig 1)])) = Some w ∧
    look [Property "a"] w = Some (LText "1") ∧ look [Property "c"] w = None.
Proof.
  destruct (canonicalize_binding (JObj [("b", JNull); ("a", JBig 1)]) JNull
              ltac:(discriminate) eq_refl eq_refl ltac:(discriminate) eq_refl eq_refl) as ((w & Hw & Hl) & _).
  exists w. split; [exact Hw|]. rewrite !Hl. split; reflexivity.
Defined.
