(* ===== verification/Credentials.v ===== *)
(** Operator credentials: [packages/cryptography/src/totp.ts] (base32 secrets,
    time-based one-time passwords) and [password.ts] (scrypt hashes).

    Integers follow JavaScript: the shifts of the base32 coder work on 32-bit
    words that are never masked, so their wrap-around is written out.  HMAC,
    scrypt, the random source and the text codecs of Node are the class
    [NodeAuth]. *)
From Stdlib Require Import QArith_base.
From S2P Require Import Prelude.
From S2P Require Import Text.
From S2P Require Import Crypto.
From S2P Require Import Json.
#[local] Open Scope string_scope.
#[local] Open Scope list_scope.
#[local] Open Scope Z_scope.

(** * 32-bit operators *)

(** ToInt32 and ToUint32. *)
Definition to_uint32 (z : Z) : Z := z mod 2 ^ 32.
Definition to_int32 (z : Z) : Z := let m := to_uint32 z in if m <? 2 ^ 31 then m else m - 2 ^ 32.

(** [v << n], [v >>> n] and [a | b], for shift counts below 32. *)
Definition shl32 (v n : Z) : Z := to_int32 (Z.shiftl (to_int32 v) n).
Definition shr32 (v n : Z) : Z := Z.shiftr (to_uint32 v) n.
Definition or32 (a b : Z) : Z := Z.lor (to_int32 a) (to_int32 b).
Definition and32 (a b : Z) : Z := Z.land (to_int32 a) (to_int32 b).

(** * What Node provides *)

(** Objects whose properties enumerate in the order they are written. *)
Fixpoint plain_names (v : jsval) : bool :=
  match v with
  | JArr l => forallb plain_names l
  | JObj kvs =>
      bool_decide (NoDup (map fst kvs)) &&
      forallb (λ kv, bool_decide (array_index kv.1 = None) && plain_names kv.2) kvs
  | _ => true
  end.

Class NodeAuth : Type := {
  (** [createHmac('sha1', key).update(buf).digest()], the bytes *)
  hmac_sha1 : list Z → list Z → list Z;
  hmac_sha1_length k m : length (hmac_sha1 k m) = 20%nat;
  hmac_sha1_byte k m b : b ∈ hmac_sha1 k m → 0 ≤ b < 256;
  (** [createHmac('sha256', secret).update(body).digest('base64url')] *)
  hmac_sha256_url : string → string → string;
  hmac_sha256_no_dot k b : lacks "." (hmac_sha256_url k b) = true;
  (** [scryptSync(password, salt, keylen, { N })]; an [N] that is no number throws *)
  scrypt : string → list Z → nat → option Q → outcome (list Z);
  scrypt_ok p s n : ∃ h, scrypt p s n (Some (16384 # 1)) = Ok h ∧ length h = n ∧ Forall (λ b, 0 ≤ b < 256) h;
  (** [randomBytes(n)], of the [k]-th call *)
  random_bytes : nat → nat → list Z;
  random_bytes_byte n k : Forall (λ b, 0 ≤ b < 256) (random_bytes n k);
  (** [Number(s)] when it is finite *)
  to_number : string → option Q;
  to_number_16384 : to_number "16384" = Some (16384 # 1);
  (** [Buffer.from(s).toString('base64url')] and [Buffer.from(s, 'base64url').toString('utf8')] *)
  base64url : string → string;
  base64url_decode : string → string;
  base64url_roundtrip s : base64url_decode (base64url s) = s;
  base64url_decode_empty : base64url_decode "" = "";
  base64url_no_dot s : lacks "." (base64url s) = true;
  (** [Buffer.from(s, 'base64').toString('utf8')] *)
  base64_decode : string → string;
  (** [buf.toString('base64url')] of bytes *)
  bytes_base64url : list Z → string;
  (** [JSON.parse]; [None] when it throws *)
  json_parse : string → option jsval;
  json_parse_stringify v s :
    no_big v = true → plain_names v = true → json_stringify v = Some s →
    json_parse s = Some (json_roundtrip_value v);
  (** [QRCode.toDataURL(uri, { margin: 1, width: 220 })] *)
  qr_data_url : string → string
}.

(** * Base32 *)

Definition B32 : string := "ABCDEFGHIJKLMNOPQRSTUVWXYZ234567".

(** [B32[i]] for [0 <= i < 32] *)
Definition b32_char (i : Z) : ascii := default "A"%char (String.get (Z.to_nat i) B32).
(** [B32.indexOf(ch)] *)
Definition b32_index (c : ascii) : option Z := Z.of_nat <$> String.index 0 (String c "") B32.

(** The state of both loops: [bits], [value] and what is out so far. *)
Record Coder (A : Type) : Type := mkCoder { c_bits : Z; c_value : Z; c_out : A }.
Arguments mkCoder {_} _ _ _.
Arguments c_bits {_} _.
Arguments c_value {_} _.
Arguments c_out {_} _.

(** [while (bits >= 5) { out += ...; bits -= 5; }] *)
Fixpoint b32_drain (fuel : nat) (bits value : Z) (out : string) : Z * string :=
  match fuel with
  | O => (bits, out)
  | S fuel' =>
      if 5 <=? bits
      then b32_drain fuel' (bits - 5) value
             (out +:+ String (b32_char (and32 (shr32 value (bits - 5)) 31)) "")
      else (bits, out)
  end.

Definition b32_push (st : Coder string) (byte : Z) : Coder string :=
  let value := or32 (shl32 (c_value st) 8) byte in
  let bits := c_bits st + 8 in
  let '(bits', out) := b32_drain (Z.to_nat bits) bits value (c_out st) in
  mkCoder bits' value out.

Definition base32Encode (buf : list Z) : string :=
  let st := fold_left b32_push buf (mkCoder 0 0 "") in
  if 0 <? c_bits st
  then c_out st +:+ String (b32_char (and32 (shl32 (c_value st) (5 - c_bits st)) 31)) ""
  else c_out st.

(** [s.replace(/=+$/, '')] *)
Fixpoint strip_padding (s : string) : string :=
  match s with
  | EmptyString => ""
  | String a s' =>
      match strip_padding s' with
      | EmptyString => if Ascii.eqb a "=" then "" else String a ""
      | t => String a t
      end
  end.

Definition b32_pull (st : Coder (list Z)) (ch : ascii) : Coder (list Z) :=
  match b32_index ch with
  | None => st
  | Some idx =>
      let value := or32 (shl32 (c_value st) 5) idx in
      let bits := c_bits st + 5 in
      if 8 <=? bits
      then mkCoder (bits - 8) value (c_out st ++ [and32 (shr32 value (bits - 8)) 255])
      else mkCoder bits value (c_out st)
  end.

Fixpoint b32_pull_all (st : Coder (list Z)) (s : string) : Coder (list Z) :=
  match s with
  | EmptyString => st
  | String c s' => b32_pull_all (b32_pull st c) s'
  end.

Definition base32Decode (s : string) : list Z :=
  c_out (b32_pull_all (mkCoder 0 0 []) (to_upper (strip_padding s))).

Example base32_rfc4648 :
  base32Encode [102; 111; 111; 98; 97] = "MZXW6YTB" ∧ base32Encode [102; 111] = "MZXQ" ∧
  base32Decode "mzxw6===" = [102; 111; 111].
Proof. vm_compute. done. Qed.

(** * One-time passwords *)

(** [buf.writeBigUInt64BE(counter)] *)
Definition be64 (counter : Z) : outcome (list Z) :=
  if (0 <=? counter) && (counter <? 2 ^ 64)
  then Ok (map (λ i, Z.land (Z.shiftr counter (8 * Z.of_nat (7 - i))) 255) (seq 0 8))
  else Err (JsError "RangeError" "The value of value is out of range").

Section totp.
Context `{NA : !NodeAuth}.

Definition generateTotpSecret (nonce : nat) : string := base32Encode (random_bytes 20 nonce).

(** The 31-bit dynamic truncation of the digest. *)
Definition truncate_digest (h : list Z) : Z :=
  let byte i := default 0 (h !! i) in
  let offset := Z.to_nat (and32 (default 0 (last h)) 15) in
  or32 (or32 (or32 (shl32 (and32 (byte offset) 127) 24) (shl32 (and32 (byte (offset + 1)%nat) 255) 16))
             (shl32 (and32 (byte (offset + 2)%nat) 255) 8))
       (and32 (byte (offset + 3)%nat) 255).

Definition totpCode (secret : string) (forTime : Z) : outcome string :=
  let counter := forTime / 1000 / 30 in
  let key := base32Decode secret in
  buf ← be64 counter;
  Ok (pad_start0 6 (big_to_string (Z.rem (truncate_digest (hmac_sha1 key buf)) 1000000))).

(** [for (const drift of [-1, 0, 1]) if (totpCode(...) === c) return true] *)
Fixpoint try_drifts (secret c : string) (nowMs : Z) (drifts : list Z) : outcome bool :=
  match drifts with
  | [] => Ok false
  | d :: ds =>
      code ← totpCode secret (nowMs + d * 30000);
      if bool_decide (code = c) then Ok true else try_drifts secret c nowMs ds
  end.

Definition verifyTotp (secret code : string) (nowMs : Z) : outcome bool :=
  try_drifts secret (trim code) nowMs [-1; 0; 1].
End totp.

(** * The enrolment URI *)

(** The bytes of a character of a string of Latin-1 code units in UTF-8. *)
Definition utf8_bytes (a : ascii) : list nat :=
  let n := nat_of_ascii a in
  if (n <? 128)%nat then [n] else [192 + n / 64; 128 + n mod 64]%nat.

Definition upper_hex (n : nat) : ascii :=
  if (n <? 10)%nat then ascii_of_nat (48 + n) else ascii_of_nat (55 + n).
Definition percent (n : nat) : string := String "%" (String (upper_hex (n / 16)) (String (upper_hex (n mod 16)) "")).

Definition is_alnum (n : nat) : bool :=
  ((48 <=? n) && (n <=? 57) || (65 <=? n) && (n <=? 90) || (97 <=? n) && (n <=? 122))%nat.

Fixpoint percent_encode (keep : nat → option string) (s : string) : string :=
  match s with
  | EmptyString => ""
  | String a s' =>
      (match keep (nat_of_ascii a) with
       | Some t => t
       | None => String.concat "" (map percent (utf8_bytes a))
       end) +:+ percent_encode keep s'
  end.

(** [encodeURIComponent] keeps letters, digits and - _ . ! ~ * ' ( ) *)
Definition encodeURIComponent : string → string :=
  percent_encode (λ n, if is_alnum n || bool_decide (n ∈ [45; 95; 46; 33; 126; 42; 39; 40; 41]%nat)
                       then Some (String (ascii_of_nat n) "") else None).
(** [URLSearchParams] keeps letters, digits and * - . _ and writes a space as + *)
Definition form_encode : string → string :=
  percent_encode (λ n, if is_alnum n || bool_decide (n ∈ [42; 45; 46; 95]%nat) then Some (String (ascii_of_nat n) "")
                       else if (n =? 32)%nat then Some "+" else None).
Definition URLSearchParams (ps : list (string * string)) : string :=
  join_with "&" (map (λ p, form_encode p.1 +:+ "=" +:+ form_encode p.2) ps).

Definition otpauthUrl (secret account issuer : string) : string :=
  "otpauth://totp/" +:+ encodeURIComponent (issuer +:+ ":" +:+ account) +:+ "?" +:+
  URLSearchParams [("secret", secret); ("issuer", issuer); ("algorithm", "SHA1"); ("digits", "6"); ("period", "30")].

Example otpauthUrl_example :
  otpauthUrl "MZXQ" "a@b.kh" "Cambobia Trustee" =
  "otpauth://totp/Cambobia%20Trustee%3Aa%40b.kh?secret=MZXQ&issuer=Cambobia+Trustee&algorithm=SHA1&digits=6&period=30".
Proof. vm_compute. reflexivity. Qed.

(** * Passwords *)

(** [s.split(c)] for a one-character separator *)
Fixpoint split_on (c : ascii) (s : string) : list string :=
  match s with
  | EmptyString => [""]
  | String a s' =>
      if Ascii.eqb a c then "" :: split_on c s'
      else match split_on c s' with
           | x :: l => String a x :: l
           | [] => [String a ""]
           end
  end.

(** [buf.toString('hex')] and [Buffer.from(s, 'hex')], which stops at the first
    pair that is not hexadecimal. *)
Fixpoint hex_encode (l : list Z) : string :=
  match l with
  | [] => ""
  | b :: l' => String (hex_digit (Z.to_nat (b / 16))) (String (hex_digit (Z.to_nat (b mod 16))) (hex_encode l'))
  end.

Definition hex_value (a : ascii) : option Z :=
  let n := Z.of_nat (nat_of_ascii a) in
  if (48 <=? n) && (n <=? 57) then Some (n - 48)
  else if (97 <=? n) && (n <=? 102) then Some (n - 87)
  else if (65 <=? n) && (n <=? 70) then Some (n - 55)
  else None.

Fixpoint hex_decode (s : string) : list Z :=
  match s with
  | String a (String b s') =>
      match hex_value a, hex_value b with
      | Some x, Some y => 16 * x + y :: hex_decode s'
      | _, _ => []
      end
  | _ => []
  end.

Section password.
Context `{NA : !NodeAuth}.

Definition SCRYPT_N : option Q := Some (16384 # 1).
Definition KEYLEN : nat := 64.

Definition hashPassword (password : string) (nonce : nat) : outcome string :=
  let salt := random_bytes 16 nonce in
  hash ← scrypt password salt KEYLEN SCRYPT_N;
  Ok ("scrypt$" +:+ "16384" +:+ "$" +:+ hex_encode salt +:+ "$" +:+ hex_encode hash).

Definition verifyPassword (password stored : string) : outcome bool :=
  match split_on "$" stored with
  | [scheme; n; salt; hash] =>
      if bool_decide (scheme = "scrypt") then
        let expected := hex_decode hash in
        actual ← scrypt password (hex_decode salt) (length expected) (to_number n);
        Ok (bool_decide (length actual = length expected) && bool_decide (actual = expected))
      else Ok false
  | _ => Ok false
  end.
End password.

(** * The 32-bit operators, as arithmetic *)

Lemma to_int32_mod z : to_int32 z mod 2 ^ 32 = z mod 2 ^ 32.
Proof. unfold to_int32, to_uint32. case_match; [by rewrite Z.mod_mod|]. rewrite Zminus_mod, Z_mod_same_full, Z.sub_0_r. by rewrite !Z.mod_mod. Qed.

Lemma mod_pow2_le a b k : 0 ≤ k ≤ 32 → a mod 2 ^ 32 = b mod 2 ^ 32 → a mod 2 ^ k = b mod 2 ^ k.
Proof.
  intros Hk E. assert (∀ z, z mod 2 ^ k = (z mod 2 ^ 32) mod 2 ^ k) as H; [|by rewrite (H a), (H b), E].
  intros z. apply Znumtheory.Zmod_div_mod; [by apply Z.pow_pos_nonneg; lia|lia|].
  exists (2 ^ (32 - k)). rewrite <- Z.pow_add_r by lia. f_equal. lia.
Qed.

(** A loaded word agrees with the unbounded sum on its low bits. *)
Lemma push_value v n x k :
  0 ≤ n < 32 → 0 ≤ x < 2 ^ n → n ≤ 30 → 0 ≤ k ≤ 32 →
  or32 (shl32 v n) x mod 2 ^ k = (v * 2 ^ n + x) mod 2 ^ k.
Proof.
  intros Hn Hx Hn' Hk. apply mod_pow2_le; [done|]. unfold or32, shl32.
  assert (2 ^ n ≤ 2 ^ 30) as Hp by (apply Z.pow_le_mono_r; lia).
  assert (to_int32 x = x) as -> by (unfold to_int32, to_uint32; rewrite Z.mod_small by lia; case_match; lia).
  set (s := Z.shiftl (to_int32 v) n).
  rewrite Z.lor_comm, <- Z.add_nocarry_lor.
  - rewrite Zplus_mod, !to_int32_mod, <- Zplus_mod. unfold s. rewrite Z.shiftl_mul_pow2 by lia.
    rewrite (Z.add_comm x), Zplus_mod, Zmult_mod, to_int32_mod, <- Zmult_mod, <- Zplus_mod. done.
  - apply Z.bits_inj'. intros i Hi. rewrite Z.land_spec, Z.bits_0.
    destruct (Z.lt_ge_cases i n) as [Hlt|Hge].
    + assert (Z.testbit (to_int32 (to_int32 s)) i = false) as ->; [|by rewrite andb_false_r].
      assert (∀ z, to_int32 z mod 2 ^ n = z mod 2 ^ n) as Hm by (intros z; apply mod_pow2_le; [lia|apply to_int32_mod]).
      rewrite <- (Z.mod_pow2_bits_low _ n) by done. rewrite !Hm. rewrite Z.mod_pow2_bits_low by done.
      unfold s. by apply Z.shiftl_spec_low.
    + rewrite <- (Z.mod_small x (2 ^ n)) by done. by rewrite Z.mod_pow2_bits_high by lia.
Qed.

(** A field of a word. *)
Lemma take_value v n m :
  0 ≤ n → 0 ≤ m ≤ 30 → n + m ≤ 32 → and32 (shr32 v n) (2 ^ m - 1) = v / 2 ^ n mod 2 ^ m.
Proof.
  intros Hn Hm Hnm. unfold and32, shr32, to_uint32.
  assert (2 ^ m ≤ 2 ^ 30) as Hp by (apply Z.pow_le_mono_r; lia).
  assert (0 < 2 ^ m) as Hp0 by (apply Z.pow_pos_nonneg; lia).
  assert (to_int32 (2 ^ m - 1) = Z.ones m) as ->.
  { unfold to_int32, to_uint32. rewrite Z.mod_small by lia. rewrite Z.ones_equiv. case_match; lia. }
  rewrite Z.land_ones by lia.
  transitivity (Z.shiftr (v mod 2 ^ 32) n mod 2 ^ m).
  { apply mod_pow2_le; [lia|]. apply to_int32_mod. }
  rewrite <- !Z.shiftr_div_pow2 by lia. apply Z.bits_inj'. intros i Hi.
  destruct (Z.lt_ge_cases i m) as [Hlt|Hge].
  - rewrite !Z.mod_pow2_bits_low, !Z.shiftr_spec by lia. by rewrite Z.mod_pow2_bits_low by lia.
  - by rewrite !Z.mod_pow2_bits_high by lia.
Qed.

(** * Base32 round trip *)

#[local] Ltac Zify.zify_post_hook ::= Z.div_mod_to_equations.

Lemma b32_index_char i : 0 ≤ i < 32 → b32_index (b32_char i) = Some i.
Proof.
  intros Hi. assert (Forall (λ i, b32_index (b32_char i) = Some i) (seqZ 0 32)) as H.
  { by apply (bool_decide_unpack _); vm_compute. }
  rewrite Forall_forall in H. apply H, elem_of_seqZ. lia.
Qed.

Lemma b32_char_plain i : 0 ≤ i < 32 →
  ascii_upper (b32_char i) = b32_char i ∧ Ascii.eqb (b32_char i) "=" = false.
Proof.
  intros Hi. assert (Forall (λ i, ascii_upper (b32_char i) = b32_char i ∧ Ascii.eqb (b32_char i) "=" = false)
                            (seqZ 0 32)) as H.
  { by apply (bool_decide_unpack _); vm_compute. }
  rewrite Forall_forall in H. apply H, elem_of_seqZ. lia.
Qed.

Lemma b32_pull_all_snoc st s c : b32_pull_all st (s +:+ String c "") = b32_pull (b32_pull_all st s) c.
Proof. revert st. induction s as [|a s IH]; intros st; simpl; [done|apply IH]. Qed.

(** Strings that the normalisation of the decoder leaves alone. *)
Definition b32_text (s : string) : Prop := strip_padding s = s ∧ to_upper s = s.

Lemma b32_text_snoc s i : b32_text s → 0 ≤ i < 32 → b32_text (s +:+ String (b32_char i) "").
Proof.
  intros [H1 H2] Hi. destruct (b32_char_plain i Hi) as [HU HE]. unfold b32_text. clear H1. split.
  - clear H2. induction s as [|a s IH]; simpl; [by rewrite HE|]. rewrite IH. by destruct s.
  - induction s as [|a s IH]; simpl in *; [by rewrite HU|]. injection H2 as -> H2. by rewrite IH.
Qed.

(** The decoder reads one character of the alphabet. *)
Lemma b32_pull_char b v o i : 0 ≤ b < 8 → 0 ≤ i < 32 →
  ∃ v', (∀ k, 0 ≤ k ≤ 32 → v' mod 2 ^ k = (v * 32 + i) mod 2 ^ k) ∧
    b32_pull (mkCoder b v o) (b32_char i) =
      if 8 <=? b + 5 then mkCoder (b - 3) v' (o ++ [v' / 2 ^ (b - 3) mod 256]) else mkCoder (b + 5) v' o.
Proof.
  intros Hb Hi. unfold b32_pull. rewrite b32_index_char by done. cbn [c_bits c_value c_out].
  exists (or32 (shl32 v 5) i). split.
  { intros k Hk. by rewrite push_value. }
  destruct (Z.leb_spec 8 (b + 5)); [|done].
  replace (b + 5 - 8) with (b - 3) by lia.
  by rewrite (take_value _ (b - 3) 8) by lia.
Qed.

(** A byte enters the encoder. *)
Lemma b32_push_byte b v s y : 0 ≤ b < 5 → 0 ≤ y < 256 →
  ∃ w, (∀ k, 0 ≤ k ≤ 32 → w mod 2 ^ k = (v * 256 + y) mod 2 ^ k) ∧
    b32_push (mkCoder b v s) y =
      if b <? 2 then mkCoder (b + 3) w (s +:+ String (b32_char (w / 2 ^ (b + 3) mod 32)) "")
      else mkCoder (b - 2) w ((s +:+ String (b32_char (w / 2 ^ (b + 3) mod 32)) "")
                                +:+ String (b32_char (w / 2 ^ (b - 2) mod 32)) "").
Proof.
  intros Hb Hy. exists (or32 (shl32 v 8) y). split.
  { intros k Hk. by rewrite push_value. }
  unfold b32_push. cbn [c_bits c_value c_out].
  set (w := or32 _ _).
  assert (∀ n, 0 ≤ n ≤ 7 → and32 (shr32 w n) 31 = w / 2 ^ n mod 32) as HT
    by (intros n Hn; apply (take_value w n 5); lia).
  assert (b ∈ seqZ 0 5) as Hc by (apply elem_of_seqZ; lia).
  repeat (apply elem_of_cons in Hc as [->|Hc]; [simpl; rewrite !HT by lia; reflexivity|]).
  by apply not_elem_of_nil in Hc.
Qed.

(** Between two bytes either both coders are empty-handed or the bits of the
    last byte are split between them. *)
Inductive coding : list Z → Coder string → Coder (list Z) → Prop :=
| coding_whole bs v v' s : coding bs (mkCoder 0 v s) (mkCoder 0 v' bs)
| coding_split bs x b v v' s :
    0 < b < 5 → 0 ≤ x < 256 → v mod 2 ^ b = x mod 2 ^ b → v' mod 2 ^ (8 - b) = x / 2 ^ b →
    coding (bs ++ [x]) (mkCoder b v s) (mkCoder (8 - b) v' bs).

Definition in_step (bs : list Z) (e : Coder string) : Prop :=
  b32_text (c_out e) ∧ coding bs e (b32_pull_all (mkCoder 0 0 []) (c_out e)).

(** Evaluate the closed shifts, widths and comparisons of a case. *)
Ltac const_step e :=
  let z := eval vm_compute in e in
  lazymatch z with Z0 => idtac | Zpos _ => idtac | true => idtac | false => idtac end;
  progress change e with z in *.
Ltac constants :=
  repeat match goal with
  | |- context [2 ^ ?e] => const_step (2 ^ e)
  | |- context [?a + ?b] => const_step (a + b)
  | |- context [?a - ?b] => const_step (a - b)
  | |- context [?a <=? ?b] => const_step (a <=? b)
  | |- context [?a <? ?b] => const_step (a <? b)
  | _ : context [2 ^ ?e] |- _ => const_step (2 ^ e)
  | _ : context [?a - ?b] |- _ => const_step (a - b)
  end; cbn beta iota.

Lemma in_step_push bs e y : in_step bs e → 0 ≤ y < 256 → in_step (bs ++ [y]) (b32_push e y).
Proof.
  intros [Ht Hc] Hy. destruct e as [b v s]; cbn [c_out] in *.
  inversion Hc as [? ? v' ? Eb Hs Ed|bs' x ? ? v' ? Hb Hx Hv Hv' Eb Hs Ed]; subst; symmetry in Ed.
  - destruct (b32_push_byte 0 v s y) as (w & Hw & ->); [lia..|]. constants.
    split; cbn [c_out]; [apply b32_text_snoc; [done|lia]|].
    rewrite b32_pull_all_snoc, Ed.
    destruct (b32_pull_char 0 v' bs (w / 8 mod 32)) as (v1 & H1 & ->); [lia..|]. constants.
    pose proof (Hw 8 ltac:(lia)) as Hw8. pose proof (H1 5 ltac:(lia)) as H15. constants.
    apply (coding_split bs y 3); constants; [lia|done|lia|lia].
  - destruct (b32_push_byte b v s y) as (w & Hw & ->); [lia..|].
    pose proof (Hw 12 ltac:(lia)) as Hw'. 
    assert (b ∈ [1; 2; 3; 4]) as Hc' by (rewrite !elem_of_cons; lia).
    repeat (apply elem_of_cons in Hc' as [->|Hc']); [..|by apply not_elem_of_nil in Hc']; constants;
      (split; cbn [c_out]; [repeat (apply b32_text_snoc; [|lia]); done|]);
      rewrite !b32_pull_all_snoc, Ed.
    + destruct (b32_pull_char 7 v' bs' (w / 16 mod 32)) as (v1 & H1 & ->); [lia..|].
      pose proof (H1 12 ltac:(lia)) as H1'. constants.
      assert (v1 / 16 mod 256 = x) as -> by lia.
      apply (coding_split (bs' ++ [x]) y 4); constants; [lia|done|lia|lia].
    + destruct (b32_pull_char 6 v' bs' (w / 32 mod 32)) as (v1 & H1 & ->); [lia..|].
      pose proof (H1 12 ltac:(lia)) as H1'. constants.
      assert (v1 / 8 mod 256 = x) as -> by lia.
      destruct (b32_pull_char 3 v1 (bs' ++ [x]) (w / 1 mod 32)) as (v2 & H2 & ->); [lia..|].
      pose proof (H2 12 ltac:(lia)) as H2'. constants.
      assert (v2 / 1 mod 256 = y) as -> by lia.
      apply coding_whole.
    + destruct (b32_pull_char 5 v' bs' (w / 64 mod 32)) as (v1 & H1 & ->); [lia..|].
      pose proof (H1 12 ltac:(lia)) as H1'. constants.
      assert (v1 / 4 mod 256 = x) as -> by lia.
      destruct (b32_pull_char 2 v1 (bs' ++ [x]) (w / 2 mod 32)) as (v2 & H2 & ->); [lia..|].
      pose proof (H2 12 ltac:(lia)) as H2'. constants.
      apply (coding_split (bs' ++ [x]) y 1); constants; [lia|done|lia|lia].
    + destruct (b32_pull_char 4 v' bs' (w / 128 mod 32)) as (v1 & H1 & ->); [lia..|].
      pose proof (H1 12 ltac:(lia)) as H1'. constants.
      assert (v1 / 2 mod 256 = x) as -> by lia.
      destruct (b32_pull_char 1 v1 (bs' ++ [x]) (w / 4 mod 32)) as (v2 & H2 & ->); [lia..|].
      pose proof (H2 12 ltac:(lia)) as H2'. constants.
      apply (coding_split (bs' ++ [x]) y 2); constants; [lia|done|lia|lia].
Qed.

Lemma and32_low x : and32 x 31 = x mod 32.
Proof.
  unfold and32. change (to_int32 31) with (Z.ones 5). rewrite Z.land_ones by lia.
  apply (mod_pow2_le _ _ 5); [lia|apply to_int32_mod].
Qed.

Lemma shl32_low v n : 0 ≤ n ≤ 5 → shl32 v n mod 32 = (v * 2 ^ n) mod 32.
Proof.
  intros Hn. unfold shl32. change 32 with (2 ^ 5). apply mod_pow2_le; [lia|].
  rewrite to_int32_mod, Z.shiftl_mul_pow2 by lia. by rewrite Zmult_mod, to_int32_mod, <- Zmult_mod.
Qed.

Lemma in_step_all l bs e :
  in_step bs e → Forall (λ b, 0 ≤ b < 256) l → in_step (bs ++ l) (fold_left b32_push l e).
Proof.
  revert bs e. induction l as [|y l IH]; intros bs e He Hl; [by rewrite app_nil_r|].
  apply Forall_cons in Hl as [Hy Hl]. rewrite cons_middle, app_assoc. simpl. apply IH; [|done].
  by apply in_step_push.
Qed.

(** Base32 round trip.  Decoding what [base32Encode] makes of any
    sequence of bytes gives the bytes back, although neither loop ever masks its
    32-bit accumulator: the bits that wrap around are never read again. *)
Theorem base32_roundtrip (bs : list Z) (Hbs : Forall (λ b, 0 ≤ b < 256) bs) :
  base32Decode (base32Encode bs) = bs.
Proof.
  assert (in_step [] (mkCoder 0 0 "")) as H0 by (split; [by split|apply coding_whole]).
  destruct (in_step_all bs [] _ H0 Hbs) as [Ht Hc]. cbn [app] in Hc. unfold base32Encode.
  destruct (fold_left b32_push bs (mkCoder 0 0 "")) as [b v s]. cbn [c_bits c_value c_out] in *.
  inversion Hc as [? ? v' ? Eb Hs Ed|bs' x ? ? v' ? Hb Hx Hv Hv' Eb Hs Ed]; subst; symmetry in Ed;
    unfold base32Decode.
  - constants. destruct Ht as [-> ->]. by rewrite Ed.
  - rewrite (proj2 (Z.ltb_lt 0 b)) by lia. rewrite and32_low, shl32_low by lia.
    destruct (b32_text_snoc s (v * 2 ^ (5 - b) mod 32) Ht) as [-> ->]; [lia|].
    rewrite b32_pull_all_snoc, Ed.
    destruct (b32_pull_char (8 - b) v' bs' (v * 2 ^ (5 - b) mod 32)) as (v1 & H1 & ->); [lia..|].
    rewrite (proj2 (Z.leb_le 8 (8 - b + 5))) by lia. cbn [c_out]. do 2 f_equal.
    pose proof (H1 13 ltac:(lia)) as H13.
    assert (b ∈ [1; 2; 3; 4]) as Hc' by (rewrite !elem_of_cons; lia).
    clear Hc Ed H1. repeat (apply elem_of_cons in Hc' as [->|Hc']); [..|by apply not_elem_of_nil in Hc'];
      constants; lia.
Qed.

Lemma base32_roundtrip_witness :
  base32Decode (base32Encode [222; 173; 190; 239; 255; 0; 1]) = [222; 173; 190; 239; 255; 0; 1].
Proof. apply base32_roundtrip. repeat constructor; done. Defined.

(** * One-time passwords and password hashes *)


(** * One-time passwords *)

Lemma lor_bound a b n : 0 ≤ n → 0 ≤ a < 2 ^ n → 0 ≤ b < 2 ^ n → 0 ≤ Z.lor a b < 2 ^ n.
Proof.
  intros Hn Ha Hb. split; [apply Z.lor_nonneg; lia|].
  rewrite <- (Z.mod_small a (2 ^ n)), <- (Z.mod_small b (2 ^ n)), <- !Z.land_ones by done.
  rewrite <- Z.land_lor_distr_l, Z.land_ones by done. apply Z.mod_pos_bound. lia.
Qed.

Lemma to_int32_small z : 0 ≤ z < 2 ^ 31 → to_int32 z = z.
Proof. intros Hz. unfold to_int32, to_uint32. rewrite Z.mod_small by lia. case_match; lia. Qed.

Lemma or32_bound a b : 0 ≤ a < 2 ^ 31 → 0 ≤ b < 2 ^ 31 → 0 ≤ or32 a b < 2 ^ 31.
Proof. intros Ha Hb. unfold or32. rewrite !to_int32_small by done. by apply lor_bound. Qed.

(** A masked byte shifted into its place. *)
Lemma field32_bound x m n :
  0 ≤ x < 256 → 0 ≤ m → 0 ≤ n → m + n ≤ 31 → 0 ≤ shl32 (and32 x (Z.ones m)) n < 2 ^ 31.
Proof.
  intros Hx Hm Hn Hmn. unfold shl32, and32.
  assert (0 < 2 ^ m ≤ 2 ^ 31) as Hp by (split; [by apply Z.pow_pos_nonneg; lia|apply Z.pow_le_mono_r; lia]).
  assert (to_int32 (Z.ones m) = Z.ones m) as -> by (apply to_int32_small; rewrite Z.ones_equiv; lia).
  rewrite (to_int32_small x) by lia. rewrite Z.land_ones by lia.
  pose proof (Z.mod_pos_bound x (2 ^ m)) as Hb.
  rewrite (to_int32_small (x mod 2 ^ m)) by lia. rewrite Z.shiftl_mul_pow2 by lia.
  assert (x mod 2 ^ m * 2 ^ n < 2 ^ 31) as Hlt.
  { apply (Z.lt_le_trans _ (2 ^ m * 2 ^ n)); [apply Z.mul_lt_mono_pos_r; [by apply Z.pow_pos_nonneg; lia|lia]|].
    rewrite <- Z.pow_add_r by lia. apply Z.pow_le_mono_r; lia. }
  assert (0 ≤ x mod 2 ^ m * 2 ^ n) by (apply Z.mul_nonneg_nonneg; [lia|apply Z.pow_nonneg; lia]).
  by rewrite to_int32_small.
Qed.

Section codes.
Context `{NA : !NodeAuth}.

Lemma truncate_digest_bound h : (∀ b, b ∈ h → 0 ≤ b < 256) → 0 ≤ truncate_digest h < 2 ^ 31.
Proof.
  intros Hh. unfold truncate_digest.
  assert (∀ i, 0 ≤ default 0 (h !! i) < 256) as HB.
  { intros i. destruct (h !! i) as [b|] eqn:E; cbn; [|lia]. apply Hh. by eapply list_elem_of_lookup_2. }
  assert (∀ x, 0 ≤ x < 256 → 0 ≤ and32 x 255 < 2 ^ 31) as HM.
  { intros x Hx. pose proof (field32_bound x 8 0 Hx) as H. unfold shl32 in H. rewrite Z.shiftl_0_r in H.
    unfold and32 in *. change (Z.ones 8) with 255 in H. rewrite (to_int32_small x) by lia.
    change (to_int32 255) with 255. change 255 with (Z.ones 8). rewrite Z.land_ones by lia. lia. }
  repeat apply or32_bound; [..|by apply HM]; apply (field32_bound _ 7) || apply (field32_bound _ 8); auto; lia.
Qed.

(** The code of a time step. *)
Lemma totpCode_ok secret t : 0 ≤ t < 30000 * 2 ^ 64 →
  ∃ c, totpCode secret t = Ok c ∧ String.length c = 6%nat ∧ all_digits c = true.
Proof.
  intros Ht. unfold totpCode, be64.
  assert ((0 <=? t / 1000 / 30) && (t / 1000 / 30 <? 2 ^ 64) = true) as -> by lia.
  cbn [mbind outcome_bind]. eexists. split; [reflexivity|].
  set (h := hmac_sha1 _ _).
  pose proof (truncate_digest_bound h (hmac_sha1_byte _ _)) as Hb.
  rewrite Z.rem_mod_nonneg by lia. set (m := truncate_digest h mod 1000000).
  assert (0 ≤ m < 10 ^ Z.of_nat 6) as Hm by (change (10 ^ Z.of_nat 6) with 1000000; subst m; lia).
  split; [apply pad_start0_length, big_to_string_length; [done|lia]|].
  apply pad_start0_digits. destruct (big_to_string_abs m) as [Hd _]. by rewrite Z.abs_eq in Hd by lia.
Qed.

Lemma totpCode_step secret t t' : t / 30000 = t' / 30000 → totpCode secret t = totpCode secret t'.
Proof. intros E. unfold totpCode. rewrite !Z.div_div by lia. change (1000 * 30) with 30000. by rewrite E. Qed.

(** One-time passwords.  Every code has six digits; a submitted text,
    once trimmed, is accepted exactly when it is the code of the current 30-second
    step or of one of its two neighbours, whatever instant of the step produced it. *)
Theorem totp_window secret code now (Hnow : 30000 ≤ now < 30000 * 2 ^ 63) :
  (∀ t, 0 ≤ t ≤ now + 30000 →
     ∃ c, totpCode secret t = Ok c ∧ String.length c = 6%nat ∧ all_digits c = true) ∧
  ∃ b, verifyTotp secret code now = Ok b ∧
    (b = true ↔ ∃ t, Z.abs (t / 30000 - now / 30000) ≤ 1 ∧ totpCode secret t = Ok (trim code)).
Proof.
  split; [intros t Ht; apply totpCode_ok; lia|].
  destruct (totpCode_ok secret (now + -1 * 30000)) as (c1 & E1 & _); [lia|].
  destruct (totpCode_ok secret (now + 0 * 30000)) as (c2 & E2 & _); [lia|].
  destruct (totpCode_ok secret (now + 1 * 30000)) as (c3 & E3 & _); [lia|].
  unfold verifyTotp, try_drifts. rewrite E1, E2, E3. cbn [mbind outcome_bind].
  assert (∀ t, Z.abs (t / 30000 - now / 30000) ≤ 1 →
            totpCode secret t = Ok c1 ∨ totpCode secret t = Ok c2 ∨ totpCode secret t = Ok c3) as Hw.
  { intros t Ht. rewrite <- E1, <- E2, <- E3.
    assert (t / 30000 = now / 30000 - 1 ∨ t / 30000 = now / 30000 ∨ t / 30000 = now / 30000 + 1) as [H|[H|H]] by lia;
      [left|right; left|right; right]; apply totpCode_step; lia. }
  exists (bool_decide (c1 = trim code) || bool_decide (c2 = trim code) || bool_decide (c3 = trim code)).
  split; [by repeat case_bool_decide|]. rewrite !orb_true_iff, !bool_decide_eq_true. split.
  - intros [[->| ->]| ->]; [exists (now + -1 * 30000)|exists (now + 0 * 30000)|exists (now + 1 * 30000)];
      (split; [lia|done]).
  - intros (t & Ht & Hc). destruct (Hw t Ht) as [E|[E|E]]; rewrite E in Hc; injection Hc; auto.
Qed.
End codes.

(** * Password hashes *)

Lemma hex_byte b : 0 ≤ b < 256 →
  hex_value (hex_digit (Z.to_nat (b / 16))) = Some (b / 16) ∧
  hex_value (hex_digit (Z.to_nat (b mod 16))) = Some (b mod 16).
Proof.
  intros Hb.
  assert (Forall (λ n, hex_value (hex_digit (Z.to_nat n)) = Some n) (seqZ 0 16)) as H
    by by apply (bool_decide_unpack _); vm_compute.
  rewrite Forall_forall in H. split; apply H, elem_of_seqZ; lia.
Qed.

Lemma hex_roundtrip l : Forall (λ b, 0 ≤ b < 256) l → hex_decode (hex_encode l) = l.
Proof.
  induction 1 as [|b l Hb _ IH]; [done|]. cbn [hex_encode hex_decode].
  destruct (hex_byte b Hb) as [-> ->]. rewrite IH. f_equal. lia.
Qed.

(** A text without the separator is one piece. *)
Lemma split_on_app c s t : lacks c s = true → split_on c (s +:+ String c t) = s :: split_on c t.
Proof.
  induction s as [|a s IH]; intros H; [change ("" +:+ String c t) with (String c t); cbn [split_on]; by rewrite Ascii.eqb_refl|].
  cbn in H. apply andb_true_iff in H as [Ha Hs]. apply negb_true_iff in Ha.
  rewrite app_String. cbn [split_on]. by rewrite Ha, IH.
Qed.

Lemma split_on_lacks c s : lacks c s = true → split_on c s = [s].
Proof.
  induction s as [|a s IH]; intros H; [done|]. cbn in H. apply andb_true_iff in H as [Ha Hs].
  apply negb_true_iff in Ha. cbn [split_on]. by rewrite Ha, IH.
Qed.

Lemma hex_lacks_dollar l : Forall (λ b, 0 ≤ b < 256) l → lacks "$" (hex_encode l) = true.
Proof.
  assert (Forall (λ n, Ascii.eqb (hex_digit (Z.to_nat n)) "$" = false) (seqZ 0 16)) as H
    by by apply (bool_decide_unpack _); vm_compute.
  rewrite Forall_forall in H.
  induction 1 as [|b l Hb _ IH]; [done|]. cbn [hex_encode lacks].
  rewrite !H, IH by (apply elem_of_seqZ; lia). done.
Qed.

Section passwords.
Context `{NA : !NodeAuth}.

(** Password hashes.  Hashing a password succeeds, the stored text
    verifies against that password, and it verifies against another one exactly
    when scrypt maps both to the same key under the stored salt; the comparison
    itself never throws. *)
Theorem password_roundtrip (pw pw' : string) (n : nat) :
  ∃ stored, hashPassword pw n = Ok stored ∧ verifyPassword pw stored = Ok true ∧
    ∃ b, verifyPassword pw' stored = Ok b ∧
      (b = true ↔ scrypt pw' (random_bytes 16 n) KEYLEN SCRYPT_N = scrypt pw (random_bytes 16 n) KEYLEN SCRYPT_N).
Proof.
  pose proof (random_bytes_byte 16 n) as Hs.
  destruct (scrypt_ok pw (random_bytes 16 n) KEYLEN) as (h & Eh & Hl & Hh).
  destruct (scrypt_ok pw' (random_bytes 16 n) KEYLEN) as (h' & Eh' & Hl' & _).
  unfold hashPassword, SCRYPT_N. rewrite Eh, Eh'. cbn [mbind outcome_bind].
  eexists. split; [reflexivity|].
  assert (split_on "$" ("scrypt$" +:+ "16384" +:+ "$" +:+ hex_encode (random_bytes 16 n) +:+ "$" +:+ hex_encode h)
    = ["scrypt"; "16384"; hex_encode (random_bytes 16 n); hex_encode h]) as E.
  { change (split_on "$" ("scrypt" +:+ String "$" ("16384" +:+ String "$"
      (hex_encode (random_bytes 16 n) +:+ String "$" (hex_encode h))))
      = ["scrypt"; "16384"; hex_encode (random_bytes 16 n); hex_encode h]).
    rewrite !split_on_app by (done || by apply hex_lacks_dollar).
    by rewrite split_on_lacks by by apply hex_lacks_dollar. }
  unfold verifyPassword. rewrite E. rewrite bool_decide_true by done.
  rewrite !hex_roundtrip, Hl, to_number_16384, Eh, Eh' by done. cbn [mbind outcome_bind].
  rewrite Hl, Hl'. rewrite !(bool_decide_true (KEYLEN = KEYLEN)), (bool_decide_true (h = h)) by done.
  split; [done|]. eexists. split; [reflexivity|]. cbn [andb]. rewrite bool_decide_eq_true.
  split; [by intros ->|by intros [= ->]].
Qed.
End passwords.

(** * A concrete [NodeAuth]

    Keyed hashes that repeat their inputs, scrypt as padding, base64 as hex. *)

Fixpoint string_bytes (s : string) : list Z :=
  match s with EmptyString => [] | String a s' => Z.of_nat (nat_of_ascii a) :: string_bytes s' end.
Fixpoint bytes_string (l : list Z) : string :=
  match l with [] => "" | b :: l' => String (ascii_of_nat (Z.to_nat b)) (bytes_string l') end.

Lemma string_bytes_byte s : Forall (λ b, 0 ≤ b < 256) (string_bytes s).
Proof.
  induction s as [|a s IH]; constructor; [|done]. pose proof (nat_ascii_bounded a). lia.
Qed.
Lemma bytes_string_bytes s : bytes_string (string_bytes s) = s.
Proof.
  induction s as [|a s IH]; [done|]. cbn [string_bytes bytes_string].
  by rewrite Nat2Z.id, ascii_nat_embedding, IH.
Qed.

Lemma hex_lacks_dot l : Forall (λ b, 0 ≤ b < 256) l → lacks "." (hex_encode l) = true.
Proof.
  assert (Forall (λ n, Ascii.eqb (hex_digit (Z.to_nat n)) "." = false) (seqZ 0 16)) as H
    by by apply (bool_decide_unpack _); vm_compute.
  rewrite Forall_forall in H.
  induction 1 as [|b l Hb _ IH]; [done|]. cbn [hex_encode lacks].
  rewrite !H, IH by (apply elem_of_seqZ; lia). done.
Qed.

Definition toy_bytes (n : nat) (l : list Z) : list Z := map (λ b, b mod 256) (take n (l ++ repeat 0 n)).

Lemma toy_bytes_length n l : length (toy_bytes n l) = n.
Proof.
  unfold toy_bytes. rewrite length_map, length_take, length_app.
  rewrite (repeat_length 0 n). lia.
Qed.
Lemma toy_bytes_byte n l : Forall (λ b, 0 ≤ b < 256) (toy_bytes n l).
Proof.
  unfold toy_bytes. rewrite Forall_forall. intros b (x & <- & _)%list_elem_of_In%in_map_iff. lia.
Qed.

Definition toy_auth : NodeAuth.
Proof.
  refine {| hmac_sha1 := λ k m, toy_bytes 20 (rev m ++ k);
            hmac_sha256_url := λ k b, hex_encode (string_bytes (k +:+ "#" +:+ b));
            scrypt := λ p s n N, match N with
                                 | Some _ => Ok (toy_bytes n (string_bytes p ++ s))
                                 | None => Err (JsError "RangeError" "N")
                                 end;
            random_bytes := λ n k, toy_bytes n [Z.of_nat k];
            to_number := λ s, (λ z, (z # 1)%Q) <$> string_to_bigint s;
            base64url := λ s, hex_encode (string_bytes s);
            base64url_decode := λ s, bytes_string (hex_decode s);
            base64_decode := λ s, bytes_string (hex_decode s);
            bytes_base64url := hex_encode;
            json_parse := parse_json;
            qr_data_url := λ s, "data:" +:+ s |}.
  - intros k m. apply toy_bytes_length.
  - intros k m b Hb. revert b Hb. apply Forall_forall, toy_bytes_byte.
  - intros k b. apply hex_lacks_dot, string_bytes_byte.
  - intros p s n. eexists. split; [reflexivity|]. split; [apply toy_bytes_length|apply toy_bytes_byte].
  - intros n k. apply toy_bytes_byte.
  - vm_compute. reflexivity.
  - intros s. rewrite hex_roundtrip by apply string_bytes_byte. apply bytes_string_bytes.
  - reflexivity.
  - intros s. apply hex_lacks_dot, string_bytes_byte.
  - intros v s Hb _. by apply parse_json_stringify.
Defined.

Lemma totp_window_witness :
  ∃ c b, @totpCode toy_auth "MZXQ" 1700000000000 = Ok c ∧
    @verifyTotp toy_auth "MZXQ" (" " +:+ c) 1700000025000 = Ok b ∧ b = true.
Proof.
  destruct (@totp_window toy_auth "MZXQ" " 808771" 1700000025000) as [_ (b & Hb & Hiff)]; [vm_compute; by split|].
  eexists. exists b. split; [vm_compute; reflexivity|]. split; [exact Hb|].
  apply Hiff. exists 1700000000000. split; [vm_compute; discriminate|vm_compute; reflexivity].
Defined.
