(* ===== verification/Schema.v ===== *)
(** The database: one record per model of [packages/database/prisma/schema.prisma],
    the tables, and what the schema makes the database refuse.

    A table is a finite map from primary keys to rows.  Dates are milliseconds
    since the epoch, enumerations are inductive types, [BigInt] and [Int]
    columns are integers whose width is checked by [in_range].  [updatedAt],
    which no code reads, is left out. *)
From S2P Require Import Prelude.
From S2P Require Import Domain.
From S2P Require Import Crypto.
#[local] Open Scope string_scope.
#[local] Open Scope list_scope.
#[local] Open Scope Z_scope.

(** * Enumerations of the schema *)

Inductive ProgramStatus : Type :=
| PROGRAM_DRAFT | PROGRAM_ACTIVE | PROGRAM_SUSPENDED | PROGRAM_EXPIRED | PROGRAM_CLOSED.
#[export] Instance ProgramStatus_eq_dec : EqDecision ProgramStatus.
Proof. solve_decision. Defined.
Definition ProgramStatus_to_string (s : ProgramStatus) : string :=
  match s with PROGRAM_DRAFT => "DRAFT" | PROGRAM_ACTIVE => "ACTIVE" | PROGRAM_SUSPENDED => "SUSPENDED" | PROGRAM_EXPIRED => "EXPIRED" | PROGRAM_CLOSED => "CLOSED" end.

Inductive AccountStatus : Type :=
| ACCOUNT_PENDING_ACTIVATION | ACCOUNT_ACTIVE | ACCOUNT_RESTRICTED | ACCOUNT_ON_HOLD | ACCOUNT_CLOSED.
#[export] Instance AccountStatus_eq_dec : EqDecision AccountStatus.
Proof. solve_decision. Defined.
Definition AccountStatus_to_string (s : AccountStatus) : string :=
  match s with ACCOUNT_PENDING_ACTIVATION => "PENDING_ACTIVATION" | ACCOUNT_ACTIVE => "ACTIVE" | ACCOUNT_RESTRICTED => "RESTRICTED" | ACCOUNT_ON_HOLD => "ON_HOLD" | ACCOUNT_CLOSED => "CLOSED" end.

Inductive FundingInstructionStatus : Type :=
| FUNDING_ISSUED | FUNDING_PARTIALLY_FUNDED | FUNDING_FUNDED | FUNDING_EXPIRED | FUNDING_CANCELLED.
#[export] Instance FundingInstructionStatus_eq_dec : EqDecision FundingInstructionStatus.
Proof. solve_decision. Defined.
Definition FundingInstructionStatus_to_string (s : FundingInstructionStatus) : string :=
  match s with FUNDING_ISSUED => "ISSUED" | FUNDING_PARTIALLY_FUNDED => "PARTIALLY_FUNDED" | FUNDING_FUNDED => "FUNDED" | FUNDING_EXPIRED => "EXPIRED" | FUNDING_CANCELLED => "CANCELLED" end.

Inductive ApprovalDecision : Type :=
| DECISION_PENDING | DECISION_APPROVED | DECISION_REJECTED.
#[export] Instance ApprovalDecision_eq_dec : EqDecision ApprovalDecision.
Proof. solve_decision. Defined.
Definition ApprovalDecision_to_string (s : ApprovalDecision) : string :=
  match s with DECISION_PENDING => "PENDING" | DECISION_APPROVED => "APPROVED" | DECISION_REJECTED => "REJECTED" end.

Inductive PaymentProfileStatus : Type :=
| PROFILE_SUBMITTED | PROFILE_VERIFYING | PROFILE_APPROVED | PROFILE_ACTIVE | PROFILE_SUSPENDED | PROFILE_REJECTED.
#[export] Instance PaymentProfileStatus_eq_dec : EqDecision PaymentProfileStatus.
Proof. solve_decision. Defined.
Definition PaymentProfileStatus_to_string (s : PaymentProfileStatus) : string :=
  match s with PROFILE_SUBMITTED => "SUBMITTED" | PROFILE_VERIFYING => "VERIFYING" | PROFILE_APPROVED => "APPROVED" | PROFILE_ACTIVE => "ACTIVE" | PROFILE_SUSPENDED => "SUSPENDED" | PROFILE_REJECTED => "REJECTED" end.

Inductive PaymentOrderStatus : Type :=
| ORDER_CREATED | ORDER_AWAITING_PAYMENT | ORDER_PAYMENT_DETECTED | ORDER_CONFIRMED | ORDER_DUPLICATE | ORDER_REJECTED | ORDER_REFUNDED | ORDER_EXPIRED | ORDER_CANCELLED.
#[export] Instance PaymentOrderStatus_eq_dec : EqDecision PaymentOrderStatus.
Proof. solve_decision. Defined.
Definition PaymentOrderStatus_to_string (s : PaymentOrderStatus) : string :=
  match s with ORDER_CREATED => "CREATED" | ORDER_AWAITING_PAYMENT => "AWAITING_PAYMENT" | ORDER_PAYMENT_DETECTED => "PAYMENT_DETECTED" | ORDER_CONFIRMED => "CONFIRMED" | ORDER_DUPLICATE => "DUPLICATE" | ORDER_REJECTED => "REJECTED" | ORDER_REFUNDED => "REFUNDED" | ORDER_EXPIRED => "EXPIRED" | ORDER_CANCELLED => "CANCELLED" end.

Inductive SettlementStatus : Type :=
| SETTLEMENT_REQUESTED | SETTLEMENT_APPROVED | SETTLEMENT_SUBMITTED | SETTLEMENT_CONFIRMED | SETTLEMENT_CANCELLED | SETTLEMENT_FAILED.
#[export] Instance SettlementStatus_eq_dec : EqDecision SettlementStatus.
Proof. solve_decision. Defined.
Definition SettlementStatus_to_string (s : SettlementStatus) : string :=
  match s with SETTLEMENT_REQUESTED => "REQUESTED" | SETTLEMENT_APPROVED => "APPROVED" | SETTLEMENT_SUBMITTED => "SUBMITTED" | SETTLEMENT_CONFIRMED => "CONFIRMED" | SETTLEMENT_CANCELLED => "CANCELLED" | SETTLEMENT_FAILED => "FAILED" end.

(** * Rows *)

Module User.
Record t : Type := mk {
  id : string;
  email : string;
  displayName : string;
  institution : string;
  roles : list string;
  attributes : option jsval;
  passwordHash : option string;
  mfaSecret : option string;
  mfaEnabled : bool;
  disabled : bool;
  createdAt : Z
}.
Definition set_roles (v : list string) (r : t) : t :=
  mk (id r) (email r) (displayName r) (institution r) v (attributes r) (passwordHash r) (mfaSecret r) (mfaEnabled r) (disabled r) (createdAt r).
Definition set_disabled (v : bool) (r : t) : t :=
  mk (id r) (email r) (displayName r) (institution r) (roles r) (attributes r) (passwordHash r) (mfaSecret r) (mfaEnabled r) v (createdAt r).
Definition set_passwordHash (v : option string) (r : t) : t :=
  mk (id r) (email r) (displayName r) (institution r) (roles r) (attributes r) v (mfaSecret r) (mfaEnabled r) (disabled r) (createdAt r).
Definition set_mfaSecret (v : option string) (r : t) : t :=
  mk (id r) (email r) (displayName r) (institution r) (roles r) (attributes r) (passwordHash r) v (mfaEnabled r) (disabled r) (createdAt r).
Definition set_mfaEnabled (v : bool) (r : t) : t :=
  mk (id r) (email r) (displayName r) (institution r) (roles r) (attributes r) (passwordHash r) (mfaSecret r) v (disabled r) (createdAt r).
Definition set_displayName (v : string) (r : t) : t :=
  mk (id r) (email r) v (institution r) (roles r) (attributes r) (passwordHash r) (mfaSecret r) (mfaEnabled r) (disabled r) (createdAt r).
Definition set_attributes (v : option jsval) (r : t) : t :=
  mk (id r) (email r) (displayName r) (institution r) (roles r) v (passwordHash r) (mfaSecret r) (mfaEnabled r) (disabled r) (createdAt r).
End User.

Module Role.
Record t : Type := mk {
  slug : string;
  name : string;
  description : option string;
  institution : string;
  permissions : list string;
  builtin : bool;
  createdAt : Z
}.
Definition set_name (v : string) (r : t) : t :=
  mk (slug r) v (description r) (institution r) (permissions r) (builtin r) (createdAt r).
Definition set_description (v : option string) (r : t) : t :=
  mk (slug r) (name r) v (institution r) (permissions r) (builtin r) (createdAt r).
Definition set_institution (v : string) (r : t) : t :=
  mk (slug r) (name r) (description r) v (permissions r) (builtin r) (createdAt r).
Definition set_permissions (v : list string) (r : t) : t :=
  mk (slug r) (name r) (description r) (institution r) v (builtin r) (createdAt r).
End Role.

Module AbacPolicy.
Record t : Type := mk {
  id : string;
  name : string;
  description : option string;
  transactionType : string;
  minAmountMinor : option Z;
  maxAmountMinor : option Z;
  currency : option string;
  riskLevel : option string;
  programId : option string;
  assetId : option string;
  jurisdiction : option string;
  requiredApprovals : Z;
  requiredRoles : list string;
  effect : string;
  priority : Z;
  enabled : bool;
  createdAt : Z
}.
End AbacPolicy.

Module PasswordReset.
Record t : Type := mk {
  id : string;
  userId : string;
  tokenHash : string;
  expiresAt : Z;
  usedAt : option Z;
  createdAt : Z
}.
Definition set_usedAt (v : option Z) (r : t) : t :=
  mk (id r) (userId r) (tokenHash r) (expiresAt r) v (createdAt r).
End PasswordReset.

Module NonceUsage.
Record t : Type := mk {
  nonce : string;
  clientId : string;
  expiresAt : Z;
  createdAt : Z
}.
End NonceUsage.

Module ReconciliationRun.
Record t : Type := mk {
  id : string;
  scope : string;
  programId : option string;
  tenantId : option string;
  status : string;
  summary : option jsval;
  createdBy : option string;
  createdAt : Z
}.
Definition set_status (v : string) (r : t) : t :=
  mk (id r) (scope r) (programId r) (tenantId r) v (summary r) (createdBy r) (createdAt r).
Definition set_summary (v : option jsval) (r : t) : t :=
  mk (id r) (scope r) (programId r) (tenantId r) (status r) v (createdBy r) (createdAt r).
End ReconciliationRun.

Module ReconciliationException.
Record t : Type := mk {
  id : string;
  runId : string;
  type : string;
  detail : option jsval;
  resolved : bool;
  createdAt : Z
}.
Definition set_resolved (v : bool) (r : t) : t :=
  mk (id r) (runId r) (type r) (detail r) v (createdAt r).
End ReconciliationException.

Module Attestation.
Record t : Type := mk {
  id : string;
  programId : option string;
  period : string;
  scope : string;
  methodology : option string;
  reserveAmountMinor : option Z;
  liabilityAmountMinor : option Z;
  currency : option string;
  opinion : option string;
  auditor : string;
  documentHash : option string;
  status : string;
  issueDate : option Z;
  expiryDate : option Z;
  createdBy : option string;
  approvedBy : option string;
  createdAt : Z
}.
Definition set_status (v : string) (r : t) : t :=
  mk (id r) (programId r) (period r) (scope r) (methodology r) (reserveAmountMinor r) (liabilityAmountMinor r) (currency r) (opinion r) (auditor r) (documentHash r) v (issueDate r) (expiryDate r) (createdBy r) (approvedBy r) (createdAt r).
Definition set_approvedBy (v : option string) (r : t) : t :=
  mk (id r) (programId r) (period r) (scope r) (methodology r) (reserveAmountMinor r) (liabilityAmountMinor r) (currency r) (opinion r) (auditor r) (documentHash r) (status r) (issueDate r) (expiryDate r) (createdBy r) v (createdAt r).
Definition set_issueDate (v : option Z) (r : t) : t :=
  mk (id r) (programId r) (period r) (scope r) (methodology r) (reserveAmountMinor r) (liabilityAmountMinor r) (currency r) (opinion r) (auditor r) (documentHash r) (status r) v (expiryDate r) (createdBy r) (approvedBy r) (createdAt r).
Definition set_expiryDate (v : option Z) (r : t) : t :=
  mk (id r) (programId r) (period r) (scope r) (methodology r) (reserveAmountMinor r) (liabilityAmountMinor r) (currency r) (opinion r) (auditor r) (documentHash r) (status r) (issueDate r) v (createdBy r) (approvedBy r) (createdAt r).
Definition set_methodology (v : option string) (r : t) : t :=
  mk (id r) (programId r) (period r) (scope r) v (reserveAmountMinor r) (liabilityAmountMinor r) (currency r) (opinion r) (auditor r) (documentHash r) (status r) (issueDate r) (expiryDate r) (createdBy r) (approvedBy r) (createdAt r).
Definition set_opinion (v : option string) (r : t) : t :=
  mk (id r) (programId r) (period r) (scope r) (methodology r) (reserveAmountMinor r) (liabilityAmountMinor r) (currency r) v (auditor r) (documentHash r) (status r) (issueDate r) (expiryDate r) (createdBy r) (approvedBy r) (createdAt r).
Definition set_documentHash (v : option string) (r : t) : t :=
  mk (id r) (programId r) (period r) (scope r) (methodology r) (reserveAmountMinor r) (liabilityAmountMinor r) (currency r) (opinion r) (auditor r) v (status r) (issueDate r) (expiryDate r) (createdBy r) (approvedBy r) (createdAt r).
End Attestation.

Module PlatformControl.
Record t : Type := mk {
  key : string;
  value : bool;
  reason : option string;
  incidentRef : option string;
  setBy : option string
}.
Definition set_value (v : bool) (r : t) : t :=
  mk (key r) v (reason r) (incidentRef r) (setBy r).
Definition set_reason (v : option string) (r : t) : t :=
  mk (key r) (value r) v (incidentRef r) (setBy r).
Definition set_incidentRef (v : option string) (r : t) : t :=
  mk (key r) (value r) (reason r) v (setBy r).
Definition set_setBy (v : option string) (r : t) : t :=
  mk (key r) (value r) (reason r) (incidentRef r) v.
End PlatformControl.

Module Program.
Record t : Type := mk {
  id : string;
  code : string;
  legalEntityId : string;
  issuerId : string;
  trusteeBankId : string;
  assetId : string;
  referenceCurrency : string;
  legalModel : string;
  regulatoryStatus : string;
  reservePolicy : string;
  requiredRatioBps : Z;
  safetyBufferBps : Z;
  agreementReferences : list string;
  effectiveDate : Z;
  expiryDate : option Z;
  status : ProgramStatus;
  createdAt : Z
}.
Definition set_status (v : ProgramStatus) (r : t) : t :=
  mk (id r) (code r) (legalEntityId r) (issuerId r) (trusteeBankId r) (assetId r) (referenceCurrency r) (legalModel r) (regulatoryStatus r) (reservePolicy r) (requiredRatioBps r) (safetyBufferBps r) (agreementReferences r) (effectiveDate r) (expiryDate r) v (createdAt r).
End Program.

Module TrusteeAccount.
Record t : Type := mk {
  id : string;
  programId : string;
  maskedAccountNumber : string;
  coreBankingRef : string;
  accountName : string;
  bankLegalEntity : string;
  branch : option string;
  currency : string;
  classification : string;
  supportedAssetId : string;
  status : AccountStatus;
  balanceSource : string;
  integrationMode : string;
  bankId : option string;
  mockClearedMinor : Z;
  minimumBalanceMinor : Z;
  requiredReserveBps : Z;
  restricted : bool;
  agreementReference : option string;
  openedDate : option Z;
  closedDate : option Z;
  createdAt : Z
}.
Definition set_bankId (v : option string) (r : t) : t :=
  mk (id r) (programId r) (maskedAccountNumber r) (coreBankingRef r) (accountName r) (bankLegalEntity r) (branch r) (currency r) (classification r) (supportedAssetId r) (status r) (balanceSource r) (integrationMode r) v (mockClearedMinor r) (minimumBalanceMinor r) (requiredReserveBps r) (restricted r) (agreementReference r) (openedDate r) (closedDate r) (createdAt r).
Definition set_mockClearedMinor (v : Z) (r : t) : t :=
  mk (id r) (programId r) (maskedAccountNumber r) (coreBankingRef r) (accountName r) (bankLegalEntity r) (branch r) (currency r) (classification r) (supportedAssetId r) (status r) (balanceSource r) (integrationMode r) (bankId r) v (minimumBalanceMinor r) (requiredReserveBps r) (restricted r) (agreementReference r) (openedDate r) (closedDate r) (createdAt r).
Definition set_status (v : AccountStatus) (r : t) : t :=
  mk (id r) (programId r) (maskedAccountNumber r) (coreBankingRef r) (accountName r) (bankLegalEntity r) (branch r) (currency r) (classification r) (supportedAssetId r) v (balanceSource r) (integrationMode r) (bankId r) (mockClearedMinor r) (minimumBalanceMinor r) (requiredReserveBps r) (restricted r) (agreementReference r) (openedDate r) (closedDate r) (createdAt r).
End TrusteeAccount.

Module FundingInstruction.
Record t : Type := mk {
  id : string;
  programId : string;
  paychainRequestId : string;
  assetId : string;
  depositor : string;
  expectedPayer : option string;
  beneficiaryAccountId : string;
  amountMinor : Z;
  currency : string;
  uniqueReference : string;
  permittedMethod : string;
  expiresAt : Z;
  status : FundingInstructionStatus;
  createdAt : Z
}.
Definition set_status (v : FundingInstructionStatus) (r : t) : t :=
  mk (id r) (programId r) (paychainRequestId r) (assetId r) (depositor r) (expectedPayer r) (beneficiaryAccountId r) (amountMinor r) (currency r) (uniqueReference r) (permittedMethod r) (expiresAt r) v (createdAt r).
End FundingInstruction.

Module Deposit.
Record t : Type := mk {
  id : string;
  programId : string;
  fundingInstructionId : option string;
  trusteeAccountId : string;
  bankTransactionId : string;
  payerName : option string;
  payerAccountMasked : option string;
  originatingBank : option string;
  amountMinor : Z;
  currency : string;
  paymentReference : option string;
  transactionDate : Z;
  valueDate : option Z;
  status : DepositStatus;
  complianceResult : option string;
  clearedAt : option Z;
  createdAt : Z
}.
Definition set_fundingInstructionId (v : option string) (r : t) : t :=
  mk (id r) (programId r) v (trusteeAccountId r) (bankTransactionId r) (payerName r) (payerAccountMasked r) (originatingBank r) (amountMinor r) (currency r) (paymentReference r) (transactionDate r) (valueDate r) (status r) (complianceResult r) (clearedAt r) (createdAt r).
Definition set_status (v : DepositStatus) (r : t) : t :=
  mk (id r) (programId r) (fundingInstructionId r) (trusteeAccountId r) (bankTransactionId r) (payerName r) (payerAccountMasked r) (originatingBank r) (amountMinor r) (currency r) (paymentReference r) (transactionDate r) (valueDate r) v (complianceResult r) (clearedAt r) (createdAt r).
Definition set_clearedAt (v : option Z) (r : t) : t :=
  mk (id r) (programId r) (fundingInstructionId r) (trusteeAccountId r) (bankTransactionId r) (payerName r) (payerAccountMasked r) (originatingBank r) (amountMinor r) (currency r) (paymentReference r) (transactionDate r) (valueDate r) (status r) (complianceResult r) v (createdAt r).
End Deposit.

Module LedgerEntry.
Record t : Type := mk {
  id : string;
  programId : string;
  assetId : string;
  currency : string;
  description : string;
  source : string;
  actor : string;
  approvalRef : option string;
  correlationId : option string;
  reversalOf : option string;
  totalDebitMinor : Z;
  totalCreditMinor : Z;
  postedAt : Z
}.
End LedgerEntry.

Module LedgerPosting.
Record t : Type := mk {
  id : string;
  entryId : string;
  account : string;
  debitMinor : Z;
  creditMinor : Z;
  memo : option string
}.
End LedgerPosting.

Module LiabilitySnapshot.
Record t : Type := mk {
  id : string;
  programId : string;
  assetId : string;
  assetCode : string;
  blockchainNetwork : string;
  issuerAccount : string;
  circulatingMinor : Z;
  treasuryHeldMinor : Z;
  lockedMinor : Z;
  pendingMintMinor : Z;
  pendingBurnMinor : Z;
  pendingRedemptionMinor : Z;
  confirmedBurnMinor : Z;
  effectiveLiabilityMinor : Z;
  currency : string;
  ledgerReference : string;
  sourceVersion : string;
  sequence : Z;
  snapshotTimestamp : Z;
  signatureKeyId : string;
  signatureValue : string;
  signatureVerified : bool;
  createdAt : Z
}.
End LiabilitySnapshot.

Module BankConnection.
Record t : Type := mk {
  id : string;
  bankId : string;
  bankLegalName : string;
  country : option string;
  integrationMode : string;
  baseUrl : option string;
  authTokenEnv : option string;
  status : string;
  createdBy : option string;
  createdAt : Z
}.
Definition set_bankLegalName (v : string) (r : t) : t :=
  mk (id r) (bankId r) v (country r) (integrationMode r) (baseUrl r) (authTokenEnv r) (status r) (createdBy r) (createdAt r).
Definition set_country (v : option string) (r : t) : t :=
  mk (id r) (bankId r) (bankLegalName r) v (integrationMode r) (baseUrl r) (authTokenEnv r) (status r) (createdBy r) (createdAt r).
Definition set_integrationMode (v : string) (r : t) : t :=
  mk (id r) (bankId r) (bankLegalName r) (country r) v (baseUrl r) (authTokenEnv r) (status r) (createdBy r) (createdAt r).
Definition set_baseUrl (v : option string) (r : t) : t :=
  mk (id r) (bankId r) (bankLegalName r) (country r) (integrationMode r) v (authTokenEnv r) (status r) (createdBy r) (createdAt r).
Definition set_authTokenEnv (v : option string) (r : t) : t :=
  mk (id r) (bankId r) (bankLegalName r) (country r) (integrationMode r) (baseUrl r) v (status r) (createdBy r) (createdAt r).
End BankConnection.

Module ReserveAdjustment.
Record t : Type := mk {
  id : string;
  programId : string;
  currency : string;
  kind : string;
  amountMinor : Z;
  active : bool;
  reason : option string;
  createdBy : string;
  liftedBy : option string;
  createdAt : Z
}.
Definition set_active (v : bool) (r : t) : t :=
  mk (id r) (programId r) (currency r) (kind r) (amountMinor r) v (reason r) (createdBy r) (liftedBy r) (createdAt r).
Definition set_liftedBy (v : option string) (r : t) : t :=
  mk (id r) (programId r) (currency r) (kind r) (amountMinor r) (active r) (reason r) (createdBy r) v (createdAt r).
End ReserveAdjustment.

Module ReserveSnapshot.
Record t : Type := mk {
  id : string;
  programId : string;
  assetId : string;
  referenceCurrency : string;
  eligibleReserveMinor : Z;
  excludedAmountMinor : Z;
  circulatingLiabilityMinor : Z;
  pendingRedemptionMinor : Z;
  requiredReserveMinor : Z;
  reserveRatioBps : option Z;
  surplusMinor : Z;
  reconciliationStatus : string;
  dataSources : list string;
  signatureKeyId : string;
  signatureValue : string;
  contentHash : string;
  createdAt : Z
}.
End ReserveSnapshot.

Module MintAuthorization.
Record t : Type := mk {
  id : string;
  programId : string;
  paychainRequestId : string;
  assetId : string;
  amountMinor : Z;
  currency : string;
  tenantId : option string;
  destination : option string;
  fundingDepositIds : list string;
  reserveAccountId : option string;
  reserveSnapshotId : option string;
  complianceCaseId : option string;
  status : MintAuthorizationStatus;
  nonce : string;
  signingKeyId : option string;
  signatureValue : option string;
  maxMintAmountMinor : Z;
  singleUse : bool;
  issuedAt : option Z;
  expiresAt : option Z;
  createdAt : Z
}.
Definition set_status (v : MintAuthorizationStatus) (r : t) : t :=
  mk (id r) (programId r) (paychainRequestId r) (assetId r) (amountMinor r) (currency r) (tenantId r) (destination r) (fundingDepositIds r) (reserveAccountId r) (reserveSnapshotId r) (complianceCaseId r) v (nonce r) (signingKeyId r) (signatureValue r) (maxMintAmountMinor r) (singleUse r) (issuedAt r) (expiresAt r) (createdAt r).
Definition set_signingKeyId (v : option string) (r : t) : t :=
  mk (id r) (programId r) (paychainRequestId r) (assetId r) (amountMinor r) (currency r) (tenantId r) (destination r) (fundingDepositIds r) (reserveAccountId r) (reserveSnapshotId r) (complianceCaseId r) (status r) (nonce r) v (signatureValue r) (maxMintAmountMinor r) (singleUse r) (issuedAt r) (expiresAt r) (createdAt r).
Definition set_signatureValue (v : option string) (r : t) : t :=
  mk (id r) (programId r) (paychainRequestId r) (assetId r) (amountMinor r) (currency r) (tenantId r) (destination r) (fundingDepositIds r) (reserveAccountId r) (reserveSnapshotId r) (complianceCaseId r) (status r) (nonce r) (signingKeyId r) v (maxMintAmountMinor r) (singleUse r) (issuedAt r) (expiresAt r) (createdAt r).
Definition set_issuedAt (v : option Z) (r : t) : t :=
  mk (id r) (programId r) (paychainRequestId r) (assetId r) (amountMinor r) (currency r) (tenantId r) (destination r) (fundingDepositIds r) (reserveAccountId r) (reserveSnapshotId r) (complianceCaseId r) (status r) (nonce r) (signingKeyId r) (signatureValue r) (maxMintAmountMinor r) (singleUse r) v (expiresAt r) (createdAt r).
Definition set_expiresAt (v : option Z) (r : t) : t :=
  mk (id r) (programId r) (paychainRequestId r) (assetId r) (amountMinor r) (currency r) (tenantId r) (destination r) (fundingDepositIds r) (reserveAccountId r) (reserveSnapshotId r) (complianceCaseId r) (status r) (nonce r) (signingKeyId r) (signatureValue r) (maxMintAmountMinor r) (singleUse r) (issuedAt r) v (createdAt r).
End MintAuthorization.

Module MintConfirmation.
Record t : Type := mk {
  id : string;
  mintAuthorizationId : string;
  paychainTransactionId : string;
  blockchainTxHash : string;
  amountMinor : Z;
  currency : string;
  destination : string;
  ledgerHeight : option Z;
  confirmedAt : Z;
  paychainSignature : string;
  verified : bool;
  createdAt : Z
}.
End MintConfirmation.

Module Redemption.
Record t : Type := mk {
  id : string;
  programId : string;
  paychainRedemptionId : string;
  assetId : string;
  amountMinor : Z;
  currency : string;
  beneficiaryName : string;
  beneficiaryAccountMasked : string;
  status : RedemptionStatus;
  correlationId : option string;
  burnTxHash : option string;
  burnConfirmedAt : option Z;
  approvedById : option string;
  payoutReference : option string;
  payoutSubmittedAt : option Z;
  payoutConfirmedAt : option Z;
  completedAt : option Z;
  createdAt : Z
}.
Definition set_status (v : RedemptionStatus) (r : t) : t :=
  mk (id r) (programId r) (paychainRedemptionId r) (assetId r) (amountMinor r) (currency r) (beneficiaryName r) (beneficiaryAccountMasked r) v (correlationId r) (burnTxHash r) (burnConfirmedAt r) (approvedById r) (payoutReference r) (payoutSubmittedAt r) (payoutConfirmedAt r) (completedAt r) (createdAt r).
Definition set_approvedById (v : option string) (r : t) : t :=
  mk (id r) (programId r) (paychainRedemptionId r) (assetId r) (amountMinor r) (currency r) (beneficiaryName r) (beneficiaryAccountMasked r) (status r) (correlationId r) (burnTxHash r) (burnConfirmedAt r) v (payoutReference r) (payoutSubmittedAt r) (payoutConfirmedAt r) (completedAt r) (createdAt r).
Definition set_burnTxHash (v : option string) (r : t) : t :=
  mk (id r) (programId r) (paychainRedemptionId r) (assetId r) (amountMinor r) (currency r) (beneficiaryName r) (beneficiaryAccountMasked r) (status r) (correlationId r) v (burnConfirmedAt r) (approvedById r) (payoutReference r) (payoutSubmittedAt r) (payoutConfirmedAt r) (completedAt r) (createdAt r).
Definition set_burnConfirmedAt (v : option Z) (r : t) : t :=
  mk (id r) (programId r) (paychainRedemptionId r) (assetId r) (amountMinor r) (currency r) (beneficiaryName r) (beneficiaryAccountMasked r) (status r) (correlationId r) (burnTxHash r) v (approvedById r) (payoutReference r) (payoutSubmittedAt r) (payoutConfirmedAt r) (completedAt r) (createdAt r).
Definition set_payoutReference (v : option string) (r : t) : t :=
  mk (id r) (programId r) (paychainRedemptionId r) (assetId r) (amountMinor r) (currency r) (beneficiaryName r) (beneficiaryAccountMasked r) (status r) (correlationId r) (burnTxHash r) (burnConfirmedAt r) (approvedById r) v (payoutSubmittedAt r) (payoutConfirmedAt r) (completedAt r) (createdAt r).
Definition set_payoutSubmittedAt (v : option Z) (r : t) : t :=
  mk (id r) (programId r) (paychainRedemptionId r) (assetId r) (amountMinor r) (currency r) (beneficiaryName r) (beneficiaryAccountMasked r) (status r) (correlationId r) (burnTxHash r) (burnConfirmedAt r) (approvedById r) (payoutReference r) v (payoutConfirmedAt r) (completedAt r) (createdAt r).
Definition set_payoutConfirmedAt (v : option Z) (r : t) : t :=
  mk (id r) (programId r) (paychainRedemptionId r) (assetId r) (amountMinor r) (currency r) (beneficiaryName r) (beneficiaryAccountMasked r) (status r) (correlationId r) (burnTxHash r) (burnConfirmedAt r) (approvedById r) (payoutReference r) (payoutSubmittedAt r) v (completedAt r) (createdAt r).
Definition set_completedAt (v : option Z) (r : t) : t :=
  mk (id r) (programId r) (paychainRedemptionId r) (assetId r) (amountMinor r) (currency r) (beneficiaryName r) (beneficiaryAccountMasked r) (status r) (correlationId r) (burnTxHash r) (burnConfirmedAt r) (approvedById r) (payoutReference r) (payoutSubmittedAt r) (payoutConfirmedAt r) v (createdAt r).
End Redemption.

Module Approval.
Record t : Type := mk {
  id : string;
  subjectType : string;
  mintAuthorizationId : option string;
  makerId : string;
  makerActedAt : Z;
  checkerId : option string;
  checkerActedAt : option Z;
  decision : ApprovalDecision;
  reason : option string;
  createdAt : Z
}.
Definition set_checkerId (v : option string) (r : t) : t :=
  mk (id r) (subjectType r) (mintAuthorizationId r) (makerId r) (makerActedAt r) v (checkerActedAt r) (decision r) (reason r) (createdAt r).
Definition set_checkerActedAt (v : option Z) (r : t) : t :=
  mk (id r) (subjectType r) (mintAuthorizationId r) (makerId r) (makerActedAt r) (checkerId r) v (decision r) (reason r) (createdAt r).
Definition set_decision (v : ApprovalDecision) (r : t) : t :=
  mk (id r) (subjectType r) (mintAuthorizationId r) (makerId r) (makerActedAt r) (checkerId r) (checkerActedAt r) v (reason r) (createdAt r).
Definition set_reason (v : option string) (r : t) : t :=
  mk (id r) (subjectType r) (mintAuthorizationId r) (makerId r) (makerActedAt r) (checkerId r) (checkerActedAt r) (decision r) v (createdAt r).
End Approval.

Module AuditLog.
Record t : Type := mk {
  id : string;
  actor : string;
  actorRole : option string;
  action : string;
  subjectType : string;
  subjectId : option string;
  beforeState : option jsval;
  afterState : option jsval;
  reason : option string;
  approvalRef : option string;
  ip : option string;
  device : option string;
  correlationId : option string;
  sourceSystem : option string;
  createdAt : Z
}.
End AuditLog.

Module FeatureFlag.
Record t : Type := mk {
  key : string;
  enabled : bool;
  description : option string;
  updatedBy : option string
}.
Definition set_enabled (v : bool) (r : t) : t :=
  mk (key r) v (description r) (updatedBy r).
Definition set_updatedBy (v : option string) (r : t) : t :=
  mk (key r) (enabled r) (description r) v.
End FeatureFlag.

Module IdempotencyKey.
Record t : Type := mk {
  key : string;
  route : string;
  requestHash : string;
  responseCode : Z;
  responseBody : jsval;
  createdAt : Z
}.
End IdempotencyKey.

Module OutboxEvent.
Record t : Type := mk {
  id : string;
  eventType : string;
  targetPlatform : string;
  sequence : Z;
  payload : jsval;
  artifact : option string;
  signatureKeyId : string;
  signatureValue : string;
  deliveredAt : option Z;
  attempts : Z;
  deadLettered : bool;
  createdAt : Z
}.
Definition set_deliveredAt (v : option Z) (r : t) : t :=
  mk (id r) (eventType r) (targetPlatform r) (sequence r) (payload r) (artifact r) (signatureKeyId r) (signatureValue r) v (attempts r) (deadLettered r) (createdAt r).
Definition set_attempts (v : Z) (r : t) : t :=
  mk (id r) (eventType r) (targetPlatform r) (sequence r) (payload r) (artifact r) (signatureKeyId r) (signatureValue r) (deliveredAt r) v (deadLettered r) (createdAt r).
Definition set_deadLettered (v : bool) (r : t) : t :=
  mk (id r) (eventType r) (targetPlatform r) (sequence r) (payload r) (artifact r) (signatureKeyId r) (signatureValue r) (deliveredAt r) (attempts r) v (createdAt r).
End OutboxEvent.

Module WebhookDelivery.
Record t : Type := mk {
  id : string;
  eventId : string;
  attempt : Z;
  statusCode : option Z;
  ok : bool;
  error : option string;
  createdAt : Z
}.
End WebhookDelivery.

Module ClientApplication.
Record t : Type := mk {
  id : string;
  platform : string;
  displayName : string;
  oauthClientId : string;
  clientSecretHash : option string;
  publicKeyPem : option string;
  requireSignature : bool;
  ipAllowlist : list string;
  webhookUrl : option string;
  rateLimitPerMin : Z;
  disabled : bool;
  createdAt : Z
}.
Definition set_clientSecretHash (v : option string) (r : t) : t :=
  mk (id r) (platform r) (displayName r) (oauthClientId r) v (publicKeyPem r) (requireSignature r) (ipAllowlist r) (webhookUrl r) (rateLimitPerMin r) (disabled r) (createdAt r).
Definition set_publicKeyPem (v : option string) (r : t) : t :=
  mk (id r) (platform r) (displayName r) (oauthClientId r) (clientSecretHash r) v (requireSignature r) (ipAllowlist r) (webhookUrl r) (rateLimitPerMin r) (disabled r) (createdAt r).
Definition set_requireSignature (v : bool) (r : t) : t :=
  mk (id r) (platform r) (displayName r) (oauthClientId r) (clientSecretHash r) (publicKeyPem r) v (ipAllowlist r) (webhookUrl r) (rateLimitPerMin r) (disabled r) (createdAt r).
Definition set_webhookUrl (v : option string) (r : t) : t :=
  mk (id r) (platform r) (displayName r) (oauthClientId r) (clientSecretHash r) (publicKeyPem r) (requireSignature r) (ipAllowlist r) v (rateLimitPerMin r) (disabled r) (createdAt r).
Definition set_rateLimitPerMin (v : Z) (r : t) : t :=
  mk (id r) (platform r) (displayName r) (oauthClientId r) (clientSecretHash r) (publicKeyPem r) (requireSignature r) (ipAllowlist r) (webhookUrl r) v (disabled r) (createdAt r).
Definition set_disabled (v : bool) (r : t) : t :=
  mk (id r) (platform r) (displayName r) (oauthClientId r) (clientSecretHash r) (publicKeyPem r) (requireSignature r) (ipAllowlist r) (webhookUrl r) (rateLimitPerMin r) v (createdAt r).
End ClientApplication.

Module LiabilityRegistryEntry.
Record t : Type := mk {
  id : string;
  trusteeProgramId : string;
  platform : string;
  tenantId : option string;
  paykhProgramId : option string;
  paychainAssetId : option string;
  liabilityType : string;
  reserveAccountId : string;
  currency : string;
  requiredReserveBps : Z;
  mintAuthorizationRequired : bool;
  redemptionAuthorizationRequired : bool;
  createdAt : Z
}.
End LiabilityRegistryEntry.

Module PaykhPaymentProfile.
Record t : Type := mk {
  id : string;
  tenantId : string;
  recipientName : string;
  recipientAccountMasked : string;
  bankName : string;
  currency : string;
  khqrPayload : string;
  status : PaymentProfileStatus;
  verifiedAt : option Z;
  createdAt : Z
}.
Definition set_status (v : PaymentProfileStatus) (r : t) : t :=
  mk (id r) (tenantId r) (recipientName r) (recipientAccountMasked r) (bankName r) (currency r) (khqrPayload r) v (verifiedAt r) (createdAt r).
Definition set_verifiedAt (v : option Z) (r : t) : t :=
  mk (id r) (tenantId r) (recipientName r) (recipientAccountMasked r) (bankName r) (currency r) (khqrPayload r) (status r) v (createdAt r).
End PaykhPaymentProfile.

Module PaykhPaymentOrder.
Record t : Type := mk {
  id : string;
  tenantId : string;
  profileId : string;
  amountMinor : Z;
  currency : string;
  paymentReference : string;
  khqrString : option string;
  status : PaymentOrderStatus;
  matchedBankTransactionId : option string;
  confirmedAt : option Z;
  expiresAt : Z;
  createdAt : Z
}.
Definition set_status (v : PaymentOrderStatus) (r : t) : t :=
  mk (id r) (tenantId r) (profileId r) (amountMinor r) (currency r) (paymentReference r) (khqrString r) v (matchedBankTransactionId r) (confirmedAt r) (expiresAt r) (createdAt r).
Definition set_matchedBankTransactionId (v : option string) (r : t) : t :=
  mk (id r) (tenantId r) (profileId r) (amountMinor r) (currency r) (paymentReference r) (khqrString r) (status r) v (confirmedAt r) (expiresAt r) (createdAt r).
Definition set_confirmedAt (v : option Z) (r : t) : t :=
  mk (id r) (tenantId r) (profileId r) (amountMinor r) (currency r) (paymentReference r) (khqrString r) (status r) (matchedBankTransactionId r) v (expiresAt r) (createdAt r).
End PaykhPaymentOrder.

Module PaykhProgramFund.
Record t : Type := mk {
  id : string;
  tenantId : string;
  paykhProgramId : string;
  classification : FundClassification;
  currency : string;
  reserveAccountId : string;
  fundedMinor : Z;
  reservedMinor : Z;
  status : string;
  createdAt : Z
}.
Definition set_fundedMinor (v : Z) (r : t) : t :=
  mk (id r) (tenantId r) (paykhProgramId r) (classification r) (currency r) (reserveAccountId r) v (reservedMinor r) (status r) (createdAt r).
Definition set_reservedMinor (v : Z) (r : t) : t :=
  mk (id r) (tenantId r) (paykhProgramId r) (classification r) (currency r) (reserveAccountId r) (fundedMinor r) v (status r) (createdAt r).
End PaykhProgramFund.

Module PaykhLoyaltyLiability.
Record t : Type := mk {
  id : string;
  tenantId : string;
  paykhProgramId : string;
  programFundId : string;
  classification : FundClassification;
  currency : string;
  pegCurrency : string;
  denominationMinor : Z;
  decimals : Z;
  stellarAssetCode : option string;
  stellarIssuer : option string;
  stellarDistributor : option string;
  outstandingMinor : Z;
  issuedTotalMinor : Z;
  redeemedTotalMinor : Z;
  onChainSupplyMinor : Z;
  reconciliationStatus : string;
  lastReconciledAt : option Z;
  status : string;
  createdAt : Z
}.
Definition set_outstandingMinor (v : Z) (r : t) : t :=
  mk (id r) (tenantId r) (paykhProgramId r) (programFundId r) (classification r) (currency r) (pegCurrency r) (denominationMinor r) (decimals r) (stellarAssetCode r) (stellarIssuer r) (stellarDistributor r) v (issuedTotalMinor r) (redeemedTotalMinor r) (onChainSupplyMinor r) (reconciliationStatus r) (lastReconciledAt r) (status r) (createdAt r).
Definition set_issuedTotalMinor (v : Z) (r : t) : t :=
  mk (id r) (tenantId r) (paykhProgramId r) (programFundId r) (classification r) (currency r) (pegCurrency r) (denominationMinor r) (decimals r) (stellarAssetCode r) (stellarIssuer r) (stellarDistributor r) (outstandingMinor r) v (redeemedTotalMinor r) (onChainSupplyMinor r) (reconciliationStatus r) (lastReconciledAt r) (status r) (createdAt r).
Definition set_redeemedTotalMinor (v : Z) (r : t) : t :=
  mk (id r) (tenantId r) (paykhProgramId r) (programFundId r) (classification r) (currency r) (pegCurrency r) (denominationMinor r) (decimals r) (stellarAssetCode r) (stellarIssuer r) (stellarDistributor r) (outstandingMinor r) (issuedTotalMinor r) v (onChainSupplyMinor r) (reconciliationStatus r) (lastReconciledAt r) (status r) (createdAt r).
Definition set_onChainSupplyMinor (v : Z) (r : t) : t :=
  mk (id r) (tenantId r) (paykhProgramId r) (programFundId r) (classification r) (currency r) (pegCurrency r) (denominationMinor r) (decimals r) (stellarAssetCode r) (stellarIssuer r) (stellarDistributor r) (outstandingMinor r) (issuedTotalMinor r) (redeemedTotalMinor r) v (reconciliationStatus r) (lastReconciledAt r) (status r) (createdAt r).
Definition set_reconciliationStatus (v : string) (r : t) : t :=
  mk (id r) (tenantId r) (paykhProgramId r) (programFundId r) (classification r) (currency r) (pegCurrency r) (denominationMinor r) (decimals r) (stellarAssetCode r) (stellarIssuer r) (stellarDistributor r) (outstandingMinor r) (issuedTotalMinor r) (redeemedTotalMinor r) (onChainSupplyMinor r) v (lastReconciledAt r) (status r) (createdAt r).
Definition set_lastReconciledAt (v : option Z) (r : t) : t :=
  mk (id r) (tenantId r) (paykhProgramId r) (programFundId r) (classification r) (currency r) (pegCurrency r) (denominationMinor r) (decimals r) (stellarAssetCode r) (stellarIssuer r) (stellarDistributor r) (outstandingMinor r) (issuedTotalMinor r) (redeemedTotalMinor r) (onChainSupplyMinor r) (reconciliationStatus r) v (status r) (createdAt r).
End PaykhLoyaltyLiability.

Module PaykhLoyaltyIssuance.
Record t : Type := mk {
  id : string;
  loyaltyLiabilityId : string;
  customerRef : string;
  units : option Z;
  amountMinor : Z;
  currency : string;
  status : string;
  paychainReference : option string;
  onChainTxHash : option string;
  actor : string;
  createdAt : Z
}.
End PaykhLoyaltyIssuance.

Module PaykhLoyaltyRedemption.
Record t : Type := mk {
  id : string;
  loyaltyLiabilityId : string;
  tenantId : string;
  merchantId : string;
  customerRef : string;
  amountMinor : Z;
  currency : string;
  status : string;
  settlementId : option string;
  paychainReference : option string;
  onChainTxHash : option string;
  actor : string;
  createdAt : Z;
  confirmedAt : option Z
}.
End PaykhLoyaltyRedemption.

Module PaykhSettlement.
Record t : Type := mk {
  id : string;
  tenantId : string;
  merchantId : string;
  amountMinor : Z;
  currency : string;
  status : SettlementStatus;
  approvedById : option string;
  submittedAt : option Z;
  confirmedAt : option Z;
  createdAt : Z
}.
Definition set_status (v : SettlementStatus) (r : t) : t :=
  mk (id r) (tenantId r) (merchantId r) (amountMinor r) (currency r) v (approvedById r) (submittedAt r) (confirmedAt r) (createdAt r).
Definition set_approvedById (v : option string) (r : t) : t :=
  mk (id r) (tenantId r) (merchantId r) (amountMinor r) (currency r) (status r) v (submittedAt r) (confirmedAt r) (createdAt r).
Definition set_confirmedAt (v : option Z) (r : t) : t :=
  mk (id r) (tenantId r) (merchantId r) (amountMinor r) (currency r) (status r) (approvedById r) (submittedAt r) v (createdAt r).
End PaykhSettlement.

Module PaykhMerchant.
Record t : Type := mk {
  id : string;
  tenantId : string;
  merchantCode : string;
  paykhMerchantRef : option string;
  legalName : string;
  country : option string;
  kycStatus : string;
  status : string;
  riskLevel : string;
  source : string;
  lastReportedAt : Z;
  createdAt : Z
}.
Definition set_paykhMerchantRef (v : option string) (r : t) : t :=
  mk (id r) (tenantId r) (merchantCode r) v (legalName r) (country r) (kycStatus r) (status r) (riskLevel r) (source r) (lastReportedAt r) (createdAt r).
Definition set_legalName (v : string) (r : t) : t :=
  mk (id r) (tenantId r) (merchantCode r) (paykhMerchantRef r) v (country r) (kycStatus r) (status r) (riskLevel r) (source r) (lastReportedAt r) (createdAt r).
Definition set_country (v : option string) (r : t) : t :=
  mk (id r) (tenantId r) (merchantCode r) (paykhMerchantRef r) (legalName r) v (kycStatus r) (status r) (riskLevel r) (source r) (lastReportedAt r) (createdAt r).
Definition set_kycStatus (v : string) (r : t) : t :=
  mk (id r) (tenantId r) (merchantCode r) (paykhMerchantRef r) (legalName r) (country r) v (status r) (riskLevel r) (source r) (lastReportedAt r) (createdAt r).
Definition set_status (v : string) (r : t) : t :=
  mk (id r) (tenantId r) (merchantCode r) (paykhMerchantRef r) (legalName r) (country r) (kycStatus r) v (riskLevel r) (source r) (lastReportedAt r) (createdAt r).
Definition set_riskLevel (v : string) (r : t) : t :=
  mk (id r) (tenantId r) (merchantCode r) (paykhMerchantRef r) (legalName r) (country r) (kycStatus r) (status r) v (source r) (lastReportedAt r) (createdAt r).
Definition set_lastReportedAt (v : Z) (r : t) : t :=
  mk (id r) (tenantId r) (merchantCode r) (paykhMerchantRef r) (legalName r) (country r) (kycStatus r) (status r) (riskLevel r) (source r) v (createdAt r).
End PaykhMerchant.

(** * Tables *)

Inductive table : Type :=
| TUser
| TRole
| TAbacPolicy
| TPasswordReset
| TNonceUsage
| TReconciliationRun
| TReconciliationException
| TAttestation
| TPlatformControl
| TProgram
| TTrusteeAccount
| TFundingInstruction
| TDeposit
| TLedgerEntry
| TLedgerPosting
| TLiabilitySnapshot
| TBankConnection
| TReserveAdjustment
| TReserveSnapshot
| TMintAuthorization
| TMintConfirmation
| TRedemption
| TApproval
| TAuditLog
| TFeatureFlag
| TIdempotencyKey
| TOutboxEvent
| TWebhookDelivery
| TClientApplication
| TLiabilityRegistryEntry
| TPaykhPaymentProfile
| TPaykhPaymentOrder
| TPaykhProgramFund
| TPaykhLoyaltyLiability
| TPaykhLoyaltyIssuance
| TPaykhLoyaltyRedemption
| TPaykhSettlement
| TPaykhMerchant.

#[export] Instance table_eq_dec : EqDecision table.
Proof. solve_decision. Defined.

Definition row (t : table) : Type :=
  match t with
  | TUser => User.t
  | TRole => Role.t
  | TAbacPolicy => AbacPolicy.t
  | TPasswordReset => PasswordReset.t
  | TNonceUsage => NonceUsage.t
  | TReconciliationRun => ReconciliationRun.t
  | TReconciliationException => ReconciliationException.t
  | TAttestation => Attestation.t
  | TPlatformControl => PlatformControl.t
  | TProgram => Program.t
  | TTrusteeAccount => TrusteeAccount.t
  | TFundingInstruction => FundingInstruction.t
  | TDeposit => Deposit.t
  | TLedgerEntry => LedgerEntry.t
  | TLedgerPosting => LedgerPosting.t
  | TLiabilitySnapshot => LiabilitySnapshot.t
  | TBankConnection => BankConnection.t
  | TReserveAdjustment => ReserveAdjustment.t
  | TReserveSnapshot => ReserveSnapshot.t
  | TMintAuthorization => MintAuthorization.t
  | TMintConfirmation => MintConfirmation.t
  | TRedemption => Redemption.t
  | TApproval => Approval.t
  | TAuditLog => AuditLog.t
  | TFeatureFlag => FeatureFlag.t
  | TIdempotencyKey => IdempotencyKey.t
  | TOutboxEvent => OutboxEvent.t
  | TWebhookDelivery => WebhookDelivery.t
  | TClientApplication => ClientApplication.t
  | TLiabilityRegistryEntry => LiabilityRegistryEntry.t
  | TPaykhPaymentProfile => PaykhPaymentProfile.t
  | TPaykhPaymentOrder => PaykhPaymentOrder.t
  | TPaykhProgramFund => PaykhProgramFund.t
  | TPaykhLoyaltyLiability => PaykhLoyaltyLiability.t
  | TPaykhLoyaltyIssuance => PaykhLoyaltyIssuance.t
  | TPaykhLoyaltyRedemption => PaykhLoyaltyRedemption.t
  | TPaykhSettlement => PaykhSettlement.t
  | TPaykhMerchant => PaykhMerchant.t
  end.

(** The primary key of a row. *)
Definition row_key (t : table) : row t → string :=
  match t with
  | TUser => User.id
  | TRole => Role.slug
  | TAbacPolicy => AbacPolicy.id
  | TPasswordReset => PasswordReset.id
  | TNonceUsage => NonceUsage.nonce
  | TReconciliationRun => ReconciliationRun.id
  | TReconciliationException => ReconciliationException.id
  | TAttestation => Attestation.id
  | TPlatformControl => PlatformControl.key
  | TProgram => Program.id
  | TTrusteeAccount => TrusteeAccount.id
  | TFundingInstruction => FundingInstruction.id
  | TDeposit => Deposit.id
  | TLedgerEntry => LedgerEntry.id
  | TLedgerPosting => LedgerPosting.id
  | TLiabilitySnapshot => LiabilitySnapshot.id
  | TBankConnection => BankConnection.id
  | TReserveAdjustment => ReserveAdjustment.id
  | TReserveSnapshot => ReserveSnapshot.id
  | TMintAuthorization => MintAuthorization.id
  | TMintConfirmation => MintConfirmation.id
  | TRedemption => Redemption.id
  | TApproval => Approval.id
  | TAuditLog => AuditLog.id
  | TFeatureFlag => FeatureFlag.key
  | TIdempotencyKey => IdempotencyKey.key
  | TOutboxEvent => OutboxEvent.id
  | TWebhookDelivery => WebhookDelivery.id
  | TClientApplication => ClientApplication.id
  | TLiabilityRegistryEntry => LiabilityRegistryEntry.id
  | TPaykhPaymentProfile => PaykhPaymentProfile.id
  | TPaykhPaymentOrder => PaykhPaymentOrder.id
  | TPaykhProgramFund => PaykhProgramFund.id
  | TPaykhLoyaltyLiability => PaykhLoyaltyLiability.id
  | TPaykhLoyaltyIssuance => PaykhLoyaltyIssuance.id
  | TPaykhLoyaltyRedemption => PaykhLoyaltyRedemption.id
  | TPaykhSettlement => PaykhSettlement.id
  | TPaykhMerchant => PaykhMerchant.id
  end.

(** The [@unique] and [@@unique] keys of a row; a null column takes part in none. *)
Definition unique_keys (t : table) : row t → list (string * list string) :=
  match t with
  | TUser => λ r, [("email", [User.email r])]
  | TPasswordReset => λ r, [("tokenHash", [PasswordReset.tokenHash r])]
  | TProgram => λ r, [("code", [Program.code r])]
  | TFundingInstruction => λ r, [("paychainRequestId", [FundingInstruction.paychainRequestId r])] ++ [("uniqueReference", [FundingInstruction.uniqueReference r])]
  | TDeposit => λ r, [("bankTransactionId", [Deposit.bankTransactionId r])]
  | TLiabilitySnapshot => λ r, [("programId_sequence", [LiabilitySnapshot.programId r; big_to_string (LiabilitySnapshot.sequence r)])]
  | TBankConnection => λ r, [("bankId", [BankConnection.bankId r])]
  | TMintAuthorization => λ r, [("paychainRequestId", [MintAuthorization.paychainRequestId r])] ++ [("nonce", [MintAuthorization.nonce r])]
  | TMintConfirmation => λ r, [("mintAuthorizationId", [MintConfirmation.mintAuthorizationId r])]
  | TRedemption => λ r, [("paychainRedemptionId", [Redemption.paychainRedemptionId r])]
  | TApproval => λ r, match Approval.mintAuthorizationId r with Some v => [("mintAuthorizationId", [v])] | None => [] end
  | TClientApplication => λ r, [("platform", [ClientApplication.platform r])] ++ [("oauthClientId", [ClientApplication.oauthClientId r])]
  | TPaykhPaymentOrder => λ r, [("paymentReference", [PaykhPaymentOrder.paymentReference r])] ++ match PaykhPaymentOrder.matchedBankTransactionId r with Some v => [("matchedBankTransactionId", [v])] | None => [] end
  | TPaykhProgramFund => λ r, [("tenantId_paykhProgramId", [PaykhProgramFund.tenantId r; PaykhProgramFund.paykhProgramId r])]
  | TPaykhLoyaltyLiability => λ r, [("programFundId", [PaykhLoyaltyLiability.programFundId r])] ++ [("tenantId_paykhProgramId", [PaykhLoyaltyLiability.tenantId r; PaykhLoyaltyLiability.paykhProgramId r])]
  | TPaykhMerchant => λ r, [("tenantId_merchantCode", [PaykhMerchant.tenantId r; PaykhMerchant.merchantCode r])]
  | _ => λ _, []
  end.

(** The rows a row refers to by a foreign key. *)
Definition foreign_keys (t : table) : row t → list (table * string) :=
  match t with
  | TReconciliationException => λ r, [(TReconciliationRun, ReconciliationException.runId r)]
  | TTrusteeAccount => λ r, [(TProgram, TrusteeAccount.programId r)]
  | TFundingInstruction => λ r, [(TProgram, FundingInstruction.programId r)]
  | TDeposit => λ r, [(TProgram, Deposit.programId r)] ++ match Deposit.fundingInstructionId r with Some v => [(TFundingInstruction, v)] | None => [] end ++ [(TTrusteeAccount, Deposit.trusteeAccountId r)]
  | TLedgerPosting => λ r, [(TLedgerEntry, LedgerPosting.entryId r)]
  | TLiabilitySnapshot => λ r, [(TProgram, LiabilitySnapshot.programId r)]
  | TReserveSnapshot => λ r, [(TProgram, ReserveSnapshot.programId r)]
  | TMintAuthorization => λ r, [(TProgram, MintAuthorization.programId r)]
  | TMintConfirmation => λ r, [(TMintAuthorization, MintConfirmation.mintAuthorizationId r)]
  | TApproval => λ r, match Approval.mintAuthorizationId r with Some v => [(TMintAuthorization, v)] | None => [] end ++ [(TUser, Approval.makerId r)] ++ match Approval.checkerId r with Some v => [(TUser, v)] | None => [] end
  | TPaykhPaymentOrder => λ r, [(TPaykhPaymentProfile, PaykhPaymentOrder.profileId r)]
  | TPaykhLoyaltyLiability => λ r, [(TPaykhProgramFund, PaykhLoyaltyLiability.programFundId r)]
  | TPaykhLoyaltyIssuance => λ r, [(TPaykhLoyaltyLiability, PaykhLoyaltyIssuance.loyaltyLiabilityId r)]
  | TPaykhLoyaltyRedemption => λ r, [(TPaykhLoyaltyLiability, PaykhLoyaltyRedemption.loyaltyLiabilityId r)]
  | _ => λ _, []
  end.

Definition opt_ok (p : Z → bool) (o : option Z) : bool :=
  match o with Some z => p z | None => true end.

(** The integers of a row fit their columns. *)
Definition in_range (t : table) : row t → bool :=
  match t with
  | TAbacPolicy => λ r, opt_ok in_int64 (AbacPolicy.minAmountMinor r) && opt_ok in_int64 (AbacPolicy.maxAmountMinor r) && in_int32 (AbacPolicy.requiredApprovals r) && in_int32 (AbacPolicy.priority r)
  | TAttestation => λ r, opt_ok in_int64 (Attestation.reserveAmountMinor r) && opt_ok in_int64 (Attestation.liabilityAmountMinor r)
  | TProgram => λ r, in_int32 (Program.requiredRatioBps r) && in_int32 (Program.safetyBufferBps r)
  | TTrusteeAccount => λ r, in_int64 (TrusteeAccount.mockClearedMinor r) && in_int64 (TrusteeAccount.minimumBalanceMinor r) && in_int32 (TrusteeAccount.requiredReserveBps r)
  | TFundingInstruction => λ r, in_int64 (FundingInstruction.amountMinor r)
  | TDeposit => λ r, in_int64 (Deposit.amountMinor r)
  | TLedgerEntry => λ r, in_int64 (LedgerEntry.totalDebitMinor r) && in_int64 (LedgerEntry.totalCreditMinor r)
  | TLedgerPosting => λ r, in_int64 (LedgerPosting.debitMinor r) && in_int64 (LedgerPosting.creditMinor r)
  | TLiabilitySnapshot => λ r, in_int64 (LiabilitySnapshot.circulatingMinor r) && in_int64 (LiabilitySnapshot.treasuryHeldMinor r) && in_int64 (LiabilitySnapshot.lockedMinor r) && in_int64 (LiabilitySnapshot.pendingMintMinor r) && in_int64 (LiabilitySnapshot.pendingBurnMinor r) && in_int64 (LiabilitySnapshot.pendingRedemptionMinor r) && in_int64 (LiabilitySnapshot.confirmedBurnMinor r) && in_int64 (LiabilitySnapshot.effectiveLiabilityMinor r) && in_int64 (LiabilitySnapshot.sequence r)
  | TReserveAdjustment => λ r, in_int64 (ReserveAdjustment.amountMinor r)
  | TReserveSnapshot => λ r, in_int64 (ReserveSnapshot.eligibleReserveMinor r) && in_int64 (ReserveSnapshot.excludedAmountMinor r) && in_int64 (ReserveSnapshot.circulatingLiabilityMinor r) && in_int64 (ReserveSnapshot.pendingRedemptionMinor r) && in_int64 (ReserveSnapshot.requiredReserveMinor r) && opt_ok in_int32 (ReserveSnapshot.reserveRatioBps r) && in_int64 (ReserveSnapshot.surplusMinor r)
  | TMintAuthorization => λ r, in_int64 (MintAuthorization.amountMinor r) && in_int64 (MintAuthorization.maxMintAmountMinor r)
  | TMintConfirmation => λ r, in_int64 (MintConfirmation.amountMinor r) && opt_ok in_int64 (MintConfirmation.ledgerHeight r)
  | TRedemption => λ r, in_int64 (Redemption.amountMinor r)
  | TIdempotencyKey => λ r, in_int32 (IdempotencyKey.responseCode r)
  | TOutboxEvent => λ r, in_int64 (OutboxEvent.sequence r) && in_int32 (OutboxEvent.attempts r)
  | TWebhookDelivery => λ r, in_int32 (WebhookDelivery.attempt r) && opt_ok in_int32 (WebhookDelivery.statusCode r)
  | TClientApplication => λ r, in_int32 (ClientApplication.rateLimitPerMin r)
  | TLiabilityRegistryEntry => λ r, in_int32 (LiabilityRegistryEntry.requiredReserveBps r)
  | TPaykhPaymentOrder => λ r, in_int64 (PaykhPaymentOrder.amountMinor r)
  | TPaykhProgramFund => λ r, in_int64 (PaykhProgramFund.fundedMinor r) && in_int64 (PaykhProgramFund.reservedMinor r)
  | TPaykhLoyaltyLiability => λ r, in_int64 (PaykhLoyaltyLiability.denominationMinor r) && in_int32 (PaykhLoyaltyLiability.decimals r) && in_int64 (PaykhLoyaltyLiability.outstandingMinor r) && in_int64 (PaykhLoyaltyLiability.issuedTotalMinor r) && in_int64 (PaykhLoyaltyLiability.redeemedTotalMinor r) && in_int64 (PaykhLoyaltyLiability.onChainSupplyMinor r)
  | TPaykhLoyaltyIssuance => λ r, opt_ok in_int64 (PaykhLoyaltyIssuance.units r) && in_int64 (PaykhLoyaltyIssuance.amountMinor r)
  | TPaykhLoyaltyRedemption => λ r, in_int64 (PaykhLoyaltyRedemption.amountMinor r)
  | TPaykhSettlement => λ r, in_int64 (PaykhSettlement.amountMinor r)
  | _ => λ _, true
  end.

(** * The state the handlers share

    The tables, the wall clock (milliseconds), the number of UUIDs drawn so
    far, the next value of the outbox sequence, the number of calls made to
    services outside the platform, and the one piece of process memory a guard
    reads: the time of the last successful bank read. *)

Record World : Type := mkWorld {
  tbl : ∀ t : table, gmap string (row t);
  clock : Z;
  uuids : nat;
  outbox_seq : Z;
  calls : nat;
  lastSuccessfulCheck : option Z
}.

Definition empty_world : World :=
  {| tbl := λ t, ∅; clock := 0; uuids := 0; outbox_seq := 1; calls := 0;
     lastSuccessfulCheck := None |}.

Definition with_table (t : table) (m : gmap string (row t)) (ts : ∀ t, gmap string (row t)) :
    ∀ t, gmap string (row t) :=
  λ t', match decide (t = t') with
        | left E => eq_rect t (λ t, gmap string (row t)) m t' E
        | right _ => ts t'
        end.

Definition set_tbl (t : table) (m : gmap string (row t)) (w : World) : World :=
  {| tbl := with_table t m (tbl w); clock := clock w; uuids := uuids w;
     outbox_seq := outbox_seq w; calls := calls w;
     lastSuccessfulCheck := lastSuccessfulCheck w |}.

Definition put (t : table) (k : string) (r : row t) (w : World) : World :=
  set_tbl t (<[k := r]> (tbl w t)) w.

Definition set_clock (c : Z) (w : World) : World :=
  {| tbl := tbl w; clock := c; uuids := uuids w; outbox_seq := outbox_seq w; calls := calls w;
     lastSuccessfulCheck := lastSuccessfulCheck w |}.
Definition set_uuids (n : nat) (w : World) : World :=
  {| tbl := tbl w; clock := clock w; uuids := n; outbox_seq := outbox_seq w; calls := calls w;
     lastSuccessfulCheck := lastSuccessfulCheck w |}.
Definition set_outbox_seq (z : Z) (w : World) : World :=
  {| tbl := tbl w; clock := clock w; uuids := uuids w; outbox_seq := z; calls := calls w;
     lastSuccessfulCheck := lastSuccessfulCheck w |}.
Definition set_calls (n : nat) (w : World) : World :=
  {| tbl := tbl w; clock := clock w; uuids := uuids w; outbox_seq := outbox_seq w; calls := n;
     lastSuccessfulCheck := lastSuccessfulCheck w |}.
Definition set_lastSuccessfulCheck (o : option Z) (w : World) : World :=
  {| tbl := tbl w; clock := clock w; uuids := uuids w; outbox_seq := outbox_seq w; calls := calls w;
     lastSuccessfulCheck := o |}.

Arguments put : simpl never.
Arguments set_tbl : simpl never.

Lemma tbl_set_same t m w : tbl (set_tbl t m w) t = m.
Proof.
  unfold set_tbl, with_table; simpl. destruct (decide (t = t)) as [E|]; [|done].
  by rewrite <- (Eqdep_dec.eq_rect_eq_dec table_eq_dec).
Qed.

Lemma tbl_set_ne t t' m w : t ≠ t' → tbl (set_tbl t m w) t' = tbl w t'.
Proof. intros H. unfold set_tbl, with_table; simpl. by destruct (decide (t = t')). Qed.

Lemma tbl_put_same t k r w : tbl (put t k r w) t = <[k := r]> (tbl w t).
Proof. apply tbl_set_same. Qed.

Lemma tbl_put_ne t t' k r w : t ≠ t' → tbl (put t k r w) t' = tbl w t'.
Proof. apply tbl_set_ne. Qed.

Lemma tbl_fun t k w (r r' : row t) : tbl w t !! k = Some r → tbl w t !! k = Some r' → r = r'.
Proof. intros H1 H2. rewrite H1 in H2. by injection H2. Qed.

(** ** What the schema refuses *)

Definition shares_key (t : table) (r r' : row t) : bool :=
  existsb (λ u, existsb (λ u', bool_decide (u = u')) (unique_keys t r')) (unique_keys t r).

(** Another row already holds one of the unique keys of [r]. *)
Definition conflicts (t : table) (k : string) (r : row t) (w : World) : bool :=
  existsb (λ kr, negb (bool_decide (kr.1 = k)) && shares_key t r kr.2) (map_to_list (tbl w t)).

Definition has_row (t : table) (k : string) (w : World) : bool :=
  match tbl w t !! k with Some _ => true | None => false end.

Definition references_exist (t : table) (r : row t) (w : World) : bool :=
  forallb (λ f, has_row f.1 f.2 w) (foreign_keys t r).

(** The row may be stored under key [k]. *)
Definition admissible (t : table) (k : string) (r : row t) (w : World) : bool :=
  negb (conflicts t k r w) && references_exist t r w && in_range t r.

Lemma admissible_in_range t k r w : admissible t k r w = true → in_range t r = true.
Proof. intros [_ H]%andb_true_iff. done. Qed.

(** No two rows of a table share a unique key. *)
Definition unique_ok (t : table) (w : World) : Prop :=
  ∀ k k' r r', tbl w t !! k = Some r → tbl w t !! k' = Some r' →
    shares_key t r r' = true → k = k'.

Lemma shares_key_intro t r r' u :
  u ∈ unique_keys t r → u ∈ unique_keys t r' → shares_key t r r' = true.
Proof.
  intros H H'. apply existsb_exists. exists u. split; [by apply list_elem_of_In|].
  apply existsb_exists. exists u. split; [by apply list_elem_of_In|]. by apply bool_decide_true.
Qed.

Lemma shares_key_sym t r r' : shares_key t r r' = true → shares_key t r' r = true.
Proof.
  unfold shares_key. intros (u & Hu & (u' & Hu' & E)%existsb_exists)%existsb_exists.
  apply bool_decide_eq_true in E as <-.
  apply existsb_exists. exists u. split; [done|]. apply existsb_exists. exists u.
  by rewrite bool_decide_true.
Qed.

Lemma conflicts_false t k r w :
  conflicts t k r w = false →
  ∀ k' r', tbl w t !! k' = Some r' → k' ≠ k → shares_key t r r' = false.
Proof.
  intros H k' r' Hk' Hne. destruct (shares_key t r r') eqn:E; [|done].
  assert (conflicts t k r w = true) as H'; [|by rewrite H in H'].
  apply existsb_exists. exists (k', r').
  split; [by apply list_elem_of_In, elem_of_map_to_list|]. simpl.
  by rewrite bool_decide_false, E.
Qed.

Lemma unique_ok_put t k r w :
  unique_ok t w → admissible t k r w = true → unique_ok t (put t k r w).
Proof.
  intros HU HA. apply andb_true_iff in HA as [HA _].
  apply andb_true_iff in HA as [HA _]. apply negb_true_iff in HA.
  pose proof (conflicts_false t k r w HA) as Hc.
  intros k1 k2 r1 r2. rewrite tbl_put_same.
  intros [[<- <-]|[Hne1 H1]]%lookup_insert_Some [[<- <-]|[Hne2 H2]]%lookup_insert_Some HS.
  - done.
  - by rewrite (Hc k2 r2) in HS.
  - apply shares_key_sym in HS. by rewrite (Hc k1 r1) in HS.
  - eapply HU; eauto.
Qed.
