(* ===== verification/Prisma.v ===== *)
(** The database client.

    The client and the database are not part of the repository: [PrismaClient]
    holds what they decide (the order in which rows come back, the generated
    identifiers, which writes are refused), with the documented behaviour the
    services rely on as its laws.  A write may be refused for any reason (a text
    with U+0000, a lost connection); one that breaks a constraint always is.  The query operations below are the shapes in
    which the services call the client, over the tables of [Schema.v]. *)
From S2P Require Import Prelude.
From S2P Require Import Prog.
From S2P Require Import Schema.
#[local] Open Scope string_scope.
#[local] Open Scope list_scope.
#[local] Open Scope Z_scope.

Class PrismaClient : Type := {
  (** the rows of a table, in the order the database returns them *)
  scan : ∀ t, World → list (row t);
  scan_perm t w : scan t w ≡ₚ map snd (map_to_list (tbl w t));
  (** [@default(cuid())] *)
  new_id : table → World → string;
  new_id_fresh t w : tbl w t !! new_id t w = None;
  (** the error code of a refused write of a row *)
  refuse : ∀ t, string → row t → World → option string;
  refuse_admissible t k r w : refuse t k r w = None → admissible t k r w = true
}.

(** [where], as a predicate on rows. *)
Definition where_rows {A} (p : A → bool) (l : list A) : list A := filter (λ x, p x = true) l.

(** The first of the rows with the greatest (or, negated, the least) key. *)
Fixpoint max_by {A} (key : A → Z) (l : list A) : option A :=
  match l with
  | [] => None
  | x :: l' => match max_by key l' with
               | Some y => if key x <? key y then Some y else Some x
               | None => Some x
               end
  end.

Definition desc_by {A} (key : A → Z) (a b : A) : Prop := key b ≤ key a.
#[export] Instance desc_by_dec {A} (key : A → Z) : RelDecision (desc_by key) :=
  λ a b, decide (key b ≤ key a).
Definition asc_by {A} (key : A → Z) (a b : A) : Prop := key a ≤ key b.
#[export] Instance asc_by_dec {A} (key : A → Z) : RelDecision (asc_by key) :=
  λ a b, decide (key a ≤ key b).

Section client.
Context `{PC : !PrismaClient}.

Definition write_row (t : table) (k : string) (r : row t) (w : World) : outcome (row t) * World :=
  match refuse t k r w with
  | None => (Ok r, put t k r w)
  | Some code => (Err (PrismaError code), w)
  end.

(** [findUnique({ where: { <primary key>: k } })] *)
Definition find_unique (t : table) (k : string) : prog World (option (row t)) :=
  read (λ w, tbl w t !! k).
(** [findMany({ where })] *)
Definition find_many (t : table) (p : row t → bool) : prog World (list (row t)) :=
  read (λ w, where_rows p (scan t w)).
(** [findFirst({ where })], and [findUnique] on a unique column *)
Definition find_first (t : table) (p : row t → bool) : prog World (option (row t)) :=
  read (λ w, head (where_rows p (scan t w))).
(** [findFirst({ where, orderBy: { key: 'desc' } })] *)
Definition find_first_desc (t : table) (p : row t → bool) (key : row t → Z) : prog World (option (row t)) :=
  read (λ w, max_by key (where_rows p (scan t w))).
(** [findMany({ where, orderBy: { key: 'desc' }, take })] *)
Definition find_many_desc (t : table) (p : row t → bool) (key : row t → Z) (n : nat) : prog World (list (row t)) :=
  read (λ w, take n (merge_sort (desc_by key) (where_rows p (scan t w)))).
Definition find_many_asc (t : table) (p : row t → bool) (key : row t → Z) (n : nat) : prog World (list (row t)) :=
  read (λ w, take n (merge_sort (asc_by key) (where_rows p (scan t w)))).

(** [findMany({ where, orderBy: { key: 'asc' } })] without a limit *)
Definition find_all_asc (t : table) (p : row t → bool) (key : row t → Z) : prog World (list (row t)) :=
  read (λ w, merge_sort (asc_by key) (where_rows p (scan t w))).
(** [count({ where })] *)
Definition count (t : table) (p : row t → bool) : prog World Z :=
  read (λ w, Z.of_nat (length (where_rows p (scan t w)))).

(** [create({ data })]; [f] receives the generated id and the current time. *)
Definition create (t : table) (f : string → Z → row t) : prog World (row t) :=
  action (λ w, let k := new_id t w in write_row t k (f k (clock w)) w).
(** [create] of a row with an [@default(autoincrement())] column: the number
    is drawn from the sequence whether or not the row is then refused. *)
Definition create_seq (t : table) (f : string → Z → Z → row t) : prog World (row t) :=
  action (λ w, let k := new_id t w in
               write_row t k (f k (clock w) (outbox_seq w))
                 (set_outbox_seq (outbox_seq w + 1) w)).
(** [create] of a row whose primary key the caller chooses *)
Definition create_at (t : table) (k : string) (f : Z → row t) : prog World (row t) :=
  action (λ w, if has_row t k w then (Err (PrismaError "P2002"), w)
               else write_row t k (f (clock w)) w).
(** [update({ where: { <primary key>: k }, data })] *)
Definition update (t : table) (k : string) (f : row t → row t) : prog World (row t) :=
  action (λ w, match tbl w t !! k with
               | None => (Err (PrismaError "P2025"), w)
               | Some r => write_row t k (f r) w
               end).
(** [update({ where: { <unique column>: v }, data })] *)
Definition update_by (t : table) (p : row t → bool) (f : row t → row t) : prog World (row t) :=
  action (λ w, match head (where_rows p (scan t w)) with
               | None => (Err (PrismaError "P2025"), w)
               | Some r => write_row t (row_key t r) (f r) w
               end).
(** [delete({ where: { <primary key>: k } })] *)
Definition delete_row (t : table) (k : string) : prog World (row t) :=
  action (λ w, match tbl w t !! k with
               | None => (Err (PrismaError "P2025"), w)
               | Some r => (Ok r, set_tbl t (delete k (tbl w t)) w)
               end).
(** [updateMany({ where, data })]: all the rows or none; the count. *)
Definition update_many (t : table) (p : row t → bool) (f : row t → row t) : prog World Z :=
  action (λ w,
    let hits := filter (λ kr, p kr.2 = true) (map_to_list (tbl w t)) in
    match omap (λ kr, refuse t kr.1 (f kr.2) w) hits with
    | code :: _ => (Err (PrismaError code), w)
    | [] => (Ok (Z.of_nat (length hits)),
             set_tbl t ((λ r, if p r then f r else r) <$> tbl w t) w)
    end).
(** [upsert] on the primary key *)
Definition upsert_at (t : table) (k : string) (f : row t → row t) (g : Z → row t) : prog World (row t) :=
  action (λ w, match tbl w t !! k with
               | Some r => write_row t k (f r) w
               | None => write_row t k (g (clock w)) w
               end).
(** [upsert] on a unique key *)
Definition upsert_by (t : table) (p : row t → bool) (f : row t → row t) (g : string → Z → row t) :
    prog World (row t) :=
  action (λ w, match head (where_rows p (scan t w)) with
               | Some r => write_row t (row_key t r) (f r) w
               | None => let k := new_id t w in write_row t k (g k (clock w)) w
               end).

(** ** Laws *)

Lemma elem_of_scan t w r : r ∈ scan t w ↔ ∃ k, tbl w t !! k = Some r.
Proof.
  rewrite (scan_perm t w), list_elem_of_In, in_map_iff. split.
  - intros ([k r'] & <- & Hk%list_elem_of_In%elem_of_map_to_list). by exists k.
  - intros [k Hk]. exists (k, r). split; [done|]. by apply list_elem_of_In, elem_of_map_to_list.
Qed.

Lemma sumZ_scan t (f : row t → Z) w : sumZ f (scan t w) = map_sum f (tbl w t).
Proof. rewrite (sumZ_perm _ _ _ (scan_perm t w)). apply sumZ_map. Qed.

Lemma sumZ_where t (p : row t → bool) (f : row t → Z) w :
  sumZ f (where_rows p (scan t w)) = map_sum (λ r, if p r then f r else 0) (tbl w t).
Proof. unfold where_rows. by rewrite sumZ_filter, sumZ_scan. Qed.

Lemma elem_of_where {A} (p : A → bool) l x : x ∈ where_rows p l ↔ p x = true ∧ x ∈ l.
Proof. unfold where_rows. by rewrite list_elem_of_filter. Qed.

(** Rows that carry their key have distinct keys. *)
Lemma where_keys_NoDup t p (key : row t → string) w :
  (∀ k r, tbl w t !! k = Some r → key r = k) → NoDup (key <$> where_rows p (scan t w)).
Proof.
  intros Hk. unfold where_rows. apply NoDup_fmap_2_strong.
  - intros x y Hx Hy E. apply list_elem_of_filter in Hx as [_ Hx], Hy as [_ Hy].
    apply elem_of_scan in Hx as [i Hi], Hy as [j Hj].
    rewrite (Hk i x Hi), (Hk j y Hj) in E. subst j. exact (tbl_fun t _ _ _ _ Hi Hj).
  - apply NoDup_filter, (NoDup_fmap_1 key). rewrite (scan_perm t w), <- list_fmap_compose.
    rewrite (list_fmap_ext _ fst); [apply NoDup_fst_map_to_list|].
    intros n [k r] Hn%list_elem_of_lookup_2%elem_of_map_to_list. by apply Hk.
Qed.

Lemma head_where_Some t p w r :
  head (where_rows p (scan t w)) = Some r → p r = true ∧ ∃ k, tbl w t !! k = Some r.
Proof.
  intros Hh%head_Some_elem_of. rewrite elem_of_where, elem_of_scan in Hh. done.
Qed.

Lemma head_where_None t p w k r :
  head (where_rows p (scan t w)) = None → tbl w t !! k = Some r → p r = false.
Proof.
  intros Hh%head_None Hk. apply not_true_is_false. intros Hp.
  assert (r ∈ where_rows p (scan t w)) as Hin by (apply elem_of_where; rewrite elem_of_scan; eauto).
  rewrite Hh in Hin. by apply not_elem_of_nil in Hin.
Qed.

Lemma where_rows_nil t p w k r :
  where_rows p (scan t w) = [] → tbl w t !! k = Some r → p r = false.
Proof. intros Hn. apply (head_where_None t). by rewrite Hn. Qed.

Lemma max_by_Some {A} (key : A → Z) l x :
  max_by key l = Some x → x ∈ l ∧ ∀ y, y ∈ l → key y ≤ key x.
Proof.
  revert x. induction l as [|a l IH]; intros x; simpl; [done|].
  destruct (max_by key l) as [y|] eqn:E.
  - destruct (IH y eq_refl) as [Hy Hmax].
    destruct (Z.ltb_spec (key a) (key y)) as [Hlt|Hge]; intros [= <-]; (split; [set_solver|]);
      intros z [->|Hz]%elem_of_cons; [lia| by apply Hmax|lia|].
    specialize (Hmax z Hz). lia.
  - intros [= <-]. split; [set_solver|]. intros z [->|Hz]%elem_of_cons; [lia|].
    destruct l as [|b l']; [set_solver|]. simpl in E.
    destruct (max_by key l'); [by destruct (_ <? _)|done].
Qed.

Lemma max_by_None {A} (key : A → Z) l : max_by key l = None → l = [].
Proof. destruct l as [|a l]; simpl; [done|]. destruct (max_by key l); [by destruct (_ <? _)|done]. Qed.

Lemma write_row_ok t k r w r' w' :
  write_row t k r w = (Ok r', w') → r' = r ∧ w' = put t k r w ∧ admissible t k r w = true.
Proof.
  unfold write_row. destruct (refuse t k r w) eqn:E; intros [= <- <-].
  split_and!; [done..|]. by apply refuse_admissible.
Qed.

Lemma write_row_accepted t k r w :
  refuse t k r w = None → write_row t k r w = (Ok r, put t k r w).
Proof. intros H. unfold write_row. by rewrite H. Qed.

(** A write stores its row, which the constraints allow, or changes nothing. *)
Lemma write_row_cases t k r w :
  (admissible t k r w = true ∧ write_row t k r w = (Ok r, put t k r w)) ∨
  ∃ code, write_row t k r w = (Err (PrismaError code), w).
Proof.
  unfold write_row. destruct (refuse t k r w) as [c|] eqn:E; [right; by exists c|left].
  by apply refuse_admissible in E.
Qed.

(** ** Sequential rules *)

Lemma run_find_unique t k w : run (find_unique t k) w = (Ok (tbl w t !! k), w).
Proof. done. Qed.
Lemma run_find_unique_Some t k r w :
  tbl w t !! k = Some r → run (find_unique t k) w = (Ok (Some r), w).
Proof. intros H. by rewrite run_find_unique, H. Qed.
Lemma run_find_many t p w : run (find_many t p) w = (Ok (where_rows p (scan t w)), w).
Proof. done. Qed.
Lemma run_find_first t p w : run (find_first t p) w = (Ok (head (where_rows p (scan t w))), w).
Proof. done. Qed.
Lemma run_find_first_desc t p key w :
  run (find_first_desc t p key) w = (Ok (max_by key (where_rows p (scan t w))), w).
Proof. done. Qed.

Lemma run_create t f w :
  run (create t f) w = write_row t (new_id t w) (f (new_id t w) (clock w)) w.
Proof. exact (run_action _ w). Qed.
Lemma run_create_at t k f w :
  run (create_at t k f) w = if has_row t k w then (Err (PrismaError "P2002"), w)
                            else write_row t k (f (clock w)) w.
Proof. exact (run_action _ w). Qed.
Lemma run_update t k f w :
  run (update t k f) w = match tbl w t !! k with
                         | None => (Err (PrismaError "P2025"), w)
                         | Some r => write_row t k (f r) w
                         end.
Proof. exact (run_action _ w). Qed.

(** A write that is not refused. *)
Lemma run_update_to t k f w r :
  tbl w t !! k = Some r → refuse t k (f r) w = None →
  run (update t k f) w = (Ok (f r), put t k (f r) w).
Proof. intros Hr HA. by rewrite run_update, Hr, write_row_accepted. Qed.
Lemma run_create_to t f w :
  refuse t (new_id t w) (f (new_id t w) (clock w)) w = None →
  run (create t f) w =
    (Ok (f (new_id t w) (clock w)), put t (new_id t w) (f (new_id t w) (clock w)) w).
Proof. intros HA. by rewrite run_create, write_row_accepted. Qed.

Lemma run_create_ok t f w r w' :
  run (create t f) w = (Ok r, w') →
  ∃ k, tbl w t !! k = None ∧ r = f k (clock w) ∧ w' = put t k r w ∧ admissible t k r w = true.
Proof.
  rewrite run_create. intros (-> & -> & HA)%write_row_ok.
  exists (new_id t w). by rewrite new_id_fresh.
Qed.

Lemma run_update_ok t k f w r w' :
  run (update t k f) w = (Ok r, w') →
  ∃ r0, tbl w t !! k = Some r0 ∧ r = f r0 ∧ w' = put t k r w ∧ admissible t k r w = true.
Proof.
  rewrite run_update. destruct (tbl w t !! k) as [r0|]; [|done].
  intros (-> & -> & HA)%write_row_ok. by exists r0.
Qed.
End client.

(** * A concrete client

    Rows in key order, identifiers one character longer than any in use, and
    exactly the inadmissible writes refused, with the unique-constraint code. *)

Definition longest_key {A} (m : gmap string A) : string :=
  foldr (λ kv acc, if (String.length acc <? String.length kv.1)%nat then kv.1 else acc) "" (map_to_list m).

Definition fresh_key {A} (m : gmap string A) : string := String "c" (longest_key m).

Lemma longest_key_length {A} (m : gmap string A) k x :
  m !! k = Some x → (String.length k ≤ String.length (longest_key m))%nat.
Proof.
  intros H%elem_of_map_to_list. unfold longest_key.
  induction (map_to_list m) as [|[k' y] l IH]; simpl; [set_solver|].
  set (acc := foldr _ _ l) in *.
  destruct (Nat.ltb_spec (String.length acc) (String.length k'));
    apply elem_of_cons in H as [[= -> ->]|H]; try specialize (IH H); lia.
Qed.

Lemma fresh_key_fresh {A} (m : gmap string A) : m !! fresh_key m = None.
Proof.
  destruct (m !! fresh_key m) as [x|] eqn:E; [|done].
  apply longest_key_length in E. unfold fresh_key in E. simpl in E. lia.
Qed.

Definition ref_client : PrismaClient.
Proof.
  refine {| scan := λ t w, map snd (map_to_list (tbl w t));
            new_id := λ t w, fresh_key (tbl w t);
            refuse := λ t k r w, if admissible t k r w then None else Some "P2002" |}.
  - done.
  - intros t w. apply fresh_key_fresh.
  - intros t k r w. by destruct (admissible t k r w).
Defined.

Lemma ref_client_accepts t k r w :
  admissible t k r w = true → refuse (PrismaClient := ref_client) t k r w = None.
Proof. cbn. by intros ->. Qed.
