(* ===== verification/Infra.v ===== *)
(** The infrastructure services every handler uses
    ([apps/trustee-api/src/infra] and [events]): clock, audit trail, feature
    flags, signed event outbox, idempotency, bank balances and the on-chain
    issuance gateway.

    What lies outside the repository is the class [Runtime]: Node's crypto,
    UUIDs, date parsing, and the answers of the bank, PayChain and Horizon.
    [Env] is the configuration the process reads from its environment. *)
From S2P Require Import Prelude.
From S2P Require Import Prog.
From S2P Require Import Crypto.
From S2P Require Import Credentials.
From S2P Require Import Schema.
From S2P Require Import Prisma.
#[local] Open Scope string_scope.
#[local] Open Scope list_scope.
#[local] Open Scope Z_scope.

(** * Dates *)

Definition pad (n : nat) (z : Z) : string :=
  let s := big_to_string z in
  String.concat "" (repeat "0" (n - String.length s)) +:+ s.

(** Proleptic Gregorian date of a day number counted from 1970-01-01. *)
Definition civil_of_days (days : Z) : Z * Z * Z :=
  let z := days + 719468 in
  let era := z / 146097 in
  let doe := z mod 146097 in
  let yoe := (doe - doe / 1460 + doe / 36524 - doe / 146096) / 365 in
  let doy := doe - (365 * yoe + yoe / 4 - yoe / 100) in
  let mp := (5 * doy + 2) / 153 in
  let d := doy - (153 * mp + 2) / 5 + 1 in
  let m := if mp <? 10 then mp + 3 else mp - 9 in
  (yoe + era * 400 + (if m <=? 2 then 1 else 0), m, d).

Definition year_string (y : Z) : string :=
  if (0 <=? y) && (y <=? 9999) then pad 4 y
  else (if y <? 0 then "-" else "+") +:+ pad 6 (Z.abs y).

(** [date.toISOString()] *)
Definition toISOString (ms : Z) : string :=
  let '(y, m, d) := civil_of_days (ms / 86400000) in
  let r := ms mod 86400000 in
  year_string y +:+ "-" +:+ pad 2 m +:+ "-" +:+ pad 2 d +:+ "T" +:+
  pad 2 (r / 3600000) +:+ ":" +:+ pad 2 (r / 60000 mod 60) +:+ ":" +:+
  pad 2 (r / 1000 mod 60) +:+ "." +:+ pad 3 (r mod 1000) +:+ "Z".

Example toISOString_examples :
  (toISOString 0, toISOString 951782399999, toISOString 1735689600123) =
  ("1970-01-01T00:00:00.000Z", "2000-02-28T23:59:59.999Z", "2025-01-01T00:00:00.123Z").
Proof. vm_compute. reflexivity. Qed.

(** * The outside world *)

Record BankAccountBalance : Type := mkBankAccountBalance {
  bab_clearedMinor : string;
  bab_currency : string
}.

Record IssuanceExecutionRequest : Type := mkIssuanceExecutionRequest {
  ier_operation : string; ier_authorizationId : string; ier_assetCode : string;
  ier_destination : string; ier_amountMinor : string; ier_decimals : Z; ier_currency : string;
  ier_reference : string; ier_signature : option Signature
}.

Record IssuanceExecutionResult : Type := mkIssuanceExecutionResult {
  accepted : bool;
  ier_status : string;
  paychainReference : option string;
  onChainTxHash : option string
}.

(** The balances of one Horizon asset record, as decimal strings. *)
Record HorizonAssetRecord : Type := mkHorizonAssetRecord {
  authorized : string; authorized_to_maintain_liabilities : string; unauthorized : string;
  claimable_balances_amount : option string; liquidity_pools_amount : option string;
  contracts_amount : option string; paging_token : string
}.

(** The last argument of a call is the number of calls made before it, so two
    calls with the same arguments may be answered differently. *)
Class Runtime : Type := {
  #[global] runtime_crypto :: NodeCrypto;
  #[global] runtime_auth :: NodeAuth;
  uuid : nat → string;
  date_parse : string → option Z;
  bank_api : string → option string → string → nat → outcome BankAccountBalance;
  paychain_execute : string → IssuanceExecutionRequest → nat → outcome IssuanceExecutionResult;
  horizon_asset : string → string → string → nat → outcome (option HorizonAssetRecord);
  webhook_post : string → string → list (string * string) → nat → bool * option Z * option string;
  (** [res.ok] of Resend, or [None] when [fetch] throws *)
  resend_api : list string → string → string → nat → option bool;
  (** the status of a probe of a receiver, or the message of the error *)
  webhook_probe : string → nat → outcome Z
}.

Record Env : Type := mkEnv {
  signing : SigningService;
  process_env : string → option string;
  MAX_RESERVE_SNAPSHOT_AGE_S : Z;
  MAX_BANK_CONNECTIVITY_AGE_S : Z;
  MAX_LIABILITY_FEED_AGE_S : Z;
  MAX_PROOF_OF_RESERVE_AGE_S : option Z;
  MINT_AUTH_TTL_S : Z;
  WEBHOOK_MAX_ATTEMPTS : Z;
  WEBHOOK_BATCH_SIZE : nat;
  SESSION_SECRET : string;
  SESSION_TTL_SECONDS : Z;
  ENFORCE_OPERATOR_MFA : bool;
  PASSWORD_RESET_TTL_SECONDS : Z;
  TRUSTEE_PUBLIC_URL : string;
  MAX_REQUEST_SKEW_SECONDS : Z;
  NOTIFY_TO : list string;
  RESERVE_CYCLE_INTERVAL_MS : Z;
  DEADLETTER_ALERT_INTERVAL_MS : Z;
  FEED_STALE_SECONDS : Z
}.

(** [s ? ... : ...] on an optional string: the empty string is falsy. *)
Definition truthy (o : option string) : option string :=
  match o with
  | Some s => if bool_decide (s = "") then None else Some s
  | None => None
  end.

Definition js_of_opt (o : option string) : jsval := match o with Some s => JStr s | None => JNull end.
Definition js_undef (o : option string) : jsval := match o with Some s => JStr s | None => JUndefined end.
Definition js_big (z : Z) : jsval := JStr (big_to_string z).
Definition js_result (id status : string) : jsval := JObj [("id", JStr id); ("status", JStr status)].

(** * Audit trail *)

Record AuditRecord : Type := mkAuditRecord {
  ar_actor : string; ar_actorRole : option string; ar_action : string; ar_subjectType : string;
  ar_subjectId : option string; ar_beforeState : jsval; ar_afterState : jsval;
  ar_reason : option string; ar_approvalRef : option string; ar_correlationId : option string;
  ar_ip : option string; ar_device : option string
}.

(** The record with the four fields most callers give, and the optional ones. *)
Definition audited (actor action subjectType subjectId : string) : AuditRecord :=
  mkAuditRecord actor None action subjectType (Some subjectId) JUndefined JUndefined
    None None None None None.
Definition with_role (s : string) (a : AuditRecord) : AuditRecord :=
  mkAuditRecord (ar_actor a) (Some s) (ar_action a) (ar_subjectType a) (ar_subjectId a)
    (ar_beforeState a) (ar_afterState a) (ar_reason a) (ar_approvalRef a) (ar_correlationId a)
    (ar_ip a) (ar_device a).
Definition with_before (v : jsval) (a : AuditRecord) : AuditRecord :=
  mkAuditRecord (ar_actor a) (ar_actorRole a) (ar_action a) (ar_subjectType a) (ar_subjectId a)
    v (ar_afterState a) (ar_reason a) (ar_approvalRef a) (ar_correlationId a)
    (ar_ip a) (ar_device a).
Definition with_after (v : jsval) (a : AuditRecord) : AuditRecord :=
  mkAuditRecord (ar_actor a) (ar_actorRole a) (ar_action a) (ar_subjectType a) (ar_subjectId a)
    (ar_beforeState a) v (ar_reason a) (ar_approvalRef a) (ar_correlationId a)
    (ar_ip a) (ar_device a).
Definition with_reason (o : option string) (a : AuditRecord) : AuditRecord :=
  mkAuditRecord (ar_actor a) (ar_actorRole a) (ar_action a) (ar_subjectType a) (ar_subjectId a)
    (ar_beforeState a) (ar_afterState a) o (ar_approvalRef a) (ar_correlationId a)
    (ar_ip a) (ar_device a).
Definition with_approval (s : string) (a : AuditRecord) : AuditRecord :=
  mkAuditRecord (ar_actor a) (ar_actorRole a) (ar_action a) (ar_subjectType a) (ar_subjectId a)
    (ar_beforeState a) (ar_afterState a) (ar_reason a) (Some s) (ar_correlationId a)
    (ar_ip a) (ar_device a).
Definition with_correlation (o : option string) (a : AuditRecord) : AuditRecord :=
  mkAuditRecord (ar_actor a) (ar_actorRole a) (ar_action a) (ar_subjectType a) (ar_subjectId a)
    (ar_beforeState a) (ar_afterState a) (ar_reason a) (ar_approvalRef a) o
    (ar_ip a) (ar_device a).

(** [toJson]: no value for [undefined] and [null], bigints as strings. *)
Definition toJson (v : jsval) : option jsval :=
  match v with
  | JUndefined | JNull => None
  | v => Some (json_roundtrip_value v)
  end.

(** * Events *)

Inductive PlatformEvent : Type :=
| FUNDING_INSTRUCTION_CREATED | DEPOSIT_DETECTED | DEPOSIT_CLEARED | DEPOSIT_MATCHED
| DEPOSIT_HELD | DEPOSIT_REJECTED | RESERVE_SNAPSHOT_CREATED | RESERVE_SHORTFALL_DETECTED
| RESERVE_RESTORED | MINT_AUTHORIZATION_APPROVED | MINT_AUTHORIZATION_REJECTED
| MINT_AUTHORIZATION_EXPIRED | MINT_CONFIRMED | REDEMPTION_APPROVED
| REDEMPTION_BURN_CONFIRMED | REDEMPTION_PAYOUT_SUBMITTED | REDEMPTION_PAYOUT_CONFIRMED
| REDEMPTION_COMPLETED | RECONCILIATION_EXCEPTION_CREATED | COMPLIANCE_HOLD_CREATED
| PROGRAM_SUSPENDED_EVENT | ASSET_SUSPENDED.

Definition PlatformEvent_name (e : PlatformEvent) : string :=
  match e with
  | FUNDING_INSTRUCTION_CREATED => "funding.instruction.created"
  | DEPOSIT_DETECTED => "deposit.detected"
  | DEPOSIT_CLEARED => "deposit.cleared"
  | DEPOSIT_MATCHED => "deposit.matched"
  | DEPOSIT_HELD => "deposit.held"
  | DEPOSIT_REJECTED => "deposit.rejected"
  | RESERVE_SNAPSHOT_CREATED => "reserve.snapshot.created"
  | RESERVE_SHORTFALL_DETECTED => "reserve.shortfall.detected"
  | RESERVE_RESTORED => "reserve.restored"
  | MINT_AUTHORIZATION_APPROVED => "mint.authorization.approved"
  | MINT_AUTHORIZATION_REJECTED => "mint.authorization.rejected"
  | MINT_AUTHORIZATION_EXPIRED => "mint.authorization.expired"
  | MINT_CONFIRMED => "mint.confirmed"
  | REDEMPTION_APPROVED => "redemption.approved"
  | REDEMPTION_BURN_CONFIRMED => "redemption.burn.confirmed"
  | REDEMPTION_PAYOUT_SUBMITTED => "redemption.payout.submitted"
  | REDEMPTION_PAYOUT_CONFIRMED => "redemption.payout.confirmed"
  | REDEMPTION_COMPLETED => "redemption.completed"
  | RECONCILIATION_EXCEPTION_CREATED => "reconciliation.exception.created"
  | COMPLIANCE_HOLD_CREATED => "compliance.hold.created"
  | PROGRAM_SUSPENDED_EVENT => "program.suspended"
  | ASSET_SUSPENDED => "asset.suspended"
  end.

Inductive PaykhEvent : Type :=
| PAYMENT_DETECTED | PAYMENT_CONFIRMED | PAYMENT_REJECTED | PAYMENT_DUPLICATE | PAYMENT_REFUNDED
| PROFILE_VERIFIED | PROFILE_SUSPENDED_EVENT | PROGRAM_FUND_CLEARED | PROGRAM_FUND_LOW
| PROGRAM_FUND_EXHAUSTED | SETTLEMENT_APPROVED_EVENT | SETTLEMENT_SUBMITTED_EVENT
| SETTLEMENT_CONFIRMED_EVENT | RECONCILIATION_EXCEPTION | TENANT_SUSPENDED | LOYALTY_ISSUED
| LOYALTY_REDEEMED | LOYALTY_RECONCILED | LOYALTY_RESERVE_DRIFT.

Definition PaykhEvent_name (e : PaykhEvent) : string :=
  match e with
  | PAYMENT_DETECTED => "paykh.payment.detected"
  | PAYMENT_CONFIRMED => "paykh.payment.confirmed"
  | PAYMENT_REJECTED => "paykh.payment.rejected"
  | PAYMENT_DUPLICATE => "paykh.payment.duplicate"
  | PAYMENT_REFUNDED => "paykh.payment.refunded"
  | PROFILE_VERIFIED => "paykh.payment-profile.verified"
  | PROFILE_SUSPENDED_EVENT => "paykh.payment-profile.suspended"
  | PROGRAM_FUND_CLEARED => "paykh.program-fund.cleared"
  | PROGRAM_FUND_LOW => "paykh.program-fund.low"
  | PROGRAM_FUND_EXHAUSTED => "paykh.program-fund.exhausted"
  | SETTLEMENT_APPROVED_EVENT => "paykh.settlement.approved"
  | SETTLEMENT_SUBMITTED_EVENT => "paykh.settlement.submitted"
  | SETTLEMENT_CONFIRMED_EVENT => "paykh.settlement.confirmed"
  | RECONCILIATION_EXCEPTION => "paykh.reconciliation.exception"
  | TENANT_SUSPENDED => "paykh.tenant.suspended"
  | LOYALTY_ISSUED => "paykh.loyalty.issued"
  | LOYALTY_REDEEMED => "paykh.loyalty.redeemed"
  | LOYALTY_RECONCILED => "paykh.loyalty.reconciled"
  | LOYALTY_RESERVE_DRIFT => "paykh.loyalty.reserve-drift"
  end.

Section infra.
Context `{RT : !Runtime} `{PC : !PrismaClient} (env : Env).

(** ** Clock *)

Definition now : prog World Z := read clock.
Definition nowIso : prog World string := read (λ w, toISOString (clock w)).
Definition age_seconds (now since : Z) : Z := Z.max 0 ((now - since) / 1000).
Definition ageSeconds (since : Z) : prog World Z := read (λ w, age_seconds (clock w) since).

Definition randomUUID : prog World string :=
  action (λ w, (Ok (uuid (uuids w)), set_uuids (S (uuids w)) w)).

(** [new Date(s)] where it is stored: an invalid date is refused by the client. *)
Definition new_Date (s : string) : prog World Z :=
  or_throw (date_parse s) (PrismaError "P2007").

(** ** Audit *)

Definition audit_record (e : AuditRecord) : prog World unit :=
  _ ← create TAuditLog (λ k now,
        {| AuditLog.id := k; AuditLog.actor := ar_actor e; AuditLog.actorRole := ar_actorRole e;
           AuditLog.action := ar_action e; AuditLog.subjectType := ar_subjectType e;
           AuditLog.subjectId := ar_subjectId e; AuditLog.beforeState := toJson (ar_beforeState e);
           AuditLog.afterState := toJson (ar_afterState e); AuditLog.reason := ar_reason e;
           AuditLog.approvalRef := ar_approvalRef e; AuditLog.ip := ar_ip e;
           AuditLog.device := ar_device e; AuditLog.correlationId := ar_correlationId e;
           AuditLog.sourceSystem := Some "trustee-api"; AuditLog.createdAt := now |});
  mret tt.

(** ** Feature flags *)

Definition isEnabled (key : string) (fallback : bool) : prog World bool :=
  flag ← find_unique TFeatureFlag key;
  mret (match flag with Some f => FeatureFlag.enabled f | None => fallback end).

Definition requireEnabled (key : string) : prog World unit :=
  b ← isEnabled key false;
  throw_if (negb b) (JsError "Error" ("Feature " +:+ key +:+ " is disabled")).

Definition set_flag (key : string) (enabled : bool) (updatedBy : string) : prog World unit :=
  _ ← upsert_at TFeatureFlag key
        (λ f, FeatureFlag.set_updatedBy (Some updatedBy) (FeatureFlag.set_enabled enabled f))
        (λ _, {| FeatureFlag.key := key; FeatureFlag.enabled := enabled;
                 FeatureFlag.description := None; FeatureFlag.updatedBy := Some updatedBy |});
  mret tt.

(** ** Outbox *)

Definition outbox_row (eventType target : string) (payload : jsval) (artifact : option string)
    (s : Signature) (k : string) (now seq : Z) : OutboxEvent.t :=
  {| OutboxEvent.id := k; OutboxEvent.eventType := eventType; OutboxEvent.targetPlatform := target;
     OutboxEvent.sequence := seq; OutboxEvent.payload := json_roundtrip_value payload;
     OutboxEvent.artifact := artifact; OutboxEvent.signatureKeyId := keyId s;
     OutboxEvent.signatureValue := value s; OutboxEvent.deliveredAt := None;
     OutboxEvent.attempts := 0; OutboxEvent.deadLettered := false; OutboxEvent.createdAt := now |}.

Definition publish_named (eventType : string) (payload : jsval) (target : string) : prog World string :=
  s ← lift (sign (signing env) WEBHOOK
         (JObj [("eventType", JStr eventType); ("targetPlatform", JStr target); ("payload", payload)]));
  e ← create_seq TOutboxEvent (outbox_row eventType target payload None s);
  mret (OutboxEvent.id e).

Definition publish (e : PlatformEvent) (payload : jsval) : prog World string :=
  publish_named (PlatformEvent_name e) payload "PAYCHAIN".

Definition publishToPaykh (e : PaykhEvent) (payload : jsval) : prog World string :=
  publish_named (PaykhEvent_name e) payload "PAYKH".

Definition publishWithArtifact (e : PlatformEvent) (payload artifact : jsval) (p : SigningPurpose) :
    prog World string :=
  let artifactStr := canonicalize artifact in
  s ← lift (sign (signing env) p artifact);
  ev ← create_seq TOutboxEvent
         (outbox_row (PlatformEvent_name e) "PAYCHAIN" payload (Some artifactStr) s);
  mret (OutboxEvent.id ev).

(** ** Idempotency *)

Definition IdempotencyConflictError (key : string) : exn :=
  JsError "IdempotencyConflictError"
    ("Idempotency key " +:+ key +:+ " was reused with a different request body").

(** [IdempotencyService.run]: the pair is [{ replayed, value }].  The stored
    value is the JSON image of the response. *)
Definition idempotent (key : option string) (route : string) (body : jsval)
    (fn : prog World jsval) : prog World (bool * jsval) :=
  match truthy key with
  | None => value ← fn; mret (false, value)
  | Some key =>
      let requestHash := sha256Hex (canonicalize body) in
      existing ← find_unique TIdempotencyKey key;
      match existing with
      | Some e =>
          throw_if (negb (bool_decide (IdempotencyKey.requestHash e = requestHash)))
            (IdempotencyConflictError key);;
          mret (true, IdempotencyKey.responseBody e)
      | None =>
          value ← fn;
          _ ← create_at TIdempotencyKey key (λ now,
                {| IdempotencyKey.key := key; IdempotencyKey.route := route;
                   IdempotencyKey.requestHash := requestHash;
                   IdempotencyKey.responseCode := 200;
                   IdempotencyKey.responseBody := json_roundtrip_value value;
                   IdempotencyKey.createdAt := now |});
          mret (false, value)
      end
  end.

(** ** Bank balances *)

Record BankBalanceResult : Type := mkBankBalanceResult {
  bb_minor : Z; bb_currency : string; bb_source : string; bb_bankId : option string
}.

Definition getAccountBalance (baseUrl : string) (token : option string) (ref : string) :
    prog World BankAccountBalance :=
  action (λ w, (bank_api baseUrl token ref (calls w), set_calls (S (calls w)) w)).

Definition clearedBalanceForAccount (acc : TrusteeAccount.t) : prog World (option BankBalanceResult) :=
  conn ← (match truthy (TrusteeAccount.bankId acc) with
          | Some b => find_first TBankConnection (λ c, bool_decide (BankConnection.bankId c = b))
          | None => mret None
          end);
  let mode := match conn with Some c => BankConnection.integrationMode c | None => "MOCK" end in
  let col {A} (f : BankConnection.t → option A) := match conn with Some c => f c | None => None end in
  match (if bool_decide (mode = "API") then col (λ c, truthy (BankConnection.baseUrl c)) else None) with
  | Some baseUrl =>
      let token := match col (λ c, truthy (BankConnection.authTokenEnv c)) with
                   | Some v => process_env env v
                   | None => None
                   end in
      res ← getAccountBalance baseUrl token (TrusteeAccount.coreBankingRef acc);
      action (λ w, (Ok tt, set_lastSuccessfulCheck (Some (clock w)) w));;
      m ← lift (BigInt (bab_clearedMinor res));
      mret (Some {| bb_minor := m;
                    bb_currency := if bool_decide (bab_currency res = "") then TrusteeAccount.currency acc
                                   else bab_currency res;
                    bb_source := "api"; bb_bankId := TrusteeAccount.bankId acc |})
  | None =>
      if bool_decide (mode = "MOCK") then
        mret (Some {| bb_minor := TrusteeAccount.mockClearedMinor acc;
                      bb_currency := TrusteeAccount.currency acc; bb_source := "mock";
                      bb_bankId := TrusteeAccount.bankId acc |})
      else mret None
  end.

Definition lastCheckAgeSeconds : prog World (option Z) :=
  read (λ w, age_seconds (clock w) <$> lastSuccessfulCheck w).

(** ** Notifications *)

(** [NotificationService.notify]: without a Resend key the message is logged, and
    a failed call is logged and swallowed. *)
Definition notify (subject text : string) (toOverride : option string) : prog World bool :=
  let recipients := match truthy toOverride with Some t => [t] | None => NOTIFY_TO env end in
  match truthy (process_env env "RESEND_API_KEY") with
  | None => mret false
  | Some _ =>
      res ← action (λ w, (Ok (resend_api recipients ("[Trustee] " +:+ subject) text (calls w)), set_calls (S (calls w)) w));
      mret (default false res)
  end.

(** [randomBytes(n)]: a fresh draw of the process's random source. *)
Definition randomBytes (n : nat) : prog World (list Z) :=
  action (λ w, (Ok (random_bytes n (uuids w)), set_uuids (S (uuids w)) w)).

(** ** Issuance gateway *)

Definition execute_issuance (req : IssuanceExecutionRequest) : prog World (IssuanceExecutionResult * bool) :=
  match truthy (process_env env "PAYCHAIN_ISSUANCE_URL") with
  | None =>
      let ref := "sim:" +:+ take_string 40 (sha256Hex (ier_operation req +:+ ":" +:+
                   ier_reference req +:+ ":" +:+ ier_amountMinor req)) in
      mret (mkIssuanceExecutionResult true "SIMULATED" (Some ref) None, true)
  | Some url =>
      res ← action (λ w, (paychain_execute url req (calls w), set_calls (S (calls w)) w));
      mret (res, false)
  end.
End infra.
