(* ===== verification/LedgerService.v ===== *)
(** Persistence of journal entries and account balances:
    [apps/trustee-api/src/modules/reserve/reserve-ledger.service.ts], with the
    invariant of the stored ledger. *)
From S2P Require Import Prelude.
From S2P Require Import Money.
From S2P Require Import Ledger.
From S2P Require Import Prog.
From S2P Require Import Schema.
From S2P Require Import Prisma.
#[local] Open Scope string_scope.
#[local] Open Scope list_scope.
#[local] Open Scope Z_scope.

(** * Frames *)

(** [w'] differs from [w] at most in the tables [ts] and in the counters. *)
Definition same_but (ts : list table) (w w' : World) : Prop :=
  (∀ t, t ∉ ts → tbl w' t = tbl w t) ∧
  clock w' = clock w ∧ lastSuccessfulCheck w' = lastSuccessfulCheck w.

Lemma same_but_refl ts w : same_but ts w w.
Proof. done. Qed.

Lemma same_but_trans ts w1 w2 w3 : same_but ts w1 w2 → same_but ts w2 w3 → same_but ts w1 w3.
Proof.
  intros (H1 & ? & ?) (H2 & ? & ?). split_and!; [|congruence..].
  intros t Ht. by rewrite H2, H1.
Qed.

Lemma same_but_weaken ts ts' w w' : ts ⊆ ts' → same_but ts w w' → same_but ts' w w'.
Proof. intros Hs (H1 & ? & ?). split_and!; [|done..]. intros t Ht. apply H1. set_solver. Qed.

Lemma same_but_tbl ts w w' t : same_but ts w w' → t ∉ ts → tbl w' t = tbl w t.
Proof. intros (H & _). apply H. Qed.

Lemma same_but_put t k r w : same_but [t] w (put t k r w).
Proof. split_and!; [|done..]. intros t' Ht. apply tbl_put_ne. set_solver. Qed.

Lemma same_but_put_in ts t k r w : t ∈ ts → same_but ts w (put t k r w).
Proof. intros Ht. eapply same_but_weaken; [|apply same_but_put]. set_solver. Qed.

Definition entry_row (e : JournalEntry) (k : string) (now : Z) : LedgerEntry.t :=
  {| LedgerEntry.id := k; LedgerEntry.programId := ref_programId (je_references e);
     LedgerEntry.assetId := ref_assetId (je_references e); LedgerEntry.currency := je_currency e;
     LedgerEntry.description := je_description e; LedgerEntry.source := ref_source (je_references e);
     LedgerEntry.actor := ref_actor (je_references e);
     LedgerEntry.approvalRef := ref_approvalRef (je_references e);
     LedgerEntry.correlationId := ref_correlationId (je_references e);
     LedgerEntry.reversalOf := je_reversalOf e;
     LedgerEntry.totalDebitMinor := minor (je_totalDebit e);
     LedgerEntry.totalCreditMinor := minor (je_totalCredit e); LedgerEntry.postedAt := now |}.

Definition posting_row (eid : string) (p : Posting) (k : string) : LedgerPosting.t :=
  {| LedgerPosting.id := k; LedgerPosting.entryId := eid; LedgerPosting.account := account p;
     LedgerPosting.debitMinor := minor (debit p); LedgerPosting.creditMinor := minor (credit p);
     LedgerPosting.memo := memo p |}.

(** The posting belongs to an entry of the program, in the currency. *)
Definition of_program (programId currency : string) (w : World) (p : LedgerPosting.t) : bool :=
  match tbl w TLedgerEntry !! LedgerPosting.entryId p with
  | Some e => bool_decide (LedgerEntry.programId e = programId) &&
              bool_decide (LedgerEntry.currency e = currency)
  | None => false
  end.

Definition posting_delta (dp : bool) (p : LedgerPosting.t) : Z :=
  if dp then LedgerPosting.debitMinor p - LedgerPosting.creditMinor p
  else LedgerPosting.creditMinor p - LedgerPosting.debitMinor p.

Definition ledger_tables : list table := [TLedgerEntry; TLedgerPosting].

Section ledger.
Context `{PC : !PrismaClient}.

Definition post (entry : JournalEntry) : prog World string :=
  transaction (
    created ← create TLedgerEntry (entry_row entry);
    for_each (je_postings entry) (λ p,
      _ ← create TLedgerPosting (λ k _, posting_row (LedgerEntry.id created) p k); mret tt);;
    mret (LedgerEntry.id created)).

Definition accountBalance (programId account currency : string) : prog World Money :=
  rows ← read (λ w, where_rows (λ p, bool_decide (LedgerPosting.account p = account) &&
                                     of_program programId currency w p) (scan TLedgerPosting w));
  type ← lift (ledgerAccountTypeOf account);
  let debitPositive := debit_positive type in
  let net := fold_left (λ net r, net + posting_delta debitPositive r) rows 0 in
  mret (money net currency).

Definition subledgerBalances (programId : string) : prog World (bool * Z) :=
  rows ← read (λ w, where_rows (λ p,
           match tbl w TLedgerEntry !! LedgerPosting.entryId p with
           | Some e => bool_decide (LedgerEntry.programId e = programId)
           | None => false
           end) (scan TLedgerPosting w));
  let net := fold_left (λ net r, net + (LedgerPosting.debitMinor r - LedgerPosting.creditMinor r)) rows 0 in
  mret (net =? 0, net).
End ledger.

(** * Specification *)

(** The balance of an account of a program, read off the tables. *)
Definition ledger_balance (w : World) (programId account currency : string) : Z :=
  match ledgerAccountTypeOf account with
  | Ok t => map_sum (λ p, if bool_decide (LedgerPosting.account p = account) && of_program programId currency w p
                          then posting_delta (debit_positive t) p else 0) (tbl w TLedgerPosting)
  | Err _ => 0
  end.

Definition entry_debits (w : World) (eid : string) : Z :=
  map_sum (λ p, if bool_decide (LedgerPosting.entryId p = eid) then LedgerPosting.debitMinor p else 0)
    (tbl w TLedgerPosting).
Definition entry_credits (w : World) (eid : string) : Z :=
  map_sum (λ p, if bool_decide (LedgerPosting.entryId p = eid) then LedgerPosting.creditMinor p else 0)
    (tbl w TLedgerPosting).

(** The stored ledger: every posting belongs to a stored entry, is one-sided and
    positive; every entry balances and its totals are those of its postings. *)
Record ledger_ok (w : World) : Prop := {
  ledger_posting_entry k p :
    tbl w TLedgerPosting !! k = Some p →
    is_Some (tbl w TLedgerEntry !! LedgerPosting.entryId p) ∧
    ((0 < LedgerPosting.debitMinor p ∧ LedgerPosting.creditMinor p = 0) ∨
     (LedgerPosting.debitMinor p = 0 ∧ 0 < LedgerPosting.creditMinor p));
  ledger_entry_balanced k e :
    tbl w TLedgerEntry !! k = Some e →
    LedgerEntry.id e = k ∧ 0 < LedgerEntry.totalDebitMinor e ∧
    LedgerEntry.totalDebitMinor e = LedgerEntry.totalCreditMinor e ∧
    entry_debits w k = LedgerEntry.totalDebitMinor e ∧
    entry_credits w k = LedgerEntry.totalCreditMinor e
}.

(** A balanced entry of two or more well-formed postings moves a positive amount. *)
Lemma debits_positive c ps :
  Forall (posting_wf c) ps → (2 ≤ length ps)%nat → debits ps = credits ps → 0 < debits ps.
Proof.
  unfold debits, credits. intros Hwf Hlen Hbal.
  assert (0 ≤ sumZ (λ p, minor (debit p)) ps).
  { apply sumZ_nonneg. intros p Hp. rewrite Forall_forall in Hwf.
    destruct (Hwf p Hp) as (_ & _ & ? & _). lia. }
  assert (0 < sumZ (λ p, minor (debit p) + minor (credit p)) ps).
  { destruct ps as [|p ps]; [simpl in Hlen; lia|]. simpl.
    apply Forall_cons in Hwf as [(_ & _ & ? & _) Hwf].
    assert (0 ≤ sumZ (λ p, minor (debit p) + minor (credit p)) ps); [|lia].
    apply sumZ_nonneg. intros q Hq. rewrite Forall_forall in Hwf.
    destruct (Hwf q Hq) as (_ & _ & ? & _). lia. }
  rewrite sumZ_add in *. lia.
Qed.

(** Postings [ps] of entry [eid] appended to the table [T], giving [T']. *)
Fixpoint postings_added (eid : string) (ps : list Posting) (T T' : gmap string LedgerPosting.t) : Prop :=
  match ps with
  | [] => T' = T
  | p :: ps' => ∃ k, T !! k = None ∧ postings_added eid ps' (<[k := posting_row eid p k]> T) T'
  end.

Lemma postings_added_sum eid ps T T' (f : LedgerPosting.t → Z) :
  (∀ p k k', f (posting_row eid p k) = f (posting_row eid p k')) →
  postings_added eid ps T T' →
  map_sum f T' = map_sum f T + sumZ (λ p, f (posting_row eid p "")) ps.
Proof.
  intros Hf. revert T. induction ps as [|p ps IH]; intros T; simpl.
  - intros ->. lia.
  - intros (k & Hk & H). rewrite (IH _ H), map_sum_insert_new, (Hf p k "") by done. lia.
Qed.

Lemma postings_added_subseteq eid ps T T' : postings_added eid ps T T' → T ⊆ T'.
Proof.
  revert T. induction ps as [|p ps IH]; intros T; simpl; [by intros ->|].
  intros (k & Hk & H). etrans; [|by apply IH]. by apply insert_subseteq.
Qed.

Lemma postings_added_elem eid ps T T' k r :
  postings_added eid ps T T' → T' !! k = Some r →
  T !! k = Some r ∨ ∃ p, p ∈ ps ∧ r = posting_row eid p k.
Proof.
  revert T. induction ps as [|p ps IH]; intros T; simpl; [intros ->; by left|].
  intros (k' & Hk' & H) Hr. destruct (IH _ H Hr) as [Hi|(q & Hq & ->)].
  - apply lookup_insert_Some in Hi as [[<- <-]|[_ Hi]]; [|by left].
    right. exists p. split; [left|done].
  - right. exists q. split; [by right|done].
Qed.

(** Every posting of the entry is stored. *)
Lemma postings_added_in eid ps T T' p :
  postings_added eid ps T T' → p ∈ ps → ∃ k, T' !! k = Some (posting_row eid p k).
Proof.
  revert T. induction ps as [|q ps IH]; intros T; [intros _ Hp; by apply not_elem_of_nil in Hp|].
  intros (k & Hk & HA) [->|Hp]%elem_of_cons; [|by apply (IH _ HA)].
  exists k. eapply lookup_weaken; [|by eapply postings_added_subseteq]. apply lookup_insert_eq.
Qed.

Section ledger_facts.
Context `{PC : !PrismaClient}.

Lemma fold_left_sumZ {A} (f : A → Z) l acc : fold_left (λ n x, n + f x) l acc = acc + sumZ f l.
Proof. revert acc. induction l as [|x l IH]; intros acc; simpl; [lia|]. rewrite IH. lia. Qed.

Lemma run_accountBalance p a c w t :
  ledgerAccountTypeOf a = Ok t →
  run (accountBalance p a c) w = (Ok (money (ledger_balance w p a c) c), w).
Proof.
  intros Ht. unfold accountBalance. rewrite run_bind, run_read, run_bind, run_lift, Ht.
  rewrite run_ret, fold_left_sumZ, (sumZ_where TLedgerPosting). unfold ledger_balance. by rewrite Ht.
Qed.

(** What a successful [post] does to the tables. *)
Definition posted (e : JournalEntry) (eid : string) (w w' : World) : Prop :=
  tbl w TLedgerEntry !! eid = None ∧
  same_but ledger_tables w w' ∧
  tbl w' TLedgerEntry = <[eid := entry_row e eid (clock w)]> (tbl w TLedgerEntry) ∧
  postings_added eid (je_postings e) (tbl w TLedgerPosting) (tbl w' TLedgerPosting).

Lemma run_postings eid ps w u w' :
  run (for_each ps (λ p, _ ← create TLedgerPosting (λ k _, posting_row eid p k); mret tt)) w = (Ok u, w') →
  same_but [TLedgerPosting] w w' ∧
  postings_added eid ps (tbl w TLedgerPosting) (tbl w' TLedgerPosting).
Proof.
  revert w. induction ps as [|p ps IH]; intros w; cbn [for_each postings_added].
  - intros [= _ <-]. done.
  - intros H. apply run_bind_ok in H as ([] & w1 & H1 & H2).
    apply run_bind_ok in H1 as (r & w2 & H1 & Hr). rewrite run_ret in Hr.
    injection Hr as ->. apply run_create_ok in H1 as (k & Hk & -> & -> & _).
    destruct (IH _ H2) as [Hs Ha]. rewrite tbl_put_same in Ha. split; [|by exists k].
    eapply same_but_trans; [apply same_but_put|done].
Qed.

Lemma run_post_ok e w eid w' : run (post e) w = (Ok eid, w') → posted e eid w w'.
Proof.
  unfold post. rewrite run_transaction.
  match goal with |- context [run ?p w] => destruct (run p w) as [[a|x] w2] eqn:H end; [|done].
  intros [= -> ->]. apply run_bind_ok in H as (r & w1 & H1 & H2).
  apply (run_create_ok TLedgerEntry) in H1 as (k & Hk & -> & -> & _).
  apply run_bind_ok in H2 as (u & w2 & H2 & H3). rewrite run_ret in H3.
  injection H3 as <- <-. apply run_postings in H2 as [Hs Ha]. cbn [LedgerEntry.id entry_row] in Ha, Hk |- *.
  split; [done|]. split; [|split].
  - eapply same_but_trans; [apply same_but_put_in; left|].
    eapply same_but_weaken; [|done]. unfold ledger_tables. set_solver.
  - rewrite (same_but_tbl _ _ _ TLedgerEntry Hs) by set_solver. apply tbl_put_same.
  - by rewrite tbl_put_ne in Ha.
Qed.

(** An entry that was stored fits its columns. *)
Lemma run_post_range e w eid w' :
  run (post e) w = (Ok eid, w') →
  in_int64 (minor (je_totalDebit e)) = true ∧ in_int64 (minor (je_totalCredit e)) = true.
Proof.
  unfold post. rewrite run_transaction.
  match goal with |- context [run ?p w] => destruct (run p w) as [[a|x] w2] eqn:H end; [|done].
  intros _. apply run_bind_ok in H as (r & w1 & H1 & _).
  apply (run_create_ok TLedgerEntry) in H1 as (k & _ & -> & _ & HA).
  by apply admissible_in_range, andb_true_iff in HA.
Qed.

Lemma run_post_err e w x w' : run (post e) w = (Err x, w') → w' = w.
Proof.
  unfold post. rewrite run_transaction.
  match goal with |- context [run ?p w] => destruct (run p w) as [[a|y] w2] end; [done|].
  by intros [= _ <-].
Qed.
End ledger_facts.

(** ** Balances after a posted entry *)

Lemma of_program_old e eid w w' p c k q :
  posted e eid w w' → ledger_ok w → tbl w TLedgerPosting !! k = Some q →
  of_program p c w' q = of_program p c w q.
Proof.
  intros (Hfresh & _ & HE & _) Hok Hk. unfold of_program. rewrite HE.
  destruct (ledger_posting_entry w Hok k q Hk) as [[e' He'] _].
  rewrite lookup_insert_ne; [done|]. intros ->. by rewrite Hfresh in He'.
Qed.

Lemma of_program_new e eid w w' p c q k :
  posted e eid w w' →
  of_program p c w' (posting_row eid q k) =
  bool_decide (ref_programId (je_references e) = p) && bool_decide (je_currency e = c).
Proof. intros (_ & _ & HE & _). unfold of_program. by rewrite HE, lookup_insert_eq. Qed.

(** The sum of any posting quantity over the new table is the sum over the old
    one plus the sum over the postings of the entry, when the old rows keep
    their value. *)
Lemma posted_sum e eid w w' (f f' : LedgerPosting.t → Z) :
  posted e eid w w' →
  (∀ p k k', f' (posting_row eid p k) = f' (posting_row eid p k')) →
  (∀ k q, tbl w TLedgerPosting !! k = Some q → f' q = f q) →
  map_sum f' (tbl w' TLedgerPosting) =
  map_sum f (tbl w TLedgerPosting) + sumZ (λ p, f' (posting_row eid p "")) (je_postings e).
Proof.
  intros (_ & _ & _ & HP) Hid Hold.
  rewrite (postings_added_sum _ _ _ _ f' Hid HP). f_equal. by apply map_sum_ext.
Qed.

Lemma ledger_balance_posted e eid w w' p a c t :
  posted e eid w w' → ledger_ok w → ledgerAccountTypeOf a = Ok t →
  ledger_balance w' p a c =
  ledger_balance w p a c +
  (if bool_decide (ref_programId (je_references e) = p) && bool_decide (je_currency e = c)
   then effect_on a (debit_positive t) (je_postings e) else 0).
Proof.
  intros HP Hok Ht. unfold ledger_balance. rewrite Ht.
  erewrite posted_sum; [|exact HP| |].
  - f_equal. unfold effect_on.
    destruct (bool_decide (ref_programId _ = p) && bool_decide (je_currency e = c)) eqn:E.
    + apply sumZ_ext. intros q _. cbn beta. rewrite (of_program_new _ _ _ _ _ _ _ _ HP), E, andb_true_r.
      simpl. by destruct (bool_decide (account q = a)).
    + rewrite (sumZ_ext _ (λ _, 0)).
      * induction (je_postings e); simpl; lia.
      * intros q _. cbn beta. by rewrite (of_program_new _ _ _ _ _ _ _ _ HP), E, andb_false_r.
  - intros q k k'. cbn beta. by rewrite !(of_program_new _ _ _ _ _ _ _ _ HP).
  - intros k q Hk. cbn beta. by rewrite (of_program_old _ _ _ _ p c _ _ HP Hok Hk).
Qed.

Lemma ledger_balance_frame ts w w' p a c :
  same_but ts w w' → TLedgerEntry ∉ ts → TLedgerPosting ∉ ts →
  ledger_balance w' p a c = ledger_balance w p a c.
Proof.
  intros Hs H1 H2. unfold ledger_balance, of_program.
  by rewrite (same_but_tbl _ _ _ _ Hs H1), (same_but_tbl _ _ _ _ Hs H2).
Qed.

Lemma ledger_ok_frame w w' :
  tbl w' TLedgerEntry = tbl w TLedgerEntry → tbl w' TLedgerPosting = tbl w TLedgerPosting →
  ledger_ok w → ledger_ok w'.
Proof.
  intros HE HP [H1 H2]. split; unfold entry_debits, entry_credits; rewrite HE, HP; [apply H1|apply H2].
Qed.

Lemma entry_sums_posted e eid w w' :
  posted e eid w w' → ledger_ok w →
  entry_debits w' eid = debits (je_postings e) ∧ entry_credits w' eid = credits (je_postings e) ∧
  ∀ k, k ≠ eid → entry_debits w' k = entry_debits w k ∧ entry_credits w' k = entry_credits w k.
Proof.
  intros HP Hok. pose proof HP as (Hfresh & _).
  assert (∀ k q, tbl w TLedgerPosting !! k = Some q → LedgerPosting.entryId q ≠ eid) as Hne.
  { intros k q Hk <-. destruct (ledger_posting_entry w Hok k q Hk) as [[? E] _]. by rewrite Hfresh in E. }
  unfold entry_debits, entry_credits. split; [|split].
  - rewrite (posted_sum _ _ _ _ (λ _, 0) _ HP), map_sum_zero; [|done|].
    + apply sumZ_ext. intros q _. cbn. by rewrite bool_decide_true.
    + intros k q Hk. by rewrite bool_decide_false by (by eapply Hne).
  - rewrite (posted_sum _ _ _ _ (λ _, 0) _ HP), map_sum_zero; [|done|].
    + apply sumZ_ext. intros q _. cbn. by rewrite bool_decide_true.
    + intros k q Hk. by rewrite bool_decide_false by (by eapply Hne).
  - intros k Hk. split.
    + erewrite (posted_sum _ _ _ _ _ _ HP); [|done|done]. rewrite (sumZ_ext _ (λ _, 0)), sumZ_zero; [lia|].
      intros q _. cbn. by rewrite bool_decide_false.
    + erewrite (posted_sum _ _ _ _ _ _ HP); [|done|done]. rewrite (sumZ_ext _ (λ _, 0)), sumZ_zero; [lia|].
      intros q _. cbn. by rewrite bool_decide_false.
Qed.

(** Posting a valid entry keeps the stored ledger consistent. *)
Lemma ledger_ok_posted e eid w w' :
  posted e eid w w' → entry_valid e → ledger_ok w → ledger_ok w'.
Proof.
  intros HP ((Hlen & _ & Hwf & Hbal) & Htd & Htc) Hok. simpl in *.
  destruct (entry_sums_posted _ _ _ _ HP Hok) as (Hd & Hc & Hother).
  pose proof HP as (Hfresh & _ & HE & HA). split.
  - intros k q Hk. destruct (postings_added_elem _ _ _ _ _ _ HA Hk) as [Hold|(p & Hp & ->)].
    + destruct (ledger_posting_entry w Hok k q Hold) as [[e' He'] Hside]. split; [|done].
      rewrite HE. destruct (decide (LedgerPosting.entryId q = eid)) as [->|Hne].
      * by rewrite lookup_insert_eq.
      * rewrite lookup_insert_ne by done. by exists e'.
    + rewrite HE. cbn. rewrite lookup_insert_eq. split; [by eexists|].
      rewrite Forall_forall in Hwf. by destruct (Hwf p Hp) as (_ & _ & ? & _).
  - intros k e' He'. rewrite HE in He'. apply lookup_insert_Some in He' as [[<- <-]|[Hne He']].
    + cbn. rewrite Htd, Htc, Hd, Hc. cbn. split_and!; [done| |lia..].
      apply (debits_positive (je_currency e)); [done|lia|done].
    + destruct (Hother k) as [-> ->]; [done|]. by apply (ledger_entry_balanced w Hok).
Qed.

(** ** Posting succeeds *)

Lemma posting_amount_le c ps p :
  Forall (posting_wf c) ps → p ∈ ps →
  0 ≤ minor (debit p) ≤ debits ps ∧ 0 ≤ minor (credit p) ≤ credits ps.
Proof.
  unfold debits, credits. intros Hwf Hp. rewrite Forall_forall in Hwf.
  destruct (Hwf p Hp) as (_ & _ & Hs & _).
  apply list_elem_of_split in Hp as (l1 & l2 & ->). rewrite !sumZ_app. cbn [sumZ].
  assert (∀ l (f : Posting → Z), (∀ q, q ∈ l → 0 ≤ f q) → 0 ≤ sumZ f l) as H by (intros; by apply sumZ_nonneg).
  pose proof (H l1 (λ p, minor (debit p))). pose proof (H l2 (λ p, minor (debit p))).
  pose proof (H l1 (λ p, minor (credit p))). pose proof (H l2 (λ p, minor (credit p))).
  assert (∀ q, q ∈ l1 ++ p :: l2 → 0 ≤ minor (debit q) ∧ 0 ≤ minor (credit q)) as Hn.
  { intros q Hq. destruct (Hwf q Hq) as (_ & _ & ? & _). lia. }
  assert (∀ q, q ∈ l1 → 0 ≤ minor (debit q) ∧ 0 ≤ minor (credit q)) by (intros; apply Hn; set_solver).
  assert (∀ q, q ∈ l2 → 0 ≤ minor (debit q) ∧ 0 ≤ minor (credit q)) by (intros; apply Hn; set_solver).
  naive_solver lia.
Qed.

(** The database takes the ledger rows that its constraints allow. *)
Definition takes_ledger_rows `{PC : !PrismaClient} : Prop :=
  ∀ t k r w, t ∈ [TLedgerEntry; TLedgerPosting] → admissible t k r w = true → refuse t k r w = None.

Section post_total.
Context `{PC : !PrismaClient} (accepts : takes_ledger_rows).

Lemma admissible_posting eid p k w :
  is_Some (tbl w TLedgerEntry !! eid) →
  in_int64 (minor (debit p)) = true → in_int64 (minor (credit p)) = true →
  admissible TLedgerPosting k (posting_row eid p k) w = true.
Proof.
  intros [e He] Hd Hc. unfold admissible. cbn [in_range posting_row LedgerPosting.debitMinor LedgerPosting.creditMinor].
  rewrite Hd, Hc, !andb_true_r. apply andb_true_iff; split.
  - apply negb_true_iff. unfold conflicts. induction (map_to_list _) as [|kr l IH]; [done|].
    cbn. by rewrite andb_false_r.
  - unfold references_exist. cbn. unfold has_row. by rewrite He.
Qed.

Lemma run_postings_total eid ps w :
  is_Some (tbl w TLedgerEntry !! eid) →
  Forall (λ p, in_int64 (minor (debit p)) = true ∧ in_int64 (minor (credit p)) = true) ps →
  ∃ w', run (for_each ps (λ p, _ ← create TLedgerPosting (λ k _, posting_row eid p k); mret tt)) w = (Ok tt, w').
Proof.
  revert w. induction ps as [|p ps IH]; intros w He Hps; [by exists w|].
  apply Forall_cons in Hps as [[Hd Hc] Hps]. cbn [for_each].
  change (prog_bind ?p ?k) with (p ≫= k). rewrite !run_bind, (run_create TLedgerPosting), (write_row_accepted TLedgerPosting).
  - rewrite run_ret. apply IH; [|done]. by rewrite tbl_put_ne.
  - apply accepts; [set_solver|by apply admissible_posting].
Qed.

Lemma run_post_total e w :
  entry_valid e → in_int64 (minor (je_totalDebit e)) = true →
  ∃ eid w', run (post e) w = (Ok eid, w').
Proof.
  intros ((Hlen & _ & Hwf & Hbal) & Htd & Htc) Hr. simpl in Hwf, Hbal. unfold post.
  rewrite run_transaction, run_bind, (run_create TLedgerEntry), (write_row_accepted TLedgerEntry).
  - cbn [LedgerEntry.id entry_row]. rewrite run_bind.
    match goal with |- context [run (for_each _ _) ?w1] =>
      destruct (run_postings_total (new_id TLedgerEntry w) (je_postings e) w1) as [w2 ->] end.
    + rewrite tbl_put_same, lookup_insert_eq. by eexists.
    + apply Forall_forall. intros p Hp.
      destruct (posting_amount_le _ _ _ Hwf Hp). rewrite Htd in Hr. cbn in Hr.
      unfold in_int64, int64_min, int64_max in *. lia.
    + rewrite run_ret. by eexists _, _.
  - apply accepts; [set_solver|]. unfold admissible. cbn [in_range entry_row LedgerEntry.totalDebitMinor LedgerEntry.totalCreditMinor].
    assert (minor (je_totalCredit e) = minor (je_totalDebit e)) as -> by (rewrite Htd, Htc; cbn; lia).
    rewrite Hr, !andb_true_r. apply negb_true_iff. unfold conflicts.
    induction (map_to_list _) as [|kr l IH]; [done|]. cbn. by rewrite andb_false_r.
Qed.
End post_total.

(** * Properties *)

(** Posting.  On a consistent stored ledger, posting a valid entry
    whose total fits a 64-bit column succeeds if the database takes the rows, keeps the ledger consistent,
    keeps every stored entry and posting, and changes the balance of every
    account of the entry's program and currency by exactly the entry's effect
    on that account, and no other balance. *)
Theorem post_moves_balances `{PC : !PrismaClient} (e : JournalEntry) (w : World)
    (accepts : takes_ledger_rows) (He : entry_valid e) (Hw : ledger_ok w)
    (Hrange : in_int64 (minor (je_totalDebit e)) = true) :
  ∃ eid w', run (post e) w = (Ok eid, w') ∧ ledger_ok w' ∧
    tbl w TLedgerEntry ⊆ tbl w' TLedgerEntry ∧ tbl w TLedgerPosting ⊆ tbl w' TLedgerPosting ∧
    ∀ p a c t, ledgerAccountTypeOf a = Ok t →
      ∃ b, run (accountBalance p a c) w = (Ok (money b c), w) ∧
        run (accountBalance p a c) w' =
          (Ok (money (b + if bool_decide (ref_programId (je_references e) = p) && bool_decide (je_currency e = c)
                          then effect_on a (debit_positive t) (je_postings e) else 0) c), w').
Proof.
  destruct (run_post_total accepts e w He Hrange) as (eid & w' & Hrun). exists eid, w'.
  pose proof (run_post_ok _ _ _ _ Hrun) as HP. pose proof HP as (Hfresh & _ & HE & HA).
  split; [done|]. split; [by eapply ledger_ok_posted|]. split.
  { rewrite HE. by apply insert_subseteq. }
  split; [by eapply postings_added_subseteq|].
  intros p a c t Ht. exists (ledger_balance w p a c).
  rewrite !(run_accountBalance _ _ _ _ t Ht). split; [done|].
  by rewrite (ledger_balance_posted _ _ _ _ _ _ _ _ HP Hw Ht).
Qed.

Lemma ledger_ok_empty : ledger_ok empty_world.
Proof. split; intros k x H; cbn in H; by rewrite lookup_empty in H. Qed.

Lemma post_moves_balances_witness :
  ∃ eid w', run (post (PC := ref_client) sample_entry) empty_world = (Ok eid, w') ∧ ledger_ok w'.
Proof.
  destruct (@post_moves_balances ref_client sample_entry empty_world) as (eid & w' & H1 & H2 & _).
  - intros t k r w _. apply ref_client_accepts.
  - eapply buildJournalEntry_valid. apply sample_entry_built.
  - apply ledger_ok_empty.
  - vm_compute. reflexivity.
  - exists eid, w'. split; [exact H1 | exact H2].
Defined.

(** Summed over all the postings of a program, debits equal credits. *)
Lemma subledger_net_zero w programId :
  ledger_ok w →
  map_sum (λ p, if match tbl w TLedgerEntry !! LedgerPosting.entryId p with
                   | Some e => bool_decide (LedgerEntry.programId e = programId) | None => false end
                then LedgerPosting.debitMinor p - LedgerPosting.creditMinor p else 0)
    (tbl w TLedgerPosting) = 0.
Proof.
  intros Hok.
  set (val := λ p, LedgerPosting.debitMinor p - LedgerPosting.creditMinor p).
  assert (∀ (E : gmap string LedgerEntry.t) T,
    (∀ k e, E !! k = Some e →
       map_sum (λ p, if bool_decide (LedgerPosting.entryId p = k) then val p else 0) T = 0) →
    map_sum (λ p, if match E !! LedgerPosting.entryId p with
                     | Some e => bool_decide (LedgerEntry.programId e = programId) | None => false end
                  then val p else 0) T = 0) as H.
  { intros E T. induction E as [|k e E Hk IH] using map_ind; intros HE.
    - rewrite (map_sum_ext _ (λ _, 0)); [apply map_sum_zero|]. intros. by rewrite lookup_empty.
    - assert (map_sum (λ p, if match E !! LedgerPosting.entryId p with
          | Some e => bool_decide (LedgerEntry.programId e = programId) | None => false end
          then val p else 0) T = 0) as IH'.
      { apply IH. intros k' e' Hk'. apply (HE k' e'). rewrite lookup_insert_ne; [done|]. congruence. }
      pose proof (HE k e (lookup_insert_eq _ _ _)) as Hke.
      destruct (bool_decide (LedgerEntry.programId e = programId)) eqn:Ee.
      + etransitivity; [|exact (f_equal2 Z.add Hke IH')].
        unfold map_sum. rewrite <- sumZ_add. apply sumZ_ext.
        intros [k' p] _. cbn [snd].
        destruct (decide (LedgerPosting.entryId p = k)) as [Ep|Ep].
        * rewrite Ep, lookup_insert_eq, Ee, Hk, bool_decide_true by done. lia.
        * rewrite lookup_insert_ne, bool_decide_false by done. lia.
      + etransitivity; [|exact IH']. apply map_sum_ext. intros k' p _.
        destruct (decide (k = LedgerPosting.entryId p)) as [Ep|Ep].
        * rewrite <- Ep, lookup_insert_eq, Ee, Hk. done.
        * by rewrite lookup_insert_ne. }
  apply H. intros k e He.
  destruct (ledger_entry_balanced w Hok k e He) as (_ & _ & Ht & Hd & Hc).
  unfold entry_debits, entry_credits in *.
  rewrite (map_sum_ext _ (λ p, (if bool_decide (LedgerPosting.entryId p = k) then LedgerPosting.debitMinor p else 0)
     - (if bool_decide (LedgerPosting.entryId p = k) then LedgerPosting.creditMinor p else 0))).
  - rewrite map_sum_sub, Hd, Hc. lia.
  - intros k' p _. case_bool_decide; unfold val; lia.
Qed.

(** [subledgerBalances] answers that a consistent ledger balances. *)
Lemma run_subledgerBalances `{PC : !PrismaClient} programId w :
  ledger_ok w → run (subledgerBalances programId) w = (Ok (true, 0), w).
Proof.
  intros Hok. unfold subledgerBalances. rewrite run_bind, run_read, run_ret.
  rewrite (fold_left_sumZ (λ r, LedgerPosting.debitMinor r - LedgerPosting.creditMinor r)).
  rewrite (sumZ_where TLedgerPosting), Z.add_0_l. pose proof (subledger_net_zero w programId Hok) as E.
  rewrite (map_sum_ext _ (λ p, if match tbl w TLedgerEntry !! LedgerPosting.entryId p with
                   | Some e => bool_decide (LedgerEntry.programId e = programId) | None => false end
                then LedgerPosting.debitMinor p - LedgerPosting.creditMinor p else 0)); [by rewrite E|done].
Qed.
