(* ===== verification/Invariant.v ===== *)
(** What every handler relies on and guarantees.

    [good] is the invariant of the database and [later] the relation along which
    any handler moves it: rows are never removed (roles and approval policies
    apart), journals, audit records and confirmations never change, the
    identity, amount and currency of a record never change, and evidence once
    recorded (a burn hash, an approver, a matched bank transaction) stays
    recorded.  Each service file proves that its handlers are [safe] for these
    two, so the facts of [row_inv] hold under every interleaving of requests and
    every crash between two database calls. *)
From S2P Require Import Prelude.
From S2P Require Import Money.
From S2P Require Import Domain.
From S2P Require Import Ledger.
From S2P Require Import Prog.
From S2P Require Import Crypto.
From S2P Require Import Schema.
From S2P Require Import Prisma.
From S2P Require Import Infra.
From S2P Require Import LedgerService.
#[local] Open Scope string_scope.
#[local] Open Scope list_scope.
#[local] Open Scope Z_scope.

(** * How a row may change *)

Definition keeps_some {A} (o o' : option A) : Prop := is_Some o → is_Some o'.

#[export] Instance keeps_some_preorder {A} : PreOrder (@keeps_some A).
Proof. split; unfold keeps_some; [by intros o | intros a b c; tauto]. Qed.

(** The part of a record that its handlers never change. *)
Definition mint_core (r : MintAuthorization.t) : MintAuthorization.t :=
  MintAuthorization.set_status DRAFT (MintAuthorization.set_signingKeyId None
    (MintAuthorization.set_signatureValue None (MintAuthorization.set_issuedAt None
      (MintAuthorization.set_expiresAt None r)))).
Definition approval_core (r : Approval.t) : Approval.t :=
  Approval.set_checkerId None (Approval.set_checkerActedAt None
    (Approval.set_decision DECISION_PENDING (Approval.set_reason None r))).
Definition deposit_core (r : Deposit.t) : Deposit.t :=
  Deposit.set_fundingInstructionId None (Deposit.set_status EXPECTED (Deposit.set_clearedAt None r)).
Definition redemption_core (r : Redemption.t) : Redemption.t :=
  Redemption.set_status REQUESTED (Redemption.set_approvedById None (Redemption.set_burnTxHash None
    (Redemption.set_burnConfirmedAt None (Redemption.set_payoutReference None
      (Redemption.set_payoutSubmittedAt None (Redemption.set_payoutConfirmedAt None
        (Redemption.set_completedAt None r))))))).
Definition order_core (r : PaykhPaymentOrder.t) : PaykhPaymentOrder.t :=
  PaykhPaymentOrder.set_status ORDER_CREATED (PaykhPaymentOrder.set_matchedBankTransactionId None
    (PaykhPaymentOrder.set_confirmedAt None r)).
Definition settlement_core (r : PaykhSettlement.t) : PaykhSettlement.t :=
  PaykhSettlement.set_status SETTLEMENT_REQUESTED (PaykhSettlement.set_approvedById None
    (PaykhSettlement.set_confirmedAt None r)).
Definition fund_core (r : PaykhProgramFund.t) : PaykhProgramFund.t :=
  PaykhProgramFund.set_fundedMinor 0 (PaykhProgramFund.set_reservedMinor 0 r).
Definition loyalty_core (r : PaykhLoyaltyLiability.t) : PaykhLoyaltyLiability.t :=
  PaykhLoyaltyLiability.set_outstandingMinor 0 (PaykhLoyaltyLiability.set_issuedTotalMinor 0
    (PaykhLoyaltyLiability.set_redeemedTotalMinor 0 (PaykhLoyaltyLiability.set_onChainSupplyMinor 0
      (PaykhLoyaltyLiability.set_reconciliationStatus "" (PaykhLoyaltyLiability.set_lastReconciledAt None r))))).
Definition outbox_core (r : OutboxEvent.t) : OutboxEvent.t :=
  OutboxEvent.set_deliveredAt None (OutboxEvent.set_attempts 0 (OutboxEvent.set_deadLettered false r)).
Definition user_core (r : User.t) : string * string * string := (User.id r, User.email r, User.institution r).

Definition evolves (t : table) : row t → row t → Prop :=
  match t with
  | TLedgerEntry => eq
  | TLedgerPosting => eq
  | TAuditLog => eq
  | TMintConfirmation => eq
  | TLiabilitySnapshot => eq
  | TReserveSnapshot => eq
  | TWebhookDelivery => eq
  | TIdempotencyKey => eq
  | TPaykhLoyaltyIssuance => eq
  | TNonceUsage => eq
  | TPasswordReset => λ r r', PasswordReset.set_usedAt None r = PasswordReset.set_usedAt None r' ∧
      keeps_some (PasswordReset.usedAt r) (PasswordReset.usedAt r')
  | TUser => λ r r', user_core r = user_core r'
  | TProgram => λ r r', Program.set_status PROGRAM_DRAFT r = Program.set_status PROGRAM_DRAFT r'
  | TFundingInstruction => λ r r',
      FundingInstruction.set_status FUNDING_ISSUED r = FundingInstruction.set_status FUNDING_ISSUED r'
  | TMintAuthorization => λ r r', mint_core r = mint_core r' ∧
      keeps_some (MintAuthorization.signatureValue r) (MintAuthorization.signatureValue r') ∧
      keeps_some (MintAuthorization.expiresAt r) (MintAuthorization.expiresAt r')
  | TApproval => λ r r', approval_core r = approval_core r'
  | TDeposit => λ r r', deposit_core r = deposit_core r' ∧
      keeps_some (Deposit.fundingInstructionId r) (Deposit.fundingInstructionId r')
  | TRedemption => λ r r', redemption_core r = redemption_core r' ∧
      keeps_some (Redemption.approvedById r) (Redemption.approvedById r') ∧
      keeps_some (Redemption.burnTxHash r) (Redemption.burnTxHash r') ∧
      keeps_some (Redemption.payoutReference r) (Redemption.payoutReference r')
  | TPaykhPaymentOrder => λ r r', order_core r = order_core r' ∧
      keeps_some (PaykhPaymentOrder.matchedBankTransactionId r) (PaykhPaymentOrder.matchedBankTransactionId r')
  | TPaykhSettlement => λ r r', settlement_core r = settlement_core r' ∧
      keeps_some (PaykhSettlement.approvedById r) (PaykhSettlement.approvedById r')
  | TPaykhProgramFund => λ r r', fund_core r = fund_core r'
  | TPaykhLoyaltyLiability => λ r r', loyalty_core r = loyalty_core r'
  | TOutboxEvent => λ r r', outbox_core r = outbox_core r'
  | t => λ r r', row_key t r = row_key t r'
  end.

#[export] Instance evolves_preorder t : PreOrder (evolves t).
Proof.
  split; destruct t; cbn; try (by intros ?); try (intros ? ? ?; congruence);
    intros a b c; intuition (try congruence); by etrans.
Qed.

(** * What holds of every row *)

(** An entry with this source and total is in the ledger. *)
Definition booked (source : string) (amount : Z) (w : World) : Prop :=
  ∃ k e, tbl w TLedgerEntry !! k = Some e ∧ LedgerEntry.source e = source ∧
         LedgerEntry.totalDebitMinor e = amount.

Definition is_user (institution : string) (uid : string) (w : World) : Prop :=
  ∃ u, tbl w TUser !! uid = Some u ∧ User.institution u = institution.

Definition mint_inv (r : MintAuthorization.t) (w : World) : Prop :=
  0 < MintAuthorization.amountMinor r ∧
  (MintAuthorization.status r ≠ PENDING_MAKER →
     ∃ k a, tbl w TApproval !! k = Some a ∧
       Approval.mintAuthorizationId a = Some (MintAuthorization.id r)) ∧
  (MintAuthorization.status r = ISSUED ∨ MintAuthorization.status r = CONSUMED →
     is_Some (MintAuthorization.signatureValue r) ∧ is_Some (MintAuthorization.expiresAt r) ∧
     booked ("mint-auth:" +:+ MintAuthorization.id r) (MintAuthorization.amountMinor r) w) ∧
  (MintAuthorization.status r = CONSUMED →
     booked ("mint-confirm:" +:+ MintAuthorization.id r) (MintAuthorization.amountMinor r) w ∧
     ∃ k c, tbl w TMintConfirmation !! k = Some c ∧
       MintConfirmation.mintAuthorizationId c = MintAuthorization.id r ∧
       MintConfirmation.amountMinor c = MintAuthorization.amountMinor r).

(** Segregation of duties: the maker is a trustee-bank user and never the checker. *)
Definition approval_inv (r : Approval.t) (w : World) : Prop :=
  is_user "TRUSTEE_BANK" (Approval.makerId r) w ∧
  (∀ c, Approval.checkerId r = Some c → c ≠ Approval.makerId r) ∧
  (Approval.decision r = DECISION_APPROVED → is_Some (Approval.checkerId r)).

Definition deposit_inv (r : Deposit.t) (w : World) : Prop :=
  (∀ f, Deposit.fundingInstructionId r = Some f →
     ∃ fi, tbl w TFundingInstruction !! f = Some fi ∧
       FundingInstruction.amountMinor fi = Deposit.amountMinor r ∧
       FundingInstruction.currency fi = Deposit.currency r) ∧
  (Deposit.status r = MATCHED ∨ Deposit.status r = CLEARED →
     is_Some (Deposit.fundingInstructionId r)) ∧
  (Deposit.status r = CLEARED →
     0 < Deposit.amountMinor r ∧
     booked ("deposit-clear:" +:+ Deposit.id r) (Deposit.amountMinor r) w) ∧
  Deposit.status r ∈ [DETECTED; MATCHED; CLEARED].

Definition redemption_inv (r : Redemption.t) (w : World) : Prop :=
  0 < Redemption.amountMinor r ∧
  Redemption.status r ∈ [AWAITING_APPROVAL; RAPPROVED; BURN_CONFIRMED; PAYOUT_SUBMITTED; COMPLETED] ∧
  (∀ u, Redemption.approvedById r = Some u → is_user "TRUSTEE_BANK" u w) ∧
  (Redemption.status r ≠ AWAITING_APPROVAL →
     is_Some (Redemption.approvedById r) ∧
     booked ("redemption:" +:+ Redemption.id r) (Redemption.amountMinor r) w) ∧
  (Redemption.status r ∈ [BURN_CONFIRMED; PAYOUT_SUBMITTED; COMPLETED] →
     is_Some (Redemption.burnTxHash r)) ∧
  (Redemption.status r ∈ [PAYOUT_SUBMITTED; COMPLETED] → is_Some (Redemption.payoutReference r)) ∧
  (Redemption.status r = COMPLETED →
     booked ("redemption-payout:" +:+ Redemption.id r) (Redemption.amountMinor r) w).

Definition order_inv (r : PaykhPaymentOrder.t) (w : World) : Prop :=
  (PaykhPaymentOrder.status r = ORDER_CONFIRMED ∨ PaykhPaymentOrder.status r = ORDER_REFUNDED →
     is_Some (PaykhPaymentOrder.matchedBankTransactionId r) ∧
     booked ("paykh-order:" +:+ PaykhPaymentOrder.id r) (PaykhPaymentOrder.amountMinor r) w) ∧
  (PaykhPaymentOrder.status r = ORDER_REFUNDED →
     booked ("paykh-refund:" +:+ PaykhPaymentOrder.id r) (PaykhPaymentOrder.amountMinor r) w).

Definition settlement_inv (r : PaykhSettlement.t) (w : World) : Prop :=
  (PaykhSettlement.status r = SETTLEMENT_APPROVED ∨ PaykhSettlement.status r = SETTLEMENT_CONFIRMED →
     is_Some (PaykhSettlement.approvedById r)) ∧
  (PaykhSettlement.status r = SETTLEMENT_CONFIRMED →
     booked ("paykh-settlement:" +:+ PaykhSettlement.id r) (PaykhSettlement.amountMinor r) w) ∧
  PaykhSettlement.status r ≠ SETTLEMENT_SUBMITTED.

(** The entry is a booking of this kind: its whole amount is debited to one account
    of the kind and credited to the other. *)
Definition booked_as (k : BookKind) (r : LedgerEntry.t) (w : World) : Prop :=
  ∃ kp kq p q,
    tbl w TLedgerPosting !! kp = Some p ∧ tbl w TLedgerPosting !! kq = Some q ∧
    LedgerPosting.entryId p = LedgerEntry.id r ∧ LedgerPosting.entryId q = LedgerEntry.id r ∧
    LedgerPosting.account p = book_debit k ∧ LedgerPosting.debitMinor p = LedgerEntry.totalDebitMinor r ∧
    LedgerPosting.account q = book_credit k ∧ LedgerPosting.creditMinor q = LedgerEntry.totalDebitMinor r.
Definition entry_inv (r : LedgerEntry.t) (w : World) : Prop := ∃ k, booked_as k r w.

Definition row_inv (t : table) : row t → World → Prop :=
  match t with
  | TLedgerEntry => entry_inv
  | TMintAuthorization => mint_inv
  | TApproval => approval_inv
  | TDeposit => deposit_inv
  | TRedemption => redemption_inv
  | TPaykhPaymentOrder => order_inv
  | TPaykhSettlement => settlement_inv
  | TLiabilitySnapshot => λ r _, LiabilitySnapshot.signatureVerified r = true
  | TPaykhLoyaltyLiability => λ r _, 0 < PaykhLoyaltyLiability.denominationMinor r
  | _ => λ _ _, True
  end.

(** * The invariant and the relation *)

Definition deletable (t : table) : bool :=
  match t with TRole | TAbacPolicy => true | _ => false end.

(** The row respects its columns: the integers fit their width, and the rows that it
    refers to exist. *)
Definition fits (t : table) (r : row t) (w : World) : Prop :=
  in_range t r = true ∧ references_exist t r w = true.

Record good (w : World) : Prop := {
  good_ledger : ledger_ok w;
  good_unique t : unique_ok t w;
  good_key t k r : tbl w t !! k = Some r → row_key t r = k;
  good_row t k r : tbl w t !! k = Some r → row_inv t r w;
  good_fits t k r : tbl w t !! k = Some r → fits t r w
}.

Record later (w w' : World) : Prop := {
  later_clock : clock w ≤ clock w';
  later_row t k r :
    tbl w t !! k = Some r → deletable t = false →
    ∃ r', tbl w' t !! k = Some r' ∧ evolves t r r'
}.

#[export] Instance later_preorder : PreOrder later.
Proof.
  split.
  - intros w. split; [done|]. intros t k r Hr _. by exists r.
  - intros w1 w2 w3 [C1 H1] [C2 H2]. split; [lia|]. intros t k r Hr Hd.
    destruct (H1 t k r Hr Hd) as (r2 & Hr2 & E2).
    destruct (H2 t k r2 Hr2 Hd) as (r3 & Hr3 & E3). exists r3. split; [done|]. by etrans.
Qed.

Lemma later_eq w w' t k r :
  later w w' → deletable t = false → (∀ r r', evolves t r r' → r = r') →
  tbl w t !! k = Some r → tbl w' t !! k = Some r.
Proof. intros HL Hd He Hr. destruct (later_row _ _ HL t k r Hr Hd) as (r' & -> & E). f_equal. symmetry. auto. Qed.

Lemma booked_later s a w w' : later w w' → booked s a w → booked s a w'.
Proof.
  intros HL (k & e & He & ?). exists k, e. split; [|done]. by apply (later_eq w w' TLedgerEntry k e).
Qed.

Lemma is_user_later i u w w' : later w w' → is_user i u w → is_user i u w'.
Proof.
  intros HL (r & Hr & <-). destruct (later_row _ _ HL TUser u r Hr eq_refl) as (r' & Hr' & [= _ _ E]).
  by exists r'.
Qed.

Lemma booked_as_later k r w w' : later w w' → booked_as k r w → booked_as k r w'.
Proof.
  intros HL (kp & kq & p & q & Hp & Hq & H). exists kp, kq, p, q. split_and!; try tauto; by apply (later_eq w w' TLedgerPosting).
Qed.

(** ** Stability: the row facts survive the moves of other handlers *)

Lemma row_inv_later t r w w' : later w w' → row_inv t r w → row_inv t r w'.
Proof.
  intros HL. pose proof (λ s a, booked_later s a w w' HL) as HB.
  pose proof (λ i u, is_user_later i u w w' HL) as HU.
  destruct t; cbn; try done.
  - (* deposits *) intros (H1 & H2 & H3 & H4). split_and!; [|done|naive_solver|done].
    intros f Hf. destruct (H1 f Hf) as (fi & Hfi & Ha & Hc).
    destruct (later_row _ _ HL TFundingInstruction f fi Hfi eq_refl) as (fi' & Hfi' & E).
    exists fi'. split; [done|]. destruct fi, fi'; injection E as; subst; done.
  - (* entries *) intros [k Hk]. exists k. by apply (booked_as_later k r w).
  - (* mint authorizations *) intros (H1 & H2 & H3 & H4). split_and!; [done| |naive_solver|].
    + intros Hs. destruct (H2 Hs) as (k & a & Ha & Hid).
      destruct (later_row _ _ HL TApproval k a Ha eq_refl) as (a' & Ha' & E).
      exists k, a'. split; [done|]. destruct a, a'; injection E as; subst; done.
    + intros Hs. destruct (H4 Hs) as (Hb & k & c & Hc & ?). split; [by apply HB|].
      exists k, c. split; [|done]. by apply (later_eq w w' TMintConfirmation k c).
  - (* redemptions *) intros (? & ? & ? & H4 & ? & ? & ?). split_and!; naive_solver.
  - (* approvals *) intros (? & ? & ?). split_and!; naive_solver.
  - (* orders *) intros (? & ?). split_and!; naive_solver.
  - (* settlements *) intros (? & ? & ?). split_and!; naive_solver.
Qed.

(** Nothing refers to a table that rows are deleted from. *)
Lemma references_kept t r : Forall (λ f, deletable f.1 = false) (foreign_keys t r).
Proof. destruct t; cbn; repeat case_match; by repeat constructor. Qed.

Lemma fits_later t r w w' : later w w' → fits t r w → fits t r w'.
Proof.
  intros HL [Hr Hf]. split; [done|]. unfold references_exist in *. pose proof (references_kept t r) as Hk.
  rewrite forallb_forall in Hf |- *. rewrite Forall_forall in Hk.
  intros [t' k] Hin. specialize (Hf _ Hin). apply list_elem_of_In in Hin. specialize (Hk _ Hin). cbn [fst snd] in *.
  unfold has_row in *. destruct (tbl w t' !! k) as [x|] eqn:E; [|done].
  by destruct (later_row _ _ HL t' k x E Hk) as (x' & -> & _).
Qed.

Lemma admissible_fits t k r w : admissible t k r w = true → fits t r w.
Proof. intros [[_ Hf]%andb_true_iff Hr]%andb_true_iff. done. Qed.

Lemma later_put t k r w :
  (∀ r0, tbl w t !! k = Some r0 → evolves t r0 r) → later w (put t k r w).
Proof.
  intros He. split; [done|]. intros t' k' r' Hr' _.
  destruct (decide (t = t')) as [<-|Hne].
  - rewrite tbl_put_same. destruct (decide (k = k')) as [<-|Hk].
    + exists r. rewrite lookup_insert_eq. split; [done|]. by apply He.
    + exists r'. by rewrite lookup_insert_ne.
  - exists r'. by rewrite tbl_put_ne.
Qed.

Lemma good_put t k r w :
  good w → t ∉ ledger_tables → row_key t r = k → row_inv t r w →
  admissible t k r w = true → later w (put t k r w) → good (put t k r w).
Proof.
  intros [HL HU HK HR HF] Ht Hk Hr HA Hlater. split.
  - eapply ledger_ok_frame; [..|done]; apply tbl_put_ne; intros ->; apply Ht; unfold ledger_tables; set_solver.
  - intros t'. destruct (decide (t = t')) as [<-|Hne]; [by apply unique_ok_put|].
    unfold unique_ok. rewrite tbl_put_ne by done. apply HU.
  - intros t' k' r'. destruct (decide (t = t')) as [<-|Hne].
    + rewrite tbl_put_same. intros [[<- <-]|[_ H]]%lookup_insert_Some; [done|eauto].
    + rewrite tbl_put_ne by done. eauto.
  - intros t' k' r' H. apply (row_inv_later t' r' w); [done|]. revert H.
    destruct (decide (t = t')) as [<-|Hne].
    + rewrite tbl_put_same. intros [[<- <-]|[_ H]]%lookup_insert_Some; [done|eauto].
    + rewrite tbl_put_ne by done. eauto.
  - intros t' k' r' H. apply (fits_later t' r' w); [done|]. revert H.
    destruct (decide (t = t')) as [<-|Hne].
    + rewrite tbl_put_same. intros [[<- <-]|[_ H]]%lookup_insert_Some; [by eapply admissible_fits|eauto].
    + rewrite tbl_put_ne by done. eauto.
Qed.

(** Moves that touch no table. *)
Lemma later_frame w w' : tbl w' = tbl w → clock w ≤ clock w' → later w w'.
Proof. intros E C. split; [done|]. intros t k r Hr _. exists r. by rewrite E. Qed.

Lemma good_frame w w' : tbl w' = tbl w → good w → good w'.
Proof.
  intros E [HL HU HK HR HF]. split.
  - by eapply ledger_ok_frame; [..|done]; rewrite E.
  - intros t. unfold unique_ok. rewrite E. apply HU.
  - intros t k r. rewrite E. apply HK.
  - intros t k r. rewrite E. intros H. apply (HR t k r) in H. revert H.
    assert (∀ s a, booked s a w → booked s a w') as HB by (intros s a; unfold booked; by rewrite E).
    assert (∀ s a, is_user s a w → is_user s a w') as HU' by (intros s a; unfold is_user; by rewrite E).
    destruct t; cbn; try done; unfold entry_inv, booked_as, deposit_inv, mint_inv, redemption_inv, approval_inv, order_inv, settlement_inv;
      rewrite ?E; naive_solver.
  - intros t k r. rewrite E. intros [Hr Hf]%(HF t k r). split; [done|]. revert Hf. unfold references_exist, has_row. by rewrite E.
Qed.

Lemma posting_in_range e p eid k :
  entry_valid e → p ∈ je_postings e → in_int64 (minor (je_totalDebit e)) = true →
  in_range TLedgerPosting (posting_row eid p k) = true.
Proof.
  intros ((_ & _ & Hwf & Hbal) & Htd & _) Hp Hr. cbn in Hwf, Hbal.
  destruct (posting_amount_le _ _ _ Hwf Hp). rewrite Htd in Hr. cbn in Hr |- *.
  change (debits (je_postings e) = credits (je_postings e)) in Hbal. unfold in_int64, int64_min, int64_max in *. lia.
Qed.

Lemma good_later_posted e eid w w' :
  posted e eid w w' → postable e →
  in_int64 (minor (je_totalDebit e)) = true ∧ in_int64 (minor (je_totalCredit e)) = true →
  good w → good w' ∧ later w w'.
Proof.
  intros HP [Hv Hbook] Hrange [HL HU HK HR HF]. pose proof HP as (Hfresh & Hs & HE & HA).
  assert (later w w') as Hlater.
  { split; [by destruct Hs as (_ & -> & _)|]. intros t k r Hr _. exists r. split; [|done].
    destruct (decide (t = TLedgerEntry)) as [->|H1]; [|destruct (decide (t = TLedgerPosting)) as [->|H2]].
    - rewrite HE. rewrite lookup_insert_ne; [done|]. intros ->. by rewrite Hfresh in Hr.
    - eapply lookup_weaken; [done|]. by eapply postings_added_subseteq.
    - rewrite (same_but_tbl _ _ _ t Hs); [done|]. unfold ledger_tables. set_solver. }
  split; [|done]. split.
  - by eapply ledger_ok_posted.
  - intros t. destruct (decide (t = TLedgerEntry)) as [->|H1]; [done|].
    destruct (decide (t = TLedgerPosting)) as [->|H2]; [done|].
    unfold unique_ok. rewrite (same_but_tbl _ _ _ t Hs); [apply HU|]. unfold ledger_tables. set_solver.
  - intros t k r. destruct (decide (t = TLedgerEntry)) as [->|H1];
      [|destruct (decide (t = TLedgerPosting)) as [->|H2]].
    + rewrite HE. intros [[<- <-]|[_ H]]%lookup_insert_Some; [done|eauto].
    + intros Hr. destruct (postings_added_elem _ _ _ _ _ _ HA Hr) as [H|(p & _ & ->)]; [|done].
      by apply (HK TLedgerPosting).
    + rewrite (same_but_tbl _ _ _ t Hs); [apply HK|]. unfold ledger_tables. set_solver.
  - intros t k r Hr. destruct (decide (t = TLedgerEntry)) as [->|H1].
    { rewrite HE in Hr. apply lookup_insert_Some in Hr as [[<- <-]|[_ Hr]].
      - destruct Hbook as (kind & p & q & Hp & Hq & H1 & H2 & H3 & H4).
        destruct (postings_added_in _ _ _ _ _ HA Hp) as [kp Hkp], (postings_added_in _ _ _ _ _ HA Hq) as [kq Hkq].
        eexists kind, kp, kq, _, _. by split_and!.
      - apply (row_inv_later TLedgerEntry r w); [done|]. by apply (HR TLedgerEntry k). }
    destruct (decide (t = TLedgerPosting)) as [->|H2]; [done|].
    apply (row_inv_later t r w); [done|]. apply (HR t k).
    rewrite <- (same_but_tbl _ _ _ t Hs); [done|]. unfold ledger_tables. set_solver.
  - intros t k r Hr. destruct (decide (t = TLedgerEntry)) as [->|H1].
    { rewrite HE in Hr. apply lookup_insert_Some in Hr as [[<- <-]|[_ Hr]].
      - split; [exact (proj2 (andb_true_iff _ _) Hrange)|done].
      - by apply (HF TLedgerEntry k). }
    destruct (decide (t = TLedgerPosting)) as [->|H2].
    { destruct (postings_added_elem _ _ _ _ _ _ HA Hr) as [Hold|(p & Hp & ->)].
      - apply (fits_later TLedgerPosting r w); [done|]. by apply (HF TLedgerPosting k).
      - split; [apply (posting_in_range e); [done|done|apply Hrange]|]. unfold references_exist, has_row. cbn. by rewrite HE, lookup_insert_eq. }
    apply (fits_later t r w); [done|]. apply (HF t k).
    rewrite <- (same_but_tbl _ _ _ t Hs); [done|]. unfold ledger_tables. set_solver.
Qed.

Lemma booked_posted e eid w w' :
  posted e eid w w' →
  booked (ref_source (je_references e)) (minor (je_totalDebit e)) w'.
Proof.
  intros (_ & _ & HE & _). exists eid, (entry_row e eid (clock w)).
  by rewrite HE, lookup_insert_eq.
Qed.

(** * Rules for the operations of a handler *)

Abbreviation safely := (safe good later) (only parsing).

Section rules.
Context `{RT : !Runtime} `{PC : !PrismaClient} (env : Env).

Lemma safe_write {B} t key r w (k : row t → prog World B) Q :
  good w → t ∉ ledger_tables → row_key t r = key →
  (∀ r0, tbl w t !! key = Some r0 → evolves t r0 r) → row_inv t r w →
  (later w (put t key r w) → good (put t key r w) → safely (k r) Q (put t key r w)) →
  good (write_row t key r w).2 ∧ later w (write_row t key r w).2 ∧
  ∀ a, (write_row t key r w).1 = Ok a → safely (k a) Q (write_row t key r w).2.
Proof.
  intros Hg Ht Hk He Hi Hc.
  destruct (write_row_cases t key r w) as [[HA ->]|[code ->]].
  - simpl.
    pose proof (later_put t key r w He) as HL.
    assert (good (put t key r w)) as HG by by apply good_put.
    split_and!; [done..|]. intros a [= <-]. by apply Hc.
  - simpl. by split_and!.
Qed.

Lemma safe_create {B} t f (k : row t → prog World B) Q s :
  t ∉ ledger_tables → (∀ key z, row_key t (f key z) = key) →
  (∀ w key, later s w → good w → tbl w t !! key = None → row_inv t (f key (clock w)) w) →
  (∀ w key z, later s w → good w → tbl w t !! key = Some (f key z) → safely (k (f key z)) Q w) →
  safely (create t f ≫= k) Q s.
Proof.
  intros Ht Hk Hi Hc. apply (safe_action good later). intros w HL Hg.
  pose proof (new_id_fresh t w) as Hn.
  apply safe_write; auto.
  - intros r0. by rewrite Hn.
  - intros HL' Hg'. apply Hc; [by etrans|done|]. by rewrite tbl_put_same, lookup_insert_eq.
Qed.

Lemma safe_create_last t f s :
  t ∉ ledger_tables → (∀ key z, row_key t (f key z) = key) →
  (∀ w key, later s w → good w → tbl w t !! key = None → row_inv t (f key (clock w)) w) →
  safely (create t f) (λ _ _, True) s.
Proof.
  intros Ht Hk Hi. apply (safe_action_last good later). intros w HL Hg.
  pose proof (new_id_fresh t w) as Hn.
  destruct (safe_write t (new_id t w) (f (new_id t w) (clock w)) w
              (λ _, Throw (A:=unit) (PrismaError "")) (λ _ _, True)) as (H1 & H2 & _);
    [done|done|done| |by apply Hi|done|by split_and!].
  intros r0. by rewrite Hn.
Qed.

Lemma safe_update {B} t key f (k : row t → prog World B) Q s :
  t ∉ ledger_tables → (∀ r, row_key t (f r) = row_key t r) →
  (∀ w r, later s w → good w → tbl w t !! key = Some r → evolves t r (f r) ∧ row_inv t (f r) w) →
  (∀ w r, later s w → good w → tbl w t !! key = Some (f r) → safely (k (f r)) Q w) →
  safely (update t key f ≫= k) Q s.
Proof.
  intros Ht Hk Hi Hc. apply (safe_action good later). intros w HL Hg. cbn beta.
  destruct (tbl w t !! key) as [r|] eqn:E; [|simpl; by split_and!].
  destruct (Hi w r HL Hg E) as [He Hr].
  apply safe_write; auto.
  - rewrite Hk. by apply (good_key w Hg).
  - intros r0. rewrite E. by intros [= <-].
  - intros HL' Hg'. apply Hc; [by etrans|done|]. by rewrite tbl_put_same, lookup_insert_eq.
Qed.

Lemma safe_update_last t key f s :
  t ∉ ledger_tables → (∀ r, row_key t (f r) = row_key t r) →
  (∀ w r, later s w → good w → tbl w t !! key = Some r → evolves t r (f r) ∧ row_inv t (f r) w) →
  safely (update t key f) (λ _ _, True) s.
Proof.
  intros Ht Hk Hi. apply (safe_action_last good later). intros w HL Hg. cbn beta.
  destruct (tbl w t !! key) as [r|] eqn:E; [|simpl; by split_and!].
  destruct (Hi w r HL Hg E) as [He Hr].
  destruct (safe_write t key (f r) w (λ _, Throw (A:=unit) (PrismaError "")) (λ _ _, True)) as (H1 & H2 & _);
    [done|done| | |done|done|by split_and!].
  - rewrite Hk. by apply (good_key w Hg).
  - intros r0. rewrite E. by intros [= <-].
Qed.

(** An upsert by a unique key, of a table without row facts. *)
Lemma safe_upsert_by {B} t p f g (k : row t → prog World B) Q s :
  t ∉ ledger_tables → (∀ r, row_key t (f r) = row_key t r) → (∀ key z, row_key t (g key z) = key) →
  (∀ w r, later s w → good w → evolves t r (f r) ∧ row_inv t (f r) w) →
  (∀ w key z, later s w → good w → row_inv t (g key z) w) →
  (∀ w r, later s w → good w → safely (k r) Q w) →
  safely (upsert_by t p f g ≫= k) Q s.
Proof.
  intros Ht Hf Hg' Hi Hj Hc. apply (safe_action good later). intros w HL Hg. cbn beta.
  destruct (head (where_rows p (scan t w))) as [r|] eqn:E.
  - apply head_where_Some in E as [_ [key Hkey]]. pose proof (good_key w Hg t _ _ Hkey) as Hk.
    destruct (Hi w r HL Hg) as [He Hr]. apply safe_write; auto.
    + intros r0. rewrite Hk, Hkey. by intros [= <-].
    + intros HL' Hg''. apply Hc; [by etrans|done].
  - cbv zeta. pose proof (new_id_fresh t w) as Hn. apply safe_write; auto.
    + intros r0. by rewrite Hn.
    + intros HL' Hg''. apply Hc; [by etrans|done].
Qed.

Lemma safe_update_by {B} t p f (k : row t → prog World B) Q s :
  t ∉ ledger_tables → (∀ r, row_key t (f r) = row_key t r) →
  (∀ w r, later s w → good w → evolves t r (f r) ∧ row_inv t (f r) w) →
  (∀ w r, later s w → good w → safely (k r) Q w) →
  safely (update_by t p f ≫= k) Q s.
Proof.
  intros Ht Hf Hi Hc. apply (safe_action good later). intros w HL Hg. cbn beta.
  destruct (head (where_rows p (scan t w))) as [r|] eqn:E; [|simpl; by split_and!].
  apply head_where_Some in E as [_ [key Hkey]]. pose proof (good_key w Hg t _ _ Hkey) as Hk.
  destruct (Hi w r HL Hg) as [He Hr]. apply safe_write; auto.
  - intros r0. rewrite Hk, Hkey. by intros [= <-].
  - intros HL' Hg''. apply Hc; [by etrans|done].
Qed.

(** A deletion from a table whose rows nothing relies on. *)
Lemma later_delete t key w : deletable t = true → later w (set_tbl t (delete key (tbl w t)) w).
Proof.
  intros Hd. split; [done|]. intros t' k r Hr Hd'. exists r. split; [|done].
  rewrite tbl_set_ne; [done|]. intros <-. congruence.
Qed.

Lemma good_delete t key w : good w → deletable t = true → good (set_tbl t (delete key (tbl w t)) w).
Proof.
  intros [HL HU HK HR HF] Hd. set (w' := set_tbl t _ w).
  assert (∀ t' k r, tbl w' t' !! k = Some r → tbl w t' !! k = Some r) as Hsub.
  { intros t' k r. subst w'. destruct (decide (t = t')) as [<-|Hne].
    - rewrite tbl_set_same. by intros [_ H]%lookup_delete_Some.
    - by rewrite tbl_set_ne. }
  pose proof (later_delete t key w Hd : later w w') as Hlater.
  split.
  - eapply ledger_ok_frame; [..|exact HL]; subst w'; apply tbl_set_ne; by intros ->.
  - intros t' k k' r r' H1 H2. apply (HU t'); by apply Hsub.
  - intros t' k r Hr. by apply (HK t'), Hsub.
  - intros t' k r Hr. apply (row_inv_later t' r w); [done|]. by apply (HR t' k), Hsub.
  - intros t' k r Hr. apply (fits_later t' r w); [done|]. by apply (HF t' k), Hsub.
Qed.

Lemma safe_delete {B} t key (k : row t → prog World B) Q s :
  deletable t = true → (∀ w r, later s w → good w → safely (k r) Q w) →
  safely (delete_row t key ≫= k) Q s.
Proof.
  intros Hd Hc. apply (safe_action good later). intros w HL Hg. cbn beta.
  destruct (tbl w t !! key) as [r|] eqn:E; [|simpl; by split_and!]. cbn [fst snd].
  pose proof (later_delete t key w Hd) as HL'.
  pose proof (good_delete t key w Hg Hd) as Hg'. split_and!; [done..|].
  intros a _. apply Hc; [by etrans|done].
Qed.

(** [updateMany], when it rewrites no unique column. *)
Lemma good_update_many t (p : row t → bool) (f : row t → row t) w :
  good w → t ∉ ledger_tables → (∀ r, row_key t (f r) = row_key t r) →
  (∀ r, unique_keys t (f r) = unique_keys t r) → (∀ r, evolves t r (f r)) →
  (∀ k r, tbl w t !! k = Some r → row_inv t (f r) w) →
  (∀ k r, tbl w t !! k = Some r → p r = true → admissible t k (f r) w = true) →
  good (set_tbl t ((λ r, if p r then f r else r) <$> tbl w t) w) ∧
  later w (set_tbl t ((λ r, if p r then f r else r) <$> tbl w t) w).
Proof.
  intros [HL HU HK HR HF] Ht Hk Hu He Hi HA. set (g := λ r, if p r then f r else r). set (w' := set_tbl t _ w).
  assert (∀ t' k r', tbl w' t' !! k = Some r' → ∃ r, tbl w t' !! k = Some r ∧
            row_key t' r' = row_key t' r ∧ unique_keys t' r' = unique_keys t' r ∧ (row_inv t' r w → row_inv t' r' w) ∧
            fits t' r' w) as Hsub.
  { intros t' k r' Hr'. subst w'. destruct (decide (t = t')) as [<-|Hne].
    - rewrite tbl_set_same, lookup_fmap in Hr'. destruct (tbl w t !! k) as [r|] eqn:E; [|done].
      injection Hr' as <-. exists r. unfold g. destruct (p r) eqn:Hp; [|by split_and!; [..|by apply (HF t k)]].
      split_and!; [done..| |by eapply admissible_fits, HA]. intros _. by eapply Hi.
    - rewrite tbl_set_ne in Hr' by done. exists r'. by split_and!; [..|by apply (HF t' k)]. }
  assert (later w w') as Hlater.
  { split; [done|]. intros t' k r Hr _. subst w'. destruct (decide (t = t')) as [<-|Hne].
    - exists (g r). rewrite tbl_set_same, lookup_fmap, Hr. split; [done|]. unfold g. by destruct (p r).
    - exists r. by rewrite tbl_set_ne. }
  split; [|done]. split.
  - eapply ledger_ok_frame; [..|exact HL]; subst w'; apply tbl_set_ne; intros ->; apply Ht;
      unfold ledger_tables; set_solver.
  - intros t' k k' r r' H1 H2 HS. destruct (Hsub _ _ _ H1) as (r1 & E1 & _ & U1 & _).
    destruct (Hsub _ _ _ H2) as (r2 & E2 & _ & U2 & _). apply (HU t' k k' r1 r2); [done..|].
    unfold shares_key in *. by rewrite <- U1, <- U2.
  - intros t' k r' Hr'. destruct (Hsub _ _ _ Hr') as (r & Hr & -> & _). by apply HK.
  - intros t' k r' Hr'. destruct (Hsub _ _ _ Hr') as (r & Hr & _ & _ & Hinv & _).
    apply (row_inv_later t' r' w); [done|]. apply Hinv. by eapply HR.
  - intros t' k r' Hr'. destruct (Hsub _ _ _ Hr') as (r & _ & _ & _ & _ & Hfit). by apply (fits_later t' r' w).
Qed.

Lemma safe_update_many {B} t p f (k : Z → prog World B) Q s :
  t ∉ ledger_tables → (∀ r, row_key t (f r) = row_key t r) →
  (∀ r, unique_keys t (f r) = unique_keys t r) → (∀ r, evolves t r (f r)) →
  (∀ w r, later s w → good w → row_inv t r w → row_inv t (f r) w) →
  (∀ w n, later s w → good w → safely (k n) Q w) →
  safely (update_many t p f ≫= k) Q s.
Proof.
  intros Ht Hk Hu He Hi Hc. apply (safe_action good later). intros w HL Hg. cbn beta zeta.
  case_match eqn:Eo; [|simpl; by split_and!]. cbn [fst snd].
  destruct (good_update_many t p f w) as [Hg' HL']; try done.
  { intros key r Hr. apply Hi; [done|done|]. by apply (good_row w Hg t key). }
  { intros key r Hr Hp. apply refuse_admissible. destruct (refuse t key (f r) w) as [code|] eqn:E; [|done].
    assert (code ∈ ([] : list string)) as []%not_elem_of_nil. rewrite <- Eo. apply list_elem_of_omap.
    exists (key, r). split; [|done]. apply list_elem_of_filter. split; [done|]. by apply elem_of_map_to_list. }
  split_and!; [done..|]. intros n _. apply Hc; [by etrans|done].
Qed.

Lemma safe_notify {B} subject text to (k : bool → prog World B) Q s :
  good s → (∀ w b, later s w → good w → safely (k b) Q w) →
  safely (notify env subject text to ≫= k) Q s.
Proof.
  intros Hs H. apply (safe_bind good later); [done|]. unfold notify. cbv zeta.
  destruct (truthy _) as [key|]; [|intros w HL Hg; by apply H].
  apply (safe_action good later). intros w HL Hg. cbn [fst snd].
  assert (later w (set_calls (S (calls w)) w)) as HL' by by apply later_frame.
  assert (good (set_calls (S (calls w)) w)) as Hg' by by apply (good_frame w).
  split_and!; [done..|]. intros a _ w' HL'' Hg''. apply H; [etrans; [exact HL|by etrans]|done].
Qed.

Lemma safe_randomBytes {B} n (k : list Z → prog World B) Q s :
  (∀ w b, later s w → good w → safely (k b) Q w) → safely (randomBytes n ≫= k) Q s.
Proof.
  intros H. apply (safe_action good later). intros w HL Hg.
  assert (later w (set_uuids (S (uuids w)) w)) as HL' by by apply later_frame.
  assert (good (set_uuids (S (uuids w)) w)) as Hg' by by apply (good_frame w).
  split_and!; [done..|]. intros a _. apply H; [by etrans|done].
Qed.

Lemma safe_upsert_at {B} t key f g (k : row t → prog World B) Q s :
  t ∉ ledger_tables → (∀ r, row_key t (f r) = row_key t r) → (∀ z, row_key t (g z) = key) →
  (∀ w r, later s w → good w → evolves t r (f r) ∧ row_inv t (f r) w) →
  (∀ w z, later s w → good w → row_inv t (g z) w) →
  (∀ w r, later s w → good w → safely (k r) Q w) →
  safely (upsert_at t key f g ≫= k) Q s.
Proof.
  intros Ht Hf Hg' Hi Hj Hc. apply (safe_action good later). intros w HL Hg. cbn beta.
  destruct (tbl w t !! key) as [r|] eqn:E.
  - pose proof (good_key w Hg t _ _ E) as Hk. destruct (Hi w r HL Hg) as [He Hr].
    apply safe_write; auto.
    + by rewrite Hf.
    + intros r0. rewrite E. by intros [= <-].
    + intros HL' Hg''. apply Hc; [by etrans|done].
  - apply safe_write; auto.
    + intros r0. by rewrite E.
    + intros HL' Hg''. apply Hc; [by etrans|done].
Qed.

Lemma safe_create_at {B} t key f (k : row t → prog World B) Q s :
  t ∉ ledger_tables → (∀ z, row_key t (f z) = key) →
  (∀ w z, later s w → good w → row_inv t (f z) w) →
  (∀ w r, later s w → good w → safely (k r) Q w) →
  safely (create_at t key f ≫= k) Q s.
Proof.
  intros Ht Hf Hi Hc. apply (safe_action good later). intros w HL Hg. cbn beta.
  unfold has_row. destruct (tbl w t !! key) as [r|] eqn:E; [simpl; by split_and!|].
  apply safe_write; auto.
  - intros r0. by rewrite E.
  - intros HL' Hg''. apply Hc; [by etrans|done].
Qed.

Lemma safe_find_unique {B} t key (k : option (row t) → prog World B) Q s :
  (∀ w, later s w → good w → safely (k (tbl w t !! key)) Q w) →
  safely (find_unique t key ≫= k) Q s.
Proof. apply (safe_read good later). Qed.

Lemma safe_find_first {B} t p (k : option (row t) → prog World B) Q s :
  (∀ w, later s w → good w →
     safely (k None) Q w) →
  (∀ w key r, later s w → good w → tbl w t !! key = Some r → p r = true → row_key t r = key →
     safely (k (Some r)) Q w) →
  safely (find_first t p ≫= k) Q s.
Proof.
  intros HN HS. apply (safe_read good later). intros w HL Hg.
  destruct (head (where_rows p (scan t w))) as [r|] eqn:E; [|by apply HN].
  apply head_where_Some in E as [Hp [key Hkey]].
  eapply HS; eauto. by apply (good_key w Hg).
Qed.

(** A lookup that throws when the row is missing. *)
Lemma safe_or_throw_last {A} (o : option A) e (Q : A → World → Prop) s :
  (∀ a w, o = Some a → later s w → good w → Q a w) → safely (or_throw o e) Q s.
Proof. destruct o as [a|]; intros H; [|done]. intros w HL Hg. by apply H. Qed.

Lemma safe_require {B} t key e (k : row t → prog World B) Q s :
  good s →
  (∀ w w0 r, later s w0 → later w0 w → good w0 → good w → tbl w0 t !! key = Some r → safely (k r) Q w) →
  safely ((x ← find_unique t key; or_throw x e) ≫= k) Q s.
Proof.
  intros Hs H. apply (safe_bind good later); [done|].
  apply (safe_find_unique t). intros w HL Hg. apply safe_or_throw_last.
  intros r w' Hr HL' Hg'. by apply (H w' w r).
Qed.

(** Posting: the continuation knows that the entry is booked. *)
Lemma safe_post {B} e (k : string → prog World B) Q s :
  postable e →
  (∀ w eid, later s w → good w →
     booked (ref_source (je_references e)) (minor (je_totalDebit e)) w → safely (k eid) Q w) →
  safely (post e ≫= k) Q s.
Proof.
  intros Hv Hc. unfold post, transaction. apply (safe_action good later). intros w HL Hg.
  pose proof (run_post_ok e w) as Hok. pose proof (run_post_err e w) as Herr. pose proof (run_post_range e w) as Hrange.
  unfold post, transaction in Hok, Herr, Hrange. rewrite !run_action in Hok, Herr, Hrange.
  match goal with |- context [run ?p w] => destruct (run p w) as [[a|x] w'] end; simpl in *.
  - specialize (Hok a w' eq_refl). specialize (Hrange a w' eq_refl).
    destruct (good_later_posted _ _ _ _ Hok Hv Hrange Hg) as [Hg' HL'].
    split_and!; [done..|]. intros ? [= <-]. apply Hc; [by etrans|done|].
    by eapply booked_posted.
  - by split_and!.
Qed.

Lemma safe_now {B} (k : Z → prog World B) Q s :
  (∀ w, later s w → good w → safely (k (clock w)) Q w) → safely (now ≫= k) Q s.
Proof. apply (safe_read good later). Qed.

Lemma safe_randomUUID {B} (k : string → prog World B) Q s :
  (∀ w u, later s w → good w → safely (k u) Q w) → safely (randomUUID ≫= k) Q s.
Proof.
  intros H. apply (safe_action good later). intros w HL Hg.
  assert (later w (set_uuids (S (uuids w)) w)) as HL' by by apply later_frame.
  assert (good (set_uuids (S (uuids w)) w)) as Hg' by by apply (good_frame w).
  split_and!; [done..|]. intros a _. apply H; [by etrans|done].
Qed.

Lemma safe_audit {B} a (k : unit → prog World B) Q s :
  good s → (∀ w, later s w → good w → safely (k tt) Q w) → safely (audit_record a ≫= k) Q s.
Proof.
  intros Hs H. apply (safe_bind good later); [done|]. unfold audit_record.
  apply (safe_create TAuditLog); try done.
  - unfold ledger_tables. set_solver.
  - intros w key z HL Hg _ w' HL' Hg'. apply H; [by etrans|done].
Qed.

Lemma safe_audit_last a s : good s → safely (audit_record a) (λ _ _, True) s.
Proof.
  intros Hs. apply (safe_create TAuditLog); try done. unfold ledger_tables. set_solver.
Qed.

Lemma safe_create_outbox {B} f (k : OutboxEvent.t → prog World B) Q s :
  (∀ key z n, OutboxEvent.id (f key z n) = key) →
  (∀ w r, later s w → good w → safely (k r) Q w) →
  safely (create_seq TOutboxEvent f ≫= k) Q s.
Proof.
  intros Hk H. apply (safe_action good later). intros w HL Hg. cbn beta zeta.
  set (w0 := set_outbox_seq (outbox_seq w + 1) w).
  assert (later w w0) as HL0 by by apply later_frame.
  assert (good w0) as Hg0 by by apply (good_frame w).
  destruct (safe_write TOutboxEvent (new_id TOutboxEvent w)
    (f (new_id TOutboxEvent w) (clock w) (outbox_seq w)) w0 k Q) as (H1 & H2 & H3); try done.
  - unfold ledger_tables. set_solver.
  - intros r0 Hr0. change (tbl w0) with (tbl w) in Hr0. by rewrite new_id_fresh in Hr0.
  - intros HL' Hg'. apply H; [|done]. etrans; [done|]. by etrans.
  - split_and!; [done| by etrans |done].
Qed.

Lemma safe_publish_named {B} e p t (k : string → prog World B) Q s :
  good s → (∀ w x, later s w → good w → safely (k x) Q w) →
  safely (publish_named env e p t ≫= k) Q s.
Proof.
  intros Hs H. apply (safe_bind good later); [done|]. unfold publish_named.
  apply (safe_lift good later). intros sg _.
  apply safe_create_outbox; [done|]. intros w r HL Hg w' HL' Hg'. apply H; [by etrans|done].
Qed.

Lemma safe_publishWithArtifact {B} e p a u (k : string → prog World B) Q s :
  good s → (∀ w x, later s w → good w → safely (k x) Q w) →
  safely (publishWithArtifact env e p a u ≫= k) Q s.
Proof.
  intros Hs H. apply (safe_bind good later); [done|]. unfold publishWithArtifact.
  apply (safe_lift good later). intros sg _.
  apply safe_create_outbox; [done|]. intros w r HL Hg w' HL' Hg'. apply H; [by etrans|done].
Qed.

Lemma safe_isEnabled {B} key d (k : bool → prog World B) Q s :
  good s → (∀ w b, later s w → good w → safely (k b) Q w) → safely (isEnabled key d ≫= k) Q s.
Proof.
  intros Hs H. apply (safe_bind good later); [done|]. unfold isEnabled.
  apply (safe_find_unique TFeatureFlag). intros w HL Hg w' HL' Hg'. apply H; [by etrans|done].
Qed.

Lemma safe_requireEnabled {B} key (k : unit → prog World B) Q s :
  good s → (∀ w, later s w → good w → safely (k tt) Q w) → safely (requireEnabled key ≫= k) Q s.
Proof.
  intros Hs H. apply (safe_bind good later); [done|]. unfold requireEnabled.
  apply safe_isEnabled; [done|]. intros w [] HL Hg; cbn; [|done].
  intros w' HL' Hg'. apply H; [by etrans|done].
Qed.

Lemma safe_call {A B} (f : World → outcome A) (k : A → prog World B) Q s :
  (∀ w a, later s w → good w → safely (k a) Q w) →
  safely (action (λ w, (f w, set_calls (S (calls w)) w)) ≫= k) Q s.
Proof.
  intros H. apply (safe_action good later). intros w HL Hg.
  assert (later w (set_calls (S (calls w)) w)) as HL' by by apply later_frame.
  assert (good (set_calls (S (calls w)) w)) as Hg' by by apply (good_frame w).
  split_and!; [done..|]. intros a _. apply H; [by etrans|done].
Qed.
End rules.

(** A handler, whatever it is asked, keeps [good] and moves along [later]. *)
Abbreviation keeps_good := (keeps good later) (only parsing).

Section reads.
Context `{RT : !Runtime} `{PC : !PrismaClient} (env : Env).

Lemma keeps_read {A} (f : World → A) : keeps_good (read f).
Proof. intros s Hs w HL Hg. by split_and!. Qed.

Lemma keeps_set_flag key b u : keeps_good (set_flag key b u).
Proof.
  intros s Hs. unfold set_flag.
  apply (safe_upsert_at TFeatureFlag); [unfold ledger_tables; set_solver|done..].
Qed.

(** A handler behind [IdempotencyService.run] is as safe as the handler. *)
Lemma keeps_idempotent key route body fn : keeps_good fn → keeps_good (idempotent key route body fn).
Proof.
  intros Hfn s Hs. unfold idempotent. destruct (truthy key) as [k|].
  - apply (safe_find_unique TIdempotencyKey). intros w HL Hg.
    destruct (tbl w TIdempotencyKey !! k) as [e|]; cbn beta iota.
    + by apply (safe_throw_if good later).
    + apply (safe_keeps good later); [done|done|]. intros v w1 HL1 Hg1.
      apply (safe_create_at TIdempotencyKey); [unfold ledger_tables; set_solver|done..].
  - by apply (safe_keeps good later).
Qed.

Lemma keeps_accountBalance p a c : keeps_good (accountBalance p a c).
Proof.
  intros s Hs. unfold accountBalance. apply (safe_read good later). intros w HL Hg.
  by apply (safe_lift good later).
Qed.
End reads.

(** Walk through a handler: one rule per operation, leaving the obligations of
    the writes to rows with an invariant. *)
Ltac safe_tables := unfold ledger_tables; set_solver.
(** [safe_rule] applies the rule, [safe_step] also names what it gives. *)
Ltac safe_rule :=
  cbn beta iota;
  lazymatch goal with
  | |- safe _ _ (find_unique ?t ?k ≫= _) _ _ => apply (safe_find_unique t k)
  | |- safe _ _ (find_first ?t ?p ≫= _) _ _ => apply (safe_find_first t p)
  | |- safe _ _ (read _ ≫= _) _ _ => apply (safe_read good later)
  | |- safe _ _ (find_many _ _ ≫= _) _ _ => apply (safe_read good later)
  | |- safe _ _ (find_first_desc _ _ _ ≫= _) _ _ => apply (safe_read good later)
  | |- safe _ _ (now ≫= _) _ _ => apply safe_now
  | |- safe _ _ (ageSeconds _ ≫= _) _ _ => apply (safe_read good later)
  | |- safe _ _ (nowIso ≫= _) _ _ => apply (safe_read good later)
  | |- safe _ _ (lastCheckAgeSeconds ≫= _) _ _ => apply (safe_read good later)
  | |- safe _ _ (randomUUID ≫= _) _ _ => apply safe_randomUUID
  | |- safe _ _ (new_Date _ ≫= _) _ _ => apply (safe_or_throw good later)
  | |- safe _ _ (lift _ ≫= _) _ _ => apply (safe_lift good later)
  | |- safe _ _ (throw_if _ _ ≫= _) _ _ => apply (safe_throw_if good later)
  | |- safe _ _ (or_throw _ _ ≫= _) _ _ => apply (safe_or_throw good later)
  | |- safe _ _ (audit_record _ ≫= _) _ _ => apply safe_audit; [assumption|]
  | |- safe _ _ (publish _ _ _ ≫= _) _ _ => apply safe_publish_named; [assumption|]
  | |- safe _ _ (publishToPaykh _ _ _ ≫= _) _ _ => apply safe_publish_named; [assumption|]
  | |- safe _ _ (publishWithArtifact _ _ _ _ _ ≫= _) _ _ => apply safe_publishWithArtifact; [assumption|]
  | |- safe _ _ (isEnabled _ _ ≫= _) _ _ => apply safe_isEnabled; [assumption|]
  | |- safe _ _ (requireEnabled _ ≫= _) _ _ => apply safe_requireEnabled; [assumption|]
  | |- safe _ _ (notify _ _ _ _ ≫= _) _ _ => apply safe_notify; [assumption|]
  | |- safe _ _ (randomBytes _ ≫= _) _ _ => apply safe_randomBytes
  | |- safe _ _ (find_many_desc _ _ _ _ ≫= _) _ _ => apply (safe_read good later)
  | |- safe _ _ (find_many_asc _ _ _ _ ≫= _) _ _ => apply (safe_read good later)
  | |- safe _ _ (find_all_asc _ _ _ ≫= _) _ _ => apply (safe_read good later)
  | |- safe _ _ (count _ _ ≫= _) _ _ => apply (safe_read good later)
  | |- safe _ _ (delete_row ?t ?k ≫= _) _ _ => apply (safe_delete t k); [reflexivity|]
  | |- safe _ _ (update_by ?t ?p ?f ≫= _) _ _ => apply (safe_update_by t p f); [safe_tables|done| |]
  | |- safe _ _ (create ?t ?f ≫= _) _ _ => apply (safe_create t f); [safe_tables|done| |]
  | |- safe _ _ (update ?t ?k ?f ≫= _) _ _ => apply (safe_update t k f); [safe_tables|done| |]
  | |- safe _ _ (accountBalance _ _ _ ≫= _) _ _ =>
      apply (safe_keeps good later); [assumption|apply keeps_accountBalance|]
  | |- safe _ _ (mret _) _ _ => done
  | |- safe _ _ (lift ?o) _ _ => destruct o; done
  | |- safe _ _ (throw_if ?b _) _ _ => destruct b; done
  | |- safe _ _ (or_throw ?o _) _ _ => destruct o; done
  | |- safe _ _ (Throw _) _ _ => exact I
  | |- safe _ _ (Throw _ ≫= _) _ _ => exact I
  | |- safe _ _ (match ?o with _ => _ end) _ _ => let E := fresh "E" in destruct o eqn:E
  end.
Ltac safe_step := safe_rule; intros.
Ltac safe_steps := repeat safe_step.

(** Chains of [later]. *)
Ltac solve_later :=
  lazymatch goal with
  | |- later ?a ?a => reflexivity
  | H : later ?a ?b |- later ?a ?c => first [exact H | transitivity b; [exact H|]; clear H; solve_later]
  end.
