(* ===== verification/Site.v ===== *)
(** One API process: the database it shares, its own memory and the Redis server
    ([apps/trustee-api/src/infra/redis.service.ts]).

    [Site] adds to the database what the guards and the scheduler keep outside it:
    the in-memory rate counters of the replica, the scheduler's flag and the keys of
    Redis.  Handlers
    over the database run on a site through [on_db], and what [Invariant] proves of
    them carries over ([keeps_on_db]). *)
From S2P Require Import Prelude.
From S2P Require Import Prog.
From S2P Require Import Crypto.
From S2P Require Import Schema.
From S2P Require Import Prisma.
From S2P Require Import Infra.
From S2P Require Import LedgerService.
From S2P Require Import Invariant.
#[local] Open Scope string_scope.
#[local] Open Scope list_scope.
#[local] Open Scope Z_scope.

(** * Redis

    The server is observed through [live k t s], the value a key holds at the
    instant [t], if any: a key with a time to live is gone when it has passed.
    Each law says what a command that is answered does to its key, and that no
    command touches another key.  A command that fails may have been executed. *)

Inductive rvalue : Type :=
| RInt (z : Z)
| RText (s : string)
| RSet (l : list string).

Definition others_live {S} (live : string → Z → S → option rvalue) (k : string) (t : Z) (s s' : S) : Prop :=
  ∀ k' u, k' ≠ k → t ≤ u → live k' u s' = live k' u s.

Class Redis : Type := {
  rstate : Type;
  live : string → Z → rstate → option rvalue;
  (** [REDIS_URL] is set, so that [RedisService.client] is not null *)
  redis_available : bool;
  redis_incr : string → Z → rstate → outcome Z * rstate;
  redis_incr_others k t s : others_live live k t s (redis_incr k t s).2;
  redis_incr_ok k t s n s' :
    redis_incr k t s = (Ok n, s') →
    match live k t s with
    | None => n = 1 ∧ ∀ u, t ≤ u → live k u s' = Some (RInt 1)
    | Some (RInt z) => n = z + 1 ∧ ∀ u, t ≤ u → is_Some (live k u s) → live k u s' = Some (RInt n)
    | Some _ => False
    end;
  (** [EXPIRE key seconds] *)
  redis_expire : string → Z → Z → rstate → outcome Z * rstate;
  redis_expire_others k ttl t s : others_live live k t s (redis_expire k ttl t s).2;
  redis_expire_ok k ttl t s n s' :
    redis_expire k ttl t s = (Ok n, s') →
    ∀ u, t ≤ u → live k u s' = if u <? t + ttl * 1000 then live k t s else None;
  (** [SET key value PX ttl NX]: was it set? *)
  redis_set_nx : string → string → Z → Z → rstate → outcome bool * rstate;
  redis_set_nx_others k v ttl t s : others_live live k t s (redis_set_nx k v ttl t s).2;
  redis_set_nx_ok k v ttl t s b s' :
    redis_set_nx k v ttl t s = (Ok b, s') →
    match live k t s with
    | None => b = true ∧ ∀ u, t ≤ u → live k u s' = if u <? t + ttl then Some (RText v) else None
    | Some _ => b = false ∧ ∀ u, t ≤ u → live k u s' = live k u s
    end;
  (** [NX] leaves a key that is held alone, whether or not the answer arrives *)
  redis_set_nx_keeps k v ttl t s u :
    t ≤ u → is_Some (live k u s) → is_Some (live k u (redis_set_nx k v ttl t s).2);
  (** [MGET]: the texts of the keys *)
  redis_mget : list string → Z → rstate → outcome (list (option string));
  (** [SISMEMBER] of each, in one pipeline *)
  redis_sismember : string → list string → Z → rstate → outcome (list Z);
  redis_sadd : string → list string → Z → rstate → outcome Z * rstate;
  redis_sadd_others k l t s : others_live live k t s (redis_sadd k l t s).2
}.

(** * The site *)

Record Site `{!Redis} : Type := mkSite {
  db : World;
  mem : gmap string (Z * Z);
  ticking : bool;
  redis : rstate
}.
Arguments mkSite {_} _ _ _ _.
Arguments db {_} _.
Arguments mem {_} _.
Arguments ticking {_} _.
Arguments redis {_} _.

(** The key of a job's lock ([scheduler.service.ts]). *)
Definition cron_key (job : string) : string := "trustee:cron:" +:+ job.

Section site.
Context `{RD : !Redis}.

Definition set_db (w : World) (s : Site) : Site := mkSite w (mem s) (ticking s) (redis s).
Definition set_mem (m : gmap string (Z * Z)) (s : Site) : Site := mkSite (db s) m (ticking s) (redis s).
Definition set_ticking (b : bool) (s : Site) : Site := mkSite (db s) (mem s) b (redis s).
Definition set_redis (r : rstate) (s : Site) : Site := mkSite (db s) (mem s) (ticking s) r.

(** A handler over the database, on the site. *)
Fixpoint on_db {A} (p : prog World A) : prog Site A :=
  match p with
  | Ret a => Ret a
  | Throw e => Throw e
  | Act f => Act (λ s, let '(p', w') := f (db s) in (on_db p', set_db w' s))
  end.

(** A command to Redis, at the time of the site. *)
Definition command {A} (f : Z → rstate → outcome A * rstate) : prog Site A :=
  action (λ s, let '(o, r') := f (clock (db s)) (redis s) in (o, set_redis r' s)).
Definition query {A} (f : Z → rstate → outcome A) : prog Site A :=
  action (λ s, (f (clock (db s)) (redis s), s)).

Lemma run_on_db {A} (p : prog World A) s :
  run (on_db p) s = ((run p (db s)).1, set_db (run p (db s)).2 s).
Proof.
  revert s. induction p as [a|e|f IH] using prog_ind'; intros s; cbn; [by destruct s..|].
  specialize (IH (db s)). destruct (f (db s)) as [p' w']. cbn in IH.
  rewrite (IH (set_db w' s)). by destruct s.
Qed.

Lemma run_on_db_ok {A} (p : prog World A) s a s' :
  run (on_db p) s = (Ok a, s') ↔ ∃ w', run p (db s) = (Ok a, w') ∧ s' = set_db w' s.
Proof.
  rewrite run_on_db. destruct (run p (db s)) as [o w']. cbn. split.
  - intros [= -> <-]. by exists w'.
  - by intros (w'' & [= -> ->] & ->).
Qed.

Lemma on_db_bind {A B} (p : prog World A) (k : A → prog World B) s :
  run (on_db (p ≫= k)) s = run (on_db p ≫= λ a, on_db (k a)) s.
Proof.
  rewrite run_bind, !run_on_db, run_bind. destruct (run p (db s)) as [[a|e] w']; cbn; [|done].
  by rewrite run_on_db.
Qed.

(** ** The invariant and the relation, on sites *)

Definition site_good (s : Site) : Prop := good (db s).

(** The locks that Redis holds stay until they expire. *)
Definition locks_kept (t : Z) (r r' : rstate) : Prop :=
  ∀ job u, t ≤ u → is_Some (live (cron_key job) u r) → is_Some (live (cron_key job) u r').

Record site_later (s s' : Site) : Prop := {
  site_db : later (db s) (db s');
  site_locks : locks_kept (clock (db s')) (redis s) (redis s')
}.

#[export] Instance site_later_preorder : PreOrder site_later.
Proof.
  split.
  - intros s. split; [reflexivity|]. by intros job u.
  - intros a b c [H1 L1] [H2 L2]. split; [by etrans|]. intros job u Hu H.
    apply L2; [done|]. apply L1; [|done]. pose proof (later_clock _ _ H2). lia.
Qed.

Lemma site_later_same (s s' : Site) : later (db s) (db s') → redis s' = redis s → site_later s s'.
Proof. intros HL E. split; [done|]. intros job u _. by rewrite E. Qed.

Lemma safe_on_db {A} (p : prog World A) Q s :
  safe good later p Q (db s) → safe site_good site_later (on_db p) (λ a s', Q a (db s')) s.
Proof.
  revert s. induction p as [a|e|f IH] using prog_ind'; intros s; cbn; [|done|].
  - intros H s1 HL Hg. apply H; [apply HL|done].
  - intros H s1 HL Hg. specialize (H (db s1) (site_db _ _ HL) Hg). specialize (IH (db s1)).
    destruct (f (db s1)) as [p' w']. destruct H as (Hg' & HL' & Hp).
    split_and!; [done|by apply site_later_same|]. by apply (IH (set_db w' s1)).
Qed.

Lemma keeps_on_db {A} (p : prog World A) : keeps good later p → keeps site_good site_later (on_db p).
Proof. intros Hp s Hs. exact (safe_on_db p (λ _ _, True) s (Hp (db s) Hs)). Qed.

(** A step that leaves the database alone. *)
Lemma keeps_off_db {A} (f : Site → outcome A * Site) :
  (∀ s, db (f s).2 = db s) → (∀ s, locks_kept (clock (db s)) (redis s) (redis (f s).2)) →
  keeps site_good site_later (action f).
Proof.
  intros Hf Hr s Hs. apply (safe_action_last site_good site_later). intros s1 HL Hg.
  split_and!; [|split|by intros].
  - unfold site_good. by rewrite Hf.
  - by rewrite Hf.
  - rewrite Hf. apply Hr.
Qed.

Lemma keeps_command {A} (f : Z → rstate → outcome A * rstate) :
  (∀ t r, locks_kept t r (f t r).2) → keeps site_good site_later (command f).
Proof.
  intros Hf. apply keeps_off_db; intros s; specialize (Hf (clock (db s)) (redis s)); by destruct (f _ _) as [o r'].
Qed.
Lemma keeps_query {A} (f : Z → rstate → outcome A) : keeps site_good site_later (query f).
Proof. apply keeps_off_db; [done|]. by intros s job u. Qed.
Lemma keeps_site_read {A} (f : Site → A) : keeps site_good site_later (read f).
Proof. intros s Hs s1 HL Hg. by split_and!. Qed.

(** A command on a key that is no lock. *)
Lemma locks_kept_others k t r r' : (∀ job, cron_key job ≠ k) → others_live live k t r r' → locks_kept t r r'.
Proof. intros Hk Ho job u Hu H. rewrite Ho; [done|apply Hk|done]. Qed.

Lemma keeps_bind {A B} (p : prog Site A) (k : A → prog Site B) :
  keeps site_good site_later p → (∀ a, keeps site_good site_later (k a)) → keeps site_good site_later (p ≫= k).
Proof.
  intros Hp Hk s Hs. apply (safe_keeps site_good site_later); [done..|]. intros a s1 _ Hs1. by apply Hk.
Qed.
Lemma keeps_ret {A} (a : A) : keeps site_good site_later (mret a).
Proof. by intros s Hs s1 HL Hg. Qed.
Lemma keeps_throw {A} e : keeps site_good site_later (Throw (A:=A) e).
Proof. by intros s Hs. Qed.
Lemma keeps_lift {A} (o : outcome A) : keeps site_good site_later (lift o).
Proof. destruct o; [apply keeps_ret|apply keeps_throw]. Qed.
Lemma keeps_catch {A} (p : prog Site A) h :
  keeps site_good site_later p → (∀ e, keeps site_good site_later (h e)) → keeps site_good site_later (prog_catch p h).
Proof.
  intros Hp Hh s Hs. apply (safe_catch site_good site_later); [done|by apply Hp|]. intros e s' _ Hs'. by apply Hh.
Qed.
End site.

#[export] Hint Resolve keeps_on_db keeps_query keeps_site_read keeps_bind keeps_ret keeps_throw keeps_lift keeps_catch : trustee.

(** * A concrete Redis

    The keys with their values and the instants at which they expire. *)

Definition toy_live (k : string) (t : Z) (m : gmap string (rvalue * option Z)) : option rvalue :=
  match m !! k with
  | Some (v, Some d) => if t <? d then Some v else None
  | Some (v, None) => Some v
  | None => None
  end.

Definition toy_incr (k : string) (t : Z) (m : gmap string (rvalue * option Z)) : outcome Z * gmap string (rvalue * option Z) :=
  match toy_live k t m with
  | None => (Ok 1, <[k := (RInt 1, None)]> m)
  | Some (RInt z) => (Ok (z + 1), <[k := (RInt (z + 1), (m !! k) ≫= snd)]> m)
  | Some _ => (Err (JsError "ReplyError" "WRONGTYPE"), m)
  end.

Definition toy_expire (k : string) (ttl t : Z) (m : gmap string (rvalue * option Z)) : outcome Z * gmap string (rvalue * option Z) :=
  match toy_live k t m with
  | Some v => (Ok 1, <[k := (v, Some (t + ttl * 1000))]> m)
  | None => (Ok 0, delete k m)
  end.

Definition toy_set_nx (k v : string) (ttl t : Z) (m : gmap string (rvalue * option Z)) : outcome bool * gmap string (rvalue * option Z) :=
  match toy_live k t m with
  | Some _ => (Ok false, m)
  | None => (Ok true, <[k := (RText v, Some (t + ttl))]> m)
  end.

Definition toy_members (k : string) (t : Z) (m : gmap string (rvalue * option Z)) : list string :=
  match toy_live k t m with Some (RSet l) => l | _ => [] end.

Definition toy_sadd (k : string) (l : list string) (t : Z) (m : gmap string (rvalue * option Z)) : outcome Z * gmap string (rvalue * option Z) :=
  (Ok (Z.of_nat (length l)), <[k := (RSet (toy_members k t m ++ l), None)]> m).

Definition toy_text (o : option rvalue) : option string :=
  match o with Some (RInt z) => Some (big_to_string z) | Some (RText s) => Some s | _ => None end.

Lemma toy_live_ne k k' t m x : k' ≠ k → toy_live k' t (<[k := x]> m) = toy_live k' t m.
Proof. intros H. unfold toy_live. by rewrite lookup_insert_ne by done. Qed.

Definition toy_redis (available : bool) : Redis.
Proof.
  refine {| rstate := gmap string (rvalue * option Z); live := toy_live; redis_available := available;
            redis_incr := toy_incr; redis_expire := toy_expire; redis_set_nx := toy_set_nx;
            redis_mget := λ ks t m, Ok (map (λ k, toy_text (toy_live k t m)) ks);
            redis_sismember := λ k l t m, Ok (map (λ x, if bool_decide (x ∈ toy_members k t m) then 1 else 0) l);
            redis_sadd := toy_sadd |}.
  - intros k t s k' u Hk Hu. unfold toy_incr. destruct (toy_live k t s) as [[]|]; cbn; by rewrite ?toy_live_ne.
  - intros k t s n s'. unfold toy_incr. destruct (toy_live k t s) as [[z|x|l]|] eqn:E; intros [= <- <-].
    + split; [done|]. intros u Hu. unfold toy_live. rewrite lookup_insert_eq.
      destruct (s !! k) as [[v [d|]]|]; cbn; [|done|by intros []].
      by destruct (u <? d); [|intros []].
    + split; [done|]. intros u Hu. unfold toy_live. by rewrite lookup_insert_eq.
  - intros k ttl t s k' u Hk Hu. unfold toy_expire. destruct (toy_live k t s); cbn; [by rewrite toy_live_ne|].
    unfold toy_live. by rewrite lookup_delete_ne.
  - intros k ttl t s n s'. unfold toy_expire. destruct (toy_live k t s) as [v|] eqn:E; intros [= <- <-] u Hu; unfold toy_live.
    + by rewrite lookup_insert_eq.
    + rewrite lookup_delete_eq. by destruct (_ <? _).
  - intros k v ttl t s k' u Hk Hu. unfold toy_set_nx. destruct (toy_live k t s); cbn; [done|by rewrite toy_live_ne].
  - intros k v ttl t s b s'. unfold toy_set_nx. destruct (toy_live k t s) as [x|] eqn:E; intros [= <- <-]; [done|].
    split; [done|]. intros u Hu. unfold toy_live. by rewrite lookup_insert_eq.
  - intros k v ttl t s u Hu. unfold toy_set_nx. destruct (toy_live k t s) eqn:E; [done|]. cbn. intros [x Hx].
    exfalso. unfold toy_live in *. destruct (s !! k) as [[y [d|]]|]; [|done..].
    destruct (Z.ltb_spec t d), (Z.ltb_spec u d); try done. lia.
  - intros k l t s k' u Hk Hu. cbn. by rewrite toy_live_ne.
Defined.
