(* ===== verification/Demo.v ===== *)
(** A concrete platform for the witnesses: toy cryptography, a clock that only
    moves when told, a bank, a PayChain and a Horizon with fixed answers, and a
    seeded database with one program, its account and three users; and the same with
    operators, clients, a role and an open password reset ([demo_access]). *)
From S2P Require Import Prelude.
From S2P Require Import Money.
From S2P Require Import Domain.
From S2P Require Import Ledger.
From S2P Require Import Prog.
From S2P Require Import Crypto.
From S2P Require Import Credentials.
From S2P Require Import Schema.
From S2P Require Import Prisma.
From S2P Require Import Infra.
From S2P Require Import LedgerService.
From S2P Require Import Invariant.
#[local] Open Scope string_scope.
#[local] Open Scope list_scope.
#[local] Open Scope Z_scope.

Definition demo_runtime : Runtime :=
  {| runtime_crypto := toy_crypto; runtime_auth := toy_auth;
     uuid := λ n, "uuid-" +:+ big_to_string (Z.of_nat n);
     date_parse := string_to_bigint;
     bank_api := λ _ _ _ _, Ok (mkBankAccountBalance "0" "USD");
     paychain_execute := λ _ _ _, Ok (mkIssuanceExecutionResult true "CONFIRMED" (Some "ref") (Some "tx"));
     horizon_asset := λ _ _ _ _, Ok None;
     webhook_post := λ _ _ _ _, (false, Some 500, Some "unavailable");
     resend_api := λ _ _ _ _, Some true; webhook_probe := λ _ _, Ok 200 |}.

Definition demo_env : Env :=
  {| signing := toy_service; process_env := λ _, None; MAX_RESERVE_SNAPSHOT_AGE_S := 900;
     MAX_BANK_CONNECTIVITY_AGE_S := 300; MAX_LIABILITY_FEED_AGE_S := 900;
     MAX_PROOF_OF_RESERVE_AGE_S := None; MINT_AUTH_TTL_S := 900; WEBHOOK_MAX_ATTEMPTS := 8;
     WEBHOOK_BATCH_SIZE := 25;
     SESSION_SECRET := "secret"; SESSION_TTL_SECONDS := 3600; ENFORCE_OPERATOR_MFA := true;
     PASSWORD_RESET_TTL_SECONDS := 3600; TRUSTEE_PUBLIC_URL := "https://trustee";
     MAX_REQUEST_SKEW_SECONDS := 300; NOTIFY_TO := ["ops@bank"];
     RESERVE_CYCLE_INTERVAL_MS := 3600000; DEADLETTER_ALERT_INTERVAL_MS := 300000;
     FEED_STALE_SECONDS := 3600 |}.

Definition demo_program : Program.t :=
  {| Program.id := "p"; Program.code := "PUSD"; Program.legalEntityId := "le"; Program.issuerId := "tenant";
     Program.trusteeBankId := "bank"; Program.assetId := "PUSD"; Program.referenceCurrency := "USD";
     Program.legalModel := "TRUST"; Program.regulatoryStatus := "PILOT";
     Program.reservePolicy := "FULL"; Program.requiredRatioBps := 10000; Program.safetyBufferBps := 0;
     Program.agreementReferences := []; Program.effectiveDate := 0; Program.expiryDate := None;
     Program.status := PROGRAM_ACTIVE; Program.createdAt := 0 |}.

Definition demo_account : TrusteeAccount.t :=
  {| TrusteeAccount.id := "acc"; TrusteeAccount.programId := "p";
     TrusteeAccount.maskedAccountNumber := "***1"; TrusteeAccount.coreBankingRef := "core-1";
     TrusteeAccount.accountName := "PUSD reserve"; TrusteeAccount.bankLegalEntity := "Bank";
     TrusteeAccount.branch := None; TrusteeAccount.currency := "USD";
     TrusteeAccount.classification := "RESERVE"; TrusteeAccount.supportedAssetId := "PUSD";
     TrusteeAccount.status := ACCOUNT_ACTIVE; TrusteeAccount.balanceSource := "MANUAL";
     TrusteeAccount.integrationMode := "MANUAL"; TrusteeAccount.bankId := None;
     TrusteeAccount.mockClearedMinor := 0; TrusteeAccount.minimumBalanceMinor := 0;
     TrusteeAccount.requiredReserveBps := 0; TrusteeAccount.restricted := false;
     TrusteeAccount.agreementReference := None; TrusteeAccount.openedDate := None;
     TrusteeAccount.closedDate := None; TrusteeAccount.createdAt := 0 |}.

Definition demo_user (id institution : string) : User.t :=
  {| User.id := id; User.email := id +:+ "@bank"; User.displayName := id; User.institution := institution;
     User.roles := []; User.attributes := None; User.passwordHash := None; User.mfaSecret := None;
     User.mfaEnabled := false; User.disabled := false; User.createdAt := 0 |}.

Definition demo_flag (key : string) : FeatureFlag.t :=
  {| FeatureFlag.key := key; FeatureFlag.enabled := true; FeatureFlag.description := None;
     FeatureFlag.updatedBy := None |}.

Definition demo_merchant : PaykhMerchant.t :=
  {| PaykhMerchant.id := "m"; PaykhMerchant.tenantId := "t"; PaykhMerchant.merchantCode := "M1";
     PaykhMerchant.paykhMerchantRef := None; PaykhMerchant.legalName := "Shop";
     PaykhMerchant.country := None; PaykhMerchant.kycStatus := "VERIFIED";
     PaykhMerchant.status := "ACTIVE"; PaykhMerchant.riskLevel := "LOW"; PaykhMerchant.source := "PAYKH";
     PaykhMerchant.lastReportedAt := 0; PaykhMerchant.createdAt := 0 |}.

(** A row of the seed: its table, key and columns. *)
Definition seed_row : Type := { t : table & (string * row t)%type }.
Definition seed (t : table) (k : string) (r : row t) : seed_row := existT t (k, r).

Definition plant (s : seed_row) (w : World) : World :=
  match s with existT t (k, r) => put t k r w end.

(** A row without promises of its own, new and admissible. *)
Definition plantable (s : seed_row) (w : World) : Prop :=
  match s with
  | existT t (k, r) =>
      bool_decide (t ∉ ledger_tables) && bool_decide (row_key t r = k) &&
      negb (has_row t k w) && admissible t k r w = true ∧ row_inv t r w
  end.

Lemma good_empty : good empty_world.
Proof.
  split; [apply ledger_ok_empty|..].
  - intros t k k' r r' H. cbn in H. by rewrite lookup_empty in H.
  - intros t k r H. cbn in H. by rewrite lookup_empty in H.
  - intros t k r H. cbn in H. by rewrite lookup_empty in H.
  - intros t k r H. cbn in H. by rewrite lookup_empty in H.
Qed.

Lemma good_plant s w : good w → plantable s w → good (plant s w).
Proof.
  intros Hg. destruct s as [t [k r]]. cbn [plantable plant].
  intros [(((H1 & H2)%andb_true_iff & H3)%andb_true_iff & H4)%andb_true_iff H5].
  apply bool_decide_eq_true in H1, H2. apply negb_true_iff in H3.
  apply good_put; try done. apply later_put. intros r0 Hr0.
  unfold has_row in H3. by rewrite Hr0 in H3.
Qed.

Definition demo_seed : list seed_row :=
  [seed TProgram "p" demo_program; seed TTrusteeAccount "acc" demo_account;
   seed TUser "maker" (demo_user "maker" "TRUSTEE_BANK");
   seed TUser "checker" (demo_user "checker" "TRUSTEE_BANK");
   seed TUser "outsider" (demo_user "outsider" "PAYCHAIN");
   seed TFeatureFlag "mint.authorization.enabled" (demo_flag "mint.authorization.enabled");
   seed TFeatureFlag "paychain.redemption.enabled" (demo_flag "paychain.redemption.enabled");
   seed TFeatureFlag "paykh.loyalty.enabled" (demo_flag "paykh.loyalty.enabled");
   seed TFeatureFlag "bank.payout.enabled" (demo_flag "bank.payout.enabled");
   seed TPaykhMerchant "m" demo_merchant].

Definition demo_world : World := fold_left (λ w s, plant s w) demo_seed empty_world.

Lemma good_demo : good demo_world.
Proof.
  unfold demo_world, demo_seed. cbn [fold_left].
  repeat (apply good_plant; [|split; [by vm_compute|done]]). apply good_empty.
Qed.

(** ** Operators and clients

    An operator with a second factor and one without, an open password reset, a
    client of each platform and the role the operators hold. *)

Definition demo_operator (id hash : string) (secret : option string) : User.t :=
  {| User.id := id; User.email := id +:+ "@bank"; User.displayName := id; User.institution := "TRUSTEE_BANK";
     User.roles := ["teller"]; User.attributes := None; User.passwordHash := Some hash; User.mfaSecret := secret;
     User.mfaEnabled := bool_decide (is_Some secret); User.disabled := false; User.createdAt := 0 |}.

Definition demo_hash (password : string) : string :=
  match @hashPassword toy_auth password 7 with Ok h => h | Err _ => "" end.

Definition demo_reset : PasswordReset.t :=
  {| PasswordReset.id := "reset"; PasswordReset.userId := "novice"; PasswordReset.tokenHash := "htoken";
     PasswordReset.expiresAt := 1700003600000; PasswordReset.usedAt := None; PasswordReset.createdAt := 0 |}.

Definition demo_client (id platform : string) (signed : bool) (limit : Z) : ClientApplication.t :=
  {| ClientApplication.id := id; ClientApplication.platform := platform; ClientApplication.displayName := platform;
     ClientApplication.oauthClientId := id; ClientApplication.clientSecretHash := Some ("hsecret-" +:+ id);
     ClientApplication.publicKeyPem := if signed then Some "client-key" else None;
     ClientApplication.requireSignature := signed; ClientApplication.ipAllowlist := [];
     ClientApplication.webhookUrl := Some "https://receiver"; ClientApplication.rateLimitPerMin := limit;
     ClientApplication.disabled := false; ClientApplication.createdAt := 0 |}.

Definition demo_role : Role.t :=
  {| Role.slug := "teller"; Role.name := "Teller"; Role.description := None; Role.institution := "TRUSTEE_BANK";
     Role.permissions := ["deposit.clear"]; Role.builtin := false; Role.createdAt := 0 |}.

Definition demo_access_seed : list seed_row :=
  [seed TUser "ops" (demo_operator "ops" (demo_hash "correct horse") (Some "MZXQ"));
   seed TUser "novice" (demo_operator "novice" (demo_hash "battery staple") None);
   seed TPasswordReset "reset" demo_reset;
   seed TClientApplication "paychain-1" (demo_client "paychain-1" "PAYCHAIN" true 2);
   seed TClientApplication "paykh-1" (demo_client "paykh-1" "PAYKH" false 600);
   seed TRole "teller" demo_role].

Definition demo_access : World := fold_left (λ w s, plant s w) demo_access_seed (set_clock 1700000025000 demo_world).

Lemma good_demo_access : good demo_access.
Proof.
  unfold demo_access, demo_access_seed. cbn [fold_left].
  repeat (apply good_plant; [|split; [by vm_compute|done]]).
  by apply (good_frame demo_world), good_demo.
Qed.
