(* ===== verification/ReserveService.v ===== *)
(** The live reserve position, reserve snapshots, adjustments, bank
    reconciliation and the bank registry:
    [apps/trustee-api/src/modules/reserve/reserve.service.ts]. *)
From S2P Require Import Prelude.
From S2P Require Import Money.
From S2P Require Import Domain.
From S2P Require Import Ledger.
From S2P Require Import Reserve.
From S2P Require Import Prog.
From S2P Require Import Crypto.
From S2P Require Import Schema.
From S2P Require Import Prisma.
From S2P Require Import Infra.
From S2P Require Import LedgerService.
From S2P Require Import Invariant.
#[local] Open Scope string_scope.
#[local] Open Scope list_scope.
#[local] Open Scope Z_scope.

Record ReservePosition : Type := mkReservePosition {
  rp_programId : string;
  rp_currency : string;
  rp_eligibleReserve : Money;
  rp_reserveObligation : Money;
  rp_requiredReserve : Money;
  rp_mintCapacity : Money;
  rp_surplus : Money;
  rp_reserveRatioBps : option number;
  rp_liabilityAgeSeconds : option Z
}.

(** The sum of one [kind] in the groups of [reserveAdjustment.groupBy]. *)
Definition adjustment_sum (kind : string) (rows : list ReserveAdjustment.t) : Z :=
  sumZ ReserveAdjustment.amountMinor
    (where_rows (λ a, bool_decide (ReserveAdjustment.kind a = kind)) rows).

(** The synchronous part of [position], from the values read. *)
Definition position_of (programId currency : string) (safetyBufferBps requiredRatioBps : Z)
    (cleared unmatched pendingMint pendingRedemption circulating : Money)
    (adj : string → Money) (age : option Z) : outcome ReservePosition :=
  eligible ← eligibleReserve {|
    er_currency := currency; clearedBankBalance := cleared;
    restrictedFunds := adj "RESTRICTED"; unmatchedFunds := unmatched;
    pendingOutgoingPayouts := pendingRedemption; bankChargesDue := adj "BANK_CHARGE";
    regulatoryHolds := adj "REGULATORY_HOLD"; operationalFunds := adj "OPERATIONAL";
    otherIneligibleAmounts := zero currency |};
  obligation ← reserveObligation {|
    ro_currency := currency; circulatingSupply := circulating;
    confirmedRedemptionObligations := pendingRedemption;
    otherContractualLiabilities := zero currency; legallyApprovedExclusions := zero currency |};
  buffer ← requiredSafetyBuffer obligation safetyBufferBps;
  let requiredReserve := money (big_div (minor obligation * requiredRatioBps) 10000) currency in
  capacity ← mintCapacity {|
    mc_currency := currency; mc_eligibleReserve := eligible; existingReserveObligation := obligation;
    mc_requiredSafetyBuffer := buffer; pendingMintAuthorizations := pendingMint |};
  surplus ← reserveSurplus eligible requiredReserve;
  ratio ← reserveRatioBps eligible obligation;
  Ok {| rp_programId := programId; rp_currency := currency; rp_eligibleReserve := eligible;
        rp_reserveObligation := obligation; rp_requiredReserve := requiredReserve;
        rp_mintCapacity := capacity; rp_surplus := surplus; rp_reserveRatioBps := ratio;
        rp_liabilityAgeSeconds := age |}.

Definition js_number_opt (o : option number) : jsval := match o with Some n => JNum n | None => JNull end.

Definition serializeSnapshot (s : ReserveSnapshot.t) : jsval :=
  JObj [("snapshotId", JStr (ReserveSnapshot.id s));
        ("programId", JStr (ReserveSnapshot.programId s));
        ("assetId", JStr (ReserveSnapshot.assetId s));
        ("referenceCurrency", JStr (ReserveSnapshot.referenceCurrency s));
        ("eligibleReserveMinor", js_big (ReserveSnapshot.eligibleReserveMinor s));
        ("circulatingLiabilityMinor", js_big (ReserveSnapshot.circulatingLiabilityMinor s));
        ("requiredReserveMinor", js_big (ReserveSnapshot.requiredReserveMinor s));
        ("surplusMinor", js_big (ReserveSnapshot.surplusMinor s));
        ("reserveRatioBps", js_number_opt (Num <$> ReserveSnapshot.reserveRatioBps s));
        ("reconciliationStatus", JStr (ReserveSnapshot.reconciliationStatus s));
        ("signature", JObj [("keyId", JStr (ReserveSnapshot.signatureKeyId s));
                            ("value", JStr (ReserveSnapshot.signatureValue s));
                            ("algorithm", JStr "ed25519")]);
        ("contentHash", JStr (ReserveSnapshot.contentHash s));
        ("createdAt", JStr (toISOString (ReserveSnapshot.createdAt s)))].

(** The masked columns of a reserve account. *)
Definition js_reserve_account (a : TrusteeAccount.t) : jsval :=
  JObj [("id", JStr (TrusteeAccount.id a));
        ("maskedAccountNumber", JStr (TrusteeAccount.maskedAccountNumber a));
        ("accountName", JStr (TrusteeAccount.accountName a));
        ("bankLegalEntity", JStr (TrusteeAccount.bankLegalEntity a));
        ("currency", JStr (TrusteeAccount.currency a));
        ("classification", JStr (TrusteeAccount.classification a));
        ("status", JStr (AccountStatus_to_string (TrusteeAccount.status a)));
        ("programId", JStr (TrusteeAccount.programId a));
        ("supportedAssetId", JStr (TrusteeAccount.supportedAssetId a))].

Definition adjustment_kinds : list string :=
  ["RESTRICTED"; "REGULATORY_HOLD"; "OPERATIONAL"; "BANK_CHARGE"].
Definition integration_modes : list string := ["MOCK"; "API"; "MANUAL"; "STATEMENT"].

Section reserve_service.
Context `{RT : !Runtime} `{PC : !PrismaClient} (env : Env).

Definition program (programId : string) : prog World Program.t :=
  p ← find_unique TProgram programId;
  or_throw p (NotFoundException ("Program " +:+ programId +:+ " not found")).

Definition position (programId : string) : prog World ReservePosition :=
  p ← find_unique TProgram programId;
  p ← or_throw p (NotFoundException ("Program " +:+ programId +:+ " not found"));
  let currency := Program.referenceCurrency p in
  cleared ← accountBalance programId ASSET_TRUSTEE_BANK_CASH currency;
  unmatched ← accountBalance programId LIABILITY_UNMATCHED_DEPOSIT currency;
  pendingMint ← accountBalance programId LIABILITY_PENDING_MINT currency;
  pendingRedemption ← accountBalance programId LIABILITY_PENDING_REDEMPTION currency;
  latest ← find_first_desc TLiabilitySnapshot
             (λ s, bool_decide (LiabilitySnapshot.programId s = programId) &&
                   LiabilitySnapshot.signatureVerified s) LiabilitySnapshot.sequence;
  let circulating := money (match latest with Some s => LiabilitySnapshot.circulatingMinor s
                                            | None => 0 end) currency in
  t ← now;
  let age := age_seconds t <$> (LiabilitySnapshot.snapshotTimestamp <$> latest) in
  adjustments ← find_many TReserveAdjustment
                  (λ a, bool_decide (ReserveAdjustment.programId a = programId) &&
                        bool_decide (ReserveAdjustment.currency a = currency) &&
                        ReserveAdjustment.active a);
  lift (position_of programId currency (Program.safetyBufferBps p) (Program.requiredRatioBps p)
          cleared unmatched pendingMint pendingRedemption circulating
          (λ kind, money (adjustment_sum kind adjustments) currency) age).

Definition createSnapshot (programId : string) : prog World (string * option number) :=
  pos ← position programId;
  p ← program programId;
  timestamp ← nowIso;
  let dataSources := ["reserve-subledger"; "paychain-liability-feed"] in
  let content :=
    JObj [("programId", JStr programId); ("assetId", JStr (Program.assetId p));
          ("referenceCurrency", JStr (rp_currency pos)); ("timestamp", JStr timestamp);
          ("eligibleReserveMinor", js_big (minor (rp_eligibleReserve pos)));
          ("circulatingLiabilityMinor", js_big (minor (rp_reserveObligation pos)));
          ("requiredReserveMinor", js_big (minor (rp_requiredReserve pos)));
          ("surplusMinor", js_big (minor (rp_surplus pos)));
          ("reserveRatioBps", js_number_opt (rp_reserveRatioBps pos));
          ("dataSources", JArr (map JStr dataSources))] in
  let contentHash := sha256Hex (default "undefined" (json_stringify content)) in
  signature ← lift (sign (signing env) RESERVE_SNAPSHOT content);
  ratio ← (match rp_reserveRatioBps pos with
           | None => mret None
           | Some (Num z) => mret (Some z)
           | Some (Infinity _) => Throw (PrismaError "P2009")
           end);
  snapshot ← create TReserveSnapshot (λ k t,
    {| ReserveSnapshot.id := k; ReserveSnapshot.programId := programId;
       ReserveSnapshot.assetId := Program.assetId p;
       ReserveSnapshot.referenceCurrency := rp_currency pos;
       ReserveSnapshot.eligibleReserveMinor := minor (rp_eligibleReserve pos);
       ReserveSnapshot.excludedAmountMinor := 0;
       ReserveSnapshot.circulatingLiabilityMinor := minor (rp_reserveObligation pos);
       ReserveSnapshot.pendingRedemptionMinor := 0;
       ReserveSnapshot.requiredReserveMinor := minor (rp_requiredReserve pos);
       ReserveSnapshot.reserveRatioBps := ratio;
       ReserveSnapshot.surplusMinor := minor (rp_surplus pos);
       ReserveSnapshot.reconciliationStatus :=
         if 0 <=? minor (rp_surplus pos) then "OK" else "SHORTFALL";
       ReserveSnapshot.dataSources := dataSources;
       ReserveSnapshot.signatureKeyId := keyId signature;
       ReserveSnapshot.signatureValue := value signature;
       ReserveSnapshot.contentHash := contentHash; ReserveSnapshot.createdAt := t |});
  p' ← program programId;
  _ ← publishWithArtifact env RESERVE_SNAPSHOT_CREATED
        (JObj [("snapshotId", JStr (ReserveSnapshot.id snapshot)); ("programId", JStr programId);
               ("reserveRatioBps", js_number_opt (rp_reserveRatioBps pos))])
        (JObj [("snapshotId", JStr (ReserveSnapshot.id snapshot));
               ("tenantId", JStr (Program.issuerId p')); ("assetId", JStr (Program.assetId p));
               ("reserveBalance", js_big (minor (rp_eligibleReserve pos)));
               ("currency", JStr (rp_currency pos)); ("asOf", JStr timestamp)])
        RESERVE_SNAPSHOT;
  (if minor (rp_surplus pos) <? 0 then
     _ ← publish env RESERVE_SHORTFALL_DETECTED
           (JObj [("programId", JStr programId); ("shortfallMinor", js_big (minor (rp_surplus pos)))]);
     mret tt
   else mret tt);;
  mret (ReserveSnapshot.id snapshot, rp_reserveRatioBps pos).

Definition latestSnapshot (programId : string) : prog World jsval :=
  s ← find_first_desc TReserveSnapshot (λ s, bool_decide (ReserveSnapshot.programId s = programId))
        ReserveSnapshot.createdAt;
  s ← or_throw s (NotFoundException ("No reserve snapshot for program " +:+ programId));
  mret (serializeSnapshot s).

Definition getSnapshot (snapshotId : string) : prog World jsval :=
  s ← find_unique TReserveSnapshot snapshotId;
  s ← or_throw s (NotFoundException ("Snapshot " +:+ snapshotId +:+ " not found"));
  mret (serializeSnapshot s).

Definition snapshotHistory (programId : string) (limit : nat) : prog World jsval :=
  rows ← find_many_desc TReserveSnapshot (λ s, bool_decide (ReserveSnapshot.programId s = programId))
           ReserveSnapshot.createdAt (Nat.min limit 200);
  mret (JObj [("snapshots", JArr (map serializeSnapshot rows))]).

Definition ratio (programId : string) : prog World jsval :=
  pos ← position programId;
  asOf ← nowIso;
  mret (JObj [("programId", JStr programId);
              ("reserveRatioBps", js_number_opt (rp_reserveRatioBps pos)); ("asOf", JStr asOf)]).

Definition listAccounts (programId : option string) : prog World jsval :=
  accounts ← find_many TTrusteeAccount
    (λ a, match truthy programId with
          | Some p => bool_decide (TrusteeAccount.programId a = p) | None => true end);
  mret (JObj [("accounts", JArr (map js_reserve_account accounts))]).

Definition getAccount (accountId : string) : prog World jsval :=
  a ← find_unique TTrusteeAccount accountId;
  a ← or_throw a (NotFoundException ("Reserve account " +:+ accountId +:+ " not found"));
  mret (js_reserve_account a).

Definition reserveAccountBalance (accountId : string) : prog World jsval :=
  a ← find_unique TTrusteeAccount accountId;
  a ← or_throw a (NotFoundException ("Reserve account " +:+ accountId +:+ " not found"));
  pos ← position (TrusteeAccount.programId a);
  asOf ← nowIso;
  mret (JObj [("accountId", JStr accountId); ("currency", JStr (rp_currency pos));
              ("eligibleReserveMinor", js_big (minor (rp_eligibleReserve pos)));
              ("mintCapacityMinor", js_big (minor (rp_mintCapacity pos))); ("asOf", JStr asOf)]).

(** ** Adjustments *)

Definition addAdjustment (programId kind amountMinor : string) (reason : option string)
    (actor : string) : prog World jsval :=
  p ← program programId;
  throw_if (negb (bool_decide (kind ∈ adjustment_kinds)))
    (NotFoundException ("Unknown adjustment kind " +:+ kind));;
  amount ← lift (BigInt amountMinor);
  a ← create TReserveAdjustment (λ k t,
    {| ReserveAdjustment.id := k; ReserveAdjustment.programId := programId;
       ReserveAdjustment.currency := Program.referenceCurrency p; ReserveAdjustment.kind := kind;
       ReserveAdjustment.amountMinor := amount; ReserveAdjustment.active := true;
       ReserveAdjustment.reason := reason; ReserveAdjustment.createdBy := actor;
       ReserveAdjustment.liftedBy := None; ReserveAdjustment.createdAt := t |});
  mret (JObj [("id", JStr (ReserveAdjustment.id a)); ("kind", JStr (ReserveAdjustment.kind a));
              ("amountMinor", js_big (ReserveAdjustment.amountMinor a));
              ("active", JBool (ReserveAdjustment.active a))]).

Definition liftAdjustment (id actor : string) : prog World jsval :=
  a ← update TReserveAdjustment id (λ a,
        ReserveAdjustment.set_liftedBy (Some actor) (ReserveAdjustment.set_active false a));
  mret (JObj [("id", JStr (ReserveAdjustment.id a)); ("active", JBool (ReserveAdjustment.active a))]).

Definition listAdjustments (programId : string) : prog World jsval :=
  rows ← find_many TReserveAdjustment
    (λ a, bool_decide (ReserveAdjustment.programId a = programId) && ReserveAdjustment.active a);
  mret (JObj [("adjustments", JArr (map (λ a,
    JObj [("id", JStr (ReserveAdjustment.id a)); ("kind", JStr (ReserveAdjustment.kind a));
          ("amountMinor", js_big (ReserveAdjustment.amountMinor a));
          ("reason", js_of_opt (ReserveAdjustment.reason a))]) rows))]).

(** ** Bank reconciliation *)

Record BankTotals : Type := mkBankTotals {
  bankTotal : Z; uncovered : Z; perBank : list jsval
}.

Definition reconcile_account (acc : BankTotals) (a : TrusteeAccount.t) : prog World BankTotals :=
  bal ← clearedBalanceForAccount env a;
  match bal with
  | Some b =>
      mret {| bankTotal := bankTotal acc + bb_minor b; uncovered := uncovered acc;
              perBank := perBank acc ++
                [JObj [("accountId", JStr (TrusteeAccount.id a)); ("bankId", js_of_opt (bb_bankId b));
                       ("source", JStr (bb_source b)); ("balanceMinor", js_big (bb_minor b))]] |}
  | None =>
      mret {| bankTotal := bankTotal acc; uncovered := uncovered acc + 1;
              perBank := perBank acc ++
                [JObj [("accountId", JStr (TrusteeAccount.id a));
                       ("bankId", js_of_opt (TrusteeAccount.bankId a));
                       ("source", JStr "manual"); ("balanceMinor", JNull)]] |}
  end.

Record BankReconciliation : Type := mkBankReconciliation {
  br_ledgerCash : Z; br_bankTotal : Z; br_drift : Z; br_reconciled : option bool;
  br_covered : Z; br_uncovered : Z; br_banks : list jsval; br_asOf : string
}.

Definition reconcileBank (programId : string) : prog World BankReconciliation :=
  p ← program programId;
  let currency := Program.referenceCurrency p in
  accounts ← find_many TTrusteeAccount (λ a, bool_decide (TrusteeAccount.programId a = programId));
  ledgerCash ← accountBalance programId ASSET_TRUSTEE_BANK_CASH currency;
  totals ← fold_each accounts (mkBankTotals 0 0 []) reconcile_account;
  let covered := Z.of_nat (length accounts) - uncovered totals in
  let drift := bankTotal totals - minor ledgerCash in
  let reconciled := if uncovered totals =? 0 then Some (drift =? 0) else None in
  (if bool_decide (reconciled = Some false) then
     _ ← publish env RECONCILIATION_EXCEPTION_CREATED
           (JObj [("programId", JStr programId); ("type", JStr "BANK_LEDGER_DRIFT");
                  ("ledgerCashMinor", js_big (minor ledgerCash));
                  ("bankTotalMinor", js_big (bankTotal totals)); ("driftMinor", js_big drift)]);
     mret tt
   else mret tt);;
  asOf ← nowIso;
  mret {| br_ledgerCash := minor ledgerCash; br_bankTotal := bankTotal totals; br_drift := drift;
          br_reconciled := reconciled; br_covered := covered; br_uncovered := uncovered totals;
          br_banks := perBank totals; br_asOf := asOf |}.

Definition listProgramAccounts (programId : string) : prog World jsval :=
  rows ← find_many TTrusteeAccount (λ a, bool_decide (TrusteeAccount.programId a = programId));
  mret (JObj [("accounts", JArr (map (λ a,
    JObj [("id", JStr (TrusteeAccount.id a));
          ("maskedAccountNumber", JStr (TrusteeAccount.maskedAccountNumber a));
          ("accountName", JStr (TrusteeAccount.accountName a));
          ("bankLegalEntity", JStr (TrusteeAccount.bankLegalEntity a));
          ("currency", JStr (TrusteeAccount.currency a));
          ("classification", JStr (TrusteeAccount.classification a));
          ("status", JStr (AccountStatus_to_string (TrusteeAccount.status a)));
          ("bankId", js_of_opt (TrusteeAccount.bankId a));
          ("coreBankingRef", JStr (TrusteeAccount.coreBankingRef a));
          ("mockClearedMinor", js_big (TrusteeAccount.mockClearedMinor a))]) rows))]).

(** ** Bank registry *)

Definition registerBank (bankId bankLegalName : string)
    (country integrationMode baseUrl authTokenEnv : option string) (actor : string) : prog World jsval :=
  let mode := default "MOCK" integrationMode in
  throw_if (negb (bool_decide (mode ∈ integration_modes)))
    (NotFoundException ("Unknown integrationMode " +:+ mode));;
  conn ← upsert_by TBankConnection (λ c, bool_decide (BankConnection.bankId c = bankId))
    (λ c, BankConnection.set_bankLegalName bankLegalName (BankConnection.set_country country
            (BankConnection.set_integrationMode mode (BankConnection.set_baseUrl baseUrl
               (BankConnection.set_authTokenEnv authTokenEnv c)))))
    (λ k t, {| BankConnection.id := k; BankConnection.bankId := bankId;
               BankConnection.bankLegalName := bankLegalName; BankConnection.country := country;
               BankConnection.integrationMode := mode; BankConnection.baseUrl := baseUrl;
               BankConnection.authTokenEnv := authTokenEnv; BankConnection.status := "ACTIVE";
               BankConnection.createdBy := Some actor; BankConnection.createdAt := t |});
  mret (JObj [("id", JStr (BankConnection.id conn)); ("bankId", JStr (BankConnection.bankId conn));
              ("integrationMode", JStr (BankConnection.integrationMode conn));
              ("status", JStr (BankConnection.status conn))]).

Definition listBanks : prog World jsval :=
  rows ← find_many TBankConnection (λ _, true);
  mret (JObj [("banks", JArr (map (λ b,
    JObj [("bankId", JStr (BankConnection.bankId b));
          ("bankLegalName", JStr (BankConnection.bankLegalName b));
          ("country", js_of_opt (BankConnection.country b));
          ("integrationMode", JStr (BankConnection.integrationMode b));
          ("baseUrl", js_of_opt (BankConnection.baseUrl b));
          ("status", JStr (BankConnection.status b))]) rows))]).

Definition setAccountBank (accountId : string) (bankId mockClearedMinor : option string) : prog World jsval :=
  acc ← find_unique TTrusteeAccount accountId;
  acc ← or_throw acc (NotFoundException ("Reserve account " +:+ accountId +:+ " not found"));
  (match truthy bankId with
   | Some b =>
       conn ← find_first TBankConnection (λ c, bool_decide (BankConnection.bankId c = b));
       throw_if (negb (bool_decide (is_Some conn)))
         (NotFoundException ("Bank connection " +:+ b +:+ " not registered"))
   | None => mret tt
   end);;
  mock ← (match mockClearedMinor with
          | Some s => lift (BigInt s)
          | None => mret (TrusteeAccount.mockClearedMinor acc)
          end);
  updated ← update TTrusteeAccount accountId (λ a,
    TrusteeAccount.set_mockClearedMinor mock
      (TrusteeAccount.set_bankId (match bankId with Some b => Some b | None => TrusteeAccount.bankId acc end) a));
  mret (JObj [("accountId", JStr (TrusteeAccount.id updated));
              ("bankId", js_of_opt (TrusteeAccount.bankId updated));
              ("mockClearedMinor", js_big (TrusteeAccount.mockClearedMinor updated))]).
End reserve_service.

(** * Safety under interleaving and crashes *)

Section reserve_safe.
Context `{RT : !Runtime} `{PC : !PrismaClient} (env : Env).

Lemma keeps_program p : keeps_good (program p).
Proof. intros s Hs. unfold program. safe_steps. Qed.

Lemma keeps_position p : keeps_good (position p).
Proof. intros s Hs. unfold position. safe_steps. Qed.

Lemma keeps_clearedBalanceForAccount a : keeps_good (clearedBalanceForAccount env a).
Proof.
  intros s Hs. unfold clearedBalanceForAccount.
  apply (safe_keeps good later); [done| |].
  { intros s' Hs'. destruct (truthy _); [|done]. apply (keeps_read). done. }
  intros conn w HL Hg. cbv zeta. destruct (if bool_decide _ then _ else _) as [u|].
  - unfold getAccountBalance. apply safe_call. intros w1 r HL1 Hg1.
    apply (safe_action good later). intros w2 HL2 Hg2.
    assert (later w2 (set_lastSuccessfulCheck (Some (clock w2)) w2)) by by apply later_frame.
    assert (good (set_lastSuccessfulCheck (Some (clock w2)) w2)) by by apply (good_frame w2).
    split_and!; [done..|]. intros _ _. safe_steps.
  - destruct (bool_decide _); done.
Qed.

Lemma keeps_createSnapshot p : keeps_good (createSnapshot env p).
Proof.
  intros s Hs. unfold createSnapshot.
  apply (safe_keeps good later); [done|apply keeps_position|]. intros pos w1 HL1 Hg1.
  apply (safe_keeps good later); [done|apply keeps_program|]. intros pr w2 HL2 Hg2.
  do 2 safe_step. apply (safe_keeps good later); [done| |].
  { intros w3 Hg3. destruct (rp_reserveRatioBps pos) as [[z|b]|]; done. }
  intros r w3 HL3 Hg3. safe_rule; [intros; done|]. intros w4 k z HL4 Hg4 _.
  apply (safe_keeps good later); [done|apply keeps_program|]. intros p' w5 HL5 Hg5.
  safe_rule. intros w6 x HL6 Hg6. apply (safe_keeps good later); [done| |done].
  intros w7 Hg7. destruct (_ <? 0); [|done]. by safe_steps.
Qed.

Lemma keeps_addAdjustment p k a r u : keeps_good (addAdjustment p k a r u).
Proof.
  intros s Hs. unfold addAdjustment. apply (safe_keeps good later); [done|apply keeps_program|].
  intros pr w HL Hg. by safe_steps.
Qed.

Lemma keeps_liftAdjustment i a : keeps_good (liftAdjustment i a).
Proof. intros s Hs. unfold liftAdjustment. by safe_steps. Qed.

Lemma keeps_reconcile_account acc a : keeps_good (reconcile_account env acc a).
Proof.
  intros s Hs. unfold reconcile_account.
  apply (safe_keeps good later); [done|apply keeps_clearedBalanceForAccount|].
  intros [b|] w HL Hg; done.
Qed.

Lemma keeps_reconcileBank p : keeps_good (reconcileBank env p).
Proof.
  intros s Hs. unfold reconcileBank. apply (safe_keeps good later); [done|apply keeps_program|].
  intros pr w1 HL1 Hg1. safe_rule. intros w2 HL2 Hg2. safe_rule. intros lc w3 HL3 Hg3.
  apply (safe_keeps good later); [done| |].
  { intros w4 Hg4. apply (safe_fold_each good later); [done|]. intros. by apply keeps_reconcile_account. }
  intros tot w4 HL4 Hg4. cbv zeta. apply (safe_keeps good later); [done| |].
  { intros w5 Hg5. destruct (bool_decide _); [|done]. by safe_steps. }
  intros _ w5 HL5 Hg5. by safe_steps.
Qed.

Lemma keeps_registerBank b n c m u t a : keeps_good (registerBank b n c m u t a).
Proof.
  intros s Hs. unfold registerBank. cbv zeta. safe_rule. intros _.
  apply (safe_upsert_by TBankConnection); [safe_tables|done..].
Qed.

Lemma keeps_setAccountBank i b m : keeps_good (setAccountBank i b m).
Proof.
  intros s Hs. unfold setAccountBank. do 2 safe_step.
  apply (safe_keeps good later); [done| |].
  { intros w1 Hg1. destruct (truthy b); [|done]. by safe_steps. }
  intros _ w1 HL1 Hg1. apply (safe_keeps good later); [done| |].
  { intros w2 Hg2. destruct m; [|done]. by safe_steps. }
  intros mk w2 HL2 Hg2. by safe_steps.
Qed.
End reserve_safe.

(** * The position, read off the tables *)

Section position_spec.
Context `{RT : !Runtime} `{PC : !PrismaClient} (env : Env).

(** The latest verified liability snapshot of a program. *)
Definition latest_liability (w : World) (programId : string) : option LiabilitySnapshot.t :=
  max_by LiabilitySnapshot.sequence
    (where_rows (λ s, bool_decide (LiabilitySnapshot.programId s = programId) &&
                      LiabilitySnapshot.signatureVerified s) (scan TLiabilitySnapshot w)).

Definition circulating_of (w : World) (programId : string) : Z :=
  match latest_liability w programId with
  | Some s => LiabilitySnapshot.circulatingMinor s
  | None => 0
  end.

(** The active adjustments of one kind. *)
Definition adjustments_of (w : World) (programId currency kind : string) : Z :=
  map_sum (λ a, if bool_decide (ReserveAdjustment.programId a = programId) &&
                   bool_decide (ReserveAdjustment.currency a = currency) &&
                   ReserveAdjustment.active a && bool_decide (ReserveAdjustment.kind a = kind)
                then ReserveAdjustment.amountMinor a else 0) (tbl w TReserveAdjustment).

Definition eligible_at (w : World) (p : Program.t) : Z :=
  let c := Program.referenceCurrency p in
  let bal a := ledger_balance w (Program.id p) a c in
  let adj := adjustments_of w (Program.id p) c in
  Z.max 0 (bal ASSET_TRUSTEE_BANK_CASH - adj "RESTRICTED" - bal LIABILITY_UNMATCHED_DEPOSIT
           - bal LIABILITY_PENDING_REDEMPTION - adj "BANK_CHARGE" - adj "REGULATORY_HOLD"
           - adj "OPERATIONAL").

Definition obligation_at (w : World) (p : Program.t) : Z :=
  Z.max 0 (circulating_of w (Program.id p) +
           ledger_balance w (Program.id p) LIABILITY_PENDING_REDEMPTION (Program.referenceCurrency p)).

Definition buffer_at (w : World) (p : Program.t) : Z :=
  big_div (obligation_at w p * Program.safetyBufferBps p) 10000.

Definition pending_mint_at (w : World) (p : Program.t) : Z :=
  ledger_balance w (Program.id p) LIABILITY_PENDING_MINT (Program.referenceCurrency p).

Definition capacity_at (w : World) (p : Program.t) : Z :=
  Z.max 0 (eligible_at w p - obligation_at w p - buffer_at w p - pending_mint_at w p).

Definition required_at (w : World) (p : Program.t) : Z :=
  big_div (obligation_at w p * Program.requiredRatioBps p) 10000.

Definition position_at (w : World) (p : Program.t) : ReservePosition :=
  let c := to_upper (Program.referenceCurrency p) in
  {| rp_programId := Program.id p; rp_currency := Program.referenceCurrency p;
     rp_eligibleReserve := mkMoney (eligible_at w p) c;
     rp_reserveObligation := mkMoney (obligation_at w p) c;
     rp_requiredReserve := mkMoney (required_at w p) c;
     rp_mintCapacity := mkMoney (capacity_at w p) c;
     rp_surplus := mkMoney (eligible_at w p - required_at w p) c;
     rp_reserveRatioBps :=
       if obligation_at w p =? 0 then None
       else Some (number_of_bigint (big_div (eligible_at w p * 10000) (obligation_at w p)));
     rp_liabilityAgeSeconds :=
       age_seconds (clock w) <$> (LiabilitySnapshot.snapshotTimestamp <$> latest_liability w (Program.id p)) |}.

Lemma adjustment_sum_scan w programId currency kind :
  adjustment_sum kind (where_rows (λ a, bool_decide (ReserveAdjustment.programId a = programId) &&
    bool_decide (ReserveAdjustment.currency a = currency) && ReserveAdjustment.active a)
    (scan TReserveAdjustment w)) = adjustments_of w programId currency kind.
Proof.
  unfold adjustment_sum, adjustments_of, where_rows.
  rewrite sumZ_filter, sumZ_filter, (sumZ_scan TReserveAdjustment). apply map_sum_ext.
  intros k a _. by destruct (bool_decide _ && _ && _), (bool_decide (_ = kind)).
Qed.

(** [money] upper-cases, so the figures of a position are always in one
    currency, whatever the case of the program's; they are read, though, under
    the program's currency as it is stored. *)
Lemma position_of_money w p :
  0 ≤ Program.safetyBufferBps p →
  let c := Program.referenceCurrency p in
  let bal a := money (ledger_balance w (Program.id p) a c) c in
  position_of (Program.id p) c (Program.safetyBufferBps p) (Program.requiredRatioBps p)
    (bal ASSET_TRUSTEE_BANK_CASH) (bal LIABILITY_UNMATCHED_DEPOSIT) (bal LIABILITY_PENDING_MINT)
    (bal LIABILITY_PENDING_REDEMPTION) (money (circulating_of w (Program.id p)) c)
    (λ kind, money (adjustments_of w (Program.id p) c kind) c)
    (age_seconds (clock w) <$> (LiabilitySnapshot.snapshotTimestamp <$> latest_liability w (Program.id p)))
  = Ok (position_at w p).
Proof.
  intros Hb c bal. subst c bal. cbv beta.
  set (c := Program.referenceCurrency p) in *. unfold position_of, money, zero.
  rewrite eligibleReserve_upper by by repeat constructor.
  cbn [mbind outcome_bind].
  rewrite reserveObligation_upper by by repeat constructor.
  cbn [mbind outcome_bind]. unfold requiredSafetyBuffer.
  destruct (Z.ltb_spec (Program.safetyBufferBps p) 0); [lia|].
  cbn [mbind outcome_bind].
  rewrite mintCapacity_upper by by repeat constructor.
  cbn [mbind outcome_bind]. unfold reserveSurplus. rewrite subtract_same by done.
  cbn [mbind outcome_bind]. unfold reserveRatioBps. cbn [currency minor ro_currency er_currency].
  rewrite bool_decide_false by tauto.
  unfold position_at, eligible_spec, capacity_spec.
  cbn [minor sumZ deduction_list clearedBankBalance restrictedFunds unmatchedFunds
       pendingOutgoingPayouts bankChargesDue regulatoryHolds operationalFunds otherIneligibleAmounts
       circulatingSupply confirmedRedemptionObligations otherContractualLiabilities
       legallyApprovedExclusions mc_eligibleReserve existingReserveObligation
       mc_requiredSafetyBuffer pendingMintAuthorizations].
  fold c.
  assert (obligation_at w p = Z.max 0 (circulating_of w (Program.id p) +
    ledger_balance w (Program.id p) LIABILITY_PENDING_REDEMPTION c + 0 - 0)) as EO
    by (unfold obligation_at; fold c; lia).
  assert (eligible_at w p = Z.max 0 (ledger_balance w (Program.id p) ASSET_TRUSTEE_BANK_CASH c -
    (adjustments_of w (Program.id p) c "RESTRICTED" +
     (ledger_balance w (Program.id p) LIABILITY_UNMATCHED_DEPOSIT c +
      (ledger_balance w (Program.id p) LIABILITY_PENDING_REDEMPTION c +
       (adjustments_of w (Program.id p) c "BANK_CHARGE" +
        (adjustments_of w (Program.id p) c "REGULATORY_HOLD" +
         (adjustments_of w (Program.id p) c "OPERATIONAL" + (0 + 0))))))))) as EE
    by (unfold eligible_at; fold c; lia).
  rewrite <- EO, <- EE. clear EO EE.
  destruct (obligation_at w p =? 0); reflexivity.
Qed.

(** A negative buffer makes [requiredSafetyBuffer] throw, and nothing else of a
    position can. *)
Lemma position_of_negative id c buf ratio v1 v2 v3 v4 v5 adj age pos :
  position_of id c buf ratio v1 v2 v3 v4 v5 adj age = Ok pos → 0 ≤ buf.
Proof.
  unfold position_of, requiredSafetyBuffer. intros H.
  apply outcome_bind_ok in H as (? & _ & H). apply outcome_bind_ok in H as (? & _ & H).
  destruct (Z.ltb_spec buf 0); [done|lia].
Qed.

Lemma run_position_reads w programId p :
  good w → tbl w TProgram !! programId = Some p →
  run (position programId) w =
  (position_of programId (Program.referenceCurrency p) (Program.safetyBufferBps p) (Program.requiredRatioBps p)
     (money (ledger_balance w programId ASSET_TRUSTEE_BANK_CASH (Program.referenceCurrency p)) (Program.referenceCurrency p))
     (money (ledger_balance w programId LIABILITY_UNMATCHED_DEPOSIT (Program.referenceCurrency p)) (Program.referenceCurrency p))
     (money (ledger_balance w programId LIABILITY_PENDING_MINT (Program.referenceCurrency p)) (Program.referenceCurrency p))
     (money (ledger_balance w programId LIABILITY_PENDING_REDEMPTION (Program.referenceCurrency p)) (Program.referenceCurrency p))
     (money (circulating_of w programId) (Program.referenceCurrency p))
     (λ kind, money (adjustment_sum kind (where_rows (λ a, bool_decide (ReserveAdjustment.programId a = programId) &&
        bool_decide (ReserveAdjustment.currency a = Program.referenceCurrency p) && ReserveAdjustment.active a)
        (scan TReserveAdjustment w))) (Program.referenceCurrency p))
     (age_seconds (clock w) <$> (LiabilitySnapshot.snapshotTimestamp <$> latest_liability w programId)), w).
Proof.
  intros Hg Hp.
  unfold position. rewrite run_bind, (run_find_unique_Some TProgram _ p) by exact Hp.
  rewrite run_bind, run_or_throw.
  rewrite run_bind, (run_accountBalance _ _ _ _ ASSET) by done.
  rewrite run_bind, (run_accountBalance _ _ _ _ LIABILITY) by done.
  rewrite run_bind, (run_accountBalance _ _ _ _ LIABILITY) by done.
  rewrite run_bind, (run_accountBalance _ _ _ _ LIABILITY) by done.
  rewrite run_bind, (run_find_first_desc TLiabilitySnapshot), run_bind.
  unfold now. by rewrite run_read, run_bind, (run_find_many TReserveAdjustment), run_lift.
Qed.

Lemma run_position w programId p :
  good w → tbl w TProgram !! programId = Some p → 0 ≤ Program.safetyBufferBps p →
  run (position programId) w = (Ok (position_at w p), w).
Proof.
  intros Hg Hp Hb. pose proof (good_key w Hg TProgram _ _ Hp) as Hk. cbn in Hk. subst programId.
  rewrite (run_position_reads w _ p Hg Hp), <- (position_of_money w p Hb).
  f_equal. unfold position_of. rewrite !adjustment_sum_scan. reflexivity.
Qed.

(** A position that is returned is the one read off the tables. *)
Lemma run_position_ok w programId p pos w' :
  good w → tbl w TProgram !! programId = Some p → run (position programId) w = (Ok pos, w') →
  w' = w ∧ pos = position_at w p ∧ 0 ≤ Program.safetyBufferBps p.
Proof.
  intros Hg Hp H. assert (0 ≤ Program.safetyBufferBps p) as Hb.
  { rewrite (run_position_reads w _ p Hg Hp) in H. injection H as H _. by apply position_of_negative in H. }
  rewrite (run_position w _ p Hg Hp Hb) in H. by injection H as <- <-.
Qed.

(** The latest snapshot does not depend on the order rows come back in: the
    sequence numbers of a program are distinct. *)
Lemma latest_liability_frame w w' programId :
  unique_ok TLiabilitySnapshot w → tbl w' TLiabilitySnapshot = tbl w TLiabilitySnapshot →
  (∀ k s, tbl w TLiabilitySnapshot !! k = Some s → LiabilitySnapshot.id s = k) →
  latest_liability w' programId = latest_liability w programId.
Proof.
  intros HU HT HK. unfold latest_liability.
  set (q := λ s, bool_decide (LiabilitySnapshot.programId s = programId) && LiabilitySnapshot.signatureVerified s).
  destruct (max_by _ (where_rows q (scan TLiabilitySnapshot w'))) as [x|] eqn:E1;
    destruct (max_by _ (where_rows q (scan TLiabilitySnapshot w))) as [y|] eqn:E2; [| | |done].
  - apply max_by_Some in E1 as [Hx Mx], E2 as [Hy My]. f_equal.
    assert (∀ z, z ∈ where_rows q (scan TLiabilitySnapshot w') ↔ z ∈ where_rows q (scan TLiabilitySnapshot w)) as Heq.
    { intros z. rewrite !elem_of_where, !(elem_of_scan TLiabilitySnapshot), HT. done. }
    pose proof (Mx y (proj2 (Heq y) Hy)). pose proof (My x (proj1 (Heq x) Hx)).
    apply Heq in Hx. apply elem_of_where in Hx as [Qx Hx], Hy as [Qy Hy].
    apply (elem_of_scan TLiabilitySnapshot) in Hx as [kx Hx], Hy as [ky Hy].
    assert (kx = ky) as <-; [|rewrite Hx in Hy; congruence].
    apply (HU kx ky x y Hx Hy). unfold shares_key. cbn.
    apply andb_true_iff in Qx as [Qx _], Qy as [Qy _].
    apply bool_decide_eq_true in Qx, Qy. rewrite Qx, Qy.
    replace (LiabilitySnapshot.sequence x) with (LiabilitySnapshot.sequence y) by lia.
    by rewrite bool_decide_true.
  - apply max_by_Some in E1 as [Hx _]. apply max_by_None in E2.
    apply elem_of_where in Hx as [Qx Hx]. apply (elem_of_scan TLiabilitySnapshot) in Hx as [kx Hx].
    rewrite HT in Hx.
    assert (x ∈ where_rows q (scan TLiabilitySnapshot w)) as Hin.
    { apply elem_of_where. split; [done|]. apply (elem_of_scan TLiabilitySnapshot). eauto. }
    rewrite E2 in Hin. by apply not_elem_of_nil in Hin.
  - apply max_by_Some in E2 as [Hx _]. apply max_by_None in E1.
    apply elem_of_where in Hx as [Qx Hx]. apply (elem_of_scan TLiabilitySnapshot) in Hx as [kx Hx].
    rewrite <- HT in Hx.
    assert (y ∈ where_rows q (scan TLiabilitySnapshot w')) as Hin.
    { apply elem_of_where. split; [done|]. apply (elem_of_scan TLiabilitySnapshot). eauto. }
    rewrite E1 in Hin. by apply not_elem_of_nil in Hin.
Qed.
End position_spec.
