(* ===== verification/Effects.v ===== *)
(** Sequential effects: what one handler, run alone, may touch.

    [writes ts p] says that [p] changes no table outside [ts]; the rules below
    compose it over a handler.  [books e ts w w'] says that between [w] and [w']
    exactly the journal entry [e] was posted, besides changes to the tables [ts];
    it gives the balance of every account in [w'] from its balance in [w]. *)
From S2P Require Import Prelude.
From S2P Require Import Money.
From S2P Require Import Domain.
From S2P Require Import Ledger.
From S2P Require Import Prog.
From S2P Require Import Crypto.
From S2P Require Import Schema.
From S2P Require Import Prisma.
From S2P Require Import Infra.
From S2P Require Import LedgerService.
From S2P Require Import Invariant.
From S2P Require Import ReserveService.
#[local] Open Scope string_scope.
#[local] Open Scope list_scope.
#[local] Open Scope Z_scope.

Definition writes {A} (ts : list table) (p : prog World A) : Prop := ∀ w, same_but ts w (run p w).2.

Lemma writes_run {A} ts (p : prog World A) w o w' : writes ts p → run p w = (o, w') → same_but ts w w'.
Proof. intros H E. specialize (H w). by rewrite E in H. Qed.

Section rules.
Context `{RT : !Runtime} `{PC : !PrismaClient} (env : Env).

Lemma writes_ret {A} ts (a : A) : writes ts (mret a).
Proof. done. Qed.
Lemma writes_throw {A} ts e : writes (A:=A) ts (Throw e).
Proof. done. Qed.
Lemma writes_bind {A B} ts (p : prog World A) (k : A → prog World B) :
  writes ts p → (∀ a, writes ts (k a)) → writes ts (p ≫= k).
Proof.
  intros Hp Hk w. rewrite run_bind. specialize (Hp w).
  destruct (run p w) as [[a|e] w1]; simpl in *; [|done]. eapply same_but_trans; [done|apply Hk].
Qed.
Lemma writes_weaken {A} ts ts' (p : prog World A) : ts ⊆ ts' → writes ts p → writes ts' p.
Proof. intros Hs Hp w. by eapply same_but_weaken. Qed.
Lemma writes_read {A} ts (f : World → A) : writes ts (read f).
Proof. done. Qed.
Lemma writes_lift {A} ts (o : outcome A) : writes ts (lift o).
Proof. by destruct o. Qed.
Lemma writes_or_throw {A} ts (o : option A) e : writes ts (or_throw o e).
Proof. by destruct o. Qed.
Lemma writes_throw_if ts b e : writes ts (throw_if b e).
Proof. by destruct b. Qed.

Lemma same_but_write ts t k r w : t ∈ ts → same_but ts w (write_row t k r w).2.
Proof.
  intros Ht. unfold write_row. destruct (refuse t k r w); cbn [snd]; [done|]. by apply same_but_put_in.
Qed.
Lemma writes_create ts t f : t ∈ ts → writes ts (create t f).
Proof. intros Ht w. rewrite run_create. by apply same_but_write. Qed.
Lemma writes_update ts t k f : t ∈ ts → writes ts (update t k f).
Proof. intros Ht w. rewrite run_update. destruct (tbl w t !! k); [|done]. by apply same_but_write. Qed.
Lemma writes_transaction {A} ts (p : prog World A) : writes ts p → writes ts (transaction p).
Proof.
  intros Hp w. rewrite run_transaction. specialize (Hp w). by destruct (run p w) as [[a|e] w'].
Qed.

Lemma writes_now ts : writes ts now.
Proof. done. Qed.
Lemma writes_randomUUID ts : writes ts randomUUID.
Proof. done. Qed.
Lemma writes_new_Date ts s : writes ts (new_Date s).
Proof. unfold new_Date. apply writes_or_throw. Qed.
Lemma writes_audit ts a : TAuditLog ∈ ts → writes ts (audit_record a).
Proof. intros Ht. apply writes_bind; [by apply writes_create|done]. Qed.
Lemma writes_create_outbox ts f : TOutboxEvent ∈ ts → writes ts (create_seq TOutboxEvent f).
Proof.
  intros Ht w. unfold create_seq. rewrite run_action. cbn zeta.
  eapply same_but_trans; [|by apply same_but_write]. done.
Qed.
Lemma writes_publish_named ts e p t : TOutboxEvent ∈ ts → writes ts (publish_named env e p t).
Proof.
  intros Ht. apply writes_bind; [apply writes_lift|]. intros s.
  apply writes_bind; [by apply writes_create_outbox|done].
Qed.
Lemma writes_publish ts e p : TOutboxEvent ∈ ts → writes ts (publish env e p).
Proof. apply writes_publish_named. Qed.
Lemma writes_publishToPaykh ts e p : TOutboxEvent ∈ ts → writes ts (publishToPaykh env e p).
Proof. apply writes_publish_named. Qed.
Lemma writes_publishWithArtifact ts e p a u : TOutboxEvent ∈ ts → writes ts (publishWithArtifact env e p a u).
Proof.
  intros Ht. apply writes_bind; [apply writes_lift|]. intros s.
  apply writes_bind; [by apply writes_create_outbox|done].
Qed.
Lemma writes_isEnabled ts k d : writes ts (isEnabled k d).
Proof. done. Qed.
Lemma writes_requireEnabled ts k : writes ts (requireEnabled k).
Proof. apply writes_bind; [apply writes_isEnabled|]. intros b. apply writes_throw_if. Qed.
Lemma writes_execute_issuance ts r : writes ts (execute_issuance env r).
Proof. unfold execute_issuance. destruct (truthy _) as [url|]; [|done].
  apply writes_bind; [|done]. intros w. by rewrite run_action.
Qed.
Lemma writes_accountBalance ts p a c : writes ts (accountBalance p a c).
Proof.
  apply writes_bind; [apply writes_read|]. intros rows. apply writes_bind; [apply writes_lift|done].
Qed.
End rules.

(** A table of a closed list, or off it. *)
Ltac solve_in := first [assumption | refine (bool_decide_unpack _ _); vm_compute; exact I].

Create HintDb effects.
#[export] Hint Resolve writes_ret writes_throw writes_read writes_lift writes_or_throw writes_throw_if
  writes_now writes_randomUUID writes_new_Date writes_audit
  writes_publish writes_publishToPaykh writes_publishWithArtifact writes_isEnabled writes_requireEnabled
  writes_accountBalance writes_execute_issuance writes_publish_named : effects.
#[export] Hint Extern 1 (writes ?ts (update ?t ?k ?f)) => simple apply (writes_update ts t k f) : effects.
#[export] Hint Extern 1 (writes ?ts (create ?t ?f)) => simple apply (writes_create ts t f) : effects.
#[export] Hint Extern 1 (writes _ (find_unique _ _)) => apply writes_read : effects.
#[export] Hint Extern 1 (writes _ (find_first _ _)) => apply writes_read : effects.
#[export] Hint Extern 1 (writes _ (find_many _ _)) => apply writes_read : effects.
#[export] Hint Extern 1 (writes _ (find_first_desc _ _ _)) => apply writes_read : effects.
#[export] Hint Extern 2 (_ ∈ _) => solve_in : effects.

(** A program of the rules above: binds, cases and transactions by their shape,
    the operations by the hints. *)
Ltac writes_step :=
  lazymatch goal with
  | |- writes _ (match ?x with _ => _ end) => destruct x
  | |- writes _ (_ ≫= _) => apply writes_bind; [|intros ?; cbv beta zeta]
  | |- writes _ (transaction _) => apply writes_transaction
  | |- _ => solve [eauto 3 with effects]
  end.
Ltac solve_writes := solve [cbv beta zeta; repeat writes_step].

(** ** One posted entry *)

Section books.
Context `{RT : !Runtime} `{PC : !PrismaClient}.

Definition books (e : JournalEntry) (ts : list table) (w w' : World) : Prop :=
  ∃ eid w1 w2, same_but ts w w1 ∧ posted e eid w1 w2 ∧ same_but ts w2 w'.

Lemma run_post_frames e w eid w' ts : run (post e) w = (Ok eid, w') → books e ts w w'.
Proof. intros H. exists eid, w, w'. split_and!; [done| |done]. by apply run_post_ok. Qed.

Lemma books_before e ts w w1 w' : same_but ts w w1 → books e ts w1 w' → books e ts w w'.
Proof. intros Hb (i & a & b & Ha & HP & HE). exists i, a, b. split_and!; [by eapply same_but_trans|done|done]. Qed.
Lemma books_after e ts w w1 w' : books e ts w w1 → same_but ts w1 w' → books e ts w w'.
Proof. intros (i & a & b & Ha & HP & HE) Hb. exists i, a, b. split_and!; [done|done|by eapply same_but_trans]. Qed.

Definition off_ledger (ts : list table) : Prop := TLedgerEntry ∉ ts ∧ TLedgerPosting ∉ ts.

(** Every balance after the entry, from the balance before it. *)
Lemma books_balance e ts w w' p a c t :
  books e ts w w' → off_ledger ts → ledger_ok w → ledgerAccountTypeOf a = Ok t →
  ledger_balance w' p a c = ledger_balance w p a c +
    (if bool_decide (ref_programId (je_references e) = p) && bool_decide (je_currency e = c)
     then effect_on a (debit_positive t) (je_postings e) else 0).
Proof.
  intros (i & w1 & w2 & H1 & HP & H2) [N1 N2] Hok Ht.
  rewrite (ledger_balance_frame ts w2 w') by done.
  assert (ledger_ok w1) as Hok1.
  { eapply ledger_ok_frame; [..|exact Hok]; by apply (same_but_tbl ts). }
  rewrite (ledger_balance_posted _ _ _ _ _ _ _ _ HP Hok1 Ht).
  by rewrite (ledger_balance_frame ts w w1).
Qed.

Lemma books_tbl e ts w w' t : books e ts w w' → t ∉ ts → t ∉ ledger_tables → tbl w' t = tbl w t.
Proof.
  intros (i & w1 & w2 & H1 & (_ & HP & _) & H2) N1 N2.
  rewrite (same_but_tbl ts w2 w') by done. rewrite (same_but_tbl ledger_tables w1 w2) by done.
  by rewrite (same_but_tbl ts w w1).
Qed.

Lemma books_clock e ts w w' : books e ts w w' → clock w' = clock w.
Proof. intros (i & w1 & w2 & (_ & E1 & _) & (_ & (_ & E2 & _) & _) & (_ & E3 & _)). congruence. Qed.

Lemma off_ledger_closed ts :
  bool_decide (TLedgerEntry ∉ ts ∧ TLedgerPosting ∉ ts) = true → off_ledger ts.
Proof. intros H. exact (bool_decide_eq_true_1 _ H). Qed.

(** The entry of a transfer template moves its amount between two accounts of
    its program and currency, and nothing else. *)
Lemma books_transfer d a b amt refs e ts w w' p acct c t :
  transfer_entry d a b amt refs = Ok e → books e ts w w' → off_ledger ts → ledger_ok w →
  ledgerAccountTypeOf acct = Ok t →
  ledger_balance w' p acct c = ledger_balance w p acct c +
    (if bool_decide (ref_programId refs = p) && bool_decide (currency amt = c)
     then transfer_effect a b acct (debit_positive t) (minor amt) else 0).
Proof.
  intros [_ ->]%transfer_entry_ok HB N Hok Ht. rewrite <- effect_on_transfer.
  exact (books_balance _ _ _ _ _ _ _ _ HB N Hok Ht).
Qed.

Lemma books_untouched d a b amt refs e ts w w' p acct c t :
  transfer_entry d a b amt refs = Ok e → books e ts w w' → off_ledger ts → ledger_ok w →
  ledgerAccountTypeOf acct = Ok t → a ≠ acct → b ≠ acct →
  ledger_balance w' p acct c = ledger_balance w p acct c.
Proof.
  intros He HB N Hok Ht Na Nb. rewrite (books_transfer _ _ _ _ _ _ _ _ _ _ _ _ _ He HB N Hok Ht).
  unfold transfer_effect. rewrite (bool_decide_false (a = acct)), (bool_decide_false (b = acct)) by done.
  case_match; lia.
Qed.

(** Entries of one program leave the others alone. *)
Lemma books_other d a b amt refs e ts w w' p acct c t :
  transfer_entry d a b amt refs = Ok e → books e ts w w' → off_ledger ts → ledger_ok w →
  ledgerAccountTypeOf acct = Ok t → ref_programId refs ≠ p →
  ledger_balance w' p acct c = ledger_balance w p acct c.
Proof.
  intros He HB N Hok Ht Np. rewrite (books_transfer _ _ _ _ _ _ _ _ _ _ _ _ _ He HB N Hok Ht).
  rewrite bool_decide_false by done. cbn. lia.
Qed.
End books.

(** ** The reserve position under a booked entry *)

(** The tables a position reads besides the ledger. *)
Definition position_tables : list table := [TProgram; TReserveAdjustment; TLiabilitySnapshot].

Section position_effects.
Context `{RT : !Runtime} `{PC : !PrismaClient}.

Lemma adjustments_of_frame w w' p c k :
  tbl w' TReserveAdjustment = tbl w TReserveAdjustment → adjustments_of w' p c k = adjustments_of w p c k.
Proof. intros E. unfold adjustments_of. by rewrite E. Qed.

(** What a program owes does not depend on the other tables. *)
Lemma circulating_frame w w' p :
  good w → tbl w' TLiabilitySnapshot = tbl w TLiabilitySnapshot → circulating_of w' p = circulating_of w p.
Proof.
  intros Hg E. unfold circulating_of.
  rewrite (latest_liability_frame w w' p (good_unique w Hg TLiabilitySnapshot) E); [done|].
  intros k s Hs. by apply (good_key w Hg TLiabilitySnapshot).
Qed.
End position_effects.
