(* ===== verification/MintService.v ===== *)
(** The mint authorization workflow:
    [apps/trustee-api/src/modules/mint/mint.service.ts].  A request is reviewed
    by a maker, approved (or blocked by the mint guard) by a checker, and then
    confirmed, revoked or expired. *)
From S2P Require Import Prelude.
From S2P Require Import Money.
From S2P Require Import Domain.
From S2P Require Import Ledger.
From S2P Require Import Reserve.
From S2P Require Import Prog.
From S2P Require Import Crypto.
From S2P Require Import Schema.
From S2P Require Import Prisma.
From S2P Require Import Infra.
From S2P Require Import LedgerService.
From S2P Require Import Invariant.
From S2P Require Import ReserveService.
#[local] Open Scope string_scope.
#[local] Open Scope list_scope.
#[local] Open Scope Z_scope.

Record RequestMintAuthorization : Type := mkRequestMintAuthorization {
  rq_programId : string;
  rq_paychainRequestId : string;
  rq_amountMinor : string;
  rq_fundingDepositIds : list string;
  rq_tenantId : option string;
  rq_destination : option string
}.

Record ConfirmMintInput : Type := mkConfirmMintInput {
  cm_paychainTransactionId : string;
  cm_blockchainTxHash : string;
  cm_amountMinor : string;
  cm_destination : string;
  cm_ledgerHeight : option string;
  cm_confirmedAt : string;
  cm_paychainSignature : string;
  cm_actor : string
}.

Definition mint_status (s : MintAuthorizationStatus) : string := MintAuthorizationStatus_to_string s.

(** The references of a journal entry of this authorization. *)
Definition mint_refs (source : string) (a : MintAuthorization.t) (actor : string)
    (approvalRef : option string) : JournalReferences :=
  {| ref_source := source; ref_programId := MintAuthorization.programId a;
     ref_assetId := MintAuthorization.assetId a; ref_actor := actor;
     ref_approvalRef := approvalRef; ref_correlationId := None |}.

Definition mint_amount (a : MintAuthorization.t) : Money :=
  money (MintAuthorization.amountMinor a) (MintAuthorization.currency a).

(** The payload that is signed, and the artifact PayChain gates the mint on. *)
Definition mint_payload (a : MintAuthorization.t) (issuedAt expiresAt : Z) : jsval :=
  JObj [("authorizationId", JStr (MintAuthorization.id a));
        ("programId", JStr (MintAuthorization.programId a));
        ("assetId", JStr (MintAuthorization.assetId a));
        ("amountMinor", js_big (MintAuthorization.amountMinor a));
        ("currency", JStr (MintAuthorization.currency a));
        ("nonce", JStr (MintAuthorization.nonce a));
        ("issuedAt", JStr (toISOString issuedAt)); ("expiresAt", JStr (toISOString expiresAt));
        ("singleUse", JBool true)].

Definition mint_artifact (a : MintAuthorization.t) (expiresAt : Z) : jsval :=
  JObj [("authorizationId", JStr (MintAuthorization.id a));
        ("reference", JStr (MintAuthorization.paychainRequestId a));
        ("tenantId", js_of_opt (MintAuthorization.tenantId a));
        ("assetId", JStr (MintAuthorization.assetId a));
        ("amount", js_big (MintAuthorization.amountMinor a));
        ("destination", js_of_opt (MintAuthorization.destination a));
        ("expiresAt", JStr (toISOString expiresAt))].

Section mint_service.
Context `{RT : !Runtime} `{PC : !PrismaClient} (env : Env).

Definition auth_not_found (authId : string) : exn :=
  NotFoundException ("Mint authorization " +:+ authId +:+ " not found").

(** [requireAuth(id)], and [requireAuth(id, { approval: true })]. *)
Definition requireAuth (authId : string) : prog World MintAuthorization.t :=
  auth ← find_unique TMintAuthorization authId;
  or_throw auth (auth_not_found authId).

(** One query: the authorization with its approval. *)
Definition requireAuthWithApproval (authId : string) : prog World (MintAuthorization.t * option Approval.t) :=
  found ← read (λ w,
    match tbl w TMintAuthorization !! authId with
    | Some auth => Some (auth, head (where_rows (λ a, bool_decide (Approval.mintAuthorizationId a = Some authId))
                                                (scan TApproval w)))
    | None => None
    end);
  or_throw found (auth_not_found authId).

(** ** Request (PayChain) *)

Definition request (input : RequestMintAuthorization) : prog World jsval :=
  p ← find_unique TProgram (rq_programId input);
  p ← or_throw p (NotFoundException "Program not found");
  z ← lift (BigInt (rq_amountMinor input));
  let amount := money z (Program.referenceCurrency p) in
  throw_if (minor amount <=? 0) (BadRequestException "Amount must be positive" []);;
  nonce ← randomUUID;
  auth ← create TMintAuthorization (λ k t,
    {| MintAuthorization.id := k; MintAuthorization.programId := rq_programId input;
       MintAuthorization.paychainRequestId := rq_paychainRequestId input;
       MintAuthorization.assetId := Program.assetId p;
       MintAuthorization.amountMinor := minor amount;
       MintAuthorization.currency := Program.referenceCurrency p;
       MintAuthorization.tenantId := rq_tenantId input;
       MintAuthorization.destination := rq_destination input;
       MintAuthorization.fundingDepositIds := rq_fundingDepositIds input;
       MintAuthorization.reserveAccountId := None; MintAuthorization.reserveSnapshotId := None;
       MintAuthorization.complianceCaseId := None; MintAuthorization.status := PENDING_MAKER;
       MintAuthorization.nonce := nonce; MintAuthorization.signingKeyId := None;
       MintAuthorization.signatureValue := None; MintAuthorization.maxMintAmountMinor := minor amount;
       MintAuthorization.singleUse := true; MintAuthorization.issuedAt := None;
       MintAuthorization.expiresAt := None; MintAuthorization.createdAt := t |});
  audit_record (with_after (JObj [("amountMinor", JStr (rq_amountMinor input));
                                  ("status", JStr (mint_status (MintAuthorization.status auth)))])
    (audited ("paychain:" +:+ rq_paychainRequestId input) "mint_authorization.requested"
       "MINT_AUTHORIZATION" (MintAuthorization.id auth)));;
  mret (js_result (MintAuthorization.id auth) (mint_status (MintAuthorization.status auth))).

(** ** Review (maker) *)

Definition pending_approval (authId makerId : string) (k : string) (t : Z) : Approval.t :=
  {| Approval.id := k; Approval.subjectType := "MINT_AUTHORIZATION";
     Approval.mintAuthorizationId := Some authId; Approval.makerId := makerId;
     Approval.makerActedAt := t; Approval.checkerId := None; Approval.checkerActedAt := None;
     Approval.decision := DECISION_PENDING; Approval.reason := None; Approval.createdAt := t |}.

Definition review (authId makerId : string) : prog World jsval :=
  found ← requireAuthWithApproval authId;
  let auth := fst found in
  throw_if (negb (bool_decide (MintAuthorization.status auth = PENDING_MAKER)))
    (BadRequestException ("Authorization is " +:+ mint_status (MintAuthorization.status auth) +:+
                          ", not awaiting maker review") []);;
  maker ← find_unique TUser makerId;
  throw_if (match maker with
            | Some u => negb (bool_decide (User.institution u = "TRUSTEE_BANK"))
            | None => true
            end)
    (BadRequestException "Maker must be a trustee-bank user" []);;
  transaction (
    _ ← create TApproval (pending_approval authId makerId);
    _ ← update TMintAuthorization authId (MintAuthorization.set_status PENDING_CHECKER);
    mret tt);;
  audit_record (with_role "trustee_operations_maker"
    (with_after (JObj [("status", JStr "PENDING_CHECKER")])
       (audited makerId "mint_authorization.reviewed" "MINT_AUTHORIZATION" authId)));;
  mret (js_result authId "PENDING_CHECKER").

(** ** The facts of the guard *)

Definition MAX_SAFE_AGE : Z := MAX_SAFE_INTEGER.

Definition gatherGuardFacts (authId : string) (makerCheckerComplete : bool) : prog World MintGuardFacts :=
  auth ← requireAuth authId;
  p ← find_unique TProgram (MintAuthorization.programId auth);
  p ← or_throw p (NotFoundException "Program not found");
  let programId := MintAuthorization.programId auth in
  let ids := MintAuthorization.fundingDepositIds auth in
  pos ← position programId;
  deposits ← (match ids with
              | [] => mret []
              | _ => find_many TDeposit (λ d, bool_decide (Deposit.id d ∈ ids))
              end);
  let fundingDepositsCleared :=
    (0 <? length ids)%nat && (length deposits =? length ids)%nat &&
    forallb (λ d, bool_decide (Deposit.status d ∈ MINT_ELIGIBLE_DEPOSIT_STATUSES)) deposits in
  latestLiability ← find_first_desc TLiabilitySnapshot
    (λ s, bool_decide (LiabilitySnapshot.programId s = programId) &&
          LiabilitySnapshot.signatureVerified s) LiabilitySnapshot.sequence;
  mintFeatureEnabled ← isEnabled "mint.authorization.enabled" false;
  holds ← find_many TPlatformControl
    (λ c, bool_decide (PlatformControl.key c ∈
              ["compliance.hold.program." +:+ programId; "compliance.hold.global"]) &&
          PlatformControl.value c);
  latestSnapshot ← find_first_desc TReserveSnapshot
    (λ s, bool_decide (ReserveSnapshot.programId s = programId)) ReserveSnapshot.createdAt;
  t ← now;
  let proofOfReserveAgeSeconds := age_seconds t <$> (ReserveSnapshot.createdAt <$> latestSnapshot) in
  latestRecon ← find_first_desc TReconciliationRun
    (λ r, bool_decide (ReconciliationRun.programId r = Some programId)) ReconciliationRun.createdAt;
  let hasUnresolvedReconciliation :=
    bool_decide (ReconciliationRun.status <$> latestRecon = Some "EXCEPTIONS") in
  restrictedAccount ← find_first TTrusteeAccount
    (λ a, bool_decide (TrusteeAccount.programId a = programId) &&
          bool_decide (TrusteeAccount.status a ∈ [ACCOUNT_RESTRICTED; ACCOUNT_ON_HOLD]));
  assetSuspend ← find_first TPlatformControl
    (λ c, bool_decide (PlatformControl.key c ∈
              ["asset.suspend." +:+ MintAuthorization.assetId auth; "mint.global-suspend"]) &&
          PlatformControl.value c);
  bankAge ← lastCheckAgeSeconds;
  t ← now;
  let z := money 0 (rp_currency pos) in
  mret {| requested := mint_amount auth;
          capacityInput := {| mc_currency := rp_currency pos;
                              mc_eligibleReserve := rp_mintCapacity pos;
                              existingReserveObligation := z; mc_requiredSafetyBuffer := z;
                              pendingMintAuthorizations := z |};
          reserveSnapshotAgeSeconds := 0;
          maxReserveSnapshotAgeSeconds := MAX_RESERVE_SNAPSHOT_AGE_S env;
          bankConnectivityAgeSeconds := default 0 bankAge;
          maxBankConnectivityAgeSeconds := MAX_BANK_CONNECTIVITY_AGE_S env;
          liabilityFeedAgeSeconds :=
            match latestLiability with
            | Some s => age_seconds t (LiabilitySnapshot.snapshotTimestamp s)
            | None => MAX_SAFE_AGE
            end;
          maxLiabilityFeedAgeSeconds := MAX_LIABILITY_FEED_AGE_S env;
          proofOfReserveAgeSeconds := proofOfReserveAgeSeconds;
          maxProofOfReserveAgeSeconds := MAX_PROOF_OF_RESERVE_AGE_S env;
          hasUnresolvedReconciliation := hasUnresolvedReconciliation;
          complianceHoldActive := (0 <? length holds)%nat;
          assetMintingSuspended := bool_decide (is_Some assetSuspend);
          programSuspended := bool_decide (Program.status p = PROGRAM_SUSPENDED);
          accountRestricted := bool_decide (is_Some restrictedAccount);
          fundingDepositsCleared := fundingDepositsCleared;
          makerCheckerComplete := makerCheckerComplete;
          mintFeatureEnabled := mintFeatureEnabled |}.

(** ** Approve (checker) *)

Definition decide_approval (checkerId : string) (t : Z) (d : ApprovalDecision) (reason : string)
    (a : Approval.t) : Approval.t :=
  Approval.set_reason (Some reason) (Approval.set_decision d
    (Approval.set_checkerActedAt (Some t) (Approval.set_checkerId (Some checkerId) a))).

(** Fail safe: reject and record every blocking reason. *)
Definition block_mint (authId checkerId : string) (approval : Approval.t)
    (reasons : list MintBlockReason) : prog World jsval :=
  let rs := map MintBlockReason_to_string reasons in
  _ ← update TMintAuthorization authId (MintAuthorization.set_status REJECTED);
  t ← now;
  _ ← update TApproval (Approval.id approval)
        (decide_approval checkerId t DECISION_REJECTED ("Guard blocked: " +:+ join_with ", " rs));
  _ ← publish env MINT_AUTHORIZATION_REJECTED
        (JObj [("authorizationId", JStr authId); ("reasons", JArr (map JStr rs))]);
  Throw (BadRequestException "Mint blocked by reserve/compliance guard" rs).

Definition issue_mint (auth : MintAuthorization.t) (checkerId reason : string)
    (approval : Approval.t) (capacity : Money) : prog World jsval :=
  let authId := MintAuthorization.id auth in
  issuedAt ← now;
  let expiresAt := issuedAt + MINT_AUTH_TTL_S env * 1000 in
  let payload := mint_payload auth issuedAt expiresAt in
  signature ← lift (sign (signing env) MINT_AUTHORIZATION payload);
  entry ← lift (mintReservationEntry (mint_amount auth)
                  (mint_refs ("mint-auth:" +:+ authId) auth checkerId (Some (Approval.id approval))));
  _ ← post entry;
  _ ← update TMintAuthorization authId (λ a,
        MintAuthorization.set_status ISSUED
          (MintAuthorization.set_signingKeyId (Some (keyId signature))
             (MintAuthorization.set_signatureValue (Some (value signature))
                (MintAuthorization.set_issuedAt (Some issuedAt)
                   (MintAuthorization.set_expiresAt (Some expiresAt) a)))));
  _ ← update TApproval (Approval.id approval)
        (decide_approval checkerId issuedAt DECISION_APPROVED reason);
  audit_record (with_role "trustee_operations_checker" (with_approval (Approval.id approval)
    (with_after (JObj [("status", JStr "ISSUED"); ("capacityMinor", JBig (minor capacity))])
       (audited checkerId "mint_authorization.approved" "MINT_AUTHORIZATION" authId))));;
  _ ← publishWithArtifact env MINT_AUTHORIZATION_APPROVED
        (JObj [("authorizationId", JStr authId); ("programId", JStr (MintAuthorization.programId auth))])
        (mint_artifact auth expiresAt) MINT_AUTHORIZATION;
  mret (JObj [("id", JStr authId); ("status", JStr "ISSUED"); ("authorization", payload);
              ("signature", signature_to_js signature)]).

Definition approve (authId checkerId reason : string) : prog World jsval :=
  found ← requireAuthWithApproval authId;
  let auth := fst found in
  throw_if (negb (bool_decide (MintAuthorization.status auth = PENDING_CHECKER)))
    (BadRequestException ("Authorization is " +:+ mint_status (MintAuthorization.status auth) +:+
                          ", not awaiting approval") []);;
  approval ← or_throw (snd found) (BadRequestException "Missing approval record" []);
  throw_if (bool_decide (Approval.makerId approval = checkerId))
    (ForbiddenException "A user cannot approve their own request");;
  checker ← find_unique TUser checkerId;
  _ ← or_throw checker (NotFoundException "Checker user not found");
  facts ← gatherGuardFacts authId true;
  decision ← lift (evaluateMintGuard facts);
  if negb (allowed decision) then block_mint authId checkerId approval (reasons decision)
  else issue_mint auth checkerId reason approval (capacity decision).

(** ** Reject, revoke, expire *)

Definition reject (authId checkerId reason : string) : prog World jsval :=
  found ← requireAuthWithApproval authId;
  approval ← or_throw (snd found) (BadRequestException "Missing approval record" []);
  throw_if (bool_decide (Approval.makerId approval = checkerId))
    (ForbiddenException "A user cannot action their own request");;
  _ ← update TMintAuthorization authId (MintAuthorization.set_status REJECTED);
  t ← now;
  _ ← update TApproval (Approval.id approval) (decide_approval checkerId t DECISION_REJECTED reason);
  _ ← publish env MINT_AUTHORIZATION_REJECTED
        (JObj [("authorizationId", JStr authId); ("reasons", JArr [JStr "MANUAL_REJECTION"])]);
  mret (js_result authId "REJECTED").

Definition revoke (authId actor reason : string) : prog World jsval :=
  auth ← requireAuth authId;
  throw_if (negb (bool_decide (MintAuthorization.status auth = ISSUED)))
    (BadRequestException ("Only ISSUED authorizations can be revoked, is " +:+
                          mint_status (MintAuthorization.status auth)) []);;
  entry ← lift (mintReleaseEntry (mint_amount auth)
                  (mint_refs ("mint-revoke:" +:+ authId) auth actor None));
  _ ← post entry;
  _ ← update TMintAuthorization authId (MintAuthorization.set_status REVOKED);
  audit_record (with_reason (Some reason)
    (audited actor "mint_authorization.revoked" "MINT_AUTHORIZATION" authId));;
  mret (js_result authId "REVOKED").

Definition expire (authId actor : string) : prog World jsval :=
  auth ← requireAuth authId;
  if negb (bool_decide (MintAuthorization.status auth = ISSUED)) then
    mret (js_result authId (mint_status (MintAuthorization.status auth)))
  else
    entry ← lift (mintReleaseEntry (mint_amount auth)
                    (mint_refs ("mint-expire:" +:+ authId) auth actor None));
    _ ← post entry;
    _ ← update TMintAuthorization authId (MintAuthorization.set_status EXPIRED);
    _ ← publish env MINT_AUTHORIZATION_EXPIRED (JObj [("authorizationId", JStr authId)]);
    mret (js_result authId "EXPIRED").

(** ** Confirm (PayChain) *)

Definition confirm (authId : string) (input : ConfirmMintInput) : prog World jsval :=
  auth ← requireAuth authId;
  throw_if (negb (bool_decide (MintAuthorization.status auth = ISSUED)))
    (BadRequestException ("Authorization must be ISSUED to confirm (single-use), is " +:+
                          mint_status (MintAuthorization.status auth)) []);;
  t ← now;
  let expired := match MintAuthorization.expiresAt auth with Some e => e <? t | None => false end in
  if expired then
    _ ← expire authId (cm_actor input);
    Throw (BadRequestException "Authorization expired before confirmation" [])
  else
    amount ← lift (BigInt (cm_amountMinor input));
    throw_if (negb (amount =? MintAuthorization.amountMinor auth))
      (BadRequestException "Confirmed amount does not match authorization" []);;
    entry ← lift (mintReleaseEntry (mint_amount auth)
                    (mint_refs ("mint-confirm:" +:+ authId) auth (cm_actor input) None));
    _ ← post entry;
    ledgerHeight ← (match truthy (cm_ledgerHeight input) with
                    | Some s => h ← lift (BigInt s); mret (Some h)
                    | None => mret None
                    end);
    confirmedAt ← new_Date (cm_confirmedAt input);
    _ ← create TMintConfirmation (λ k t,
      {| MintConfirmation.id := k; MintConfirmation.mintAuthorizationId := authId;
         MintConfirmation.paychainTransactionId := cm_paychainTransactionId input;
         MintConfirmation.blockchainTxHash := cm_blockchainTxHash input;
         MintConfirmation.amountMinor := amount;
         MintConfirmation.currency := MintAuthorization.currency auth;
         MintConfirmation.destination := cm_destination input;
         MintConfirmation.ledgerHeight := ledgerHeight;
         MintConfirmation.confirmedAt := confirmedAt;
         MintConfirmation.paychainSignature := cm_paychainSignature input;
         MintConfirmation.verified := true; MintConfirmation.createdAt := t |});
    _ ← update TMintAuthorization authId (MintAuthorization.set_status CONSUMED);
    audit_record (with_after (JObj [("blockchainTxHash", JStr (cm_blockchainTxHash input))])
      (audited (cm_actor input) "mint.confirmed" "MINT_AUTHORIZATION" authId));;
    _ ← publish env MINT_CONFIRMED
          (JObj [("authorizationId", JStr authId); ("blockchainTxHash", JStr (cm_blockchainTxHash input))]);
    mret (js_result authId "CONSUMED").

Definition get (authId : string) : prog World jsval :=
  auth ← requireAuth authId;
  mret (JObj [("id", JStr (MintAuthorization.id auth));
              ("status", JStr (mint_status (MintAuthorization.status auth)));
              ("amountMinor", js_big (MintAuthorization.amountMinor auth));
              ("currency", JStr (MintAuthorization.currency auth));
              ("expiresAt", match MintAuthorization.expiresAt auth with
                            | Some e => JStr (toISOString e) | None => JNull end);
              ("signatureKeyId", js_of_opt (MintAuthorization.signingKeyId auth))]).
End mint_service.

(** * Safety of the handlers under interleaving and crashes *)

Section mint_safe.
Context `{RT : !Runtime} `{PC : !PrismaClient} (env : Env).

(** What a read of an authorization still tells later: the row is there, with
    the same identity and amount, and its evidence. *)
Definition known (a : MintAuthorization.t) (w : World) : Prop :=
  ∃ r, tbl w TMintAuthorization !! MintAuthorization.id a = Some r ∧ evolves TMintAuthorization a r.

Lemma known_later a w w' : later w w' → known a w → known a w'.
Proof.
  intros HL (r & Hr & E). destruct (later_row _ _ HL TMintAuthorization _ r Hr eq_refl) as (r' & Hr' & E').
  exists r'. split; [done|]. by etrans.
Qed.

Lemma known_row a w r :
  known a w → tbl w TMintAuthorization !! MintAuthorization.id a = Some r →
  MintAuthorization.id r = MintAuthorization.id a ∧
  MintAuthorization.amountMinor r = MintAuthorization.amountMinor a ∧
  keeps_some (MintAuthorization.signatureValue a) (MintAuthorization.signatureValue r) ∧
  keeps_some (MintAuthorization.expiresAt a) (MintAuthorization.expiresAt r).
Proof.
  intros (r' & Hr' & (E & ? & ?)) Hr.
  pose proof (tbl_fun TMintAuthorization _ _ _ _ Hr Hr') as <-.
  split_and!; [| |done|done]; destruct a, r; by injection E as.
Qed.

Lemma safe_requireAuth {B} authId (k : MintAuthorization.t → prog World B) Q s :
  good s →
  (∀ w a, later s w → good w → MintAuthorization.id a = authId → mint_inv a w → known a w →
     safely (k a) Q w) →
  safely (requireAuth authId ≫= k) Q s.
Proof.
  intros Hs H. apply (safe_require TMintAuthorization); [done|].
  intros w w0 a HL0 HL Hg0 Hg Ha.
  pose proof (good_key w0 Hg0 TMintAuthorization _ _ Ha) as Hid. cbn in Hid.
  apply H; [by etrans|done|done| |].
  - apply (row_inv_later TMintAuthorization a w0 w HL). by apply (good_row w0 Hg0 TMintAuthorization authId).
  - apply (known_later a w0 w HL). exists a. by rewrite Hid.
Qed.

(** The approval record of an authorization, as read earlier. *)
Definition approval_known (ap : Approval.t) (authId : string) (w : World) : Prop :=
  ∃ r, tbl w TApproval !! Approval.id ap = Some r ∧ approval_core ap = approval_core r ∧
       Approval.mintAuthorizationId ap = Some authId.

Lemma approval_known_later ap i w w' : later w w' → approval_known ap i w → approval_known ap i w'.
Proof.
  intros HL (r & Hr & E & ?). destruct (later_row _ _ HL TApproval _ r Hr eq_refl) as (r' & Hr' & E').
  exists r'. split_and!; [done| |done]. cbn in E'. congruence.
Qed.

Lemma approval_known_exists ap i w :
  approval_known ap i w →
  ∃ k a, tbl w TApproval !! k = Some a ∧ Approval.mintAuthorizationId a = Some i.
Proof.
  intros (r & Hr & E & Hi). exists (Approval.id ap), r. split; [done|].
  rewrite <- Hi. destruct ap, r; by injection E as.
Qed.

Lemma safe_requireAuthWithApproval {B} authId (k : MintAuthorization.t * option Approval.t → prog World B) Q s :
  good s →
  (∀ w a o, later s w → good w → MintAuthorization.id a = authId → mint_inv a w → known a w →
     (∀ ap, o = Some ap → approval_known ap authId w) → safely (k (a, o)) Q w) →
  safely (requireAuthWithApproval authId ≫= k) Q s.
Proof.
  intros Hs H. apply (safe_bind good later); [done|]. unfold requireAuthWithApproval.
  apply (safe_read good later). intros w0 HL0 Hg0. apply safe_or_throw_last.
  intros [a o] w Hread HL Hg.
  destruct (tbl w0 TMintAuthorization !! authId) as [a'|] eqn:Ha; [|done].
  injection Hread as -> <-.
  pose proof (good_key w0 Hg0 TMintAuthorization _ _ Ha) as Hid. cbn in Hid.
  apply H; [by etrans|done|done| | |].
  - apply (row_inv_later TMintAuthorization a w0 w HL). by apply (good_row w0 Hg0 TMintAuthorization authId).
  - apply (known_later a w0 w HL). exists a. by rewrite Hid.
  - intros ap Hap. apply (approval_known_later ap _ w0 w HL).
    apply (head_where_Some TApproval) in Hap as [Hp [key Hkey]].
    pose proof (good_key w0 Hg0 TApproval _ _ Hkey) as Hk. cbn in Hk.
    exists ap. rewrite Hk. apply bool_decide_eq_true in Hp. done.
Qed.

(** The two kinds of update the workflow makes. *)
Lemma safe_mint_status {B} a st (k : MintAuthorization.t → prog World B) Q s :
  known a s → st ≠ ISSUED → st ≠ CONSUMED → st ≠ PENDING_MAKER →
  (∃ key ap, tbl s TApproval !! key = Some ap ∧
     Approval.mintAuthorizationId ap = Some (MintAuthorization.id a)) →
  (∀ w r, later s w → good w → safely (k r) Q w) →
  safely (update TMintAuthorization (MintAuthorization.id a) (MintAuthorization.set_status st) ≫= k) Q s.
Proof.
  intros Hk H1 H2 H3 (key & ap & Hap & Hid) Hc.
  apply (safe_update TMintAuthorization); [safe_tables|done| |naive_solver].
  intros w r HL Hg Hr. destruct (known_row a w r) as (Eid & _); [by eapply known_later|done|].
  split; [by split_and!|].
  destruct (good_row w Hg TMintAuthorization _ _ Hr) as (Hpos & _).
  split_and!; cbn; [done| |by intros [?|?]|done].
  intros _. destruct (later_row _ _ HL TApproval _ ap Hap eq_refl) as (ap' & Hap' & E).
  exists key, ap'. split; [done|]. cbn in E. rewrite Eid, <- Hid. destruct ap, ap'; by injection E as.
Qed.

Lemma safe_decide_approval {B} ap authId c t d reason (k : Approval.t → prog World B) Q s :
  approval_known ap authId s → Approval.makerId ap ≠ c →
  (∀ w r, later s w → good w → safely (k r) Q w) →
  safely (update TApproval (Approval.id ap) (decide_approval c t d reason) ≫= k) Q s.
Proof.
  intros Hk Hne Hc. apply (safe_update TApproval); [safe_tables|done| |naive_solver].
  intros w r HL Hg Hr. split; [done|].
  destruct (approval_known_later _ _ _ _ HL Hk) as (r' & Hr' & E & _).
  pose proof (tbl_fun TApproval _ _ _ _ Hr Hr') as <-.
  destruct (good_row w Hg TApproval _ _ Hr) as (HU & _).
  split_and!; cbn; [done| |by intros _; eexists].
  intros c' [= <-]. destruct ap, r; injection E as; subst; cbn in *; congruence.
Qed.

Lemma mintReservation_booked a src actor ar e :
  mintReservationEntry (mint_amount a) (mint_refs src a actor ar) = Ok e →
  postable e ∧ ref_source (je_references e) = src ∧ minor (je_totalDebit e) = MintAuthorization.amountMinor a.
Proof.
  intros H. split; [by eapply (transfer_postable ReserveMint)|].
  apply transfer_entry_ok in H as [_ ->]. cbn. split; [done|]. unfold debits. cbn. lia.
Qed.
Lemma mintRelease_booked a src actor ar e :
  mintReleaseEntry (mint_amount a) (mint_refs src a actor ar) = Ok e →
  postable e ∧ ref_source (je_references e) = src ∧ minor (je_totalDebit e) = MintAuthorization.amountMinor a.
Proof.
  intros H. split; [by eapply (transfer_postable ReleaseMint)|].
  apply transfer_entry_ok in H as [_ ->]. cbn. split; [done|]. unfold debits. cbn. lia.
Qed.

Lemma keeps_requireAuth i : keeps_good (requireAuth i).
Proof. intros s Hs. unfold requireAuth. safe_steps. Qed.

Lemma keeps_gatherGuardFacts i b : keeps_good (gatherGuardFacts env i b).
Proof.
  intros s Hs. unfold gatherGuardFacts.
  apply (safe_keeps good later); [done|apply keeps_requireAuth|]. intros a w HL Hg.
  safe_steps. apply (safe_keeps good later); [done|apply keeps_position|]. intros pos w1 HL1 Hg1.
  apply (safe_keeps good later); [done| |].
  { intros w2 Hg2. destruct (MintAuthorization.fundingDepositIds a); [done|]. by apply keeps_read. }
  intros deps w2 HL2 Hg2. safe_steps.
Qed.

Theorem keeps_request_mint input : keeps_good (request input).
Proof.
  intros s Hs. unfold request. safe_steps.
  cbn. split_and!; cbn; [|done|by intros [?|?]|done].
  match goal with H : (minor _ <=? 0) = false |- _ => apply Z.leb_gt in H; cbn in H; lia end.
Qed.

Theorem keeps_review authId makerId : keeps_good (review authId makerId).
Proof.
  intros s Hs. unfold review. apply safe_requireAuthWithApproval; [done|].
  intros w a o HL Hg Hid Hinv Hknown _. cbn [fst snd]. safe_step. intros.
  apply (safe_find_unique TUser). intros w1 HL1 Hg1. safe_rule. intros Hmaker.
  destruct (tbl w1 TUser !! makerId) as [u|] eqn:Hu; [|done].
  apply negb_false_iff, bool_decide_eq_true in Hmaker.
  apply (safe_transaction good later) with (λ _ _, True).
  - intros w2 HL2 Hg2. apply (safe_create TApproval); [safe_tables|done| |].
    + intros w3 k HL3 Hg3 Hk. cbn. split_and!; cbn; [|done|done].
      apply (is_user_later _ _ w1); [by etrans|]. by exists u.
    + intros w3 k t HL3 Hg3 Hk. rewrite <- Hid. apply safe_mint_status; try done.
      * eapply known_later; [|done]. etrans; [done|]. by etrans.
      * exists k, (pending_approval authId makerId k t). split; [done|]. cbn. by rewrite Hid.
  - intros [] w2 HL2 Hg2 _. safe_steps.
Qed.

Lemma safe_issue_mint auth ap authId c reason cap s :
  good s → MintAuthorization.id auth = authId → known auth s → approval_known ap authId s →
  Approval.makerId ap ≠ c →
  safely (issue_mint env auth c reason ap cap) (λ _ _, True) s.
Proof.
  intros Hs Hid Hknown Hap Hne. unfold issue_mint. cbv zeta.
  safe_step. safe_rule. intros sg Hsig. safe_rule. intros e He.
  apply mintReservation_booked in He as (Hv & Hsrc & Hamt).
  apply safe_post; [done|]. rewrite Hsrc, Hamt. intros w1 eid HL1 Hg1 Hb.
  apply (safe_update TMintAuthorization); [safe_tables|done| |].
  - intros w2 r HL2 Hg2 Hr. assert (later s w2) as HL by (do 2 (etrans; [eassumption|]); done).
    destruct (known_row auth w2 r) as (Eid & Eamt & _); [by eapply known_later|done|].
    destruct (approval_known_exists _ _ _ (approval_known_later _ _ _ _ HL Hap)) as (ka & a & Ha & Hai).
    split; [split_and!; [done|by intros _; eexists|by intros _; eexists]|].
    destruct (good_row w2 Hg2 TMintAuthorization _ _ Hr) as (Hpos & _).
    split_and!; cbn; [done| | |done].
    + intros _. exists ka, a. split; [done|]. by rewrite Eid, Hid.
    + intros _. split_and!; [by eexists|by eexists|]. rewrite Eid, Eamt.
      by apply (booked_later _ _ w1).
  - intros w2 r HL2 Hg2 Hr. assert (later s w2) as HL by (do 2 (etrans; [eassumption|]); done).
    eapply safe_decide_approval; [by eapply approval_known_later|done|].
    intros w3 r3 HL3 Hg3. safe_steps.
Qed.

Theorem keeps_approve_mint authId c reason : keeps_good (approve env authId c reason).
Proof.
  intros s Hs. unfold approve. apply safe_requireAuthWithApproval; [done|].
  intros w a o HL Hg Hid Hinv Hknown Hap. cbn [fst snd]. safe_step. intros.
  safe_rule. intros ap ->. specialize (Hap ap eq_refl).
  safe_rule. intros Hne%bool_decide_eq_false. safe_step. safe_rule. intros ck Hc.
  apply (safe_keeps good later); [done|apply keeps_gatherGuardFacts|]. intros facts w1 HL1 Hg1.
  safe_rule. intros d Hd. assert (later w w1) as HLw by by etrans.
  destruct (negb (allowed _)).
  - unfold block_mint. rewrite <- Hid. apply safe_mint_status; try done.
    + by eapply known_later.
    + rewrite Hid. by eapply approval_known_exists, approval_known_later.
    + intros w2 r HL2 Hg2. safe_step. eapply safe_decide_approval; [|done|].
      * eapply approval_known_later; [|done]. etrans; [exact HLw|]. by etrans.
      * intros w4 r4 HL4 Hg4. safe_steps.
  - apply (safe_issue_mint _ _ authId); try done; [by eapply known_later|by eapply approval_known_later].
Qed.

Theorem keeps_reject authId c reason : keeps_good (reject env authId c reason).
Proof.
  intros s Hs. unfold reject. apply safe_requireAuthWithApproval; [done|].
  intros w a o HL Hg Hid Hinv Hknown Hap. cbn [fst snd]. safe_rule. intros ap ->. specialize (Hap ap eq_refl).
  safe_rule. intros Hne%bool_decide_eq_false. rewrite <- Hid. apply safe_mint_status; try done.
  - rewrite Hid. by eapply approval_known_exists.
  - intros w2 r HL2 Hg2. safe_step. rewrite Hid. eapply safe_decide_approval; [|done|].
    + eapply approval_known_later; [|done]. by etrans.
    + intros w4 r4 HL4 Hg4. safe_steps.
Qed.

(** The approval record an authorization past its first status has. *)
Lemma mint_inv_approval a w :
  mint_inv a w → MintAuthorization.status a ≠ PENDING_MAKER →
  ∃ k ap, tbl w TApproval !! k = Some ap ∧
    Approval.mintAuthorizationId ap = Some (MintAuthorization.id a).
Proof. intros (_ & H & _) Hs. by apply H. Qed.

Lemma safe_release {B} a src actor st (k : string → MintAuthorization.t → prog World B) Q s :
  good s → known a s → mint_inv a s → MintAuthorization.status a ≠ PENDING_MAKER →
  st ≠ ISSUED → st ≠ CONSUMED → st ≠ PENDING_MAKER →
  (∀ w eid r, later s w → good w → safely (k eid r) Q w) →
  safely (e ← lift (mintReleaseEntry (mint_amount a) (mint_refs src a actor None));
          eid ← post e;
          r ← update TMintAuthorization (MintAuthorization.id a) (MintAuthorization.set_status st);
          k eid r) Q s.
Proof.
  intros Hs Hknown Hinv Hst H1 H2 H3 Hc. safe_rule. intros e He.
  apply mintRelease_booked in He as (Hv & _). apply safe_post; [done|].
  intros w eid HL Hg _. apply safe_mint_status; try done.
  - by eapply known_later.
  - apply (mint_inv_approval a w); [|done]. by apply (row_inv_later TMintAuthorization a s w).
  - intros w' r HL' Hg'. apply Hc; [by etrans|done].
Qed.

Theorem keeps_revoke authId actor reason : keeps_good (revoke authId actor reason).
Proof.
  intros s Hs. unfold revoke. apply safe_requireAuth; [done|].
  intros w a HL Hg <- Hinv Hknown. safe_rule. intros Hst%negb_false_iff%bool_decide_eq_true.
  apply safe_release; try done; [by rewrite Hst|]. intros. safe_steps.
Qed.

Theorem keeps_expire authId actor : keeps_good (expire env authId actor).
Proof.
  intros s Hs. unfold expire. apply safe_requireAuth; [done|].
  intros w a HL Hg <- Hinv Hknown.
  destruct (bool_decide (MintAuthorization.status a = ISSUED)) eqn:Hst; [|done].
  apply bool_decide_eq_true in Hst. cbn [negb].
  apply safe_release; try done; [by rewrite Hst|]. intros. safe_steps.
Qed.

Theorem keeps_confirm_mint authId input : keeps_good (confirm env authId input).
Proof.
  intros s Hs. unfold confirm. apply safe_requireAuth; [done|].
  intros w a HL Hg Hid Hinv Hknown. safe_rule. intros Hst%negb_false_iff%bool_decide_eq_true.
  apply safe_now. intros w1 HL1 Hg1. cbv zeta.
  match goal with |- context [if ?b then _ else _] => destruct b end.
  { apply (safe_keeps good later); [done|apply keeps_expire|]. done. }
  safe_rule. intros z Hamt. safe_rule. intros Heq%negb_false_iff%Z.eqb_eq.
  safe_rule. intros e He. apply mintRelease_booked in He as (Hv & Hsrc & Ht).
  apply safe_post; [done|]. rewrite Hsrc, Ht. intros w2 eid HL2 Hg2 Hb.
  apply (safe_keeps good later); [done| |].
  { intros w3 Hg3. destruct (truthy _); [|done]. by safe_steps. }
  intros lh w3 HL3 Hg3. safe_rule. intros cd Hd.
  apply (safe_create TMintConfirmation); [safe_tables|done|done|].
  intros w4 kc t HL4 Hg4 Hc.
  apply (safe_update TMintAuthorization); [safe_tables|done| |].
  - intros w5 r HL5 Hg5 Hr.
    assert (later w w5) as HLw by (do 4 (etrans; [eassumption|]); done).
    destruct (known_row a w5 r) as (Eid & Eamt & Ksig & Kexp);
      [by eapply known_later|by rewrite Hid|].
    destruct (row_inv_later TMintAuthorization a w w5 HLw Hinv) as (Hpos & Hap & Hiss & _).
    split; [by split_and!|]. split_and!; cbn.
    + by rewrite Eamt.
    + intros _. rewrite Eid. apply Hap. by rewrite Hst.
    + intros _. destruct (Hiss (or_introl Hst)) as (? & ? & ?).
      rewrite Eid, Eamt. split_and!; auto.
    + intros _. rewrite Eid, Eamt, Hid. split.
      * apply (booked_later _ _ w2); [|done]. do 2 (etrans; [eassumption|]). done.
      * destruct (later_row _ _ HL5 TMintConfirmation _ _ Hc eq_refl) as (c' & Hc' & <-).
        eexists kc, _. split; [exact Hc'|]. cbn. by split.
  - intros w5 r HL5 Hg5 Hr. safe_steps.
Qed.
End mint_safe.
