(* ===== verification/Deposits.v ===== *)
(** Funding instructions and deposits:
    [apps/trustee-api/src/modules/funding/funding.service.ts] and
    [modules/deposits/deposits.service.ts].  A detected deposit is booked as
    unmatched cash, matched to a funding instruction of the same amount and
    currency, and cleared into the reserve obligation. *)
From S2P Require Import Prelude.
From S2P Require Import Money.
From S2P Require Import Domain.
From S2P Require Import Ledger.
From S2P Require Import Prog.
From S2P Require Import Crypto.
From S2P Require Import Schema.
From S2P Require Import Prisma.
From S2P Require Import Infra.
From S2P Require Import LedgerService.
From S2P Require Import Invariant.
#[local] Open Scope string_scope.
#[local] Open Scope list_scope.
#[local] Open Scope Z_scope.

(** * Funding instructions *)

Module Funding.

Record CreateFundingInstruction : Type := mkCreateFundingInstruction {
  programId : string; paychainRequestId : string; assetId : string; depositor : string;
  expectedPayer : option string; beneficiaryAccountId : string; amountMinor : string;
  currency : string; permittedMethod : string; ttlSeconds : option Z; actor : string
}.

Section funding.
Context `{RT : !Runtime} `{PC : !PrismaClient} (env : Env).

Definition create_instruction (input : CreateFundingInstruction) : prog World jsval :=
  account ← find_unique TTrusteeAccount (beneficiaryAccountId input);
  account ← or_throw account (NotFoundException
              ("Beneficiary account " +:+ beneficiaryAccountId input +:+ " not found"));
  let ttl := default 3600 (ttlSeconds input) in
  t ← now;
  let expiresAt := t + ttl * 1000 in
  u ← randomUUID;
  let uniqueReference := "PC-" +:+ assetId input +:+ "-" +:+ to_upper (take_string 8 u) in
  amount ← lift (BigInt (amountMinor input));
  created ← create TFundingInstruction (λ k t,
    {| FundingInstruction.id := k; FundingInstruction.programId := programId input;
       FundingInstruction.paychainRequestId := paychainRequestId input;
       FundingInstruction.assetId := assetId input; FundingInstruction.depositor := depositor input;
       FundingInstruction.expectedPayer := expectedPayer input;
       FundingInstruction.beneficiaryAccountId := beneficiaryAccountId input;
       FundingInstruction.amountMinor := amount; FundingInstruction.currency := currency input;
       FundingInstruction.uniqueReference := uniqueReference;
       FundingInstruction.permittedMethod := permittedMethod input;
       FundingInstruction.expiresAt := expiresAt; FundingInstruction.status := FUNDING_ISSUED;
       FundingInstruction.createdAt := t |});
  audit_record (with_after (JObj [("uniqueReference", JStr uniqueReference);
                                  ("amountMinor", JStr (amountMinor input))])
    (audited (actor input) "funding_instruction.created" "FUNDING_INSTRUCTION"
       (FundingInstruction.id created)));;
  _ ← publish env FUNDING_INSTRUCTION_CREATED
        (JObj [("fundingInstructionId", JStr (FundingInstruction.id created));
               ("uniqueReference", JStr uniqueReference); ("programId", JStr (programId input))]);
  mret (JObj [("id", JStr (FundingInstruction.id created)); ("uniqueReference", JStr uniqueReference);
              ("beneficiaryBank", JStr (TrusteeAccount.bankLegalEntity account));
              ("beneficiaryAccountName", JStr (TrusteeAccount.accountName account));
              ("maskedAccountNumber", JStr (TrusteeAccount.maskedAccountNumber account));
              ("currency", JStr (FundingInstruction.currency created));
              ("amountMinor", js_big (FundingInstruction.amountMinor created));
              ("expiresAt", JStr (toISOString (FundingInstruction.expiresAt created)));
              ("status", JStr (FundingInstructionStatus_to_string (FundingInstruction.status created)))]).

Definition require_instruction (id : string) : prog World FundingInstruction.t :=
  fi ← find_unique TFundingInstruction id;
  or_throw fi (NotFoundException ("Funding instruction " +:+ id +:+ " not found")).

Definition get_instruction (id : string) : prog World jsval :=
  fi ← require_instruction id;
  mret (JObj [("id", JStr (FundingInstruction.id fi));
              ("status", JStr (FundingInstructionStatus_to_string (FundingInstruction.status fi)));
              ("uniqueReference", JStr (FundingInstruction.uniqueReference fi));
              ("amountMinor", js_big (FundingInstruction.amountMinor fi));
              ("currency", JStr (FundingInstruction.currency fi));
              ("expiresAt", JStr (toISOString (FundingInstruction.expiresAt fi)))]).

Definition status (id : string) : prog World jsval :=
  fi ← require_instruction id;
  mret (JObj [("id", JStr (FundingInstruction.id fi));
              ("status", JStr (FundingInstructionStatus_to_string (FundingInstruction.status fi)));
              ("expiresAt", JStr (toISOString (FundingInstruction.expiresAt fi)))]).

Definition cancel (id actor : string) : prog World jsval :=
  fi ← require_instruction id;
  throw_if (bool_decide (FundingInstruction.status fi = FUNDING_FUNDED))
    (BadRequestException "A funded instruction cannot be cancelled" []);;
  _ ← update TFundingInstruction id (FundingInstruction.set_status FUNDING_CANCELLED);
  audit_record (audited actor "funding_instruction.cancelled" "FUNDING_INSTRUCTION" id);;
  mret (js_result id "CANCELLED").

Lemma keeps_require_instruction i : keeps_good (require_instruction i).
Proof. intros s Hs. unfold require_instruction. safe_steps. Qed.

Lemma keeps_create_instruction input : keeps_good (create_instruction input).
Proof. intros s Hs. unfold create_instruction. by safe_steps. Qed.

Lemma keeps_cancel i actor : keeps_good (cancel i actor).
Proof.
  intros s Hs. unfold cancel. apply (safe_keeps good later); [done|apply keeps_require_instruction|].
  intros fi w HL Hg. by safe_steps.
Qed.
End funding.
End Funding.

(** * Deposits *)

Record RegisterDeposit : Type := mkRegisterDeposit {
  rd_programId : string; rd_trusteeAccountId : string; rd_bankTransactionId : string;
  rd_amountMinor : string; rd_currency : string; rd_payerName : option string;
  rd_paymentReference : option string; rd_transactionDate : string; rd_actor : string
}.

Definition deposit_status (d : Deposit.t) : string := DepositStatus_to_string (Deposit.status d).

(** A two-posting entry in the currency as the client sent it; the amounts are
    in its upper-case form. *)
Definition deposit_entry (description from_debit to_credit currency : string) (z : Z)
    (refs : JournalReferences) : outcome JournalEntry :=
  let amount := money z currency in
  buildJournalEntry {|
    in_currency := currency; in_description := description;
    in_postings := [mkPosting from_debit amount (zero currency) None;
                    mkPosting to_credit (zero currency) amount None];
    in_references := refs |}.

(** Cash arrived but is not matched: debit cash, credit the unmatched liability. *)
Definition detectedDepositEntry : string → Z → JournalReferences → outcome JournalEntry :=
  deposit_entry "Detected deposit booked as unmatched" ASSET_TRUSTEE_BANK_CASH LIABILITY_UNMATCHED_DEPOSIT.
(** Clearance: from the unmatched liability to the reserve obligation. *)
Definition depositClearedEntry : string → Z → JournalReferences → outcome JournalEntry :=
  deposit_entry "Cleared deposit reclassified to reserve obligation"
    LIABILITY_UNMATCHED_DEPOSIT LIABILITY_PAYCHAIN_RESERVE_OBLIGATION.

Section deposits.
Context `{RT : !Runtime} `{PC : !PrismaClient} (env : Env).

Definition requireDeposit (depositId : string) : prog World Deposit.t :=
  d ← find_unique TDeposit depositId;
  or_throw d (NotFoundException ("Deposit " +:+ depositId +:+ " not found")).

Definition deposit_refs (source programId : string) (account : TrusteeAccount.t) (actor : string) :
    JournalReferences :=
  {| ref_source := source; ref_programId := programId;
     ref_assetId := TrusteeAccount.supportedAssetId account; ref_actor := actor;
     ref_approvalRef := None; ref_correlationId := None |}.

Definition register (input : RegisterDeposit) : prog World jsval :=
  account ← find_unique TTrusteeAccount (rd_trusteeAccountId input);
  account ← or_throw account (NotFoundException "Trustee account not found");
  z ← lift (BigInt (rd_amountMinor input));
  let amount := money z (rd_currency input) in
  transactionDate ← new_Date (rd_transactionDate input);
  deposit ← create TDeposit (λ k t,
    {| Deposit.id := k; Deposit.programId := rd_programId input; Deposit.fundingInstructionId := None;
       Deposit.trusteeAccountId := rd_trusteeAccountId input;
       Deposit.bankTransactionId := rd_bankTransactionId input; Deposit.payerName := rd_payerName input;
       Deposit.payerAccountMasked := None; Deposit.originatingBank := None;
       Deposit.amountMinor := minor amount; Deposit.currency := rd_currency input;
       Deposit.paymentReference := rd_paymentReference input;
       Deposit.transactionDate := transactionDate; Deposit.valueDate := None;
       Deposit.status := DETECTED; Deposit.complianceResult := None; Deposit.clearedAt := None;
       Deposit.createdAt := t |});
  entry ← lift (detectedDepositEntry (rd_currency input) z
                  (deposit_refs ("deposit:" +:+ Deposit.id deposit) (rd_programId input) account
                     (rd_actor input)));
  _ ← post entry;
  audit_record (with_after (JObj [("status", JStr (deposit_status deposit));
                                  ("amountMinor", JStr (rd_amountMinor input))])
    (audited (rd_actor input) "deposit.detected" "DEPOSIT" (Deposit.id deposit)));;
  _ ← publish env DEPOSIT_DETECTED
        (JObj [("depositId", JStr (Deposit.id deposit)); ("programId", JStr (rd_programId input))]);
  mret (js_result (Deposit.id deposit) (deposit_status deposit)).

Definition match_deposit (depositId fundingInstructionId actor : string) : prog World jsval :=
  deposit ← requireDeposit depositId;
  throw_if (negb (bool_decide (Deposit.status deposit = DETECTED)) &&
            negb (bool_decide (Deposit.status deposit = UNMATCHED)))
    (BadRequestException ("Deposit " +:+ depositId +:+ " cannot be matched from " +:+
                          deposit_status deposit) []);;
  fi ← find_unique TFundingInstruction fundingInstructionId;
  fi ← or_throw fi (NotFoundException "Funding instruction not found");
  throw_if (negb (bool_decide (FundingInstruction.currency fi = Deposit.currency deposit)))
    (BadRequestException "Currency mismatch between deposit and funding instruction" []);;
  throw_if (negb (FundingInstruction.amountMinor fi =? Deposit.amountMinor deposit))
    (BadRequestException "Amount mismatch between deposit and funding instruction" []);;
  updated ← update TDeposit depositId (λ d,
    Deposit.set_status MATCHED (Deposit.set_fundingInstructionId (Some fundingInstructionId) d));
  audit_record (with_before (JObj [("status", JStr (deposit_status deposit))])
    (with_after (JObj [("status", JStr (deposit_status updated));
                       ("fundingInstructionId", JStr fundingInstructionId)])
       (audited actor "deposit.matched" "DEPOSIT" depositId)));;
  _ ← publish env DEPOSIT_MATCHED
        (JObj [("depositId", JStr depositId); ("fundingInstructionId", JStr fundingInstructionId)]);
  mret (js_result depositId (deposit_status updated)).

Definition clear (depositId actor : string) : prog World jsval :=
  deposit ← requireDeposit depositId;
  throw_if (negb (bool_decide (Deposit.status deposit = MATCHED)))
    (BadRequestException ("Deposit " +:+ depositId +:+ " must be MATCHED before clearance, is " +:+
                          deposit_status deposit) []);;
  account ← find_unique TTrusteeAccount (Deposit.trusteeAccountId deposit);
  account ← or_throw account (NotFoundException "Trustee account not found");
  entry ← lift (depositClearedEntry (Deposit.currency deposit) (Deposit.amountMinor deposit)
                  (deposit_refs ("deposit-clear:" +:+ Deposit.id deposit) (Deposit.programId deposit)
                     account actor));
  _ ← post entry;
  t ← now;
  updated ← update TDeposit depositId (λ d,
    Deposit.set_status CLEARED (Deposit.set_clearedAt (Some t) d));
  audit_record (with_before (JObj [("status", JStr (deposit_status deposit))])
    (with_after (JObj [("status", JStr (deposit_status updated))])
       (audited actor "deposit.cleared" "DEPOSIT" depositId)));;
  _ ← publish env DEPOSIT_CLEARED (JObj [("depositId", JStr depositId)]);
  mret (js_result depositId (deposit_status updated)).

Definition get_deposit (depositId : string) : prog World jsval :=
  d ← requireDeposit depositId;
  mret (JObj [("id", JStr (Deposit.id d)); ("status", JStr (deposit_status d));
              ("amountMinor", js_big (Deposit.amountMinor d)); ("currency", JStr (Deposit.currency d));
              ("mintEligible", JBool (bool_decide (Deposit.status d ∈ MINT_ELIGIBLE_DEPOSIT_STATUSES)))]).
End deposits.

(** * Safety under interleaving and crashes *)

Section deposits_safe.
Context `{RT : !Runtime} `{PC : !PrismaClient} (env : Env).

(** The deposit read earlier is still there, with its amount, currency and link. *)
Definition deposit_known (d : Deposit.t) (w : World) : Prop :=
  ∃ r, tbl w TDeposit !! Deposit.id d = Some r ∧ evolves TDeposit d r.

Lemma deposit_known_later d w w' : later w w' → deposit_known d w → deposit_known d w'.
Proof.
  intros HL (r & Hr & E). destruct (later_row _ _ HL TDeposit _ r Hr eq_refl) as (r' & Hr' & E').
  exists r'. split; [done|]. by etrans.
Qed.

Lemma deposit_known_row d w r :
  deposit_known d w → tbl w TDeposit !! Deposit.id d = Some r →
  Deposit.id r = Deposit.id d ∧ Deposit.amountMinor r = Deposit.amountMinor d ∧
  Deposit.currency r = Deposit.currency d ∧
  keeps_some (Deposit.fundingInstructionId d) (Deposit.fundingInstructionId r).
Proof.
  intros (r' & Hr' & (E & ?)) Hr. pose proof (tbl_fun TDeposit _ _ _ _ Hr Hr') as <-.
  split_and!; [| | |done]; destruct d, r; by injection E as.
Qed.

Lemma safe_requireDeposit {B} depositId (k : Deposit.t → prog World B) Q s :
  good s →
  (∀ w d, later s w → good w → Deposit.id d = depositId → deposit_inv d w → deposit_known d w →
     safely (k d) Q w) →
  safely (requireDeposit depositId ≫= k) Q s.
Proof.
  intros Hs H. apply (safe_require TDeposit); [done|].
  intros w w0 d HL0 HL Hg0 Hg Hd. pose proof (good_key w0 Hg0 TDeposit _ _ Hd) as Hid. cbn in Hid.
  apply H; [by etrans|done|done| |].
  - apply (row_inv_later TDeposit d w0 w HL). by apply (good_row w0 Hg0 TDeposit depositId).
  - apply (deposit_known_later d w0 w HL). exists d. by rewrite Hid.
Qed.

Lemma deposit_entry_ok d a b c z refs e :
  deposit_entry d a b c z refs = Ok e →
  entry_valid e ∧ 0 < z ∧ to_upper c = c ∧
  e = entry_of {| in_currency := c; in_description := d;
        in_postings := [debit_line a (mkMoney z c); credit_line b (mkMoney z c)];
        in_references := refs |} None.
Proof.
  intros H. split; [by eapply buildJournalEntry_valid|].
  apply buildJournalEntry_ok in H as [(_ & Hu & Hw & _) ->]. cbn in Hu, Hw.
  apply Forall_cons in Hw as [(_ & _ & Hs & _) _]. cbn in Hs.
  unfold debit_line, credit_line, money, zero. cbn. rewrite Hu. split_and!; [lia|done|done].
Qed.

Lemma deposit_entry_valid k d c z refs e :
  deposit_entry d (book_debit k) (book_credit k) c z refs = Ok e →
  postable e ∧ ref_source (je_references e) = ref_source refs ∧ minor (je_totalDebit e) = z ∧ 0 < z.
Proof.
  intros (Hv & Hz & _ & E)%deposit_entry_ok. split; [by eapply pair_postable|]. subst e.
  split_and!; [done|unfold debits; cbn; lia|done].
Qed.

Theorem keeps_register_deposit input : keeps_good (register env input).
Proof.
  intros s Hs. unfold register. do 4 safe_step.
  apply (safe_create TDeposit); [safe_tables|done| |].
  - intros w' k HL' Hg' _. cbn. split_and!; cbn; [done|by intros [?|?]|done|set_solver].
  - intros w' k t HL' Hg' _. safe_rule. intros e He. apply (deposit_entry_valid DetectDeposit) in He as (Hv & _).
    apply safe_post; [done|]. intros. safe_steps.
Qed.

Theorem keeps_match i f actor : keeps_good (match_deposit env i f actor).
Proof.
  intros s Hs. unfold match_deposit. apply safe_requireDeposit; [done|].
  intros w d HL Hg <- Hinv Hknown. safe_step.
  apply (safe_find_unique TFundingInstruction). intros w1 HL1 Hg1.
  safe_rule. intros fi Hfi. safe_rule. intros Hc%negb_false_iff%bool_decide_eq_true.
  safe_rule. intros Ha%negb_false_iff%Z.eqb_eq.
  apply (safe_update TDeposit); [safe_tables|done| |intros; safe_steps].
  intros w2 r HL2 Hg2 Hr. assert (later w w2) as HLw by by etrans.
  destruct (deposit_known_row d w2 r) as (Eid & Eamt & Ecur & _); [by eapply deposit_known_later|done|].
  destruct (later_row _ _ HL2 TFundingInstruction _ _ Hfi eq_refl) as (fi' & Hfi' & E).
  split; [split; [done|by intros _; eexists]|].
  split_and!; cbn; [| by intros _; eexists|done|set_solver].
  intros ? [= <-]. exists fi'. split; [done|]. rewrite Eamt, Ecur, <- Ha, <- Hc.
  clear -E. destruct fi, fi'; injection E as; subst; done.
Qed.

Theorem keeps_clear i actor : keeps_good (clear env i actor).
Proof.
  intros s Hs. unfold clear. apply safe_requireDeposit; [done|].
  intros w d HL Hg <- Hinv Hknown. safe_rule. intros Hst%negb_false_iff%bool_decide_eq_true.
  safe_step. safe_step. safe_rule. intros e He.
  apply (deposit_entry_valid ClearDeposit) in He as (Hv & Hsrc & Hamt & Hpos). cbn in Hsrc.
  apply safe_post; [done|]. rewrite Hsrc, Hamt. intros w1 eid HL1 Hg1 Hb. safe_rule. intros w2 HL2 Hg2.
  apply (safe_update TDeposit); [safe_tables|done| |intros; safe_steps].
  intros w3 r HL3 Hg3 Hr. assert (later w w3) as HLw by (do 3 (etrans; [eassumption|]); done).
  destruct (deposit_known_row d w3 r) as (Eid & Eamt & Ecur & Kf); [by eapply deposit_known_later|done|].
  destruct (good_row w3 Hg3 TDeposit _ _ Hr) as (Hlink & _).
  destruct Hinv as (_ & Hm & _).
  split; [by split|]. split_and!; cbn; [done| | |set_solver].
  - intros _. apply Kf, Hm. by left.
  - intros _. rewrite Eamt, Eid. split; [done|]. apply (booked_later _ _ w1); [|done]. by etrans.
Qed.
End deposits_safe.
