(* ===== verification/Redemption.v ===== *)
(** Redemption and payout
    ([apps/trustee-api/src/modules/redemption/redemption.service.ts]) and the
    ingestion of PayChain's liability snapshots
    ([modules/liability/liability.service.ts]). *)
From S2P Require Import Prelude.
From S2P Require Import Money.
From S2P Require Import Domain.
From S2P Require Import Ledger.
From S2P Require Import Prog.
From S2P Require Import Crypto.
From S2P Require Import Schema.
From S2P Require Import Prisma.
From S2P Require Import Infra.
From S2P Require Import LedgerService.
From S2P Require Import Invariant.
#[local] Open Scope string_scope.
#[local] Open Scope list_scope.
#[local] Open Scope Z_scope.

(** * Redemptions *)

Record RequestRedemption : Type := mkRequestRedemption {
  rr_programId : string; rr_paychainRedemptionId : string; rr_amountMinor : string;
  rr_beneficiaryName : string; rr_beneficiaryAccountMasked : string; rr_correlationId : option string
}.

Definition redemption_status (r : Redemption.t) : string := RedemptionStatus_to_string (Redemption.status r).

Definition redemption_refs (source : string) (r : Redemption.t) (actor : string) : JournalReferences :=
  {| ref_source := source; ref_programId := Redemption.programId r; ref_assetId := Redemption.assetId r;
     ref_actor := actor; ref_approvalRef := None; ref_correlationId := None |}.

Definition redemption_amount (r : Redemption.t) : Money :=
  money (Redemption.amountMinor r) (Redemption.currency r).

Section redemption_service.
Context `{RT : !Runtime} `{PC : !PrismaClient} (env : Env).

Definition require (redemptionId : string) : prog World Redemption.t :=
  r ← find_unique TRedemption redemptionId;
  or_throw r (NotFoundException ("Redemption " +:+ redemptionId +:+ " not found")).

Definition request (input : RequestRedemption) : prog World jsval :=
  p ← find_unique TProgram (rr_programId input);
  p ← or_throw p (NotFoundException "Program not found");
  enabled ← isEnabled "paychain.redemption.enabled" false;
  throw_if (negb enabled) (BadRequestException "Redemption is disabled" []);;
  z ← lift (BigInt (rr_amountMinor input));
  let amount := money z (Program.referenceCurrency p) in
  throw_if (minor amount <=? 0) (BadRequestException "Amount must be positive" []);;
  r ← create TRedemption (λ k t,
    {| Redemption.id := k; Redemption.programId := rr_programId input;
       Redemption.paychainRedemptionId := rr_paychainRedemptionId input;
       Redemption.assetId := Program.assetId p; Redemption.amountMinor := minor amount;
       Redemption.currency := Program.referenceCurrency p;
       Redemption.beneficiaryName := rr_beneficiaryName input;
       Redemption.beneficiaryAccountMasked := rr_beneficiaryAccountMasked input;
       Redemption.status := AWAITING_APPROVAL; Redemption.correlationId := rr_correlationId input;
       Redemption.burnTxHash := None; Redemption.burnConfirmedAt := None;
       Redemption.approvedById := None; Redemption.payoutReference := None;
       Redemption.payoutSubmittedAt := None; Redemption.payoutConfirmedAt := None;
       Redemption.completedAt := None; Redemption.createdAt := t |});
  audit_record (with_correlation (rr_correlationId input)
    (with_after (JObj [("amountMinor", JStr (rr_amountMinor input))])
       (audited ("paychain:" +:+ rr_paychainRedemptionId input) "redemption.requested" "REDEMPTION"
          (Redemption.id r))));;
  mret (js_result (Redemption.id r) (redemption_status r)).

Definition approve (redemptionId approverId reason : string) : prog World jsval :=
  r ← require redemptionId;
  throw_if (negb (bool_decide (Redemption.status r = AWAITING_APPROVAL)))
    (BadRequestException ("Redemption is " +:+ redemption_status r +:+ ", not awaiting approval") []);;
  approver ← find_unique TUser approverId;
  throw_if (match approver with
            | Some u => negb (bool_decide (User.institution u = "TRUSTEE_BANK"))
            | None => true
            end)
    (BadRequestException "Approver must be a trustee-bank user" []);;
  entry ← lift (redemptionObligationEntry (redemption_amount r)
                  (redemption_refs ("redemption:" +:+ redemptionId) r approverId));
  _ ← post entry;
  _ ← update TRedemption redemptionId (λ r,
        Redemption.set_status RAPPROVED (Redemption.set_approvedById (Some approverId) r));
  audit_record (with_reason (Some reason)
    (audited approverId "redemption.approved" "REDEMPTION" redemptionId));;
  _ ← publish env REDEMPTION_APPROVED
        (JObj [("redemptionId", JStr redemptionId); ("programId", JStr (Redemption.programId r))]);
  mret (js_result redemptionId "APPROVED").

Definition confirmBurn (redemptionId burnTxHash actor : string) : prog World jsval :=
  r ← require redemptionId;
  throw_if (negb (bool_decide (Redemption.status r = RAPPROVED)) &&
            negb (bool_decide (Redemption.status r = ASSET_LOCKED)))
    (BadRequestException ("Redemption must be APPROVED before burn, is " +:+ redemption_status r) []);;
  t ← now;
  _ ← update TRedemption redemptionId (λ r,
        Redemption.set_status BURN_CONFIRMED (Redemption.set_burnTxHash (Some burnTxHash)
          (Redemption.set_burnConfirmedAt (Some t) r)));
  audit_record (with_after (JObj [("burnTxHash", JStr burnTxHash)])
    (audited actor "redemption.burn.confirmed" "REDEMPTION" redemptionId));;
  _ ← publish env REDEMPTION_BURN_CONFIRMED
        (JObj [("redemptionId", JStr redemptionId); ("burnTxHash", JStr burnTxHash)]);
  mret (js_result redemptionId "BURN_CONFIRMED").

Definition submitPayout (redemptionId actor : string) : prog World jsval :=
  r ← require redemptionId;
  throw_if (negb (bool_decide (Redemption.status r = BURN_CONFIRMED)))
    (BadRequestException ("Cannot pay out before burn is confirmed (is " +:+ redemption_status r +:+ ")") []);;
  enabled ← isEnabled "bank.payout.enabled" false;
  throw_if (negb enabled) (BadRequestException "Payout execution is disabled (bank.payout.enabled)" []);;
  u ← randomUUID;
  let payoutReference := "PO-" +:+ to_upper (take_string 10 u) in
  t ← now;
  _ ← update TRedemption redemptionId (λ r,
        Redemption.set_status PAYOUT_SUBMITTED (Redemption.set_payoutReference (Some payoutReference)
          (Redemption.set_payoutSubmittedAt (Some t) r)));
  audit_record (with_after (JObj [("payoutReference", JStr payoutReference)])
    (audited actor "redemption.payout.submitted" "REDEMPTION" redemptionId));;
  _ ← publish env REDEMPTION_PAYOUT_SUBMITTED
        (JObj [("redemptionId", JStr redemptionId); ("payoutReference", JStr payoutReference)]);
  mret (JObj [("id", JStr redemptionId); ("status", JStr "PAYOUT_SUBMITTED");
              ("payoutReference", JStr payoutReference)]).

Definition confirmPayout (redemptionId actor : string) : prog World jsval :=
  r ← require redemptionId;
  throw_if (negb (bool_decide (Redemption.status r = PAYOUT_SUBMITTED)))
    (BadRequestException ("Redemption must be PAYOUT_SUBMITTED to confirm, is " +:+ redemption_status r) []);;
  entry ← lift (payoutConfirmedEntry (redemption_amount r)
                  (redemption_refs ("redemption-payout:" +:+ redemptionId) r actor));
  _ ← post entry;
  t ← now;
  _ ← update TRedemption redemptionId (λ r,
        Redemption.set_status COMPLETED (Redemption.set_payoutConfirmedAt (Some t)
          (Redemption.set_completedAt (Some t) r)));
  audit_record (audited actor "redemption.completed" "REDEMPTION" redemptionId);;
  _ ← publish env REDEMPTION_PAYOUT_CONFIRMED (JObj [("redemptionId", JStr redemptionId)]);
  _ ← publish env REDEMPTION_COMPLETED (JObj [("redemptionId", JStr redemptionId)]);
  mret (js_result redemptionId "COMPLETED").

Definition get (redemptionId : string) : prog World jsval :=
  r ← require redemptionId;
  mret (JObj [("id", JStr (Redemption.id r)); ("status", JStr (redemption_status r));
              ("amountMinor", js_big (Redemption.amountMinor r));
              ("currency", JStr (Redemption.currency r));
              ("burnTxHash", js_of_opt (Redemption.burnTxHash r));
              ("payoutReference", js_of_opt (Redemption.payoutReference r))]).

Definition js_date (o : option Z) : jsval := match o with Some t => JStr (toISOString t) | None => JNull end.

Definition payoutStatus (redemptionId : string) : prog World jsval :=
  r ← require redemptionId;
  mret (JObj [("id", JStr (Redemption.id r)); ("status", JStr (redemption_status r));
              ("payoutReference", js_of_opt (Redemption.payoutReference r));
              ("payoutSubmittedAt", js_date (Redemption.payoutSubmittedAt r));
              ("payoutConfirmedAt", js_date (Redemption.payoutConfirmedAt r))]).
End redemption_service.

(** ** Safety under interleaving and crashes *)

Section redemption_safe.
Context `{RT : !Runtime} `{PC : !PrismaClient} (env : Env).

Definition redemption_known (d : Redemption.t) (w : World) : Prop :=
  ∃ r, tbl w TRedemption !! Redemption.id d = Some r ∧ evolves TRedemption d r.

Lemma redemption_known_later d w w' : later w w' → redemption_known d w → redemption_known d w'.
Proof.
  intros HL (r & Hr & E). destruct (later_row _ _ HL TRedemption _ r Hr eq_refl) as (r' & Hr' & E').
  exists r'. split; [done|]. by etrans.
Qed.

Lemma redemption_known_row d w r :
  redemption_known d w → tbl w TRedemption !! Redemption.id d = Some r →
  Redemption.id r = Redemption.id d ∧ Redemption.amountMinor r = Redemption.amountMinor d ∧
  keeps_some (Redemption.approvedById d) (Redemption.approvedById r) ∧
  keeps_some (Redemption.burnTxHash d) (Redemption.burnTxHash r) ∧
  keeps_some (Redemption.payoutReference d) (Redemption.payoutReference r).
Proof.
  intros (r' & Hr' & (E & ? & ? & ?)) Hr. pose proof (tbl_fun TRedemption _ _ _ _ Hr Hr') as <-.
  split_and!; [| |done..]; destruct d, r; by injection E as.
Qed.

Lemma safe_require_redemption {B} i (k : Redemption.t → prog World B) Q s :
  good s →
  (∀ w d, later s w → good w → Redemption.id d = i → redemption_inv d w → redemption_known d w →
     safely (k d) Q w) →
  safely (require i ≫= k) Q s.
Proof.
  intros Hs H. apply (safe_require TRedemption); [done|].
  intros w w0 d HL0 HL Hg0 Hg Hd. pose proof (good_key w0 Hg0 TRedemption _ _ Hd) as Hid. cbn in Hid.
  apply H; [by etrans|done|done| |].
  - apply (row_inv_later TRedemption d w0 w HL). by apply (good_row w0 Hg0 TRedemption i).
  - apply (redemption_known_later d w0 w HL). exists d. by rewrite Hid.
Qed.

Lemma redemption_entry_valid k d r src actor e :
  transfer_entry d (book_debit k) (book_credit k) (redemption_amount r) (redemption_refs src r actor) = Ok e →
  postable e ∧ ref_source (je_references e) = src ∧ minor (je_totalDebit e) = Redemption.amountMinor r.
Proof.
  intros H. split; [by eapply transfer_postable|].
  apply transfer_entry_ok in H as [_ ->]. cbn. split; [done|]. unfold debits. cbn. lia.
Qed.

Theorem keeps_request_redemption input : keeps_good (request input).
Proof.
  intros s Hs. unfold request. safe_steps.
  cbn. split_and!; cbn; [|set_solver|done|done|set_solver|set_solver|done].
  match goal with H : (minor _ <=? 0) = false |- _ => apply Z.leb_gt in H; cbn in H; lia end.
Qed.

(** An update of a redemption read earlier whose preconditions still hold. *)
Lemma safe_redemption_update {B} d f (k : Redemption.t → prog World B) Q s :
  redemption_known d s → (∀ r, redemption_core (f r) = redemption_core r) →
  (∀ r, keeps_some (Redemption.approvedById r) (Redemption.approvedById (f r)) ∧
        keeps_some (Redemption.burnTxHash r) (Redemption.burnTxHash (f r)) ∧
        keeps_some (Redemption.payoutReference r) (Redemption.payoutReference (f r))) →
  (∀ w r, later s w → good w → redemption_inv r w →
     Redemption.id r = Redemption.id d → Redemption.amountMinor r = Redemption.amountMinor d →
     keeps_some (Redemption.approvedById d) (Redemption.approvedById r) →
     keeps_some (Redemption.burnTxHash d) (Redemption.burnTxHash r) →
     keeps_some (Redemption.payoutReference d) (Redemption.payoutReference r) →
     redemption_inv (f r) w) →
  (∀ w r, later s w → good w → safely (k r) Q w) →
  safely (update TRedemption (Redemption.id d) f ≫= k) Q s.
Proof.
  intros Hk Hcore Hsome Hinv Hc. apply (safe_update TRedemption); [safe_tables| | |naive_solver].
  - intros r. specialize (Hcore r). cbn. destruct r, (f _); by injection Hcore as.
  - intros w r HL Hg Hr.
    destruct (redemption_known_row d w r) as (? & ? & ? & ? & ?); [by eapply redemption_known_later|done|].
    split; [by split|]. apply Hinv; try done. by apply (good_row w Hg TRedemption _ _ Hr).
Qed.

Theorem keeps_approve_redemption i u reason : keeps_good (approve env i u reason).
Proof.
  intros s Hs. unfold approve. apply safe_require_redemption; [done|].
  intros w d HL Hg <- Hinv Hknown. safe_rule. intros Hst%negb_false_iff%bool_decide_eq_true.
  apply (safe_find_unique TUser). intros w1 HL1 Hg1. safe_rule. intros Hu.
  destruct (tbl w1 TUser !! u) as [usr|] eqn:Eu; [|done].
  apply negb_false_iff, bool_decide_eq_true in Hu.
  safe_rule. intros e He. apply (redemption_entry_valid ObligateRedemption) in He as (Hv & Hsrc & Hamt).
  apply safe_post; [done|]. rewrite Hsrc, Hamt. intros w2 eid HL2 Hg2 Hb.
  apply safe_redemption_update; try done.
  - eapply redemption_known_later; [|done]. by etrans.
  - intros r. split_and!; [by intros _; eexists|done|done].
  - intros w3 r HL3 Hg3 (Hpos & Hs3 & HU & Hap & Hburn & Hpay & Hcomp) Eid Eamt _ _ _.
    split_and!; cbn; [done|set_solver| | |set_solver|set_solver|done].
    + intros ? [= <-]. apply (is_user_later _ _ w1); [by etrans|]. by exists usr.
    + intros _. split; [by eexists|]. rewrite Eid, Eamt. by apply (booked_later _ _ w2).
  - intros w3 r HL3 Hg3. safe_steps.
Qed.

Theorem keeps_confirmBurn i h actor : keeps_good (confirmBurn env i h actor).
Proof.
  intros s Hs. unfold confirmBurn. apply safe_require_redemption; [done|].
  intros w d HL Hg <- Hinv Hknown. safe_rule. intros Hst.
  assert (Redemption.status d ≠ AWAITING_APPROVAL) as Hne.
  { intros E. rewrite E in Hst. by cbn in Hst. }
  destruct Hinv as (_ & _ & _ & Hap0 & _). destruct (Hap0 Hne) as [Happ Hbk].
  safe_rule. intros w1 HL1 Hg1. apply safe_redemption_update; try done.
  - by eapply redemption_known_later.
  - intros r. split_and!; [done|by intros _; eexists|done].
  - intros w3 r HL3 Hg3 (Hpos & Hs3 & HU & Hap & Hburn & Hpay & Hcomp) Eid Eamt Ka _ _.
    split_and!; cbn; [done|set_solver|done| |by intros _; eexists|set_solver|done].
    intros _. split; [by apply Ka|]. rewrite Eid, Eamt. apply (booked_later _ _ w); [|done]. by etrans.
  - intros w3 r HL3 Hg3. safe_steps.
Qed.

Theorem keeps_submitPayout i actor : keeps_good (submitPayout env i actor).
Proof.
  intros s Hs. unfold submitPayout. apply safe_require_redemption; [done|].
  intros w d HL Hg <- Hinv Hknown. safe_rule. intros Hst%negb_false_iff%bool_decide_eq_true.
  destruct Hinv as (_ & _ & _ & Hap0 & Hburn0 & _). rewrite Hst in Hap0, Hburn0.
  destruct Hap0 as [Happ Hbk]; [done|]. specialize (Hburn0 ltac:(set_solver)).
  do 3 safe_step. safe_rule. intros w2 HL2 Hg2. apply safe_redemption_update; try done.
  - eapply redemption_known_later; [|done]. solve_later.
  - intros r. split_and!; [done|done|by intros _; eexists].
  - intros w3 r HL3 Hg3 (Hpos & Hs3 & HU & Hap & Hburn & Hpay & Hcomp) Eid Eamt Ka Kb _.
    split_and!; cbn; [done|set_solver|done| |by intros _; apply Kb|by intros _; eexists|done].
    intros _. split; [by apply Ka|]. rewrite Eid, Eamt. apply (booked_later _ _ w); [|done]. solve_later.
  - intros w3 r HL3 Hg3. safe_steps.
Qed.

Theorem keeps_confirmPayout i actor : keeps_good (confirmPayout env i actor).
Proof.
  intros s Hs. unfold confirmPayout. apply safe_require_redemption; [done|].
  intros w d HL Hg <- Hinv Hknown. safe_rule. intros Hst%negb_false_iff%bool_decide_eq_true.
  destruct Hinv as (_ & _ & _ & Hap0 & Hburn0 & Hpay0 & _). rewrite Hst in Hap0, Hburn0, Hpay0.
  destruct Hap0 as [Happ Hbk]; [done|].
  specialize (Hburn0 ltac:(set_solver)). specialize (Hpay0 ltac:(set_solver)).
  safe_rule. intros e He. apply (redemption_entry_valid PayOut) in He as (Hv & Hsrc & Hamt).
  apply safe_post; [done|]. rewrite Hsrc, Hamt. intros w1 eid HL1 Hg1 Hb.
  safe_rule. intros w2 HL2 Hg2. apply safe_redemption_update; try done.
  - eapply redemption_known_later; [|done]. by etrans.
  - intros w3 r HL3 Hg3 (Hpos & Hs3 & HU & Hap & Hburn & Hpay & Hcomp) Eid Eamt Ka Kb Kp.
    split_and!; cbn; [done|set_solver|done| |by intros _; apply Kb|by intros _; apply Kp|].
    + intros _. split; [by apply Ka|]. rewrite Eid, Eamt. apply (booked_later _ _ w); [|done]. solve_later.
    + intros _. rewrite Eid, Eamt. apply (booked_later _ _ w1); [|done]. solve_later.
  - intros w3 r HL3 Hg3. safe_steps.
Qed.
End redemption_safe.

(** * Liability snapshots *)

Module Liability.

Record LiabilitySnapshotInput : Type := mkLiabilitySnapshotInput {
  programId : string; assetId : string; assetCode : string; blockchainNetwork : string;
  issuerAccount : string; circulatingMinor : string; treasuryHeldMinor : string; lockedMinor : string;
  pendingMintMinor : string; pendingBurnMinor : string; pendingRedemptionMinor : string;
  confirmedBurnMinor : string; effectiveLiabilityMinor : string; currency : string;
  ledgerReference : string; sourceVersion : string; sequence : string; snapshotTimestamp : string;
  signature : option Signature
}.

(** [const { signature, ...signable } = input]. *)
Definition signable (i : LiabilitySnapshotInput) : jsval :=
  JObj [("programId", JStr (programId i)); ("assetId", JStr (assetId i));
        ("assetCode", JStr (assetCode i)); ("blockchainNetwork", JStr (blockchainNetwork i));
        ("issuerAccount", JStr (issuerAccount i)); ("circulatingMinor", JStr (circulatingMinor i));
        ("treasuryHeldMinor", JStr (treasuryHeldMinor i)); ("lockedMinor", JStr (lockedMinor i));
        ("pendingMintMinor", JStr (pendingMintMinor i)); ("pendingBurnMinor", JStr (pendingBurnMinor i));
        ("pendingRedemptionMinor", JStr (pendingRedemptionMinor i));
        ("confirmedBurnMinor", JStr (confirmedBurnMinor i));
        ("effectiveLiabilityMinor", JStr (effectiveLiabilityMinor i)); ("currency", JStr (currency i));
        ("ledgerReference", JStr (ledgerReference i)); ("sourceVersion", JStr (sourceVersion i));
        ("sequence", JStr (sequence i)); ("snapshotTimestamp", JStr (snapshotTimestamp i))].

Section liability.
Context `{RT : !Runtime} `{PC : !PrismaClient} (env : Env).

Definition paychainPublicKey : option string := process_env env "PAYCHAIN_LIABILITY_PUBLIC_KEY".

(** The signature branch: [verified] is true on every path that returns. *)
Definition verify_snapshot (input : LiabilitySnapshotInput) : prog World bool :=
  match truthy paychainPublicKey, signature input with
  | Some pubKey, Some s =>
      let verified := verifyPayload pubKey (signable input) s in
      throw_if (negb verified)
        (BadRequestException "Liability snapshot signature failed verification" []);;
      mret verified
  | _, _ =>
      required ← isEnabled "liability.signature.required" false;
      throw_if required
        (BadRequestException "Liability snapshot must be signed and PAYCHAIN_LIABILITY_PUBLIC_KEY configured (liability.signature.required is enabled)." []);;
      mret true
  end.

Definition ingest (input : LiabilitySnapshotInput) : prog World (string * bool) :=
  seq ← lift (BigInt (sequence input));
  latest ← find_first_desc TLiabilitySnapshot
             (λ s, bool_decide (LiabilitySnapshot.programId s = programId input))
             LiabilitySnapshot.sequence;
  throw_if (match latest with Some l => seq <=? LiabilitySnapshot.sequence l | None => false end)
    (ConflictException ("Liability snapshot sequence " +:+ big_to_string seq +:+
       " is not greater than latest (duplicate or out-of-order)"));;
  verified ← verify_snapshot input;
  circulating ← lift (BigInt (circulatingMinor input));
  treasuryHeld ← lift (BigInt (treasuryHeldMinor input));
  locked ← lift (BigInt (lockedMinor input));
  pendingMint ← lift (BigInt (pendingMintMinor input));
  pendingBurn ← lift (BigInt (pendingBurnMinor input));
  pendingRedemption ← lift (BigInt (pendingRedemptionMinor input));
  confirmedBurn ← lift (BigInt (confirmedBurnMinor input));
  effectiveLiability ← lift (BigInt (effectiveLiabilityMinor input));
  timestamp ← new_Date (snapshotTimestamp input);
  created ← create TLiabilitySnapshot (λ k t,
    {| LiabilitySnapshot.id := k; LiabilitySnapshot.programId := programId input;
       LiabilitySnapshot.assetId := assetId input; LiabilitySnapshot.assetCode := assetCode input;
       LiabilitySnapshot.blockchainNetwork := blockchainNetwork input;
       LiabilitySnapshot.issuerAccount := issuerAccount input;
       LiabilitySnapshot.circulatingMinor := circulating;
       LiabilitySnapshot.treasuryHeldMinor := treasuryHeld; LiabilitySnapshot.lockedMinor := locked;
       LiabilitySnapshot.pendingMintMinor := pendingMint;
       LiabilitySnapshot.pendingBurnMinor := pendingBurn;
       LiabilitySnapshot.pendingRedemptionMinor := pendingRedemption;
       LiabilitySnapshot.confirmedBurnMinor := confirmedBurn;
       LiabilitySnapshot.effectiveLiabilityMinor := effectiveLiability;
       LiabilitySnapshot.currency := currency input;
       LiabilitySnapshot.ledgerReference := ledgerReference input;
       LiabilitySnapshot.sourceVersion := sourceVersion input; LiabilitySnapshot.sequence := seq;
       LiabilitySnapshot.snapshotTimestamp := timestamp;
       LiabilitySnapshot.signatureKeyId :=
         match signature input with Some s => keyId s | None => "unsigned" end;
       LiabilitySnapshot.signatureValue := match signature input with Some s => value s | None => "" end;
       LiabilitySnapshot.signatureVerified := verified; LiabilitySnapshot.createdAt := t |});
  mret (LiabilitySnapshot.id created, verified).

Lemma safe_verify_snapshot {B} input (k : bool → prog World B) Q s :
  good s → (∀ w, later s w → good w → safely (k true) Q w) →
  safely (verify_snapshot input ≫= k) Q s.
Proof.
  intros Hs H. apply (safe_bind good later); [done|]. unfold verify_snapshot.
  assert (safely (required ← isEnabled "liability.signature.required" false;
    throw_if required (BadRequestException "Liability snapshot must be signed and PAYCHAIN_LIABILITY_PUBLIC_KEY configured (liability.signature.required is enabled)." []);;
    mret true) (λ b s', safely (k b) Q s') s) as Hflag.
  { apply safe_isEnabled; [done|]. intros w b HL Hg. safe_rule. intros _ w' HL' Hg'.
    apply H; [by etrans|done]. }
  destruct (truthy paychainPublicKey), (signature input); try exact Hflag.
  safe_rule. intros Hv%negb_false_iff w HL Hg. rewrite Hv. by apply H.
Qed.

Theorem keeps_ingest input : keeps_good (ingest input).
Proof.
  intros s Hs. unfold ingest. safe_step. safe_rule. intros w HL Hg. safe_step.
  apply safe_verify_snapshot; [done|]. intros w1 HL1 Hg1. by safe_steps.
Qed.
End liability.
End Liability.
