(* ===== verification/Paykh.v ===== *)
(** PayKH services
    ([apps/trustee-api/src/modules/paykh]): the merchant registry mirror,
    payment profiles, payment orders and merchant settlements. *)
From S2P Require Import Prelude.
From S2P Require Import Money.
From S2P Require Import Domain.
From S2P Require Import Ledger.
From S2P Require Import Prog.
From S2P Require Import Crypto.
From S2P Require Import Schema.
From S2P Require Import Prisma.
From S2P Require Import Infra.
From S2P Require Import LedgerService.
From S2P Require Import Invariant.
#[local] Open Scope string_scope.
#[local] Open Scope list_scope.
#[local] Open Scope Z_scope.

(** * Merchants *)

Module Merchants.

Record RegisterMerchantInput : Type := mkRegisterMerchantInput {
  tenantId : string; merchantCode : string; legalName : string; country : option string;
  paykhMerchantRef : option string; kycStatus : option string; status : option string;
  riskLevel : option string; actor : string
}.

Definition serialize (m : PaykhMerchant.t) : jsval :=
  JObj [("id", JStr (PaykhMerchant.id m)); ("tenantId", JStr (PaykhMerchant.tenantId m));
        ("merchantCode", JStr (PaykhMerchant.merchantCode m));
        ("paykhMerchantRef", js_of_opt (PaykhMerchant.paykhMerchantRef m));
        ("legalName", JStr (PaykhMerchant.legalName m)); ("country", js_of_opt (PaykhMerchant.country m));
        ("kycStatus", JStr (PaykhMerchant.kycStatus m)); ("riskLevel", JStr (PaykhMerchant.riskLevel m));
        ("status", JStr (PaykhMerchant.status m)); ("source", JStr (PaykhMerchant.source m))].

Section merchants.
Context `{RT : !Runtime} `{PC : !PrismaClient} (env : Env).

Definition require (id : string) : prog World PaykhMerchant.t :=
  m ← find_unique TPaykhMerchant id;
  or_throw m (NotFoundException ("Merchant " +:+ id +:+ " not found")).

Definition register (input : RegisterMerchantInput) : prog World jsval :=
  t ← now;
  let kyc := default "PENDING" (kycStatus input) in
  let st := default "ACTIVE" (status input) in
  let risk := default "LOW" (riskLevel input) in
  merchant ← upsert_by TPaykhMerchant
    (λ m, bool_decide (PaykhMerchant.tenantId m = tenantId input) &&
          bool_decide (PaykhMerchant.merchantCode m = merchantCode input))
    (λ m, PaykhMerchant.set_legalName (legalName input) (PaykhMerchant.set_country (country input)
            (PaykhMerchant.set_paykhMerchantRef (paykhMerchantRef input)
               (PaykhMerchant.set_kycStatus kyc (PaykhMerchant.set_status st
                  (PaykhMerchant.set_riskLevel risk (PaykhMerchant.set_lastReportedAt t m)))))))
    (λ k created,
      {| PaykhMerchant.id := k; PaykhMerchant.tenantId := tenantId input;
         PaykhMerchant.merchantCode := merchantCode input;
         PaykhMerchant.paykhMerchantRef := paykhMerchantRef input;
         PaykhMerchant.legalName := legalName input; PaykhMerchant.country := country input;
         PaykhMerchant.kycStatus := kyc; PaykhMerchant.status := st; PaykhMerchant.riskLevel := risk;
         PaykhMerchant.source := "PAYKH"; PaykhMerchant.lastReportedAt := t;
         PaykhMerchant.createdAt := created |});
  audit_record (with_after (JObj [("kycStatus", JStr (PaykhMerchant.kycStatus merchant));
                                  ("status", JStr (PaykhMerchant.status merchant))])
    (audited (actor input) "paykh.merchant.registered" "PAYKH_MERCHANT" (PaykhMerchant.id merchant)));;
  mret (serialize merchant).

Definition updateStatus (id : string) (kycStatus status riskLevel : option string) (actor : string) :
    prog World jsval :=
  m ← require id;
  t ← now;
  updated ← update TPaykhMerchant id (λ r,
    PaykhMerchant.set_kycStatus (default (PaykhMerchant.kycStatus m) kycStatus)
      (PaykhMerchant.set_status (default (PaykhMerchant.status m) status)
         (PaykhMerchant.set_riskLevel (default (PaykhMerchant.riskLevel m) riskLevel)
            (PaykhMerchant.set_lastReportedAt t r))));
  audit_record (with_after (JObj [("kycStatus", JStr (PaykhMerchant.kycStatus updated));
                                  ("status", JStr (PaykhMerchant.status updated))])
    (audited actor "paykh.merchant.status_updated" "PAYKH_MERCHANT" id));;
  mret (serialize updated).

Definition get (id : string) : prog World jsval := m ← require id; mret (serialize m).

Definition listByTenant (tenant : string) : prog World jsval :=
  rows ← find_many TPaykhMerchant (λ m, bool_decide (PaykhMerchant.tenantId m = tenant));
  mret (JObj [("merchants", JArr (map serialize rows))]).

(** A merchant usable for settlement or redemption. *)
Definition requireActive (merchantId : string) : prog World PaykhMerchant.t :=
  m ← find_unique TPaykhMerchant merchantId;
  m ← or_throw m (NotFoundException ("Merchant " +:+ merchantId +:+ " is not registered by PayKH"));
  throw_if (negb (bool_decide (PaykhMerchant.status m = "ACTIVE")))
    (BadRequestException ("Merchant " +:+ merchantId +:+ " is " +:+ PaykhMerchant.status m +:+
                          ", not ACTIVE (per PayKH)") []);;
  throw_if (negb (bool_decide (PaykhMerchant.kycStatus m = "VERIFIED")))
    (BadRequestException ("Merchant " +:+ merchantId +:+ " KYC is " +:+ PaykhMerchant.kycStatus m +:+
                          ", not VERIFIED (per PayKH)") []);;
  mret m.

Lemma keeps_require_merchant i : keeps_good (require i).
Proof. intros s Hs. unfold require. safe_steps. Qed.

Lemma keeps_requireActive i : keeps_good (requireActive i).
Proof. intros s Hs. unfold requireActive. safe_steps. Qed.

Lemma keeps_register_merchant input : keeps_good (register input).
Proof.
  intros s Hs. unfold register. safe_rule. intros w HL Hg. cbv zeta.
  apply (safe_upsert_by TPaykhMerchant); [safe_tables|done..|].
  intros. by safe_steps.
Qed.

Lemma keeps_updateStatus i a b c actor : keeps_good (updateStatus i a b c actor).
Proof.
  intros s Hs. unfold updateStatus. apply (safe_keeps good later); [done|apply keeps_require_merchant|].
  intros m w HL Hg. by safe_steps.
Qed.
End merchants.
End Merchants.

(** * Payment profiles *)

Module Profiles.

Record SubmitPaymentProfile : Type := mkSubmitPaymentProfile {
  tenantId : string; recipientName : string; recipientAccountMasked : string; bankName : string;
  currency : string; khqrPayload : string; actor : string
}.

Definition profile_status (p : PaykhPaymentProfile.t) : string :=
  PaymentProfileStatus_to_string (PaykhPaymentProfile.status p).

Section profiles.
Context `{RT : !Runtime} `{PC : !PrismaClient} (env : Env).

Definition require (profileId : string) : prog World PaykhPaymentProfile.t :=
  p ← find_unique TPaykhPaymentProfile profileId;
  or_throw p (NotFoundException ("Payment profile " +:+ profileId +:+ " not found")).

Definition submit (input : SubmitPaymentProfile) : prog World jsval :=
  throw_if (bool_decide (trim (khqrPayload input) = ""))
    (BadRequestException "KHQR payload is required" []);;
  profile ← create TPaykhPaymentProfile (λ k t,
    {| PaykhPaymentProfile.id := k; PaykhPaymentProfile.tenantId := tenantId input;
       PaykhPaymentProfile.recipientName := recipientName input;
       PaykhPaymentProfile.recipientAccountMasked := recipientAccountMasked input;
       PaykhPaymentProfile.bankName := bankName input; PaykhPaymentProfile.currency := currency input;
       PaykhPaymentProfile.khqrPayload := khqrPayload input;
       PaykhPaymentProfile.status := PROFILE_SUBMITTED; PaykhPaymentProfile.verifiedAt := None;
       PaykhPaymentProfile.createdAt := t |});
  audit_record (audited (actor input) "paykh.payment_profile.submitted" "PAYKH_PAYMENT_PROFILE"
                  (PaykhPaymentProfile.id profile));;
  mret (js_result (PaykhPaymentProfile.id profile) (profile_status profile)).

Definition verify_profile (profileId actor : string) : prog World jsval :=
  profile ← require profileId;
  throw_if (negb (bool_decide (PaykhPaymentProfile.status profile = PROFILE_SUBMITTED)) &&
            negb (bool_decide (PaykhPaymentProfile.status profile = PROFILE_VERIFYING)))
    (BadRequestException ("Profile cannot be verified from " +:+ profile_status profile) []);;
  t ← now;
  updated ← update TPaykhPaymentProfile profileId (λ p,
    PaykhPaymentProfile.set_verifiedAt (Some t) (PaykhPaymentProfile.set_status PROFILE_APPROVED p));
  audit_record (with_after (JObj [("status", JStr (profile_status updated))])
    (audited actor "paykh.payment_profile.verified" "PAYKH_PAYMENT_PROFILE" profileId));;
  _ ← publishToPaykh env PROFILE_VERIFIED
        (JObj [("profileId", JStr profileId); ("tenantId", JStr (PaykhPaymentProfile.tenantId profile))]);
  mret (js_result profileId (profile_status updated)).

Definition activate (profileId actor : string) : prog World jsval :=
  profile ← require profileId;
  throw_if (negb (bool_decide (PaykhPaymentProfile.status profile = PROFILE_APPROVED)))
    (BadRequestException "Profile must be APPROVED before activation" []);;
  updated ← update TPaykhPaymentProfile profileId (PaykhPaymentProfile.set_status PROFILE_ACTIVE);
  audit_record (audited actor "paykh.payment_profile.activated" "PAYKH_PAYMENT_PROFILE" profileId);;
  mret (js_result profileId (profile_status updated)).

Definition suspend (profileId actor reason : string) : prog World jsval :=
  _ ← require profileId;
  updated ← update TPaykhPaymentProfile profileId (PaykhPaymentProfile.set_status PROFILE_SUSPENDED);
  audit_record (with_reason (Some reason)
    (audited actor "paykh.payment_profile.suspended" "PAYKH_PAYMENT_PROFILE" profileId));;
  _ ← publishToPaykh env PROFILE_SUSPENDED_EVENT (JObj [("profileId", JStr profileId)]);
  mret (js_result profileId (profile_status updated)).

Definition get (profileId : string) : prog World jsval :=
  p ← require profileId;
  mret (JObj [("id", JStr (PaykhPaymentProfile.id p)); ("tenantId", JStr (PaykhPaymentProfile.tenantId p));
              ("status", JStr (profile_status p));
              ("recipientName", JStr (PaykhPaymentProfile.recipientName p));
              ("recipientAccountMasked", JStr (PaykhPaymentProfile.recipientAccountMasked p));
              ("bankName", JStr (PaykhPaymentProfile.bankName p));
              ("currency", JStr (PaykhPaymentProfile.currency p))]).

Definition listByTenant (tenant : string) : prog World jsval :=
  rows ← find_many TPaykhPaymentProfile (λ p, bool_decide (PaykhPaymentProfile.tenantId p = tenant));
  mret (JObj [("profiles", JArr (map (λ p,
    JObj [("id", JStr (PaykhPaymentProfile.id p)); ("status", JStr (profile_status p));
          ("recipientName", JStr (PaykhPaymentProfile.recipientName p));
          ("bankName", JStr (PaykhPaymentProfile.bankName p));
          ("currency", JStr (PaykhPaymentProfile.currency p))]) rows))]).

Lemma keeps_require_profile i : keeps_good (require i).
Proof. intros s Hs. unfold require. safe_steps. Qed.

Lemma keeps_submit input : keeps_good (submit input).
Proof. intros s Hs. unfold submit. by safe_steps. Qed.

Lemma keeps_verify_profile i actor : keeps_good (verify_profile i actor).
Proof.
  intros s Hs. unfold verify_profile. apply (safe_keeps good later); [done|apply keeps_require_profile|].
  intros p w HL Hg. by safe_steps.
Qed.

Lemma keeps_activate i actor : keeps_good (activate i actor).
Proof.
  intros s Hs. unfold activate. apply (safe_keeps good later); [done|apply keeps_require_profile|].
  intros p w HL Hg. by safe_steps.
Qed.

Lemma keeps_suspend i actor reason : keeps_good (suspend i actor reason).
Proof.
  intros s Hs. unfold suspend. apply (safe_keeps good later); [done|apply keeps_require_profile|].
  intros p w HL Hg. by safe_steps.
Qed.
End profiles.
End Profiles.

(** * Payment orders *)

Module Orders.

Record CreatePaymentOrder : Type := mkCreatePaymentOrder {
  co_tenantId : string; co_profileId : string; co_amountMinor : string; co_currency : string;
  co_ttlSeconds : option Z; co_actor : string
}.

Record CheckPaymentInput : Type := mkCheckPaymentInput {
  cp_bankTransactionId : string; cp_amountMinor : string; cp_currency : string;
  cp_paymentReference : string; cp_recipientAccountMasked : string; cp_reserveAccountId : string;
  cp_actor : string
}.

Definition order_status (o : PaykhPaymentOrder.t) : string :=
  PaymentOrderStatus_to_string (PaykhPaymentOrder.status o).

Definition order_amount (o : PaykhPaymentOrder.t) : Money :=
  money (PaykhPaymentOrder.amountMinor o) (PaykhPaymentOrder.currency o).

(** The tenant acts as the program dimension of PayKH entries. *)
Definition order_refs (o : PaykhPaymentOrder.t) (actor : string) : JournalReferences :=
  {| ref_source := "paykh-order:" +:+ PaykhPaymentOrder.id o; ref_programId := PaykhPaymentOrder.tenantId o;
     ref_assetId := "FIAT"; ref_actor := actor; ref_approvalRef := None; ref_correlationId := None |}.

Definition buildKhqr (basePayload amountMinor reference : string) : string :=
  basePayload +:+ "|amt=" +:+ amountMinor +:+ "|ref=" +:+ reference.

Section orders.
Context `{RT : !Runtime} `{PC : !PrismaClient} (env : Env).

Definition require (orderId : string) : prog World PaykhPaymentOrder.t :=
  o ← find_unique TPaykhPaymentOrder orderId;
  or_throw o (NotFoundException ("Payment order " +:+ orderId +:+ " not found")).

Definition create_order (input : CreatePaymentOrder) : prog World jsval :=
  profile ← find_unique TPaykhPaymentProfile (co_profileId input);
  profile ← or_throw profile (NotFoundException "Payment profile not found");
  throw_if (negb (bool_decide (PaykhPaymentProfile.status profile = PROFILE_ACTIVE)))
    (BadRequestException "Payment profile must be ACTIVE to accept orders" []);;
  throw_if (negb (bool_decide (PaykhPaymentProfile.currency profile = co_currency input)))
    (BadRequestException "Order currency does not match profile currency" []);;
  u ← randomUUID;
  let paymentReference := "KHQR-" +:+ to_upper (take_string 12 u) in
  let ttl := default 900 (co_ttlSeconds input) in
  t ← now;
  let expiresAt := t + ttl * 1000 in
  amount ← lift (BigInt (co_amountMinor input));
  order ← create TPaykhPaymentOrder (λ k t,
    {| PaykhPaymentOrder.id := k; PaykhPaymentOrder.tenantId := co_tenantId input;
       PaykhPaymentOrder.profileId := co_profileId input; PaykhPaymentOrder.amountMinor := amount;
       PaykhPaymentOrder.currency := co_currency input;
       PaykhPaymentOrder.paymentReference := paymentReference;
       PaykhPaymentOrder.khqrString :=
         Some (buildKhqr (PaykhPaymentProfile.khqrPayload profile) (co_amountMinor input) paymentReference);
       PaykhPaymentOrder.status := ORDER_AWAITING_PAYMENT;
       PaykhPaymentOrder.matchedBankTransactionId := None; PaykhPaymentOrder.confirmedAt := None;
       PaykhPaymentOrder.expiresAt := expiresAt; PaykhPaymentOrder.createdAt := t |});
  audit_record (with_after (JObj [("paymentReference", JStr paymentReference);
                                  ("amountMinor", JStr (co_amountMinor input))])
    (audited (co_actor input) "paykh.payment_order.created" "PAYKH_PAYMENT_ORDER"
       (PaykhPaymentOrder.id order)));;
  mret (JObj [("id", JStr (PaykhPaymentOrder.id order)); ("status", JStr (order_status order));
              ("paymentReference", JStr paymentReference);
              ("khqrString", js_of_opt (PaykhPaymentOrder.khqrString order));
              ("expiresAt", JStr (toISOString (PaykhPaymentOrder.expiresAt order)))]).

Definition mismatches_of (order : PaykhPaymentOrder.t) (profile : option PaykhPaymentProfile.t)
    (amount : Z) (input : CheckPaymentInput) : list string :=
  (if amount =? PaykhPaymentOrder.amountMinor order then [] else ["amount"]) ++
  (if bool_decide (cp_currency input = PaykhPaymentOrder.currency order) then [] else ["currency"]) ++
  (if bool_decide (cp_paymentReference input = PaykhPaymentOrder.paymentReference order) then []
   else ["reference"]) ++
  match profile with
  | Some p => if bool_decide (cp_recipientAccountMasked input = PaykhPaymentProfile.recipientAccountMasked p)
              then [] else ["recipient"]
  | None => []
  end.

Definition confirm_order (orderId : string) (order : PaykhPaymentOrder.t) (input : CheckPaymentInput) :
    prog World jsval :=
  entry ← lift (paykhPaymentCollectionEntry (order_amount order) (order_refs order (cp_actor input)));
  _ ← post entry;
  t ← now;
  updated ← update TPaykhPaymentOrder orderId (λ o,
    PaykhPaymentOrder.set_status ORDER_CONFIRMED
      (PaykhPaymentOrder.set_matchedBankTransactionId (Some (cp_bankTransactionId input))
         (PaykhPaymentOrder.set_confirmedAt (Some t) o)));
  audit_record (with_after (JObj [("status", JStr (order_status updated));
                                  ("bankTransactionId", JStr (cp_bankTransactionId input))])
    (audited (cp_actor input) "paykh.payment.confirmed" "PAYKH_PAYMENT_ORDER" orderId));;
  _ ← publishToPaykh env PAYMENT_CONFIRMED
        (JObj [("orderId", JStr orderId); ("tenantId", JStr (PaykhPaymentOrder.tenantId order));
               ("amountMinor", js_big (PaykhPaymentOrder.amountMinor order));
               ("currency", JStr (PaykhPaymentOrder.currency order));
               ("bankTransactionId", JStr (cp_bankTransactionId input))]);
  mret (js_result orderId (order_status updated)).

Definition checkPayment (orderId : string) (input : CheckPaymentInput) : prog World jsval :=
  order ← require orderId;
  if bool_decide (PaykhPaymentOrder.status order = ORDER_CONFIRMED) then
    if bool_decide (PaykhPaymentOrder.matchedBankTransactionId order = Some (cp_bankTransactionId input)) then
      mret (JObj [("id", JStr orderId); ("status", JStr (order_status order));
                  ("alreadyConfirmed", JBool true)])
    else Throw (ConflictException "Order already confirmed by a different bank transaction")
  else
    throw_if (negb (bool_decide (PaykhPaymentOrder.status order = ORDER_AWAITING_PAYMENT)) &&
              negb (bool_decide (PaykhPaymentOrder.status order = ORDER_PAYMENT_DETECTED)))
      (BadRequestException ("Order cannot be confirmed from " +:+ order_status order) []);;
    t ← now;
    if PaykhPaymentOrder.expiresAt order <? t then
      _ ← update TPaykhPaymentOrder orderId (PaykhPaymentOrder.set_status ORDER_EXPIRED);
      Throw (BadRequestException "Payment order expired" [])
    else
      priorUse ← find_first TPaykhPaymentOrder
        (λ o, bool_decide (PaykhPaymentOrder.matchedBankTransactionId o = Some (cp_bankTransactionId input)));
      match (match priorUse with
             | Some o => if bool_decide (PaykhPaymentOrder.id o = orderId) then None else Some o
             | None => None
             end) with
      | Some o =>
          _ ← publishToPaykh env PAYMENT_DUPLICATE
                (JObj [("orderId", JStr orderId); ("bankTransactionId", JStr (cp_bankTransactionId input));
                       ("conflictingOrderId", JStr (PaykhPaymentOrder.id o))]);
          Throw (ConflictException "Bank transaction already applied to another payment order (duplicate)")
      | None =>
          amount ← lift (BigInt (cp_amountMinor input));
          profile ← find_unique TPaykhPaymentProfile (PaykhPaymentOrder.profileId order);
          match mismatches_of order profile amount input with
          | [] => confirm_order orderId order input
          | ms =>
              _ ← publishToPaykh env PAYMENT_REJECTED
                    (JObj [("orderId", JStr orderId); ("mismatches", JArr (map JStr ms))]);
              Throw (BadRequestException "Payment does not match order" ms)
          end
      end.

Definition refund (orderId actor reason : string) : prog World jsval :=
  order ← require orderId;
  throw_if (negb (bool_decide (PaykhPaymentOrder.status order = ORDER_CONFIRMED)))
    (BadRequestException ("Only CONFIRMED orders can be refunded, is " +:+ order_status order) []);;
  collection ← lift (paykhPaymentCollectionEntry (order_amount order) (order_refs order actor));
  reversal ← lift (reverse collection ("paykh-refund:" +:+ orderId) actor reason);
  _ ← post reversal;
  updated ← update TPaykhPaymentOrder orderId (PaykhPaymentOrder.set_status ORDER_REFUNDED);
  audit_record (with_reason (Some reason)
    (audited actor "paykh.payment.refunded" "PAYKH_PAYMENT_ORDER" orderId));;
  _ ← publishToPaykh env PAYMENT_REFUNDED
        (JObj [("orderId", JStr orderId); ("tenantId", JStr (PaykhPaymentOrder.tenantId order));
               ("amountMinor", js_big (PaykhPaymentOrder.amountMinor order))]);
  mret (js_result orderId (order_status updated)).

Definition get (orderId : string) : prog World jsval :=
  o ← require orderId;
  mret (JObj [("id", JStr (PaykhPaymentOrder.id o)); ("status", JStr (order_status o));
              ("paymentReference", JStr (PaykhPaymentOrder.paymentReference o));
              ("amountMinor", js_big (PaykhPaymentOrder.amountMinor o));
              ("currency", JStr (PaykhPaymentOrder.currency o));
              ("matchedBankTransactionId", js_of_opt (PaykhPaymentOrder.matchedBankTransactionId o))]).

Definition status (orderId : string) : prog World jsval :=
  o ← require orderId;
  mret (JObj [("id", JStr (PaykhPaymentOrder.id o)); ("status", JStr (order_status o));
              ("expiresAt", JStr (toISOString (PaykhPaymentOrder.expiresAt o)))]).

Definition cancel (orderId actor : string) : prog World jsval :=
  o ← require orderId;
  throw_if (bool_decide (PaykhPaymentOrder.status o = ORDER_CONFIRMED))
    (BadRequestException "A confirmed order cannot be cancelled (use refund)" []);;
  updated ← update TPaykhPaymentOrder orderId (PaykhPaymentOrder.set_status ORDER_CANCELLED);
  audit_record (audited actor "paykh.payment_order.cancelled" "PAYKH_PAYMENT_ORDER" orderId);;
  mret (js_result orderId (order_status updated)).
End orders.

Section orders_safe.
Context `{RT : !Runtime} `{PC : !PrismaClient} (env : Env).

Definition order_known (d : PaykhPaymentOrder.t) (w : World) : Prop :=
  ∃ r, tbl w TPaykhPaymentOrder !! PaykhPaymentOrder.id d = Some r ∧ evolves TPaykhPaymentOrder d r.

Lemma order_known_later d w w' : later w w' → order_known d w → order_known d w'.
Proof.
  intros HL (r & Hr & E). destruct (later_row _ _ HL TPaykhPaymentOrder _ r Hr eq_refl) as (r' & Hr' & E').
  exists r'. split; [done|]. by etrans.
Qed.

Lemma order_known_row d w r :
  order_known d w → tbl w TPaykhPaymentOrder !! PaykhPaymentOrder.id d = Some r →
  PaykhPaymentOrder.id r = PaykhPaymentOrder.id d ∧
  PaykhPaymentOrder.amountMinor r = PaykhPaymentOrder.amountMinor d ∧
  keeps_some (PaykhPaymentOrder.matchedBankTransactionId d) (PaykhPaymentOrder.matchedBankTransactionId r).
Proof.
  intros (r' & Hr' & (E & ?)) Hr. pose proof (tbl_fun TPaykhPaymentOrder _ _ _ _ Hr Hr') as <-.
  split_and!; [| |done]; destruct d, r; by injection E as.
Qed.

Lemma safe_require_order {B} i (k : PaykhPaymentOrder.t → prog World B) Q s :
  good s →
  (∀ w d, later s w → good w → PaykhPaymentOrder.id d = i → order_inv d w → order_known d w →
     safely (k d) Q w) →
  safely (require i ≫= k) Q s.
Proof.
  intros Hs H. apply (safe_require TPaykhPaymentOrder); [done|].
  intros w w0 d HL0 HL Hg0 Hg Hd. pose proof (good_key w0 Hg0 TPaykhPaymentOrder _ _ Hd) as Hid. cbn in Hid.
  apply H; [by etrans|done|done| |].
  - apply (row_inv_later TPaykhPaymentOrder d w0 w HL). by apply (good_row w0 Hg0 TPaykhPaymentOrder i).
  - apply (order_known_later d w0 w HL). exists d. by rewrite Hid.
Qed.

(** Moving an order to a status that promises nothing. *)
Lemma safe_order_status {B} i st (k : PaykhPaymentOrder.t → prog World B) Q s :
  st ≠ ORDER_CONFIRMED → st ≠ ORDER_REFUNDED →
  (∀ w r, later s w → good w → safely (k r) Q w) →
  safely (update TPaykhPaymentOrder i (PaykhPaymentOrder.set_status st) ≫= k) Q s.
Proof.
  intros H1 H2 Hc. apply (safe_update TPaykhPaymentOrder); [safe_tables|done| |naive_solver].
  intros w r HL Hg Hr. split; [by split|]. split; cbn; [by intros [?|?]|done].
Qed.

Lemma order_entry_valid d o actor e :
  transfer_entry d (book_debit CollectPayment) (book_credit CollectPayment) (order_amount o) (order_refs o actor) = Ok e →
  postable e ∧ ref_source (je_references e) = "paykh-order:" +:+ PaykhPaymentOrder.id o ∧
  minor (je_totalDebit e) = PaykhPaymentOrder.amountMinor o ∧
  credits (je_postings e) = PaykhPaymentOrder.amountMinor o.
Proof.
  intros H. split; [by eapply transfer_postable|].
  apply transfer_entry_ok in H as [_ ->]. unfold debits, credits. cbn. split_and!; [done|lia|lia].
Qed.

Lemma refund_postable d m refs e ref u r :
  transfer_entry d (book_debit CollectPayment) (book_credit CollectPayment) m refs = Ok e →
  postable (reversal_of e ref u r).
Proof.
  intros He. split; [by eapply reversal_valid, buildJournalEntry_valid|].
  apply transfer_entry_ok in He as [_ ->]. eexists RefundPayment, _, _. cbn.
  split; [right; left|]. split; [left|]. unfold debits, credits. cbn. split_and!; [done|lia|done|lia].
Qed.

Theorem keeps_create_order input : keeps_good (create_order input).
Proof.
  intros s Hs. unfold create_order. safe_steps. cbn. split; cbn; [by intros [?|?]|done].
Qed.

Lemma safe_confirm_order o input s :
  good s → order_known o s → order_inv o s →
  safely (confirm_order env (PaykhPaymentOrder.id o) o input) (λ _ _, True) s.
Proof.
  intros Hs Hknown Hinv. unfold confirm_order. safe_rule. intros e He.
  apply order_entry_valid in He as (Hv & Hsrc & Hamt & _).
  apply safe_post; [done|]. rewrite Hsrc, Hamt. intros w1 eid HL1 Hg1 Hb. safe_rule. intros w2 HL2 Hg2.
  apply (safe_update TPaykhPaymentOrder); [safe_tables|done| |intros; safe_steps].
  intros w3 r HL3 Hg3 Hr. assert (later s w3) as HL by solve_later.
  destruct (order_known_row o w3 r) as (Eid & Eamt & _); [by eapply order_known_later|done|].
  split; [split; [done|by intros _; eexists]|]. split; cbn; [|done].
  intros _. split; [by eexists|]. rewrite Eid, Eamt. apply (booked_later _ _ w1); [|done]. by etrans.
Qed.

Theorem keeps_checkPayment i input : keeps_good (checkPayment env i input).
Proof.
  intros s Hs. unfold checkPayment. apply safe_require_order; [done|].
  intros w o HL Hg <- Hinv Hknown.
  destruct (bool_decide (PaykhPaymentOrder.status o = _)); [by destruct (bool_decide _)|].
  safe_step. safe_rule. intros w1 HL1 Hg1.
  destruct (PaykhPaymentOrder.expiresAt o <? clock w1); [by apply safe_order_status|].
  safe_rule; [intros w2 HL2 Hg2 | intros w2 key o' HL2 Hg2 _ _ _].
  2: destruct (bool_decide (PaykhPaymentOrder.id o' = _)); [|by safe_steps].
  all: safe_step; safe_rule; intros w3 HL3 Hg3; destruct (mismatches_of _ _ _ _); [|by safe_steps].
  all: apply safe_confirm_order; [done| |];
    [eapply order_known_later|eapply (row_inv_later TPaykhPaymentOrder)]; [|done| |done]; solve_later.
Qed.

Theorem keeps_refund i actor reason : keeps_good (refund env i actor reason).
Proof.
  intros s Hs. unfold refund. apply safe_require_order; [done|].
  intros w o HL Hg <- Hinv Hknown. safe_rule. intros Hst%negb_false_iff%bool_decide_eq_true.
  safe_rule. intros e He. pose proof He as He'. apply order_entry_valid in He as ([Hv _] & _ & _ & Hcr).
  safe_rule. intros rv Hrv. rewrite reverse_ok in Hrv by done. injection Hrv as <-.
  apply safe_post; [by eapply refund_postable|]. intros w1 eid HL1 Hg1 Hb.
  cbn in Hb. rewrite debits_swap, Hcr in Hb.
  apply (safe_update TPaykhPaymentOrder); [safe_tables|done| |intros; safe_steps].
  intros w3 r HL3 Hg3 Hr. assert (later w w3) as HLw by solve_later.
  destruct (order_known_row o w3 r) as (Eid & Eamt & Km); [by eapply order_known_later|done|].
  destruct Hinv as [Hc _]. destruct (Hc (or_introl Hst)) as [Hm Hbk].
  split; [by split|]. split; cbn.
  - intros _. split; [by apply Km|]. rewrite Eid, Eamt. by apply (booked_later _ _ w).
  - intros _. rewrite Eid, Eamt. by apply (booked_later _ _ w1).
Qed.

Theorem keeps_cancel_order i actor : keeps_good (cancel i actor).
Proof.
  intros s Hs. unfold cancel. apply safe_require_order; [done|].
  intros w o HL Hg <- Hinv Hknown. safe_step. apply safe_order_status; try done. intros. safe_steps.
Qed.
End orders_safe.
End Orders.

(** * Settlements *)

Module Settlements.

Definition settlement_status (s : PaykhSettlement.t) : string :=
  SettlementStatus_to_string (PaykhSettlement.status s).

Definition settlement_amount (s : PaykhSettlement.t) : Money :=
  money (PaykhSettlement.amountMinor s) (PaykhSettlement.currency s).

Definition settlement_refs (s : PaykhSettlement.t) (actor : string) : JournalReferences :=
  {| ref_source := "paykh-settlement:" +:+ PaykhSettlement.id s; ref_programId := PaykhSettlement.tenantId s;
     ref_assetId := "FIAT"; ref_actor := actor; ref_approvalRef := None; ref_correlationId := None |}.

Definition maker_row (actor subject : string) (k : string) (t : Z) : AuditLog.t :=
  {| AuditLog.id := k; AuditLog.actor := actor; AuditLog.actorRole := None;
     AuditLog.action := "paykh.settlement.maker"; AuditLog.subjectType := "PAYKH_SETTLEMENT";
     AuditLog.subjectId := Some subject; AuditLog.beforeState := None; AuditLog.afterState := None;
     AuditLog.reason := None; AuditLog.approvalRef := None; AuditLog.ip := None; AuditLog.device := None;
     AuditLog.correlationId := None; AuditLog.sourceSystem := None; AuditLog.createdAt := t |}.

Section settlements.
Context `{RT : !Runtime} `{PC : !PrismaClient} (env : Env).

Definition require (settlementId : string) : prog World PaykhSettlement.t :=
  s ← find_unique TPaykhSettlement settlementId;
  or_throw s (NotFoundException ("Settlement " +:+ settlementId +:+ " not found")).

Definition create_settlement (tenantId merchantId amountMinor currency actor : string) : prog World jsval :=
  _ ← Merchants.requireActive merchantId;
  amount ← lift (BigInt amountMinor);
  settlement ← create TPaykhSettlement (λ k t,
    {| PaykhSettlement.id := k; PaykhSettlement.tenantId := tenantId;
       PaykhSettlement.merchantId := merchantId; PaykhSettlement.amountMinor := amount;
       PaykhSettlement.currency := currency; PaykhSettlement.status := SETTLEMENT_REQUESTED;
       PaykhSettlement.approvedById := None; PaykhSettlement.submittedAt := None;
       PaykhSettlement.confirmedAt := None; PaykhSettlement.createdAt := t |});
  audit_record (audited actor "paykh.settlement.requested" "PAYKH_SETTLEMENT" (PaykhSettlement.id settlement));;
  _ ← create TAuditLog (maker_row actor (PaykhSettlement.id settlement));
  mret (js_result (PaykhSettlement.id settlement) (settlement_status settlement)).

Definition approve (settlementId checkerId : string) : prog World jsval :=
  settlement ← require settlementId;
  throw_if (negb (bool_decide (PaykhSettlement.status settlement = SETTLEMENT_REQUESTED)))
    (BadRequestException ("Settlement cannot be approved from " +:+ settlement_status settlement) []);;
  makerLog ← find_first_desc TAuditLog
    (λ l, bool_decide (AuditLog.subjectId l = Some settlementId) &&
          bool_decide (AuditLog.action l = "paykh.settlement.maker")) (λ l, - AuditLog.createdAt l);
  throw_if (match makerLog with Some l => bool_decide (AuditLog.actor l = checkerId) | None => false end)
    (ForbiddenException "A user cannot approve their own settlement");;
  updated ← update TPaykhSettlement settlementId (λ s,
    PaykhSettlement.set_status SETTLEMENT_APPROVED (PaykhSettlement.set_approvedById (Some checkerId) s));
  audit_record (audited checkerId "paykh.settlement.approved" "PAYKH_SETTLEMENT" settlementId);;
  _ ← publishToPaykh env SETTLEMENT_APPROVED_EVENT (JObj [("settlementId", JStr settlementId)]);
  mret (js_result settlementId (settlement_status updated)).

Definition confirm (settlementId actor : string) : prog World jsval :=
  settlement ← require settlementId;
  throw_if (negb (bool_decide (PaykhSettlement.status settlement = SETTLEMENT_APPROVED)) &&
            negb (bool_decide (PaykhSettlement.status settlement = SETTLEMENT_SUBMITTED)))
    (BadRequestException ("Settlement must be APPROVED/SUBMITTED to confirm, is " +:+
                          settlement_status settlement) []);;
  entry ← lift (paykhMerchantSettlementEntry (settlement_amount settlement)
                  (settlement_refs settlement actor));
  _ ← post entry;
  t ← now;
  updated ← update TPaykhSettlement settlementId (λ s,
    PaykhSettlement.set_status SETTLEMENT_CONFIRMED (PaykhSettlement.set_confirmedAt (Some t) s));
  _ ← publishToPaykh env SETTLEMENT_CONFIRMED_EVENT (JObj [("settlementId", JStr settlementId)]);
  mret (js_result settlementId (settlement_status updated)).

Definition get (settlementId : string) : prog World jsval :=
  s ← require settlementId;
  mret (JObj [("id", JStr (PaykhSettlement.id s)); ("status", JStr (settlement_status s));
              ("amountMinor", js_big (PaykhSettlement.amountMinor s));
              ("currency", JStr (PaykhSettlement.currency s))]).

Definition cancel (settlementId actor : string) : prog World jsval :=
  s ← require settlementId;
  throw_if (bool_decide (PaykhSettlement.status s = SETTLEMENT_CONFIRMED))
    (BadRequestException "A confirmed settlement cannot be cancelled" []);;
  updated ← update TPaykhSettlement settlementId (PaykhSettlement.set_status SETTLEMENT_CANCELLED);
  audit_record (audited actor "paykh.settlement.cancelled" "PAYKH_SETTLEMENT" settlementId);;
  mret (js_result settlementId (settlement_status updated)).
End settlements.

Section settlements_safe.
Context `{RT : !Runtime} `{PC : !PrismaClient} (env : Env).

Definition settlement_known (d : PaykhSettlement.t) (w : World) : Prop :=
  ∃ r, tbl w TPaykhSettlement !! PaykhSettlement.id d = Some r ∧ evolves TPaykhSettlement d r.

Lemma settlement_known_later d w w' : later w w' → settlement_known d w → settlement_known d w'.
Proof.
  intros HL (r & Hr & E). destruct (later_row _ _ HL TPaykhSettlement _ r Hr eq_refl) as (r' & Hr' & E').
  exists r'. split; [done|]. by etrans.
Qed.

Lemma safe_require_settlement {B} i (k : PaykhSettlement.t → prog World B) Q s :
  good s →
  (∀ w d, later s w → good w → PaykhSettlement.id d = i → settlement_inv d w → settlement_known d w →
     safely (k d) Q w) →
  safely (require i ≫= k) Q s.
Proof.
  intros Hs H. apply (safe_require TPaykhSettlement); [done|].
  intros w w0 d HL0 HL Hg0 Hg Hd. pose proof (good_key w0 Hg0 TPaykhSettlement _ _ Hd) as Hid. cbn in Hid.
  apply H; [by etrans|done|done| |].
  - apply (row_inv_later TPaykhSettlement d w0 w HL). by apply (good_row w0 Hg0 TPaykhSettlement i).
  - apply (settlement_known_later d w0 w HL). exists d. by rewrite Hid.
Qed.

Theorem keeps_create_settlement a b c d e : keeps_good (create_settlement a b c d e).
Proof.
  intros s Hs. unfold create_settlement.
  apply (safe_keeps good later); [done|apply Merchants.keeps_requireActive|]. intros m w HL Hg.
  safe_step. safe_rule.
  - intros w1 k HL1 Hg1 _. cbn. split_and!; cbn; [by intros [?|?]|done|done].
  - intros w1 k t HL1 Hg1 _. safe_step. by safe_steps.
Qed.

Theorem keeps_approve_settlement i c : keeps_good (approve env i c).
Proof.
  intros s Hs. unfold approve. apply safe_require_settlement; [done|].
  intros w d HL Hg <- Hinv Hknown. do 3 safe_step.
  apply (safe_update TPaykhSettlement); [safe_tables|done| |intros; safe_steps].
  intros w1 r HL1 Hg1 Hr. split; [split; [done|by intros _; eexists]|].
  split_and!; cbn; [by intros _; eexists|done|done].
Qed.

Theorem keeps_confirm_settlement i actor : keeps_good (confirm env i actor).
Proof.
  intros s Hs. unfold confirm. apply safe_require_settlement; [done|].
  intros w d HL Hg <- Hinv Hknown. safe_rule. intros Hst.
  destruct Hinv as (Hap & _ & Hsub).
  assert (is_Some (PaykhSettlement.approvedById d)) as Ha.
  { apply Hap. left. apply andb_false_iff in Hst as [Hst|Hst]; apply negb_false_iff, bool_decide_eq_true in Hst; done. }
  safe_rule. intros e He.
  assert (postable e ∧ ref_source (je_references e) = "paykh-settlement:" +:+ PaykhSettlement.id d ∧
          minor (je_totalDebit e) = PaykhSettlement.amountMinor d) as (Hv & Hsrc & Hamt).
  { split; [by eapply (transfer_postable SettleMerchant)|]. apply transfer_entry_ok in He as [_ ->].
    unfold debits. cbn. split; [done|lia]. }
  apply safe_post; [done|]. rewrite Hsrc, Hamt. intros w1 eid HL1 Hg1 Hb. safe_rule. intros w2 HL2 Hg2.
  apply (safe_update TPaykhSettlement); [safe_tables|done| |intros; safe_steps].
  intros w3 r HL3 Hg3 Hr. assert (later w w3) as HLw by solve_later.
  destruct (settlement_known_later _ _ _ HLw Hknown) as (r' & Hr' & (E & Ka)).
  pose proof (tbl_fun TPaykhSettlement _ _ _ _ Hr Hr') as <-.
  split; [by split|]. split_and!; cbn; [by intros _; apply Ka| |done].
  intros _. replace (PaykhSettlement.id r) with (PaykhSettlement.id d) by (destruct d, r; by injection E as).
  replace (PaykhSettlement.amountMinor r) with (PaykhSettlement.amountMinor d) by (destruct d, r; by injection E as).
  apply (booked_later _ _ w1); [|done]. solve_later.
Qed.

Theorem keeps_cancel_settlement i actor : keeps_good (cancel i actor).
Proof.
  intros s Hs. unfold cancel. apply safe_require_settlement; [done|].
  intros w d HL Hg <- Hinv Hknown. safe_step.
  apply (safe_update TPaykhSettlement); [safe_tables|done| |intros; safe_steps].
  intros w1 r HL1 Hg1 Hr. split; [by split|]. split_and!; cbn; [by intros [?|?]|done|done].
Qed.
End settlements_safe.
End Settlements.
