(* ===== verification/Accounts.v ===== *)
(** Operator accounts and sessions:
    [apps/trustee-api/src/infra/user-auth.service.ts].

    Login with password and one-time code, enrolment of the second factor,
    password change and reset, and the session tokens the guards accept.  A token
    is the base64url text of its JSON payload, a dot, and the HMAC of that text
    under the session secret. *)
From Stdlib Require Import QArith_base.
From S2P Require Import Prelude.
From S2P Require Import Text.
From S2P Require Import Prog.
From S2P Require Import Crypto.
From S2P Require Import Json.
From S2P Require Import Credentials.
From S2P Require Import Schema.
From S2P Require Import Prisma.
From S2P Require Import Infra.
From S2P Require Import LedgerService.
From S2P Require Import Invariant.
From S2P Require Import Demo.
#[local] Open Scope string_scope.
#[local] Open Scope list_scope.
#[local] Open Scope Z_scope.

Record UserPrincipal : Type := mkUserPrincipal {
  up_userId : string;
  up_email : string;
  up_institution : string;
  up_roles : list string;
  up_mfaPending : bool
}.

(** * Session tokens *)

Definition session_payload (p : UserPrincipal) (exp : Z) : jsval :=
  JObj [("sub", JStr (up_userId p)); ("email", JStr (up_email p)); ("inst", JStr (up_institution p));
        ("roles", JArr (map JStr (up_roles p)));
        ("mfp", JNum (Num (if up_mfaPending p then 1 else 0))); ("exp", JNum (Num exp))].

(** The text before and after the last dot. *)
Fixpoint split_last_dot (s : string) : option (string * string) :=
  match s with
  | EmptyString => None
  | String a s' =>
      match split_last_dot s' with
      | Some (b, t) => Some (String a b, t)
      | None => if Ascii.eqb a "." then Some ("", s') else None
      end
  end.

(** [Buffer.from(s).length] *)
Fixpoint utf8_length (s : string) : nat :=
  match s with
  | EmptyString => 0
  | String a s' => ((if (nat_of_ascii a <? 128)%nat then 1 else 2) + utf8_length s')%nat
  end.

(** [a.length !== b.length || !timingSafeEqual(Buffer.from(a), Buffer.from(b))],
    negated; [timingSafeEqual] throws on buffers of different lengths. *)
Definition same_signature (a b : string) : outcome bool :=
  if negb (String.length a =? String.length b)%nat then Ok false
  else if negb (utf8_length a =? utf8_length b)%nat
       then Err (JsError "RangeError" "Input buffers must have the same byte length")
       else Ok (bool_decide (a = b)).

(** Reading a property of a parsed token; the fields are used as strings. *)
Definition js_field (k : string) (v : jsval) : jsval :=
  match v with
  | JObj kvs => match list_find (λ kv, kv.1 = k) kvs with Some (_, kv) => kv.2 | None => JUndefined end
  | _ => JUndefined
  end.
Definition js_text (v : jsval) : string := match v with JStr s => s | _ => "" end.
Definition js_texts (v : jsval) : list string := match v with JArr l => map js_text l | _ => [] end.

Definition js_is_one (v : jsval) : bool := match v with JNum (Num z) => z =? 1 | _ => false end.

Section accounts.
Context `{RT : !Runtime} `{PC : !PrismaClient} (env : Env).

(** [p.exp * 1000 < now]; a missing number is [NaN] and never below. *)
Definition exp_passed (exp : jsval) (now : Z) : bool :=
  match exp with
  | JNum (Num e) => e * 1000 <? now
  | JNum (Infinity neg) => neg
  | JNull => 0 <? now
  | JBool b => (if b then 1000 else 0) <? now
  | JStr s => match to_number s with
              | Some q => negb (Qle_bool (inject_Z now) (Qmult q (1000 # 1)))
              | None => false
              end
  | _ => false
  end.

Definition session_signature (body : string) : string := hmac_sha256_url (SESSION_SECRET env) body.

Definition token_at (p : UserPrincipal) (now : Z) : string :=
  let body := base64url (default "" (json_stringify (session_payload p (now / 1000 + SESSION_TTL_SECONDS env)))) in
  body +:+ "." +:+ session_signature body.

Definition issueToken (p : UserPrincipal) : prog World string := read (λ w, token_at p (clock w)).

Definition verifyToken (token : string) (now : Z) : outcome (option UserPrincipal) :=
  match split_last_dot token with
  | None => Ok None
  | Some (body, sig) =>
      if bool_decide (body = "") then Ok None
      else
        ok ← same_signature sig (session_signature body);
        if negb ok then Ok None
        else match json_parse (base64url_decode body) with
             | None | Some JNull => Ok None
             | Some p =>
                 if exp_passed (js_field "exp" p) now then Ok None
                 else Ok (Some {| up_userId := js_text (js_field "sub" p); up_email := js_text (js_field "email" p);
                                  up_institution := js_text (js_field "inst" p);
                                  up_roles := js_texts (js_field "roles" p);
                                  up_mfaPending := js_is_one (js_field "mfp" p) |})
             end
  end.

(** * Passwords *)

Definition invalid_credentials : exn := UnauthorizedException "Invalid credentials".

(** [!user.passwordHash || !verifyPassword(password, user.passwordHash)], negated *)
Definition password_matches (u : User.t) (password : string) : outcome bool :=
  match truthy (User.passwordHash u) with
  | Some h => verifyPassword password h
  | None => Ok false
  end.

Definition assertPasswordStrength {S} (pw : string) : prog S unit :=
  throw_if (String.length pw <? 10)%nat (BadRequestException "Password must be at least 10 characters" []).

(** [hashPassword] draws its salt. *)
Definition hash_password (password : string) : prog World string :=
  n ← action (λ w, (Ok (uuids w), set_uuids (S (uuids w)) w));
  lift (hashPassword password n).

Definition changePassword (userId currentPassword newPassword : string) : prog World jsval :=
  user ← find_unique TUser userId;
  ok ← (match user with
        | Some u => lift (password_matches u currentPassword)
        | None => mret false
        end);
  throw_if (negb ok) (UnauthorizedException "Current password is incorrect");;
  assertPasswordStrength newPassword;;
  h ← hash_password newPassword;
  _ ← update TUser userId (User.set_passwordHash (Some h));
  mret (JObj [("changed", JBool true)]).

Definition reset_message (email token : string) : string :=
  "A password reset was requested for " +:+ email +:+ "." +:+ String "010" "" +:+
  "Reset your password (valid " +:+ big_to_string ((PASSWORD_RESET_TTL_SECONDS env + 30) / 60) +:+
  " min): " +:+ TRUSTEE_PUBLIC_URL env +:+ "/?reset_token=" +:+ token +:+ String "010" "" +:+
  "If you did not request this, ignore this email.".

Definition reset_row (userId token : string) (now : Z) (k : string) (t : Z) : PasswordReset.t :=
  {| PasswordReset.id := k; PasswordReset.userId := userId; PasswordReset.tokenHash := sha256Hex token;
     PasswordReset.expiresAt := now + PASSWORD_RESET_TTL_SECONDS env * 1000; PasswordReset.usedAt := None;
     PasswordReset.createdAt := t |}.

Definition requestPasswordReset (email : string) : prog World jsval :=
  user ← find_first TUser (λ u, bool_decide (User.email u = email));
  match user with
  | Some u =>
      if User.disabled u then mret (JObj [("requested", JBool true)])
      else
        bytes ← randomBytes 32;
        let token := bytes_base64url bytes in
        t ← now;
        _ ← create TPasswordReset (reset_row (User.id u) token t);
        _ ← notify env "Password reset request" (reset_message email token) (Some email);
        mret (JObj [("requested", JBool true)])
  | None => mret (JObj [("requested", JBool true)])
  end.

Definition invalid_reset : exn := UnauthorizedException "Invalid or expired reset token".

Definition resetPassword (token newPassword : string) : prog World jsval :=
  row ← find_first TPasswordReset (λ r, bool_decide (PasswordReset.tokenHash r = sha256Hex token));
  row ← or_throw row invalid_reset;
  t ← now;
  throw_if (bool_decide (is_Some (PasswordReset.usedAt row)) || (PasswordReset.expiresAt row <? t)) invalid_reset;;
  assertPasswordStrength newPassword;;
  h ← hash_password newPassword;
  usedAt ← now;
  transaction (
    _ ← update TUser (PasswordReset.userId row) (User.set_passwordHash (Some h));
    _ ← update TPasswordReset (PasswordReset.id row) (PasswordReset.set_usedAt (Some usedAt));
    mret tt);;
  mret (JObj [("reset", JBool true)]).

Definition adminSetPassword (userId newPassword : string) : prog World jsval :=
  user ← find_unique TUser userId;
  _ ← or_throw user (BadRequestException "User not found" []);
  assertPasswordStrength newPassword;;
  h ← hash_password newPassword;
  _ ← update TUser userId (User.set_passwordHash (Some h));
  mret (JObj [("userId", JStr userId); ("updated", JBool true)]).

(** * Login *)

Definition principal_of (u : User.t) : UserPrincipal :=
  {| up_userId := User.id u; up_email := User.email u; up_institution := User.institution u;
     up_roles := User.roles u;
     up_mfaPending := ENFORCE_OPERATOR_MFA env && negb (User.mfaEnabled u) |}.

Definition login_result (u : User.t) (token : string) : jsval :=
  JObj [("mfaRequired", JBool false); ("mfaEnrollmentRequired", JBool (up_mfaPending (principal_of u)));
        ("token", JStr token);
        ("user", JObj [("userId", JStr (User.id u)); ("email", JStr (User.email u));
                       ("roles", JArr (map JStr (User.roles u))); ("institution", JStr (User.institution u));
                       ("mfaEnabled", JBool (User.mfaEnabled u))])].

(** The code of a user with the second factor: absent, or checked. *)
Definition check_code (u : User.t) (code : string) : prog World unit :=
  match truthy (User.mfaSecret u) with
  | None => Throw (UnauthorizedException "Invalid MFA code")
  | Some secret =>
      t ← now;
      ok ← lift (verifyTotp secret code t);
      throw_if (negb ok) (UnauthorizedException "Invalid MFA code")
  end.

Definition login (email password : string) (code : option string) : prog World jsval :=
  user ← find_first TUser (λ u, bool_decide (User.email u = email));
  u ← or_throw user invalid_credentials;
  throw_if (User.disabled u) invalid_credentials;;
  ok ← lift (password_matches u password);
  throw_if (negb ok) invalid_credentials;;
  if User.mfaEnabled u then
    match truthy code with
    | None => mret (JObj [("mfaRequired", JBool true)])
    | Some c =>
        check_code u c;;
        token ← issueToken (principal_of u);
        mret (login_result u token)
    end
  else
    token ← issueToken (principal_of u);
    mret (login_result u token).

(** * The second factor *)

Definition setupMfa (userId : string) : prog World jsval :=
  user ← find_unique TUser userId;
  u ← or_throw user (BadRequestException "User not found" []);
  n ← action (λ w, (Ok (uuids w), set_uuids (S (uuids w)) w));
  let secret := generateTotpSecret n in
  _ ← update TUser userId (λ u, User.set_mfaEnabled false (User.set_mfaSecret (Some secret) u));
  let uri := otpauthUrl secret (User.email u) "Cambobia Trustee" in
  mret (JObj [("secret", JStr secret); ("otpauthUrl", JStr uri); ("qrDataUri", JStr (qr_data_url uri))]).

Definition enableMfa (userId code : string) : prog World jsval :=
  user ← find_unique TUser userId;
  secret ← or_throw (user ≫= (λ u, truthy (User.mfaSecret u))) (BadRequestException "Start MFA setup first" []);
  t ← now;
  ok ← lift (verifyTotp secret code t);
  throw_if (negb ok) (UnauthorizedException "Invalid MFA code");;
  _ ← update TUser userId (User.set_mfaEnabled true);
  mret (JObj [("mfaEnabled", JBool true)]).
End accounts.

(** * Safety *)

Section accounts_safe.
Context `{RT : !Runtime} `{PC : !PrismaClient} (env : Env).

Lemma safe_draw {B} (k : nat → prog World B) Q s :
  (∀ w n, later s w → good w → safely (k n) Q w) →
  safely (action (λ w, (Ok (uuids w), set_uuids (S (uuids w)) w)) ≫= k) Q s.
Proof.
  intros H. apply (safe_action good later). intros w HL Hg. cbn [fst snd].
  assert (later w (set_uuids (S (uuids w)) w)) as HL' by by apply later_frame.
  assert (good (set_uuids (S (uuids w)) w)) as Hg' by by apply (good_frame w).
  split_and!; [done..|]. intros a _. apply H; [by etrans|done].
Qed.

Lemma safe_hash_password {B} pw (k : string → prog World B) Q s :
  good s → (∀ w h, later s w → good w → safely (k h) Q w) → safely (hash_password pw ≫= k) Q s.
Proof.
  intros Hs H. apply (safe_bind good later); [done|]. unfold hash_password.
  apply safe_draw. intros w n HL Hg. destruct (hashPassword pw n) as [h|e]; cbn; [|done].
  intros w' HL' Hg'. apply H; [by etrans|done].
Qed.

Lemma safe_strength {B} pw (k : unit → prog World B) Q s :
  safely (k tt) Q s → safely (assertPasswordStrength pw ≫= k) Q s.
Proof. intros H. unfold assertPasswordStrength. by apply (safe_throw_if good later). Qed.

(** The rules of this file, before the shared ones. *)
Ltac account_step :=
  cbn beta iota;
  lazymatch goal with
  | |- safe _ _ (action (λ w, (Ok (uuids w), _)) ≫= _) _ _ => apply safe_draw
  | |- safe _ _ (hash_password _ ≫= _) _ _ => apply safe_hash_password; [assumption|]
  | |- safe _ _ (assertPasswordStrength _ ≫= _) _ _ => apply safe_strength
  | |- safe _ _ (read _ ≫= _) _ _ => apply (safe_read good later)
  | |- safe _ _ (issueToken _ _ ≫= _) _ _ => apply (safe_read good later)
  | |- _ => safe_rule
  end; intros.
Ltac account_steps := repeat account_step.

Lemma keeps_changePassword u a b : keeps_good (changePassword u a b).
Proof.
  intros s Hs. unfold changePassword. account_step. apply (safe_bind good later); [done|].
  eapply (safe_mono good later) with (Q := λ _ _, True); [|by destruct (tbl w TUser !! u) as [x|]; [destruct (password_matches x a)|]].
  intros ok w' HL' Hg' _. by account_steps.
Qed.

Lemma keeps_requestPasswordReset e : keeps_good (requestPasswordReset env e).
Proof. intros s Hs. unfold requestPasswordReset. cbv zeta. by account_steps. Qed.

Lemma keeps_resetPassword t p : keeps_good (resetPassword t p).
Proof.
  intros s Hs. unfold resetPassword. account_step; [by account_steps|]. do 6 account_step.
  apply (safe_transaction good later) with (Q' := λ _ _, True); [|by account_steps].
  intros w' HL' Hg'. account_steps; try done.
  split; [|done]. cbn. split; [by destruct r0|]. by intros _.
Qed.

Lemma keeps_adminSetPassword u p : keeps_good (adminSetPassword u p).
Proof. intros s Hs. unfold adminSetPassword. by account_steps. Qed.

Lemma keeps_check_code u c : keeps_good (check_code u c).
Proof. intros s Hs. unfold check_code. by account_steps. Qed.

Lemma keeps_login e p c : keeps_good (login env e p c).
Proof.
  intros s Hs. unfold login. account_step; [done|]. do 4 account_step. destruct (User.mfaEnabled _).
  - destruct (truthy c) as [code|]; [|done].
    apply (safe_keeps good later); [done|apply keeps_check_code|]. intros _ w1 HL1 Hg1. by account_steps.
  - by account_steps.
Qed.

Lemma keeps_setupMfa u : keeps_good (setupMfa u).
Proof. intros s Hs. unfold setupMfa. cbv zeta. by account_steps. Qed.

Lemma keeps_enableMfa u c : keeps_good (enableMfa u c).
Proof. intros s Hs. unfold enableMfa. by account_steps. Qed.
End accounts_safe.

(** * Session tokens *)

Lemma split_last_dot_app b t : lacks "." t = true → split_last_dot (b +:+ "." +:+ t) = Some (b, t).
Proof.
  intros Ht. assert (split_last_dot t = None) as Hn.
  { clear b. induction t as [|a t IH]; [done|]. cbn in Ht. apply andb_true_iff in Ht as [Ha Ht].
    cbn [split_last_dot]. rewrite IH by done. apply negb_true_iff in Ha. by rewrite Ha. }
  induction b as [|a b IH].
  - change ("" +:+ "." +:+ t) with (String "." t). cbn [split_last_dot]. by rewrite Hn.
  - rewrite app_String. cbn [split_last_dot]. by rewrite IH.
Qed.

Lemma split_last_dot_Some s b t : split_last_dot s = Some (b, t) → s = b +:+ "." +:+ t.
Proof.
  revert b. induction s as [|a s IH]; intros b; cbn [split_last_dot]; [done|].
  destruct (split_last_dot s) as [[b' t']|].
  - intros [= <- <-]. rewrite app_String. by rewrite (IH b').
  - destruct (Ascii.eqb a ".") eqn:E; [|done]. apply Ascii.eqb_eq in E as ->. by intros [= <- <-].
Qed.

Lemma same_signature_ok a b : same_signature a b = Ok true → a = b.
Proof.
  unfold same_signature. destruct (negb _); [done|]. destruct (negb _); [done|].
  intros [= E]. by apply bool_decide_eq_true in E.
Qed.
Lemma same_signature_refl a : same_signature a a = Ok true.
Proof. unfold same_signature. rewrite !Nat.eqb_refl. cbn. by rewrite bool_decide_true. Qed.

Section tokens.
Context `{RT : !Runtime} (env : Env).

Lemma session_payload_json p exp :
  no_big (session_payload p exp) = true ∧ plain_names (session_payload p exp) = true ∧
  json_roundtrip_value (session_payload p exp) = session_payload p exp ∧
  ∃ s, json_stringify (session_payload p exp) = Some s ∧ s ≠ "".
Proof.
  assert (∀ l, forallb no_big (map JStr l) = true ∧ forallb plain_names (map JStr l) = true ∧
    map (λ x, match json_roundtrip_value x with JUndefined => JNull | y => y end) (map JStr l) = map JStr l) as HL.
  { induction l as [|x l (IH1 & IH2 & IH3)]; [done|]. cbn. by rewrite IH1, IH2, IH3. }
  destruct (HL (up_roles p)) as (H1 & H2 & H3). unfold session_payload. split_and!.
  - cbn. by rewrite H1.
  - cbn [plain_names map fst snd forallb]. rewrite H2. by vm_compute.
  - cbn [json_roundtrip_value map fst snd]. rewrite H3. done.
  - cbn [json_stringify]. eexists. split; [reflexivity|]. done.
Qed.

Lemma session_payload_body p exp :
  let body := base64url (default "" (json_stringify (session_payload p exp))) in
  body ≠ "" ∧ json_parse (base64url_decode body) = Some (session_payload p exp).
Proof.
  destruct (session_payload_json p exp) as (H1 & H2 & H3 & s & Hs & Hne). cbv zeta. rewrite Hs.
  change (default "" (Some s)) with s.
  split.
  - intros E. pose proof (base64url_roundtrip s) as H. rewrite E, base64url_decode_empty in H. by subst s.
  - rewrite base64url_roundtrip, (json_parse_stringify _ _ H1 H2 Hs). by rewrite H3.
Qed.

Lemma map_js_text l : map js_text (map JStr l) = l.
Proof. induction l as [|x l IH]; [done|]. cbn. by rewrite IH. Qed.

(** Claim C20 (session tokens).  A token issued at [t0] is accepted at [t] with
    exactly the principal it was issued for as long as its lifetime has not passed,
    and refused after; and a token is accepted only if it carries, after its last
    dot, the HMAC of what stands before it under the session secret.  The database
    is not consulted. *)
Theorem session_tokens (p : UserPrincipal) (t0 : Z) :
  (∀ t, verifyToken env (token_at env p t0) t =
          Ok (if (t0 / 1000 + SESSION_TTL_SECONDS env) * 1000 <? t then None else Some p)) ∧
  (∀ token t q, verifyToken env token t = Ok (Some q) →
     ∃ body, body ≠ "" ∧ token = body +:+ "." +:+ session_signature env body).
Proof.
  split.
  - intros t. unfold verifyToken, token_at. cbv zeta. set (exp := t0 / 1000 + _).
    destruct (session_payload_body p exp) as [Hb Hp]. set (body := base64url _) in *.
    rewrite split_last_dot_app by apply hmac_sha256_no_dot.
    rewrite bool_decide_false, same_signature_refl by done. cbn [mbind outcome_bind negb]. rewrite Hp.
    change (exp_passed (js_field "exp" (session_payload p exp)) t) with (exp * 1000 <? t).
    change (js_field "sub" (session_payload p exp)) with (JStr (up_userId p)).
    change (js_field "email" (session_payload p exp)) with (JStr (up_email p)).
    change (js_field "inst" (session_payload p exp)) with (JStr (up_institution p)).
    change (js_field "roles" (session_payload p exp)) with (JArr (map JStr (up_roles p))).
    change (js_field "mfp" (session_payload p exp)) with (JNum (Num (if up_mfaPending p then 1 else 0))).
    unfold session_payload. destruct (exp * 1000 <? t); [done|]. do 2 f_equal.
    destruct p as [a b c d e]. cbn. rewrite map_js_text. by destruct e.
  - intros token t q H. unfold verifyToken in H.
    destruct (split_last_dot token) as [[body sig]|] eqn:E; [|done].
    case_bool_decide as Hb; [done|].
    destruct (same_signature sig (session_signature env body)) as [ok|e] eqn:Es; [|done]. cbn [mbind outcome_bind] in H.
    destruct ok; [|done]. apply same_signature_ok in Es as ->. exists body. split; [done|].
    by apply split_last_dot_Some in E.
Qed.
End tokens.

(** * Login *)

Section login.
Context `{RT : !Runtime} `{PC : !PrismaClient} (env : Env).

(** Claim C19 (login).  A login that answers changes nothing, and only answers for
    an existing user who is not disabled, with the password verified.  It returns a
    session token only if, when the user has the second factor enabled, the code
    verifies at that moment; without one the answer is that a code is required.  The
    token is the user's own principal, marked as enrolment-only exactly when
    operators must have the second factor and the user has not enabled it. *)
Theorem login_sound email password code w v w' :
  run (login env email password code) w = (Ok v, w') →
  w' = w ∧ ∃ k u, tbl w TUser !! k = Some u ∧ User.email u = email ∧ User.disabled u = false ∧
    password_matches u password = Ok true ∧
    ((User.mfaEnabled u = true ∧ truthy code = None ∧ v = JObj [("mfaRequired", JBool true)]) ∨
     (v = login_result env u (token_at env (principal_of env u) (clock w)) ∧
      up_mfaPending (principal_of env u) = ENFORCE_OPERATOR_MFA env && negb (User.mfaEnabled u) ∧
      (User.mfaEnabled u = true → ∃ c secret, truthy code = Some c ∧ truthy (User.mfaSecret u) = Some secret ∧
         verifyTotp secret c (clock w) = Ok true))).
Proof.
  unfold login. intros H. apply run_bind_ok in H as (ou & w1 & H0 & H).
  rewrite (run_find_first TUser) in H0. injection H0 as Hu <-.
  apply run_bind_ok in H as (u & w1 & H0 & H). rewrite run_or_throw in H0.
  destruct ou as [u'|]; [|done]. injection H0 as -> <-.
  apply (head_where_Some TUser) in Hu as [He [k Hk]]. apply bool_decide_eq_true in He.
  rewrite run_bind, run_throw_if in H. destruct (User.disabled u) eqn:Hd; [done|]. cbn [throw_when] in H.
  rewrite run_bind, run_lift in H. destruct (password_matches u password) as [ok|e] eqn:Hp; [|done].
  rewrite run_bind, run_throw_if in H. destruct ok; [|done]. cbn [negb throw_when] in H.
  destruct (User.mfaEnabled u) eqn:Hm.
  - destruct (truthy code) as [c|] eqn:Hc; [|injection H as <- <-; split; [done|]; exists k, u; naive_solver].
    unfold check_code in H. destruct (truthy (User.mfaSecret u)) as [secret|] eqn:Hs; [|done].
    rewrite !run_bind in H. unfold now in H. rewrite run_read, run_bind, run_lift in H.
    destruct (verifyTotp secret c (clock w)) as [ok|e] eqn:Ht; [|done].
    rewrite run_throw_if in H. destruct ok; [|done]. cbn [negb throw_when] in H.
    rewrite run_bind in H. unfold issueToken in H. rewrite run_read in H. injection H as <- <-.
    split; [done|]. exists k, u. split_and!; [done..|]. right. split_and!; [done| |].
    + done.
    + intros _. by exists c, secret.
  - rewrite run_bind in H. unfold issueToken in H. rewrite run_read in H. injection H as <- <-.
    split; [done|]. exists k, u. split_and!; [done..|]. right. split_and!; [done..|congruence].
Qed.
End login.

(** * Password reset *)

Section reset.
Context `{RT : !Runtime} `{PC : !PrismaClient} (env : Env).

Lemma reset_row_unique w k k' r r' :
  good w → tbl w TPasswordReset !! k = Some r → tbl w TPasswordReset !! k' = Some r' →
  PasswordReset.tokenHash r = PasswordReset.tokenHash r' → k = k'.
Proof.
  intros Hg Hr Hr' E. apply (good_unique w Hg TPasswordReset k k' r r'); [done..|].
  apply (shares_key_intro TPasswordReset _ _ ("tokenHash", [PasswordReset.tokenHash r])); cbn [unique_keys].
  - left.
  - rewrite E. left.
Qed.

(** The row of a token is found whenever it exists. *)
Lemma run_find_reset w k r token :
  good w → tbl w TPasswordReset !! k = Some r → PasswordReset.tokenHash r = sha256Hex token →
  run (find_first TPasswordReset (λ r : PasswordReset.t, bool_decide (PasswordReset.tokenHash r = sha256Hex token))) w = (Ok (Some r), w).
Proof.
  intros Hg Hr E. rewrite run_find_first. do 2 f_equal.
  match goal with |- ?h = _ => destruct h as [r'|] eqn:Hh end.
  - apply (head_where_Some TPasswordReset) in Hh as [E' [k' Hr']]. apply bool_decide_eq_true in E'.
    assert (k = k') as <- by (apply (reset_row_unique w k k' r r'); try done; congruence).
    f_equal. exact (tbl_fun TPasswordReset _ _ _ _ Hr' Hr).
  - apply (head_where_None TPasswordReset _ _ k r) in Hh; [|done].
    by apply bool_decide_eq_false in Hh.
Qed.

Lemma run_reset_used w k r token pw :
  good w → tbl w TPasswordReset !! k = Some r → PasswordReset.tokenHash r = sha256Hex token →
  is_Some (PasswordReset.usedAt r) → run (resetPassword token pw) w = (Err invalid_reset, w).
Proof.
  unfold resetPassword. intros Hg Hr E Hu.
  etrans; [exact (run_bind_at _ _ _ _ _ (run_find_reset w k r token Hg Hr E))|].
  etrans; [exact (run_bind_at (or_throw (Some r) _) _ w r w eq_refl)|].
  etrans; [exact (run_bind_at now _ w (clock w) w eq_refl)|].
  cbv beta. rewrite run_bind, run_throw_if, (bool_decide_true (is_Some (PasswordReset.usedAt r))) by done. done.
Qed.

(** Claim C21 (a reset token works once).  A reset that succeeds found a stored,
    unused and unexpired reset for the hash of its token and a password of ten or
    more characters; it stores the hash of that password for the user the reset was
    issued to and marks the reset used.  In every later database the same token is
    refused, with any password, and nothing changes. *)
Theorem reset_single_use w token pw v w' (Hg : good w)
    (H : run (resetPassword token pw) w = (Ok v, w')) :
  (10 ≤ String.length pw)%nat ∧
  (∃ k r u, tbl w TPasswordReset !! k = Some r ∧ PasswordReset.tokenHash r = sha256Hex token ∧
     PasswordReset.usedAt r = None ∧ clock w ≤ PasswordReset.expiresAt r ∧
     tbl w' TUser !! PasswordReset.userId r = Some u ∧ password_matches u pw = Ok true ∧
     ∃ r', tbl w' TPasswordReset !! k = Some r' ∧ is_Some (PasswordReset.usedAt r')) ∧
  ∀ w'' pw', good w'' → later w' w'' → run (resetPassword token pw') w'' = (Err invalid_reset, w'').
Proof.
  unfold resetPassword in H. apply run_bind_ok in H as (orow & w1 & H0 & H).
  rewrite (run_find_first TPasswordReset) in H0. injection H0 as Hh <-.
  apply run_bind_ok in H as (row & w1 & H0 & H). rewrite run_or_throw in H0.
  destruct orow as [row'|]; [|done]. injection H0 as -> <-.
  apply (head_where_Some TPasswordReset) in Hh as [Et [k Hk]]. apply bool_decide_eq_true in Et.
  pose proof (good_key w Hg TPasswordReset k row Hk) as Hid. cbn in Hid.
  rewrite run_bind in H. unfold now at 1 in H. rewrite run_read in H.
  rewrite run_bind, run_throw_if in H. destruct (_ || _) eqn:Hc; [done|]. cbn [throw_when] in H.
  apply orb_false_iff in Hc as [Hu He]. apply bool_decide_eq_false in Hu. apply Z.ltb_ge in He.
  rewrite run_bind in H. unfold assertPasswordStrength in H. rewrite run_throw_if in H.
  destruct (String.length pw <? 10)%nat eqn:Hl; [done|]. apply Nat.ltb_ge in Hl. cbn [throw_when] in H.
  rewrite run_bind in H. unfold hash_password in H. rewrite run_bind, run_action, run_lift in H. cbn iota in H.
  destruct (password_roundtrip pw pw (uuids w)) as (stored & Es & Ev & _). rewrite Es in H.
  set (w1 := set_uuids (S (uuids w)) w) in *.
  rewrite run_bind in H. unfold now in H. rewrite run_read in H.
  rewrite run_bind, run_transaction in H.
  destruct (run _ w1) as [[x|e] w2] eqn:Hr; [|done]. injection H as <- <-.
  apply run_bind_ok in Hr as (u & w3 & H0 & Hr). apply (run_update_ok TUser) in H0 as (u0 & Hu0 & -> & -> & _).
  apply run_bind_ok in Hr as (r & w3 & H0 & Hr).
  apply (run_update_ok TPasswordReset) in H0 as (r0 & Hr0 & -> & -> & _). injection Hr as _ <-.
  rewrite tbl_put_ne in Hr0 by done. rewrite Hid in Hr0. change (tbl w1) with (tbl w) in Hr0.
  assert (r0 = row) as -> by exact (tbl_fun TPasswordReset _ _ _ _ Hr0 Hk).
  set (w2 := put TPasswordReset _ _ _).
  assert (tbl w2 TPasswordReset !! k = Some (PasswordReset.set_usedAt (Some (clock w1)) row)) as Hk2.
  { subst w2. rewrite tbl_put_same, Hid. apply lookup_insert_eq. }
  split; [done|]. split.
  - exists k, row, (User.set_passwordHash (Some stored) u0). split_and!; [done|done| |done| | |].
    + destruct (PasswordReset.usedAt row); [by destruct Hu|done].
    + subst w2. rewrite tbl_put_ne by done. rewrite tbl_put_same. apply lookup_insert_eq.
    + unfold password_matches. cbn. unfold hashPassword in Es. 
      destruct (truthy (Some stored)) eqn:Etr; [|].
      * unfold truthy in Etr. case_bool_decide; [done|]. injection Etr as <-. done.
      * exfalso. unfold truthy in Etr. case_bool_decide as E0; [|done]. subst stored.
        destruct (scrypt _ _ _ _); [|done]. cbn [mbind outcome_bind] in Es. done.
    + by eexists.
  - intros w'' pw' Hg'' HL. destruct (later_row _ _ HL TPasswordReset k _ Hk2 eq_refl) as (r' & Hr' & E & Hu').
    apply (run_reset_used w'' k r'); [done|done| |by apply Hu'].
    rewrite <- Et. destruct row, r'; injection E as; by subst.
Qed.
End reset.

(** * The properties at a concrete database *)

Lemma session_tokens_witness :
  ∃ body, "" ≠ body ∧
    @verifyToken demo_runtime demo_env
      (@token_at demo_runtime demo_env (mkUserPrincipal "ops" "ops@bank" "TRUSTEE_BANK" ["teller"] false) 1700000025000)
      1700000026000 = Ok (Some (mkUserPrincipal "ops" "ops@bank" "TRUSTEE_BANK" ["teller"] false)).
Proof.
  exists "x". split; [done|].
  exact (proj1 (@session_tokens demo_runtime demo_env
    (mkUserPrincipal "ops" "ops@bank" "TRUSTEE_BANK" ["teller"] false) 1700000025000) 1700000026000).
Defined.

Lemma login_sound_witness :
  ∃ v, run (@login demo_runtime ref_client demo_env "ops@bank" "correct horse" (Some "808771")) demo_access = (Ok v, demo_access) ∧
    ∃ k u, tbl demo_access TUser !! k = Some u ∧ User.disabled u = false.
Proof.
  assert (∃ v, run (@login demo_runtime ref_client demo_env "ops@bank" "correct horse" (Some "808771")) demo_access
            = (Ok v, (run (@login demo_runtime ref_client demo_env "ops@bank" "correct horse" (Some "808771")) demo_access).2))
    as [v Hv] by (apply run_is_ok; vm_compute; reflexivity).
  destruct (@login_sound demo_runtime ref_client demo_env _ _ _ _ _ _ Hv) as (E & k & u & Hu & _ & Hd & _).
  rewrite E in Hv. exists v. split; [exact Hv|]. exists k, u. by split.
Defined.

Lemma reset_single_use_witness :
  ∃ w', run (@resetPassword demo_runtime ref_client "token" "battery staple 2") demo_access = (Ok (JObj [("reset", JBool true)]), w') ∧
    run (@resetPassword demo_runtime ref_client "token" "another password") w' = (Err invalid_reset, w').
Proof.
  assert (∃ v, run (@resetPassword demo_runtime ref_client "token" "battery staple 2") demo_access
            = (Ok v, (run (@resetPassword demo_runtime ref_client "token" "battery staple 2") demo_access).2))
    as [v Hv] by (apply run_is_ok; vm_compute; reflexivity).
  assert (v = JObj [("reset", JBool true)]) as Ev.
  { pose proof (f_equal fst Hv) as E. vm_compute in E. injection E as <-. reflexivity. }
  destruct (@reset_single_use demo_runtime ref_client demo_access "token" _ v _ good_demo_access Hv) as (_ & _ & H).
  destruct (safe_run good later _ _ _ good_demo_access
    (@keeps_resetPassword demo_runtime ref_client "token" "battery staple 2" _ good_demo_access)) as (Hg & _ & _).
  subst v. eexists. split; [exact Hv|]. apply H; [exact Hg|reflexivity].
Defined.
