(* ===== verification/Seed.v ===== *)
(** The seed of a database ([packages/database/prisma/seed.ts]).

    [seed] upserts the feature flags, the client applications, the built-in roles,
    the super administrator, the approval policies, the emergency controls and a
    demonstration program with its account and users.  It may run on an empty
    database or again on one in use; [seed_good] and [seed_result] say what it does
    to either.  What it prints is left out. *)
From S2P Require Import Prelude.
From S2P Require Import Domain.
From S2P Require Import Prog.
From S2P Require Import Crypto.
From S2P Require Import Credentials.
From S2P Require Import Schema.
From S2P Require Import Prisma.
From S2P Require Import Infra.
From S2P Require Import LedgerService.
From S2P Require Import Invariant.
From S2P Require Import Demo.
From S2P Require Import Accounts.
#[local] Open Scope string_scope.
#[local] Open Scope list_scope.
#[local] Open Scope Z_scope.

(** * The data *)

Definition FEATURE_FLAGS : list (string * bool * string) :=
  [("trustee.platform.enabled", true, "Master platform switch");
   ("trustee.paychain.enabled", true, "PayChain client integration");
   ("trustee.paykh.enabled", true, "PayKH client integration");
   ("paychain.funding.enabled", true, "PayChain funding instructions");
   ("paychain.reserve.enabled", true, "PayChain reserve calculation");
   ("paychain.mint-authorization.enabled", true, "Manual maker-checker mint authorization");
   ("paychain.redemption.enabled", true, "PayChain redemption intake");
   ("paychain.proof-of-reserve.enabled", true, "Internal proof-of-reserve snapshots");
   ("paykh.payment-confirmation.enabled", true, "PayKH bank-payment confirmation");
   ("paykh.khqr.enabled", true, "PayKH KHQR payment orders");
   ("paykh.merchant-settlement.enabled", true, "PayKH merchant settlement");
   ("paykh.program-funding.enabled", true, "PayKH program-fund safeguarding");
   ("paykh.cashback-funding.enabled", false, "PayKH cashback issuance");
   ("paykh.giftcard-funding.enabled", false, "PayKH gift-card issuance");
   ("paykh.proof-of-safeguarding.enabled", true, "PayKH proof-of-safeguarding");
   ("bank.core-api.enabled", false, "Live core-banking API");
   ("bank.statement-import.enabled", true, "Bank statement import");
   ("bank.payout.enabled", false, "Fiat payout execution");
   ("mint.authorization.enabled", true, "Alias of paychain.mint-authorization.enabled");
   ("production.real-funds.enabled", false, "Process real regulated funds (requires bank approval)");
   ("production.automatic-approval.enabled", false, "Automatic approval (never default on)")].

Record ClientApp : Type := mkClientApp {
  ca_platform : string; ca_displayName : string; ca_oauthClientId : string; ca_webhookUrl : string
}.

Definition CLIENT_APPS : list ClientApp :=
  [mkClientApp "PAYCHAIN" "PayChain (paychain.cambobia.com)" "client_paychain_demo"
     "https://api.paychain.cambobia.com/api/v1/trustee/events";
   mkClientApp "PAYKH" "PayKH (paykh.cambobia.com)" "client_paykh_demo"
     "https://api.paykh.cambobia.com/api/v1/trustee/events";
   mkClientApp "TRUSTEE_BANK" "Trustee Bank Admin Console" "client_trustee_bank"
     "https://trustee.cambobia.com/api/v1/trustee/events"].

Record SeedPolicy : Type := mkSeedPolicy {
  sp_name : string; sp_transactionType : string; sp_minAmountMinor : Z; sp_requiredRoles : list string
}.

(** Both ask for three approvals, with the effect [REQUIRE] and priority 200. *)
Definition ABAC_POLICIES : list SeedPolicy :=
  [mkSeedPolicy "High-value mint requires treasury approval" "MINT_AUTHORIZATION" 100000000
     ["trustee_operations_checker"; "treasury_checker"];
   mkSeedPolicy "High-value payout requires treasury approval" "PAYOUT" 50000000 ["treasury_checker"]].

Definition PLATFORM_CONTROLS : list string :=
  ["platform.read-only"; "mint.global-suspend"; "redemption.global-suspend"; "payout.global-suspend";
   "paychain.api-suspend"; "paykh.api-suspend"].

Definition superEmail : string := "contact@cambobia.com".

(** * Derived secrets *)

Section secrets.
Context `{RT : !Runtime} (env : Env).

Definition SECRET_SALT : string := default "cambobia-trustee-pilot" (process_env env "CLIENT_SECRET_SALT").

(** [createHash('sha256').update(s).digest()] *)
Definition sha256_bytes (s : string) : list Z := hex_decode (sha256Hex s).

(** [base32Encode] is the same loop, in [totp.ts]. *)
Definition deterministicMfaSecret (account : string) : string :=
  base32Encode (take 20 (sha256_bytes (SECRET_SALT +:+ ":" +:+ account +:+ ":mfa"))).

Definition deterministicPassword (account : string) : string :=
  "Tr!" +:+ take_string 20 (bytes_base64url (sha256_bytes (SECRET_SALT +:+ ":" +:+ account +:+ ":password"))).

Definition pilotSecret (platform : string) : string :=
  take_string 40 (bytes_base64url (sha256_bytes (SECRET_SALT +:+ ":" +:+ platform +:+ ":client-secret"))).

Definition hashSecret (secret : string) : string := sha256Hex secret.
End secrets.

(** * The rows *)

Definition flag_row (f : string * bool * string) : FeatureFlag.t := FeatureFlag.mk f.1.1 f.1.2 (Some f.2) None.
Definition flag_described (f : string * bool * string) (r : FeatureFlag.t) : FeatureFlag.t :=
  FeatureFlag.mk (FeatureFlag.key r) (FeatureFlag.enabled r) (Some f.2) (FeatureFlag.updatedBy r).

Definition client_row (c : ClientApp) (hash k : string) (t : Z) : ClientApplication.t :=
  ClientApplication.mk k (ca_platform c) (ca_displayName c) (ca_oauthClientId c) (Some hash) None false []
    (Some (ca_webhookUrl c)) 600 false t.
Definition client_reset (c : ClientApp) (hash : string) (r : ClientApplication.t) : ClientApplication.t :=
  ClientApplication.mk (ClientApplication.id r) (ClientApplication.platform r) (ca_displayName c)
    (ClientApplication.oauthClientId r) (Some hash) (ClientApplication.publicKeyPem r)
    (ClientApplication.requireSignature r) (ClientApplication.ipAllowlist r) (Some (ca_webhookUrl c))
    (ClientApplication.rateLimitPerMin r) (ClientApplication.disabled r) (ClientApplication.createdAt r).

Definition role_row (d : RoleDefinition) (t : Z) : Role.t :=
  Role.mk (rd_slug d) (rd_name d) None (rd_institution d) (permission_slug <$> rd_permissions d) true t.
Definition role_reset (d : RoleDefinition) (r : Role.t) : Role.t :=
  Role.mk (Role.slug r) (rd_name d) (Role.description r) (rd_institution d) (permission_slug <$> rd_permissions d)
    true (Role.createdAt r).

Definition user_row (email displayName role : string) (hash : option string) (k : string) (t : Z) : User.t :=
  User.mk k email displayName "TRUSTEE_BANK" [role] None hash None false false t.
Definition super_reset (hash : string) (r : User.t) : User.t :=
  User.mk (User.id r) (User.email r) (User.displayName r) "TRUSTEE_BANK" ["trustee_super_admin"] (User.attributes r)
    (Some hash) (User.mfaSecret r) (User.mfaEnabled r) (User.disabled r) (User.createdAt r).

Definition policy_row (p : SeedPolicy) (k : string) (t : Z) : AbacPolicy.t :=
  AbacPolicy.mk k (sp_name p) None (sp_transactionType p) (Some (sp_minAmountMinor p)) None None None None None None
    3 (sp_requiredRoles p) "REQUIRE" 200 true t.

Definition control_row (key : string) : PlatformControl.t := PlatformControl.mk key false None None None.

(** [new Date('2026-01-01T00:00:00.000Z')] *)
Definition JANUARY_2026 : Z := 1767225600000.

Definition program_row (k : string) (t : Z) : Program.t :=
  {| Program.id := k; Program.code := "DEMO-PUSD"; Program.legalEntityId := "legal_demo";
     Program.issuerId := "issuer_paychain_demo"; Program.trusteeBankId := "bank_demo"; Program.assetId := "PUSD";
     Program.referenceCurrency := "USD"; Program.legalModel := "SAFEGUARDED_CUSTOMER_FUNDS";
     Program.regulatoryStatus := "PILOT"; Program.reservePolicy := "FULL_100"; Program.requiredRatioBps := 10000;
     Program.safetyBufferBps := 0; Program.agreementReferences := ["TRUST-AGREEMENT-DEMO-001"];
     Program.effectiveDate := JANUARY_2026; Program.expiryDate := None; Program.status := PROGRAM_ACTIVE;
     Program.createdAt := t |}.

Definition account_row (programId : string) (t : Z) : TrusteeAccount.t :=
  {| TrusteeAccount.id := "demo-reserve-account"; TrusteeAccount.programId := programId;
     TrusteeAccount.maskedAccountNumber := "****-****-4321"; TrusteeAccount.coreBankingRef := "CBS-RES-0001";
     TrusteeAccount.accountName := "Demo Trustee Reserve Account";
     TrusteeAccount.bankLegalEntity := "Demo Trustee Bank Ltd"; TrusteeAccount.branch := None;
     TrusteeAccount.currency := "USD"; TrusteeAccount.classification := "RESERVE_ACCOUNT";
     TrusteeAccount.supportedAssetId := "PUSD"; TrusteeAccount.status := ACCOUNT_ACTIVE;
     TrusteeAccount.balanceSource := "MANUAL"; TrusteeAccount.integrationMode := "MANUAL_DUAL_CONTROL";
     TrusteeAccount.bankId := None; TrusteeAccount.mockClearedMinor := 0; TrusteeAccount.minimumBalanceMinor := 0;
     TrusteeAccount.requiredReserveBps := 10000; TrusteeAccount.restricted := false;
     TrusteeAccount.agreementReference := Some "TRUST-AGREEMENT-DEMO-001";
     TrusteeAccount.openedDate := Some JANUARY_2026; TrusteeAccount.closedDate := None; TrusteeAccount.createdAt := t |}.

(** * The program *)

Section seed.
Context `{RT : !Runtime} `{PC : !PrismaClient} (env : Env).

Definition seed_flags : prog World unit :=
  for_each FEATURE_FLAGS (λ f,
    _ ← upsert_at TFeatureFlag f.1.1 (flag_described f) (λ _, flag_row f); mret tt).

Definition seed_clients : prog World unit :=
  for_each CLIENT_APPS (λ c,
    let hash := hashSecret (pilotSecret env (ca_platform c)) in
    _ ← upsert_by TClientApplication (λ r, bool_decide (ClientApplication.platform r = ca_platform c))
          (client_reset c hash) (client_row c hash);
    mret tt).

Definition seed_roles : prog World unit :=
  for_each BUILTIN_ROLES (λ d, _ ← upsert_at TRole (rd_slug d) (role_reset d) (role_row d); mret tt).

Definition by_email (email : string) (u : User.t) : bool := bool_decide (User.email u = email).

(** Both the update's and the creation's password are hashed before the call. *)
Definition seed_super : prog World unit :=
  _ ← find_first TUser (by_email superEmail);
  h1 ← hash_password (deterministicPassword env superEmail);
  h2 ← hash_password (deterministicPassword env superEmail);
  _ ← upsert_by TUser (by_email superEmail) (super_reset h1)
        (user_row superEmail "Cambobia Super Admin" "trustee_super_admin" (Some h2));
  mret tt.

Definition seed_policies : prog World unit :=
  for_each ABAC_POLICIES (λ p,
    existing ← find_first TAbacPolicy (λ r, bool_decide (AbacPolicy.name r = sp_name p));
    match existing with
    | Some _ => mret tt
    | None => _ ← create TAbacPolicy (policy_row p); mret tt
    end).

Definition seed_controls : prog World unit :=
  for_each PLATFORM_CONTROLS (λ key, _ ← upsert_at TPlatformControl key (λ r, r) (λ _, control_row key); mret tt).

Definition seed_demo : prog World unit :=
  _ ← upsert_by TUser (by_email "ops.maker@trustee.demo") (λ r, r)
        (user_row "ops.maker@trustee.demo" "Demo Ops Maker" "trustee_operations_maker" None);
  _ ← upsert_by TUser (by_email "ops.checker@trustee.demo") (λ r, r)
        (user_row "ops.checker@trustee.demo" "Demo Ops Checker" "trustee_operations_checker" None);
  program ← upsert_by TProgram (λ p, bool_decide (Program.code p = "DEMO-PUSD")) (λ r, r) program_row;
  _ ← upsert_at TTrusteeAccount "demo-reserve-account" (λ r, r) (account_row (Program.id program));
  mret tt.

(** [main] *)
Definition seed : prog World unit :=
  seed_flags;; seed_clients;; seed_roles;; seed_super;; seed_policies;; seed_controls;; seed_demo.
End seed.

(** * Loops of upserts *)

Section upserts.
Context `{PC : !PrismaClient}.

Lemma run_upsert_at t k f g w o w' :
  run (upsert_at t k f g) w = (o, w') →
  (∃ r, o = Ok r ∧ w' = put t k r w ∧ admissible t k r w = true ∧
     r = match tbl w t !! k with Some r0 => f r0 | None => g (clock w) end) ∨
  (∃ e, o = Err e ∧ w' = w).
Proof.
  unfold upsert_at. rewrite run_action.
  set (r := match tbl w t !! k with Some r0 => f r0 | None => g (clock w) end).
  assert ((match tbl w t !! k with Some r => write_row t k (f r) w | None => write_row t k (g (clock w)) w end) = write_row t k r w)
    as -> by by unfold r; destruct (tbl w t !! k).
  destruct (write_row_cases t k r w) as [[E ->]|[code ->]]; intros [= <- <-].
  - left. by exists r.
  - right. by eexists.
Qed.

Lemma run_upsert_by t p f g w o w' :
  run (upsert_by t p f g) w = (o, w') → (∀ k r, tbl w t !! k = Some r → row_key t r = k) →
  (∃ k r, o = Ok r ∧ w' = put t k r w ∧ admissible t k r w = true ∧
     ((∃ r0, tbl w t !! k = Some r0 ∧ p r0 = true ∧ r = f r0) ∨
      (tbl w t !! k = None ∧ r = g k (clock w) ∧ ∀ k' r', tbl w t !! k' = Some r' → p r' = false))) ∨
  (∃ e, o = Err e ∧ w' = w).
Proof.
  intros H Hk. unfold upsert_by in H. rewrite run_action in H.
  destruct (head (where_rows p (scan t w))) as [r0|] eqn:E.
  - pose proof (head_where_Some _ _ _ _ E) as [Hp [k Hr]]. rewrite (Hk _ _ Hr) in H.
    destruct (write_row_cases t k (f r0) w) as [[A Hc]|[code Hc]]; rewrite Hc in H; injection H as <- <-.
    + left. exists k, (f r0). split_and!; [done..|].
      left. by exists r0.
    + right. by eexists.
  - cbv zeta in H. destruct (write_row_cases t (new_id t w) (g (new_id t w) (clock w)) w) as [[A Hc]|[code Hc]];
      rewrite Hc in H; injection H as <- <-.
    + left. exists (new_id t w). eexists. split_and!; [done..|].
      right. rewrite new_id_fresh. split_and!; [done..|]. intros k' r' Hr'. by eapply head_where_None.
    + right. by eexists.
Qed.

(** The table [t] is left alone. *)
Definition untouched (t : table) {A} (p : prog World A) : Prop := ∀ w, tbl (run p w).2 t = tbl w t.

Lemma untouched_bind t {A B} (p : prog World A) (k : A → prog World B) :
  untouched t p → (∀ a, untouched t (k a)) → untouched t (p ≫= k).
Proof.
  intros Hp Hk w. rewrite run_bind. specialize (Hp w). destruct (run p w) as [[a|e] w']; cbn in *; [by rewrite Hk|done].
Qed.
Lemma untouched_ret t {A} (a : A) : untouched t (mret a).
Proof. done. Qed.
Lemma untouched_for_each t {A} (l : list A) body : (∀ x, untouched t (body x)) → untouched t (for_each l body).
Proof. intros Hb. induction l as [|x l IH]; [done|]. by apply untouched_bind. Qed.
Lemma untouched_upsert_at t t' k f g : t ≠ t' → untouched t (upsert_at t' k f g).
Proof.
  intros Hne w. destruct (run (upsert_at t' k f g) w) as [o w'] eqn:E.
  destruct (run_upsert_at _ _ _ _ _ _ _ E) as [(r & _ & -> & _)|(e & _ & ->)]; [|done]. cbn. by apply tbl_put_ne.
Qed.
Lemma untouched_upsert_by t t' p f g : t ≠ t' → untouched t (upsert_by t' p f g).
Proof.
  intros Hne w. unfold upsert_by. rewrite run_action.
  assert (∀ k r, tbl (write_row t' k r w).2 t = tbl w t) as H
    by (intros k r; unfold write_row; destruct (refuse _ _ _ _); [done|by apply tbl_put_ne]).
  destruct (head _); apply H.
Qed.
Lemma untouched_create t t' f : t ≠ t' → untouched t (create t' f).
Proof.
  intros Hne w. rewrite run_create. unfold write_row. destruct (refuse _ _ _ _); [done|]. cbn. by apply tbl_put_ne.
Qed.

(** A loop of upserts on distinct keys: every row is updated or created, from what
    was there before the loop, and the other rows stay. *)
Lemma run_upserts {A} t (key : A → string) (f : A → row t → row t) (g : A → Z → row t) l w w' :
  NoDup (map key l) →
  run (for_each l (λ x, _ ← upsert_at t (key x) (f x) (g x); mret tt)) w = (Ok tt, w') →
  (∀ x, x ∈ l → tbl w' t !! key x = Some (match tbl w t !! key x with Some r => f x r | None => g x (clock w) end)) ∧
  (∀ k, k ∉ map key l → tbl w' t !! k = tbl w t !! k) ∧ clock w' = clock w.
Proof.
  revert w. induction l as [|x l IH]; intros w Hnd H; [injection H as <-; by split_and!; [intros ? ?%not_elem_of_nil| |]|].
  apply NoDup_cons in Hnd as [Hx Hnd]. cbn [for_each] in H. apply run_bind_ok in H as ([] & w1 & H1 & H).
  apply run_bind_ok in H1 as (r & w2 & H1 & [= ->]).
  destruct (run_upsert_at _ _ _ _ _ _ _ H1) as [(r' & [= <-] & -> & _ & Hr)|(e & [=] & _)].
  destruct (IH _ Hnd H) as (Hin & Hout & Hc). split_and!.
  - intros y [->|Hy]%elem_of_cons.
    + rewrite Hout by done. rewrite tbl_put_same, lookup_insert_eq. by f_equal.
    + rewrite (Hin y Hy). rewrite tbl_put_same, lookup_insert_ne; [done|]. intros E. apply Hx. rewrite E.
      apply list_elem_of_In, in_map, list_elem_of_In, Hy.
  - intros k [Hk1 Hk2]%not_elem_of_cons. rewrite Hout by done. by rewrite tbl_put_same, lookup_insert_ne.
  - done.
Qed.

(** A loop of upserts by a unique column [column], each for another value. *)
Lemma run_upserts_by {A} t (column : row t → string) (key : A → string) (f : A → row t → row t)
    (g : A → string → Z → row t) l w w' :
  (∀ x r, row_key t (f x r) = row_key t r) → (∀ x k z, row_key t (g x k z) = k) →
  (∀ x r, column (f x r) = column r) → (∀ x k z, column (g x k z) = key x) →
  NoDup (map key l) → (∀ k r, tbl w t !! k = Some r → row_key t r = k) →
  run (for_each l (λ x, _ ← upsert_by t (λ r, bool_decide (column r = key x)) (f x) (g x); mret tt)) w = (Ok tt, w') →
  (∀ x, x ∈ l → ∃ k r', tbl w' t !! k = Some r' ∧ column r' = key x ∧
     ((∃ r, tbl w t !! k = Some r ∧ r' = f x r) ∨ (tbl w t !! k = None ∧ ∃ z, r' = g x k z))) ∧
  (∀ k r, tbl w t !! k = Some r → column r ∉ map key l → tbl w' t !! k = Some r).
Proof.
  intros Hf Hg Hcf Hcg. revert w.
  induction l as [|x l IH]; intros w Hnd Hk H; [injection H as <-; split; [by intros ? ?%not_elem_of_nil|done]|].
  apply NoDup_cons in Hnd as [Hx Hnd]. cbn [for_each] in H. apply run_bind_ok in H as ([] & w1 & H1 & H).
  apply run_bind_ok in H1 as (r & w2 & H1 & [= ->]).
  destruct (run_upsert_by _ _ _ _ _ _ _ H1 Hk) as [(k & r' & [= <-] & -> & _ & Hr)|(e & [=] & _)].
  assert (column r = key x ∧ row_key t r = k) as [Hcol Hkey].
  { destruct Hr as [(r0 & Hr0 & Hp & ->)|(_ & -> & _)]; [|done]. apply bool_decide_eq_true in Hp. rewrite Hcf, Hf. eauto. }
  destruct (IH (put t k r w) Hnd) as [Hin Hout]; [|done|].
  { intros k' r0. rewrite tbl_put_same. intros [[<- <-]|[_ H']]%lookup_insert_Some; [done|eauto]. }
  split.
  - intros y [->|Hy]%elem_of_cons.
    + exists k, r. split_and!; [|done|].
      * apply Hout; [by rewrite tbl_put_same, lookup_insert_eq|by rewrite Hcol].
      * destruct Hr as [(r0 & Hr0 & _ & ->)|(Hn & -> & _)]; [left; by exists r0|right; split; [done|by eexists]].
    + destruct (Hin y Hy) as (k' & r' & Hr' & Hc' & Hold). exists k', r'. split_and!; [done..|].
      rewrite tbl_put_same in Hold. destruct (decide (k = k')) as [<-|Hne]; [|by rewrite lookup_insert_ne in Hold].
      rewrite lookup_insert_eq in Hold. destruct Hold as [(r0 & [= <-] & ->)|[[=] _]].
      exfalso. apply Hx. rewrite <- Hcol, <- (Hcf y), Hc'. apply list_elem_of_In, in_map, list_elem_of_In, Hy.
  - intros k' r0 Hr0 [Hc1 Hc2]%not_elem_of_cons. apply Hout; [|done]. rewrite tbl_put_same.
    destruct (decide (k = k')) as [<-|Hne]; [|by rewrite lookup_insert_ne].
    destruct Hr as [(r1 & Hr1 & Hp & _)|(Hn & _)]; [|congruence]. apply bool_decide_eq_true in Hp. congruence.
Qed.

Lemma untouched_action t {A} (f : World → outcome A * World) : (∀ w, tbl (f w).2 t = tbl w t) → untouched t (action f).
Proof. intros Hf w. rewrite run_action. by destruct (f w) eqn:E; rewrite <- (Hf w), E. Qed.
Lemma untouched_read t {A} (f : World → A) : untouched t (read f).
Proof. done. Qed.
Lemma untouched_run t {A} (p : prog World A) w o w' : untouched t p → run p w = (o, w') → tbl w' t = tbl w t.
Proof. intros Hp H. specialize (Hp w). by rewrite H in Hp. Qed.
End upserts.

Ltac solve_untouched :=
  repeat first
    [ apply untouched_ret | apply untouched_read
    | apply untouched_upsert_at; discriminate | apply untouched_upsert_by; discriminate
    | apply untouched_create; discriminate
    | apply untouched_for_each; intros | apply untouched_bind; [|intros] | case_match ].

(** * What the seed does *)

Section result.
Context `{RT : !Runtime} `{PC : !PrismaClient} (env : Env).

(** The tables that it writes. *)
Definition seeded : list table :=
  [TFeatureFlag; TClientApplication; TRole; TUser; TAbacPolicy; TPlatformControl; TProgram; TTrusteeAccount].

Lemma untouched_hash t pw : untouched t (hash_password pw).
Proof.
  apply untouched_bind; [by apply untouched_action|]. intros n w. by rewrite run_lift.
Qed.

Lemma untouched_flags t : t ≠ TFeatureFlag → untouched t seed_flags.
Proof. intros. unfold seed_flags. apply untouched_for_each. intros x. apply untouched_bind; [by apply untouched_upsert_at|done]. Qed.
Lemma untouched_clients t : t ≠ TClientApplication → untouched t (seed_clients env).
Proof. intros. apply untouched_for_each. intros x. apply untouched_bind; [by apply untouched_upsert_by|done]. Qed.
Lemma untouched_roles t : t ≠ TRole → untouched t seed_roles.
Proof. intros. apply untouched_for_each. intros x. apply untouched_bind; [by apply untouched_upsert_at|done]. Qed.
Lemma untouched_super t : t ≠ TUser → untouched t (seed_super env).
Proof.
  intros. apply untouched_bind; [done|]. intros _. do 2 (apply untouched_bind; [apply untouched_hash|]; intros ?).
  apply untouched_bind; [by apply untouched_upsert_by|done].
Qed.
Lemma untouched_policies t : t ≠ TAbacPolicy → untouched t seed_policies.
Proof.
  intros. apply untouched_for_each. intros x. apply untouched_bind; [done|]. intros [r|]; [done|].
  apply untouched_bind; [by apply untouched_create|done].
Qed.
Lemma untouched_controls t : t ≠ TPlatformControl → untouched t seed_controls.
Proof. intros. apply untouched_for_each. intros x. apply untouched_bind; [by apply untouched_upsert_at|done]. Qed.
Lemma untouched_demo t : t ≠ TUser → t ≠ TProgram → t ≠ TTrusteeAccount → untouched t seed_demo.
Proof.
  intros Hu Hp Ha. do 2 (apply untouched_bind; [by apply untouched_upsert_by|]; intros ?).
  apply untouched_bind; [exact (untouched_upsert_by t TProgram _ _ _ Hp)|]. intros p.
  apply untouched_bind; [exact (untouched_upsert_at t TTrusteeAccount _ _ _ Ha)|done].
Qed.

Lemma keys_put t k r w : row_key t r = k → (∀ k r, tbl w t !! k = Some r → row_key t r = k) →
  ∀ k' r', tbl (put t k r w) t !! k' = Some r' → row_key t r' = k'.
Proof. intros Hr Hk k' r'. rewrite tbl_put_same. intros [[<- <-]|[_ H]]%lookup_insert_Some; [done|eauto]. Qed.

(** A row of another user is not disturbed by an upsert that changes nothing. *)
Lemma run_upsert_other email g w r w' k u :
  run (upsert_by TUser (by_email email) (λ r, r) g) w = (Ok r, w') →
  (∀ k r, tbl w TUser !! k = Some r → row_key TUser r = k) → (∀ k z, row_key TUser (g k z) = k) →
  tbl w TUser !! k = Some u →
  tbl w' TUser !! k = Some u ∧ (∀ k r, tbl w' TUser !! k = Some r → row_key TUser r = k).
Proof.
  intros H Hk Hg Hu. destruct (run_upsert_by _ _ _ _ _ _ _ H Hk) as [(k1 & r1 & _ & -> & _ & Hr)|(e & [=] & _)].
  assert (row_key TUser r1 = k1) as Hr1 by (destruct Hr as [(r0 & Hr0 & _ & ->)|(_ & -> & _)]; eauto).
  split; [|by apply keys_put]. rewrite tbl_put_same. destruct (decide (k1 = k)) as [->|Hne]; [|by rewrite lookup_insert_ne].
  rewrite lookup_insert_eq. destruct Hr as [(r0 & Hr0 & _ & ->)|(Hn & _)]; [by f_equal; rewrite Hr0 in Hu; injection Hu|congruence].
Qed.

Lemma run_seed_super w w' :
  (∀ k r, tbl w TUser !! k = Some r → row_key TUser r = k) → run (seed_super env) w = (Ok tt, w') →
  (∀ k r, tbl w' TUser !! k = Some r → row_key TUser r = k) ∧
  ∃ k u, tbl w' TUser !! k = Some u ∧ User.email u = superEmail ∧ User.institution u = "TRUSTEE_BANK" ∧
    User.roles u = ["trustee_super_admin"] ∧ password_matches u (deterministicPassword env superEmail) = Ok true ∧
    ∀ u0, tbl w TUser !! k = Some u0 →
      User.mfaSecret u = User.mfaSecret u0 ∧ User.mfaEnabled u = User.mfaEnabled u0 ∧ User.disabled u = User.disabled u0.
Proof.
  intros Hk H. unfold seed_super in H. apply run_bind_ok in H as (x & w0 & [= <- <-] & H).
  apply run_bind_ok in H as (h1 & w1 & H1 & H). apply run_bind_ok in H as (h2 & w2 & H2 & H).
  apply run_bind_ok in H as (r & w3 & H3 & [= ->]).
  assert (tbl w2 TUser = tbl w TUser) as E.
  { rewrite (untouched_run _ _ _ _ _ (untouched_hash TUser _) H2). by apply (untouched_run _ _ _ _ _ (untouched_hash TUser _) H1). }
  assert (∀ pw w h w', run (hash_password pw) w = (Ok h, w') →
            ∀ u, User.passwordHash u = Some h → password_matches u pw = Ok true) as Hpw.
  { intros pw v h v' Hh u Hu. unfold hash_password in Hh. apply run_bind_ok in Hh as (n & v1 & _ & Hh).
    rewrite run_lift in Hh. injection Hh as Hh _.
    destruct (password_roundtrip pw pw n) as (stored & Hs & Hv & _). rewrite Hs in Hh. injection Hh as <-.
    unfold password_matches. rewrite Hu. unfold truthy. rewrite bool_decide_eq_false_2; [done|]. intros ->. discriminate Hv. }
  destruct (run_upsert_by _ _ _ _ _ _ _ H3) as [(k & r1 & [= <-] & -> & _ & Hr)|(e & [=] & _)]; [by rewrite E|].
  rewrite E in Hr. split.
  { apply keys_put; [|by rewrite E]. destruct Hr as [(r0 & Hr0 & _ & ->)|(_ & -> & _)]; [by apply Hk in Hr0|done]. }
  exists k, r. rewrite tbl_put_same, lookup_insert_eq. split; [done|].
  destruct Hr as [(r0 & Hr0 & Hp & ->)|(Hn & -> & _)].
  - apply bool_decide_eq_true in Hp. split_and!; [exact Hp|done|done|by apply (Hpw _ _ _ _ H1)|]. intros u0 Hu0. pose proof (tbl_fun TUser _ _ _ _ Hr0 Hu0) as <-. done.
  - split_and!; [done|done|done|by apply (Hpw _ _ _ _ H2)|]. intros u0 Hu0. discriminate (eq_trans (eq_sym Hn) Hu0).
Qed.

Lemma flag_keys_NoDup : NoDup (map (λ f : string * bool * string, f.1.1) FEATURE_FLAGS).
Proof. apply (bool_decide_unpack _). vm_compute. exact I. Qed.
Lemma role_keys_NoDup : NoDup (map rd_slug BUILTIN_ROLES).
Proof. apply (bool_decide_unpack _). vm_compute. exact I. Qed.
Lemma control_keys_NoDup : NoDup (map id PLATFORM_CONTROLS).
Proof. apply (bool_decide_unpack _). vm_compute. exact I. Qed.
Lemma platforms_NoDup : NoDup (map ca_platform CLIENT_APPS).
Proof. apply (bool_decide_unpack _). vm_compute. exact I. Qed.

(** A client that was seeded keeps what is not derived. *)
Lemma client_seeded (c : ClientApp) hash k r (o : option ClientApplication.t)
  (H : (∃ r0, o = Some r0 ∧ r = client_reset c hash r0) ∨ (o = None ∧ ∃ t, r = client_row c hash k t)) :
  ClientApplication.clientSecretHash r = Some hash ∧
  ClientApplication.publicKeyPem r = o ≫= ClientApplication.publicKeyPem ∧
  ClientApplication.requireSignature r = from_option ClientApplication.requireSignature false o ∧
  ClientApplication.rateLimitPerMin r = from_option ClientApplication.rateLimitPerMin 600 o ∧
  ClientApplication.disabled r = from_option ClientApplication.disabled false o.
Proof. by destruct H as [(r0 & -> & ->)|(-> & t & ->)]. Qed.

(** Claim C23 (what seeding does).  A run of the seed that succeeds, on an empty
    database or on one in use, leaves every feature flag enabled or disabled as it
    was, whether or not the seed lists it, and every platform control, be it an
    emergency, a compliance hold or any other key, as it was, and creates the missing ones with their defaults
    (real funds and automatic approval off, no emergency); gives every built-in role
    the permissions of the catalogue; gives each client application its derived
    secret, keeping its key, limits and whether it is disabled; and leaves a super
    administrator whose password is the derived one, even where it had been changed,
    keeping the second factor.  All other tables are untouched. *)
Theorem seed_result w w' (Hg : good w) (H : run (seed env) w = (Ok tt, w')) :
  (∀ f, f ∈ FEATURE_FLAGS → ∃ r, tbl w' TFeatureFlag !! f.1.1 = Some r ∧ FeatureFlag.description r = Some f.2 ∧
     FeatureFlag.enabled r = from_option FeatureFlag.enabled f.1.2 (tbl w TFeatureFlag !! f.1.1)) ∧
  (∀ key r0, tbl w TFeatureFlag !! key = Some r0 → ∃ r, tbl w' TFeatureFlag !! key = Some r ∧
     FeatureFlag.enabled r = FeatureFlag.enabled r0 ∧ (key ∉ map (λ f, f.1.1) FEATURE_FLAGS → r = r0)) ∧
  (∀ key r0, tbl w TPlatformControl !! key = Some r0 → tbl w' TPlatformControl !! key = Some r0) ∧
  (∀ key, key ∈ PLATFORM_CONTROLS → ∃ r, tbl w' TPlatformControl !! key = Some r ∧
     PlatformControl.value r = from_option PlatformControl.value false (tbl w TPlatformControl !! key)) ∧
  (∀ d, d ∈ BUILTIN_ROLES → ∃ r, tbl w' TRole !! rd_slug d = Some r ∧ Role.institution r = rd_institution d ∧
     Role.permissions r = permission_slug <$> rd_permissions d) ∧
  (∀ c, c ∈ CLIENT_APPS → ∃ k r, tbl w' TClientApplication !! k = Some r ∧ ClientApplication.platform r = ca_platform c ∧
     ClientApplication.clientSecretHash r = Some (hashSecret (pilotSecret env (ca_platform c))) ∧
     ClientApplication.publicKeyPem r = (tbl w TClientApplication !! k) ≫= ClientApplication.publicKeyPem ∧
     ClientApplication.requireSignature r = from_option ClientApplication.requireSignature false (tbl w TClientApplication !! k) ∧
     ClientApplication.rateLimitPerMin r = from_option ClientApplication.rateLimitPerMin 600 (tbl w TClientApplication !! k) ∧
     ClientApplication.disabled r = from_option ClientApplication.disabled false (tbl w TClientApplication !! k)) ∧
  (∃ k u, tbl w' TUser !! k = Some u ∧ User.email u = superEmail ∧ User.institution u = "TRUSTEE_BANK" ∧
     User.roles u = ["trustee_super_admin"] ∧ password_matches u (deterministicPassword env superEmail) = Ok true ∧
     ∀ u0, tbl w TUser !! k = Some u0 →
       User.mfaSecret u = User.mfaSecret u0 ∧ User.mfaEnabled u = User.mfaEnabled u0 ∧ User.disabled u = User.disabled u0) ∧
  ∀ t, t ∉ seeded → tbl w' t = tbl w t.
Proof.
  unfold seed in H. apply run_bind_ok in H as ([] & w1 & H1 & H). apply run_bind_ok in H as ([] & w2 & H2 & H).
  apply run_bind_ok in H as ([] & w3 & H3 & H). apply run_bind_ok in H as ([] & w4 & H4 & H).
  apply run_bind_ok in H as ([] & w5 & H5 & H). apply run_bind_ok in H as ([] & w6 & H6 & H7).
  pose proof (λ t Ht, untouched_run t _ _ _ _ (untouched_flags t Ht) H1) as U1.
  pose proof (λ t Ht, untouched_run t _ _ _ _ (untouched_clients t Ht) H2) as U2.
  pose proof (λ t Ht, untouched_run t _ _ _ _ (untouched_roles t Ht) H3) as U3.
  pose proof (λ t Ht, untouched_run t _ _ _ _ (untouched_super t Ht) H4) as U4.
  pose proof (λ t Ht, untouched_run t _ _ _ _ (untouched_policies t Ht) H5) as U5.
  pose proof (λ t Ht, untouched_run t _ _ _ _ (untouched_controls t Ht) H6) as U6.
  pose proof (λ t Hu Hp Ha, untouched_run t _ _ _ _ (untouched_demo t Hu Hp Ha) H7) as U7.
  split_and!.
  - intros f Hf. rewrite U7, U6, U5, U4, U3, U2 by done.
    eexists. split; [by apply (run_upserts TFeatureFlag (λ f : string * bool * string, f.1.1) flag_described (λ f _, flag_row f) _ _ _ flag_keys_NoDup H1)|].
    by destruct (tbl w TFeatureFlag !! f.1.1).
  - intros key r0 Hr0. rewrite U7, U6, U5, U4, U3, U2 by done.
    destruct (run_upserts TFeatureFlag (λ f : string * bool * string, f.1.1) flag_described (λ f _, flag_row f) _ _ _ flag_keys_NoDup H1)
      as (Hin & Hout & _).
    destruct (decide (key ∈ map (λ f : string * bool * string, f.1.1) FEATURE_FLAGS)) as [Hk|Hk].
    + apply list_elem_of_fmap in Hk as (f & -> & Hf). eexists. split; [exact (Hin f Hf)|].
      destruct (tbl w TFeatureFlag !! f.1.1) as [r1|]; [injection Hr0 as ->|discriminate Hr0]. split; [done|].
      intros Hk. exfalso. apply Hk, list_elem_of_In, in_map_iff. exists f. split; [done|]. by apply list_elem_of_In.
    + exists r0. rewrite Hout by done. done.
  - intros key r0 Hr0. rewrite U7 by done. rewrite <- U1, <- U2, <- U3, <- U4, <- U5 in Hr0 by done.
    destruct (run_upserts TPlatformControl id (λ _ r, r) (λ key _, control_row key) _ _ _ control_keys_NoDup H6) as (Hin & Hout & _).
    destruct (decide (key ∈ map id PLATFORM_CONTROLS)) as [Hk|Hk]; [|by rewrite Hout].
    apply list_elem_of_fmap in Hk as (x & -> & Hx). cbn [id] in Hr0 |- *. specialize (Hin x Hx). cbn [id] in Hin.
    refine (eq_trans Hin _). by destruct (tbl w5 TPlatformControl !! x); [injection Hr0 as ->|discriminate Hr0].
  - intros key Hkey. rewrite U7 by done. rewrite <- U1, <- U2, <- U3, <- U4, <- U5 by done.
    eexists. split; [by apply (run_upserts TPlatformControl id (λ _ r, r) (λ key _, control_row key) _ _ _ control_keys_NoDup H6)|].
    cbn [id]. by destruct (tbl w5 TPlatformControl !! key).
  - intros d Hd. rewrite U7, U6, U5, U4 by done. eexists.
    split; [by apply (run_upserts TRole rd_slug role_reset role_row _ _ _ role_keys_NoDup H3)|].
    by destruct (tbl w2 TRole !! rd_slug d).
  - intros c Hc. rewrite U7, U6, U5, U4, U3 by done. rewrite <- U1 by done.
    edestruct (run_upserts_by TClientApplication ClientApplication.platform ca_platform
             (λ c, client_reset c (hashSecret (pilotSecret env (ca_platform c))))
             (λ c, client_row c (hashSecret (pilotSecret env (ca_platform c)))) CLIENT_APPS w1 w2)
      as [Hin _]; [done..|apply platforms_NoDup| |exact H2|].
    { intros k r. rewrite U1 by done. apply (good_key w Hg TClientApplication). }
    destruct (Hin c Hc) as (k & r & Hr & Hp & Hcase). exists k, r. split; [exact Hr|]. split; [exact Hp|]. exact (client_seeded c _ k r _ Hcase).
  - destruct (run_seed_super w3 w4) as [Hk (k & u & Hu & He & Hi & Hr & Hp & Hold)]; [|done|].
    { rewrite U3, U2, U1 by done. apply (good_key w Hg TUser). }
    exists k, u. split; [|rewrite U3, U2, U1 in Hold by done; done].
    rewrite <- U5, <- U6 in Hu, Hk by done. unfold seed_demo in H7.
    apply run_bind_ok in H7 as (r1 & v1 & V1 & H7). apply run_bind_ok in H7 as (r2 & v2 & V2 & H7).
    destruct (run_upsert_other _ _ _ _ _ _ _ V1 Hk (λ _ _, eq_refl) Hu) as [Hu1 Hk1].
    destruct (run_upsert_other _ _ _ _ _ _ _ V2 Hk1 (λ _ _, eq_refl) Hu1) as [Hu2 _].
    refine (eq_trans _ Hu2). apply run_bind_ok in H7 as (pr & v3 & V3 & H7). apply run_bind_ok in H7 as (ac & v4 & V4 & [= ->]).
    pose proof (untouched_run TUser _ _ _ _ (untouched_upsert_at TUser TTrusteeAccount _ _ _ ltac:(discriminate)) V4) as E4.
    pose proof (untouched_run TUser _ _ _ _ (untouched_upsert_by TUser TProgram _ _ _ ltac:(discriminate)) V3) as E3.
    exact (f_equal (λ m, m !! k) (eq_trans E4 E3)).
  - intros t Ht. unfold seeded in Ht. rewrite !not_elem_of_cons in Ht. destruct Ht as (? & ? & ? & ? & ? & ? & ? & ? & _).
    by rewrite U7, U6, U5, U4, U3, U2, U1.
Qed.
End result.

(** * Consistency *)

Section consistency.
Context `{RT : !Runtime} `{PC : !PrismaClient} (env : Env).

(** The super administrator's address belongs to nobody outside the trustee bank. *)
Definition super_reserved (w : World) : Prop :=
  ∀ k u, tbl w TUser !! k = Some u → User.email u = superEmail → User.institution u = "TRUSTEE_BANK".

Lemma keeps_run {A} (p : prog World A) w : keeps_good p → good w → good (run p w).2 ∧ later w (run p w).2.
Proof. intros Hp Hg. destruct (safe_run good later p _ w Hg (Hp w Hg)) as (H1 & H2 & _). done. Qed.

Lemma keeps_each {A} (l : list A) body : (∀ x, keeps_good (body x)) → keeps_good (for_each l body).
Proof. intros Hb s Hs. apply (safe_for_each good later); [done|]. intros x s' _ Hs'. by apply Hb. Qed.

Lemma keeps_before_super : keeps_good (seed_flags;; seed_clients env;; seed_roles).
Proof.
  intros s Hs. apply (safe_keeps good later); [done| |].
  { apply keeps_each. intros x s1 Hs1. apply (safe_upsert_at TFeatureFlag); try done. safe_tables. }
  intros _ s1 _ Hs1. apply (safe_keeps good later); [done| |].
  { apply keeps_each. intros x s2 Hs2. apply (safe_upsert_by TClientApplication); try done. safe_tables. }
  intros _ s2 _ Hs2. apply keeps_each; [|done]. intros x s3 Hs3. apply (safe_upsert_at TRole); try done. safe_tables.
Qed.

Lemma keeps_after_super : keeps_good (seed_policies;; seed_controls;; seed_demo).
Proof.
  intros s Hs. apply (safe_keeps good later); [done| |].
  { apply keeps_each. intros x s1 Hs1. apply safe_find_first; [|done].
    intros w HL Hg. apply (safe_create TAbacPolicy); try done. safe_tables. }
  intros _ s1 _ Hs1. apply (safe_keeps good later); [done| |].
  { apply keeps_each. intros x s2 Hs2. apply (safe_upsert_at TPlatformControl); try done. safe_tables. }
  intros _ s2 _ Hs2.
  apply (safe_upsert_by TUser); try done; [safe_tables|]. intros w1 _ _ Hg1.
  apply (safe_upsert_by TUser); try done; [safe_tables|]. intros w2 _ _ Hg2.
  apply (safe_upsert_by TProgram); try done; [safe_tables|]. intros w3 p _ Hg3.
  apply (safe_upsert_at TTrusteeAccount); try done. safe_tables.
Qed.

Lemma run_hash pw w : tbl (run (hash_password pw) w).2 = tbl w ∧ clock (run (hash_password pw) w).2 = clock w.
Proof. unfold hash_password. rewrite run_bind, run_action. cbn iota beta. by rewrite run_lift. Qed.

Lemma frame_good w w' : tbl w' = tbl w ∧ clock w' = clock w → good w → good w' ∧ later w w'.
Proof. intros [E C] Hg. split; [by apply (good_frame w)|apply later_frame; [done|lia]]. Qed.

Lemma super_good w : good w → super_reserved w → good (run (seed_super env) w).2 ∧ later w (run (seed_super env) w).2.
Proof.
  intros Hg Hres. unfold seed_super. rewrite run_bind, run_find_first.
  rewrite run_bind. pose proof (run_hash (deterministicPassword env superEmail) w) as E1.
  destruct (run (hash_password _) w) as [[h1|e] w1]; cbn [snd] in *; [|by apply frame_good].
  rewrite run_bind. pose proof (run_hash (deterministicPassword env superEmail) w1) as E2.
  destruct (run (hash_password _) w1) as [[h2|e] w2]; cbn [snd] in *;
    destruct (frame_good w w2) as [Hg2 HL2]; [split; (etrans; [apply E2|apply E1])|done| |split; (etrans; [apply E2|apply E1])|done|done].
  assert (tbl w2 = tbl w) as E by (etrans; [apply E2|apply E1]).
  rewrite run_bind. destruct (run (upsert_by _ _ _ _) w2) as [o w3] eqn:E3.
  assert (good w3 ∧ later w2 w3) as [Hg3 HL3].
  2: { destruct o as [r|e]; cbn; (split; [done|by etrans]). }
  destruct (run_upsert_by _ _ _ _ _ _ _ E3 (good_key w2 Hg2 TUser)) as [(k & r & _ & -> & HA & Hr)|(e & _ & ->)]; [|done].
  assert (later w2 (put TUser k r w2)) as HL.
  { apply later_put. intros r0 Hr0. destruct Hr as [(r1 & Hr1 & Hp & ->)|(Hn & _)].
    - pose proof (tbl_fun TUser _ _ _ _ Hr1 Hr0) as ->. apply bool_decide_eq_true in Hp. cbn. unfold user_core. cbn.
      rewrite E in Hr0. by rewrite (Hres k r0).
    - discriminate (eq_trans (eq_sym Hn) Hr0). }
  split; [|done]. apply good_put; try done; [safe_tables|].
  destruct Hr as [(r0 & Hr0 & _ & ->)|(_ & -> & _)]; [exact (good_key w2 Hg2 TUser _ _ Hr0)|done].
Qed.

Lemma super_reserved_flags w : super_reserved w → super_reserved (run (seed_flags;; seed_clients env;; seed_roles) w).2.
Proof.
  intros Hres k u. rewrite (untouched_bind TUser seed_flags _ (untouched_flags TUser ltac:(discriminate))); [apply Hres|].
  intros _. apply untouched_bind; [by apply untouched_clients|]. intros _. by apply untouched_roles.
Qed.

(** Seeding is consistent.  Seeding a consistent database, empty or in
    use, in which the super administrator's address is no other institution's, ends
    in a consistent database in which everything recorded before is still there,
    whether the seed runs to its end or fails on the way. *)
Theorem seed_good w (Hg : good w) (Hres : super_reserved w) :
  good (run (seed env) w).2 ∧ later w (run (seed env) w).2.
Proof.
  assert (run (seed env) w = run ((seed_flags;; seed_clients env;; seed_roles);; seed_super env;; seed_policies;; seed_controls;; seed_demo) w) as ->.
  { unfold seed. rewrite !run_bind. repeat (case_match; try done; rewrite ?run_bind; simplify_eq). }
  destruct (keeps_run _ w keeps_before_super Hg) as [Hg1 HL1]. pose proof (super_reserved_flags w Hres) as Hres1.
  rewrite run_bind. destruct (run (seed_flags;; _) w) as [[[]|e] w1]; cbn [snd] in *; [|done].
  destruct (super_good w1 Hg1 Hres1) as [Hg2 HL2].
  rewrite run_bind. destruct (run (seed_super env) w1) as [[[]|e] w2]; cbn [snd] in *; [|split; [done|by etrans]].
  destruct (keeps_run _ w2 keeps_after_super Hg2) as [Hg3 HL3]. split; [done|]. etrans; [exact HL1|]. by etrans.
Qed.
End consistency.

(** * The properties at concrete databases *)

(** The operations console's database has an administrator whose password was
    changed and an emergency in force. *)
Definition demo_live : World :=
  fold_left (λ w s, plant s w)
    [Demo.seed TUser "super" (User.mk "super" superEmail "Admin" "TRUSTEE_BANK" ["trustee_super_admin"] None
                                (Some (demo_hash "changed since")) (Some "MZXQ") true false 0);
     Demo.seed TPlatformControl "mint.global-suspend" (PlatformControl.mk "mint.global-suspend" true (Some "incident") None None)]
    demo_access.

Lemma good_demo_live : good demo_live.
Proof.
  unfold demo_live. cbn [fold_left].
  do 2 (apply good_plant; [|split; [by vm_compute|done]]). apply good_demo_access.
Qed.

Definition real_funds : string * bool * string :=
  ("production.real-funds.enabled", false, "Process real regulated funds (requires bank approval)").

Lemma real_funds_listed : real_funds ∈ FEATURE_FLAGS.
Proof. apply (bool_decide_unpack _). vm_compute. exact I. Qed.
Lemma mint_suspend_listed : "mint.global-suspend" ∈ PLATFORM_CONTROLS.
Proof. apply (bool_decide_unpack _). vm_compute. exact I. Qed.

Lemma seed_result_witness :
  (∃ w', run (@seed demo_runtime ref_client demo_env) empty_world = (Ok tt, w') ∧
     ∃ r, tbl w' TFeatureFlag !! "production.real-funds.enabled" = Some r ∧ FeatureFlag.enabled r = false) ∧
  ∃ w', run (@seed demo_runtime ref_client demo_env) demo_live = (Ok tt, w') ∧
    (∃ r, tbl w' TPlatformControl !! "mint.global-suspend" = Some r ∧ PlatformControl.value r = true) ∧
    ∃ k u, tbl w' TUser !! k = Some u ∧ User.email u = superEmail ∧
      @password_matches demo_runtime u (@deterministicPassword demo_runtime demo_env superEmail) = Ok true.
Proof.
  split.
  - destruct (run_is_ok (@seed demo_runtime ref_client demo_env) empty_world) as [[] Hrun]; [vm_compute; reflexivity|].
    eexists. split; [exact Hrun|].
    destruct (@seed_result demo_runtime ref_client demo_env _ _ good_empty Hrun) as [H _].
    destruct (H real_funds real_funds_listed) as (r & Hr & _ & He). exists r. split; [exact Hr|exact He].
  - destruct (run_is_ok (@seed demo_runtime ref_client demo_env) demo_live) as [[] Hrun]; [vm_compute; reflexivity|].
    eexists. split; [exact Hrun|].
    destruct (@seed_result demo_runtime ref_client demo_env _ _ good_demo_live Hrun) as (_ & _ & _ & Hc & _ & _ & (k & u & Hu & He & _ & _ & Hp & _) & _).
    split; [destruct (Hc "mint.global-suspend" mint_suspend_listed) as (r & Hr & Hv); exists r; split; [exact Hr|exact Hv]|]. exists k, u. split; [exact Hu|]. split; [exact He|exact Hp].
Defined.

Lemma seed_good_witness :
  good (run (@seed demo_runtime ref_client demo_env) demo_live).2 ∧ super_reserved demo_live.
Proof.
  assert (super_reserved demo_live) as Hres.
  { intros k u Hu He. destruct (decide (k = "super")) as [->|Hne].
    - vm_compute in Hu. injection Hu as <-. reflexivity.
    - assert (unique_ok TUser demo_live) as HU by exact (good_unique demo_live good_demo_live TUser).
      exfalso. apply Hne. refine (HU k "super" u (User.mk "super" superEmail "Admin" "TRUSTEE_BANK" ["trustee_super_admin"] None
        (Some (demo_hash "changed since")) (Some "MZXQ") true false 0) Hu _ _); [vm_compute; reflexivity|].
      apply (shares_key_intro TUser u _ ("email", [superEmail])); cbn; rewrite ?He; apply list_elem_of_here. }
  split; [exact (proj1 (@seed_good demo_runtime ref_client demo_env demo_live good_demo_live Hres))|exact Hres].
Defined.
