(* ===== verification/Admin.v ===== *)
(** The administration of the platform:
    [apps/trustee-api/src/modules/admin/admin.service.ts].  Users and roles,
    approval policies, feature flags and emergency controls, the outbox and its
    replay, client applications and their keys, secrets and limits, and the
    provisioning of programs and their accounts.

    The console's lists are ordered by text columns in the collation of the
    database, which the model leaves to the order of the client's [scan]. *)
From S2P Require Import Prelude.
From S2P Require Import Domain.
From S2P Require Import Prog.
From S2P Require Import Crypto.
From S2P Require Import Credentials.
From S2P Require Import Schema.
From S2P Require Import Prisma.
From S2P Require Import Infra.
From S2P Require Import LedgerService.
From S2P Require Import Invariant.
From S2P Require Import Accounts.
#[local] Open Scope string_scope.
#[local] Open Scope list_scope.
#[local] Open Scope Z_scope.

Definition js_strs (l : list string) : jsval := JArr (map JStr l).
Definition js_opt_big (o : option Z) : jsval := match o with Some z => js_big z | None => JNull end.
Definition js_time (o : option Z) : jsval := match o with Some t => JStr (toISOString t) | None => JNull end.

Record CreateUserInput : Type := mkCreateUserInput {
  cu_email : string; cu_displayName : string; cu_institution : string; cu_roles : list string;
  cu_attributes : option jsval; cu_password : option string; cu_actor : string
}.

Record RoleInput : Type := mkRoleInput {
  ri_slug : string; ri_name : string; ri_institution : string; ri_description : option string;
  ri_permissions : list string; ri_actor : string
}.

Record PolicyInput : Type := mkPolicyInput {
  pi_id : option string; pi_name : string; pi_description : option string; pi_transactionType : string;
  pi_minAmountMinor : option string; pi_maxAmountMinor : option string; pi_currency : option string;
  pi_riskLevel : option string; pi_programId : option string; pi_assetId : option string;
  pi_jurisdiction : option string; pi_requiredApprovals : option Z; pi_requiredRoles : option (list string);
  pi_effect : option string; pi_priority : option Z; pi_enabled : option bool; pi_actor : string
}.

Record CreateProgramInput : Type := mkCreateProgramInput {
  cpi_code : option string; cpi_legalEntityId : option string; cpi_issuerId : option string;
  cpi_trusteeBankId : option string; cpi_assetId : option string; cpi_referenceCurrency : option string;
  cpi_legalModel : option string; cpi_regulatoryStatus : option string; cpi_reservePolicy : option string;
  cpi_requiredRatioBps : option Z; cpi_safetyBufferBps : option Z;
  cpi_agreementReferences : option (list string); cpi_effectiveDate : option string
}.

Record CreateAccountInput : Type := mkCreateAccountInput {
  cai_maskedAccountNumber : option string; cai_coreBankingRef : option string; cai_accountName : option string;
  cai_bankLegalEntity : option string; cai_branch : option string; cai_currency : option string;
  cai_classification : option string; cai_supportedAssetId : option string; cai_balanceSource : option string;
  cai_integrationMode : option string; cai_restricted : option bool
}.

(** [req(v, name)] *)
Definition req {S} (v : option string) (name : string) : prog S string :=
  or_throw (truthy v) (BadRequestException (name +:+ " is required") []).

(** [/^https:\/\/.+/.test(url)] *)
Definition https_url (url : string) : bool :=
  starts_with "https://" url &&
  match drop_string 8 url with
  | String a _ => negb (bool_decide (nat_of_ascii a ∈ [10; 13]%nat))
  | EmptyString => false
  end.

Definition ProgramStatus_of (s : string) : option ProgramStatus :=
  if bool_decide (s = "DRAFT") then Some PROGRAM_DRAFT
  else if bool_decide (s = "ACTIVE") then Some PROGRAM_ACTIVE
  else if bool_decide (s = "SUSPENDED") then Some PROGRAM_SUSPENDED
  else if bool_decide (s = "EXPIRED") then Some PROGRAM_EXPIRED
  else if bool_decide (s = "CLOSED") then Some PROGRAM_CLOSED
  else None.

Definition serializePolicy (p : AbacPolicy.t) : jsval :=
  JObj [("id", JStr (AbacPolicy.id p)); ("name", JStr (AbacPolicy.name p));
        ("transactionType", JStr (AbacPolicy.transactionType p));
        ("minAmountMinor", js_opt_big (AbacPolicy.minAmountMinor p));
        ("maxAmountMinor", js_opt_big (AbacPolicy.maxAmountMinor p));
        ("currency", js_of_opt (AbacPolicy.currency p)); ("riskLevel", js_of_opt (AbacPolicy.riskLevel p));
        ("requiredApprovals", JNum (Num (AbacPolicy.requiredApprovals p)));
        ("requiredRoles", js_strs (AbacPolicy.requiredRoles p)); ("effect", JStr (AbacPolicy.effect p));
        ("priority", JNum (Num (AbacPolicy.priority p))); ("enabled", JBool (AbacPolicy.enabled p))].

Definition effect_of (s : string) : abac_effect :=
  if bool_decide (s = "REQUIRE") then REQUIRE else if bool_decide (s = "DENY") then DENY else OtherEffect s.

(** The rule the evaluator reads from a stored policy. *)
Definition rule_of (r : AbacPolicy.t) : AbacPolicyRule :=
  {| ap_id := AbacPolicy.id r; ap_transactionType := AbacPolicy.transactionType r;
     ap_minAmountMinor := AbacPolicy.minAmountMinor r; ap_maxAmountMinor := AbacPolicy.maxAmountMinor r;
     ap_currency := AbacPolicy.currency r; ap_riskLevel := AbacPolicy.riskLevel r;
     ap_programId := AbacPolicy.programId r; ap_assetId := AbacPolicy.assetId r;
     ap_jurisdiction := AbacPolicy.jurisdiction r; ap_requiredApprovals := AbacPolicy.requiredApprovals r;
     ap_requiredRoles := AbacPolicy.requiredRoles r; ap_effect := effect_of (AbacPolicy.effect r);
     ap_priority := AbacPolicy.priority r; ap_enabled := AbacPolicy.enabled r |}.

(** The state of an outbox event as the console shows it. *)
Definition event_status (e : OutboxEvent.t) : string :=
  if bool_decide (is_Some (OutboxEvent.deliveredAt e)) then "DELIVERED"
  else if OutboxEvent.deadLettered e then "DEAD_LETTERED" else "PENDING".

Definition webhook_filter (status : option string) (e : OutboxEvent.t) : bool :=
  match status with
  | Some s =>
      if bool_decide (s = "dead") then OutboxEvent.deadLettered e
      else if bool_decide (s = "delivered") then bool_decide (is_Some (OutboxEvent.deliveredAt e))
      else if bool_decide (s = "pending")
           then negb (bool_decide (is_Some (OutboxEvent.deliveredAt e))) && negb (OutboxEvent.deadLettered e)
      else true
  | None => true
  end.

(** The classification of a probe's HTTP status. *)
Definition probe_state (status : Z) : string :=
  if status =? 404 then "MISSING"
  else if status =? 503 then "DEPLOYED_UNCONFIGURED"
  else if (status =? 401) || (status =? 400) then "CONFIGURED"
  else if (200 <=? status) && (status <? 300) then "ACCEPTING"
  else "UNREACHABLE".

Definition probe_detail (status : Z) : string :=
  let state := probe_state status in
  if bool_decide (state = "MISSING") then "endpoint not implemented"
  else if bool_decide (state = "DEPLOYED_UNCONFIGURED") then "endpoint deployed, awaiting config (WEBHOOK key)"
  else if bool_decide (state = "CONFIGURED") then "endpoint live, rejecting our unsigned probe (verifying)"
  else if bool_decide (state = "ACCEPTING") then "endpoint accepting"
  else "unexpected HTTP " +:+ big_to_string status.

Definition error_detail (e : exn) : string :=
  match e with
  | JsError name message => if bool_decide (name = "AbortError") then "timeout" else message
  | _ => "fetch failed"
  end.

Definition by_platform (platform : string) (c : ClientApplication.t) : bool :=
  bool_decide (ClientApplication.platform c = platform).

Section admin.
Context `{RT : !Runtime} `{PC : !PrismaClient} (env : Env).

Definition permissionCatalog : list string := ALL_PERMISSIONS.

(** * Users *)

Definition listUsers : prog World jsval :=
  users ← find_all_asc TUser (λ _, true) User.createdAt;
  mret (JObj [("users", JArr (map (λ u,
    JObj [("id", JStr (User.id u)); ("email", JStr (User.email u)); ("displayName", JStr (User.displayName u));
          ("institution", JStr (User.institution u)); ("roles", js_strs (User.roles u));
          ("disabled", JBool (User.disabled u))]) users))]).

Definition supplied_password (i : CreateUserInput) : option string :=
  match cu_password i with
  | Some p => if (10 <=? String.length p)%nat then Some p else None
  | None => None
  end.

(** A supplied password of ten characters or more, or a generated one that is
    returned to the administrator. *)
Definition createUser (i : CreateUserInput) : prog World jsval :=
  temp ← (match supplied_password i with
          | Some _ => mret None
          | None => bytes ← randomBytes 9; mret (Some ("Tmp!" +:+ bytes_base64url bytes))
          end);
  let password := match supplied_password i with Some p => p | None => default "" temp end in
  h ← hash_password password;
  user ← create TUser (λ k t,
    {| User.id := k; User.email := cu_email i; User.displayName := cu_displayName i;
       User.institution := cu_institution i; User.roles := cu_roles i; User.attributes := cu_attributes i;
       User.passwordHash := Some h; User.mfaSecret := None; User.mfaEnabled := false; User.disabled := false;
       User.createdAt := t |});
  audit_record (with_after (JObj [("roles", js_strs (cu_roles i)); ("institution", JStr (cu_institution i))])
    (audited (cu_actor i) "admin.user.created" "USER" (User.id user)));;
  mret (JObj [("id", JStr (User.id user)); ("email", JStr (User.email user)); ("tempPassword", js_undef temp)]).

Definition setUserRoles (userId : string) (roles : list string) (actor : string) : prog World jsval :=
  before ← find_unique TUser userId;
  before ← or_throw before (NotFoundException "User not found");
  _ ← update TUser userId (User.set_roles roles);
  audit_record (with_before (JObj [("roles", js_strs (User.roles before))])
    (with_after (JObj [("roles", js_strs roles)]) (audited actor "admin.user.roles_changed" "USER" userId)));;
  mret (JObj [("id", JStr userId); ("roles", js_strs roles)]).

Definition setUserDisabled (userId : string) (disabled : bool) (actor : string) : prog World jsval :=
  _ ← update TUser userId (User.set_disabled disabled);
  audit_record (audited actor (if disabled then "admin.user.disabled" else "admin.user.enabled") "USER" userId);;
  mret (JObj [("id", JStr userId); ("disabled", JBool disabled)]).

(** * Roles *)

Definition js_role (r : Role.t) : jsval :=
  JObj [("slug", JStr (Role.slug r)); ("name", JStr (Role.name r)); ("description", js_of_opt (Role.description r));
        ("institution", JStr (Role.institution r)); ("permissions", js_strs (Role.permissions r));
        ("builtin", JBool (Role.builtin r)); ("createdAt", JStr (toISOString (Role.createdAt r)))].

Definition listRoles : prog World jsval :=
  roles ← find_many TRole (λ _, true);
  mret (JObj [("roles", JArr (map js_role roles))]).

Definition upsertRole (i : RoleInput) : prog World jsval :=
  let invalid := List.filter (λ p, negb (bool_decide (p ∈ ALL_PERMISSIONS))) (ri_permissions i) in
  throw_if (negb (bool_decide (invalid = []))) (BadRequestException "Unknown permissions" invalid);;
  role ← upsert_at TRole (ri_slug i)
    (λ r, Role.set_name (ri_name i) (Role.set_description (ri_description i)
       (Role.set_institution (ri_institution i) (Role.set_permissions (ri_permissions i) r))))
    (λ t, {| Role.slug := ri_slug i; Role.name := ri_name i; Role.description := ri_description i;
             Role.institution := ri_institution i; Role.permissions := ri_permissions i; Role.builtin := false;
             Role.createdAt := t |});
  audit_record (with_after (JObj [("permissions", js_strs (ri_permissions i))])
    (audited (ri_actor i) "admin.role.upserted" "ROLE" (Role.slug role)));;
  mret (js_role role).

Definition deleteRole (slug actor : string) : prog World jsval :=
  role ← find_unique TRole slug;
  role ← or_throw role (NotFoundException "Role not found");
  throw_if (Role.builtin role) (BadRequestException "Cannot delete a built-in role" []);;
  _ ← delete_row TRole slug;
  audit_record (audited actor "admin.role.deleted" "ROLE" slug);;
  mret (JObj [("slug", JStr slug); ("deleted", JBool true)]).

Definition string_le (a b : string) : Prop := string_leb a b = true.
#[local] Instance string_le_dec : RelDecision string_le := λ a b, decide (string_leb a b = true).

(** The roles of a list of slugs, and the union of their permissions. *)
Definition roles_of (slugs : list string) : prog World (list Role.t) :=
  find_many TRole (λ r, bool_decide (Role.slug r ∈ slugs)).

Definition permissions_of (roles : list Role.t) : list string :=
  merge_sort string_le (remove_dups (concat (map Role.permissions roles))).

Definition effectivePermissions (userId : string) : prog World jsval :=
  user ← find_unique TUser userId;
  user ← or_throw user (NotFoundException "User not found");
  roles ← roles_of (User.roles user);
  mret (JObj [("userId", JStr userId); ("roles", js_strs (User.roles user));
              ("permissions", js_strs (permissions_of roles))]).

(** * Approval policies *)

Definition listPolicies : prog World jsval :=
  policies ← find_many TAbacPolicy (λ _, true);
  mret (JObj [("policies", JArr (map serializePolicy policies))]).

(** [v != null ? BigInt(v) : null] *)
Definition optional_big (o : option string) : prog World (option Z) :=
  match o with Some s => z ← lift (BigInt s); mret (Some z) | None => mret None end.

Definition policy_row (i : PolicyInput) (mn mx : option Z) (k : string) (t : Z) : AbacPolicy.t :=
  {| AbacPolicy.id := k; AbacPolicy.name := pi_name i; AbacPolicy.description := pi_description i;
     AbacPolicy.transactionType := pi_transactionType i; AbacPolicy.minAmountMinor := mn;
     AbacPolicy.maxAmountMinor := mx; AbacPolicy.currency := pi_currency i; AbacPolicy.riskLevel := pi_riskLevel i;
     AbacPolicy.programId := pi_programId i; AbacPolicy.assetId := pi_assetId i;
     AbacPolicy.jurisdiction := pi_jurisdiction i; AbacPolicy.requiredApprovals := default 2 (pi_requiredApprovals i);
     AbacPolicy.requiredRoles := default [] (pi_requiredRoles i); AbacPolicy.effect := default "REQUIRE" (pi_effect i);
     AbacPolicy.priority := default 100 (pi_priority i); AbacPolicy.enabled := default true (pi_enabled i);
     AbacPolicy.createdAt := t |}.

Definition upsertPolicy (i : PolicyInput) : prog World jsval :=
  mn ← optional_big (pi_minAmountMinor i);
  mx ← optional_big (pi_maxAmountMinor i);
  policy ← (match truthy (pi_id i) with
            | Some k => update TAbacPolicy k (λ p, policy_row i mn mx (AbacPolicy.id p) (AbacPolicy.createdAt p))
            | None => create TAbacPolicy (policy_row i mn mx)
            end);
  audit_record (with_after (JObj [("transactionType", JStr (AbacPolicy.transactionType policy));
                                  ("effect", JStr (AbacPolicy.effect policy))])
    (audited (pi_actor i) "admin.policy.upserted" "ABAC_POLICY" (AbacPolicy.id policy)));;
  mret (serializePolicy policy).

Definition deletePolicy (id actor : string) : prog World jsval :=
  _ ← delete_row TAbacPolicy id;
  audit_record (audited actor "admin.policy.deleted" "ABAC_POLICY" id);;
  mret (JObj [("id", JStr id); ("deleted", JBool true)]).

Definition evaluate (tx : AbacTransaction) : prog World AbacDecision :=
  rows ← find_many TAbacPolicy (λ r, bool_decide (AbacPolicy.transactionType r = tx_transactionType tx) && AbacPolicy.enabled r);
  mret (evaluateAbac (map rule_of rows) tx).

(** * Flags and emergency controls *)

Definition listFlags : prog World jsval :=
  flags ← find_many TFeatureFlag (λ _, true);
  mret (JObj [("flags", JArr (map (λ f,
    JObj [("key", JStr (FeatureFlag.key f)); ("enabled", JBool (FeatureFlag.enabled f));
          ("description", js_of_opt (FeatureFlag.description f)); ("updatedBy", js_of_opt (FeatureFlag.updatedBy f))]) flags))]).

Definition setFlag (key : string) (enabled : bool) (actor : string) : prog World jsval :=
  set_flag key enabled actor;;
  audit_record (with_after (JObj [("enabled", JBool enabled)])
    (audited actor "admin.feature_flag.set" "FEATURE_FLAG" key));;
  mret (JObj [("key", JStr key); ("enabled", JBool enabled)]).

Definition js_control (c : PlatformControl.t) : jsval :=
  JObj [("key", JStr (PlatformControl.key c)); ("value", JBool (PlatformControl.value c));
        ("reason", js_of_opt (PlatformControl.reason c)); ("incidentRef", js_of_opt (PlatformControl.incidentRef c));
        ("setBy", js_of_opt (PlatformControl.setBy c))].

Definition setControl (key : string) (value : bool) (reason : string) (incidentRef : option string) (actor : string) :
    prog World jsval :=
  control ← upsert_at TPlatformControl key
    (λ c, PlatformControl.set_value value (PlatformControl.set_reason (Some reason)
       (PlatformControl.set_incidentRef incidentRef (PlatformControl.set_setBy (Some actor) c))))
    (λ _, {| PlatformControl.key := key; PlatformControl.value := value; PlatformControl.reason := Some reason;
             PlatformControl.incidentRef := incidentRef; PlatformControl.setBy := Some actor |});
  audit_record (with_reason (Some reason) (with_after (JObj [("value", JBool value)])
    (audited actor "admin.control.set" "PLATFORM_CONTROL" key)));;
  _ ← notify env ("Emergency control " +:+ (if value then "ACTIVATED" else "cleared") +:+ ": " +:+ key)
        ("Control " +:+ dquote +:+ key +:+ dquote +:+ " set to " +:+ (if value then "true" else "false") +:+ " by " +:+ actor +:+
         "." +:+ String "010" "" +:+ "Reason: " +:+ reason +:+ String "010" "" +:+ "Incident: " +:+ default "n/a" incidentRef) None;
  mret (js_control control).

Definition listControls : prog World jsval :=
  controls ← find_many TPlatformControl (λ _, true);
  mret (JObj [("controls", JArr (map js_control controls))]).

(** * The outbox *)

Definition listWebhooks (status : option string) (limit : Z) : prog World jsval :=
  events ← find_many_desc TOutboxEvent (webhook_filter status) OutboxEvent.sequence (Z.to_nat (Z.min limit 500));
  mret (JObj [("events", JArr (map (λ e,
    JObj [("id", JStr (OutboxEvent.id e)); ("eventType", JStr (OutboxEvent.eventType e));
          ("targetPlatform", JStr (OutboxEvent.targetPlatform e)); ("attempts", JNum (Num (OutboxEvent.attempts e)));
          ("status", JStr (event_status e)); ("createdAt", JStr (toISOString (OutboxEvent.createdAt e)))]) events))]).

(** One probe: an unsigned POST to the registered receiver. *)
Definition probe (c : ClientApplication.t) : prog World jsval :=
  let result url status state detail :=
    JObj [("platform", JStr (ClientApplication.platform c)); ("webhookUrl", url); ("httpStatus", status);
          ("state", JStr state); ("detail", JStr detail)] in
  match truthy (ClientApplication.webhookUrl c) with
  | None => mret (result JNull JNull "NO_URL" "no webhook URL registered")
  | Some url =>
      res ← action (λ w, (Ok (webhook_probe url (calls w)), set_calls (S (calls w)) w));
      match res with
      | Ok status => mret (result (JStr url) (JNum (Num status)) (probe_state status) (probe_detail status))
      | Err e => mret (result (JStr url) JNull "UNREACHABLE" (error_detail e))
      end
  end.

Definition integrationHealth : prog World jsval :=
  clients ← find_many TClientApplication (λ c, bool_decide (ClientApplication.platform c ∈ ["PAYCHAIN"; "PAYKH"]));
  probes ← fold_each clients [] (λ acc c, p ← probe c; mret (acc ++ [p]));
  dead ← count TOutboxEvent OutboxEvent.deadLettered;
  pending ← count TOutboxEvent (webhook_filter (Some "pending"));
  delivered ← count TOutboxEvent (webhook_filter (Some "delivered"));
  t ← nowIso;
  mret (JObj [("checkedAt", JStr t); ("clients", JArr probes);
              ("outbox", JObj [("deadLettered", JNum (Num dead)); ("pending", JNum (Num pending));
                               ("delivered", JNum (Num delivered))])]).

Definition webhookDeliveries (eventId : string) : prog World jsval :=
  ds ← find_all_asc TWebhookDelivery (λ d, bool_decide (WebhookDelivery.eventId d = eventId)) WebhookDelivery.createdAt;
  mret (JObj [("deliveries", JArr (map (λ d,
    JObj [("attempt", JNum (Num (WebhookDelivery.attempt d)));
          ("statusCode", match WebhookDelivery.statusCode d with Some z => JNum (Num z) | None => JNull end);
          ("ok", JBool (WebhookDelivery.ok d)); ("error", js_of_opt (WebhookDelivery.error d));
          ("at", JStr (toISOString (WebhookDelivery.createdAt d)))]) ds))]).

(** The event is pending again, with no attempts. *)
Definition requeued (e : OutboxEvent.t) : OutboxEvent.t :=
  OutboxEvent.set_deliveredAt None (OutboxEvent.set_deadLettered false (OutboxEvent.set_attempts 0 e)).

Definition replayWebhook (id actor : string) : prog World jsval :=
  _ ← update TOutboxEvent id requeued;
  audit_record (audited actor "admin.webhook.replayed" "OUTBOX_EVENT" id);;
  mret (JObj [("id", JStr id); ("requeued", JBool true)]).

Definition replayDeadLettered (actor : string) : prog World jsval :=
  n ← update_many TOutboxEvent OutboxEvent.deadLettered requeued;
  audit_record (mkAuditRecord actor None "admin.webhook.replay_all" "OUTBOX_EVENT" None JUndefined
                  (JObj [("count", JNum (Num n))]) None None None None None);;
  mret (JObj [("requeued", JNum (Num n))]).

(** * Client applications *)

Definition listClients : prog World jsval :=
  clients ← find_many TClientApplication (λ _, true);
  mret (JObj [("clients", JArr (map (λ c,
    JObj [("platform", JStr (ClientApplication.platform c)); ("oauthClientId", JStr (ClientApplication.oauthClientId c));
          ("webhookUrl", js_of_opt (ClientApplication.webhookUrl c));
          ("requireSignature", JBool (ClientApplication.requireSignature c)); ("publicKeyPem", JUndefined);
          ("rateLimitPerMin", JNum (Num (ClientApplication.rateLimitPerMin c)));
          ("disabled", JBool (ClientApplication.disabled c));
          ("hasPublicKey", JBool (bool_decide (is_Some (truthy (ClientApplication.publicKeyPem c)))))]) clients))]).

Definition client_audit (actor action platform : string) (after : jsval) : prog World unit :=
  audit_record (with_after after (audited actor action "CLIENT_APPLICATION" platform)).

Definition setClientRateLimit (platform : string) (rateLimitPerMin : Z) (actor : string) : prog World jsval :=
  throw_if ((rateLimitPerMin <? 1) || (1000000 <? rateLimitPerMin))
    (BadRequestException "rateLimitPerMin must be between 1 and 1,000,000" []);;
  client ← update_by TClientApplication (by_platform platform) (ClientApplication.set_rateLimitPerMin rateLimitPerMin);
  client_audit actor "admin.client.rate_limit_updated" platform (JObj [("rateLimitPerMin", JNum (Num rateLimitPerMin))]);;
  mret (JObj [("platform", JStr (ClientApplication.platform client));
              ("rateLimitPerMin", JNum (Num (ClientApplication.rateLimitPerMin client)))]).

Definition setClientDisabled (platform : string) (disabled : bool) (actor : string) : prog World jsval :=
  client ← update_by TClientApplication (by_platform platform) (ClientApplication.set_disabled disabled);
  client_audit actor (if disabled then "admin.client.disabled" else "admin.client.enabled") platform JUndefined;;
  mret (JObj [("platform", JStr (ClientApplication.platform client)); ("disabled", JBool (ClientApplication.disabled client))]).

Definition setClientKey (platform : string) (publicKeyPem : option string) (requireSignature : bool) (actor : string) :
    prog World jsval :=
  client ← update_by TClientApplication (by_platform platform)
    (λ c, ClientApplication.set_publicKeyPem publicKeyPem (ClientApplication.set_requireSignature requireSignature c));
  client_audit actor "admin.client.key_updated" platform
    (JObj [("requireSignature", JBool requireSignature); ("hasKey", JBool (bool_decide (is_Some (truthy publicKeyPem))))]);;
  mret (JObj [("platform", JStr (ClientApplication.platform client));
              ("requireSignature", JBool (ClientApplication.requireSignature client))]).

(** Only the hash of the new secret is stored; the old one stops working. *)
Definition rotateClientSecret (platform actor : string) : prog World jsval :=
  bytes ← randomBytes 24;
  let clientSecret := "sk_" +:+ bytes_base64url bytes in
  client ← update_by TClientApplication (by_platform platform)
    (ClientApplication.set_clientSecretHash (Some (sha256Hex clientSecret)));
  client_audit actor "admin.client.secret_rotated" platform JUndefined;;
  t ← nowIso;
  mret (JObj [("platform", JStr (ClientApplication.platform client));
              ("clientId", JStr (ClientApplication.oauthClientId client));
              ("clientSecret", JStr clientSecret); ("rotatedAt", JStr t);
              ("note", JStr "Store this secret now — it is shown only once. The previous secret is now invalid.")]).

Definition setClientWebhookUrl (platform webhookUrl actor : string) : prog World jsval :=
  throw_if (negb (https_url webhookUrl)) (BadRequestException "webhookUrl must be an absolute https URL" []);;
  client ← update_by TClientApplication (by_platform platform) (ClientApplication.set_webhookUrl (Some webhookUrl));
  client_audit actor "admin.client.webhook_updated" platform (JObj [("webhookUrl", JStr webhookUrl)]);;
  mret (JObj [("platform", JStr (ClientApplication.platform client));
              ("webhookUrl", js_of_opt (ClientApplication.webhookUrl client))]).

(** * Programs *)

Definition createProgram (i : CreateProgramInput) (actor : string) : prog World jsval :=
  code ← req (cpi_code i) "code";
  legalEntityId ← req (cpi_legalEntityId i) "legalEntityId";
  issuerId ← req (cpi_issuerId i) "issuerId";
  trusteeBankId ← req (cpi_trusteeBankId i) "trusteeBankId";
  assetId ← req (cpi_assetId i) "assetId";
  referenceCurrency ← req (cpi_referenceCurrency i) "referenceCurrency";
  legalModel ← req (cpi_legalModel i) "legalModel";
  regulatoryStatus ← req (cpi_regulatoryStatus i) "regulatoryStatus";
  reservePolicy ← req (cpi_reservePolicy i) "reservePolicy";
  date ← req (cpi_effectiveDate i) "effectiveDate";
  effectiveDate ← new_Date date;
  program ← create TProgram (λ k t,
    {| Program.id := k; Program.code := code; Program.legalEntityId := legalEntityId; Program.issuerId := issuerId;
       Program.trusteeBankId := trusteeBankId; Program.assetId := assetId;
       Program.referenceCurrency := referenceCurrency; Program.legalModel := legalModel;
       Program.regulatoryStatus := regulatoryStatus; Program.reservePolicy := reservePolicy;
       Program.requiredRatioBps := default 10000 (cpi_requiredRatioBps i);
       Program.safetyBufferBps := default 0 (cpi_safetyBufferBps i);
       Program.agreementReferences := default [] (cpi_agreementReferences i);
       Program.effectiveDate := effectiveDate; Program.expiryDate := None; Program.status := PROGRAM_DRAFT;
       Program.createdAt := t |});
  audit_record (with_after (JObj [("code", JStr (Program.code program)); ("assetId", js_undef (cpi_assetId i))])
    (audited actor "admin.program.created" "PROGRAM" (Program.id program)));;
  mret (JObj [("id", JStr (Program.id program)); ("code", JStr (Program.code program));
              ("status", JStr (ProgramStatus_to_string (Program.status program)))]).

Definition addTrusteeAccount (programId : string) (i : CreateAccountInput) (actor : string) : prog World jsval :=
  program ← find_unique TProgram programId;
  program ← or_throw program (NotFoundException ("Program " +:+ programId +:+ " not found"));
  masked ← req (cai_maskedAccountNumber i) "maskedAccountNumber";
  coreBankingRef ← req (cai_coreBankingRef i) "coreBankingRef";
  accountName ← req (cai_accountName i) "accountName";
  bankLegalEntity ← req (cai_bankLegalEntity i) "bankLegalEntity";
  currency ← req (cai_currency i) "currency";
  classification ← req (cai_classification i) "classification";
  account ← create TTrusteeAccount (λ k t,
    {| TrusteeAccount.id := k; TrusteeAccount.programId := programId; TrusteeAccount.maskedAccountNumber := masked;
       TrusteeAccount.coreBankingRef := coreBankingRef; TrusteeAccount.accountName := accountName;
       TrusteeAccount.bankLegalEntity := bankLegalEntity; TrusteeAccount.branch := cai_branch i;
       TrusteeAccount.currency := currency; TrusteeAccount.classification := classification;
       TrusteeAccount.supportedAssetId := default (Program.assetId program) (cai_supportedAssetId i);
       TrusteeAccount.status := ACCOUNT_PENDING_ACTIVATION;
       TrusteeAccount.balanceSource := default "MANUAL" (cai_balanceSource i);
       TrusteeAccount.integrationMode := default "MANUAL" (cai_integrationMode i);
       TrusteeAccount.bankId := None; TrusteeAccount.mockClearedMinor := 0;
       TrusteeAccount.minimumBalanceMinor := 0; TrusteeAccount.requiredReserveBps := 10000;
       TrusteeAccount.restricted := default false (cai_restricted i); TrusteeAccount.agreementReference := None;
       TrusteeAccount.openedDate := None; TrusteeAccount.closedDate := None; TrusteeAccount.createdAt := t |});
  audit_record (with_after (JObj [("programId", JStr programId); ("accountName", JStr (TrusteeAccount.accountName account))])
    (audited actor "admin.trustee_account.created" "TRUSTEE_ACCOUNT" (TrusteeAccount.id account)));;
  mret (JObj [("id", JStr (TrusteeAccount.id account)); ("maskedAccountNumber", JStr (TrusteeAccount.maskedAccountNumber account));
              ("accountName", JStr (TrusteeAccount.accountName account));
              ("status", JStr (AccountStatus_to_string (TrusteeAccount.status account)))]).

Definition setProgramStatus (programId status actor : string) : prog World jsval :=
  st ← or_throw (ProgramStatus_of status)
         (BadRequestException "status must be one of DRAFT, ACTIVE, SUSPENDED, EXPIRED, CLOSED" []);
  program ← update TProgram programId (Program.set_status st);
  audit_record (with_after (JObj [("status", JStr status)]) (audited actor "admin.program.status_changed" "PROGRAM" programId));;
  mret (JObj [("id", JStr (Program.id program)); ("code", JStr (Program.code program));
              ("status", JStr (ProgramStatus_to_string (Program.status program)))]).
End admin.

(** * Safety *)

(** The rules of this file, before the shared ones. *)
Ltac admin_step :=
  cbn beta iota;
  lazymatch goal with
  | |- safe _ _ (hash_password _ ≫= _) _ _ => apply safe_hash_password; [assumption|]
  | |- safe _ _ (upsert_at ?t ?k ?f ?g ≫= _) _ _ =>
      apply (safe_upsert_at t k f g); [safe_tables|done|done|done|done|]
  | |- safe _ _ (client_audit _ _ _ _ ≫= _) _ _ => apply safe_audit; [assumption|]
  | |- safe _ _ (req _ _ ≫= _) _ _ => apply (safe_or_throw good later)
  | |- _ => safe_rule
  end; intros.
Ltac admin_steps := repeat admin_step.

Section admin_safe.
Context `{RT : !Runtime} `{PC : !PrismaClient} (env : Env).

(** A choice between two programs before the rest. *)
Lemma safe_then {A B} (p : prog World A) (k : A → prog World B) s :
  good s → safely p (λ _ _, True) s →
  (∀ w a, later s w → good w → safely (k a) (λ _ _, True) w) → safely (p ≫= k) (λ _ _, True) s.
Proof.
  intros Hs Hp Hk. apply (safe_bind good later); [done|].
  eapply (safe_mono good later); [|exact Hp]. intros a w HL Hg _. by apply Hk.
Qed.

Lemma keeps_createUser i : keeps_good (createUser i).
Proof.
  intros s Hs. unfold createUser. cbv zeta. apply safe_then; [done|by destruct (supplied_password i); admin_steps|].
  intros w a HL Hg. by admin_steps.
Qed.

Lemma keeps_setUserRoles u r a : keeps_good (setUserRoles u r a).
Proof. intros s Hs. unfold setUserRoles. by admin_steps. Qed.

Lemma keeps_setUserDisabled u d a : keeps_good (setUserDisabled u d a).
Proof. intros s Hs. unfold setUserDisabled. by admin_steps. Qed.

Lemma keeps_upsertRole i : keeps_good (upsertRole i).
Proof. intros s Hs. unfold upsertRole. cbv zeta. by admin_steps. Qed.

Lemma keeps_deleteRole r a : keeps_good (deleteRole r a).
Proof. intros s Hs. unfold deleteRole. by admin_steps. Qed.

Lemma safe_optional_big {B} o (k : option Z → prog World B) s :
  good s → (∀ w z, later s w → good w → safely (k z) (λ _ _, True) w) →
  safely (optional_big o ≫= k) (λ _ _, True) s.
Proof. intros Hs Hk. apply safe_then; [done| |done]. unfold optional_big. by destruct o; admin_steps. Qed.

Lemma keeps_upsertPolicy i : keeps_good (upsertPolicy i).
Proof.
  intros s Hs. unfold upsertPolicy. apply safe_optional_big; [done|]. intros w mn HL Hg.
  apply safe_optional_big; [done|]. intros w' mx HL' Hg'.
  apply safe_then; [done| |intros w1 p ? ?; by admin_steps].
  destruct (truthy (pi_id i)) as [k|].
  - by apply (safe_update_last TAbacPolicy); [safe_tables|..].
  - by apply (safe_create_last TAbacPolicy); [safe_tables|..].
Qed.

Lemma keeps_deletePolicy k a : keeps_good (deletePolicy k a).
Proof. intros s Hs. unfold deletePolicy. by admin_steps. Qed.

Lemma keeps_setFlag k b a : keeps_good (setFlag k b a).
Proof.
  intros s Hs. unfold setFlag. apply safe_then; [done|by apply keeps_set_flag|].
  intros w u HL Hg. by admin_steps.
Qed.

Lemma keeps_setControl k v r i a : keeps_good (setControl env k v r i a).
Proof. intros s Hs. unfold setControl. by admin_steps. Qed.

Lemma keeps_replayWebhook k a : keeps_good (replayWebhook k a).
Proof. intros s Hs. unfold replayWebhook. by admin_steps. Qed.

Lemma keeps_replayDeadLettered a : keeps_good (replayDeadLettered a).
Proof.
  intros s Hs. unfold replayDeadLettered.
  apply (safe_update_many TOutboxEvent OutboxEvent.deadLettered requeued); [safe_tables|done..|].
  intros w n HL Hg. by admin_steps.
Qed.

Lemma keeps_setClientRateLimit p n a : keeps_good (setClientRateLimit p n a).
Proof. intros s Hs. unfold setClientRateLimit. by admin_steps. Qed.

Lemma keeps_setClientDisabled p d a : keeps_good (setClientDisabled p d a).
Proof. intros s Hs. unfold setClientDisabled. by admin_steps. Qed.

Lemma keeps_setClientKey p k b a : keeps_good (setClientKey p k b a).
Proof. intros s Hs. unfold setClientKey. by admin_steps. Qed.

Lemma keeps_rotateClientSecret p a : keeps_good (rotateClientSecret p a).
Proof. intros s Hs. unfold rotateClientSecret. cbv zeta. by admin_steps. Qed.

Lemma keeps_setClientWebhookUrl p u a : keeps_good (setClientWebhookUrl p u a).
Proof. intros s Hs. unfold setClientWebhookUrl. by admin_steps. Qed.

Lemma keeps_createProgram i a : keeps_good (createProgram i a).
Proof. intros s Hs. unfold createProgram. by admin_steps. Qed.

Lemma keeps_addTrusteeAccount p i a : keeps_good (addTrusteeAccount p i a).
Proof. intros s Hs. unfold addTrusteeAccount. by admin_steps. Qed.

Lemma keeps_setProgramStatus p st a : keeps_good (setProgramStatus p st a).
Proof. intros s Hs. unfold setProgramStatus. by admin_steps. Qed.

Lemma keeps_probe c : keeps_good (probe c).
Proof.
  intros s Hs. unfold probe. cbv zeta. destruct (truthy _) as [url|]; [|done].
  apply safe_call. intros w [st|e] HL Hg; done.
Qed.

Lemma keeps_integrationHealth : keeps_good integrationHealth.
Proof.
  intros s Hs. unfold integrationHealth. admin_step. apply safe_then; [done| |intros w' ps ? ?; by admin_steps].
  apply (safe_fold_each good later); [done|]. intros acc c w' Hc Hg.
  apply safe_then; [done|by apply keeps_probe|done].
Qed.
End admin_safe.
