(* ===== verification/Gate.v ===== *)
(** What stands in front of the controllers: [apps/trustee-api/src/common/*.guard.ts],
    [infra/client-auth.service.ts], [infra/rate-limit.service.ts] and the error
    filter.

    [app.module.ts] runs the guards in this order: authentication and client
    separation, request signature, rate limit, permission; [guarded] is a route
    behind all four. *)
From Stdlib Require Import QArith_base Qabs.
From S2P Require Import Prelude.
From S2P Require Import Text.
From S2P Require Import Prog.
From S2P Require Import Crypto.
From S2P Require Import Json.
From S2P Require Import Credentials.
From S2P Require Import Schema.
From S2P Require Import Prisma.
From S2P Require Import Infra.
From S2P Require Import LedgerService.
From S2P Require Import Invariant.
From S2P Require Import Demo.
From S2P Require Import Accounts.
From S2P Require Import Admin.
From S2P Require Import Site.
#[local] Open Scope string_scope.
#[local] Open Scope list_scope.
#[local] Open Scope Z_scope.

(** * Requests and principals *)

Record HttpRequest : Type := mkHttpRequest {
  rq_method : string;
  rq_path : string;
  rq_header : string → option string;
  rq_body : jsval
}.

Record AuthenticatedClient : Type := mkAuthenticatedClient {
  ac_platform : string;
  ac_oauthClientId : string;
  ac_displayName : string
}.

Inductive Principal : Type :=
| UserSession (u : UserPrincipal)
| ClientSession (c : AuthenticatedClient).

(** [s.indexOf(':')], the text before and after it. *)
Fixpoint split_colon (s : string) : option (string * string) :=
  match s with
  | EmptyString => None
  | String a s' =>
      if Ascii.eqb a ":" then Some ("", s')
      else match split_colon s' with
           | Some (b, t) => Some (String a b, t)
           | None => None
           end
  end.

Definition requiredPlatform (path : string) : option string :=
  if starts_with "/api/v1/auth" path then None
  else if starts_with "/api/v1/paychain" path then Some "PAYCHAIN"
  else if starts_with "/api/v1/paykh" path then Some "PAYKH"
  else if starts_with "/api/v1/bank" path then Some "TRUSTEE_BANK"
  else if starts_with "/api/v1/trustee" path then Some "TRUSTEE_BANK"
  else if starts_with "/api/v1/admin" path then Some "TRUSTEE_BANK"
  else None.

Definition bearer (rq : HttpRequest) : option string :=
  match rq_header rq "authorization" with
  | Some a => if starts_with "Bearer " a then Some (trim (drop_string 7 a)) else None
  | None => None
  end.

(** * Rate decisions *)

Record RateDecision : Type := mkRateDecision {
  rd_allowed : bool; rd_limit : Z; rd_remaining : Z; rd_resetSeconds : Z
}.

Definition minute_of (nowMs : Z) : Z := nowMs / 60000.
Definition reset_seconds (nowMs : Z) : Z := 60 - (nowMs mod 60000) / 1000.
Definition rl_key (clientId : string) (minute : Z) : string :=
  "rl:" +:+ clientId +:+ ":" +:+ big_to_string minute.
Definition usage_key (clientId : string) (hour : Z) : string :=
  "usage:" +:+ clientId +:+ ":" +:+ big_to_string hour.

Definition rate_decision (count limit nowMs : Z) : RateDecision :=
  {| rd_allowed := count <=? limit; rd_limit := limit; rd_remaining := Z.max 0 (limit - count);
     rd_resetSeconds := reset_seconds nowMs |}.

(** The headers of the response, [Retry-After] on a refusal. *)
Definition rate_headers (d : RateDecision) : list (string * string) :=
  [("X-RateLimit-Limit", big_to_string (rd_limit d)); ("X-RateLimit-Remaining", big_to_string (rd_remaining d));
   ("X-RateLimit-Reset", big_to_string (rd_resetSeconds d))] ++
  (if rd_allowed d then [] else [("Retry-After", big_to_string (rd_resetSeconds d))]).

(** One hit on the in-memory counter of a window. *)
Definition mem_hit (key : string) (nowMs : Z) (m : gmap string (Z * Z)) : Z * gmap string (Z * Z) :=
  let fresh := (1, <[key := (1, nowMs + reset_seconds nowMs * 1000)]> m) in
  match m !! key with
  | None => fresh
  | Some (count, resetMs) =>
      if resetMs <? nowMs then fresh else (count + 1, <[key := (count + 1, resetMs)]> m)
  end.

(** * The error filter *)

(** The status of the response to a thrown error. *)
Definition http_status (e : exn) : Z :=
  match e with
  | BadRequestException _ _ => 400
  | UnauthorizedException _ => 401
  | ForbiddenException _ => 403
  | NotFoundException _ => 404
  | ConflictException _ => 409
  | HttpException status _ => status
  | JsError name _ => if bool_decide (name = "IdempotencyConflictError") then 409 else 500
  | PrismaError _ => 500
  end.

(** The message the response carries; an error that is no HTTP exception says
    nothing of its cause. *)
Definition http_message (e : exn) : string :=
  match e with
  | BadRequestException m _ | UnauthorizedException m | ForbiddenException m | NotFoundException m
  | ConflictException m | HttpException _ m => m
  | JsError name m => if bool_decide (name = "IdempotencyConflictError") then m else "Internal error"
  | PrismaError _ => "Internal error"
  end.

Section gate.
Context `{RT : !Runtime} `{PC : !PrismaClient} `{RD : !Redis} (env : Env).

(** * Authentication and client separation *)

Definition basic_credentials (rq : HttpRequest) : option (string * string) :=
  match rq_header rq "authorization" with
  | Some a =>
      if starts_with "Basic " a
      then match split_colon (base64_decode (drop_string 6 a)) with
           | Some (id, secret) => if bool_decide (id = "") then None else Some (id, secret)
           | None => None
           end
      else None
  | None => None
  end.

Definition extractCredentials (rq : HttpRequest) : option (string * string) :=
  match truthy (rq_header rq "x-client-id"), truthy (rq_header rq "x-client-secret") with
  | Some id, Some secret => Some (id, secret)
  | _, _ => basic_credentials rq
  end.

(** [clientApplication.findUnique({ where: { oauthClientId } })] *)
Definition find_client (oauthClientId : string) : prog World (option ClientApplication.t) :=
  find_first TClientApplication (λ c, bool_decide (ClientApplication.oauthClientId c = oauthClientId)).

Definition secret_matches (c : ClientApplication.t) (secret : string) : bool :=
  negb (ClientApplication.disabled c) &&
  match truthy (ClientApplication.clientSecretHash c) with
  | Some h => hashesEqual (sha256Hex secret) h
  | None => false
  end.

Definition as_principal (c : ClientApplication.t) : AuthenticatedClient :=
  mkAuthenticatedClient (ClientApplication.platform c) (ClientApplication.oauthClientId c) (ClientApplication.displayName c).

(** [ClientAuthService.verify] *)
Definition verify_client (clientId secret : string) : prog World (option AuthenticatedClient) :=
  if bool_decide (clientId = "") || bool_decide (secret = "") then mret None
  else
    client ← find_client clientId;
    mret (match client with
          | Some c => if secret_matches c secret then Some (as_principal c) else None
          | None => None
          end).

Definition separation_guard (rq : HttpRequest) : prog World (option Principal) :=
  match requiredPlatform (rq_path rq) with
  | None => mret None
  | Some required =>
      match truthy (bearer rq) with
      | Some token =>
          t ← now;
          user ← lift (verifyToken env token t);
          user ← or_throw user (UnauthorizedException "Invalid or expired session token");
          throw_if (negb (bool_decide (required = "TRUSTEE_BANK")) || negb (bool_decide (up_institution user = "TRUSTEE_BANK")))
            (ForbiddenException "User session not permitted for this namespace");;
          throw_if (up_mfaPending user)
            (ForbiddenException "MFA enrollment required — activate two-factor auth via /api/v1/auth/mfa/setup before using operator APIs");;
          mret (Some (UserSession user))
      | None =>
          creds ← or_throw (extractCredentials rq)
                    (UnauthorizedException "Credentials required (X-Client-Id/Secret or Bearer token)");
          client ← verify_client creds.1 creds.2;
          client ← or_throw client (UnauthorizedException "Invalid client credentials");
          throw_if (negb (bool_decide (ac_platform client = required)))
            (ForbiddenException ("Client " +:+ ac_platform client +:+ " may not access " +:+ required +:+ " APIs (client separation)"));;
          mret (Some (ClientSession client))
      end
  end.

(** * Request signatures *)

Definition signed_subject (rq : HttpRequest) (clientId timestamp nonce : string) : jsval :=
  JObj [("method", JStr (rq_method rq)); ("path", JStr (rq_path rq)); ("clientId", JStr clientId);
        ("timestamp", JStr timestamp); ("nonce", JStr nonce);
        ("bodyHash", JStr (sha256Hex (canonicalize (match rq_body rq with JUndefined | JNull => JObj [] | b => b end))))].

(** [Number.isFinite(tsMs) && Math.abs(nowMs - tsMs) <= MAX_SKEW_SECONDS * 1000] *)
Definition timestamp_fresh (timestamp : string) (nowMs : Z) : bool :=
  match to_number timestamp with
  | Some ts => Qle_bool (Qabs (inject_Z nowMs - ts)) (inject_Z (MAX_REQUEST_SKEW_SECONDS env * 1000))
  | None => false
  end.

Definition NONCE_TTL_SECONDS : Z := MAX_REQUEST_SKEW_SECONDS env + 60.

Definition nonce_row (nonce clientId : string) (nowMs t : Z) : NonceUsage.t :=
  {| NonceUsage.nonce := nonce; NonceUsage.clientId := clientId;
     NonceUsage.expiresAt := nowMs + NONCE_TTL_SECONDS * 1000; NonceUsage.createdAt := t |}.

Definition signature_ok (rq : HttpRequest) (c : ClientApplication.t) (pem timestamp nonce signature : string) : bool :=
  verifyPayload pem (signed_subject rq (ClientApplication.oauthClientId c) timestamp nonce)
    (mkSignature (ClientApplication.oauthClientId c) "ed25519" signature).

Definition missing_signature : exn := UnauthorizedException "Missing X-Timestamp/X-Nonce/X-Signature".
Definition replayed : exn := UnauthorizedException "Replayed nonce".

Definition check_signature (rq : HttpRequest) (c : ClientApplication.t) : prog World unit :=
  pem ← or_throw (truthy (ClientApplication.publicKeyPem c))
          (ForbiddenException "Signing required but no public key registered for client");
  timestamp ← or_throw (truthy (rq_header rq "x-timestamp")) missing_signature;
  nonce ← or_throw (truthy (rq_header rq "x-nonce")) missing_signature;
  signature ← or_throw (truthy (rq_header rq "x-signature")) missing_signature;
  nowMs ← now;
  throw_if (negb (timestamp_fresh timestamp nowMs)) (UnauthorizedException "Stale or invalid request timestamp");;
  throw_if (negb (signature_ok rq c pem timestamp nonce signature)) (UnauthorizedException "Invalid request signature");;
  prog_catch
    (_ ← create_at TNonceUsage nonce (nonce_row nonce (ClientApplication.oauthClientId c) nowMs); mret tt)
    (λ _, Throw replayed).

Definition changes_value (rq : HttpRequest) : bool :=
  bool_decide (rq_method rq ∈ ["POST"; "PUT"; "DELETE"; "PATCH"]).

Definition signature_guard (rq : HttpRequest) (principal : option Principal) : prog World unit :=
  match principal with
  | Some (ClientSession p) =>
      if changes_value rq then
        client ← find_client (ac_oauthClientId p);
        match client with
        | Some c => if ClientApplication.requireSignature c then check_signature rq c else mret tt
        | None => mret tt
        end
      else mret tt
  | _ => mret tt
  end.

(** * Permissions *)

Definition permission_guard (required : option string) (principal : option Principal) : prog World unit :=
  match required, principal with
  | Some permission, Some (UserSession u) =>
      roles ← roles_of (up_roles u);
      throw_if (negb (existsb (λ r, bool_decide (permission ∈ Role.permissions r)) roles))
        (ForbiddenException ("Missing permission: " +:+ permission))
  | _, _ => mret tt
  end.

(** * Rate limits *)

(** With Redis the counter is shared and the hourly usage is counted beside it,
    without waiting; without it the window lives in the memory of the process. *)
Definition consume (clientId : string) (limitPerMin : Z) : prog Site RateDecision :=
  if redis_available then
    nowMs ← read (λ s, clock (db s));
    let key := rl_key clientId (minute_of nowMs) in
    let usage := usage_key clientId (nowMs / 3600000) in
    count ← command (redis_incr key);
    (if count =? 1 then _ ← command (redis_expire key 65); mret tt else mret tt);;
    prog_catch
      (u ← command (redis_incr usage);
       if u =? 1 then _ ← command (redis_expire usage 93600); mret tt else mret tt)
      (λ _, mret tt);;
    mret (rate_decision count limitPerMin nowMs)
  else
    action (λ s, let nowMs := clock (db s) in
                 let '(count, m) := mem_hit (rl_key clientId (minute_of nowMs)) nowMs (mem s) in
                 (Ok (rate_decision count limitPerMin nowMs), set_mem m s)).

Definition too_many_requests : exn := HttpException 429 "Rate limit exceeded".

(** The decision on a client's request; [None] for everyone else. *)
Definition rate_guard (principal : option Principal) : prog Site (option RateDecision) :=
  match principal with
  | Some (ClientSession p) =>
      if bool_decide (ac_oauthClientId p = "") then mret None
      else
        client ← on_db (find_client (ac_oauthClientId p));
        let limit := match client with Some c => ClientApplication.rateLimitPerMin c | None => 600 end in
        d ← consume (ac_oauthClientId p) limit;
        throw_if (negb (rd_allowed d)) too_many_requests;;
        mret (Some d)
  | _ => mret None
  end.

(** The hourly counts of a client over the last [hours]. *)
Definition hours_back (nowHour : Z) (hours : nat) : list Z :=
  map (λ i, nowHour - Z.of_nat i) (rev (seq 0 hours)).

(** [Number(v ?? 0)] of a count *)
Definition count_text (v : option string) : Z :=
  match v with Some s => default 0 (string_to_bigint s) | None => 0 end.

Definition usage (clientId : string) (hours : nat) : prog Site (list (string * Z)) :=
  if redis_available then
    nowMs ← read (λ s, clock (db s));
    let hs := hours_back (nowMs / 3600000) hours in
    values ← query (redis_mget (map (usage_key clientId) hs));
    mret (imap (λ i h, (take_string 13 (toISOString (h * 3600000)) +:+ ":00Z",
                        count_text (values !! i ≫= id))) hs)
  else mret [].

(** [AdminService.usage] *)
Definition clients_usage (hours : nat) : prog Site (list (ClientApplication.t * list (string * Z) * Z)) :=
  clients ← on_db (find_many TClientApplication (λ _, true));
  fold_each clients [] (λ acc c,
    hourly ← usage (ClientApplication.oauthClientId c) hours;
    mret (acc ++ [(c, hourly, sumZ snd hourly)])).

(** * A route behind its guards *)

Definition guards (permission : option string) (rq : HttpRequest) : prog Site (option Principal) :=
  principal ← on_db (separation_guard rq);
  on_db (signature_guard rq principal);;
  _ ← rate_guard principal;
  on_db (permission_guard permission principal);;
  mret principal.

Definition guarded {A} (permission : option string) (rq : HttpRequest) (handler : prog World A) : prog Site A :=
  _ ← guards permission rq; on_db handler.
End gate.

(** * What an admitted request has shown *)

Section sound.
Context `{RT : !Runtime} `{PC : !PrismaClient} `{RD : !Redis} (env : Env).

(** An operator's session: valid, of the trustee bank, past enrolment. *)
Definition session_shown (rq : HttpRequest) (u : UserPrincipal) (w : World) : Prop :=
  requiredPlatform (rq_path rq) = Some "TRUSTEE_BANK" ∧ up_institution u = "TRUSTEE_BANK" ∧ up_mfaPending u = false ∧
  ∃ token, bearer rq = Some token ∧ verifyToken env token (clock w) = Ok (Some u).

(** A client's credentials: an enabled client of the namespace's platform. *)
Definition client_shown (rq : HttpRequest) (p : AuthenticatedClient) (w : World) : Prop :=
  requiredPlatform (rq_path rq) = Some (ac_platform p) ∧
  ∃ k c secret, tbl w TClientApplication !! k = Some c ∧ p = as_principal c ∧
    ClientApplication.disabled c = false ∧ extractCredentials rq = Some (ClientApplication.oauthClientId c, secret) ∧
    ClientApplication.clientSecretHash c = Some (sha256Hex secret).

(** A signature: the key of the client, a fresh timestamp, and a nonce that was
    unused before and is used now. *)
Definition signature_shown (rq : HttpRequest) (c : ClientApplication.t) (w w' : World) : Prop :=
  ∃ pem timestamp nonce signature,
    ClientApplication.publicKeyPem c = Some pem ∧ rq_header rq "x-timestamp" = Some timestamp ∧
    rq_header rq "x-nonce" = Some nonce ∧ rq_header rq "x-signature" = Some signature ∧
    timestamp_fresh env timestamp (clock w) = true ∧ signature_ok rq c pem timestamp nonce signature = true ∧
    tbl w TNonceUsage !! nonce = None ∧
    tbl w' TNonceUsage !! nonce = Some (nonce_row env nonce (ClientApplication.oauthClientId c) (clock w) (clock w)).

Lemma truthy_Some o s : truthy o = Some s → o = Some s.
Proof. destruct o as [x|]; [|done]. unfold truthy. case_bool_decide; [done|]. by intros [= <-]. Qed.

Lemma find_client_Some id w oc w' :
  run (find_client id) w = (Ok oc, w') →
  w' = w ∧ ∀ c, oc = Some c → ClientApplication.oauthClientId c = id ∧ ∃ k, tbl w TClientApplication !! k = Some c.
Proof.
  unfold find_client. intros H. rewrite (run_find_first TClientApplication) in H.
  apply pair_eq in H as [E <-]. split; [done|]. intros c ->. injection E as E.
  apply (head_where_Some TClientApplication) in E as [E Hk]. by apply bool_decide_eq_true in E.
Qed.

Lemma hashesEqual_eq a b : hashesEqual a b = true → a = b.
Proof. unfold hashesEqual. case_bool_decide; [done|]. by intros E%bool_decide_eq_true. Qed.

Lemma run_verify_client id secret w op w' :
  run (verify_client id secret) w = (Ok op, w') →
  w' = w ∧ ∀ p, op = Some p → ∃ k c, tbl w TClientApplication !! k = Some c ∧ p = as_principal c ∧
    ClientApplication.disabled c = false ∧ ClientApplication.oauthClientId c = id ∧
    ClientApplication.clientSecretHash c = Some (sha256Hex secret).
Proof.
  unfold verify_client. destruct (_ || _); [by intros [= <- <-]|].
  intros (oc & w1 & H1 & [= <- <-])%run_bind_ok. destruct (find_client_Some _ _ _ _ H1) as [-> Hc]. split; [done|].
  intros p Hp. destruct oc as [c|]; [|done]. destruct (Hc c eq_refl) as [Hid [k Hk]].
  destruct (secret_matches c secret) eqn:Hs; [|done]. injection Hp as <-.
  unfold secret_matches in Hs. apply andb_true_iff in Hs as [Hd Hh]. apply negb_true_iff in Hd.
  destruct (truthy _) as [h|] eqn:E; [|done]. apply truthy_Some in E. apply hashesEqual_eq in Hh as <-.
  by exists k, c.
Qed.

Lemma run_separation rq w pr w' :
  run (separation_guard env rq) w = (Ok pr, w') →
  w' = w ∧ match pr with
           | None => requiredPlatform (rq_path rq) = None
           | Some (UserSession u) => session_shown rq u w
           | Some (ClientSession p) => client_shown rq p w
           end.
Proof.
  unfold separation_guard. destruct (requiredPlatform (rq_path rq)) as [required|] eqn:Er; [|by intros [= <- <-]].
  destruct (truthy (bearer rq)) as [token|] eqn:Eb.
  - apply truthy_Some in Eb. intros H. unfold now in H. inv_run.
    match goal with H : _ || _ = false |- _ => apply orb_false_iff in H as [H1 H2] end.
    apply negb_false_iff, bool_decide_eq_true in H1, H2. subst.
    split; [done|]. split_and!; [done..|]. by exists token.
  - intros H. apply run_bind_ok in H as (creds & w1 & H0 & H). rewrite run_or_throw in H0.
    destruct (extractCredentials rq) as [[id secret]|] eqn:Ec; [|done]. injection H0 as <- <-. cbn [fst snd] in H.
    apply run_bind_ok in H as (op & w1 & H0 & H). destruct (run_verify_client _ _ _ _ _ H0) as [-> Hp].
    apply run_bind_ok in H as (p & w1 & H1 & H). rewrite run_or_throw in H1.
    destruct op as [p'|]; [|done]. injection H1 as -> <-.
    rewrite run_bind, run_throw_if in H. destruct (negb _) eqn:En; [done|]. cbn in H. injection H as <- <-.
    apply negb_false_iff, bool_decide_eq_true in En. subst required. split; [done|].
    destruct (Hp p eq_refl) as (k & c & Hk & -> & Hd & <- & Hh). split; [done|]. by exists k, c, secret.
Qed.

Lemma run_create_nonce nonce f w :
  (∀ z, NonceUsage.nonce (f z) = nonce) →
  run (prog_catch (_ ← create_at TNonceUsage nonce f; mret tt) (λ _, Throw replayed)) w =
    if has_row TNonceUsage nonce w then (Err replayed, w)
    else match refuse TNonceUsage nonce (f (clock w)) w with
         | None => (Ok tt, put TNonceUsage nonce (f (clock w)) w)
         | Some _ => (Err replayed, w)
         end.
Proof.
  intros Hf. rewrite run_catch, run_bind, (run_create_at TNonceUsage).
  destruct (has_row TNonceUsage nonce w); [done|]. unfold write_row.
  by destruct (refuse _ _ _ _).
Qed.

Lemma run_check_signature rq c w w' :
  run (check_signature env rq c) w = (Ok tt, w') →
  signature_shown rq c w w' ∧ ∃ nonce r, w' = put TNonceUsage nonce r w.
Proof.
  unfold check_signature. intros H.
  apply run_bind_ok in H as (pem & w1 & H0 & H). rewrite run_or_throw in H0.
  destruct (truthy (ClientApplication.publicKeyPem c)) as [pem'|] eqn:E1; [|done]. injection H0 as -> <-.
  apply run_bind_ok in H as (ts & w1 & H0 & H). rewrite run_or_throw in H0.
  destruct (truthy (rq_header rq "x-timestamp")) as [ts'|] eqn:E2; [|done]. injection H0 as -> <-.
  apply run_bind_ok in H as (nonce & w1 & H0 & H). rewrite run_or_throw in H0.
  destruct (truthy (rq_header rq "x-nonce")) as [nonce'|] eqn:E3; [|done]. injection H0 as -> <-.
  apply run_bind_ok in H as (sg & w1 & H0 & H). rewrite run_or_throw in H0.
  destruct (truthy (rq_header rq "x-signature")) as [sg'|] eqn:E4; [|done]. injection H0 as -> <-.
  apply truthy_Some in E1, E2, E3, E4.
  rewrite run_bind in H. unfold now in H. rewrite run_read in H.
  rewrite run_bind, run_throw_if in H. destruct (timestamp_fresh env ts (clock w)) eqn:Et; [|done]. cbn [negb throw_when] in H.
  rewrite run_bind, run_throw_if in H. destruct (signature_ok rq c pem ts nonce sg) eqn:Es; [|done]. cbn [negb throw_when] in H.
  rewrite run_create_nonce in H by done. unfold has_row in H.
  destruct (tbl w TNonceUsage !! nonce) as [r|] eqn:En; [done|].
  destruct (refuse _ _ _ _); [done|]. injection H as <-. split; [|by eexists _, _].
  exists pem, ts, nonce, sg. split_and!; try done. by rewrite tbl_put_same, lookup_insert_eq.
Qed.
Lemma run_signature_guard rq principal w w' :
  run (signature_guard env rq principal) w = (Ok tt, w') →
  (w' = w ∨ ∃ nonce r, w' = put TNonceUsage nonce r w) ∧
  ∀ p, principal = Some (ClientSession p) → changes_value rq = true →
    ∀ k c, good w → tbl w TClientApplication !! k = Some c → ClientApplication.oauthClientId c = ac_oauthClientId p →
    ClientApplication.requireSignature c = true → signature_shown rq c w w'.
Proof.
  unfold signature_guard. destruct principal as [[u|p]|]; [by intros [= <-]; split; [left|]| |by intros [= <-]; split; [left|]].
  destruct (changes_value rq); [|by intros [= <-]; split; [left|]].
  intros (oc & w1 & H1 & H)%run_bind_ok. pose proof H1 as H1'. destruct (find_client_Some _ _ _ _ H1) as [-> Hc].
  assert (∀ k c, good w → tbl w TClientApplication !! k = Some c →
    ClientApplication.oauthClientId c = ac_oauthClientId p → oc = Some c) as Hfind.
  { intros k c Hg Hk Hid. unfold find_client in H1'. rewrite (run_find_first TClientApplication) in H1'.
    apply pair_eq in H1' as [H1' _]. injection H1' as E. destruct oc as [c'|].
    - destruct (Hc c' eq_refl) as [Hid' [k' Hk']].
      assert (k = k') as <-.
      { apply (good_unique w Hg TClientApplication k k' c c'); [done..|].
        apply (shares_key_intro TClientApplication _ _ ("oauthClientId", [ClientApplication.oauthClientId c])); cbn [unique_keys].
        - right. left.
        - rewrite Hid, <- Hid'. right. left. }
      f_equal. exact (tbl_fun TClientApplication _ _ _ _ Hk' Hk).
    - apply (head_where_None TClientApplication _ _ k c) in E; [|done]. by apply bool_decide_eq_false in E. }
  destruct oc as [c|]; [|injection H as <-; split; [by left|]; intros p' [= <-] _ k c Hg Hk Hid; by specialize (Hfind k c Hg Hk Hid)].
  destruct (ClientApplication.requireSignature c) eqn:Er.
  - destruct (run_check_signature _ _ _ _ H) as [Hs Hput]. split; [by right|].
    intros p' [= <-] _ k c' Hg Hk Hid _. by specialize (Hfind k c' Hg Hk Hid) as [= ->].
  - injection H as <-. split; [by left|]. intros p' [= <-] _ k c' Hg Hk Hid Hr.
    specialize (Hfind k c' Hg Hk Hid) as [= ->]. congruence.
Qed.

Lemma run_permission required principal w w' :
  run (permission_guard required principal) w = (Ok tt, w') →
  w' = w ∧ ∀ permission u, required = Some permission → principal = Some (UserSession u) →
    ∃ k r, tbl w TRole !! k = Some r ∧ Role.slug r ∈ up_roles u ∧ permission ∈ Role.permissions r.
Proof.
  unfold permission_guard. destruct required as [permission|]; [|by intros [= <-]].
  destruct principal as [[u|p]|]; [|by intros [= <-]..].
  unfold roles_of. rewrite run_bind, (run_find_many TRole), run_throw_if.
  destruct (existsb _ _) eqn:E; [|done]. intros [= <-]. split; [done|]. intros p' u' [= <-] [= <-].
  apply existsb_exists in E as (r & Hr & Hp). apply bool_decide_eq_true in Hp.
  apply list_elem_of_In, elem_of_where in Hr as [Hs [k Hk]%(elem_of_scan TRole)]. apply bool_decide_eq_true in Hs.
  by exists k, r.
Qed.

(** ** Programs that leave the database alone *)

Definition frames {A} (p : prog Site A) : Prop := ∀ s, db (run p s).2 = db s.

Lemma frames_bind {A B} (p : prog Site A) (k : A → prog Site B) : frames p → (∀ a, frames (k a)) → frames (p ≫= k).
Proof.
  intros Hp Hk s. rewrite run_bind. specialize (Hp s). destruct (run p s) as [[a|e] s']; cbn in *; [|done].
  by rewrite Hk.
Qed.
Lemma frames_catch {A} (p : prog Site A) h : frames p → (∀ e, frames (h e)) → frames (prog_catch p h).
Proof.
  intros Hp Hh s. rewrite run_catch. specialize (Hp s). destruct (run p s) as [[a|e] s']; cbn in *; [done|].
  by rewrite Hh.
Qed.
Lemma frames_command {A} (f : Z → rstate → outcome A * rstate) : frames (command f).
Proof. intros s. unfold command. rewrite run_action. by destruct (f _ _). Qed.
Lemma frames_ret {A} (a : A) : frames (mret a).
Proof. done. Qed.
Lemma frames_find_client id : frames (on_db (find_client id)).
Proof. by intros s. Qed.
Lemma frames_throw_if b e : frames (throw_if b e).
Proof. by destruct b. Qed.

Lemma frames_consume c l : frames (consume c l).
Proof.
  unfold consume. destruct redis_available; cbv zeta.
  - apply frames_bind; [done|]. intros t. apply frames_bind; [apply frames_command|]. intros n.
    apply frames_bind; [destruct (n =? 1); [apply frames_bind; [apply frames_command|done]|done]|]. intros [].
    apply frames_bind; [|done]. apply frames_catch; [|done].
    apply frames_bind; [apply frames_command|]. intros u.
    destruct (u =? 1); [apply frames_bind; [apply frames_command|done]|done].
  - intros s. rewrite run_action. by destruct (mem_hit _ _ _).
Qed.

Lemma frames_rate_guard p : frames (rate_guard p).
Proof.
  unfold rate_guard. destruct p as [[u|p]|]; [done| |done]. destruct (bool_decide _); [done|].
  apply frames_bind; [apply frames_find_client|]. intros oc. cbv zeta.
  apply frames_bind; [apply frames_consume|]. intros d. apply frames_bind; [apply frames_throw_if|done].
Qed.

(** Claim C8 (who gets in).  A request that passes the four guards changed nothing
    in the database but a nonce, and either its path is in no protected namespace;
    or it carries a session token that is valid now, of a trustee-bank operator past
    enrolment, for a trustee-bank path, and one of the operator's roles holds the
    permission the route asks for; or it carries the credentials of an enabled
    client whose platform is the path's, and, when it changes something and the
    client signs its requests, a valid signature of the method, path, body, fresh
    timestamp and a nonce that was unused and is now used. *)
Theorem guards_sound permission rq s pr s' (Hg : site_good s)
    (H : run (guards env permission rq) s = (Ok pr, s')) :
  (db s' = db s ∨ ∃ nonce r, db s' = put TNonceUsage nonce r (db s)) ∧
  match pr with
  | None => requiredPlatform (rq_path rq) = None
  | Some (UserSession u) =>
      session_shown rq u (db s) ∧
      ∀ p, permission = Some p → ∃ k r, tbl (db s) TRole !! k = Some r ∧ Role.slug r ∈ up_roles u ∧ p ∈ Role.permissions r
  | Some (ClientSession p) =>
      client_shown rq p (db s) ∧
      ∀ k c, tbl (db s) TClientApplication !! k = Some c → ClientApplication.oauthClientId c = ac_oauthClientId p →
        changes_value rq = true → ClientApplication.requireSignature c = true → signature_shown rq c (db s) (db s')
  end.
Proof.
  unfold guards in H. apply run_bind_ok in H as (pr' & s1 & H1 & H).
  apply run_on_db_ok in H1 as (w1 & H1 & ->). destruct (run_separation _ _ _ _ H1) as [-> Hsep].
  apply run_bind_ok in H as ([] & s2 & H2 & H). apply run_on_db_ok in H2 as (w2 & H2 & ->).
  change (db (set_db (db s) s)) with (db s) in H2. destruct (run_signature_guard _ _ _ _ H2) as [Hw Hsig].
  apply run_bind_ok in H as (d & s3 & H3 & H). pose proof (frames_rate_guard pr' (set_db w2 (set_db (db s) s))) as Hf.
  rewrite H3 in Hf. cbn [snd] in Hf. change (db (set_db w2 _)) with w2 in Hf.
  apply run_bind_ok in H as ([] & s4 & H4 & H). apply run_on_db_ok in H4 as (w4 & H4 & ->).
  rewrite Hf in H4. destruct (run_permission _ _ _ _ H4) as [-> Hperm].
  injection H as -> <-. change (db (set_db w2 s3)) with w2. split; [exact Hw|].
  destruct pr as [[u|p]|]; [| |done].
  - split; [done|]. intros p Hp. destruct (Hperm p u Hp eq_refl) as (k & r & Hr & ?). exists k, r. split; [|done].
    destruct Hw as [->|(nonce & x & ->)]; [done|]. by rewrite tbl_put_ne in Hr.
  - split; [done|]. intros k c Hk Hid Hc Hr. by apply (Hsig p eq_refl Hc k).
Qed.

(** ** A nonce is used once *)

(** A check whose nonce is already stored never returns, whatever runs between its
    steps. *)
Lemma safe_check_replayed rq c nonce r s :
  good s → rq_header rq "x-nonce" = Some nonce → tbl s TNonceUsage !! nonce = Some r →
  safe good later (check_signature env rq c) (λ _ _, False) s.
Proof.
  intros Hs Hn Hr. unfold check_signature.
  apply (safe_or_throw good later). intros pem _. apply (safe_or_throw good later). intros ts _.
  apply (safe_or_throw good later). intros n Ha. apply truthy_Some in Ha. assert (n = nonce) as -> by congruence.
  apply (safe_or_throw good later). intros sg _. apply safe_now. intros w HL Hg.
  apply (safe_throw_if good later). intros _. apply (safe_throw_if good later). intros _.
  apply (safe_catch good later); [done| |done].
  apply (safe_action good later). intros w' HL' Hg'. cbn beta.
  destruct (later_row _ _ HL TNonceUsage nonce r Hr eq_refl) as (r1 & Hr1 & _).
  destruct (later_row _ _ HL' TNonceUsage nonce r1 Hr1 eq_refl) as (r2 & Hr2 & _).
  unfold has_row. rewrite Hr2. cbn. by split_and!.
Qed.

(** Claim C25 (a nonce works once).  A signed request that passes the signature check
    leaves its nonce in the database, and from then on no request with that nonce,
    of whichever client and however it interleaves with others, passes the check;
    served alone it is refused. *)
Theorem nonce_single_use rq c w w' (Hg : good w) (H : run (check_signature env rq c) w = (Ok tt, w')) :
  ∃ nonce, rq_header rq "x-nonce" = Some nonce ∧ is_Some (tbl w' TNonceUsage !! nonce) ∧
    ∀ w'' rq' c', good w'' → later w' w'' → rq_header rq' "x-nonce" = Some nonce →
      safe good later (check_signature env rq' c') (λ _ _, False) w'' ∧
      ∃ e, (run (check_signature env rq' c') w'').1 = Err e.
Proof.
  destruct (run_check_signature _ _ _ _ H) as [(pem & ts & nonce & sg & _ & _ & Hn & _ & _ & _ & _ & Hr) _].
  exists nonce. split_and!; [done|by eexists|]. intros w'' rq' c' Hg'' HL Hn'.
  destruct (later_row _ _ HL TNonceUsage nonce _ Hr eq_refl) as (r & Hr' & _).
  pose proof (safe_check_replayed rq' c' nonce r w'' Hg'' Hn' Hr') as Hs. split; [done|].
  destruct (safe_run good later _ _ _ Hg'' Hs) as (_ & _ & HQ).
  destruct (run (check_signature env rq' c') w'') as [[[]|e] w3]; cbn in *; [|by exists e].
  by destruct (HQ tt eq_refl).
Qed.
End sound.

(** * Rate limits, exactly *)

Lemma rl_key_inj c m c' m' : rl_key c m = rl_key c' m' → c = c' ∧ m = m'.
Proof.
  unfold rl_key. intros [= E].
  destruct (last_separator ":" c c' _ _ (big_to_string_lacks_colon m) (big_to_string_lacks_colon m') E) as [-> Em].
  split; [done|]. by apply big_to_string_inj.
Qed.

Lemma rl_usage_ne c m c' h : rl_key c m ≠ usage_key c' h.
Proof. done. Qed.

(** Calls of [consume], each at its time. *)
Record RateCall : Type := mkRateCall { call_at : Z; call_client : string; call_limit : Z }.

Definition in_window (c : string) (m : Z) (x : RateCall) : bool :=
  bool_decide (call_client x = c) && (minute_of (call_at x) =? m).

Definition hits (c : string) (m : Z) (h : list RateCall) : Z := sumZ (λ x, if in_window c m x then 1 else 0) h.

(** The code's decisions, from the number of calls of the same client and minute so
    far. *)
Fixpoint window_limiter (h cs : list RateCall) : list RateDecision :=
  match cs with
  | [] => []
  | x :: cs' =>
      rate_decision (1 + hits (call_client x) (minute_of (call_at x)) h) (call_limit x) (call_at x)
      :: window_limiter (x :: h) cs'
  end.

(** How many calls of the list are of the client and the minute of [x]. *)
Definition same_minute (x : RateCall) (l : list RateCall) : nat :=
  length (filter (λ y, call_client y = call_client x ∧ call_at y / 60000 = call_at x / 60000) l).

(** What a fixed-window limiter of one minute answers to the n-th call of a client in
    a minute: whether n is within the limit, what is left of it, and the seconds to
    the end of the minute, begun ones counted whole. *)
Definition answers (x : RateCall) (n : Z) (d : RateDecision) : Prop :=
  (rd_allowed d = true ↔ n ≤ call_limit x) ∧ rd_limit d = call_limit x ∧
  (n ≤ call_limit x → rd_remaining d = call_limit x - n) ∧ (call_limit x < n → rd_remaining d = 0) ∧
  rd_resetSeconds d * 1000 - 1000 < (call_at x / 60000 + 1) * 60000 - call_at x ≤ rd_resetSeconds d * 1000.

Definition admitted (c : string) (m : Z) (cs : list RateCall) (ds : list RateDecision) : Z :=
  sumZ (λ xd, if in_window c m xd.1 && rd_allowed xd.2 then 1 else 0) (zip cs ds).

Lemma in_window_self x : in_window (call_client x) (minute_of (call_at x)) x = true.
Proof. unfold in_window. by rewrite bool_decide_true, Z.eqb_refl. Qed.
Lemma in_window_true c m x : in_window c m x = true → call_client x = c ∧ minute_of (call_at x) = m.
Proof. unfold in_window. intros [H1%bool_decide_eq_true H2%Z.eqb_eq]%andb_true_iff. done. Qed.

Lemma admitted_bound c m L h cs :
  (∀ x, x ∈ cs → call_client x = c → call_limit x = L) →
  admitted c m cs (window_limiter h cs) ≤ Z.max 0 (L - hits c m h).
Proof.
  revert h. induction cs as [|x cs IH]; intros h HL; [cbn; lia|].
  specialize (IH (x :: h) ltac:(set_solver)). unfold admitted, hits in *. cbn [window_limiter zip_with sumZ fst snd] in *.
  destruct (in_window c m x) eqn:E; cbn [andb]; [|lia].
  destruct (in_window_true _ _ _ E) as [<- <-]. rewrite (HL x ltac:(set_solver) eq_refl). cbn [rate_decision rd_allowed].
  unfold hits. destruct (Z.leb_spec (1 + sumZ (λ y, if in_window (call_client x) (minute_of (call_at x)) y then 1 else 0) h) L); lia.
Qed.

Lemma answers_decision x n : answers x n (rate_decision n (call_limit x) (call_at x)).
Proof.
  unfold answers, rate_decision, reset_seconds. cbn [rd_allowed rd_limit rd_remaining rd_resetSeconds].
  rewrite Z.leb_le. split_and!; [done|done|lia|lia|..]; pose proof (Z.div_mod (call_at x) 60000);
    pose proof (Z.mod_pos_bound (call_at x) 60000);
    pose proof (Z.div_mod (call_at x mod 60000) 1000); pose proof (Z.mod_pos_bound (call_at x mod 60000) 1000); lia.
Qed.

Lemma same_minute_hits x l : Z.of_nat (same_minute x l) = hits (call_client x) (minute_of (call_at x)) l.
Proof.
  unfold same_minute, hits. induction l as [|y l IH]; [done|]. cbn [sumZ].
  rewrite filter_cons. unfold in_window at 1, minute_of at 1 2.
  destruct (decide (call_client y = call_client x ∧ call_at y / 60000 = call_at x / 60000)) as [[E1 E2]|Hne].
  - rewrite bool_decide_true, (proj2 (Z.eqb_eq _ _) E2) by done. cbn [length andb]. lia.
  - destruct (bool_decide_reflect (call_client y = call_client x)) as [E1|]; [|cbn [andb]; lia].
    destruct (Z.eqb_spec (call_at y / 60000) (call_at x / 60000)); [naive_solver|cbn [andb]; lia].
Qed.

Lemma hits_perm c m l l' : l ≡ₚ l' → hits c m l = hits c m l'.
Proof. apply sumZ_perm. Qed.

Lemma window_limiter_answers h cs :
  length (window_limiter h cs) = length cs ∧
  ∀ i x d, cs !! i = Some x → window_limiter h cs !! i = Some d →
    answers x (1 + hits (call_client x) (minute_of (call_at x)) (h ++ take i cs)) d.
Proof.
  revert h. induction cs as [|y cs IH]; intros h; [done|]. destruct (IH (y :: h)) as [Hl Hd].
  split; [cbn; by rewrite Hl|]. intros [|i] x d; cbn.
  - intros [= ->] [= <-]. rewrite app_nil_r. apply answers_decision.
  - intros Hx Hi. specialize (Hd i x d Hx Hi).
    by rewrite (hits_perm _ _ (h ++ y :: take i cs) ((y :: h) ++ take i cs)) by by rewrite <- Permutation_middle.
Qed.

Section rate.
Context `{RT : !Runtime} `{PC : !PrismaClient} `{RD : !Redis}.

Fixpoint serve_calls (cs : list RateCall) : prog Site (list RateDecision) :=
  match cs with
  | [] => mret []
  | x :: cs' =>
      _ ← action (λ s, (Ok tt, set_db (set_clock (call_at x) (db s)) s));
      d ← consume (call_client x) (call_limit x);
      ds ← serve_calls cs';
      mret (d :: ds)
  end.

(** The counters agree with the calls so far, for every window not yet over. *)
Definition counters (h : list RateCall) (t : Z) (s : Site) : Prop :=
  if redis_available then
    ∀ c u, t ≤ u → live (rl_key c (minute_of u)) u (redis s) =
      (let n := hits c (minute_of u) h in if n =? 0 then None else Some (RInt n))
  else
    ∀ c m, match mem s !! rl_key c m with
           | None => hits c m h = 0
           | Some (n, resetMs) => n = hits c m h ∧ n ≠ 0 ∧ (m + 1) * 60000 ≤ resetMs
           end.

Lemma hits_nonneg c m h : 0 ≤ hits c m h.
Proof. apply sumZ_nonneg. intros x _. by destruct (in_window c m x). Qed.

Lemma minute_bounds t : minute_of t * 60000 ≤ t < (minute_of t + 1) * 60000.
Proof. unfold minute_of. pose proof (Z.div_mod t 60000). pose proof (Z.mod_pos_bound t 60000). lia. Qed.

(** A window's expiry, in memory, is not before its end. *)
Lemma reset_after t : (minute_of t + 1) * 60000 ≤ t + reset_seconds t * 1000.
Proof.
  unfold reset_seconds, minute_of. pose proof (Z.div_mod t 60000). pose proof (Z.mod_pos_bound t 60000).
  pose proof (Z.div_mod (t mod 60000) 1000). pose proof (Z.mod_pos_bound (t mod 60000) 1000). lia.
Qed.

Lemma counters_mem x h s :
  redis_available = false → counters h (call_at x) s → clock (db s) = call_at x →
  ∃ s', run (consume (call_client x) (call_limit x)) s =
          (Ok (rate_decision (1 + hits (call_client x) (minute_of (call_at x)) h) (call_limit x) (call_at x)), s') ∧
        counters (x :: h) (call_at x) s'.
Proof.
  unfold counters, consume. intros -> HC Hclk. rewrite run_action, Hclk.
  pose proof (HC (call_client x) (minute_of (call_at x))) as Hw. unfold mem_hit.
  set (key := rl_key (call_client x) (minute_of (call_at x))) in *.
  pose proof (minute_bounds (call_at x)). pose proof (reset_after (call_at x)).
  pose proof (hits_nonneg (call_client x) (minute_of (call_at x)) h).
  assert (∀ n r, n = 1 + hits (call_client x) (minute_of (call_at x)) h → (minute_of (call_at x) + 1) * 60000 ≤ r →
    ∀ c m, match <[key := (n, r)]> (mem s) !! rl_key c m with
           | None => hits c m (x :: h) = 0
           | Some (k, resetMs) => k = hits c m (x :: h) ∧ k ≠ 0 ∧ (m + 1) * 60000 ≤ resetMs
           end) as Hins.
  { intros n r Hn Hr c m. unfold hits in *. cbn [sumZ]. destruct (decide (rl_key c m = key)) as [E|E].
    - rewrite E, lookup_insert_eq. apply rl_key_inj in E as [-> ->]. rewrite in_window_self. lia.
    - rewrite lookup_insert_ne by done. specialize (HC c m). destruct (in_window c m x) eqn:Ew; [|exact HC].
      apply in_window_true in Ew as [<- <-]. done. }
  destruct (mem s !! key) as [[n r]|].
  - destruct Hw as (-> & Hne & Hr). destruct (Z.ltb_spec r (call_at x)); [lia|]. rewrite Z.add_comm.
    eexists. split; [reflexivity|]. cbn [mem set_mem]. by apply Hins.
  - rewrite Hw. eexists. split; [reflexivity|]. cbn [mem set_mem]. apply Hins; [lia|done].
Qed.

(** What the usage counter does: nothing to the windows. *)
Lemma run_usage_count c hour s :
  ∃ s', run (prog_catch
      (u ← command (redis_incr (usage_key c hour));
       if u =? 1 then _ ← command (redis_expire (usage_key c hour) 93600); mret tt else mret tt)
      (λ _, mret tt)) s = (Ok tt, s') ∧ db s' = db s ∧
    ∀ c' m u, clock (db s) ≤ u → live (rl_key c' m) u (redis s') = live (rl_key c' m) u (redis s).
Proof.
  rewrite run_catch, run_bind. unfold command at 1. rewrite run_action.
  pose proof (redis_incr_others (usage_key c hour) (clock (db s)) (redis s)) as Ho.
  destruct (redis_incr _ _ _) as [[n|e] r]; cbn [snd] in Ho.
  - destruct (n =? 1).
    + rewrite run_bind. unfold command. rewrite run_action. cbn [db redis set_redis].
      pose proof (redis_expire_others (usage_key c hour) 93600 (clock (db s)) r) as Ho'.
      destruct (redis_expire _ _ _ _) as [[k|e] r']; cbn [snd] in Ho'; cbn; eexists; (split; [reflexivity|]);
        cbn; (split; [done|]); intros c' m u Hu;
        (rewrite Ho'; [by apply Ho; [apply rl_usage_ne|]|apply rl_usage_ne|done]).
    + eexists. split; [reflexivity|]. split; [done|]. intros c' m u Hu. apply Ho; [apply rl_usage_ne|done].
  - eexists. split; [reflexivity|]. split; [done|]. intros c' m u Hu. apply Ho; [apply rl_usage_ne|done].
Qed.

Lemma minute_le t u : t ≤ u → minute_of t ≤ minute_of u.
Proof. intros H. by apply Z.div_le_mono. Qed.

Lemma counters_redis x h s d s' :
  redis_available = true → counters h (call_at x) s → clock (db s) = call_at x →
  run (consume (call_client x) (call_limit x)) s = (Ok d, s') →
  d = rate_decision (1 + hits (call_client x) (minute_of (call_at x)) h) (call_limit x) (call_at x) ∧
  counters (x :: h) (call_at x) s'.
Proof.
  unfold counters, consume. intros -> HC Hclk. rewrite run_bind, run_read, Hclk. cbv zeta.
  set (t := call_at x) in *. set (m := minute_of t) in *. set (key := rl_key (call_client x) m).
  set (n := hits (call_client x) m h) in *. pose proof (hits_nonneg (call_client x) m h) as Hn0. fold n in Hn0.
  intros (count & s1 & H1 & H)%run_bind_ok. unfold command at 1 in H1. rewrite run_action, Hclk in H1.
  pose proof (redis_incr_others key t (redis s)) as Ho.
  destruct (redis_incr key t (redis s)) as [o r1] eqn:Ei. injection H1 as -> <-. cbn [snd] in Ho.
  pose proof (redis_incr_ok _ _ _ _ _ Ei) as Hok.
  assert (live key t (redis s) = (if n =? 0 then None else Some (RInt n))) as Hlive by by apply HC.
  assert (count = 1 + n ∧ ∀ u, t ≤ u → minute_of u = m → live key u r1 = Some (RInt (1 + n))) as [-> Hkey].
  { rewrite Hlive in Hok. destruct (Z.eqb_spec n 0) as [E|E].
    - destruct Hok as [-> Hu]. rewrite E. split; [done|]. intros u Hu' _. by apply Hu.
    - destruct Hok as [-> Hu]. split; [lia|]. intros u Hu' Hm. rewrite (Z.add_comm 1 n). apply Hu; [done|].
      pose proof (HC (call_client x) u Hu') as HC'. rewrite Hm in HC'. fold n key in HC'.
      rewrite HC'. destruct (Z.eqb_spec n 0); [done|]. by eexists. }
  apply run_bind_ok in H as ([] & s2 & H2 & H).
  assert (db s2 = db s ∧ (∀ u, t ≤ u → minute_of u = m → live key u (redis s2) = Some (RInt (1 + n))) ∧
          ∀ k u, k ≠ key → t ≤ u → live k u (redis s2) = live k u (redis s)) as (Hdb & Hkey2 & Ho2).
  { destruct (1 + n =? 1) eqn:E1.
    - apply run_bind_ok in H2 as (x0 & s3 & H3 & [= <-]). unfold command in H3. rewrite run_action in H3.
      cbn [db redis set_redis] in H3. rewrite Hclk in H3.
      pose proof (redis_expire_others key 65 t r1) as Ho'.
      destruct (redis_expire key 65 t r1) as [o r2] eqn:Ee. injection H3 as -> <-. cbn [snd db redis set_redis] in *.
      pose proof (redis_expire_ok _ _ _ _ _ _ Ee) as Hx. split_and!; [done| |].
      + intros u Hu Hm. rewrite Hx by done. pose proof (minute_bounds t) as Hb. pose proof (minute_bounds u) as Hb'.
        rewrite Hm in Hb'. fold m in Hb. destruct (Z.ltb_spec u (t + 65 * 1000)); [|lia]. apply Hkey; [lia|done].
      + intros k u Hk Hu. rewrite Ho' by done. by apply Ho.
    - injection H2 as <-. split_and!; [done|done|]. intros k u Hk Hu. by apply Ho. }
  apply run_bind_ok in H as ([] & s3 & H3 & [= <- <-]).
  destruct (run_usage_count (call_client x) (t / 3600000) s2) as (s3' & Hrun & Hdb3 & Hl3).
  rewrite Hrun in H3. injection H3 as <-. split; [done|]. intros c u Hu.
  rewrite Hl3 by (rewrite Hdb, Hclk; exact Hu).
  unfold hits. cbn [sumZ]. fold (hits c (minute_of u) h). destruct (decide (rl_key c (minute_of u) = key)) as [E|E].
  - rewrite E. apply rl_key_inj in E as [-> Em]. rewrite Hkey2 by done. rewrite Em.
    assert (in_window (call_client x) m x = true) as -> by apply in_window_self. fold n. destruct (Z.eqb_spec (1 + n) 0); [lia|done].
  - rewrite Ho2, HC by done. destruct (in_window c (minute_of u) x) eqn:Ew; [|done].
    apply in_window_true in Ew as [<- Em]. by rewrite <- Em in E.
Qed.

Lemma counters_advance h t t' w s : t ≤ t' → counters h t s → counters h t' (set_db w s).
Proof.
  unfold counters. intros Ht. destruct redis_available; [|done]. intros H c u Hu. apply H. lia.
Qed.

Lemma serve_calls_exact cs h t s ds s' :
  counters h t s → StronglySorted (λ x y, call_at x ≤ call_at y) cs → (∀ x, x ∈ cs → t ≤ call_at x) →
  run (serve_calls cs) s = (Ok ds, s') → ds = window_limiter h cs.
Proof.
  revert h t s ds s'. induction cs as [|x cs IH]; intros h t s ds s' HC Hs Ht; [by intros [= <- <-]|].
  cbn [serve_calls]. rewrite run_bind, run_action. cbn iota.
  set (s1 := set_db _ s). assert (counters h (call_at x) s1) as HC1 by (apply (counters_advance h t); [apply Ht; set_solver|done]).
  intros (d & s2 & H1 & H)%run_bind_ok. apply run_bind_ok in H as (ds' & s3 & H2 & [= <- <-]).
  assert (d = rate_decision (1 + hits (call_client x) (minute_of (call_at x)) h) (call_limit x) (call_at x) ∧
          counters (x :: h) (call_at x) s2) as [-> HC2].
  { destruct redis_available eqn:Er; [by apply (counters_redis x h s1)|].
    destruct (counters_mem x h s1 Er HC1 eq_refl) as (s2' & Hrun & HC2). rewrite Hrun in H1. by injection H1 as <- <-. }
  cbn [window_limiter]. f_equal. inversion Hs as [|? ? Hs' Hall]; subst.
  apply (IH (x :: h) (call_at x) s2 ds' s3); [done..| |done]. by apply Forall_forall.
Qed.

Lemma serve_calls_total cs h t s :
  redis_available = false → counters h t s → is_ok (run (serve_calls cs) s).1 = true.
Proof.
  intros Er. revert h t s. induction cs as [|x cs IH]; intros h t s HC; [done|].
  cbn [serve_calls]. rewrite run_bind, run_action. cbn iota. set (s1 := set_db _ s).
  assert (counters h (call_at x) s1) as HC1 by (revert HC; unfold counters; by rewrite Er).
  destruct (counters_mem x h s1 Er HC1 eq_refl) as (s2 & Hrun & HC2).
  rewrite run_bind, Hrun, run_bind. specialize (IH _ _ _ HC2). by destruct (run (serve_calls cs) s2) as [[ds|e] s3].
Qed.

(** Claim C26 (rate limits).  On a process that has counted nothing yet, a sequence
    of calls of any clients and limits, in the order of their times, is answered
    one by one, and the n-th call of a client in a minute is allowed exactly when
    n is within its limit; the answer tells the limit, what is left of it and the
    seconds to the end of the minute.  So no client with limit L is allowed more
    than L calls in a minute.  This holds of the counters in memory,
    where every call is answered, and of those in Redis, when its commands are
    answered. *)
Theorem rate_limit_exact cs s (Hmem : mem s = ∅) (Hredis : ∀ c m u, live (rl_key c m) u (redis s) = None)
    (Hs : StronglySorted (λ x y, call_at x ≤ call_at y) cs) :
  (redis_available = false → is_ok (run (serve_calls cs) s).1 = true) ∧
  ∀ ds s', run (serve_calls cs) s = (Ok ds, s') →
    length ds = length cs ∧
    (∀ i x d, cs !! i = Some x → ds !! i = Some d → answers x (Z.of_nat (same_minute x (take (S i) cs))) d) ∧
    ∀ c m L, (∀ x, x ∈ cs → call_client x = c → call_limit x = L) → admitted c m cs ds ≤ Z.max 0 L.
Proof.
  assert (∀ t, counters [] t s) as HC.
  { intros t. unfold counters. destruct redis_available; [intros c u _; by rewrite Hredis|].
    intros c m. by rewrite Hmem, lookup_empty. }
  split; [intros Er; by apply (serve_calls_total cs [] 0)|]. intros ds s' H.
  assert (ds = window_limiter [] cs) as ->.
  { destruct cs as [|x cs]; [by injection H as <- <-|].
    apply (serve_calls_exact (x :: cs) [] (call_at x) s ds s'); [done..| |done].
    inversion Hs as [|? ? _ Hall]; subst. intros y [->|Hy]%elem_of_cons; [lia|]. rewrite Forall_forall in Hall. by apply Hall. }
  destruct (window_limiter_answers [] cs) as [Hlen Hans]. split; [done|]. split.
  { intros i x d Hx Hd. rewrite same_minute_hits, (take_S_r _ _ _ Hx).
    rewrite (hits_perm _ _ (take i cs ++ [x]) (x :: take i cs)) by by rewrite Permutation_app_comm.
    unfold hits. cbn [sumZ]. rewrite in_window_self. by apply Hans. }
  intros c m L HL. pose proof (admitted_bound c m L [] cs HL) as Hb. unfold hits in Hb. cbn [sumZ] in Hb. lia.
Qed.
End rate.

(** * Safety *)

Section gate_safe.
Context `{RT : !Runtime} `{PC : !PrismaClient} `{RD : !Redis} (env : Env).

Lemma safe_find_client {B} id (k : option ClientApplication.t → prog World B) Q s :
  (∀ w oc, later s w → good w → safe good later (k oc) Q w) → safe good later (find_client id ≫= k) Q s.
Proof. intros H. apply (safe_read good later). intros w HL Hg. by apply H. Qed.

Lemma keeps_separation rq : keeps_good (separation_guard env rq).
Proof.
  intros s Hs. unfold separation_guard. destruct (requiredPlatform _) as [required|]; [|done].
  destruct (truthy _) as [token|]; [by safe_steps|]. safe_step.
  apply (safe_bind good later); [done|]. unfold verify_client. destruct (_ || _).
  - intros w HL Hg. by safe_steps.
  - apply safe_find_client. intros w oc HL Hg w' HL' Hg'. by safe_steps.
Qed.

Lemma keeps_signature rq pr : keeps_good (signature_guard env rq pr).
Proof.
  intros s Hs. unfold signature_guard. destruct pr as [[u|p]|]; [done| |done]. destruct (changes_value rq); [|done].
  apply safe_find_client. intros w [c|] HL Hg; [|done]. destruct (ClientApplication.requireSignature c); [|done].
  unfold check_signature. do 7 (safe_step; try done).
  apply (safe_catch good later); [done| |done].
  apply (safe_create_at TNonceUsage); [safe_tables|done..].
Qed.

Lemma keeps_permission required pr : keeps_good (permission_guard required pr).
Proof.
  intros s Hs. unfold permission_guard. destruct required as [p|]; [|done]. destruct pr as [[u|c]|]; [|done..].
  unfold roles_of. by safe_steps.
Qed.

(** The rate limiter's keys are no locks. *)
Lemma keeps_incr k : (∀ job, cron_key job ≠ k) → keeps site_good site_later (command (redis_incr k)).
Proof. intros Hk. apply keeps_command. intros t r. apply (locks_kept_others k); [done|]. apply redis_incr_others. Qed.
Lemma keeps_redis_expire k ttl : (∀ job, cron_key job ≠ k) → keeps site_good site_later (command (redis_expire k ttl)).
Proof. intros Hk. apply keeps_command. intros t r. apply (locks_kept_others k); [done|]. apply redis_expire_others. Qed.

Lemma keeps_consume c l : keeps site_good site_later (consume c l).
Proof.
  unfold consume. destruct redis_available; cbv zeta.
  - apply keeps_bind; [apply keeps_site_read|]. intros t. apply keeps_bind; [by apply keeps_incr|]. intros n.
    apply keeps_bind; [destruct (n =? 1); [apply keeps_bind; [by apply keeps_redis_expire|]|]; auto with trustee|]. intros [].
    apply keeps_bind; [|auto with trustee]. apply keeps_catch; [|auto with trustee].
    apply keeps_bind; [by apply keeps_incr|]. intros u.
    destruct (u =? 1); [apply keeps_bind; [by apply keeps_redis_expire|]|]; auto with trustee.
  - apply keeps_off_db; intros s; destruct (mem_hit _ _ _); [done|by intros job u].
Qed.

Lemma keeps_rate_guard p : keeps site_good site_later (rate_guard p).
Proof.
  unfold rate_guard. destruct p as [[u|p]|]; [auto with trustee| |auto with trustee]. destruct (bool_decide _); [auto with trustee|].
  apply keeps_bind; [apply keeps_on_db; apply (keeps_read)|]. intros oc. cbv zeta.
  apply keeps_bind; [apply keeps_consume|]. intros d.
  apply keeps_bind; [apply keeps_lift|auto with trustee].
Qed.

Lemma keeps_guards permission rq : keeps site_good site_later (guards env permission rq).
Proof.
  unfold guards. apply keeps_bind; [apply keeps_on_db, keeps_separation|]. intros pr.
  apply keeps_bind; [apply keeps_on_db, keeps_signature|]. intros [].
  apply keeps_bind; [apply keeps_rate_guard|]. intros d.
  apply keeps_bind; [apply keeps_on_db, keeps_permission|auto with trustee].
Qed.

(** A route behind its guards is as safe as its handler. *)
Lemma keeps_guarded {A} permission rq (h : prog World A) :
  keeps_good h → keeps site_good site_later (guarded env permission rq h).
Proof. intros Hh. unfold guarded. apply keeps_bind; [apply keeps_guards|]. intros _. by apply keeps_on_db. Qed.

Lemma keeps_usage c h : keeps site_good site_later (usage c h).
Proof.
  unfold usage. destruct redis_available; [|auto with trustee].
  apply keeps_bind; [apply keeps_site_read|]. intros t. cbv zeta. apply keeps_bind; auto with trustee.
Qed.
End gate_safe.

(** * The properties at a concrete site *)

Definition demo_site (r : bool) : @Site (toy_redis r) := @mkSite (toy_redis r) demo_access ∅ false (∅ : gmap string (rvalue * option Z)).

(** A signed request of the PayChain client. *)
Definition demo_headers (signature : string) (name : string) : option string :=
  if bool_decide (name = "x-client-id") then Some "paychain-1"
  else if bool_decide (name = "x-client-secret") then Some "secret-paychain-1"
  else if bool_decide (name = "x-timestamp") then Some "1700000020000"
  else if bool_decide (name = "x-nonce") then Some "nonce-1"
  else if bool_decide (name = "x-signature") then Some signature
  else None.

Definition demo_body : jsval :=
  JObj [("programId", JStr "prog-1"); ("paychainRequestId", JStr "req-1"); ("amountMinor", JStr "100");
        ("fundingDepositIds", JArr [JStr "dep-1"])].

Definition demo_unsigned : HttpRequest :=
  mkHttpRequest "POST" "/api/v1/paychain/mint-authorizations" (demo_headers "") demo_body.

Definition demo_request : HttpRequest :=
  mkHttpRequest "POST" "/api/v1/paychain/mint-authorizations"
    (demo_headers (@ed_sign toy_crypto "client-key"
       (canonicalize (@signed_subject demo_runtime demo_unsigned "paychain-1" "1700000020000" "nonce-1"))))
    demo_body.

Lemma guards_sound_witness :
  ∃ pr s', run (@guards demo_runtime ref_client (toy_redis true) demo_env (Some "mint.request") demo_request) (demo_site true) = (Ok pr, s') ∧
    ∃ p, pr = Some (ClientSession p) ∧ requiredPlatform (rq_path demo_request) = Some (ac_platform p) ∧
    is_Some (tbl (db s') TNonceUsage !! "nonce-1").
Proof.
  destruct (run_is_ok (@guards demo_runtime ref_client (toy_redis true) demo_env (Some "mint.request") demo_request) (demo_site true))
    as [pr Hrun]; [vm_compute; reflexivity|].
  eexists pr, _. split; [exact Hrun|].
  destruct (@guards_sound demo_runtime ref_client (toy_redis true) demo_env _ _ (demo_site true) _ _ good_demo_access Hrun) as [_ H].
  pose proof (f_equal fst Hrun) as E. vm_compute in E. injection E as <-.
  eexists. split; [reflexivity|]. destruct H as [[Hp _] Hsig]. split; [exact Hp|].
  destruct (Hsig "paychain-1" (demo_client "paychain-1" "PAYCHAIN" true 2)) as (pem & ts & nonce & sg & _ & _ & Hn & _ & _ & _ & _ & Hr);
    [vm_compute; reflexivity..|].
  injection Hn as <-. by eexists.
Defined.

Lemma nonce_single_use_witness :
  ∃ w', run (@check_signature demo_runtime ref_client demo_env demo_request (demo_client "paychain-1" "PAYCHAIN" true 2)) demo_access = (Ok tt, w') ∧
    ∃ e, (run (@check_signature demo_runtime ref_client demo_env demo_request (demo_client "paychain-1" "PAYCHAIN" true 2)) w').1 = Err e.
Proof.
  destruct (run_is_ok (@check_signature demo_runtime ref_client demo_env demo_request (demo_client "paychain-1" "PAYCHAIN" true 2)) demo_access)
    as [[] Hrun]; [vm_compute; reflexivity|].
  eexists. split; [exact Hrun|].
  destruct (@nonce_single_use demo_runtime ref_client demo_env _ _ _ _ good_demo_access Hrun) as (nonce & Hn & _ & H).
  apply H; [|reflexivity|exact Hn].
  destruct (@run_check_signature demo_runtime ref_client demo_env _ _ _ _ Hrun)
    as [(pem & ts & n & sg & _ & _ & _ & _ & _ & _ & Hfresh & Hr) (k & r & E)].
  pose proof (safe_run good later _ _ _ good_demo_access
    (@keeps_signature demo_runtime ref_client demo_env demo_request
       (Some (ClientSession (mkAuthenticatedClient "PAYCHAIN" "paychain-1" "PAYCHAIN"))) _ good_demo_access)) as (Hg & _ & _).
  exact Hg.
Defined.

Lemma rate_limit_exact_witness :
  ∃ ds s', run (@serve_calls (toy_redis true) (map (λ t, mkRateCall t "paychain-1" 2) [60000; 60001; 60002; 120000])) (demo_site true) = (Ok ds, s') ∧
    (∀ d, ds !! 2%nat = Some d → rd_allowed d = true ↔ 3 ≤ 2) ∧
    admitted "paychain-1" 1 (map (λ t, mkRateCall t "paychain-1" 2) [60000; 60001; 60002; 120000]) ds ≤ 2.
Proof.
  set (cs := map (λ t, mkRateCall t "paychain-1" 2) [60000; 60001; 60002; 120000]).
  destruct (run_is_ok (@serve_calls (toy_redis true) cs) (demo_site true)) as [ds Hrun]; [vm_compute; reflexivity|].
  exists ds. eexists. split; [exact Hrun|].
  destruct (@rate_limit_exact (toy_redis true) cs (demo_site true)) as [_ H]; [reflexivity| | |].
  - intros c m u. unfold demo_site. cbn. unfold toy_live. by rewrite lookup_empty.
  - unfold cs. repeat constructor; cbn; lia.
  - destruct (H ds _ Hrun) as (_ & Ha & Hb). split.
    { intros d Hd. exact (proj1 (Ha 2%nat (mkRateCall 60002 "paychain-1" 2) d eq_refl Hd)). }
    apply (Hb "paychain-1" 1 2). intros x Hx _. unfold cs in Hx. apply list_elem_of_fmap in Hx as (t & -> & _). reflexivity.
Defined.
