(* ===== verification/Operations.v ===== *)
(** The read models of the operations workbench:
    [apps/trustee-api/src/modules/operations/operations.service.ts].  Work queues,
    trial balance and journal, reserve and liability reports, reconciliation runs,
    attestations and the audit trail. *)
From S2P Require Import Prelude.
From S2P Require Import Money.
From S2P Require Import Domain.
From S2P Require Import Ledger.
From S2P Require Import Reserve.
From S2P Require Import Prog.
From S2P Require Import Crypto.
From S2P Require Import Schema.
From S2P Require Import Prisma.
From S2P Require Import Infra.
From S2P Require Import LedgerService.
From S2P Require Import Invariant.
From S2P Require Import Demo.
From S2P Require Import ReserveService.
#[local] Open Scope string_scope.
#[local] Open Scope list_scope.
#[local] Open Scope Z_scope.

Record TrialLine : Type := mkTrialLine {
  tl_account : string; tl_type : LedgerAccountType; tl_debit : Z; tl_credit : Z; tl_balance : Z
}.

Record TrialBalance : Type := mkTrialBalance {
  tb_programId : string; tb_accounts : list TrialLine; tb_totalDebit : Z; tb_totalCredit : Z; tb_balanced : bool
}.

(** [contains], the filter of a text column. *)
Fixpoint text_contains (sub s : string) : bool :=
  starts_with sub s || match s with String _ s' => text_contains sub s' | EmptyString => false end.

Definition queue_mint (r : MintAuthorization.t) : bool :=
  bool_decide (MintAuthorization.status r ∈ [PENDING_MAKER; PENDING_CHECKER]).
Definition queue_redemption (r : Redemption.t) : bool :=
  bool_decide (Redemption.status r ∈ [AWAITING_APPROVAL; RAPPROVED; BURN_CONFIRMED; PAYOUT_SUBMITTED]).
Definition queue_deposit (r : Deposit.t) : bool :=
  bool_decide (Deposit.status r ∈ [DETECTED; UNMATCHED; MATCHED]).
Definition queue_settlement (r : PaykhSettlement.t) : bool :=
  bool_decide (PaykhSettlement.status r ∈ [SETTLEMENT_REQUESTED; SETTLEMENT_APPROVED; SETTLEMENT_SUBMITTED]).

(** The approval that the query of the mint queue includes. *)
Definition approval_of (w : World) (m : MintAuthorization.t) : option Approval.t :=
  snd <$> head (filter (λ ka, Approval.mintAuthorizationId ka.2 = Some (MintAuthorization.id m)) (map_to_list (tbl w TApproval))).

Definition js_queue_mint (mo : MintAuthorization.t * option Approval.t) : jsval :=
  let m := mo.1 in
  JObj [("id", JStr (MintAuthorization.id m)); ("programId", JStr (MintAuthorization.programId m));
        ("amountMinor", js_big (MintAuthorization.amountMinor m)); ("currency", JStr (MintAuthorization.currency m));
        ("status", JStr (MintAuthorizationStatus_to_string (MintAuthorization.status m)));
        ("makerId", js_of_opt (Approval.makerId <$> mo.2));
        ("paychainRequestId", JStr (MintAuthorization.paychainRequestId m))].

Definition js_queue_redemption (r : Redemption.t) : jsval :=
  JObj [("id", JStr (Redemption.id r)); ("programId", JStr (Redemption.programId r));
        ("amountMinor", js_big (Redemption.amountMinor r)); ("currency", JStr (Redemption.currency r));
        ("status", JStr (RedemptionStatus_to_string (Redemption.status r)));
        ("beneficiaryName", JStr (Redemption.beneficiaryName r)); ("burnTxHash", js_of_opt (Redemption.burnTxHash r))].

Definition js_queue_deposit (d : Deposit.t) : jsval :=
  JObj [("id", JStr (Deposit.id d)); ("programId", JStr (Deposit.programId d));
        ("amountMinor", js_big (Deposit.amountMinor d)); ("currency", JStr (Deposit.currency d));
        ("status", JStr (DepositStatus_to_string (Deposit.status d)));
        ("bankTransactionId", JStr (Deposit.bankTransactionId d));
        ("fundingInstructionId", js_of_opt (Deposit.fundingInstructionId d))].

Definition js_queue_settlement (s : PaykhSettlement.t) : jsval :=
  JObj [("id", JStr (PaykhSettlement.id s)); ("tenantId", JStr (PaykhSettlement.tenantId s));
        ("merchantId", JStr (PaykhSettlement.merchantId s)); ("amountMinor", js_big (PaykhSettlement.amountMinor s));
        ("currency", JStr (PaykhSettlement.currency s)); ("status", JStr (SettlementStatus_to_string (PaykhSettlement.status s)))].

Definition js_posting (p : LedgerPosting.t) : jsval :=
  JObj [("account", JStr (LedgerPosting.account p)); ("debitMinor", js_big (LedgerPosting.debitMinor p));
        ("creditMinor", js_big (LedgerPosting.creditMinor p))].

Record AuditFilter : Type := mkAuditFilter {
  af_subjectType : option string; af_action : option string; af_actor : option string; af_limit : option nat
}.

Definition audit_matches (f : AuditFilter) (l : AuditLog.t) : bool :=
  match truthy (af_subjectType f) with Some t => bool_decide (AuditLog.subjectType l = t) | None => true end &&
  match truthy (af_action f) with Some a => text_contains a (AuditLog.action l) | None => true end &&
  match truthy (af_actor f) with Some a => text_contains a (AuditLog.actor l) | None => true end.

Definition in_program (programId : string) (w : World) (p : LedgerPosting.t) : bool :=
  match tbl w TLedgerEntry !! LedgerPosting.entryId p with
  | Some e => bool_decide (LedgerEntry.programId e = programId)
  | None => false
  end.

(** One account of the groups, with its signed balance. *)
Definition trial_line (rows : list LedgerPosting.t) (acct : string) : outcome TrialLine :=
  let mine := where_rows (λ p, bool_decide (LedgerPosting.account p = acct)) rows in
  let debit := sumZ LedgerPosting.debitMinor mine in
  let credit := sumZ LedgerPosting.creditMinor mine in
  type ← ledgerAccountTypeOf acct;
  Ok (mkTrialLine acct type debit credit (if debit_positive type then debit - credit else credit - debit)).

Fixpoint trial_lines (rows : list LedgerPosting.t) (accts : list string) : outcome (list TrialLine) :=
  match accts with
  | [] => Ok []
  | a :: accts' => l ← trial_line rows a; ls ← trial_lines rows accts'; Ok (l :: ls)
  end.

Definition LedgerAccountType_to_string (t : LedgerAccountType) : string :=
  match t with
  | ASSET => "ASSET" | LIABILITY => "LIABILITY" | INCOME => "INCOME" | EXPENSE => "EXPENSE" | SUSPENSE => "SUSPENSE"
  end.

Definition js_trial_balance (tb : TrialBalance) : jsval :=
  JObj [("programId", JStr (tb_programId tb));
        ("accounts", JArr (map (λ l,
           JObj [("account", JStr (tl_account l)); ("type", JStr (LedgerAccountType_to_string (tl_type l)));
                 ("debitMinor", js_big (tl_debit l));
                 ("creditMinor", js_big (tl_credit l)); ("balanceMinor", js_big (tl_balance l))]) (tb_accounts tb)));
        ("totals", JObj [("debitMinor", js_big (tb_totalDebit tb)); ("creditMinor", js_big (tb_totalCredit tb));
                         ("balanced", JBool (tb_balanced tb))])].

Section operations.
Context `{RT : !Runtime} `{PC : !PrismaClient} (env : Env).

(** The four queries run together, in some order. *)
Definition queues : prog World jsval :=
  mints ← read (λ w, map (λ m, (m, approval_of w m))
    (take 100 (merge_sort (asc_by MintAuthorization.createdAt) (where_rows queue_mint (scan TMintAuthorization w)))));
  redemptions ← find_many_asc TRedemption queue_redemption Redemption.createdAt 100;
  deposits ← find_many_asc TDeposit queue_deposit Deposit.createdAt 100;
  settlements ← find_many_asc TPaykhSettlement queue_settlement PaykhSettlement.createdAt 100;
  mret (JObj [("mint", JArr (map js_queue_mint mints)); ("redemptions", JArr (map js_queue_redemption redemptions));
              ("deposits", JArr (map js_queue_deposit deposits)); ("settlements", JArr (map js_queue_settlement settlements));
              ("counts", JObj [("mint", JNum (Num (Z.of_nat (length mints))));
                               ("redemptions", JNum (Num (Z.of_nat (length redemptions))));
                               ("deposits", JNum (Num (Z.of_nat (length deposits))));
                               ("settlements", JNum (Num (Z.of_nat (length settlements))))])]).

(** [groupBy] returns the accounts in no particular order. *)
Definition trialBalance (programId : string) : prog World TrialBalance :=
  rows ← read (λ w, where_rows (in_program programId w) (scan TLedgerPosting w));
  lines ← lift (trial_lines rows (remove_dups (map LedgerPosting.account rows)));
  let totalDebit := sumZ tl_debit lines in
  let totalCredit := sumZ tl_credit lines in
  mret (mkTrialBalance programId lines totalDebit totalCredit (totalDebit =? totalCredit)).

Definition ledgerEntries (programId : string) (limit : nat) : prog World jsval :=
  entries ← read (λ w, map (λ e, (e, where_rows (λ p, bool_decide (LedgerPosting.entryId p = LedgerEntry.id e)) (scan TLedgerPosting w)))
    (take (Nat.min limit 200) (merge_sort (desc_by LedgerEntry.postedAt)
       (where_rows (λ e, bool_decide (LedgerEntry.programId e = programId)) (scan TLedgerEntry w)))));
  mret (JObj [("entries", JArr (map (λ ep : LedgerEntry.t * list LedgerPosting.t,
    let e := ep.1 in
    JObj [("id", JStr (LedgerEntry.id e)); ("description", JStr (LedgerEntry.description e));
          ("source", JStr (LedgerEntry.source e)); ("actor", JStr (LedgerEntry.actor e));
          ("reversalOf", js_of_opt (LedgerEntry.reversalOf e)); ("currency", JStr (LedgerEntry.currency e));
          ("postedAt", JStr (toISOString (LedgerEntry.postedAt e))); ("postings", JArr (map js_posting ep.2))]) entries))]).

Definition auditLogs (f : AuditFilter) : prog World jsval :=
  logs ← find_many_desc TAuditLog (audit_matches f) AuditLog.createdAt (Nat.min (default 100%nat (af_limit f)) 500);
  mret (JObj [("logs", JArr (map (λ l,
    JObj [("id", JStr (AuditLog.id l)); ("actor", JStr (AuditLog.actor l)); ("actorRole", js_of_opt (AuditLog.actorRole l));
          ("action", JStr (AuditLog.action l)); ("subjectType", JStr (AuditLog.subjectType l));
          ("subjectId", js_of_opt (AuditLog.subjectId l)); ("reason", js_of_opt (AuditLog.reason l));
          ("createdAt", JStr (toISOString (AuditLog.createdAt l)))]) logs))]).

Definition reserveReport (programId : string) : prog World jsval :=
  pos ← position programId;
  latest ← find_first_desc TReserveSnapshot (λ s, bool_decide (ReserveSnapshot.programId s = programId)) ReserveSnapshot.createdAt;
  program ← find_unique TProgram programId;
  program ← or_throw program (NotFoundException "Program not found");
  mret (JObj [("programId", JStr programId); ("code", JStr (Program.code program)); ("currency", JStr (rp_currency pos));
              ("eligibleReserveMinor", js_big (minor (rp_eligibleReserve pos)));
              ("reserveObligationMinor", js_big (minor (rp_reserveObligation pos)));
              ("requiredReserveMinor", js_big (minor (rp_requiredReserve pos)));
              ("mintCapacityMinor", js_big (minor (rp_mintCapacity pos)));
              ("surplusMinor", js_big (minor (rp_surplus pos)));
              ("reserveRatioBps", js_number_opt (rp_reserveRatioBps pos));
              ("liabilityAgeSeconds", js_number_opt (Num <$> rp_liabilityAgeSeconds pos));
              ("latestSnapshotAt", js_of_opt ((λ s, toISOString (ReserveSnapshot.createdAt s)) <$> latest))]).

Definition liabilityReport (programId : string) : prog World jsval :=
  latest ← find_first_desc TLiabilitySnapshot
    (λ s, bool_decide (LiabilitySnapshot.programId s = programId) && LiabilitySnapshot.signatureVerified s) LiabilitySnapshot.sequence;
  mret (match latest with
        | None => JObj [("programId", JStr programId); ("liability", JNull)]
        | Some l =>
            JObj [("programId", JStr programId);
                  ("liability", JObj [("assetCode", JStr (LiabilitySnapshot.assetCode l));
                     ("blockchainNetwork", JStr (LiabilitySnapshot.blockchainNetwork l));
                     ("circulatingMinor", js_big (LiabilitySnapshot.circulatingMinor l));
                     ("pendingMintMinor", js_big (LiabilitySnapshot.pendingMintMinor l));
                     ("pendingRedemptionMinor", js_big (LiabilitySnapshot.pendingRedemptionMinor l));
                     ("effectiveLiabilityMinor", js_big (LiabilitySnapshot.effectiveLiabilityMinor l));
                     ("currency", JStr (LiabilitySnapshot.currency l)); ("sequence", js_big (LiabilitySnapshot.sequence l));
                     ("snapshotTimestamp", JStr (toISOString (LiabilitySnapshot.snapshotTimestamp l)))])]
        end).

(** The runs with the number of their exceptions. *)
Definition reconciliationRuns (limit : nat) : prog World jsval :=
  runs ← read (λ w, map (λ r, (r, length (where_rows (λ e, bool_decide (ReconciliationException.runId e = ReconciliationRun.id r))
                                             (scan TReconciliationException w))))
    (take (Nat.min limit 200) (merge_sort (desc_by ReconciliationRun.createdAt) (scan TReconciliationRun w))));
  mret (JObj [("runs", JArr (map (λ rn : ReconciliationRun.t * nat,
    let r := rn.1 in
    JObj [("id", JStr (ReconciliationRun.id r)); ("scope", JStr (ReconciliationRun.scope r));
          ("programId", js_of_opt (ReconciliationRun.programId r)); ("tenantId", js_of_opt (ReconciliationRun.tenantId r));
          ("status", JStr (ReconciliationRun.status r)); ("exceptionCount", JNum (Num (Z.of_nat rn.2)));
          ("createdAt", JStr (toISOString (ReconciliationRun.createdAt r)))]) runs))]).

Definition attestations : prog World jsval :=
  l ← find_many_desc TAttestation (λ _, true) Attestation.createdAt 100;
  mret (JObj [("attestations", JArr (map (λ a,
    JObj [("id", JStr (Attestation.id a)); ("period", JStr (Attestation.period a)); ("scope", JStr (Attestation.scope a));
          ("status", JStr (Attestation.status a)); ("auditor", JStr (Attestation.auditor a));
          ("programId", js_of_opt (Attestation.programId a)); ("createdAt", JStr (toISOString (Attestation.createdAt a)))]) l))]).

Definition programs : prog World jsval :=
  l ← find_many TProgram (λ _, true);
  mret (JObj [("programs", JArr (map (λ p,
    JObj [("id", JStr (Program.id p)); ("code", JStr (Program.code p));
          ("referenceCurrency", JStr (Program.referenceCurrency p));
          ("status", JStr (ProgramStatus_to_string (Program.status p)))]) l))]).
End operations.

(** * The trial balance *)

Section trial.
Context `{PC : !PrismaClient}.

Lemma trial_lines_ok rows accts ls :
  trial_lines rows accts = Ok ls → map tl_account ls = accts ∧ ∀ l, l ∈ ls → trial_line rows (tl_account l) = Ok l.
Proof.
  revert ls. induction accts as [|a accts IH]; intros ls; cbn; [intros [= <-]; split; [done|]; intros l Hl; by apply not_elem_of_nil in Hl|].
  intros (l0 & H0 & (ls0 & H1 & [= <-])%outcome_bind_ok)%outcome_bind_ok. destruct (IH _ H1) as [E Hall].
  assert (tl_account l0 = a) as Ea by (unfold trial_line in H0; destruct (ledgerAccountTypeOf a); by simplify_eq/=).
  split; [cbn; congruence|]. intros l [->|Hl]%elem_of_cons; [by rewrite Ea|by apply Hall].
Qed.

(** A sum over rows, split by account. *)
Lemma sum_by_account (f : LedgerPosting.t → Z) rows accts :
  NoDup accts → (∀ p, p ∈ rows → LedgerPosting.account p ∈ accts) →
  sumZ (λ a, sumZ f (where_rows (λ p, bool_decide (LedgerPosting.account p = a)) rows)) accts = sumZ f rows.
Proof.
  intros HN. induction rows as [|p rows IH]; intros Hin; cbn [sumZ].
  - rewrite <- (sumZ_zero accts). by apply sumZ_ext.
  - rewrite <- IH by set_solver. clear IH.
    transitivity (sumZ (λ a, (if bool_decide (LedgerPosting.account p = a) then f p else 0) +
      sumZ f (where_rows (λ q, bool_decide (LedgerPosting.account q = a)) rows)) accts).
    { apply sumZ_ext. intros a _. unfold where_rows. rewrite filter_cons. case_bool_decide.
      - rewrite decide_True by done. done.
      - rewrite decide_False by done. done. }
    rewrite sumZ_add. f_equal.
    assert (LedgerPosting.account p ∈ accts) as Hp by set_solver. clear Hin. revert HN Hp.
    induction accts as [|a accts IH]; intros HN Hp; [set_solver|]. cbn [sumZ]. apply NoDup_cons in HN as [Ha HN].
    case_bool_decide as E.
    + subst a. rewrite (sumZ_ext _ (λ _, 0)), sumZ_zero; [lia|]. intros b Hb. rewrite bool_decide_false; [done|]. by intros <-.
    + rewrite IH; [lia|done|set_solver].
Qed.

(** Trial balance.  On a consistent stored ledger the trial balance of a
    program, when it is answered, balances.  It has one line for each account the
    program has a posting on, whose debits and credits are their sums; and for a
    program whose entries are in one currency, the balance of a line is the balance
    that the ledger service answers for the account. *)
Theorem trial_balance_sound programId w tb w' (Hok : ledger_ok w)
    (H : run (trialBalance programId) w = (Ok tb, w')) :
  w' = w ∧ tb_balanced tb = true ∧ NoDup (map tl_account (tb_accounts tb)) ∧
  (∀ k p, tbl w TLedgerPosting !! k = Some p → in_program programId w p = true →
     LedgerPosting.account p ∈ map tl_account (tb_accounts tb)) ∧
  ∀ c, (∀ k e, tbl w TLedgerEntry !! k = Some e → LedgerEntry.programId e = programId → LedgerEntry.currency e = c) →
    ∀ l, l ∈ tb_accounts tb → run (accountBalance programId (tl_account l) c) w = (Ok (money (tl_balance l) c), w).
Proof.
  unfold trialBalance in H. rewrite run_bind, run_read, run_bind, run_lift in H.
  set (rows := where_rows _ _) in *. destruct (trial_lines _ _) as [lines|] eqn:El; [|done].
  injection H as <- <-. destruct (trial_lines_ok _ _ _ El) as [Ea Hl]. cbn [tb_accounts tb_balanced].
  assert (∀ (f : LedgerPosting.t → Z) (g : TrialLine → Z), (∀ l, l ∈ lines →
    g l = sumZ f (where_rows (λ p, bool_decide (LedgerPosting.account p = tl_account l)) rows)) →
    sumZ g lines = sumZ f rows) as Hsum.
  { intros f g Hg. rewrite <- (sum_by_account f rows (map tl_account lines)).
    - change (map tl_account lines) with (tl_account <$> lines). rewrite sumZ_map. exact (sumZ_ext _ _ _ Hg).
    - rewrite Ea. apply NoDup_remove_dups.
    - rewrite Ea. intros p Hp. apply elem_of_remove_dups. by apply list_elem_of_fmap_2. }
  split_and!; [done| | | |].
  - rewrite (Hsum LedgerPosting.debitMinor), (Hsum LedgerPosting.creditMinor).
    + apply Z.eqb_eq. pose proof (subledger_net_zero w programId Hok) as E. rewrite (map_sum_ext _
        (λ p, if in_program programId w p then LedgerPosting.debitMinor p - LedgerPosting.creditMinor p else 0)) in E by done.
      rewrite <- (sumZ_where TLedgerPosting), sumZ_sub in E. apply Zminus_eq. exact E.
    + intros l Hin. specialize (Hl l Hin). unfold trial_line in Hl. destruct (ledgerAccountTypeOf _); [|done].
      apply (f_equal (λ o, match o with Ok x => tl_credit x | Err _ => 0 end)) in Hl. by rewrite <- Hl.
    + intros l Hin. specialize (Hl l Hin). unfold trial_line in Hl. destruct (ledgerAccountTypeOf _); [|done].
      apply (f_equal (λ o, match o with Ok x => tl_debit x | Err _ => 0 end)) in Hl. by rewrite <- Hl.
  - rewrite Ea. apply NoDup_remove_dups.
  - intros k p Hp Hin. rewrite Ea. apply elem_of_remove_dups, list_elem_of_fmap_2.
    apply elem_of_where. split; [done|]. apply (elem_of_scan TLedgerPosting). by exists k.
  - intros c Hc l Hin. specialize (Hl l Hin). unfold trial_line in Hl.
    destruct (ledgerAccountTypeOf (tl_account l)) as [t|] eqn:Et; [|done].
    rewrite (run_accountBalance _ _ _ _ t Et). do 3 f_equal. destruct l as [acct ty d cr b]. cbn [tl_account tl_balance] in *.
    injection Hl as _ _ _ <-.
    assert (sumZ (posting_delta (debit_positive t)) (where_rows (λ p, bool_decide (LedgerPosting.account p = acct)) rows)
            = ledger_balance w programId acct c) as <-.
    { unfold ledger_balance, rows, where_rows at 1. rewrite Et, sumZ_filter, (sumZ_where TLedgerPosting).
      apply map_sum_ext. intros k p _. unfold in_program, of_program.
      destruct (tbl w TLedgerEntry !! LedgerPosting.entryId p) as [e|] eqn:Ee; [|by rewrite andb_false_r].
      destruct (bool_decide_reflect (LedgerEntry.programId e = programId)) as [Ep|Ep]; cbn [andb]; [|by rewrite andb_false_r].
      rewrite (bool_decide_true (LedgerEntry.currency e = c)) by by apply (Hc _ e Ee). by rewrite andb_true_r. }
    unfold posting_delta. destruct (debit_positive t); by rewrite sumZ_sub.
Qed.
End trial.

(** * The property at a concrete ledger *)

Lemma trial_balance_sound_witness :
  ∃ w tb, run (@post ref_client sample_entry) empty_world = (Ok (fresh_key (∅ : gmap string LedgerEntry.t)), w) ∧
    run (@trialBalance ref_client (ref_programId (je_references sample_entry))) w = (Ok tb, w) ∧
    length (tb_accounts tb) = 2%nat ∧ tb_balanced tb = true.
Proof.
  destruct (run_is_ok (@post ref_client sample_entry) empty_world) as [eid Hp]; [vm_compute; reflexivity|].
  assert (eid = fresh_key (∅ : gmap string LedgerEntry.t)) as ->
    by (pose proof (f_equal fst Hp) as E; vm_compute in E; injection E as <-; reflexivity).
  set (w := (run (@post ref_client sample_entry) empty_world).2) in *.
  destruct (run_is_ok (@trialBalance ref_client (ref_programId (je_references sample_entry))) w) as [tb Ht]; [vm_compute; reflexivity|].
  assert (ledger_ok w) as Hok.
  { eapply ledger_ok_posted; [exact (run_post_ok _ _ _ _ Hp)| |apply ledger_ok_empty].
    eapply buildJournalEntry_valid. apply sample_entry_built. }
  destruct (@trial_balance_sound ref_client _ w tb _ Hok Ht) as (E & Hb & _). rewrite E in Ht.
  exists w, tb. split; [exact Hp|]. split; [exact Ht|]. split; [|exact Hb].
  pose proof (f_equal fst Ht) as Ef. vm_compute in Ef. injection Ef as <-. reflexivity.
Defined.
