(* ===== verification/Registry.v ===== *)
(** The controllers with queries of their own: the liability registry
    ([modules/registry/registry.controller.ts]), the programs
    ([modules/programs/programs.controller.ts]) and the published signing keys
    ([modules/system/system.controller.ts]). *)
From S2P Require Import Prelude.
From S2P Require Import Domain.
From S2P Require Import Prog.
From S2P Require Import Crypto.
From S2P Require Import Schema.
From S2P Require Import Prisma.
From S2P Require Import Infra.
From S2P Require Import LedgerService.
From S2P Require Import Invariant.
#[local] Open Scope string_scope.
#[local] Open Scope list_scope.
#[local] Open Scope Z_scope.

(** * The liability registry *)

Record CreateRegistryEntryDto : Type := mkCreateRegistryEntryDto {
  re_trusteeProgramId : string; re_platform : string; re_tenantId : option string;
  re_paykhProgramId : option string; re_paychainAssetId : option string; re_liabilityType : string;
  re_reserveAccountId : string; re_currency : string; re_requiredReserveBps : option Z;
  re_mintAuthorizationRequired : option bool; re_redemptionAuthorizationRequired : option bool
}.

Definition all_classifications : list FundClassification :=
  [NON_MONETARY_PROMOTIONAL_POINT; CLOSED_LOOP_LOYALTY_VALUE; BACKED_LOYALTY_STABLECOIN; MERCHANT_FUNDED_REWARD;
   PLATFORM_FUNDED_REWARD; CASHBACK_LIABILITY; GIFT_CARD_LIABILITY; CUSTOMER_SAFEGUARDED_FUNDS;
   MERCHANT_SETTLEMENT_PAYABLE; STABLE_VALUE_LIABILITY; FIAT_BACKED_STABLECOIN_LIABILITY; TOKENIZED_DEPOSIT_LIABILITY].

(** [backingPolicyFor] of an unchecked string: [undefined] when it names no class. *)
Definition policy_named (s : string) : option FundBackingPolicy :=
  backingPolicyFor <$> List.find (λ c, bool_decide (FundClassification_to_string c = s)) all_classifications.

Definition js_policy (p : FundBackingPolicy) : jsval :=
  JObj [("classification", JStr (FundClassification_to_string (classification p)));
        ("fiatBackingRequired", JBool (fiatBackingRequired p));
        ("requiredBackingBps", JNum (Num (requiredBackingBps p))); ("redeemable", JBool (redeemable p));
        ("transferable", JBool (transferable p)); ("authorizationRequired", JBool (authorizationRequired p))].

(** [dto.field ?? policy.field]: reading a field of an undefined policy throws. *)
Definition from_policy {A} (given : option A) (policy : option FundBackingPolicy) (field : FundBackingPolicy → A) :
    outcome A :=
  match given, policy with
  | Some a, _ => Ok a
  | None, Some p => Ok (field p)
  | None, None => Err (JsError "TypeError" "Cannot read properties of undefined")
  end.

Definition js_entry (e : LiabilityRegistryEntry.t) : jsval :=
  JObj [("id", JStr (LiabilityRegistryEntry.id e));
        ("trusteeProgramId", JStr (LiabilityRegistryEntry.trusteeProgramId e));
        ("platform", JStr (LiabilityRegistryEntry.platform e));
        ("tenantId", js_of_opt (LiabilityRegistryEntry.tenantId e));
        ("paykhProgramId", js_of_opt (LiabilityRegistryEntry.paykhProgramId e));
        ("paychainAssetId", js_of_opt (LiabilityRegistryEntry.paychainAssetId e));
        ("liabilityType", JStr (LiabilityRegistryEntry.liabilityType e));
        ("reserveAccountId", JStr (LiabilityRegistryEntry.reserveAccountId e));
        ("currency", JStr (LiabilityRegistryEntry.currency e));
        ("requiredReserveBps", JNum (Num (LiabilityRegistryEntry.requiredReserveBps e)));
        ("mintAuthorizationRequired", JBool (LiabilityRegistryEntry.mintAuthorizationRequired e));
        ("redemptionAuthorizationRequired", JBool (LiabilityRegistryEntry.redemptionAuthorizationRequired e));
        ("createdAt", JStr (toISOString (LiabilityRegistryEntry.createdAt e)))].

Section registry.
Context `{RT : !Runtime} `{PC : !PrismaClient} (env : Env).

Definition create_entry (dto : CreateRegistryEntryDto) : prog World jsval :=
  let policy := policy_named (re_liabilityType dto) in
  bps ← lift (from_policy (re_requiredReserveBps dto) policy requiredBackingBps);
  mint ← lift (from_policy (re_mintAuthorizationRequired dto) policy authorizationRequired);
  redeem ← lift (from_policy (re_redemptionAuthorizationRequired dto) policy authorizationRequired);
  entry ← create TLiabilityRegistryEntry (λ k t,
    {| LiabilityRegistryEntry.id := k; LiabilityRegistryEntry.trusteeProgramId := re_trusteeProgramId dto;
       LiabilityRegistryEntry.platform := re_platform dto; LiabilityRegistryEntry.tenantId := re_tenantId dto;
       LiabilityRegistryEntry.paykhProgramId := re_paykhProgramId dto;
       LiabilityRegistryEntry.paychainAssetId := re_paychainAssetId dto;
       LiabilityRegistryEntry.liabilityType := re_liabilityType dto;
       LiabilityRegistryEntry.reserveAccountId := re_reserveAccountId dto;
       LiabilityRegistryEntry.currency := re_currency dto; LiabilityRegistryEntry.requiredReserveBps := bps;
       LiabilityRegistryEntry.mintAuthorizationRequired := mint;
       LiabilityRegistryEntry.redemptionAuthorizationRequired := redeem; LiabilityRegistryEntry.createdAt := t |});
  mret (JObj [("id", JStr (LiabilityRegistryEntry.id entry));
              ("backingPolicy", match policy with Some p => js_policy p | None => JUndefined end)]).

Definition list_entries : prog World jsval :=
  entries ← find_many TLiabilityRegistryEntry (λ _, true);
  mret (JObj [("entries", JArr (map js_entry entries))]).

(** * Programs *)

Definition js_program_listed (p : Program.t) : jsval :=
  JObj [("id", JStr (Program.id p)); ("code", JStr (Program.code p)); ("assetId", JStr (Program.assetId p));
        ("referenceCurrency", JStr (Program.referenceCurrency p)); ("legalModel", JStr (Program.legalModel p));
        ("reservePolicy", JStr (Program.reservePolicy p));
        ("requiredRatioBps", JNum (Num (Program.requiredRatioBps p)));
        ("status", JStr (ProgramStatus_to_string (Program.status p)))].

Definition js_program (p : Program.t) : jsval :=
  JObj [("id", JStr (Program.id p)); ("code", JStr (Program.code p));
        ("legalEntityId", JStr (Program.legalEntityId p)); ("issuerId", JStr (Program.issuerId p));
        ("trusteeBankId", JStr (Program.trusteeBankId p)); ("assetId", JStr (Program.assetId p));
        ("referenceCurrency", JStr (Program.referenceCurrency p)); ("legalModel", JStr (Program.legalModel p));
        ("regulatoryStatus", JStr (Program.regulatoryStatus p)); ("reservePolicy", JStr (Program.reservePolicy p));
        ("requiredRatioBps", JNum (Num (Program.requiredRatioBps p)));
        ("safetyBufferBps", JNum (Num (Program.safetyBufferBps p)));
        ("agreementReferences", JArr (map JStr (Program.agreementReferences p)));
        ("effectiveDate", JStr (toISOString (Program.effectiveDate p)));
        ("expiryDate", js_of_opt (toISOString <$> Program.expiryDate p));
        ("status", JStr (ProgramStatus_to_string (Program.status p)));
        ("createdAt", JStr (toISOString (Program.createdAt p)))].

Definition list_programs : prog World jsval :=
  programs ← find_many TProgram (λ _, true);
  mret (JObj [("programs", JArr (map js_program_listed programs))]).

Definition get_program (id : string) : prog World jsval :=
  p ← find_unique TProgram id;
  mret (match p with Some p => js_program p | None => JNull end).

Definition program_status (id : string) : prog World jsval :=
  p ← find_unique TProgram id;
  mret (match p with
        | Some p => js_result (Program.id p) (ProgramStatus_to_string (Program.status p))
        | None => JNull
        end).

(** * The published keys *)

Definition SigningPurpose_to_string (p : SigningPurpose) : string :=
  match p with
  | API_AUTH => "API_AUTH" | REQUEST_SIGNING => "REQUEST_SIGNING" | RESPONSE_SIGNING => "RESPONSE_SIGNING"
  | MINT_AUTHORIZATION => "MINT_AUTHORIZATION" | RESERVE_SNAPSHOT => "RESERVE_SNAPSHOT" | ATTESTATION => "ATTESTATION"
  | WEBHOOK => "WEBHOOK" | DOCUMENT_HASH => "DOCUMENT_HASH"
  end.

Definition js_key (status : string) (e : SigningPurpose * SigningKey) : jsval :=
  JObj [("purpose", JStr (SigningPurpose_to_string (sk_purpose e.2))); ("keyId", JStr (sk_keyId e.2));
        ("publicKeyPem", JStr (publicKeyPem e.2)); ("status", JStr status)].

Definition allPublicKeys (sv : SigningService) : list jsval :=
  map (js_key "active") (keys sv) ++ map (js_key "superseded") (previousKeys sv).

Definition published_keys : prog World jsval := mret (JObj [("keys", JArr (allPublicKeys (signing env)))]).

Theorem keeps_create_entry dto : keeps_good (create_entry dto).
Proof. intros s Hs. unfold create_entry. cbv zeta. by safe_steps. Qed.
End registry.
