(* ===== verification/Boot.v ===== *)
(** Starting the API process: [config/configuration.ts], the checks and the
    middleware of [main.ts], and the signing keys that [infra/signing.service.ts]
    loads from the environment.

    [boot] is what must succeed before the process listens. *)
From Stdlib Require Import QArith_base.
From S2P Require Import Prelude.
From S2P Require Import Text.
From S2P Require Import Prog.
From S2P Require Import Crypto.
From S2P Require Import Credentials.
From S2P Require Import Infra.
From S2P Require Import Accounts.
From S2P Require Registry.
#[local] Open Scope string_scope.
#[local] Open Scope list_scope.
#[local] Open Scope Z_scope.

(** * Configuration *)

Record Urls : Type := mkUrls {
  trusteePublic : string; trusteeApi : string; trusteeOps : string; trusteeTreasury : string;
  trusteeCompliance : string; trusteeAudit : string; paychainPublic : string; paychainApi : string;
  paykhPublic : string; paykhApi : string
}.

Record PlatformConfig : Type := mkPlatformConfig {
  nodeEnv : string; port : option Q; urls : Urls; corsAllowedOrigins : list string;
  callbackPaychain : string; callbackPaykh : string; swaggerEnabled : bool
}.

Fixpoint comma_separated (l : list string) : string :=
  match l with [] => "" | [x] => x | x :: l' => x +:+ "," +:+ comma_separated l' end.

Section boot.
Context `{NC : !NodeCrypto} `{NA : !NodeAuth}.
(** [process.env] *)
Context (penv : string → option string).
(** [generateKeyPairSync('ed25519')] in PEM, private and public, of a purpose's key *)
Context (generated : SigningPurpose → string * string).

Definition error (message : string) : exn := JsError "Error" message.

(** [req(name, fallback)] *)
Definition req (name fallback : string) : outcome string :=
  let v := default fallback (penv name) in
  if bool_decide (v = "") then Err (error ("Missing required environment variable: " +:+ name)) else Ok v.

Definition loadConfig : outcome PlatformConfig :=
  trusteePublic ← req "TRUSTEE_PUBLIC_URL" "https://trustee.cambobia.com";
  trusteeApi ← req "TRUSTEE_API_URL" "https://api.trustee.cambobia.com";
  trusteeOps ← req "TRUSTEE_OPS_URL" "https://ops.trustee.cambobia.com";
  trusteeTreasury ← req "TRUSTEE_TREASURY_URL" "https://treasury.trustee.cambobia.com";
  trusteeCompliance ← req "TRUSTEE_COMPLIANCE_URL" "https://compliance.trustee.cambobia.com";
  trusteeAudit ← req "TRUSTEE_AUDIT_URL" "https://audit.trustee.cambobia.com";
  paychainPublic ← req "PAYCHAIN_PUBLIC_URL" "https://paychain.cambobia.com";
  paychainApi ← req "PAYCHAIN_API_URL" "https://api.paychain.cambobia.com";
  paykhPublic ← req "PAYKH_PUBLIC_URL" "https://paykh.cambobia.com";
  paykhApi ← req "PAYKH_API_URL" "https://api.paykh.cambobia.com";
  let origins := default (comma_separated [trusteePublic; trusteeOps; trusteeTreasury; trusteeCompliance; trusteeAudit;
                                           paychainPublic; paykhPublic]) (penv "CORS_ALLOWED_ORIGINS") in
  Ok {| nodeEnv := default "development" (penv "NODE_ENV");
        port := match penv "PORT" with Some s => to_number s | None => Some (3000 # 1)%Q end;
        urls := mkUrls trusteePublic trusteeApi trusteeOps trusteeTreasury trusteeCompliance trusteeAudit paychainPublic
                  paychainApi paykhPublic paykhApi;
        corsAllowedOrigins := filter (λ s, s ≠ "") (map trim (split_on "," origins));
        callbackPaychain := paychainApi +:+ "/api/v1/trustee/events";
        callbackPaykh := paykhApi +:+ "/api/v1/trustee/events";
        swaggerEnabled := bool_decide (default "true" (penv "SWAGGER_ENABLED") = "true") |}.

(** * Signing keys *)

(** Raw or base64 JSON. *)
Definition parse_keys (raw : string) : option jsval :=
  json_parse (if starts_with "{" (trim_start raw) then raw else base64_decode raw).

(** [parsed[purpose]] where it is truthy; reading a property of [null] throws. *)
Definition entry_of (parsed : jsval) (p : SigningPurpose) : outcome (option jsval) :=
  match parsed with
  | JNull | JUndefined => Err (JsError "TypeError" "Cannot read properties of null")
  | _ =>
      match js_field (Registry.SigningPurpose_to_string p) parsed with
      | JUndefined | JNull | JBool false | JStr "" => Ok None
      | JNum (Num 0) => Ok None
      | k => Ok (Some k)
      end
  end.

(** The fields are used as texts. *)
Definition key_of (p : SigningPurpose) (k : jsval) : SigningKey :=
  mkSigningKey (js_text (js_field "keyId" k)) p (js_text (js_field "privateKeyPem" k)) (js_text (js_field "publicKeyPem" k)).

Fixpoint active_keys (parsed : jsval) (ps : list SigningPurpose) : outcome (list (SigningPurpose * SigningKey)) :=
  match ps with
  | [] => Ok []
  | p :: ps' =>
      k ← entry_of parsed p;
      match k with
      | None => Err (error ("Missing signing key for purpose " +:+ Registry.SigningPurpose_to_string p))
      | Some k => ks ← active_keys parsed ps'; Ok ((p, key_of p k) :: ks)
      end
  end.

Fixpoint superseded_keys (parsed : jsval) (ps : list SigningPurpose) : outcome (list (SigningPurpose * SigningKey)) :=
  match ps with
  | [] => Ok []
  | p :: ps' =>
      k ← entry_of parsed p;
      ks ← superseded_keys parsed ps';
      Ok (match k with None => ks | Some k => (p, key_of p k) :: ks end)
  end.

(** [catch (err) { throw new Error(`Failed to load ...`) }] *)
Definition rethrown {A} (variable : string) (o : outcome A) : outcome A :=
  match o with Ok a => Ok a | Err _ => Err (error ("Failed to load " +:+ variable)) end.

Definition parsed_with {A} (variable raw : string) (f : jsval → outcome A) : outcome A :=
  rethrown variable (match parse_keys raw with Some parsed => f parsed | None => Err (JsError "SyntaxError" "JSON") end).

Definition loadPrevious : outcome (list (SigningPurpose * SigningKey)) :=
  match truthy (penv "TRUSTEE_SIGNING_KEYS_PREVIOUS") with
  | None => Ok []
  | Some raw => parsed_with "TRUSTEE_SIGNING_KEYS_PREVIOUS" raw (λ parsed, superseded_keys parsed all_purposes)
  end.

Definition generateSigningKey (keyId : string) (p : SigningPurpose) : SigningKey :=
  mkSigningKey keyId p (generated p).1 (generated p).2.

Definition generated_key (p : SigningPurpose) : SigningKey :=
  let name := Registry.SigningPurpose_to_string p in
  generateSigningKey (to_lower name +:+ "-" +:+ take_string 8 (sha256Hex name)) p.

Definition load_keys : outcome SigningService :=
  previous ← loadPrevious;
  match truthy (penv "TRUSTEE_SIGNING_KEYS") with
  | Some raw =>
      ks ← parsed_with "TRUSTEE_SIGNING_KEYS" raw (λ parsed, active_keys parsed all_purposes);
      Ok (mkSigningService ks previous)
  | None => Ok (mkSigningService (map (λ p, (p, generated_key p)) all_purposes) previous)
  end.

(** * [bootstrap] *)

Definition default_salt : string := "cambobia-trustee-pilot".

Definition refuse_default_salt (config : PlatformConfig) : outcome unit :=
  if bool_decide (nodeEnv config = "production") &&
     match truthy (penv "CLIENT_SECRET_SALT") with Some s => bool_decide (s = default_salt) | None => true end
  then Err (error "CLIENT_SECRET_SALT must be a non-default secret in production (found unset or the repo default)")
  else Ok tt.

Definition boot : outcome (PlatformConfig * SigningService) :=
  config ← loadConfig;
  _ ← refuse_default_salt config;
  signing ← load_keys;
  Ok (config, signing).

(** ** The pages of the API host *)

(** [docsPaths.some((re) => re.test(path))] *)
Definition docs_path (path : string) : bool :=
  bool_decide (path ∈ ["/"; "/developers"; "/developers/"; "/status"; "/status/"; "/docs"]) ||
  starts_with "/docs/" path || starts_with "/api/v1/openapi" path.

Inductive DocsDecision : Type := Next | Unavailable | Unauthorized.

Definition docsUser : string := default "" (penv "DOCS_ACCESS_USER").
Definition docsPass : string := default "" (penv "DOCS_ACCESS_PASSWORD").

(** The middleware, from [req.path] and the [authorization] header. *)
Definition docs_gate (path : string) (authorization : option string) : DocsDecision :=
  if negb (docs_path path) then Next
  else if bool_decide (docsPass = "") then Unavailable
  else
    let header := default "" authorization in
    if starts_with "Basic " header then
      let parts := split_on ":" (base64_decode (drop_string 6 header)) in
      if bool_decide (default "" (parts !! 0%nat) = docsUser) && bool_decide (default "" (parts !! 1%nat) = docsPass)
      then Next else Unauthorized
    else Unauthorized.

(** [filterPaths]: the paths of a client's contract. *)
Definition filterPaths (paths prefixes : list string) : list string :=
  filter (λ route, existsb (λ p, starts_with p route) prefixes = true) paths.
End boot.

(** * Correctness *)

Section sound.
Context `{NC : !NodeCrypto} `{NA : !NodeAuth}.

Lemma truthy_some o s : truthy o = Some s ↔ o = Some s ∧ s ≠ "".
Proof. destruct o as [x|]; cbn; [|naive_solver]. unfold truthy. case_bool_decide; naive_solver. Qed.

Lemma all_purposes_complete p : p ∈ all_purposes.
Proof. destruct p; apply (bool_decide_unpack _); vm_compute; exact I. Qed.

(** The active keys are one for each purpose, in order. *)
Lemma active_keys_spec parsed ps ks :
  active_keys parsed ps = Ok ks →
  Forall2 (λ p e, ∃ k, entry_of parsed p = Ok (Some k) ∧ e = (p, key_of p k)) ps ks.
Proof.
  revert ks. induction ps as [|p ps IH]; intros ks; cbn [active_keys]; [intros [= <-]; constructor|].
  unfold mbind, outcome_bind. destruct (entry_of parsed p) as [[k|]|e] eqn:E; [|done..].
  destruct (active_keys parsed ps) as [ks'|e]; [|done]. intros [= <-]. constructor; [by exists k|by apply IH].
Qed.

Lemma superseded_keys_spec parsed ps ks p k :
  superseded_keys parsed ps = Ok ks → p ∈ ps → entry_of parsed p = Ok (Some k) → (p, key_of p k) ∈ ks.
Proof.
  revert ks. induction ps as [|q ps IH]; intros ks; cbn [superseded_keys]; [by intros _ ?%not_elem_of_nil|].
  unfold mbind, outcome_bind. destruct (entry_of parsed q) as [o|e] eqn:E; [|done].
  destruct (superseded_keys parsed ps) as [ks'|e]; [|done]. intros [= <-] [->|Hp]%elem_of_cons Hk.
  - rewrite E in Hk. injection Hk as ->. left.
  - specialize (IH _ eq_refl Hp Hk). destruct o; [by right|done].
Qed.

(** Looking a purpose up in a list that has a key for each. *)
Lemma key_listed (f : SigningPurpose → SigningKey) ps ks prev p :
  Forall2 (λ p e, e = (p, f p)) ps ks → p ∈ ps → key (mkSigningService ks prev) p = Ok (f p).
Proof.
  unfold key. cbn [keys]. induction 1 as [|q e ps ks -> _ IH]; [by intros ?%not_elem_of_nil|].
  intros Hp. cbn [list_find]. cbn [fst]. destruct (decide (q = p)) as [->|Hne]; [done|].
  apply elem_of_cons in Hp as [->|Hp]; [done|]. specialize (IH Hp).
  by destruct (list_find (λ e : SigningPurpose * SigningKey, e.1 = p) ks) as [[i e]|].
Qed.

(** The key that a parsed secret holds for a purpose. *)
Definition parsed_key (parsed : jsval) (p : SigningPurpose) : SigningKey :=
  match entry_of parsed p with Ok (Some k) => key_of p k | _ => key_of p JNull end.

Lemma parsed_with_ok {A} variable raw (f : jsval → outcome A) a :
  parsed_with variable raw f = Ok a → ∃ parsed, parse_keys raw = Some parsed ∧ f parsed = Ok a.
Proof.
  unfold parsed_with, rethrown. destruct (parse_keys raw) as [parsed|]; [|done].
  destruct (f parsed) as [b|e] eqn:E; [|done]. intros [= <-]. by exists parsed.
Qed.

(** What [load_keys] returns: previous keys and, for every purpose, one active key. *)
Lemma load_keys_ok penv gen sv :
  load_keys penv gen = Ok sv →
  loadPrevious penv = Ok (previousKeys sv) ∧
  ∃ f, (∀ p, key sv p = Ok (f p) ∧ sk_purpose (f p) = p) ∧
    match truthy (penv "TRUSTEE_SIGNING_KEYS") with
    | Some raw => ∃ parsed, parse_keys raw = Some parsed ∧ f = parsed_key parsed ∧ ∀ p, ∃ k, entry_of parsed p = Ok (Some k)
    | None => f = generated_key gen
    end.
Proof.
  unfold load_keys, mbind, outcome_bind. destruct (loadPrevious penv) as [prev|e]; [|done].
  destruct (truthy (penv "TRUSTEE_SIGNING_KEYS")) as [raw|].
  - destruct (parsed_with _ raw _) as [ks|e] eqn:E; [|done]. intros [= <-]. split; [done|].
    apply parsed_with_ok in E as (parsed & Hparse & E). apply active_keys_spec in E.
    exists (parsed_key parsed). split.
    + intros p. split; [|unfold parsed_key; by destruct (entry_of parsed p) as [[]|]].
      apply (key_listed _ all_purposes); [|apply all_purposes_complete].
      eapply Forall2_impl; [exact E|]. intros q e (k & Hk & ->). unfold parsed_key. by rewrite Hk.
    + exists parsed. split_and!; [done..|]. intros p.
      pose proof (all_purposes_complete p) as [i Hi]%list_elem_of_lookup.
      destruct (Forall2_lookup_l _ _ _ _ _ E Hi) as (e & _ & k & Hk & _). by exists k.
  - intros [= <-]. split; [done|]. exists (generated_key gen). split; [|done]. intros p. split; [|done].
    apply (key_listed _ all_purposes); [|apply all_purposes_complete].
    repeat constructor.
Qed.

Lemma req_ok penv name fallback v : req penv name fallback = Ok v → v ≠ "".
Proof. unfold req. case_bool_decide; [done|]. by intros [= <-]. Qed.

(** Every URL of a loaded configuration is there. *)
Definition urls_present (u : Urls) : Prop :=
  Forall (λ s, s ≠ "") [trusteePublic u; trusteeApi u; trusteeOps u; trusteeTreasury u; trusteeCompliance u;
                        trusteeAudit u; paychainPublic u; paychainApi u; paykhPublic u; paykhApi u].

Lemma loadConfig_urls penv config : loadConfig penv = Ok config → urls_present (urls config).
Proof.
  unfold loadConfig, mbind, outcome_bind. intros H.
  repeat match type of H with
         | match ?o with _ => _ end = _ => let E := fresh "E" in destruct o eqn:E; [apply req_ok in E|discriminate H]
         end.
  injection H as <-. unfold urls_present. cbn. by repeat constructor.
Qed.

(** Claim C22 (a started process).  When the API process gets as far as listening, all
    of its URLs are set, it holds a key for every purpose (the start does not load
    the private key: signing for the purpose later succeeds exactly when Node can,
    with a signature under that key, and throws otherwise), and in production the
    salt that the initial passwords and secrets are derived from is one of its own;
    where a secret names the signing keys, they are those of the secret, which has
    an entry for every purpose. *)
Theorem boot_sound penv gen config sv (H : boot penv gen = Ok (config, sv)) :
  urls_present (urls config) ∧
  (∀ p, ∃ k, key sv p = Ok k ∧ sk_purpose k = p ∧
     ∀ payload s, sign sv p payload = Ok s ↔
       createPrivateKey (privateKeyPem k) = Ok tt ∧ keyId s = sk_keyId k ∧ algorithm s = "ed25519" ∧
       value s = ed_sign (privateKeyPem k) (canonicalize payload)) ∧
  (penv "NODE_ENV" = Some "production" → ∃ salt, penv "CLIENT_SECRET_SALT" = Some salt ∧ salt ≠ "" ∧ salt ≠ default_salt) ∧
  ∀ raw, penv "TRUSTEE_SIGNING_KEYS" = Some raw → raw ≠ "" →
    ∃ parsed, parse_keys raw = Some parsed ∧ ∀ p, ∃ k, entry_of parsed p = Ok (Some k) ∧ key sv p = Ok (key_of p k).
Proof.
  unfold boot, mbind, outcome_bind in H. destruct (loadConfig penv) as [c|e] eqn:Ec; [|done].
  destruct (refuse_default_salt penv c) as [[]|e] eqn:Es; [|done].
  destruct (load_keys penv gen) as [sv'|e] eqn:Ek; [|done]. injection H as -> ->.
  destruct (load_keys_ok _ _ _ Ek) as (_ & f & Hf & Hraw). split_and!.
  - by eapply loadConfig_urls.
  - intros p. exists (f p). destruct (Hf p) as [Hk Hpu]. split_and!; [done..|]. intros payload s.
    rewrite (sign_ok _ _ _ _ _ Hk). destruct s as [i a v]. cbn. naive_solver.
  - intros Hprod. assert (nodeEnv config = "production") as Hn.
    { clear -Ec Hprod. unfold loadConfig, mbind, outcome_bind in Ec.
      repeat match type of Ec with match ?o with _ => _ end = _ => destruct o; [|discriminate Ec] end.
      injection Ec as <-. cbn. by rewrite Hprod. }
    unfold refuse_default_salt in Es. rewrite (bool_decide_eq_true_2 _ Hn) in Es. cbn [andb] in Es.
    destruct (truthy (penv "CLIENT_SECRET_SALT")) as [s|] eqn:Et; [|done]. apply truthy_some in Et as [Et Hs].
    exists s. split_and!; [done..|]. intros ->. rewrite bool_decide_eq_true_2 in Es by done. done.
  - intros raw Hr Hne. rewrite (proj2 (truthy_some _ raw) (conj Hr Hne)) in Hraw.
    destruct Hraw as (parsed & Hp & -> & Hk). exists parsed. split; [done|]. intros p. destruct (Hk p) as [k Hk'].
    exists k. split; [done|]. rewrite (proj1 (Hf p)). unfold parsed_key. by rewrite Hk'.
Qed.

(** Rotation by restart.  A process that started with the keys of a secret
    signs an artifact; after a restart with any keys that has the old secret as
    [TRUSTEE_SIGNING_KEYS_PREVIOUS], the artifact still verifies, with its properties
    in any order. *)
Theorem rotation_by_restart penv gen penv' gen' raw sv sv' p payload payload' s
    (Hload : load_keys penv gen = Ok sv) (Hraw : penv "TRUSTEE_SIGNING_KEYS" = Some raw) (Hne : raw ≠ "")
    (Hload' : load_keys penv' gen' = Ok sv') (Hprev : penv' "TRUSTEE_SIGNING_KEYS_PREVIOUS" = Some raw)
    (Hpair : ∀ k, key sv p = Ok k → key_pair (privateKeyPem k) (publicKeyPem k))
    (Hwf : js_wf payload = true) (He : js_equiv payload payload') (Hs : sign sv p payload = Ok s) :
  verify sv' p payload' s = Ok true.
Proof.
  destruct (load_keys_ok _ _ _ Hload) as (_ & f & Hf & Hsecret).
  rewrite (proj2 (truthy_some _ raw) (conj Hraw Hne)) in Hsecret. destruct Hsecret as (parsed & Hp & -> & Hk).
  destruct (Hk p) as [k Hk']. destruct (Hf p) as [Hkey _].
  destruct (load_keys_ok _ _ _ Hload') as (Hprevious & f' & Hf' & _).
  unfold loadPrevious in Hprevious. rewrite (proj2 (truthy_some _ raw) (conj Hprev Hne)) in Hprevious.
  apply parsed_with_ok in Hprevious as (parsed' & Hp' & Hprevious). rewrite Hp in Hp'. injection Hp' as <-.
  pose proof (superseded_keys_spec _ _ _ p k Hprevious (all_purposes_complete p) Hk') as Hin.
  assert (parsed_key parsed p = key_of p k) as Epk by (unfold parsed_key; by rewrite Hk'). rewrite Epk in Hkey.
  unfold sign in Hs. rewrite Hkey in Hs.
  pose proof (verifyPayload_signPayload _ _ _ _ (Hpair _ Hkey) Hwf He Hs) as Hv.
  apply signPayload_ok in Hs as [_ Es].
  eapply (verify_candidate sv' p (key_of p k)); [apply Hf'| |by rewrite Es|exact Hv].
  apply list_elem_of_further. unfold superseded. apply list_elem_of_In, in_map_iff. exists (p, key_of p k). split; [done|].
  apply list_elem_of_In, list_elem_of_filter. done.
Qed.

(** ** The gate of the pages *)

(** A page of the API host is only shown for the configured name and password, and
    not at all without a password; every other path is let through. *)
Lemma docs_gate_next penv path authorization :
  docs_gate penv path authorization = Next ↔
  docs_path path = false ∨
  (docsPass penv ≠ "" ∧ ∃ credentials, authorization = Some ("Basic " +:+ credentials) ∧
     let parts := split_on ":" (base64_decode credentials) in
     default "" (parts !! 0%nat) = docsUser penv ∧ default "" (parts !! 1%nat) = docsPass penv).
Proof.
  unfold docs_gate. destruct (docs_path path); cbn [negb]; [|naive_solver].
  case_bool_decide as Hp; [naive_solver|].
  destruct (starts_with "Basic " (default "" authorization)) eqn:Eb.
  - assert (authorization = Some ("Basic " +:+ drop_string 6 (default "" authorization))) as Ea.
    { destruct authorization as [a|]; [|done]. cbn [default from_option] in *. f_equal. clear -Eb. unfold starts_with in Eb.
      repeat (destruct a as [|? a]; [done|]; cbn in Eb; apply andb_true_iff in Eb as [->%bool_decide_eq_true Eb]).
      reflexivity. }
    cbv zeta. split.
    + intros H. right. split; [done|]. eexists. split; [exact Ea|].
      destruct (bool_decide _ && bool_decide _) eqn:E in H; [|done].
      apply andb_true_iff in E as [H1%bool_decide_eq_true H2%bool_decide_eq_true]. done.
    + intros [?|(_ & c & -> & H1 & H2)]; [done|]. cbn [default from_option] in *.
      replace (drop_string 6 ("Basic " +:+ c)) with c by done. by rewrite !bool_decide_eq_true_2.
  - split; [done|]. intros [?|(_ & c & -> & _)]; [done|]. done.
Qed.

(** A password with a colon opens the pages to nobody: the text after the second
    colon of the credentials is dropped. *)
Lemma docs_password_colon penv path authorization :
  docs_path path = true → lacks ":" (docsPass penv) = false → docs_gate penv path authorization ≠ Next.
Proof.
  intros Hd Hc [?|(_ & c & _ & _ & Hpart)]%docs_gate_next; [congruence|]. cbv zeta in Hpart.
  assert (∀ s x, x ∈ split_on ":" s → lacks ":" x = true) as Hl.
  { induction s as [|a s IH]; intros x; [by intros ->%list_elem_of_singleton|]. cbn [split_on].
    destruct (Ascii.eqb a ":") eqn:Ea; [intros [->|Hx]%elem_of_cons; [done|by apply IH]|].
    destruct (split_on ":" s) as [|y l]; [intros ->%list_elem_of_singleton|intros [->|Hx]%elem_of_cons].
    - cbn [lacks]. by rewrite Ea.
    - cbn [lacks]. rewrite Ea. apply IH. left.
    - apply IH. by right. }
  destruct (split_on ":" (base64_decode c) !! 1%nat) as [x|] eqn:E; cbn in Hpart.
  - apply list_elem_of_lookup_2, Hl in E. congruence.
  - by rewrite <- Hpart in Hc.
Qed.

(** Express also takes [/DOCS] to the pages, and the middleware lets it through. *)
Lemma docs_case_variant penv authorization : docs_gate penv "/DOCS" authorization = Next.
Proof. done. Qed.
End sound.

(** * The properties at a concrete start *)

Definition toy_secret (n : string) : string :=
  default "" (json_stringify (JObj (map (λ p,
    (Registry.SigningPurpose_to_string p,
     JObj [("keyId", JStr n); ("privateKeyPem", JStr n); ("publicKeyPem", JStr n)])) all_purposes))).

Definition toy_penv (name : string) : option string :=
  if bool_decide (name = "NODE_ENV") then Some "production"
  else if bool_decide (name = "CLIENT_SECRET_SALT") then Some "a salt of our own"
  else if bool_decide (name = "TRUSTEE_SIGNING_KEYS") then Some (toy_secret "k1")
  else None.

(** After the rotation. *)
Definition toy_penv' (name : string) : option string :=
  if bool_decide (name = "TRUSTEE_SIGNING_KEYS") then Some (toy_secret "k2")
  else if bool_decide (name = "TRUSTEE_SIGNING_KEYS_PREVIOUS") then Some (toy_secret "k1")
  else toy_penv name.

Definition toy_generated (p : SigningPurpose) : string * string := ("priv", "pub").

Lemma is_ok_inv {A} (o : outcome A) : is_ok o = true → ∃ a, o = Ok a.
Proof. destruct o; [by eexists|done]. Qed.

Lemma boot_sound_witness :
  ∃ config sv, @boot toy_crypto toy_auth toy_penv toy_generated = Ok (config, sv) ∧
    ∃ k, key sv WEBHOOK = Ok k ∧ sk_purpose k = WEBHOOK.
Proof.
  destruct (is_ok_inv (@boot toy_crypto toy_auth toy_penv toy_generated)) as [[config sv] H]; [vm_compute; reflexivity|].
  exists config, sv. split; [exact H|].
  destruct (proj1 (proj2 (@boot_sound toy_crypto toy_auth toy_penv toy_generated config sv H)) WEBHOOK) as (k & Hk & Hp & _).
  exists k. split; [exact Hk|exact Hp].
Defined.

(** A [NodeCrypto] that loads what looks like a PEM. *)
Definition pem_crypto : NodeCrypto.
Proof.
  refine {| createPrivateKey := λ k, if starts_with "-----BEGIN" k then Ok tt else Err (JsError "Error" "DECODER");
            ed_sign := λ k m, k +:+ ":" +:+ m; ed_verify := λ k m s, bool_decide (s = k +:+ ":" +:+ m);
            key_pair := λ a b, a = b ∧ starts_with "-----BEGIN" a = true; sha256Hex := λ s, "h" +:+ s |}.
  - by intros ? ? [_ ->].
  - intros k ? m [<- _]. by apply bool_decide_true.
Defined.

(** A secret with an empty object for each purpose. *)
Definition empty_secret : string :=
  default "" (json_stringify (JObj (map (λ p, (Registry.SigningPurpose_to_string p, JObj [])) all_purposes))).

Definition empty_penv (name : string) : option string :=
  if bool_decide (name = "TRUSTEE_SIGNING_KEYS") then Some empty_secret else toy_penv name.

(** The process starts with it, and throws at its first signature. *)
Lemma boots_without_keys :
  ∃ config sv, @boot pem_crypto toy_auth empty_penv toy_generated = Ok (config, sv) ∧
    ∀ payload s, @sign pem_crypto sv MINT_AUTHORIZATION payload ≠ Ok s.
Proof.
  destruct (is_ok_inv (@boot pem_crypto toy_auth empty_penv toy_generated)) as [[config sv] H]; [vm_compute; reflexivity|].
  exists config, sv. split; [exact H|]. vm_compute in H. injection H as _ <-. intros payload s. vm_compute. discriminate.
Qed.

Lemma rotation_by_restart_witness :
  ∃ sv sv' s, @load_keys toy_crypto toy_auth toy_penv toy_generated = Ok sv ∧
    @load_keys toy_crypto toy_auth toy_penv' toy_generated = Ok sv' ∧
    @sign toy_crypto sv WEBHOOK (JObj [("a", JBig 1)]) = Ok s ∧
    @verify toy_crypto sv' WEBHOOK (JObj [("a", JBig 1)]) s = Ok true.
Proof.
  destruct (is_ok_inv (@load_keys toy_crypto toy_auth toy_penv toy_generated)) as [sv H]; [vm_compute; reflexivity|].
  destruct (is_ok_inv (@load_keys toy_crypto toy_auth toy_penv' toy_generated)) as [sv' H']; [vm_compute; reflexivity|].
  destruct (is_ok_inv (@sign toy_crypto sv WEBHOOK (JObj [("a", JBig 1)]))) as [s Hs].
  { vm_compute in H. injection H as <-. reflexivity. }
  exists sv, sv', s. split; [exact H|]. split; [exact H'|]. split; [exact Hs|].
  refine (@rotation_by_restart toy_crypto toy_auth toy_penv toy_generated toy_penv' toy_generated (toy_secret "k1") sv sv'
            WEBHOOK (JObj [("a", JBig 1)]) (JObj [("a", JBig 1)]) s H eq_refl _ H' eq_refl _ eq_refl _ Hs); [vm_compute; discriminate| |].
  - intros k Hk. vm_compute in H. injection H as <-. vm_compute in Hk. injection Hk as <-. reflexivity.
  - apply (equiv_obj _ [("a", JBig 1)]); [repeat constructor|reflexivity].
Defined.
