(* ===== verification/Stellar.v ===== *)
(** Decimal amounts on Stellar and the circulating supply read from Horizon:
    [packages/adapters/src/stellar-adapter.ts]. *)
From S2P Require Import Prelude.
From S2P Require Import Text.
From S2P Require Import Infra.
#[local] Open Scope string_scope.
#[local] Open Scope list_scope.
#[local] Open Scope Z_scope.

Definition minorToStellarAmount (minor decimals : Z) : outcome string :=
  if (decimals <? 0) || (7 <? decimals) then
    Err (JsError "Error" ("Unsupported decimals " +:+ big_to_string decimals +:+ " for Stellar amount (max 7)"))
  else
    let d := Z.to_nat decimals in
    let neg := minor <? 0 in
    let digits := pad_start0 (d + 1) (big_to_string (Z.abs minor)) in
    let cut := (String.length digits - d)%nat in
    let intPart := take_string cut digits in
    let fracPart := if 0 <? decimals then "." +:+ drop_string cut digits else "" in
    Ok ((if neg then "-" else "") +:+ intPart +:+ fracPart).

(** [s.replace('-', '')] removes the first dash. *)
Fixpoint remove_dash (s : string) : string :=
  match s with
  | EmptyString => ""
  | String a s' => if bool_decide (a = "-"%char) then s' else String a (remove_dash s')
  end.

(** The first two pieces of [s.split('.')], the second defaulting to [""]. *)
Fixpoint before_dot (s : string) : string :=
  match s with
  | EmptyString => ""
  | String a s' => if bool_decide (a = "."%char) then "" else String a (before_dot s')
  end.
Fixpoint after_dot (s : string) : string :=
  match s with
  | EmptyString => ""
  | String a s' => if bool_decide (a = "."%char) then before_dot s' else after_dot s'
  end.

Definition or_zero (s : string) : string := if bool_decide (s = "") then "0" else s.

Definition stellarAmountToMinor (amount : string) (decimals : Z) : outcome Z :=
  if decimals <? 0 then Err (JsError "RangeError" "Invalid count value")
  else
    let d := Z.to_nat decimals in
    let neg := starts_with "-" (trim amount) in
    let body := remove_dash amount in
    let frac := take_string d (after_dot body +:+ repeat_char "0" d) in
    i ← BigInt (or_zero (before_dot body));
    f ← BigInt (or_zero frac);
    let scaled := i * 10 ^ decimals + f in
    Ok (if neg then - scaled else scaled).

(** Everything held outside the issuer. *)
Definition circulating (r : HorizonAssetRecord) (decimals : Z) : outcome Z :=
  ofold (λ acc a, m ← stellarAmountToMinor a decimals; Ok (acc + m)) 0
    [authorized r; authorized_to_maintain_liabilities r; unauthorized r;
     default "0" (claimable_balances_amount r); default "0" (liquidity_pools_amount r);
     default "0" (contracts_amount r)].

(** [getSupply]: no record means nothing circulates. *)
Definition supply_of (record : option HorizonAssetRecord) (decimals : Z) : outcome Z :=
  match record with
  | Some r => circulating r decimals
  | None => Ok 0
  end.

Example stellar_examples :
  (minorToStellarAmount (-5) 2, minorToStellarAmount 123456 2, minorToStellarAmount 7 0,
   stellarAmountToMinor "12.3456789" 2, stellarAmountToMinor "-0.05" 2, stellarAmountToMinor ".5" 3) =
  (Ok "-0.05", Ok "1234.56", Ok "7", Ok 1234, Ok (-5), Ok 500).
Proof. vm_compute. reflexivity. Qed.

(** Digit strings hold neither dots nor dashes. *)
Lemma before_dot_digits s t :
  all_digits s = true → before_dot (s +:+ "." +:+ t) = s ∧ after_dot (s +:+ "." +:+ t) = before_dot t.
Proof.
  induction s as [|a s IH]; intros H; [done|].
  cbn in H. apply andb_true_iff in H as [Ha Hs]. destruct (IH Hs) as [IH1 IH2].
  assert (a ≠ "."%char) as Hne by by intros ->.
  change (String a s +:+ "." +:+ t) with (String a (s +:+ "." +:+ t)). cbn [before_dot after_dot].
  by rewrite bool_decide_false, IH1, IH2.
Qed.
Lemma before_dot_all s : all_digits s = true → before_dot s = s ∧ after_dot s = "".
Proof.
  induction s as [|a s IH]; intros H; [done|].
  cbn in H. apply andb_true_iff in H as [Ha Hs]. destruct (IH Hs) as [IH1 IH2].
  assert (a ≠ "."%char) as Hne by by intros ->. cbn. by rewrite bool_decide_false, IH1, IH2.
Qed.

(** * Round trip *)

Lemma no_dash_digits a s : is_digit a = true → a ≠ "-"%char ∧ is_space a = false ∧ starts_with "-" (String a s) = false.
Proof. intros H. split_and!; destruct a as [[] [] [] [] [] [] [] []]; try done; by destruct s. Qed.

Lemma trim_start_nonspace a s : is_space a = false → ∃ t, trim (String a s) = String a t.
Proof.
  intros H. unfold trim. cbn [trim_start]. rewrite H. cbn [trim_end].
  destruct (trim_end s); [rewrite H|]; by eexists.
Qed.

Lemma remove_dash_app t u : all_digits t = true → remove_dash (t +:+ u) = t +:+ remove_dash u.
Proof.
  induction t as [|a t IH]; intros Ht; [done|]. cbn in Ht. apply andb_true_iff in Ht as [Ha Ht].
  change (String a t +:+ u) with (String a (t +:+ u)). cbn [remove_dash].
  destruct (no_dash_digits a "" Ha) as (Hne & _). rewrite bool_decide_false by done.
  rewrite IH by done. done.
Qed.

Lemma remove_dash_digits t : all_digits t = true → remove_dash t = t.
Proof.
  induction t as [|a t IH]; intros Ht; [done|]. cbn in Ht. apply andb_true_iff in Ht as [Ha Ht].
  cbn [remove_dash]. destruct (no_dash_digits a "" Ha) as (Hne & _).
  rewrite bool_decide_false by done. by rewrite IH.
Qed.

(** The decimal body [ip] or [ip.fp] read back with [d] decimals. *)
Definition decimal_body (ip fp : string) : string := ip +:+ (if bool_decide (fp = "") then "" else "." +:+ fp).

Lemma decimal_body_parts ip fp :
  all_digits ip = true → all_digits fp = true →
  remove_dash (decimal_body ip fp) = decimal_body ip fp ∧
  before_dot (decimal_body ip fp) = ip ∧ after_dot (decimal_body ip fp) = fp.
Proof.
  intros Hi Hf. unfold decimal_body. case_bool_decide as E.
  - subst fp. rewrite string_app_nil. destruct (before_dot_all ip Hi) as [-> ->].
    by rewrite remove_dash_digits.
  - rewrite remove_dash_app by done. destruct (before_dot_digits ip fp Hi) as [-> ->].
    destruct (before_dot_all fp Hf) as [-> _]. split_and!; [|done|done]. f_equal.
    change (String "." (remove_dash fp) = String "." fp). by rewrite remove_dash_digits.
Qed.

Lemma stellarAmountToMinor_body (neg : bool) ip fp decimals :
  0 ≤ decimals → String.length fp = Z.to_nat decimals →
  all_digits ip = true → ip ≠ "" → all_digits fp = true →
  stellarAmountToMinor ((if neg then "-" else "") +:+ decimal_body ip fp) decimals =
  Ok (let v := digits_val 0 (ip +:+ fp) in if neg then - v else v).
Proof.
  intros Hd Hlen Hi Hne Hf. unfold stellarAmountToMinor.
  destruct (Z.ltb_spec decimals 0); [lia|].
  destruct (decimal_body_parts ip fp Hi Hf) as (H1 & H2 & H3).
  assert (remove_dash ((if neg then "-" else "") +:+ decimal_body ip fp) = decimal_body ip fp) as ->
    by by destruct neg.
  assert (starts_with "-" (trim ((if neg then "-" else "") +:+ decimal_body ip fp)) = neg) as ->.
  { destruct ip as [|a ip]; [done|]. cbn in Hi. apply andb_true_iff in Hi as [Ha _].
    destruct (no_dash_digits a "" Ha) as (Hda & Hsp & _).
    destruct neg.
    - destruct (trim_start_nonspace "-" (decimal_body (String a ip) fp) eq_refl) as [t Ht].
      change ("-" +:+ ?s) with (String "-" s). rewrite Ht. cbn. by destruct t.
    - destruct (trim_start_nonspace a (ip +:+ (if bool_decide (fp = "") then "" else "." +:+ fp)) Hsp) as [t Ht].
      change ("" +:+ decimal_body (String a ip) fp) with
        (String a (ip +:+ (if bool_decide (fp = "") then "" else "." +:+ fp))).
      rewrite Ht. cbn. by rewrite bool_decide_false. }
  cbv zeta. rewrite H2, H3, take_string_all by done.
  unfold or_zero. rewrite (bool_decide_false (ip = "")) by done. rewrite (BigInt_digits ip) by done.
  cbn [mbind outcome_bind].
  assert (BigInt (if bool_decide (fp = "") then "0" else fp) = Ok (digits_val 0 fp)) as ->.
  { case_bool_decide as E; [by subst fp|]. by apply BigInt_digits. }
  cbn [mbind outcome_bind]. rewrite digits_val_app, (digits_val_acc (digits_val 0 ip)), Hlen.
  rewrite Z2Nat.id by lia. done.
Qed.

(** Stellar amounts.  For every amount and every supported number of
    decimals, the decimal string sent to Stellar reads back as the same integer
    minor units; with an unsupported number of decimals the conversion throws. *)
Theorem stellar_amount_roundtrip (m d : Z) :
  match minorToStellarAmount m d with
  | Ok s => 0 ≤ d ≤ 7 ∧ stellarAmountToMinor s d = Ok m
  | Err _ => d < 0 ∨ 7 < d
  end.
Proof.
  unfold minorToStellarAmount.
  destruct ((d <? 0) || (7 <? d)) eqn:Hr; [lia|]. cbv zeta. split; [lia|].
  destruct (big_to_string_abs m) as [Hdig Hval].
  set (n := Z.to_nat d). set (digits := pad_start0 (n + 1) (big_to_string (Z.abs m))).
  assert (all_digits digits = true) as Hall.
  { unfold digits, pad_start0. by rewrite all_digits_app, all_digits_zeros, Hdig. }
  assert (digits_val 0 digits = Z.abs m) as Hv.
  { unfold digits, pad_start0. by rewrite digits_val_zeros. }
  assert (n < String.length digits)%nat as Hlen.
  { unfold digits, pad_start0. rewrite length_string_app, length_repeat_char. lia. }
  set (cut := (String.length digits - n)%nat).
  pose proof (take_drop_string cut digits) as Hsplit.
  rewrite <- Hsplit, all_digits_app in Hall. apply andb_true_iff in Hall as [Hi Hf].
  assert (String.length (drop_string cut digits) = n) as Hfl.
  { rewrite length_drop_string. unfold cut. lia. }
  assert (take_string cut digits ≠ "") as Hne.
  { intros E. pose proof (length_take_string cut digits) as Hl. rewrite E in Hl. cbn in Hl. unfold cut in Hl. lia. }
  assert (take_string cut digits +:+ (if 0 <? d then "." +:+ drop_string cut digits else "") =
          decimal_body (take_string cut digits) (drop_string cut digits)) as ->.
  { unfold decimal_body. f_equal. destruct (Z.ltb_spec 0 d) as [Hd|Hd].
    - rewrite bool_decide_false; [done|]. intros E. rewrite E in Hfl. cbn in Hfl. lia.
    - assert (n = 0%nat) as En by lia. rewrite En in Hfl.
      by destruct (drop_string cut digits). }
  rewrite stellarAmountToMinor_body by (done || lia).
  rewrite Hsplit, Hv. cbv zeta. f_equal. destruct (Z.ltb_spec m 0); lia.
Qed.
