(* ===== verification/Loyalty.v ===== *)
(** Program funds and the backed loyalty stablecoin
    ([apps/trustee-api/src/modules/paykh/program-funds.service.ts] and
    [loyalty.service.ts], [infra/issuance-gateway.service.ts]). *)
From S2P Require Import Prelude.
From S2P Require Import Money.
From S2P Require Import Domain.
From S2P Require Import Ledger.
From S2P Require Import Prog.
From S2P Require Import Crypto.
From S2P Require Import Schema.
From S2P Require Import Prisma.
From S2P Require Import Infra.
From S2P Require Import LedgerService.
From S2P Require Import Invariant.
From S2P Require Import Paykh.
From S2P Require Import Stellar.
#[local] Open Scope string_scope.
#[local] Open Scope list_scope.
#[local] Open Scope Z_scope.

(** * Program funds *)

Module Funds.

Record CreateProgramFund : Type := mkCreateProgramFund {
  tenantId : string; paykhProgramId : string; classification : FundClassification;
  currency : string; reserveAccountId : string; actor : string
}.

Definition available (f : PaykhProgramFund.t) : Z :=
  PaykhProgramFund.fundedMinor f - PaykhProgramFund.reservedMinor f.

Definition fund_refs (f : PaykhProgramFund.t) (actor : string) : JournalReferences :=
  {| ref_source := "paykh-fund:" +:+ PaykhProgramFund.id f; ref_programId := PaykhProgramFund.tenantId f;
     ref_assetId := PaykhProgramFund.paykhProgramId f; ref_actor := actor; ref_approvalRef := None;
     ref_correlationId := None |}.

Section funds.
Context `{RT : !Runtime} `{PC : !PrismaClient} (env : Env).

Definition require (fundId : string) : prog World PaykhProgramFund.t :=
  f ← find_unique TPaykhProgramFund fundId;
  or_throw f (NotFoundException ("Program fund " +:+ fundId +:+ " not found")).

Definition create_fund (input : CreateProgramFund) : prog World jsval :=
  fund ← create TPaykhProgramFund (λ k t,
    {| PaykhProgramFund.id := k; PaykhProgramFund.tenantId := tenantId input;
       PaykhProgramFund.paykhProgramId := paykhProgramId input;
       PaykhProgramFund.classification := classification input;
       PaykhProgramFund.currency := currency input;
       PaykhProgramFund.reserveAccountId := reserveAccountId input;
       PaykhProgramFund.fundedMinor := 0; PaykhProgramFund.reservedMinor := 0;
       PaykhProgramFund.status := "ACTIVE"; PaykhProgramFund.createdAt := t |});
  audit_record (with_after (JObj [("classification", JStr (FundClassification_to_string (classification input)))])
    (audited (actor input) "paykh.program_fund.created" "PAYKH_PROGRAM_FUND" (PaykhProgramFund.id fund)));;
  mret (JObj [("id", JStr (PaykhProgramFund.id fund));
              ("classification", JStr (FundClassification_to_string (PaykhProgramFund.classification fund)));
              ("status", JStr (PaykhProgramFund.status fund))]).

Definition fund (fundId amountMinor actor : string) : prog World jsval :=
  f ← require fundId;
  z ← lift (BigInt amountMinor);
  let amount := money z (PaykhProgramFund.currency f) in
  throw_if (minor amount <=? 0) (BadRequestException "Funding amount must be positive" []);;
  (if fiatBackingRequired (backingPolicyFor (PaykhProgramFund.classification f)) then
     entry ← lift (paykhProgramFundingEntry amount (fund_refs f actor));
     _ ← post entry;
     mret tt
   else mret tt);;
  updated ← update TPaykhProgramFund fundId
    (PaykhProgramFund.set_fundedMinor (PaykhProgramFund.fundedMinor f + minor amount));
  _ ← publishToPaykh env PROGRAM_FUND_CLEARED
        (JObj [("fundId", JStr fundId); ("fundedMinor", js_big (PaykhProgramFund.fundedMinor updated))]);
  mret (JObj [("id", JStr fundId); ("fundedMinor", js_big (PaykhProgramFund.fundedMinor updated))]).

Definition reserve (fundId amountMinor actor : string) : prog World jsval :=
  f ← require fundId;
  amount ← lift (BigInt amountMinor);
  throw_if (available f <? amount)
    (BadRequestException "Insufficient available program funding to reserve" []);;
  updated ← update TPaykhProgramFund fundId
    (PaykhProgramFund.set_reservedMinor (PaykhProgramFund.reservedMinor f + amount));
  audit_record (with_after (JObj [("reservedMinor", js_big (PaykhProgramFund.reservedMinor updated))])
    (audited actor "paykh.program_fund.reserved" "PAYKH_PROGRAM_FUND" fundId));;
  let remaining := available updated in
  (if remaining =? 0 then
     _ ← publishToPaykh env PROGRAM_FUND_EXHAUSTED (JObj [("fundId", JStr fundId)]);
     mret tt
   else mret tt);;
  mret (JObj [("id", JStr fundId); ("reservedMinor", js_big (PaykhProgramFund.reservedMinor updated));
              ("availableMinor", js_big remaining)]).

Definition release (fundId amountMinor actor : string) : prog World jsval :=
  f ← require fundId;
  amount ← lift (BigInt amountMinor);
  throw_if (PaykhProgramFund.reservedMinor f <? amount)
    (BadRequestException "Cannot release more than reserved" []);;
  updated ← update TPaykhProgramFund fundId
    (PaykhProgramFund.set_reservedMinor (PaykhProgramFund.reservedMinor f - amount));
  audit_record (audited actor "paykh.program_fund.released" "PAYKH_PROGRAM_FUND" fundId);;
  mret (JObj [("id", JStr fundId); ("reservedMinor", js_big (PaykhProgramFund.reservedMinor updated))]).

Definition get (fundId : string) : prog World jsval :=
  f ← require fundId;
  mret (JObj [("id", JStr (PaykhProgramFund.id f)); ("tenantId", JStr (PaykhProgramFund.tenantId f));
              ("paykhProgramId", JStr (PaykhProgramFund.paykhProgramId f));
              ("classification", JStr (FundClassification_to_string (PaykhProgramFund.classification f)));
              ("currency", JStr (PaykhProgramFund.currency f)); ("status", JStr (PaykhProgramFund.status f));
              ("fundedMinor", js_big (PaykhProgramFund.fundedMinor f));
              ("reservedMinor", js_big (PaykhProgramFund.reservedMinor f))]).

Definition balance (fundId : string) : prog World jsval :=
  f ← require fundId;
  mret (JObj [("id", JStr (PaykhProgramFund.id f));
              ("classification", JStr (FundClassification_to_string (PaykhProgramFund.classification f)));
              ("currency", JStr (PaykhProgramFund.currency f));
              ("fundedMinor", js_big (PaykhProgramFund.fundedMinor f));
              ("reservedMinor", js_big (PaykhProgramFund.reservedMinor f));
              ("availableMinor", js_big (available f))]).

Lemma keeps_require_fund i : keeps_good (require i).
Proof. intros s Hs. unfold require. safe_steps. Qed.

Lemma keeps_create_fund input : keeps_good (create_fund input).
Proof. intros s Hs. unfold create_fund. by safe_steps. Qed.

Lemma keeps_fund i a actor : keeps_good (fund i a actor).
Proof.
  intros s Hs. unfold fund. apply (safe_keeps good later); [done|apply keeps_require_fund|].
  intros f w HL Hg. do 2 safe_step. apply (safe_keeps good later); [done| |].
  - intros v1 Hv1. destruct (fiatBackingRequired _); [|done]. safe_rule. intros e He.
    apply safe_post; [by eapply (transfer_postable FundProgram)|done].
  - intros _ v1 HV1 HG1. by safe_steps.
Qed.

Lemma keeps_reserve i a actor : keeps_good (reserve i a actor).
Proof.
  intros s Hs. unfold reserve. apply (safe_keeps good later); [done|apply keeps_require_fund|].
  intros f w HL Hg. safe_steps; try done. cbv zeta.
  apply (safe_keeps good later); [done| |done].
  intros v1 Hv1. destruct (_ =? 0); [|done]. by safe_steps.
Qed.

Lemma keeps_release i a actor : keeps_good (release i a actor).
Proof.
  intros s Hs. unfold release. apply (safe_keeps good later); [done|apply keeps_require_fund|].
  intros f w HL Hg. by safe_steps.
Qed.
End funds.
End Funds.

(** * Loyalty stablecoin *)

Record BindLoyaltyInput : Type := mkBindLoyaltyInput {
  bl_programFundId : string; bl_decimals : option Z; bl_denominationMinor : option string;
  bl_stellarAssetCode : option string; bl_stellarIssuer : option string;
  bl_stellarDistributor : option string; bl_actor : string
}.

Record IssueLoyaltyInput : Type := mkIssueLoyaltyInput {
  il_liabilityId : string; il_customerRef : string; il_amountMinor : option string;
  il_units : option string; il_actor : string
}.

Record RedeemLoyaltyInput : Type := mkRedeemLoyaltyInput {
  rl_liabilityId : string; rl_merchantId : string; rl_customerRef : string;
  rl_amountMinor : option string; rl_units : option string; rl_actor : string
}.

(** The normalized result of the on-chain step. *)
Record ChainResult : Type := mkChainResult {
  ch_status : string; ch_executedBy : string; ch_paychainReference : option string;
  ch_onChainTxHash : option string
}.

Definition js_chain (c : ChainResult) : jsval :=
  JObj [("status", JStr (ch_status c)); ("executedBy", JStr (ch_executedBy c));
        ("paychainReference", js_undef (ch_paychainReference c));
        ("onChainTxHash", js_undef (ch_onChainTxHash c))].

Definition serialize (l : PaykhLoyaltyLiability.t) : jsval :=
  JObj [("id", JStr (PaykhLoyaltyLiability.id l)); ("tenantId", JStr (PaykhLoyaltyLiability.tenantId l));
        ("paykhProgramId", JStr (PaykhLoyaltyLiability.paykhProgramId l));
        ("programFundId", JStr (PaykhLoyaltyLiability.programFundId l));
        ("classification", JStr (FundClassification_to_string (PaykhLoyaltyLiability.classification l)));
        ("currency", JStr (PaykhLoyaltyLiability.currency l));
        ("pegCurrency", JStr (PaykhLoyaltyLiability.pegCurrency l));
        ("denominationMinor", js_big (PaykhLoyaltyLiability.denominationMinor l));
        ("decimals", JNum (Num (PaykhLoyaltyLiability.decimals l)));
        ("stellar", match truthy (PaykhLoyaltyLiability.stellarAssetCode l) with
                    | Some code => JObj [("assetCode", JStr code);
                                         ("issuer", js_of_opt (PaykhLoyaltyLiability.stellarIssuer l));
                                         ("distributor", js_of_opt (PaykhLoyaltyLiability.stellarDistributor l))]
                    | None => JNull
                    end);
        ("outstandingMinor", js_big (PaykhLoyaltyLiability.outstandingMinor l));
        ("issuedTotalMinor", js_big (PaykhLoyaltyLiability.issuedTotalMinor l));
        ("redeemedTotalMinor", js_big (PaykhLoyaltyLiability.redeemedTotalMinor l));
        ("onChainSupplyMinor", js_big (PaykhLoyaltyLiability.onChainSupplyMinor l));
        ("reconciliationStatus", JStr (PaykhLoyaltyLiability.reconciliationStatus l));
        ("status", JStr (PaykhLoyaltyLiability.status l))].

Definition loyalty_refs (source : string) (l : PaykhLoyaltyLiability.t) (actor : string) : JournalReferences :=
  {| ref_source := source +:+ PaykhLoyaltyLiability.id l;
     ref_programId := PaykhLoyaltyLiability.tenantId l;
     ref_assetId := default (PaykhLoyaltyLiability.paykhProgramId l) (PaykhLoyaltyLiability.stellarAssetCode l);
     ref_actor := actor; ref_approvalRef := None; ref_correlationId := None |}.

(** [resolveAmount]: from token units when given, else from minor units. *)
Definition resolveAmount (l : PaykhLoyaltyLiability.t) (amountMinor unitsStr : option string) :
    outcome (Money * option Z) :=
  match truthy unitsStr with
  | Some s =>
      units ← BigInt s;
      peg ← makePeg (PaykhLoyaltyLiability.pegCurrency l) (PaykhLoyaltyLiability.denominationMinor l);
      amount ← backingForUnits units peg;
      Ok (amount, Some units)
  | None =>
      match truthy amountMinor with
      | Some s => z ← BigInt s; Ok (money z (PaykhLoyaltyLiability.pegCurrency l), None)
      | None => Err (BadRequestException "Provide either units or amountMinor" [])
      end
  end.

Section loyalty.
Context `{RT : !Runtime} `{PC : !PrismaClient} (env : Env).

Definition require (liabilityId : string) : prog World PaykhLoyaltyLiability.t :=
  l ← find_unique TPaykhLoyaltyLiability liabilityId;
  or_throw l (NotFoundException ("Loyalty liability " +:+ liabilityId +:+ " not found")).

Definition bind_loyalty (input : BindLoyaltyInput) : prog World jsval :=
  f ← find_unique TPaykhProgramFund (bl_programFundId input);
  f ← or_throw f (NotFoundException ("Program fund " +:+ bl_programFundId input +:+ " not found"));
  throw_if (negb (fiatBackingRequired (backingPolicyFor (PaykhProgramFund.classification f))))
    (BadRequestException ("Classification " +:+
       FundClassification_to_string (PaykhProgramFund.classification f) +:+
       " is not fiat-backed; a loyalty stablecoin must be fully reserved") []);;
  existing ← find_first TPaykhLoyaltyLiability
    (λ l, bool_decide (PaykhLoyaltyLiability.programFundId l = PaykhProgramFund.id f));
  throw_if (bool_decide (is_Some existing))
    (ConflictException ("Program fund " +:+ PaykhProgramFund.id f +:+ " already has a loyalty stablecoin"));;
  denomination ← (match truthy (bl_denominationMinor input) with
                  | Some s => lift (BigInt s)
                  | None => mret 1
                  end);
  throw_if (denomination <=? 0) (BadRequestException "denominationMinor must be positive" []);;
  liability ← create TPaykhLoyaltyLiability (λ k t,
    {| PaykhLoyaltyLiability.id := k; PaykhLoyaltyLiability.tenantId := PaykhProgramFund.tenantId f;
       PaykhLoyaltyLiability.paykhProgramId := PaykhProgramFund.paykhProgramId f;
       PaykhLoyaltyLiability.programFundId := PaykhProgramFund.id f;
       PaykhLoyaltyLiability.classification := PaykhProgramFund.classification f;
       PaykhLoyaltyLiability.currency := PaykhProgramFund.currency f;
       PaykhLoyaltyLiability.pegCurrency := PaykhProgramFund.currency f;
       PaykhLoyaltyLiability.denominationMinor := denomination;
       PaykhLoyaltyLiability.decimals := default 2 (bl_decimals input);
       PaykhLoyaltyLiability.stellarAssetCode := bl_stellarAssetCode input;
       PaykhLoyaltyLiability.stellarIssuer := bl_stellarIssuer input;
       PaykhLoyaltyLiability.stellarDistributor := bl_stellarDistributor input;
       PaykhLoyaltyLiability.outstandingMinor := 0; PaykhLoyaltyLiability.issuedTotalMinor := 0;
       PaykhLoyaltyLiability.redeemedTotalMinor := 0; PaykhLoyaltyLiability.onChainSupplyMinor := 0;
       PaykhLoyaltyLiability.reconciliationStatus := "PENDING";
       PaykhLoyaltyLiability.lastReconciledAt := None; PaykhLoyaltyLiability.status := "ACTIVE";
       PaykhLoyaltyLiability.createdAt := t |});
  audit_record (with_after (JObj [("stellarAssetCode", js_of_opt (bl_stellarAssetCode input));
                                  ("denominationMinor", js_big denomination)])
    (audited (bl_actor input) "paykh.loyalty.bound" "PAYKH_LOYALTY_LIABILITY"
       (PaykhLoyaltyLiability.id liability)));;
  mret (serialize liability).

(** Sign the authorization and delegate execution to PayChain. *)
Definition authorizeOnChain (operation : string) (l : PaykhLoyaltyLiability.t) (amountMinor : string) :
    prog World ChainResult :=
  match truthy (PaykhLoyaltyLiability.stellarAssetCode l), truthy (PaykhLoyaltyLiability.stellarDistributor l) with
  | Some code, Some distributor =>
      u ← randomUUID;
      let reference := "paykh-loyalty-" +:+ to_lower operation +:+ ":" +:+
                       PaykhLoyaltyLiability.id l +:+ ":" +:+ u in
      sg ← lift (sign (signing env) MINT_AUTHORIZATION
        (JObj [("operation", JStr operation); ("assetCode", JStr code); ("destination", JStr distributor);
               ("amountMinor", JStr amountMinor); ("currency", JStr (PaykhLoyaltyLiability.pegCurrency l));
               ("reference", JStr reference)]));
      res ← execute_issuance env
        {| ier_operation := operation; ier_authorizationId := reference; ier_assetCode := code;
           ier_destination := distributor; ier_amountMinor := amountMinor;
           ier_decimals := PaykhLoyaltyLiability.decimals l;
           ier_currency := PaykhLoyaltyLiability.pegCurrency l; ier_reference := reference;
           ier_signature := Some sg |};
      let '(r, simulated) := res in
      mret {| ch_status := if simulated : bool then "ONCHAIN_SIMULATED"
                           else if accepted r then "ONCHAIN_CONFIRMED" else "ONCHAIN_FAILED";
              ch_executedBy := if simulated then "simulated" else "paychain";
              ch_paychainReference := paychainReference r; ch_onChainTxHash := onChainTxHash r |}
  | _, _ => mret (mkChainResult "OFFCHAIN" "offchain" None None)
  end.

Definition issue (input : IssueLoyaltyInput) : prog World jsval :=
  requireEnabled "paykh.loyalty.enabled";;
  liability ← require (il_liabilityId input);
  f ← find_unique TPaykhProgramFund (PaykhLoyaltyLiability.programFundId liability);
  f ← or_throw f (NotFoundException ("Program fund " +:+ PaykhLoyaltyLiability.programFundId liability +:+
                                     " not found"));
  au ← lift (resolveAmount liability (il_amountMinor input) (il_units input));
  let amount := fst au in
  let units := snd au in
  throw_if (minor amount <=? 0) (BadRequestException "Issuance amount must be positive" []);;
  throw_if (Funds.available f <? minor amount)
    (BadRequestException ("Insufficient safeguarded backing: available " +:+
       big_to_string (Funds.available f) +:+ ", requested " +:+ big_to_string (minor amount)) []);;
  entry ← lift (paykhLoyaltyIssuanceEntry amount
                  (loyalty_refs "paykh-loyalty-issue:" liability (il_actor input)));
  _ ← post entry;
  chain ← authorizeOnChain "ISSUE" liability (big_to_string (minor amount));
  issuance ← transaction (
    _ ← update TPaykhProgramFund (PaykhProgramFund.id f)
          (PaykhProgramFund.set_reservedMinor (PaykhProgramFund.reservedMinor f + minor amount));
    _ ← update TPaykhLoyaltyLiability (PaykhLoyaltyLiability.id liability) (λ l,
          PaykhLoyaltyLiability.set_outstandingMinor (PaykhLoyaltyLiability.outstandingMinor liability + minor amount)
            (PaykhLoyaltyLiability.set_issuedTotalMinor
               (PaykhLoyaltyLiability.issuedTotalMinor liability + minor amount) l));
    create TPaykhLoyaltyIssuance (λ k t,
      {| PaykhLoyaltyIssuance.id := k;
         PaykhLoyaltyIssuance.loyaltyLiabilityId := PaykhLoyaltyLiability.id liability;
         PaykhLoyaltyIssuance.customerRef := il_customerRef input; PaykhLoyaltyIssuance.units := units;
         PaykhLoyaltyIssuance.amountMinor := minor amount;
         PaykhLoyaltyIssuance.currency := PaykhLoyaltyLiability.pegCurrency liability;
         PaykhLoyaltyIssuance.status := ch_status chain;
         PaykhLoyaltyIssuance.paychainReference := ch_paychainReference chain;
         PaykhLoyaltyIssuance.onChainTxHash := ch_onChainTxHash chain;
         PaykhLoyaltyIssuance.actor := il_actor input; PaykhLoyaltyIssuance.createdAt := t |}));
  let js_units := js_of_opt (big_to_string <$> units) in
  audit_record (with_after (JObj [("amountMinor", js_big (minor amount)); ("units", js_units);
                                  ("paychainReference", js_undef (ch_paychainReference chain))])
    (audited (il_actor input) "paykh.loyalty.issued" "PAYKH_LOYALTY_ISSUANCE"
       (PaykhLoyaltyIssuance.id issuance)));;
  _ ← publishToPaykh env LOYALTY_ISSUED
        (JObj [("liabilityId", JStr (PaykhLoyaltyLiability.id liability));
               ("issuanceId", JStr (PaykhLoyaltyIssuance.id issuance));
               ("amountMinor", js_big (minor amount)); ("units", js_units);
               ("paychainReference", js_undef (ch_paychainReference chain));
               ("onChainTxHash", js_undef (ch_onChainTxHash chain));
               ("executedBy", JStr (ch_executedBy chain))]);
  mret (JObj [("issuanceId", JStr (PaykhLoyaltyIssuance.id issuance));
              ("liabilityId", JStr (PaykhLoyaltyLiability.id liability));
              ("amountMinor", js_big (minor amount)); ("units", js_units);
              ("currency", JStr (PaykhLoyaltyLiability.pegCurrency liability)); ("onChain", js_chain chain)]).

Definition redeem (input : RedeemLoyaltyInput) : prog World jsval :=
  requireEnabled "paykh.loyalty.enabled";;
  _ ← Merchants.requireActive (rl_merchantId input);
  liability ← require (rl_liabilityId input);
  au ← lift (resolveAmount liability (rl_amountMinor input) (rl_units input));
  let amount := fst au in
  let units := snd au in
  throw_if (minor amount <=? 0) (BadRequestException "Redemption amount must be positive" []);;
  throw_if (PaykhLoyaltyLiability.outstandingMinor liability <? minor amount)
    (BadRequestException ("Cannot redeem more than outstanding: outstanding " +:+
       big_to_string (PaykhLoyaltyLiability.outstandingMinor liability) +:+ ", requested " +:+
       big_to_string (minor amount)) []);;
  entry ← lift (paykhLoyaltyRedemptionEntry amount
                  (loyalty_refs "paykh-loyalty-redeem:" liability (rl_actor input)));
  _ ← post entry;
  chain ← authorizeOnChain "BURN" liability (big_to_string (minor amount));
  confirmedAt ← now;
  redemption ← transaction (
    _ ← update TPaykhLoyaltyLiability (PaykhLoyaltyLiability.id liability) (λ l,
          PaykhLoyaltyLiability.set_outstandingMinor (PaykhLoyaltyLiability.outstandingMinor liability - minor amount)
            (PaykhLoyaltyLiability.set_redeemedTotalMinor
               (PaykhLoyaltyLiability.redeemedTotalMinor liability + minor amount) l));
    create TPaykhLoyaltyRedemption (λ k t,
      {| PaykhLoyaltyRedemption.id := k;
         PaykhLoyaltyRedemption.loyaltyLiabilityId := PaykhLoyaltyLiability.id liability;
         PaykhLoyaltyRedemption.tenantId := PaykhLoyaltyLiability.tenantId liability;
         PaykhLoyaltyRedemption.merchantId := rl_merchantId input;
         PaykhLoyaltyRedemption.customerRef := rl_customerRef input;
         PaykhLoyaltyRedemption.amountMinor := minor amount;
         PaykhLoyaltyRedemption.currency := PaykhLoyaltyLiability.pegCurrency liability;
         PaykhLoyaltyRedemption.status := "CONFIRMED"; PaykhLoyaltyRedemption.settlementId := None;
         PaykhLoyaltyRedemption.paychainReference := ch_paychainReference chain;
         PaykhLoyaltyRedemption.onChainTxHash := ch_onChainTxHash chain;
         PaykhLoyaltyRedemption.actor := rl_actor input; PaykhLoyaltyRedemption.createdAt := t;
         PaykhLoyaltyRedemption.confirmedAt := Some confirmedAt |}));
  audit_record (with_after (JObj [("amountMinor", js_big (minor amount));
                                  ("merchantId", JStr (rl_merchantId input));
                                  ("paychainReference", js_undef (ch_paychainReference chain))])
    (audited (rl_actor input) "paykh.loyalty.redeemed" "PAYKH_LOYALTY_REDEMPTION"
       (PaykhLoyaltyRedemption.id redemption)));;
  _ ← publishToPaykh env LOYALTY_REDEEMED
        (JObj [("liabilityId", JStr (PaykhLoyaltyLiability.id liability));
               ("redemptionId", JStr (PaykhLoyaltyRedemption.id redemption));
               ("merchantId", JStr (rl_merchantId input)); ("amountMinor", js_big (minor amount));
               ("paychainReference", js_undef (ch_paychainReference chain));
               ("onChainTxHash", js_undef (ch_onChainTxHash chain))]);
  mret (JObj [("redemptionId", JStr (PaykhLoyaltyRedemption.id redemption));
              ("liabilityId", JStr (PaykhLoyaltyLiability.id liability));
              ("merchantId", JStr (rl_merchantId input)); ("amountMinor", js_big (minor amount));
              ("units", js_of_opt (big_to_string <$> units)); ("settlementRequired", JBool true);
              ("onChain", js_chain chain)]).

(** [readOnChainSupply]: [None] without a Horizon, else its supply in minor units. *)
Definition readOnChainSupply (assetCode issuer : string) (decimals : Z) : prog World (option Z) :=
  match truthy (process_env env "STELLAR_HORIZON_URL") with
  | None => mret None
  | Some url =>
      record ← action (λ w, (horizon_asset url assetCode issuer (calls w), set_calls (S (calls w)) w));
      z ← lift (supply_of record decimals);
      mret (Some z)
  end.

Record LoyaltyReconciliation : Type := mkLoyaltyReconciliation {
  lr_ledgerOutstanding : Z; lr_counterOutstanding : Z; lr_onChainSupply : option Z;
  lr_safeguardedBacking : option Z; lr_fullyBacked : option bool; lr_status : string; lr_asOf : string
}.

Definition reconcile (liabilityId : string) : prog World LoyaltyReconciliation :=
  liability ← require liabilityId;
  f ← find_unique TPaykhProgramFund (PaykhLoyaltyLiability.programFundId liability);
  ledgerOutstanding ← accountBalance (PaykhLoyaltyLiability.tenantId liability)
    LIABILITY_PAYKH_LOYALTY_STABLECOIN (PaykhLoyaltyLiability.pegCurrency liability);
  onChainSupply ← (match truthy (PaykhLoyaltyLiability.stellarAssetCode liability),
                         truthy (PaykhLoyaltyLiability.stellarIssuer liability) with
                   | Some code, Some issuer =>
                       readOnChainSupply code issuer (PaykhLoyaltyLiability.decimals liability)
                   | _, _ => mret None
                   end);
  let st := match onChainSupply with
            | Some z => if z =? minor ledgerOutstanding then "OK" else "DRIFT"
            | None => "OK"
            end in
  t ← now;
  updated ← update TPaykhLoyaltyLiability liabilityId (λ l,
    PaykhLoyaltyLiability.set_onChainSupplyMinor (default (minor ledgerOutstanding) onChainSupply)
      (PaykhLoyaltyLiability.set_reconciliationStatus st
         (PaykhLoyaltyLiability.set_lastReconciledAt (Some t) l)));
  _ ← publishToPaykh env (if bool_decide (st = "DRIFT") then LOYALTY_RESERVE_DRIFT else LOYALTY_RECONCILED)
        (JObj [("liabilityId", JStr liabilityId);
               ("ledgerOutstandingMinor", js_big (minor ledgerOutstanding));
               ("onChainSupplyMinor", js_of_opt (big_to_string <$> onChainSupply));
               ("status", JStr st)]);
  asOf ← nowIso;
  mret {| lr_ledgerOutstanding := minor ledgerOutstanding;
          lr_counterOutstanding := PaykhLoyaltyLiability.outstandingMinor updated;
          lr_onChainSupply := onChainSupply;
          lr_safeguardedBacking := PaykhProgramFund.fundedMinor <$> f;
          lr_fullyBacked := (λ f, PaykhLoyaltyLiability.outstandingMinor updated <=? PaykhProgramFund.fundedMinor f) <$> f;
          lr_status := st; lr_asOf := asOf |}.

Definition get (liabilityId : string) : prog World jsval := l ← require liabilityId; mret (serialize l).

Definition listLiabilities : prog World jsval :=
  rows ← read (λ w, merge_sort (desc_by PaykhLoyaltyLiability.createdAt) (scan TPaykhLoyaltyLiability w));
  mret (JObj [("liabilities", JArr (map serialize rows))]).
End loyalty.

(** ** Safety under interleaving and crashes *)

Section loyalty_safe.
Context `{RT : !Runtime} `{PC : !PrismaClient} (env : Env).

Lemma keeps_require_liability i : keeps_good (require i).
Proof. intros s Hs. unfold require. safe_steps. Qed.

Lemma keeps_authorizeOnChain op l a : keeps_good (authorizeOnChain env op l a).
Proof.
  intros s Hs. unfold authorizeOnChain.
  destruct (truthy _); [|done]. destruct (truthy _); [|done]. do 2 safe_step.
  apply (safe_keeps good later); [done| |].
  - intros w1 Hg1. unfold execute_issuance. destruct (truthy _); [|done].
    apply safe_call. intros. safe_steps.
  - intros [r sim] w1 HL1 Hg1. done.
Qed.

Lemma keeps_readOnChainSupply c i d : keeps_good (readOnChainSupply env c i d).
Proof.
  intros s Hs. unfold readOnChainSupply. destruct (truthy _); [|done].
  apply safe_call. intros. by safe_steps.
Qed.

(** The counters of a liability and of a fund may change; what is promised of
    their rows may not. *)
Lemma safe_loyalty_counters {B} i f (k : PaykhLoyaltyLiability.t → prog World B) Q s :
  (∀ r, loyalty_core (f r) = loyalty_core r) →
  (∀ w r, later s w → good w → safely (k r) Q w) →
  safely (update TPaykhLoyaltyLiability i f ≫= k) Q s.
Proof.
  intros Hf Hc. apply (safe_update TPaykhLoyaltyLiability); [safe_tables| | |naive_solver].
  - intros r. specialize (Hf r). cbn. destruct r, (f _); by injection Hf as.
  - intros w r HL Hg Hr. split; [cbn; by rewrite Hf|].
    pose proof (good_row w Hg TPaykhLoyaltyLiability _ _ Hr) as Hpos. cbn in Hpos |- *.
    specialize (Hf r). destruct r, (f _); injection Hf as; subst; done.
Qed.

Theorem keeps_bind_loyalty input : keeps_good (bind_loyalty input).
Proof.
  intros s Hs. unfold bind_loyalty. do 3 safe_step. safe_rule.
  2: { intros. safe_step. done. }
  intros v JL Hg. safe_step. apply (safe_keeps good later); [done| |].
  { intros v1 Hg1. destruct (truthy _); by safe_steps. }
  intros d v1 JL1 Hg1. safe_rule. intros Hd%Z.leb_gt. safe_rule.
  - intros. cbn. lia.
  - intros. safe_steps.
Qed.

Theorem keeps_issue input : keeps_good (issue env input).
Proof.
  intros s Hs. unfold issue. safe_step.
  apply (safe_keeps good later); [done|apply keeps_require_liability|]. intros l v1 JL1 Hg1.
  safe_step. safe_step. safe_step. safe_step. safe_step. safe_rule. intros e He.
  apply safe_post; [by eapply (transfer_postable IssueLoyalty)|]. intros v3 eid JL3 Hg3 _.
  apply (safe_keeps good later); [done|apply keeps_authorizeOnChain|]. intros ch v4 JL4 Hg4.
  apply (safe_transaction good later) with (λ _ _, True).
  - intros v5 JL5 Hg5. safe_rule; [intros; done|]. intros v6 r6 JL6 Hg6 _.
    apply safe_loyalty_counters; [done|]. intros v7 r7 JL7 Hg7.
    apply (safe_create_last TPaykhLoyaltyIssuance); [safe_tables|done|done].
  - intros r v5 JL5 Hg5 _. safe_steps.
Qed.

Theorem keeps_redeem input : keeps_good (redeem env input).
Proof.
  intros s Hs. unfold redeem. safe_step.
  apply (safe_keeps good later); [done|apply Merchants.keeps_requireActive|]. intros m v0 JL0 Hg0.
  apply (safe_keeps good later); [done|apply keeps_require_liability|]. intros l v1 JL1 Hg1.
  safe_step. safe_step. safe_step. safe_rule. intros e He.
  apply safe_post; [by eapply (transfer_postable RedeemLoyalty)|]. intros v3 eid JL3 Hg3 _.
  apply (safe_keeps good later); [done|apply keeps_authorizeOnChain|]. intros ch v4 JL4 Hg4.
  safe_rule. intros v5 JL5 Hg5.
  apply (safe_transaction good later) with (λ _ _, True).
  - intros v6 JL6 Hg6. apply safe_loyalty_counters; [done|]. intros v7 r7 JL7 Hg7.
    apply (safe_create_last TPaykhLoyaltyRedemption); [safe_tables|done|done].
  - intros r v6 JL6 Hg6 _. safe_steps.
Qed.

Theorem keeps_reconcile i : keeps_good (reconcile env i).
Proof.
  intros s Hs. unfold reconcile.
  apply (safe_keeps good later); [done|apply keeps_require_liability|]. intros l v1 JL1 Hg1.
  safe_step. safe_step. apply (safe_keeps good later); [done| |].
  { intros v2 Hg2. destruct (truthy _); [|done]. destruct (truthy _); [|done]. by apply keeps_readOnChainSupply. }
  intros sup v3 JL3 Hg3. cbv zeta. safe_rule. intros v4 JL4 Hg4.
  apply safe_loyalty_counters; [done|]. intros v5 r5 JL5 Hg5.
  unfold publishToPaykh. apply safe_publish_named; [done|]. intros. safe_steps.
Qed.
End loyalty_safe.
