(* ===== verification/Dto.v ===== *)
(** The request bodies: the DTO classes of the controllers ([*.dto.ts] and the
    classes beside the controllers) and the global validation pipe of [main.ts].

    A DTO is its properties with their decorators, and how a body is read as the
    argument of the service.  class-validator is a parameter: [check rule v] says
    whether the value [v] passes the decorator [rule], with what its documentation
    says of the type of a value that does.  Each property also carries the TypeScript
    type it is declared with, which the decorators may or may not check.  [validate] is the pipe with [whitelist]
    and [forbidNonWhitelisted]: every property of the body is declared, and every
    declared one passes its decorators, [IsOptional] ones when they are there. *)
From S2P Require Import Prelude.
From S2P Require Import Domain.
From S2P Require Import Crypto.
From S2P Require Import Accounts.
From S2P Require MintService.
From S2P Require Deposits.
From S2P Require Redemption.
From S2P Require Paykh.
From S2P Require Loyalty.
From S2P Require Registry.
#[local] Open Scope string_scope.
#[local] Open Scope list_scope.
#[local] Open Scope Z_scope.

(** * Validation *)

Inductive Rule : Type :=
| IsString | IsNotEmpty | IsNumberString | IsDateString | IsInt | IsPositive | IsBoolean
| IsArray | ArrayNotEmpty | EachIsString | Length (min max : nat).

Class Validators : Type := {
  check : Rule → jsval → bool;
  check_string v : check IsString v = true → ∃ s, v = JStr s;
  check_number_string v : check IsNumberString v = true → ∃ s, v = JStr s;
  check_date_string v : check IsDateString v = true → ∃ s, v = JStr s;
  check_int v : check IsInt v = true → ∃ z, v = JNum (Num z);
  check_boolean v : check IsBoolean v = true → ∃ b, v = JBool b;
  check_array v : check IsArray v = true → ∃ l, v = JArr l;
  check_each_string l : check EachIsString (JArr l) = true → Forall (λ v, ∃ s, v = JStr s) l
}.

(** The TypeScript types that the properties are declared with. *)
Inductive TsType : Type := TsString | TsStrings | TsNumber | TsBoolean | TsFundClassification.

#[export] Instance TsType_eq_dec : EqDecision TsType.
Proof. solve_decision. Defined.

Definition has_type (ty : TsType) (v : jsval) : Prop :=
  match ty with
  | TsString => ∃ s, v = JStr s
  | TsStrings => ∃ l, v = JArr (map JStr l)
  | TsNumber => ∃ n, v = JNum n
  | TsBoolean => ∃ b, v = JBool b
  | TsFundClassification => ∃ c, v = JStr (FundClassification_to_string c)
  end.

(** A property: its name, its declared type, whether it is optional, its decorators. *)
Record Field : Type := mkField { f_name : string; f_type : TsType; f_optional : bool; f_rules : list Rule }.

Definition field (name : string) (ty : TsType) (rules : list Rule) : Field := mkField name ty false rules.
Definition IsOptional (f : Field) : Field := mkField (f_name f) (f_type f) true (f_rules f).

(** A DTO class of the source and the type of the argument it is. *)
Record Dto (A : Type) : Type := mkDto { fields : list Field; read : jsval → option A }.
Arguments mkDto {_} _ _.
Arguments fields {_} _.
Arguments read {_} _ _.

Section validation.
Context `{V : !Validators}.

Definition absent (v : jsval) : bool := match v with JUndefined | JNull => true | _ => false end.

Definition field_ok (body : jsval) (f : Field) : bool :=
  let v := js_field (f_name f) body in
  (f_optional f && absent v) || forallb (λ r, check r v) (f_rules f).

Definition validate (fs : list Field) (body : jsval) : bool :=
  match body with
  | JObj kvs => forallb (λ kv, bool_decide (kv.1 ∈ map f_name fs)) kvs && forallb (field_ok body) fs
  | _ => false
  end.
End validation.

(** * Reading *)

Definition text (k : string) (body : jsval) : option string :=
  match js_field k body with JStr s => Some s | _ => None end.
Definition opt {A} (f : jsval → option A) (k : string) (body : jsval) : option (option A) :=
  let v := js_field k body in if absent v then Some None else a ← f v; Some (Some a).
Definition as_text (v : jsval) : option string := match v with JStr s => Some s | _ => None end.
Definition as_int (v : jsval) : option Z := match v with JNum (Num z) => Some z | _ => None end.
Definition as_bool (v : jsval) : option bool := match v with JBool b => Some b | _ => None end.
Definition texts (k : string) (body : jsval) : option (list string) :=
  match js_field k body with JArr l => mapM as_text l | _ => None end.

Definition name (k : string) : Field := field k TsString [IsString; IsNotEmpty].
(** A property typed [FundClassification], and decorated as a name. *)
Definition classified (k : string) : Field := field k TsFundClassification [IsString; IsNotEmpty].
Definition amount (k : string) : Field := field k TsString [IsNumberString].
Definition currency_code (k : string) : Field := field k TsString [IsString; Length 3 3].
Definition opt_string (k : string) : Field := IsOptional (field k TsString [IsString]).

(** One or two names, the body of many commands. *)
Definition one_name (k : string) : Dto string := mkDto [name k] (text k).
Definition two_names (k k' : string) : Dto (string * string) :=
  mkDto [name k; name k'] (λ b, x ← text k b; y ← text k' b; Some (x, y)).

(** * The DTO classes *)

(** ** [mint.dto.ts] *)

Definition RequestMintAuthorizationDto : Dto MintService.RequestMintAuthorization :=
  mkDto [name "programId"; name "paychainRequestId"; amount "amountMinor";
         field "fundingDepositIds" TsStrings [IsArray; ArrayNotEmpty; EachIsString]; opt_string "tenantId"; opt_string "destination"]
    (λ b, programId ← text "programId" b; paychainRequestId ← text "paychainRequestId" b; amountMinor ← text "amountMinor" b;
          fundingDepositIds ← texts "fundingDepositIds" b; tenantId ← opt as_text "tenantId" b;
          destination ← opt as_text "destination" b;
          Some (MintService.mkRequestMintAuthorization programId paychainRequestId amountMinor fundingDepositIds tenantId destination)).

Definition ReviewMintDto : Dto string := one_name "makerId".
Definition ApproveMintDto : Dto (string * string) := two_names "checkerId" "reason".
Definition RevokeMintDto : Dto (string * string) := two_names "actor" "reason".

Definition ConfirmMintDto : Dto MintService.ConfirmMintInput :=
  mkDto [name "paychainTransactionId"; name "blockchainTxHash"; amount "amountMinor"; name "destination";
         IsOptional (amount "ledgerHeight"); field "confirmedAt" TsString [IsDateString]; name "paychainSignature"; name "actor"]
    (λ b, paychainTransactionId ← text "paychainTransactionId" b; blockchainTxHash ← text "blockchainTxHash" b;
          amountMinor ← text "amountMinor" b; destination ← text "destination" b; ledgerHeight ← opt as_text "ledgerHeight" b;
          confirmedAt ← text "confirmedAt" b; paychainSignature ← text "paychainSignature" b; actor ← text "actor" b;
          Some (MintService.mkConfirmMintInput paychainTransactionId blockchainTxHash amountMinor destination ledgerHeight
                  confirmedAt paychainSignature actor)).

(** ** [funding.dto.ts], [deposits.dto.ts] *)

Definition CreateFundingInstructionDto : Dto Deposits.Funding.CreateFundingInstruction :=
  mkDto [name "programId"; name "paychainRequestId"; name "assetId"; name "depositor"; opt_string "expectedPayer";
         name "beneficiaryAccountId"; amount "amountMinor"; currency_code "currency"; name "permittedMethod";
         IsOptional (field "ttlSeconds" TsNumber [IsInt; IsPositive]); name "actor"]
    (λ b, programId ← text "programId" b; paychainRequestId ← text "paychainRequestId" b; assetId ← text "assetId" b;
          depositor ← text "depositor" b; expectedPayer ← opt as_text "expectedPayer" b;
          beneficiaryAccountId ← text "beneficiaryAccountId" b; amountMinor ← text "amountMinor" b;
          currency ← text "currency" b; permittedMethod ← text "permittedMethod" b; ttlSeconds ← opt as_int "ttlSeconds" b;
          actor ← text "actor" b;
          Some (Deposits.Funding.mkCreateFundingInstruction programId paychainRequestId assetId depositor expectedPayer
                  beneficiaryAccountId amountMinor currency permittedMethod ttlSeconds actor)).

Definition RegisterDepositDto : Dto Deposits.RegisterDeposit :=
  mkDto [name "programId"; name "trusteeAccountId"; name "bankTransactionId"; amount "amountMinor"; currency_code "currency";
         opt_string "payerName"; opt_string "paymentReference"; field "transactionDate" TsString [IsDateString]; name "actor"]
    (λ b, programId ← text "programId" b; trusteeAccountId ← text "trusteeAccountId" b;
          bankTransactionId ← text "bankTransactionId" b; amountMinor ← text "amountMinor" b; currency ← text "currency" b;
          payerName ← opt as_text "payerName" b; paymentReference ← opt as_text "paymentReference" b;
          transactionDate ← text "transactionDate" b; actor ← text "actor" b;
          Some (Deposits.mkRegisterDeposit programId trusteeAccountId bankTransactionId amountMinor currency payerName
                  paymentReference transactionDate actor)).

Definition MatchDepositDto : Dto (string * string) := two_names "fundingInstructionId" "actor".
Definition ClearDepositDto : Dto string := one_name "actor".

(** ** [redemption.controller.ts] *)

Definition RequestRedemptionDto : Dto Redemption.RequestRedemption :=
  mkDto [name "programId"; name "paychainRedemptionId"; amount "amountMinor"; name "beneficiaryName";
         name "beneficiaryAccountMasked"; opt_string "correlationId"]
    (λ b, programId ← text "programId" b; paychainRedemptionId ← text "paychainRedemptionId" b;
          amountMinor ← text "amountMinor" b; beneficiaryName ← text "beneficiaryName" b;
          beneficiaryAccountMasked ← text "beneficiaryAccountMasked" b; correlationId ← opt as_text "correlationId" b;
          Some (Redemption.mkRequestRedemption programId paychainRedemptionId amountMinor beneficiaryName
                  beneficiaryAccountMasked correlationId)).

Definition ConfirmBurnDto : Dto (string * string) := two_names "burnTxHash" "actor".
Definition ActorReasonDto : Dto (string * option string) :=
  mkDto [name "actor"; opt_string "reason"] (λ b, actor ← text "actor" b; reason ← opt as_text "reason" b; Some (actor, reason)).
Definition ApproveRedemptionDto : Dto (string * string) := two_names "approverId" "reason".

(** ** [reserve-bank.controller.ts] *)

Record AddAdjustmentInput : Type := mkAddAdjustmentInput {
  aa_kind : string; aa_amountMinor : string; aa_reason : option string; aa_actor : string
}.
Definition AddAdjustmentDto : Dto AddAdjustmentInput :=
  mkDto [name "kind"; amount "amountMinor"; opt_string "reason"; name "actor"]
    (λ b, kind ← text "kind" b; amountMinor ← text "amountMinor" b; reason ← opt as_text "reason" b; actor ← text "actor" b;
          Some (mkAddAdjustmentInput kind amountMinor reason actor)).

Definition ActorBodyDto : Dto string := one_name "actor".

Record RegisterBankInput : Type := mkRegisterBankInput {
  rb_bankId : string; rb_bankLegalName : string; rb_country : option string; rb_integrationMode : option string;
  rb_baseUrl : option string; rb_authTokenEnv : option string; rb_actor : string
}.
Definition RegisterBankDto : Dto RegisterBankInput :=
  mkDto [name "bankId"; name "bankLegalName"; opt_string "country"; opt_string "integrationMode"; opt_string "baseUrl";
         opt_string "authTokenEnv"; name "actor"]
    (λ b, bankId ← text "bankId" b; bankLegalName ← text "bankLegalName" b; country ← opt as_text "country" b;
          integrationMode ← opt as_text "integrationMode" b; baseUrl ← opt as_text "baseUrl" b;
          authTokenEnv ← opt as_text "authTokenEnv" b; actor ← text "actor" b;
          Some (mkRegisterBankInput bankId bankLegalName country integrationMode baseUrl authTokenEnv actor)).

Definition SetAccountBankDto : Dto (option string * option string) :=
  mkDto [opt_string "bankId"; IsOptional (amount "mockClearedMinor")]
    (λ b, bankId ← opt as_text "bankId" b; mockClearedMinor ← opt as_text "mockClearedMinor" b; Some (bankId, mockClearedMinor)).

(** ** [reconciliation.controller.ts], [operations.controller.ts], [attestation.controller.ts] *)

Definition ProgramReconDto : Dto (string * string) := two_names "programId" "actor".
Definition TenantReconDto : Dto (string * string) := two_names "tenantId" "actor".
Definition OperationsActorDto : Dto string := one_name "actor".
Definition OperationsApproveSettlementDto : Dto string := one_name "checkerId".
Definition AttestationActorDto : Dto string := one_name "actor".

(** ** [auth.controller.ts] *)

Definition LoginDto : Dto (string * string * option string) :=
  mkDto [name "email"; name "password"; opt_string "code"]
    (λ b, email ← text "email" b; password ← text "password" b; code ← opt as_text "code" b; Some (email, password, code)).
Definition CodeDto : Dto string := one_name "code".
Definition ChangePasswordDto : Dto (string * string) := two_names "currentPassword" "newPassword".
Definition ForgotPasswordDto : Dto string := one_name "email".
Definition ResetPasswordDto : Dto (string * string) := two_names "token" "newPassword".

(** ** [paykh.dto.ts] *)

Definition SubmitPaymentProfileDto (tenantId : string) : Dto Paykh.Profiles.SubmitPaymentProfile :=
  mkDto [name "recipientName"; name "recipientAccountMasked"; name "bankName"; currency_code "currency"; name "khqrPayload";
         name "actor"]
    (λ b, recipientName ← text "recipientName" b; recipientAccountMasked ← text "recipientAccountMasked" b;
          bankName ← text "bankName" b; currency ← text "currency" b; khqrPayload ← text "khqrPayload" b;
          actor ← text "actor" b;
          Some (Paykh.Profiles.mkSubmitPaymentProfile tenantId recipientName recipientAccountMasked bankName currency
                  khqrPayload actor)).

Definition ActorDto : Dto string := one_name "actor".
Definition SuspendDto : Dto (string * string) := two_names "actor" "reason".

Definition CreatePaymentOrderDto : Dto Paykh.Orders.CreatePaymentOrder :=
  mkDto [name "tenantId"; name "profileId"; amount "amountMinor"; currency_code "currency";
         IsOptional (field "ttlSeconds" TsNumber [IsInt; IsPositive]); name "actor"]
    (λ b, tenantId ← text "tenantId" b; profileId ← text "profileId" b; amountMinor ← text "amountMinor" b;
          currency ← text "currency" b; ttlSeconds ← opt as_int "ttlSeconds" b; actor ← text "actor" b;
          Some (Paykh.Orders.mkCreatePaymentOrder tenantId profileId amountMinor currency ttlSeconds actor)).

Definition CheckPaymentDto : Dto Paykh.Orders.CheckPaymentInput :=
  mkDto [name "bankTransactionId"; amount "amountMinor"; currency_code "currency"; name "paymentReference";
         name "recipientAccountMasked"; name "reserveAccountId"; name "actor"]
    (λ b, bankTransactionId ← text "bankTransactionId" b; amountMinor ← text "amountMinor" b; currency ← text "currency" b;
          paymentReference ← text "paymentReference" b; recipientAccountMasked ← text "recipientAccountMasked" b;
          reserveAccountId ← text "reserveAccountId" b; actor ← text "actor" b;
          Some (Paykh.Orders.mkCheckPaymentInput bankTransactionId amountMinor currency paymentReference
                  recipientAccountMasked reserveAccountId actor)).

(** Declared [classification!: FundClassification]; what the pipe lets through, and the
    service receives under that type, is any text ([unknown_classification_validates]). *)
Record CreateProgramFundInput : Type := mkCreateProgramFundInput {
  cf_tenantId : string; cf_paykhProgramId : string; cf_classification : string; cf_currency : string;
  cf_reserveAccountId : string; cf_actor : string
}.
Definition CreateProgramFundDto : Dto CreateProgramFundInput :=
  mkDto [name "tenantId"; name "paykhProgramId"; classified "classification"; currency_code "currency"; name "reserveAccountId";
         name "actor"]
    (λ b, tenantId ← text "tenantId" b; paykhProgramId ← text "paykhProgramId" b; classification ← text "classification" b;
          currency ← text "currency" b; reserveAccountId ← text "reserveAccountId" b; actor ← text "actor" b;
          Some (mkCreateProgramFundInput tenantId paykhProgramId classification currency reserveAccountId actor)).

Definition FundAmountDto : Dto (string * string) :=
  mkDto [amount "amountMinor"; name "actor"] (λ b, amountMinor ← text "amountMinor" b; actor ← text "actor" b; Some (amountMinor, actor)).

Record CreateSettlementInput : Type := mkCreateSettlementInput {
  cs_tenantId : string; cs_merchantId : string; cs_amountMinor : string; cs_currency : string; cs_actor : string
}.
Definition CreateSettlementDto : Dto CreateSettlementInput :=
  mkDto [name "tenantId"; name "merchantId"; amount "amountMinor"; currency_code "currency"; name "actor"]
    (λ b, tenantId ← text "tenantId" b; merchantId ← text "merchantId" b; amountMinor ← text "amountMinor" b;
          currency ← text "currency" b; actor ← text "actor" b;
          Some (mkCreateSettlementInput tenantId merchantId amountMinor currency actor)).

Definition ApproveSettlementDto : Dto string := one_name "checkerId".

Definition BindLoyaltyDto : Dto Loyalty.BindLoyaltyInput :=
  mkDto [name "programFundId"; IsOptional (field "decimals" TsNumber [IsInt]); IsOptional (amount "denominationMinor");
         opt_string "stellarAssetCode"; opt_string "stellarIssuer"; opt_string "stellarDistributor"; name "actor"]
    (λ b, programFundId ← text "programFundId" b; decimals ← opt as_int "decimals" b;
          denominationMinor ← opt as_text "denominationMinor" b; stellarAssetCode ← opt as_text "stellarAssetCode" b;
          stellarIssuer ← opt as_text "stellarIssuer" b; stellarDistributor ← opt as_text "stellarDistributor" b;
          actor ← text "actor" b;
          Some (Loyalty.mkBindLoyaltyInput programFundId decimals denominationMinor stellarAssetCode stellarIssuer
                  stellarDistributor actor)).

Definition IssueLoyaltyDto (liabilityId : string) : Dto Loyalty.IssueLoyaltyInput :=
  mkDto [name "customerRef"; IsOptional (amount "amountMinor"); IsOptional (amount "units"); name "actor"]
    (λ b, customerRef ← text "customerRef" b; amountMinor ← opt as_text "amountMinor" b; units ← opt as_text "units" b;
          actor ← text "actor" b; Some (Loyalty.mkIssueLoyaltyInput liabilityId customerRef amountMinor units actor)).

Definition RedeemLoyaltyDto (liabilityId : string) : Dto Loyalty.RedeemLoyaltyInput :=
  mkDto [name "merchantId"; name "customerRef"; IsOptional (amount "amountMinor"); IsOptional (amount "units"); name "actor"]
    (λ b, merchantId ← text "merchantId" b; customerRef ← text "customerRef" b; amountMinor ← opt as_text "amountMinor" b;
          units ← opt as_text "units" b; actor ← text "actor" b;
          Some (Loyalty.mkRedeemLoyaltyInput liabilityId merchantId customerRef amountMinor units actor)).

Definition RegisterMerchantDto : Dto Paykh.Merchants.RegisterMerchantInput :=
  mkDto [name "tenantId"; name "merchantCode"; name "legalName"; opt_string "country"; opt_string "paykhMerchantRef";
         opt_string "kycStatus"; opt_string "status"; opt_string "riskLevel"; name "actor"]
    (λ b, tenantId ← text "tenantId" b; merchantCode ← text "merchantCode" b; legalName ← text "legalName" b;
          country ← opt as_text "country" b; paykhMerchantRef ← opt as_text "paykhMerchantRef" b;
          kycStatus ← opt as_text "kycStatus" b; status ← opt as_text "status" b; riskLevel ← opt as_text "riskLevel" b;
          actor ← text "actor" b;
          Some (Paykh.Merchants.mkRegisterMerchantInput tenantId merchantCode legalName country paykhMerchantRef kycStatus
                  status riskLevel actor)).

Record UpdateMerchantStatusInput : Type := mkUpdateMerchantStatusInput {
  um_kycStatus : option string; um_status : option string; um_riskLevel : option string; um_actor : string
}.
Definition UpdateMerchantStatusDto : Dto UpdateMerchantStatusInput :=
  mkDto [opt_string "kycStatus"; opt_string "status"; opt_string "riskLevel"; name "actor"]
    (λ b, kycStatus ← opt as_text "kycStatus" b; status ← opt as_text "status" b; riskLevel ← opt as_text "riskLevel" b;
          actor ← text "actor" b; Some (mkUpdateMerchantStatusInput kycStatus status riskLevel actor)).

(** ** [registry.controller.ts] *)

(** Declared [liabilityType!: FundClassification]; the pipe lets any text through. *)
Definition CreateRegistryEntryDto : Dto Registry.CreateRegistryEntryDto :=
  mkDto [name "trusteeProgramId"; name "platform"; opt_string "tenantId"; opt_string "paykhProgramId";
         opt_string "paychainAssetId"; classified "liabilityType"; name "reserveAccountId"; currency_code "currency";
         IsOptional (field "requiredReserveBps" TsNumber [IsInt]); IsOptional (field "mintAuthorizationRequired" TsBoolean [IsBoolean]);
         IsOptional (field "redemptionAuthorizationRequired" TsBoolean [IsBoolean])]
    (λ b, trusteeProgramId ← text "trusteeProgramId" b; platform ← text "platform" b; tenantId ← opt as_text "tenantId" b;
          paykhProgramId ← opt as_text "paykhProgramId" b; paychainAssetId ← opt as_text "paychainAssetId" b;
          liabilityType ← text "liabilityType" b; reserveAccountId ← text "reserveAccountId" b;
          currency ← text "currency" b; requiredReserveBps ← opt as_int "requiredReserveBps" b;
          mintRequired ← opt as_bool "mintAuthorizationRequired" b;
          redemptionRequired ← opt as_bool "redemptionAuthorizationRequired" b;
          Some (Registry.mkCreateRegistryEntryDto trusteeProgramId platform tenantId paykhProgramId paychainAssetId
                  liabilityType reserveAccountId currency requiredReserveBps mintRequired redemptionRequired)).

(** * A validated body is the typed argument of its service *)

Inductive AnyDto : Type :=
| Any {A : Type} (d : Dto A).

(** All of them; an id of the path stands for those that take one. *)
Definition all_dtos (id : string) : list AnyDto :=
  [Any RequestMintAuthorizationDto; Any ReviewMintDto; Any ApproveMintDto; Any RevokeMintDto; Any ConfirmMintDto;
   Any CreateFundingInstructionDto; Any RegisterDepositDto; Any MatchDepositDto; Any ClearDepositDto;
   Any RequestRedemptionDto; Any ConfirmBurnDto; Any ActorReasonDto; Any ApproveRedemptionDto; Any AddAdjustmentDto;
   Any ActorBodyDto; Any RegisterBankDto; Any SetAccountBankDto; Any ProgramReconDto; Any TenantReconDto;
   Any OperationsActorDto; Any OperationsApproveSettlementDto; Any AttestationActorDto; Any LoginDto; Any CodeDto;
   Any ChangePasswordDto; Any ForgotPasswordDto; Any ResetPasswordDto; Any (SubmitPaymentProfileDto id); Any ActorDto;
   Any SuspendDto; Any CreatePaymentOrderDto; Any CheckPaymentDto; Any CreateProgramFundDto; Any FundAmountDto;
   Any CreateSettlementDto; Any ApproveSettlementDto; Any BindLoyaltyDto; Any (IssueLoyaltyDto id);
   Any (RedeemLoyaltyDto id); Any RegisterMerchantDto; Any UpdateMerchantStatusDto; Any CreateRegistryEntryDto].

Section typed.
Context `{V : !Validators}.

Definition passes (body : jsval) (f : Field) : Prop := field_ok body f = true.

(** What the decorators give each reader. *)
Lemma text_passes body k ty rules :
  existsb (λ r, match r with IsString | IsNumberString | IsDateString => true | _ => false end) rules = true →
  passes body (field k ty rules) → is_Some (text k body).
Proof.
  unfold passes, field_ok, text. cbn [f_name f_optional f_rules field andb orb]. rewrite existsb_exists, forallb_forall.
  intros (r & Hr & Hk) Hall. specialize (Hall r Hr). cbn beta in Hall.
  destruct r; try discriminate Hk;
    first [apply check_string in Hall as [s ->]|apply check_number_string in Hall as [s ->]|apply check_date_string in Hall as [s ->]];
    by eexists.
Qed.

Lemma opt_text_passes body k ty rules :
  existsb (λ r, match r with IsString | IsNumberString | IsDateString => true | _ => false end) rules = true →
  passes body (IsOptional (field k ty rules)) → is_Some (opt as_text k body).
Proof.
  intros Hr H. unfold opt. destruct (absent (js_field k body)) eqn:Ea; [by eexists|].
  assert (passes body (field k ty rules)) as [s Hs]%(text_passes body k ty rules Hr).
  { unfold passes, field_ok in *. cbn [f_name f_optional f_rules field IsOptional] in *. by rewrite Ea in H. }
  unfold text in Hs. by destruct (js_field k body); try discriminate Hs; eexists.
Qed.

Lemma opt_int_passes body k ty rules :
  IsInt ∈ rules → passes body (IsOptional (field k ty rules)) → is_Some (opt as_int k body).
Proof.
  unfold passes, field_ok, opt. cbn [f_name f_optional f_rules field IsOptional]. intros Hr.
  destruct (absent (js_field k body)); cbn [andb orb]; [by eexists|]. rewrite forallb_forall. intros H.
  specialize (H IsInt (proj1 (list_elem_of_In _ _) Hr)). apply check_int in H as [z ->]. by eexists.
Qed.

Lemma opt_bool_passes body k ty rules :
  IsBoolean ∈ rules → passes body (IsOptional (field k ty rules)) → is_Some (opt as_bool k body).
Proof.
  unfold passes, field_ok, opt. cbn [f_name f_optional f_rules field IsOptional]. intros Hr.
  destruct (absent (js_field k body)); cbn [andb orb]; [by eexists|]. rewrite forallb_forall. intros H.
  specialize (H IsBoolean (proj1 (list_elem_of_In _ _) Hr)). apply check_boolean in H as [z ->]. by eexists.
Qed.

Lemma texts_passes body k ty :
  passes body (field k ty [IsArray; ArrayNotEmpty; EachIsString]) → is_Some (texts k body).
Proof.
  unfold passes, field_ok, texts. cbn [f_name f_optional f_rules field andb orb forallb].
  intros [Ha [_ [He _]%andb_true_iff]%andb_true_iff]%andb_true_iff.
  destruct (check_array _ Ha) as [l El]. rewrite El in He |- *. apply check_each_string in He. clear El Ha.
  induction He as [|v l [s ->] _ [ss IH]]; [by eexists|]. cbn [mapM]. cbn. fold (@mapM option _ _ jsval string as_text). rewrite IH. by eexists.
Qed.

(** A DTO is read from every body that passes its decorators. *)
Definition sound {A} (d : Dto A) : Prop := ∀ body, Forall (passes body) (fields d) → is_Some (read d body).

Lemma validate_passes fs body : validate fs body = true → Forall (passes body) fs.
Proof.
  destruct body; try done. cbn [validate]. intros [_ H]%andb_true_iff. rewrite Forall_forall. rewrite forallb_forall in H.
  intros f Hf. by apply H, list_elem_of_In.
Qed.

(** *** The declared types *)

Definition text_rule (r : Rule) : bool := match r with IsString | IsNumberString | IsDateString => true | _ => false end.
Definition is_rule (r r' : Rule) : bool :=
  match r, r' with
  | IsInt, IsInt | IsBoolean, IsBoolean | IsArray, IsArray | EachIsString, EachIsString => true
  | _, _ => false
  end.

(** The decorators hold a value to its declared type: all but [FundClassification],
    of which they only ask a text. *)
Definition decorated (f : Field) : bool :=
  match f_type f with
  | TsString | TsFundClassification => existsb text_rule (f_rules f)
  | TsStrings => existsb (is_rule IsArray) (f_rules f) && existsb (is_rule EachIsString) (f_rules f)
  | TsNumber => existsb (is_rule IsInt) (f_rules f)
  | TsBoolean => existsb (is_rule IsBoolean) (f_rules f)
  end.

Lemma checked_rule rules v (p : Rule → bool) :
  existsb p rules = true → forallb (λ r, check r v) rules = true → ∃ r, p r = true ∧ check r v = true.
Proof.
  rewrite existsb_exists, forallb_forall. intros (r & Hr & Hp) H. exists r. split; [done|by apply H].
Qed.

Lemma checked_text rules v :
  existsb text_rule rules = true → forallb (λ r, check r v) rules = true → ∃ s, v = JStr s.
Proof.
  intros Hr Hv. destruct (checked_rule _ _ _ Hr Hv) as (r & Ht & Hc).
  destruct r; try discriminate Ht; [by apply check_string|by apply check_number_string|by apply check_date_string].
Qed.

Definition checked_type (ty : TsType) : TsType := match ty with TsFundClassification => TsString | ty => ty end.

Lemma decorated_type body f :
  decorated f = true → passes body f →
  (f_optional f = true ∧ absent (js_field (f_name f) body) = true) ∨
  has_type (checked_type (f_type f)) (js_field (f_name f) body).
Proof.
  unfold decorated, passes, field_ok. set (v := js_field (f_name f) body). intros Hd [Ha|Hc]%orb_true_iff.
  { left. by apply andb_true_iff in Ha. }
  right. destruct (f_type f); cbn [checked_type has_type].
  - exact (checked_text _ _ Hd Hc).
  - apply andb_true_iff in Hd as [H1 H2].
    destruct (checked_rule _ _ _ H1 Hc) as (r & Hr & Hv). destruct r; try discriminate Hr.
    apply check_array in Hv as [l El]. destruct (checked_rule _ _ _ H2 Hc) as (r & Hr2 & He). destruct r; try discriminate Hr2.
    rewrite El in He. apply check_each_string in He. clearbody v. subst v.
    clear Hc. induction He as [|x l [s ->] _ [ss IH]]; [by exists []|].
    exists (s :: ss). cbn. by injection IH as ->.
  - destruct (checked_rule _ _ _ Hd Hc) as (r & Hr & Hv). destruct r; try discriminate Hr.
    apply check_int in Hv as [z ->]. by eexists.
  - destruct (checked_rule _ _ _ Hd Hc) as (r & Hr & Hv). destruct r; try discriminate Hr. by apply check_boolean.
  - exact (checked_text _ _ Hd Hc).
Qed.
End typed.

(** One property after the other. *)
Ltac solve_dto :=
  intros body H;
  match goal with
  | H : Forall ?P (fields ?d) |- is_Some (read ?d ?b) =>
      let d' := eval hnf in d in
      change (Forall P (fields d')) in H; change (is_Some (read d' b)); cbn [fields] in H; cbn [read]
  end;
  repeat match goal with
         | H : Forall _ (_ :: _) |- _ => apply Forall_cons in H as [?H H]
         end;
  repeat match goal with
         | H : passes ?b ?f |- _ =>
             let v := fresh "v" in let E := fresh "E" in
             first
               [ destruct (text_passes b (f_name f) (f_type f) (f_rules f) eq_refl H) as [v E]
               | destruct (opt_text_passes b (f_name f) (f_type f) (f_rules f) eq_refl H) as [v E]
               | destruct (opt_int_passes b (f_name f) (f_type f) (f_rules f) ltac:(apply list_elem_of_here) H) as [v E]
               | destruct (opt_bool_passes b (f_name f) (f_type f) (f_rules f) ltac:(apply list_elem_of_here) H) as [v E]
               | destruct (texts_passes b (f_name f) (f_type f) H) as [v E] ];
             cbn [f_name name classified amount currency_code opt_string IsOptional field] in E; clear H
         end;
  repeat match goal with E : _ = Some _ |- _ => rewrite E; clear E; cbn [mbind option_bind] end; by eexists.

Section typed_all.
Context `{V : !Validators}.

Lemma dtos_sound id : Forall (λ x, match x with Any d => sound d end) (all_dtos id).
Proof.
  unfold all_dtos. repeat (apply Forall_cons_2; [solve_dto|]). apply Forall_nil_2.
Qed.

Lemma dtos_decorated id : Forall (λ x, match x with Any d => forallb decorated (fields d) = true end) (all_dtos id).
Proof. unfold all_dtos. repeat (apply Forall_cons_2; [reflexivity|]). apply Forall_nil_2. Qed.
End typed_all.

(** * What the pipe promises *)

Section promise.
Context `{V : !Validators}.

Lemma validate_declared fs body :
  validate fs body = true → ∃ kvs, body = JObj kvs ∧ Forall (λ kv, kv.1 ∈ map f_name fs) kvs.
Proof.
  destruct body as [| | | | | | |kvs]; try done. cbn [validate]. intros [H _]%andb_true_iff. exists kvs. split; [done|].
  rewrite forallb_forall in H. apply Forall_forall. intros kv Hkv.
  apply (bool_decide_eq_true_1 _). by apply H, list_elem_of_In.
Qed.

(** Claim C24 (what the validation pipe holds a body to).  Whatever body passes the
    global validation pipe for one of the DTO classes is an object with none but
    the declared properties; each declared property has the TypeScript type it is
    declared with, or is optional and absent; and the service can read its argument
    from the body.  The one exception are the properties declared as a
    [FundClassification] ([liabilityType] of a registry entry, [classification] of
    a programme fund), for which the decorators only ask a text. *)
Theorem validated_body_typed {A} (d : Dto A) id body
  (Hd : Any d ∈ all_dtos id) (Hv : validate (fields d) body = true) :
  (∃ kvs, body = JObj kvs ∧ Forall (λ kv, kv.1 ∈ map f_name (fields d)) kvs) ∧
  (∀ f, f ∈ fields d →
     (f_optional f = true ∧ absent (js_field (f_name f) body) = true) ∨
     has_type (if decide (f_type f = TsFundClassification) then TsString else f_type f) (js_field (f_name f) body)) ∧
  ∃ a, read d body = Some a.
Proof.
  pose proof (validate_passes _ _ Hv) as Hp. split; [by apply validate_declared|]. split.
  - intros f Hf. pose proof (dtos_decorated id) as Hs. rewrite Forall_forall in Hs. specialize (Hs _ Hd). cbn beta iota in Hs.
    rewrite forallb_forall in Hs. rewrite Forall_forall in Hp.
    destruct (decorated_type body f) as [?|H]; [apply Hs; by apply list_elem_of_In|by apply Hp|by left|].
    right. by destruct (f_type f).
  - pose proof (dtos_sound id) as Hs. rewrite Forall_forall in Hs. exact (Hs _ Hd body Hp).
Qed.
End promise.

(** ** A concrete validator *)

#[local] Instance plain_validators : Validators.
Proof.
  refine {| check := λ r v,
    match r, v with
    | (IsString | IsDateString), JStr _ => true
    | IsNotEmpty, (JUndefined | JNull) => false
    | IsNotEmpty, JStr s => negb (bool_decide (s = ""))
    | IsNotEmpty, _ => true
    | IsNumberString, JStr s => negb (bool_decide (s = "")) && all_digits s
    | IsInt, JNum (Num _) => true
    | IsPositive, JNum (Num z) => 0 <? z
    | IsBoolean, JBool _ => true
    | IsArray, JArr _ => true
    | ArrayNotEmpty, JArr l => negb (bool_decide (length l = 0%nat))
    | EachIsString, JArr l => forallb (λ x, match x with JStr _ => true | _ => false end) l
    | Length lo hi, JStr s => Nat.leb lo (String.length s) && Nat.leb (String.length s) hi
    | _, _ => false
    end |}.
  all: try (intros [| |b|[]|z|s|l|kvs]; try discriminate; by eauto).
  - intros l H. apply Forall_forall. intros v Hv. rewrite forallb_forall in H.
    specialize (H v (proj1 (list_elem_of_In _ _) Hv)). destruct v; try discriminate. by eexists.
Defined.

Definition demo_deposit_body : jsval :=
  JObj [("programId", JStr "program-1"); ("trusteeAccountId", JStr "account-1"); ("bankTransactionId", JStr "TX-1");
        ("amountMinor", JStr "100000"); ("currency", JStr "USD"); ("payerName", JNull);
        ("transactionDate", JStr "2026-01-01"); ("actor", JStr "ops@bank")].

Lemma validated_body_typed_witness :
  validate (fields RegisterDepositDto) demo_deposit_body = true ∧
  has_type TsString (js_field "amountMinor" demo_deposit_body) ∧
  ∃ a, read RegisterDepositDto demo_deposit_body = Some a.
Proof.
  split; [by vm_compute|].
  destruct (validated_body_typed RegisterDepositDto "" demo_deposit_body) as (_ & Ht & Hr);
    [unfold all_dtos; do 6 apply list_elem_of_further; apply list_elem_of_here|by vm_compute|].
  split; [|exact Hr]. destruct (Ht (amount "amountMinor")) as [[Ha _]|H]; [|discriminate Ha|exact H].
  unfold RegisterDepositDto. cbn [fields]. do 3 apply list_elem_of_further. apply list_elem_of_here.
Defined.


(** An undeclared property is refused, and so is a missing or mistyped one. *)
Example undeclared_refused :
  validate (fields ClearDepositDto) (JObj [("actor", JStr "ops"); ("status", JStr "CLEARED")]) = false.
Proof. by vm_compute. Qed.

Example mistyped_refused : validate (fields ClearDepositDto) (JObj [("actor", JNum (Num 7))]) = false.
Proof. by vm_compute. Qed.

(** The pipe does not hold a classification to the enum: a registry entry of a type
    that has no backing policy gets through to the service. *)
Definition demo_unknown_class : jsval :=
  JObj [("trusteeProgramId", JStr "program-1"); ("platform", JStr "PAYKH"); ("liabilityType", JStr "VOUCHER");
        ("reserveAccountId", JStr "account-1"); ("currency", JStr "USD")].

Lemma unknown_classification_validates :
  validate (fields CreateRegistryEntryDto) demo_unknown_class = true ∧ Registry.policy_named "VOUCHER" = None.
Proof. by split; vm_compute. Qed.
