(* ===== verification/Worker.v ===== *)
(** The trustee worker (apps/trustee-worker): the webhook delivery loop.

    One pass reads a batch of undelivered events of the outbox in sequence order
    and, for each, builds the signed envelope, posts it to the client's webhook,
    logs the attempt and updates the event.  The endpoint's answer is
    [webhook_post]; the worker's own signing key, parsed from the process
    environment, is a parameter. *)
From S2P Require Import Prelude.
From S2P Require Import Money.
From S2P Require Import Domain.
From S2P Require Import Ledger.
From S2P Require Import Prog.
From S2P Require Import Crypto.
From S2P Require Import Schema.
From S2P Require Import Prisma.
From S2P Require Import Infra.
From S2P Require Import LedgerService.
From S2P Require Import Invariant.
#[local] Open Scope string_scope.
#[local] Open Scope list_scope.
#[local] Open Scope Z_scope.

(** * The envelope on the wire *)

(** [v.k]; [undefined] when [v] is no object or has no such property. *)
Definition js_get (k : string) (v : jsval) : jsval :=
  match v with
  | JObj fields => match list_find (λ kv, kv.1 = k) fields with Some (_, kv) => kv.2 | None => JUndefined end
  | _ => JUndefined
  end.

(** A property read [as string | undefined]: the services publish no payload
    with another type there. *)
Definition js_string (v : jsval) : option string := match v with JStr s => Some s | _ => None end.

Definition js_entries (v : jsval) : list (string * jsval) := match v with JObj fields => fields | _ => [] end.

(** [v.k = x] *)
Definition js_assign (k : string) (x : jsval) (v : jsval) : jsval := JObj (obj_set (js_entries v) (k, x)).

(** [wireBody]: the envelope without the header-only fields. *)
Definition wireBody (e : jsval) : jsval :=
  JObj (filter (λ kv, kv.1 ≠ "requestSignature" ∧ kv.1 ≠ "timestampMs") (js_entries e)).

Definition API_VERSION : string := "v1".

(** [JSON.stringify] of an object *)
Definition stringify (v : jsval) : string := default "undefined" (json_stringify v).

Section worker.
Context `{RT : !Runtime} `{PC : !PrismaClient} (env : Env).
(** The result of [loadWebhookKey].  The module calls [createPrivateKey] on it as it is
    loaded and the worker does not start when that throws: a key here is one that signs. *)
Context (webhookKey : option SigningKey).

Definition envelopeHeaders (e : jsval) : list (string * string) :=
  let str k := default "" (js_string (js_get k e)) in
  let ts := match truthy (js_string (js_get "timestampMs" e)) with
            | Some s => s
            | None => match date_parse (str "timestamp") with
                      | Some z => if z =? 0 then str "timestamp" else big_to_string z
                      | None => str "timestamp"
                      end
            end in
  let sig := match truthy (js_string (js_get "requestSignature" e)) with
             | Some s => s
             | None => match js_get "signature" e with
                       | JStr s => s
                       | o => default "" (js_string (js_get "value" o))
                       end
             end in
  [("x-signature", sig); ("x-timestamp", ts); ("x-nonce", str "nonce");
   ("x-signing-key-id", str "signingKeyId"); ("x-trustee-signature", sig);
   ("x-trustee-timestamp", ts); ("x-trustee-delivery", str "eventId");
   ("x-trustee-event-id", str "eventId"); ("x-trustee-signing-key", str "signingKeyId");
   ("x-trustee-correlation-id", str "correlationId"); ("x-idempotency-key", str "requestId");
   ("x-api-version", str "apiVersion")].

Definition stripeSignature (timestampMs rawBody : string) : option string :=
  (λ k, ed_sign (privateKeyPem k) (timestampMs +:+ "." +:+ rawBody)) <$> webhookKey.

(** The envelope of an event, with its body-visible fields. *)
Definition event_envelope (now : Z) (oauthClientId : string) (event : OutboxEvent.t) : jsval :=
  let payload := match OutboxEvent.payload event with JNull => JObj [] | p => p end in
  let id := OutboxEvent.id event in
  let envelope := buildSignedEnvelope
    {| eventId := id; env_eventType := OutboxEvent.eventType event;
       eventSequence := big_to_string (OutboxEvent.sequence event);
       env_targetPlatform := OutboxEvent.targetPlatform event; env_timestamp := toISOString now;
       env_clientId := oauthClientId; env_programId := js_string (js_get "programId" payload);
       env_correlationId := default ("corr_" +:+ id) (js_string (js_get "correlationId" payload));
       requestId := "req_" +:+ id;
       env_nonce := id +:+ "-" +:+ big_to_string (OutboxEvent.sequence event);
       apiVersion := API_VERSION; env_payload := payload |}
    (mkSignature (OutboxEvent.signatureKeyId event) "ed25519" (OutboxEvent.signatureValue event)) in
  let envelope := js_assign "occurredAt" (JStr (toISOString (OutboxEvent.createdAt event))) envelope in
  match truthy (OutboxEvent.artifact event) with
  | Some a =>
      js_assign "signature" (JObj [("keyId", JStr (OutboxEvent.signatureKeyId event)); ("alg", JStr "ed25519");
                                   ("value", JStr (OutboxEvent.signatureValue event))])
        (js_assign "artifact" (JStr a) envelope)
  | None => envelope
  end.

(** The header-only fields the worker adds before delivery. *)
Definition sign_envelope (now : Z) (envelope : jsval) : jsval :=
  let timestampMs := big_to_string now in
  let rawBody := stringify envelope in
  js_assign "requestSignature" (js_undef (stripeSignature timestampMs rawBody))
    (js_assign "timestampMs" (JStr timestampMs) envelope).

(** [submitSignedEvent]: delivered, status code, error. *)
Definition submitSignedEvent (webhookUrl : string) (envelope : jsval) :
    prog World (bool * option Z * option string) :=
  action (λ w, (Ok (webhook_post webhookUrl (stringify (wireBody envelope)) (envelopeHeaders envelope) (calls w)),
                set_calls (S (calls w)) w)).

Definition markAttempt (id : string) (attempts : Z) : prog World unit :=
  _ ← update TOutboxEvent id (λ e,
        OutboxEvent.set_attempts attempts
          (OutboxEvent.set_deadLettered (WEBHOOK_MAX_ATTEMPTS env <=? attempts) e));
  mret tt.

(** The body of the loop over a batch. *)
Definition deliver_event (now : Z) (delivered : Z) (event : OutboxEvent.t) : prog World Z :=
  let attempt := OutboxEvent.attempts event + 1 in
  client ← find_first TClientApplication
             (λ c, bool_decide (ClientApplication.platform c = OutboxEvent.targetPlatform event));
  match client with
  | Some c =>
      match truthy (ClientApplication.webhookUrl c), ClientApplication.disabled c with
      | Some url, false =>
          let envelope := sign_envelope now (event_envelope now (ClientApplication.oauthClientId c) event) in
          result ← submitSignedEvent url envelope;
          let '(ok, statusCode, error) := result in
          _ ← create TWebhookDelivery (λ k t,
            {| WebhookDelivery.id := k; WebhookDelivery.eventId := OutboxEvent.id event;
               WebhookDelivery.attempt := attempt; WebhookDelivery.statusCode := statusCode;
               WebhookDelivery.ok := ok; WebhookDelivery.error := take_string 500 <$> truthy error;
               WebhookDelivery.createdAt := t |});
          if ok : bool then
            _ ← update TOutboxEvent (OutboxEvent.id event) (λ e,
                  OutboxEvent.set_attempts attempt (OutboxEvent.set_deliveredAt (Some now) e));
            mret (delivered + 1)
          else markAttempt (OutboxEvent.id event) attempt;; mret delivered
      | _, _ => markAttempt (OutboxEvent.id event) attempt;; mret delivered
      end
  | None => markAttempt (OutboxEvent.id event) attempt;; mret delivered
  end.

Definition is_pending (e : OutboxEvent.t) : bool :=
  negb (bool_decide (is_Some (OutboxEvent.deliveredAt e))) && negb (OutboxEvent.deadLettered e).

Definition deliverPending (now : Z) : prog World Z :=
  pending ← find_many_asc TOutboxEvent is_pending OutboxEvent.sequence (WEBHOOK_BATCH_SIZE env);
  fold_each pending 0 (deliver_event now).

(** One turn of the loop: a failed pass is logged and the next one starts. *)
Definition delivery_pass : prog World unit :=
  prog_catch (t ← now; _ ← deliverPending t; mret tt) (λ _, mret tt).

(** ** Safety *)

Lemma keeps_markAttempt i n : keeps_good (markAttempt i n).
Proof. intros s Hs. unfold markAttempt. by safe_steps. Qed.

Lemma keeps_deliver_event t d e : keeps_good (deliver_event t d e).
Proof.
  intros s Hs. unfold deliver_event.
  assert (∀ w n, good w → safely (markAttempt (OutboxEvent.id e) n;; mret d) (λ _ _, True) w) as Hm.
  { intros w n Hg. apply (safe_keeps good later); [done|apply keeps_markAttempt|done]. }
  apply (safe_find_first TClientApplication); intros; cbn beta iota; [by apply Hm|].
  destruct (truthy _) as [url|]; [|by apply Hm]. destruct (ClientApplication.disabled _); [by apply Hm|].
  cbv zeta. unfold submitSignedEvent.
  apply (safe_action good later). intros w1 HL1 Hg1.
  assert (later w1 (set_calls (S (calls w1)) w1)) as HL2 by by apply later_frame.
  assert (good (set_calls (S (calls w1)) w1)) as Hg2 by by apply (good_frame w1).
  split_and!; [done..|]. intros [[ok st] err] _. cbn beta iota.
  safe_rule; [intros; done|]. intros w2 k z HL3 Hg3 _.
  destruct ok; [by safe_steps|by apply Hm].
Qed.

Theorem keeps_delivery_pass : keeps_good delivery_pass.
Proof.
  intros s Hs. unfold delivery_pass. apply (safe_catch good later); [done| |done].
  apply safe_now. intros w HL Hg. apply (safe_keeps good later); [done| |done].
  intros w1 Hg1. unfold deliverPending. apply (safe_read good later). intros w2 HL2 Hg2.
  apply (safe_fold_each good later); [done|]. intros. by apply keeps_deliver_event.
Qed.
End worker.
