(* ===== verification/Assurance.v ===== *)
(** Assurance: attestations ([attestation.service.ts]) and multi-level
    reconciliation ([reconciliation.service.ts]).

    An attestation moves DRAFT, UNDER_REVIEW, APPROVED, PUBLISHED, and may be
    withdrawn from any of them.  A reconciliation run records the exceptions it
    found and never changes the records it compared. *)
From S2P Require Import Prelude.
From S2P Require Import Money.
From S2P Require Import Domain.
From S2P Require Import Ledger.
From S2P Require Import Reserve.
From S2P Require Import Prog.
From S2P Require Import Crypto.
From S2P Require Import Schema.
From S2P Require Import Prisma.
From S2P Require Import Infra.
From S2P Require Import LedgerService.
From S2P Require Import Invariant.
From S2P Require Import ReserveService.
#[local] Open Scope string_scope.
#[local] Open Scope list_scope.
#[local] Open Scope Z_scope.

(** * Attestations *)

Module Attestations.

Record CreateAttestation : Type := mkCreateAttestation {
  programId : option string; period : string; scope : string; methodology : option string;
  reserveAmountMinor : option string; liabilityAmountMinor : option string; currency : option string;
  opinion : option string; auditor : string; documentHash : option string; actor : string
}.

(** The table [allowed] of [transition]. *)
Definition allowed (status : string) : list string :=
  if bool_decide (status = "DRAFT") then ["UNDER_REVIEW"; "WITHDRAWN"]
  else if bool_decide (status = "UNDER_REVIEW") then ["APPROVED"; "WITHDRAWN"]
  else if bool_decide (status = "APPROVED") then ["PUBLISHED"; "WITHDRAWN"]
  else if bool_decide (status = "PUBLISHED") then ["WITHDRAWN"]
  else [].

(** [x ? BigInt(x) : null] *)
Definition opt_bigint (o : option string) : outcome (option Z) :=
  match truthy o with Some s => z ← BigInt s; Ok (Some z) | None => Ok None end.

Definition attestation_content (a : Attestation.t) : jsval :=
  JObj [("attestationId", JStr (Attestation.id a)); ("programId", js_of_opt (Attestation.programId a));
        ("period", JStr (Attestation.period a)); ("scope", JStr (Attestation.scope a));
        ("reserveAmountMinor", js_of_opt (big_to_string <$> Attestation.reserveAmountMinor a));
        ("liabilityAmountMinor", js_of_opt (big_to_string <$> Attestation.liabilityAmountMinor a));
        ("currency", js_of_opt (Attestation.currency a)); ("opinion", js_of_opt (Attestation.opinion a));
        ("auditor", JStr (Attestation.auditor a)); ("documentHash", js_of_opt (Attestation.documentHash a));
        ("status", JStr (Attestation.status a));
        ("issueDate", js_of_opt (toISOString <$> Attestation.issueDate a))].

Section attestations.
Context `{RT : !Runtime} `{PC : !PrismaClient} (env : Env).

Definition require (id : string) : prog World Attestation.t :=
  a ← find_unique TAttestation id;
  or_throw a (NotFoundException ("Attestation " +:+ id +:+ " not found")).

(** The amounts and currency of a new attestation, and whether the ledger gave
    them. *)
Definition attested_amounts (input : CreateAttestation) :
    prog World (option Z * option Z * option string * bool) :=
  r ← lift (opt_bigint (reserveAmountMinor input));
  l ← lift (opt_bigint (liabilityAmountMinor input));
  match truthy (programId input) with
  | Some p =>
      if negb (bool_decide (is_Some r)) || negb (bool_decide (is_Some l)) then
        pos ← position p;
        mret (Some (default (minor (rp_eligibleReserve pos)) r),
              Some (default (minor (rp_reserveObligation pos)) l),
              Some (default (rp_currency pos) (currency input)), true)
      else mret (r, l, currency input, false)
  | None => mret (r, l, currency input, false)
  end.

Definition create_attestation (input : CreateAttestation) : prog World jsval :=
  amounts ← attested_amounts input;
  let '(r, l, c, derivedFromLedger) := amounts in
  a ← create TAttestation (λ k t,
    {| Attestation.id := k; Attestation.programId := programId input; Attestation.period := period input;
       Attestation.scope := scope input; Attestation.methodology := methodology input;
       Attestation.reserveAmountMinor := r; Attestation.liabilityAmountMinor := l;
       Attestation.currency := c; Attestation.opinion := opinion input;
       Attestation.auditor := auditor input; Attestation.documentHash := documentHash input;
       Attestation.status := "DRAFT"; Attestation.issueDate := None; Attestation.expiryDate := None;
       Attestation.createdBy := Some (actor input); Attestation.approvedBy := None;
       Attestation.createdAt := t |});
  audit_record (with_after (JObj [("derivedFromLedger", JBool derivedFromLedger)])
    (audited (actor input) "attestation.created" "ATTESTATION" (Attestation.id a)));;
  mret (JObj [("id", JStr (Attestation.id a)); ("status", JStr (Attestation.status a));
              ("derivedFromLedger", JBool derivedFromLedger)]).

Definition transition (id to actor : string) : prog World jsval :=
  a ← require id;
  throw_if (negb (bool_decide (to ∈ allowed (Attestation.status a))))
    (BadRequestException ("Cannot transition attestation from " +:+ Attestation.status a +:+ " to " +:+ to) []);;
  t ← now;
  updated ← update TAttestation id (λ r,
    Attestation.set_status to
      (Attestation.set_approvedBy (if bool_decide (to = "APPROVED") then Some actor else Attestation.approvedBy a)
         (Attestation.set_issueDate (if bool_decide (to = "PUBLISHED") then Some t else Attestation.issueDate a) r)));
  audit_record (audited actor ("attestation." +:+ to_lower to) "ATTESTATION" id);;
  mret (js_result id (Attestation.status updated)).

(** The record, its content hash and, once published, a signature. *)
Definition get (id : string) : prog World (jsval * string * option Signature) :=
  a ← require id;
  let content := attestation_content a in
  let contentHash := sha256Hex (default "undefined" (json_stringify content)) in
  if bool_decide (Attestation.status a = "PUBLISHED") then
    s ← lift (sign (signing env) ATTESTATION content);
    mret (content, contentHash, Some s)
  else mret (content, contentHash, None).

Definition list_attestations (programId : option string) : prog World (list Attestation.t) :=
  read (λ w, merge_sort (desc_by Attestation.createdAt)
    (where_rows (λ a, match truthy programId with
                      | Some p => bool_decide (Attestation.programId a = Some p)
                      | None => true end) (scan TAttestation w))).

Lemma keeps_require i : keeps_good (require i).
Proof. intros s Hs. unfold require. safe_steps. Qed.

Lemma keeps_attested_amounts input : keeps_good (attested_amounts input).
Proof.
  intros s Hs. unfold attested_amounts. do 2 safe_step. destruct (truthy _); [|done].
  destruct (_ || _); [|done]. apply (safe_keeps good later); [done|apply keeps_position|done].
Qed.

Lemma keeps_create_attestation input : keeps_good (create_attestation input).
Proof.
  intros s Hs. unfold create_attestation.
  apply (safe_keeps good later); [done|apply keeps_attested_amounts|].
  intros [[[r l] c] d] w HL Hg. by safe_steps.
Qed.

Lemma keeps_transition i to u : keeps_good (transition i to u).
Proof.
  intros s Hs. unfold transition. apply (safe_keeps good later); [done|apply keeps_require|].
  intros a w HL Hg. by safe_steps.
Qed.
End attestations.
End Attestations.

(** * Reconciliation *)

Module Recon.

(** An exception found: its type and detail. *)
Record Found : Type := mkFound { f_type : string; f_detail : jsval }.

Definition shortfall_exceptions (programId : string) (pos : ReservePosition) : list Found :=
  (if minor (rp_surplus pos) <? 0 then
     [mkFound "RESERVE_SHORTFALL"
        (JObj [("eligibleReserveMinor", js_big (minor (rp_eligibleReserve pos)));
               ("requiredReserveMinor", js_big (minor (rp_requiredReserve pos)));
               ("shortfallMinor", js_big (minor (rp_surplus pos)))])]
   else []) ++
  (if bool_decide (rp_liabilityAgeSeconds pos = None) then
     [mkFound "MISSING_LIABILITY_FEED" (JObj [("programId", JStr programId)])]
   else []).

(** The orders of each bank transaction, in the order the transactions appear. *)
Fixpoint by_txn (orders : list PaykhPaymentOrder.t) (acc : list (string * list string)) :
    list (string * list string) :=
  match orders with
  | [] => acc
  | o :: os =>
      match truthy (PaykhPaymentOrder.matchedBankTransactionId o) with
      | None => by_txn os acc
      | Some txn =>
          by_txn os
            (if existsb (λ e, bool_decide (e.1 = txn)) acc then
               map (λ e, if bool_decide (e.1 = txn) then (e.1, e.2 ++ [PaykhPaymentOrder.id o]) else e) acc
             else acc ++ [(txn, [PaykhPaymentOrder.id o])])
      end
  end.

Definition order_exceptions (orders : list PaykhPaymentOrder.t) : list Found :=
  map (λ o, mkFound "CONFIRMED_WITHOUT_BANK_TXN" (JObj [("orderId", JStr (PaykhPaymentOrder.id o))]))
    (where_rows (λ o, bool_decide (PaykhPaymentOrder.status o = ORDER_CONFIRMED) &&
                      negb (bool_decide (is_Some (truthy (PaykhPaymentOrder.matchedBankTransactionId o))))) orders) ++
  map (λ e, mkFound "DUPLICATE_BANK_TXN"
              (JObj [("bankTransactionId", JStr e.1); ("orderIds", JArr (map JStr e.2))]))
    (filter (λ e, (1 < length e.2)%nat) (by_txn orders [])).

Definition settlement_exceptions (settlements : list PaykhSettlement.t) : list Found :=
  map (λ s, mkFound "CONFIRMED_WITHOUT_TIMESTAMP" (JObj [("settlementId", JStr (PaykhSettlement.id s))]))
    (where_rows (λ s, bool_decide (PaykhSettlement.status s = SETTLEMENT_CONFIRMED) &&
                      negb (bool_decide (is_Some (PaykhSettlement.confirmedAt s)))) settlements).

Section recon.
Context `{RT : !Runtime} `{PC : !PrismaClient} (env : Env).

(** One nested write: the run with its exceptions, in one transaction. *)
Definition record_run (scope : string) (programId tenantId : option string) (summary : jsval)
    (exceptions : list Found) (actor : string) : prog World ReconciliationRun.t :=
  transaction (
    run ← create TReconciliationRun (λ k t,
      {| ReconciliationRun.id := k; ReconciliationRun.scope := scope;
         ReconciliationRun.programId := programId; ReconciliationRun.tenantId := tenantId;
         ReconciliationRun.status := match exceptions with [] => "OK" | _ => "EXCEPTIONS" end;
         ReconciliationRun.summary := toJson summary; ReconciliationRun.createdBy := Some actor;
         ReconciliationRun.createdAt := t |});
    for_each exceptions (λ f,
      _ ← create TReconciliationException (λ k t,
        {| ReconciliationException.id := k; ReconciliationException.runId := ReconciliationRun.id run;
           ReconciliationException.type := f_type f; ReconciliationException.detail := toJson (f_detail f);
           ReconciliationException.resolved := false; ReconciliationException.createdAt := t |});
      mret tt);;
    mret run).

Definition reconcileReserve (programId actor : string) : prog World ReconciliationRun.t :=
  pos ← position programId;
  let exceptions := shortfall_exceptions programId pos in
  run ← record_run "RESERVE" (Some programId) None
    (JObj [("eligibleReserveMinor", js_big (minor (rp_eligibleReserve pos)));
           ("reserveObligationMinor", js_big (minor (rp_reserveObligation pos)));
           ("reserveRatioBps", js_number_opt (rp_reserveRatioBps pos))]) exceptions actor;
  match exceptions with
  | [] => mret run
  | _ =>
      _ ← publish env RECONCILIATION_EXCEPTION_CREATED
            (JObj [("runId", JStr (ReconciliationRun.id run)); ("programId", JStr programId);
                   ("types", JArr (map (λ f, JStr (f_type f)) exceptions))]);
      mret run
  end.

Definition reconcilePaymentOrders (tenantId actor : string) : prog World ReconciliationRun.t :=
  orders ← find_many TPaykhPaymentOrder (λ o, bool_decide (PaykhPaymentOrder.tenantId o = tenantId));
  record_run "PAYMENT_ORDERS" None (Some tenantId)
    (JObj [("orderCount", JNum (Num (Z.of_nat (length orders))))]) (order_exceptions orders) actor.

Definition reconcileSettlements (tenantId actor : string) : prog World ReconciliationRun.t :=
  settlements ← find_many TPaykhSettlement (λ s, bool_decide (PaykhSettlement.tenantId s = tenantId));
  record_run "MERCHANT_SETTLEMENTS" None (Some tenantId)
    (JObj [("settlementCount", JNum (Num (Z.of_nat (length settlements))))])
    (settlement_exceptions settlements) actor.

Definition get_run (runId : string) : prog World (ReconciliationRun.t * list ReconciliationException.t) :=
  run ← find_unique TReconciliationRun runId;
  run ← or_throw run (NotFoundException ("Reconciliation run " +:+ runId +:+ " not found"));
  exceptions ← find_many TReconciliationException
                 (λ e, bool_decide (ReconciliationException.runId e = runId));
  mret (run, exceptions).

Definition listExceptions (resolved : bool) : prog World (list ReconciliationException.t) :=
  find_many_desc TReconciliationException (λ e, eqb (ReconciliationException.resolved e) resolved)
    ReconciliationException.createdAt 200.

Lemma keeps_record_run sc p t j ex u : keeps_good (record_run sc p t j ex u).
Proof.
  intros s Hs. unfold record_run. apply (safe_transaction_last good later); [|done]. intros w HL Hg.
  safe_rule; [intros; done|]. intros w1 k z HL1 Hg1 _.
  apply (safe_keeps good later); [done| |done].
  intros w2 Hg2. apply (safe_for_each good later); [done|]. intros f w3 _ Hg3. by safe_steps.
Qed.

Lemma keeps_reconcileReserve p u : keeps_good (reconcileReserve p u).
Proof.
  intros s Hs. unfold reconcileReserve. apply (safe_keeps good later); [done|apply keeps_position|].
  intros pos w HL Hg. apply (safe_keeps good later); [done|apply keeps_record_run|].
  intros r w1 HL1 Hg1. destruct (shortfall_exceptions p pos); [done|]. by safe_steps.
Qed.

Lemma keeps_reconcilePaymentOrders t u : keeps_good (reconcilePaymentOrders t u).
Proof.
  intros s Hs. unfold reconcilePaymentOrders. apply (safe_read good later). intros.
  by apply keeps_record_run.
Qed.

Lemma keeps_reconcileSettlements t u : keeps_good (reconcileSettlements t u).
Proof.
  intros s Hs. unfold reconcileSettlements. apply (safe_read good later). intros.
  by apply keeps_record_run.
Qed.
End recon.
End Recon.
