(* ===== verification/Scheduler.v ===== *)
(** The recurring jobs: [apps/trustee-api/src/modules/scheduler/scheduler.service.ts].

    A tick runs each job it wins the slot of: the slot is a key in Redis set with
    [NX] and the job's cadence as its time to live, which no one deletes.  The timer
    that calls [tick] is not modelled; a tick is a request like any other. *)
From S2P Require Import Prelude.
From S2P Require Import Money.
From S2P Require Import Domain.
From S2P Require Import Prog.
From S2P Require Import Crypto.
From S2P Require Import Schema.
From S2P Require Import Prisma.
From S2P Require Import Infra.
From S2P Require Import LedgerService.
From S2P Require Import Invariant.
From S2P Require Import Demo.
From S2P Require Import ReserveService.
From S2P Require Import Assurance.
From S2P Require Import Site.
#[local] Open Scope string_scope.
#[local] Open Scope list_scope.
#[local] Open Scope Z_scope.

Definition newline : string := String "010" "".

(** [(err as Error).message] *)
Definition error_message (e : exn) : string :=
  match e with
  | BadRequestException m _ | NotFoundException m | ForbiddenException m | ConflictException m
  | UnauthorizedException m | HttpException _ m | JsError _ m => m
  | PrismaError code => code
  end.

Definition number_text (n : number) : string :=
  match n with Num z => big_to_string z | Infinity true => "-Infinity" | Infinity false => "Infinity" end.

Definition shortfall_alert (p : Program.t) (pos : ReservePosition) (snapshotId : string) : string :=
  "SHORTFALL · " +:+ Program.code p +:+ " (" +:+ Program.id p +:+ "): eligible " +:+
  big_to_string (minor (rp_eligibleReserve pos)) +:+ " < required " +:+ big_to_string (minor (rp_requiredReserve pos)) +:+
  " (short " +:+ big_to_string (minor (rp_surplus pos)) +:+ " " +:+ rp_currency pos +:+ "). ratio=" +:+
  default "n/a" (number_text <$> rp_reserveRatioBps pos) +:+ "bps snapshot=" +:+ snapshotId.

Definition no_feed_alert (p : Program.t) : string :=
  "STALE FEED · " +:+ Program.code p +:+ " (" +:+ Program.id p +:+ "): no PayChain liability snapshot on record.".

Definition error_alert (p : Program.t) (e : exn) : string :=
  "ERROR · " +:+ Program.code p +:+ " (" +:+ Program.id p +:+ "): reserve cycle failed — " +:+ error_message e.

Definition dead_line (d : OutboxEvent.t) : string :=
  "• " +:+ OutboxEvent.eventType d +:+ " → " +:+ OutboxEvent.targetPlatform d +:+ " (event " +:+ OutboxEvent.id d +:+
  ", " +:+ big_to_string (OutboxEvent.attempts d) +:+ " attempts)".

Definition sent_key : string := "trustee:alert:deadletter:sent".

Section scheduler.
Context `{RT : !Runtime} `{PC : !PrismaClient} `{RD : !Redis} (env : Env).

Definition stale_alert (p : Program.t) (age : Z) : string :=
  "STALE FEED · " +:+ Program.code p +:+ " (" +:+ Program.id p +:+ "): liability feed is " +:+ big_to_string age +:+
  "s old (threshold " +:+ big_to_string (FEED_STALE_SECONDS env) +:+ "s).".

(** [SET key value PX ttlMs NX]; an unreachable Redis wins no slot, a Redis that is
    not configured every one. *)
Definition acquire (job : string) (ttlMs : Z) : prog Site bool :=
  if redis_available then
    t ← read (λ s, clock (db s));
    prog_catch (command (redis_set_nx (cron_key job) (toISOString t) ttlMs)) (λ _, mret false)
  else mret true.

Definition runSafely {S} (fn : prog S unit) : prog S unit := prog_catch fn (λ _, mret tt).

(** The alerts of a position. *)
Definition position_alerts (p : Program.t) (pos : ReservePosition) (snapshotId : string) : list string :=
  (if minor (rp_surplus pos) <? 0 then [shortfall_alert p pos snapshotId] else []) ++
  match rp_liabilityAgeSeconds pos with
  | None => [no_feed_alert p]
  | Some age => if FEED_STALE_SECONDS env <? age then [stale_alert p age] else []
  end.

(** One program of the cycle: a failure becomes an alert. *)
Definition program_cycle (p : Program.t) : prog World (list string) :=
  prog_catch
    (snap ← createSnapshot env (Program.id p);
     _ ← Recon.reconcileReserve env (Program.id p) "scheduler";
     pos ← position (Program.id p);
     mret (position_alerts p pos snap.1))
    (λ e, mret [error_alert p e]).

Definition reserveCycle : prog World unit :=
  programs ← find_many TProgram (λ p, bool_decide (Program.status p = PROGRAM_ACTIVE));
  match programs with
  | [] => mret tt
  | _ =>
      alerts ← fold_each programs [] (λ alerts p, a ← program_cycle p; mret (alerts ++ a));
      match alerts with
      | [] => mret tt
      | _ =>
          t ← nowIso;
          _ ← notify env ("Reserve alerts (" +:+ big_to_string (Z.of_nat (length alerts)) +:+ ")")
                ("Trustee reserve cycle at " +:+ t +:+ " raised " +:+ big_to_string (Z.of_nat (length alerts)) +:+
                 " alert(s):" +:+ newline +:+ newline +:+ join_with newline (map (λ a, "• " +:+ a) alerts)) None;
          mret tt
      end
  end.

(** The events of which Redis does not remember that they were reported. *)
Definition unreported (dead : list OutboxEvent.t) (results : option (list Z)) : list OutboxEvent.t :=
  match results with
  | None => dead
  | Some rs => map fst (filter (λ dr : OutboxEvent.t * Z, dr.2 = 0) (zip dead rs))
  end.

Definition deadLetterAlert : prog Site unit :=
  dead ← on_db (find_many_desc TOutboxEvent OutboxEvent.deadLettered OutboxEvent.sequence 100);
  match dead with
  | [] => mret tt
  | _ =>
      if redis_available then
        results ← prog_catch (rs ← query (redis_sismember sent_key (map OutboxEvent.id dead)); mret (Some rs)) (λ _, mret None);
        match unreported dead results with
        | [] => mret tt
        | fresh =>
            _ ← on_db (notify env ("Webhook dead-letters (" +:+ big_to_string (Z.of_nat (length fresh)) +:+ ")")
                  ("The following outbox events exhausted delivery retries and were dead-lettered:" +:+ newline +:+ newline +:+
                   join_with newline (map dead_line fresh) +:+ newline +:+ newline +:+
                   "Investigate the receiver, then replay from the admin portal delivery log.") None);
            _ ← command (redis_sadd sent_key (map OutboxEvent.id fresh));
            mret tt
        end
      else mret tt
  end.

Definition tick_body : prog Site unit :=
  a ← acquire "reserve-cycle" (RESERVE_CYCLE_INTERVAL_MS env);
  (if (a : bool) then runSafely (on_db reserveCycle) else mret tt);;
  b ← acquire "deadletter-alert" (DEADLETTER_ALERT_INTERVAL_MS env);
  (if (b : bool) then runSafely deadLetterAlert else mret tt).

Definition stop_ticking : prog Site unit := action (λ s, (Ok tt, set_ticking false s)).

(** Ticks of one process never overlap. *)
Definition tick : prog Site unit :=
  busy ← action (λ s, (Ok (ticking s), set_ticking true s));
  if (busy : bool) then mret tt
  else prog_catch (tick_body;; stop_ticking) (λ e, stop_ticking;; Throw e).
End scheduler.

(** * Safety *)

Section scheduler_safe.
Context `{RT : !Runtime} `{PC : !PrismaClient} `{RD : !Redis} (env : Env).

Lemma keeps_set_nx k v ttl : keeps site_good site_later (command (redis_set_nx k v ttl)).
Proof.
  apply keeps_command. intros t r job u Hu H. destruct (decide (cron_key job = k)) as [<-|Hk].
  - by apply redis_set_nx_keeps.
  - rewrite (redis_set_nx_others k v ttl t r); done.
Qed.

Lemma keeps_acquire job ttl : keeps site_good site_later (acquire job ttl).
Proof.
  unfold acquire. destruct redis_available; [|apply keeps_ret].
  apply keeps_bind; [apply keeps_site_read|]. intros t.
  apply keeps_catch; [apply keeps_set_nx|intros e; apply keeps_ret].
Qed.

Lemma keeps_program_cycle p : keeps_good (program_cycle env p).
Proof.
  intros s Hs. unfold program_cycle. apply (safe_catch good later); [done| |done].
  apply (safe_keeps good later); [done|apply keeps_createSnapshot|]. intros snap w HL Hg.
  apply (safe_keeps good later); [done|apply Recon.keeps_reconcileReserve|]. intros r w1 HL1 Hg1.
  by apply (safe_keeps good later); [done|apply keeps_position|].
Qed.

Lemma keeps_reserveCycle : keeps_good (reserveCycle env).
Proof.
  intros s Hs. unfold reserveCycle. safe_step. destruct (where_rows _ _) as [|p ps]; [done|].
  apply (safe_keeps good later); [done| |intros alerts w1 HL1 Hg1; by destruct alerts; safe_steps].
  intros w1 Hg1. apply (safe_fold_each good later); [done|]. intros acc q w2 _ Hg2.
  by apply (safe_keeps good later); [done|apply keeps_program_cycle|].
Qed.

Lemma keeps_notify a b c : keeps_good (notify env a b c).
Proof.
  intros s Hs. unfold notify. cbv zeta. destruct (truthy _); [|done].
  by apply safe_call.
Qed.

Lemma keeps_deadLetterAlert : keeps site_good site_later (deadLetterAlert env).
Proof.
  unfold deadLetterAlert. apply keeps_bind; [apply keeps_on_db, keeps_read|]. intros [|d dead]; [apply keeps_ret|].
  destruct redis_available; [|apply keeps_ret].
  apply keeps_bind; [apply keeps_catch; [apply keeps_bind; auto with trustee|auto with trustee]|]. intros rs.
  destruct (unreported _ _) as [|x fresh]; [apply keeps_ret|].
  apply keeps_bind; [apply keeps_on_db, keeps_notify|]. intros _.
  apply keeps_bind; [|auto with trustee]. apply keeps_command. intros t r. by apply (locks_kept_others sent_key), redis_sadd_others.
Qed.

Lemma keeps_set_ticking {A} (f : Site → outcome A) (b : bool) :
  keeps site_good site_later (action (λ s, (f s, set_ticking b s))).
Proof. apply keeps_off_db; [done|]. by intros s job u. Qed.

Lemma keeps_tick : keeps site_good site_later (tick env).
Proof.
  unfold tick. apply keeps_bind; [apply (keeps_set_ticking (λ s, Ok (ticking s)))|]. intros [|]; [apply keeps_ret|].
  assert (∀ p : prog Site unit, keeps site_good site_later p → keeps site_good site_later (runSafely p)) as Hrun.
  { intros p Hp. apply keeps_catch; [done|intros e; apply keeps_ret]. }
  apply keeps_catch.
  - apply keeps_bind; [|intros _; apply (keeps_set_ticking (λ _, Ok tt))]. unfold tick_body.
    apply keeps_bind; [apply keeps_acquire|]. intros a. apply keeps_bind.
    { destruct a; [apply Hrun, keeps_on_db, keeps_reserveCycle|apply keeps_ret]. }
    intros _. apply keeps_bind; [apply keeps_acquire|]. intros b.
    destruct b; [apply Hrun, keeps_deadLetterAlert|apply keeps_ret].
  - intros e. apply keeps_bind; [apply (keeps_set_ticking (λ _, Ok tt))|]. intros _. apply keeps_throw.
Qed.
End scheduler_safe.

(** * One slot, one winner *)

Section slots.
Context `{RT : !Runtime} `{PC : !PrismaClient} `{RD : !Redis} (env : Env).

Lemma run_acquire job ttl s :
  redis_available = true →
  (run (acquire job ttl) s).1 =
    match (redis_set_nx (cron_key job) (toISOString (clock (db s))) ttl (clock (db s)) (redis s)).1 with
    | Ok b => Ok b
    | Err _ => Ok false
    end ∧
  (run (acquire job ttl) s).2 =
    set_redis (redis_set_nx (cron_key job) (toISOString (clock (db s))) ttl (clock (db s)) (redis s)).2 s.
Proof.
  intros E. unfold acquire. rewrite E, run_bind, run_read, run_catch. unfold command. rewrite run_action.
  by destruct (redis_set_nx _ _ _ _ _) as [[b|e] r].
Qed.

(** Claim C27 (one replica per slot).  With Redis, a job's slot is won exactly when no
    lock of it is held and Redis answers; and once a replica has won it at an instant
    [t], every other attempt before [t + ttl] fails, in any site reached from there by
    operations of the platform, those of other replicas, requests and jobs included. *)
Theorem slot_exclusive job ttl s (Hr : redis_available = true) :
  (∀ s', run (acquire job ttl) s = (Ok true, s') →
     live (cron_key job) (clock (db s)) (redis s) = None ∧
     ∀ s'' ttl', site_later s' s'' → clock (db s'') < clock (db s) + ttl → (run (acquire job ttl') s'').1 = Ok false) ∧
  (live (cron_key job) (clock (db s)) (redis s) = None →
   is_ok (redis_set_nx (cron_key job) (toISOString (clock (db s))) ttl (clock (db s)) (redis s)).1 = true →
   (run (acquire job ttl) s).1 = Ok true).
Proof.
  split.
  - intros s' H. destruct (run_acquire job ttl s Hr) as [H1 H2]. rewrite H in H1, H2. cbn [fst snd] in H1, H2.
    destruct (redis_set_nx _ _ _ _ _) as [o r] eqn:E. cbn [fst snd] in *. destruct o as [b|e]; [|done]. injection H1 as <-.
    pose proof (redis_set_nx_ok _ _ _ _ _ _ _ E) as Hok.
    destruct (live (cron_key job) (clock (db s)) (redis s)); [by destruct Hok|]. destruct Hok as [_ Hl].
    split; [done|]. intros s'' ttl' HL Ht. destruct (run_acquire job ttl' s'' Hr) as [-> _].
    destruct (redis_set_nx (cron_key job) _ ttl' _ _) as [[b|e] r''] eqn:E'; [|done]. cbn [fst].
    pose proof (redis_set_nx_ok _ _ _ _ _ _ _ E') as Hok'. pose proof (later_clock _ _ (site_db _ _ HL)) as Hc. subst s'.
    assert (is_Some (live (cron_key job) (clock (db s'')) (redis s''))) as [x Hx].
    { apply (site_locks _ _ HL job); [lia|]. cbn [redis set_redis db] in *. rewrite Hl by done.
      destruct (Z.ltb_spec (clock (db s'')) (clock (db s) + ttl)); [by eexists|lia]. }
    rewrite Hx in Hok'. by destruct Hok' as [-> _].
  - intros Hn Ho. destruct (run_acquire job ttl s Hr) as [-> _].
    destruct (redis_set_nx _ _ _ _ _) as [o r] eqn:E. destruct o as [b|e]; [|done]. cbn [fst].
    pose proof (redis_set_nx_ok _ _ _ _ _ _ _ E) as Hok. rewrite Hn in Hok. by destruct Hok as [-> _].
Qed.

(** Claim C28 (ticks).  A tick always returns, whatever fails inside it, and leaves
    the process ready for the next one; a tick that finds another one running in the
    process does nothing. *)
Theorem tick_returns s :
  (ticking s = true → run (tick env) s = (Ok tt, s)) ∧
  (ticking s = false → ∃ s', run (tick env) s = (Ok tt, s') ∧ ticking s' = false).
Proof.
  assert (∀ p : prog Site unit, ∀ s, ∃ s', run (runSafely p) s = (Ok tt, s')) as Hsafe.
  { intros p s0. unfold runSafely. rewrite run_catch. destruct (run p s0) as [[[]|e] s']; by eexists. }
  assert (∀ job ttl s, ∃ b s', run (acquire job ttl) s = (Ok b, s')) as Hacq.
  { intros job ttl s0. destruct (redis_available) eqn:Er.
    - destruct (run_acquire job ttl s0 Er) as [H1 H2]. destruct (run (acquire job ttl) s0) as [o s']. cbn in H1, H2.
      destruct (redis_set_nx _ _ _ _ _) as [[b|e] r]; cbn in H1; rewrite H1; by eexists _, _.
    - unfold acquire. rewrite Er. by eexists _, _. }
  split; intros Ht; unfold tick; rewrite run_bind, run_action, Ht; cbv iota beta; [by destruct s; cbn in *; subst|].
  rewrite run_catch, run_bind. set (s1 := set_ticking true s).
  assert (∃ s', run (tick_body env) s1 = (Ok tt, s')) as [s2 H2].
  { unfold tick_body. destruct (Hacq "reserve-cycle" (RESERVE_CYCLE_INTERVAL_MS env) s1) as (a & s2 & H2).
    rewrite run_bind, H2, run_bind.
    assert (∃ s', run (if a then runSafely (on_db (reserveCycle env)) else mret tt) s2 = (Ok tt, s')) as [s3 ->]
      by (destruct a; [apply Hsafe|by eexists]).
    destruct (Hacq "deadletter-alert" (DEADLETTER_ALERT_INTERVAL_MS env) s3) as (b & s4 & H4).
    rewrite run_bind, H4. destruct b; [apply Hsafe|by eexists]. }
  rewrite H2. unfold stop_ticking. rewrite run_action. by eexists.
Qed.
End slots.

(** * The properties at a concrete site *)

Lemma slot_exclusive_witness :
  ∃ s', run (@acquire (toy_redis true) "reserve-cycle" 3600000) (@mkSite (toy_redis true) demo_world ∅ false (∅ : gmap string (rvalue * option Z))) = (Ok true, s') ∧
    (run (@acquire (toy_redis true) "reserve-cycle" 3600000) s').1 = Ok false.
Proof.
  destruct (run_is_ok (@acquire (toy_redis true) "reserve-cycle" 3600000)
    (@mkSite (toy_redis true) demo_world ∅ false (∅ : gmap string (rvalue * option Z)))) as [b Hrun]; [vm_compute; reflexivity|].
  assert (b = true) as -> by (pose proof (f_equal fst Hrun) as E; vm_compute in E; injection E as <-; reflexivity).
  eexists. split; [exact Hrun|].
  destruct (@slot_exclusive (toy_redis true) "reserve-cycle" 3600000
    (@mkSite (toy_redis true) demo_world ∅ false (∅ : gmap string (rvalue * option Z))) eq_refl) as [H _].
  destruct (H _ Hrun) as [_ Hx]. apply Hx; [reflexivity|]. vm_compute. reflexivity.
Defined.

Lemma tick_returns_witness :
  ∃ s', run (@tick demo_runtime ref_client (toy_redis false) demo_env)
          (@mkSite (toy_redis false) demo_world ∅ false (∅ : gmap string (rvalue * option Z))) = (Ok tt, s') ∧ ticking s' = false.
Proof. apply (@tick_returns demo_runtime ref_client (toy_redis false) demo_env). reflexivity. Defined.
