(* ===== verification/JsValue.v ===== *)
(** JavaScript values as the clients of the API read them: truthiness, conversion to a
    text or an integer, properties and elements, where reading from null or undefined
    throws. *)
From S2P Require Import Prelude.
From S2P Require Import Crypto.
From S2P Require Import Worker.
From S2P Require Scheduler.
#[local] Open Scope string_scope.
#[local] Open Scope list_scope.
#[local] Open Scope Z_scope.

Definition js_truthy (v : jsval) : bool :=
  match v with
  | JUndefined | JNull | JBool false | JStr "" | JNum (Num 0) | JBig 0 => false
  | _ => true
  end.

(** [a ?? b] *)
Definition js_or (a b : jsval) : jsval := match a with JUndefined | JNull => b | _ => a end.

(** [String(v)] *)
Fixpoint js_String (v : jsval) : string :=
  match v with
  | JUndefined => "undefined"
  | JNull => "null"
  | JBool b => if b then "true" else "false"
  | JNum n => Scheduler.number_text n
  | JBig z => big_to_string z
  | JStr s => s
  | JArr l => join_with "," (map (λ x, match x with JUndefined | JNull => "" | _ => js_String x end) l)
  | JObj _ => "[object Object]"
  end.

(** [BigInt(v)] *)
Definition js_BigInt (v : jsval) : outcome Z :=
  match v with
  | JUndefined | JNull => Err (JsError "TypeError" "Cannot convert to a BigInt")
  | JBool b => Ok (if b then 1 else 0)
  | JNum (Num z) => Ok z
  | JNum (Infinity _) => Err (JsError "RangeError" "The number cannot be converted to a BigInt")
  | JBig z => Ok z
  | JStr s => BigInt s
  | JArr _ | JObj _ => BigInt (js_String v)
  end.

(** [v.k], which throws on null and undefined. *)
Definition js_prop (k : string) (v : jsval) : outcome jsval :=
  match v with
  | JUndefined | JNull => Err (JsError "TypeError" ("Cannot read properties of " +:+ js_String v))
  | _ => Ok (js_get k v)
  end.

(** The elements of [v ?? []] where the script calls an array's method on it. *)
Definition js_elements (v : jsval) : outcome (list jsval) :=
  match v with
  | JUndefined | JNull => Ok []
  | JArr l => Ok l
  | _ => Err (JsError "TypeError" "is not a function")
  end.

(** [l.find(f)] *)
Fixpoint js_find (f : jsval → outcome bool) (l : list jsval) : outcome (option jsval) :=
  match l with
  | [] => Ok None
  | x :: l' => b ← f x; if b : bool then Ok (Some x) else js_find f l'
  end.

