(* ===== verification/Adapters.v ===== *)
(** The adapters of [packages/adapters]: what is sent to the banks, to PayChain, to
    PayKH and to Stellar, and what is made of the answers.

    A program of an adapter runs over the number of calls made so far.  [fetch] and
    the Stellar SDK are parameters: a request and the number of earlier calls give
    the answer, or what is thrown (a timeout among others).  The body of an answer is
    read by a second step, which may throw as well. *)
From S2P Require Import Prelude.
From S2P Require Import Text.
From S2P Require Import Prog.
From S2P Require Import Crypto.
From S2P Require Import Credentials.
From S2P Require Import Infra.
From S2P Require Import Demo.
From S2P Require Import Stellar.
From S2P Require Import Worker.
From S2P Require Scheduler.
#[local] Open Scope string_scope.
#[local] Open Scope list_scope.
#[local] Open Scope Z_scope.

(** * The network *)

Record FetchRequest : Type := mkFetchRequest {
  fq_method : string; fq_url : string; fq_headers : list (string * string); fq_body : option string
}.

Record FetchResponse : Type := mkFetchResponse {
  fs_status : Z; fs_headers : list (string * string); fs_text : outcome string
}.

(** [res.ok] *)
Definition res_ok (r : FetchResponse) : bool := (200 <=? fs_status r) && (fs_status r <=? 299).

(** [Operation.payment] and [Operation.clawback] *)
Inductive StellarOperation : Type :=
| Payment (destination assetCode issuer amount : string)
| Clawback (assetCode issuer from amount : string).

Record StellarTransaction : Type := mkStellarTransaction {
  st_account : string; st_network : string; st_timeout : Z; st_operation : StellarOperation; st_signer : string
}.

Record StellarTxResult : Type := mkStellarTxResult { hash : string; ledger : option Z; successful : bool }.

Class Network : Type := {
  fetch : FetchRequest → nat → outcome FetchResponse;
  (** [Keypair.fromSecret(s).publicKey()] *)
  public_key_of : string → outcome string;
  (** [new Asset(code, issuer)]; the operation of a transaction; either may refuse *)
  new_asset : string → string → outcome unit;
  new_operation : StellarOperation → outcome unit;
  load_account : string → nat → outcome string;
  submit_transaction : StellarTransaction → nat → outcome StellarTxResult;
  (** the first record of [assets().forCode(code).forIssuer(issuer).limit(1)] *)
  first_asset : string → string → string → nat → outcome (option HorizonAssetRecord);
  latest_ledger : string → nat → outcome unit
}.

Record IntegrationHealth : Type := mkIntegrationHealth { healthy : bool; detail : option string }.

Record DeliveryResult : Type := mkDeliveryResult {
  delivered : bool; statusCode : option Z; attempt : Z; dr_error : option string
}.

Section network.
Context `{RT : !Runtime} `{NET : !Network}.

Definition outside {A} (f : nat → outcome A) : prog nat A := action (λ n, (f n, S n)).

Definition send (rq : FetchRequest) : prog nat FetchResponse := outside (fetch rq).

(** [await res.json()] *)
Definition res_json (r : FetchResponse) : outcome jsval :=
  text ← fs_text r;
  match json_parse text with Some v => Ok v | None => Err (JsError "SyntaxError" "Unexpected token") end.

Definition bearer_header (authToken : option string) : list (string * string) :=
  match truthy authToken with Some t => [("authorization", "Bearer " +:+ t)] | None => [] end.

(** [healthCheck] of an HTTP adapter *)
Definition http_health (baseUrl : string) : prog nat IntegrationHealth :=
  prog_catch
    (res ← send (mkFetchRequest "GET" (baseUrl +:+ "/health") [] None); mret (mkIntegrationHealth (res_ok res) None))
    (λ e, mret (mkIntegrationHealth false (Some (Scheduler.error_message e)))).

(** * PayChain and PayKH ([http-client-adapters.ts]) *)

Record HttpAdapterConfig : Type := mkHttpAdapterConfig {
  baseUrl : string; webhookUrl : string; ha_apiVersion : string; authToken : option string
}.

Definition post (url : string) (body : jsval) (headers : list (string * string)) : prog nat (bool * Z * string) :=
  res ← send (mkFetchRequest "POST" url (("content-type", "application/json") :: headers) (Some (stringify body)));
  text ← lift (fs_text res);
  mret (res_ok res, fs_status res, text).

Definition getAssetSupply (config : HttpAdapterConfig) (assetId : string) : prog nat jsval :=
  res ← send (mkFetchRequest "GET" (baseUrl config +:+ "/api/v1/trustee/assets/" +:+ assetId +:+ "/supply")
                (bearer_header (authToken config)) None);
  throw_if (negb (res_ok res)) (JsError "Error" ("PayChain supply fetch failed: " +:+ big_to_string (fs_status res)));;
  lift (res_json res).

(** Both adapters deliver alike. *)
Definition submitSignedEvent (config : HttpAdapterConfig) (envelope : jsval) : prog nat DeliveryResult :=
  prog_catch
    (r ← post (webhookUrl config) (wireBody envelope) (envelopeHeaders envelope);
     let '(ok, status, text) := r in
     mret (mkDeliveryResult ok (Some status) 1 (if ok : bool then None else Some text)))
    (λ e, mret (mkDeliveryResult false None 1 (Some (Scheduler.error_message e)))).

(** * PayChain's issuance endpoint ([paychain-issuance-adapter.ts]) *)

Record PayChainIssuanceConfig : Type := mkPayChainIssuanceConfig {
  pi_baseUrl : string; pi_apiVersion : string; pi_authToken : option string
}.

(** The request as the gateway builds it: [{ ...input, operation }]. *)
Definition js_issuance_request (req : IssuanceExecutionRequest) : jsval :=
  JObj [("authorizationId", JStr (ier_authorizationId req)); ("assetCode", JStr (ier_assetCode req));
        ("destination", JStr (ier_destination req)); ("amountMinor", JStr (ier_amountMinor req));
        ("decimals", JNum (Num (ier_decimals req))); ("currency", JStr (ier_currency req));
        ("reference", JStr (ier_reference req));
        ("signature", match ier_signature req with
                      | Some s => JObj [("keyId", JStr (keyId s)); ("alg", JStr "ed25519"); ("value", JStr (value s))]
                      | None => JUndefined
                      end);
        ("operation", JStr (ier_operation req))].

(** An answer that is not 2xx is a rejection; any other is taken as it is. *)
Definition execute (config : PayChainIssuanceConfig) (req : IssuanceExecutionRequest) : prog nat jsval :=
  res ← send (mkFetchRequest "POST" (pi_baseUrl config +:+ "/api/v1/trustee/issuance/execute")
    ([("content-type", "application/json"); ("x-api-version", pi_apiVersion config);
      ("x-idempotency-key", ier_reference req)] ++ bearer_header (pi_authToken config))
    (Some (stringify (js_issuance_request req))));
  text ← lift (fs_text res);
  if negb (res_ok res) then
    mret (JObj [("accepted", JBool false); ("status", JStr "REJECTED");
                ("detail", JStr ("HTTP " +:+ big_to_string (fs_status res) +:+ ": " +:+ take_string 200 text))])
  else lift (match json_parse text with Some v => Ok v | None => Err (JsError "SyntaxError" "Unexpected token") end).

(** * The bank ([bank-adapter.ts]) *)

Record HttpBankConfig : Type := mkHttpBankConfig { hb_baseUrl : string; hb_authToken : option string }.

Definition getBankBalance (config : HttpBankConfig) (accountRef : string) : prog nat jsval :=
  res ← send (mkFetchRequest "GET" (hb_baseUrl config +:+ "/accounts/" +:+ encodeURIComponent accountRef +:+ "/balance")
                (bearer_header (hb_authToken config)) None);
  throw_if (negb (res_ok res)) (JsError "Error" ("Bank balance fetch failed: " +:+ big_to_string (fs_status res)));;
  lift (res_json res).

(** * Stellar ([stellar-adapter.ts]) *)

Record HorizonStellarConfig : Type := mkHorizonStellarConfig {
  horizonUrl : string; networkPassphrase : option string; issuerSecret : option string; timeoutSeconds : option Z
}.

Record HorizonStellarAdapter : Type := mkHorizonStellarAdapter {
  hs_config : HorizonStellarConfig; issuer : option (string * string); hs_timeout : Z
}.

(** The constructor: [issuer] is the public key with the secret it signs with. *)
Definition new_horizon (config : HorizonStellarConfig) : outcome HorizonStellarAdapter :=
  issuer ← match truthy (issuerSecret config) with
           | Some secret => k ← public_key_of secret; Ok (Some (k, secret))
           | None => Ok None
           end;
  Ok (mkHorizonStellarAdapter config issuer (default 180 (timeoutSeconds config))).

Definition issuerPublicKey (a : HorizonStellarAdapter) : option string := fst <$> issuer a.

Definition requireIssuer (a : HorizonStellarAdapter) : outcome (string * string * string) :=
  match issuer a, truthy (networkPassphrase (hs_config a)) with
  | Some (k, secret), Some network => Ok (k, secret, network)
  | _, _ => Err (JsError "Error" "On-chain issuance is executed by PayChain (issuer of record); the trustee holds no issuing key. issue/burn require issuerSecret + networkPassphrase.")
  end.

Record StellarIssueRequest : Type := mkStellarIssueRequest {
  si_assetCode : string; si_destination : string; si_amountMinor : string; si_decimals : Z
}.
Record StellarBurnRequest : Type := mkStellarBurnRequest {
  sb_assetCode : string; sb_from : string; sb_amountMinor : string; sb_decimals : Z
}.

(** Build the transaction of one operation, sign and submit it. *)
Definition transact (a : HorizonStellarAdapter) (k secret network : string) (op : StellarOperation) : prog nat StellarTxResult :=
  account ← outside (load_account k);
  lift (new_operation op);;
  outside (submit_transaction (mkStellarTransaction account network (hs_timeout a) op secret)).

Definition issue (a : HorizonStellarAdapter) (req : StellarIssueRequest) : prog nat StellarTxResult :=
  r ← lift (requireIssuer a);
  let '(k, secret, network) := r in
  lift (new_asset (si_assetCode req) k);;
  minor ← lift (BigInt (si_amountMinor req));
  amount ← lift (minorToStellarAmount minor (si_decimals req));
  transact a k secret network (Payment (si_destination req) (si_assetCode req) k amount).

Definition burn (a : HorizonStellarAdapter) (req : StellarBurnRequest) : prog nat StellarTxResult :=
  r ← lift (requireIssuer a);
  let '(k, secret, network) := r in
  lift (new_asset (sb_assetCode req) k);;
  minor ← lift (BigInt (sb_amountMinor req));
  amount ← lift (minorToStellarAmount minor (sb_decimals req));
  transact a k secret network (Clawback (sb_assetCode req) k (sb_from req) amount).

Record StellarAssetRef : Type := mkStellarAssetRef { sa_assetCode : string; sa_issuer : string; sa_decimals : Z }.

Record StellarSupply : Type := mkStellarSupply {
  ss_assetCode : string; ss_issuer : string; circulatingMinor : string; ss_decimals : Z; ledgerReference : string
}.

(** Without the time of the read, [asOf]. *)
Definition getSupply (a : HorizonStellarAdapter) (asset : StellarAssetRef) : prog nat StellarSupply :=
  record ← outside (first_asset (horizonUrl (hs_config a)) (sa_assetCode asset) (sa_issuer asset));
  total ← lift (supply_of record (sa_decimals asset));
  mret (mkStellarSupply (sa_assetCode asset) (sa_issuer asset) (big_to_string total) (sa_decimals asset)
          (match record with Some r => paging_token r | None => "" end)).

Definition horizon_health (a : HorizonStellarAdapter) : prog nat IntegrationHealth :=
  prog_catch (outside (latest_ledger (horizonUrl (hs_config a)));; mret (mkIntegrationHealth true None))
    (λ e, mret (mkIntegrationHealth false (Some (Scheduler.error_message e)))).

(** * The gateway's adapters ([issuance-gateway.service.ts]) *)

Record IssuanceGateway : Type := mkIssuanceGateway {
  paychain : option PayChainIssuanceConfig; horizon : option HorizonStellarAdapter
}.

Definition liveExecution (g : IssuanceGateway) : bool := bool_decide (is_Some (paychain g)).
Definition onChainVerification (g : IssuanceGateway) : bool := bool_decide (is_Some (horizon g)).

(** The constructor, from [process.env]. *)
Definition new_gateway (penv : string → option string) : outcome IssuanceGateway :=
  let paychain := (λ url, mkPayChainIssuanceConfig url (default "v1" (penv "PAYCHAIN_API_VERSION"))
                            (penv "PAYCHAIN_ISSUANCE_TOKEN")) <$> truthy (penv "PAYCHAIN_ISSUANCE_URL") in
  horizon ← match truthy (penv "STELLAR_HORIZON_URL") with
            | Some url => a ← new_horizon (mkHorizonStellarConfig url None None None); Ok (Some a)
            | None => Ok None
            end;
  Ok (mkIssuanceGateway paychain horizon).
End network.

(** * The pilot adapters ([pilot-adapters.ts]) *)

(** [ManualTrusteeBankAdapter]: the recorded balances by account. *)
Definition setBalance (accountRef : string) (b : BankAccountBalance) (balances : gmap string BankAccountBalance) :
    gmap string BankAccountBalance := <[accountRef := b]> balances.

Definition manualBalance (balances : gmap string BankAccountBalance) (accountRef : string) : outcome BankAccountBalance :=
  match balances !! accountRef with
  | Some b => Ok b
  | None => Err (JsError "Error" ("No manual balance recorded for " +:+ accountRef))
  end.

Record KhqrPaymentRef : Type := mkKhqrPaymentRef { reference : string; khqrString : string }.

Definition createPaymentReference `{NC : !NodeCrypto} (recipientPayload amountMinor currency : string) : KhqrPaymentRef :=
  let reference := "KHQR-" +:+
    to_upper (take_string 12 (sha256Hex (recipientPayload +:+ ":" +:+ amountMinor +:+ ":" +:+ currency))) in
  mkKhqrPaymentRef reference (recipientPayload +:+ "|amt=" +:+ amountMinor +:+ "|ref=" +:+ reference).

Record ScreeningResult : Type := mkScreeningResult { cleared : bool; riskLevel : string }.

Definition screenPerson (fullName : string) : ScreeningResult :=
  let cleared := negb (bool_decide (trim fullName = "")) in
  mkScreeningResult cleared (if cleared then "LOW" else "HIGH").

Definition screenDeposit (amountMinor : string) : outcome ScreeningResult :=
  amount ← BigInt amountMinor;
  Ok (mkScreeningResult true (if 100000000 <=? amount then "MEDIUM" else "LOW")).

(** * Correctness *)

Section correct.
Context `{RT : !Runtime} `{NET : !Network}.

Lemma run_outside {A} (f : nat → outcome A) n : run (outside f) n = (f n, S n).
Proof. exact (run_action (λ m, (f m, S m)) n). Qed.

(** One step that must have succeeded, whatever it returned. *)
Lemma run_outside_ok {A B} (f : nat → outcome A) (k : A → prog nat B) n b n' :
  run (outside f ≫= k) n = (Ok b, n') ↔ ∃ a, f n = Ok a ∧ run (k a) (S n) = (Ok b, n').
Proof.
  rewrite run_bind, run_outside. destruct (f n) as [a|e]; split; try done.
  - intros H. by exists a.
  - by intros (a' & [= <-] & H).
  - by intros (? & ? & _).
Qed.

Lemma run_lift_ok {A B} (o : outcome A) (k : A → prog nat B) n b n' :
  run (lift o ≫= k) n = (Ok b, n') ↔ ∃ a, o = Ok a ∧ run (k a) n = (Ok b, n').
Proof.
  rewrite run_bind, run_lift. destruct o as [a|e]; split; try done.
  - intros H. by exists a.
  - by intros (a' & [= <-] & H).
  - by intros (? & ? & _).
Qed.

(** A delivery never throws, and is one exactly when the endpoint answered 2xx. *)
Lemma submitSignedEvent_delivers config envelope n :
  ∃ r, run (submitSignedEvent config envelope) n = (Ok r, S n) ∧
    (delivered r = true ↔ ∃ res text,
      fetch (mkFetchRequest "POST" (webhookUrl config)
               (("content-type", "application/json") :: envelopeHeaders envelope)
               (Some (stringify (wireBody envelope)))) n = Ok res ∧ res_ok res = true ∧ fs_text res = Ok text).
Proof.
  unfold submitSignedEvent. rewrite run_catch, run_bind. unfold post, send. rewrite run_bind, run_outside.
  set (rq := mkFetchRequest _ _ _ _).
  destruct (fetch rq n) as [res|e]; cbn [run].
  - rewrite run_bind, run_lift. destruct (fs_text res) as [text|e] eqn:Et; cbn.
    + eexists. split; [done|]. cbn. split; [intros Hok; by exists res, text|by intros (? & ? & [= <-] & -> & _)].
    + eexists. split; [done|]. cbn. split; [done|]. intros (? & ? & [= <-] & _ & Ht). by rewrite Et in Ht.
  - eexists. split; [done|]. cbn. split; [done|]. by intros (? & ? & ? & _).
Qed.

Lemma health_never_throws baseUrl n : ∃ h, run (http_health baseUrl) n = (Ok h, S n).
Proof.
  unfold http_health. rewrite run_catch, run_bind. unfold send. rewrite run_outside. destruct (fetch _ n); by eexists.
Qed.

(** A bank's balance and PayChain's supply come out of a 2xx answer only. *)
Lemma getBankBalance_ok config ref n v n' :
  run (getBankBalance config ref) n = (Ok v, n') →
  ∃ res, fetch (mkFetchRequest "GET" (hb_baseUrl config +:+ "/accounts/" +:+ encodeURIComponent ref +:+ "/balance")
                  (bearer_header (hb_authToken config)) None) n = Ok res ∧ res_ok res = true ∧ res_json res = Ok v.
Proof.
  unfold getBankBalance, send. intros (res & Hf & H)%run_outside_ok. exists res. split; [done|].
  apply run_lift_ok in H as ([] & Hok%throw_when_ok%negb_false_iff & H). split; [done|].
  rewrite run_lift in H. by injection H.
Qed.

Lemma getAssetSupply_ok config asset n v n' :
  run (getAssetSupply config asset) n = (Ok v, n') →
  ∃ res, fetch (mkFetchRequest "GET" (baseUrl config +:+ "/api/v1/trustee/assets/" +:+ asset +:+ "/supply")
                  (bearer_header (authToken config)) None) n = Ok res ∧ res_ok res = true ∧ res_json res = Ok v.
Proof.
  unfold getAssetSupply, send. intros (res & Hf & H)%run_outside_ok. exists res. split; [done|].
  apply run_lift_ok in H as ([] & Hok%throw_when_ok%negb_false_iff & H). split; [done|].
  rewrite run_lift in H. by injection H.
Qed.

(** An issuance that is not refused was answered 2xx. *)
Lemma execute_accepted config req n v n' :
  run (execute config req) n = (Ok v, n') → js_get "accepted" v ≠ JBool false →
  ∃ res, fetch (mkFetchRequest "POST" (pi_baseUrl config +:+ "/api/v1/trustee/issuance/execute")
    ([("content-type", "application/json"); ("x-api-version", pi_apiVersion config);
      ("x-idempotency-key", ier_reference req)] ++ bearer_header (pi_authToken config))
    (Some (stringify (js_issuance_request req)))) n = Ok res ∧ res_ok res = true ∧ res_json res = Ok v.
Proof.
  unfold execute, send. intros (res & Hf & H)%run_outside_ok Ha. exists res. split; [done|].
  apply run_lift_ok in H as (text & Ht & H). unfold res_json. rewrite Ht. cbn [mbind outcome_bind].
  destruct (res_ok res); cbn [negb] in H.
  - split; [done|]. rewrite run_lift in H. by injection H.
  - injection H as <- _. by destruct Ha.
Qed.
End correct.

(** ** Transactions *)

Section stellar.
Context `{RT : !Runtime} `{NET : !Network}.

Lemma transact_submits a k secret network op n r n' :
  run (transact a k secret network op) n = (Ok r, n') →
  ∃ account m, submit_transaction (mkStellarTransaction account network (hs_timeout a) op secret) m = Ok r.
Proof.
  unfold transact. intros (account & _ & H)%run_outside_ok. apply run_lift_ok in H as (_ & _ & H).
  rewrite run_outside in H. injection H as H _. by eexists _, _.
Qed.

Lemma requireIssuer_ok a k secret network :
  requireIssuer a = Ok (k, secret, network) → issuer a = Some (k, secret) ∧ truthy (networkPassphrase (hs_config a)) = Some network.
Proof.
  unfold requireIssuer. destruct (issuer a) as [[k0 s0]|]; [|done].
  destruct (truthy _) as [net|]; [|done]. by intros [= <- <- <-].
Qed.

(** The amount sent to Stellar is the requested one, for at most seven decimals. *)
Lemma amount_exact minor decimals amount :
  minorToStellarAmount minor decimals = Ok amount → 0 ≤ decimals ≤ 7 ∧ stellarAmountToMinor amount decimals = Ok minor.
Proof. intros H. pose proof (stellar_amount_roundtrip minor decimals) as Hr. by rewrite H in Hr. Qed.

(** The adapter of the gateway has no secret. *)
Lemma gateway_keyless penv g a : new_gateway penv = Ok g → horizon g = Some a → issuer a = None.
Proof.
  unfold new_gateway. destruct (truthy (penv "STELLAR_HORIZON_URL")) as [url|]; cbn.
  - by intros [= <-] [= <-].
  - by intros [= <-].
Qed.

(** Claim C37 (who moves value on Stellar, and how much).  An issuance or a burn that an
    adapter reports was submitted in a transaction signed with the adapter's own
    secret, whose single operation is of an amount that, read with the asset's decimals by
    the package's own parser (which drops further digits), is exactly the requested minor
    units, which at most seven decimals can express; the adapter that the trustee's gateway builds
    has no secret, so both its writes fail before anything is sent. *)
Theorem stellar_writes_exact (penv : string → option string) (a : HorizonStellarAdapter) (n : nat) :
  (∀ req r n', run (issue a req) n = (Ok r, n') →
     ∃ k secret account network amount minor m,
       issuer a = Some (k, secret) ∧ BigInt (si_amountMinor req) = Ok minor ∧
       stellarAmountToMinor amount (si_decimals req) = Ok minor ∧ 0 ≤ si_decimals req ≤ 7 ∧
       submit_transaction (mkStellarTransaction account network (hs_timeout a)
         (Payment (si_destination req) (si_assetCode req) k amount) secret) m = Ok r) ∧
  (∀ req r n', run (burn a req) n = (Ok r, n') →
     ∃ k secret account network amount minor m,
       issuer a = Some (k, secret) ∧ BigInt (sb_amountMinor req) = Ok minor ∧
       stellarAmountToMinor amount (sb_decimals req) = Ok minor ∧ 0 ≤ sb_decimals req ≤ 7 ∧
       submit_transaction (mkStellarTransaction account network (hs_timeout a)
         (Clawback (sb_assetCode req) k (sb_from req) amount) secret) m = Ok r) ∧
  ∀ g, new_gateway penv = Ok g → horizon g = Some a →
    (∀ req, ∃ e, run (issue a req) n = (Err e, n)) ∧ ∀ req, ∃ e, run (burn a req) n = (Err e, n).
Proof.
  split_and!.
  - intros req r n' H. unfold issue in H. apply run_lift_ok in H as ([[k secret] network] & Hi & H).
    apply requireIssuer_ok in Hi as [Hi _]. apply run_lift_ok in H as (_ & _ & H).
    apply run_lift_ok in H as (minor & Hm & H). apply run_lift_ok in H as (amount & [Hd Ha]%amount_exact & H).
    apply transact_submits in H as (account & m & H). by exists k, secret, account, network, amount, minor, m.
  - intros req r n' H. unfold burn in H. apply run_lift_ok in H as ([[k secret] network] & Hi & H).
    apply requireIssuer_ok in Hi as [Hi _]. apply run_lift_ok in H as (_ & _ & H).
    apply run_lift_ok in H as (minor & Hm & H). apply run_lift_ok in H as (amount & [Hd Ha]%amount_exact & H).
    apply transact_submits in H as (account & m & H). by exists k, secret, account, network, amount, minor, m.
  - intros g Hg Ha. pose proof (gateway_keyless _ _ _ Hg Ha) as Hk.
    assert (∃ e, requireIssuer a = Err e) as [e He] by (unfold requireIssuer; rewrite Hk; by eexists).
    split; intros req; exists e; unfold issue, burn; by rewrite He.
Qed.

(** The gateway asks PayChain under the idempotency key of the request. *)
Lemma gateway_key req config n v n' :
  run (execute config req) n = (Ok v, n') → js_get "accepted" v ≠ JBool false →
  ∃ hs body res, fetch (mkFetchRequest "POST" (pi_baseUrl config +:+ "/api/v1/trustee/issuance/execute") hs body) n = Ok res ∧
    ("x-idempotency-key", ier_reference req) ∈ hs ∧ body = Some (stringify (js_issuance_request req)).
Proof.
  intros H Ha. destruct (execute_accepted _ _ _ _ _ H Ha) as (res & Hf & _). eexists _, _, res. split; [exact Hf|].
  split; [|done]. apply elem_of_app. left. do 2 apply list_elem_of_further. apply list_elem_of_here.
Qed.
End stellar.

(** ** Concrete pilots *)

Example manual_balance (b b' : BankAccountBalance) :
  (manualBalance (setBalance "R1" b' (setBalance "R2" b (setBalance "R1" b ∅))) "R1",
   manualBalance (setBalance "R1" b' ∅) "R2") =
  (Ok b', Err (JsError "Error" "No manual balance recorded for R2")).
Proof. reflexivity. Qed.

Example screenings :
  (screenPerson "  ", screenPerson "Sok", screenDeposit "99999999", screenDeposit "100000000") =
  (mkScreeningResult false "HIGH", mkScreeningResult true "LOW",
   Ok (mkScreeningResult true "LOW"), Ok (mkScreeningResult true "MEDIUM")).
Proof. vm_compute. reflexivity. Qed.

(** A network with one key, one account and a Horizon that takes every transaction. *)
Definition demo_network : Network :=
  {| fetch := λ rq _, Ok (mkFetchResponse 503 [] (Ok "down"));
     public_key_of := λ s, if bool_decide (s = "S1") then Ok "G1" else Err (JsError "Error" "invalid secret");
     new_asset := λ _ _, Ok tt; new_operation := λ _, Ok tt; load_account := λ k _, Ok k;
     submit_transaction := λ tx n, Ok (mkStellarTxResult ("tx" +:+ big_to_string (Z.of_nat n)) (Some 7) true);
     first_asset := λ _ _ _ _, Ok None; latest_ledger := λ _ _, Ok tt |}.

Definition demo_issuer : HorizonStellarAdapter :=
  mkHorizonStellarAdapter (mkHorizonStellarConfig "https://horizon" (Some "Test Network") (Some "S1") None) (Some ("G1", "S1")) 180.

Lemma stellar_writes_exact_witness :
  @new_horizon demo_network (hs_config demo_issuer) = Ok demo_issuer ∧
  run (@issue demo_network demo_issuer (mkStellarIssueRequest "PUSD" "GDEST" "123456" 2)) 0%nat =
    (Ok (mkStellarTxResult "tx1" (Some 7) true), 2%nat) ∧
  ∃ amount minor, BigInt "123456" = Ok minor ∧ stellarAmountToMinor amount 2 = Ok minor.
Proof.
  assert (run (@issue demo_network demo_issuer (mkStellarIssueRequest "PUSD" "GDEST" "123456" 2)) 0%nat =
    (Ok (mkStellarTxResult "tx1" (Some 7) true), 2%nat)) as H by (vm_compute; reflexivity).
  split; [vm_compute; reflexivity|]. split; [exact H|].
  destruct (@stellar_writes_exact demo_network (λ _, None) demo_issuer 0%nat) as (Hi & _).
  destruct (Hi _ _ _ H) as (k & secret & account & network & amount & minor & m & _ & Hm & Ha & _).
  exists amount, minor. split; [exact Hm|exact Ha].
Defined.
