(* ===== verification/Console.v ===== *)
(** The operator console ([packages/portal-ui/src/admin-console.html.ts]): the script
    of the page, as a client of the API.

    A [Browser] is the session the script holds, what it stored for a reload, the page
    that is shown, the timer of the session, what the operator was told and the requests
    that were sent.  The functions of the script are programs over it, with the
    values of the input fields, the answers to [prompt] ([None] when cancelled) and to
    [confirm], and the clock, as arguments.  Views are the requests they make and what
    they keep of the answers; their HTML is not modelled. *)
From S2P Require Import Prelude.
From S2P Require Import Text.
From S2P Require Import Prog.
From S2P Require Import Crypto.
From S2P Require Import Credentials.
From S2P Require Import Infra.
From S2P Require Import JsValue.
From S2P Require Import Worker.
From S2P Require Import Adapters.
From S2P Require Scheduler.
#[local] Open Scope string_scope.
#[local] Open Scope list_scope.
#[local] Open Scope Z_scope.

(** * The page *)

Inductive Screen : Type := LOGIN | APP | RESET.

(** A request: the arguments of [api]. *)
Record ConsoleRequest : Type := mkConsoleRequest { cq_method : string; cq_path : string; cq_body : option jsval }.

(** What [S] has of the operator. *)
Record Session : Type := mkSession { token : jsval; email : jsval; userId : jsval }.

Definition no_session : Session := mkSession (JStr "") (JStr "") (JStr "").

Record Browser : Type := mkBrowser {
  session : Session;
  mfaEnabled : bool;
  (** [S.prog], the program selected *)
  S_prog : jsval;
  newProgramId : jsval;
  tab : string;
  (** [sessionStorage.getItem('tc')] *)
  stored : option string;
  screen : option Screen;
  (** the instant for which [sessionExpired] is set *)
  expTimer : option Z;
  loginErr : string;
  alerts : list string;
  requests : list ConsoleRequest
}.

(** The page as it is loaded, over what an earlier one stored. *)
Definition loaded (b : Browser) : Browser :=
  mkBrowser no_session false (JStr "") JUndefined "dashboard" (stored b) None None "" (alerts b) (requests b).

Definition set_session (s : Session) (b : Browser) : Browser :=
  mkBrowser s (mfaEnabled b) (S_prog b) (newProgramId b) (tab b) (stored b) (screen b) (expTimer b) (loginErr b) (alerts b) (requests b).
Definition set_mfaEnabled (x : bool) (b : Browser) : Browser :=
  mkBrowser (session b) x (S_prog b) (newProgramId b) (tab b) (stored b) (screen b) (expTimer b) (loginErr b) (alerts b) (requests b).
Definition set_S_prog (x : jsval) (b : Browser) : Browser :=
  mkBrowser (session b) (mfaEnabled b) x (newProgramId b) (tab b) (stored b) (screen b) (expTimer b) (loginErr b) (alerts b) (requests b).
Definition set_newProgramId (x : jsval) (b : Browser) : Browser :=
  mkBrowser (session b) (mfaEnabled b) (S_prog b) x (tab b) (stored b) (screen b) (expTimer b) (loginErr b) (alerts b) (requests b).
Definition set_tab (x : string) (b : Browser) : Browser :=
  mkBrowser (session b) (mfaEnabled b) (S_prog b) (newProgramId b) x (stored b) (screen b) (expTimer b) (loginErr b) (alerts b) (requests b).
Definition set_stored (x : option string) (b : Browser) : Browser :=
  mkBrowser (session b) (mfaEnabled b) (S_prog b) (newProgramId b) (tab b) x (screen b) (expTimer b) (loginErr b) (alerts b) (requests b).
Definition set_screen (x : Screen) (b : Browser) : Browser :=
  mkBrowser (session b) (mfaEnabled b) (S_prog b) (newProgramId b) (tab b) (stored b) (Some x) (expTimer b) (loginErr b) (alerts b) (requests b).
Definition set_expTimer (x : option Z) (b : Browser) : Browser :=
  mkBrowser (session b) (mfaEnabled b) (S_prog b) (newProgramId b) (tab b) (stored b) (screen b) x (loginErr b) (alerts b) (requests b).
Definition set_loginErr (x : string) (b : Browser) : Browser :=
  mkBrowser (session b) (mfaEnabled b) (S_prog b) (newProgramId b) (tab b) (stored b) (screen b) (expTimer b) x (alerts b) (requests b).
Definition add_alert (x : string) (b : Browser) : Browser :=
  mkBrowser (session b) (mfaEnabled b) (S_prog b) (newProgramId b) (tab b) (stored b) (screen b) (expTimer b) (loginErr b)
    (alerts b ++ [x]) (requests b).
Definition set_requests (x : list ConsoleRequest) (b : Browser) : Browser :=
  mkBrowser (session b) (mfaEnabled b) (S_prog b) (newProgramId b) (tab b) (stored b) (screen b) (expTimer b) (loginErr b) (alerts b) x.

Definition upd (f : Browser → Browser) : prog Browser unit := action (λ b, (Ok tt, f b)).

Definition alert (m : string) : prog Browser unit := upd (add_alert m).
Definition show (x : Screen) : prog Browser unit := upd (set_screen x).

(** [h(s)]: what is written into the HTML of a value. *)
Fixpoint escape_html (s : string) : string :=
  match s with
  | EmptyString => ""
  | String a s' =>
      (if Ascii.eqb a "&" then "&amp;" else if Ascii.eqb a "<" then "&lt;" else if Ascii.eqb a ">" then "&gt;"
       else if Ascii.eqb a "034"%char then "&quot;" else String a "") +:+ escape_html s'
  end.
Definition h (v : jsval) : string :=
  match v with JUndefined | JNull => "" | _ => escape_html (js_String v) end.

(** [s.indexOf(p) >= 0] *)
Fixpoint includes (p s : string) : bool :=
  starts_with p s || match s with EmptyString => false | String _ s' => includes p s' end.

(** [p.replace(/-/g,'+').replace(/_/g,'/')] *)
Fixpoint unurl (s : string) : string :=
  match s with
  | EmptyString => ""
  | String a s' => String (if Ascii.eqb a "-" then "+"%char else if Ascii.eqb a "_" then "/"%char else a) (unurl s')
  end.

(** * Requests *)

Definition get (path : string) : ConsoleRequest := mkConsoleRequest "GET" path None.
Definition post (path : string) (body : jsval) : ConsoleRequest := mkConsoleRequest "POST" path (Some body).
Definition post_ (path : string) : ConsoleRequest := mkConsoleRequest "POST" path None.
Definition put (path : string) (body : jsval) : ConsoleRequest := mkConsoleRequest "PUT" path (Some body).

(** What [api] resolves with, or the error it throws: message, body, status. *)
Inductive ApiResult : Type :=
| Answer (b : jsval)
| Refused (message : string) (body : jsval) (status : option Z).

(** The browser: [fetch], and [atob], which throws on a text that is no base64. *)
Class Web : Type := {
  web_fetch : FetchRequest → nat → outcome FetchResponse;
  atob : string → outcome string
}.

Section console.
Context `{RT : !Runtime} `{WB : !Web} (API : string).

Definition clear_session : prog Browser unit :=
  upd (set_expTimer None);; upd (set_stored None);; upd (set_session no_session);; show LOGIN.

Definition sessionExpired : prog Browser unit :=
  clear_session;; upd (set_loginErr "Your session has expired. Please sign in again.").

Definition logout : prog Browser unit := clear_session.

Definition fetch_request (s : Session) (rq : ConsoleRequest) : FetchRequest :=
  mkFetchRequest (cq_method rq) (API +:+ cq_path rq)
    (("content-type", "application/json") ::
     (if js_truthy (token s) then [("authorization", "Bearer " +:+ js_String (token s))] else []))
    (stringify <$> cq_body rq).

(** [b.message||('HTTP '+r.status)] *)
Definition refusal (status : Z) (b : jsval) : ApiResult :=
  match js_prop "message" b with
  | Ok m => Refused (if js_truthy m then js_String m else "HTTP " +:+ big_to_string status) b (Some status)
  | Err e => Refused (Scheduler.error_message e) JUndefined None
  end.

(** [t?JSON.parse(t):{}], or the raw text. *)
Definition answer_of (t : string) : jsval :=
  if bool_decide (t = "") then JObj [] else default (JObj [("raw", JStr t)]) (json_parse t).

(** The rest of [api], with the response; the session is the one held by then. *)
Definition receive (path : string) (r : outcome (FetchResponse * string)) : prog Browser ApiResult :=
  match r with
  | Err e => mret (Refused (Scheduler.error_message e) JUndefined None)
  | Ok (res, t) =>
      let b := answer_of t in
      held ← read (λ b, js_truthy (token (session b)));
      if (fs_status res =? 401) && held && negb (includes "/auth/login" path) then
        sessionExpired;; mret (Refused "Session expired" b (Some 401))
      else if res_ok res then mret (Answer b)
      else mret (refusal (fs_status res) b)
  end.

Definition transfer (rq : ConsoleRequest) : prog Browser (outcome (FetchResponse * string)) :=
  action (λ b, (Ok (res ← web_fetch (fetch_request (session b) rq) (length (requests b)); t ← fs_text res; Ok (res, t)),
                set_requests (requests b ++ [rq]) b)).

Definition api (rq : ConsoleRequest) : prog Browser ApiResult :=
  r ← transfer rq; receive (cq_path rq) r.

(** [api] with what a [try] does with the answer and the [catch] with the message. *)
Definition api_then (rq : ConsoleRequest) (k : jsval → prog Browser unit) (failed : string → prog Browser unit) : prog Browser unit :=
  r ← api rq;
  match r with
  | Answer b => k b
  | Refused m _ _ => failed m
  end.

(** [S.email||'admin'] *)
Definition actor_of (s : Session) : jsval := if js_truthy (email s) then email s else JStr "admin".
Definition actor (s : Session) : string * jsval := ("actor", actor_of s).

(** [x||undefined] of a text *)
Definition or_undefined (x : string) : jsval := if bool_decide (x = "") then JUndefined else JStr x.

(** * The session *)

(** The [exp] of the second part of a token, in milliseconds; 0 when it has none. *)
Definition tokenExp (tok : jsval) : Z :=
  match (if js_truthy tok then tok else JStr "") with
  | JStr t =>
      match split_on "." t !! 1%nat with
      | Some p =>
          if bool_decide (p = "") then 0
          else match (j ← atob (unurl p);
                      v ← match json_parse j with Some v => Ok v | None => Err (JsError "SyntaxError" "Unexpected token") end;
                      js_prop "exp" v) with
               | Ok (JNum (Num z)) => z * 1000
               | _ => 0
               end
      | None => 0
      end
  | _ => 0
  end.

Definition scheduleExpiry (now : Z) : prog Browser unit :=
  upd (set_expTimer None);;
  exp ← read (λ b, tokenExp (token (session b)));
  if exp =? 0 then mret tt
  else if exp - now <=? 0 then sessionExpired
  else upd (set_expTimer (Some exp)).

(** * The views *)

(** Requests sent together ([Promise.all]), their answers taken in the same order. *)
Fixpoint send_all (l : list ConsoleRequest) : prog Browser (list (string * outcome (FetchResponse * string))) :=
  match l with
  | [] => mret []
  | rq :: l' => r ← transfer rq; rs ← send_all l'; mret ((cq_path rq, r) :: rs)
  end.
Fixpoint receive_all (l : list (string * outcome (FetchResponse * string))) : prog Browser (list ApiResult) :=
  match l with
  | [] => mret []
  | (path, r) :: l' => x ← receive path r; xs ← receive_all l'; mret (x :: xs)
  end.
Definition load (l : list ConsoleRequest) : prog Browser (list ApiResult) := rs ← send_all l; receive_all rs.

(** Requests made inside a [try]: their answers are shown, or the error is. *)
Definition show_all (l : list ConsoleRequest) : prog Browser unit := _ ← load l; mret tt.

(** Outside a [try] an error leaves the function: the promise of the view is rejected,
    and nobody handles it. *)
Fixpoint answers (rs : list ApiResult) : outcome (list jsval) :=
  match rs with
  | [] => Ok []
  | Answer b :: rs' => l ← answers rs'; Ok (b :: l)
  | Refused m _ _ :: _ => Err (JsError "Error" m)
  end.
Definition await_all (l : list ConsoleRequest) : prog Browser (list jsval) := rs ← load l; lift (answers rs).
Definition await_api (rq : ConsoleRequest) : prog Browser jsval := r ← api rq; lift (match r with Answer b => Ok b | Refused m _ _ => Err (JsError "Error" m) end).

Definition no_method : exn := JsError "TypeError" "is not a function".
(** [v] in [v.map(...)] *)
Definition mapped (v : jsval) : outcome (list jsval) := match v with JArr l => Ok l | JUndefined | JNull => js_prop "map" v ≫= λ _, Ok [] | _ => Err no_method end.
(** [v.k.map(x => ... )], with what the arrow reads of each element. *)
Fixpoint each_reads (f : jsval → outcome unit) (l : list jsval) : outcome unit :=
  match l with [] => Ok tt | x :: l' => f x;; each_reads f l' end.
Definition map_prop (k : string) (f : jsval → outcome unit) (v : jsval) : outcome unit :=
  a ← js_prop k v; l ← mapped a; each_reads f l.
(** [(v.k||[]).map(x => ...)] *)
Definition map_prop_or (k : string) (f : jsval → outcome unit) (v : jsval) : outcome unit :=
  a ← js_prop k v; l ← mapped (if js_truthy a then a else JArr []); each_reads f l.
(** [x.k] of something that may be [undefined] *)
Definition reads (k : string) (x : jsval) : outcome unit := _ ← js_prop k x; Ok tt.

(** [v[0]] *)
Definition first_of (v : jsval) : outcome jsval :=
  match v with
  | JArr (x :: _) => Ok x
  | JStr (String c _) => Ok (JStr (String c ""))
  | _ => js_prop "0" v
  end.

Definition id_of (v : jsval) : string := js_String (js_get "id" v).

Definition programs_request : ConsoleRequest := get "/api/v1/trustee/programs".
Definition flags_request : ConsoleRequest := get "/api/v1/admin/feature-flags".
Definition controls_request : ConsoleRequest := get "/api/v1/admin/controls".
Definition reserve_request (p : string) : ConsoleRequest := get ("/api/v1/admin/reserve/" +:+ p).
Definition ihLoad_request : ConsoleRequest := get "/api/v1/admin/integration-health".
Definition users_request : ConsoleRequest := get "/api/v1/admin/users".
Definition roles_request : ConsoleRequest := get "/api/v1/admin/roles".
Definition policies_request : ConsoleRequest := get "/api/v1/admin/policies".
Definition clients_request : ConsoleRequest := get "/api/v1/admin/clients".
Definition usage_request : ConsoleRequest := get "/api/v1/admin/usage".
Definition progPicker_request : ConsoleRequest := get "/api/v1/admin/ops/programs".
Definition queues_request : ConsoleRequest := get "/api/v1/admin/ops/queues".
Definition reserveReport_request (p : string) : ConsoleRequest := get ("/api/v1/admin/reports/reserve/" +:+ p).
Definition liabilityReport_request (p : string) : ConsoleRequest := get ("/api/v1/admin/reports/liability/" +:+ p).
Definition trialBalance_request (p : string) : ConsoleRequest := get ("/api/v1/admin/ledger/" +:+ p +:+ "/trial-balance").
Definition entries_request (p : string) : ConsoleRequest := get ("/api/v1/admin/ledger/" +:+ p +:+ "/entries?limit=40").
Definition reconciliations_request : ConsoleRequest := get "/api/v1/admin/reconciliations".
Definition banks_request : ConsoleRequest := get "/api/v1/bank/bank-connections".
Definition accounts_request (p : string) : ConsoleRequest := get ("/api/v1/bank/reserves/" +:+ p +:+ "/accounts").
Definition loyalty_request : ConsoleRequest := get "/api/v1/bank/loyalty-liabilities".
Definition adjustments_request (p : string) : ConsoleRequest := get ("/api/v1/bank/reserves/" +:+ p +:+ "/adjustments").
Definition attestations_request : ConsoleRequest := get "/api/v1/admin/attestations".
(** [q] is the filter, as [encodeURIComponent] writes it. *)
Definition audit_request (q : string) : ConsoleRequest :=
  get ("/api/v1/admin/audit?limit=200" +:+ (if bool_decide (q = "") then "" else "&action=" +:+ q)).
Definition webhooks_request (status : string) : ConsoleRequest :=
  get ("/api/v1/admin/webhooks" +:+ (if bool_decide (status = "") then "" else "?status=" +:+ status)).
Definition deliveries_request (id : string) : ConsoleRequest := get ("/api/v1/admin/webhooks/" +:+ id +:+ "/deliveries").

Definition selected : prog Browser string := read (λ b, js_String (S_prog b)).

Definition ihLoad : prog Browser unit := show_all [ihLoad_request].

Definition vDash : prog Browser unit :=
  rs ← load [ihLoad_request; programs_request; flags_request; controls_request];
  match rs with
  | [_; Answer progs; Answer _; Answer _] =>
      match (a ← js_prop "programs" progs; first_of (if js_truthy a then a else JArr [])) with
      | Ok p => if js_truthy p then show_all [reserve_request (id_of p)] else mret tt
      | Err _ => mret tt
      end
  | _ => mret tt
  end.

(** The roles are taken for the options of the form, then the users for the table. *)
Definition vUsers : prog Browser unit :=
  bs ← await_all [users_request; roles_request];
  match bs with
  | [u; r] => lift (map_prop "roles" (reads "institution") r);; lift (map_prop "users" (map_prop "roles" (λ _, Ok tt)) u)
  | _ => mret tt
  end.
Definition vRoles : prog Browser unit :=
  r ← await_api roles_request;
  lift (map_prop "roles" (λ x, p ← js_prop "permissions" x; reads "length" p) r).
Definition vPolicies : prog Browser unit :=
  p ← await_api policies_request; lift (map_prop "policies" (map_prop "requiredRoles" (λ _, Ok tt)) p).
(** [x.key.indexOf(...)], which texts and arrays have. *)
Definition vFlags : prog Browser unit :=
  f ← await_api flags_request;
  lift (map_prop "flags" (λ x, k ← js_prop "key" x;
                            match k with
                            | JStr _ | JArr _ => Ok tt
                            | JUndefined | JNull => reads "indexOf" k
                            | _ => Err no_method
                            end) f).
Definition vControls : prog Browser unit :=
  c ← await_api controls_request; lift (map_prop_or "controls" (reads "key") c).
Definition vApiMgmt : prog Browser unit := show_all [clients_request; usage_request].
Definition vOps : prog Browser unit := show_all [queues_request].

(** The first program is selected when none is. *)
Definition progPicker : prog Browser unit :=
  p ← await_api progPicker_request;
  none ← read (λ b, negb (js_truthy (S_prog b)));
  (if none : bool then
     first ← lift (a ← js_prop "programs" p; first_of a);
     if js_truthy first then id ← lift (js_prop "id" first); upd (set_S_prog id) else mret tt
   else mret tt);;
  lift (map_prop "programs" (reads "id") p).

(** Without the picker there is no view. *)
Definition vTreasury : prog Browser unit :=
  progPicker;; p ← selected; show_all [reserveReport_request p; liabilityReport_request p].
Definition vLedger : prog Browser unit :=
  progPicker;; p ← selected; show_all [trialBalance_request p; entries_request p].
Definition vRecon : prog Browser unit := show_all [reconciliations_request].

Definition adjLoad : prog Browser unit :=
  picked ← read (λ b, js_truthy (S_prog b));
  if picked : bool then p ← selected; show_all [adjustments_request p] else mret tt.

(** Requests of one [try], one after the other, each with what the script reads of its
    answer, up to the first error. *)
Fixpoint load_in_turn (l : list (ConsoleRequest * (jsval → outcome unit))) (k : prog Browser unit) : prog Browser unit :=
  match l with
  | [] => k
  | (rq, shown) :: l' => api_then rq (λ b, if shown b is Ok _ then load_in_turn l' k else mret tt) (λ _, mret tt)
  end.

(** The rows of the bank connections are also the options of every account. *)
Definition bkLoad : prog Browser unit :=
  load_in_turn [(banks_request, map_prop_or "banks" (reads "bankId"))]
    (picked ← read (λ b, js_truthy (S_prog b)); p ← selected;
     load_in_turn
       ((if picked : bool then [(accounts_request p, map_prop_or "accounts" (reads "id"))] else [])
        ++ [(loyalty_request, map_prop_or "liabilities" (reads "paykhProgramId"))]) adjLoad).
Definition vBanking : prog Browser unit := progPicker;; bkLoad.
Definition auditGo (q : string) : prog Browser unit := show_all [audit_request q].
Definition vAudit : prog Browser unit := auditGo "".
Definition vCompliance : prog Browser unit := progPicker;; show_all [controls_request; attestations_request].
Definition whLoad (status : string) : prog Browser unit := show_all [webhooks_request status].
Definition vWebhooks : prog Browser unit := whLoad "".
Definition whLog (id : string) : prog Browser unit := show_all [deliveries_request id].

(** The functions an object literal inherits that end when they are called on it. *)
Definition inherited_functions : list string :=
  ["constructor"; "hasOwnProperty"; "isPrototypeOf"; "propertyIsEnumerable"; "toLocaleString"; "toString"; "valueOf";
   "__lookupGetter__"; "__lookupSetter__"].

(** The views by their tabs; [vSecurity] and [vProvision] make no request, and of another
    name there is nothing to call. *)
Definition go (t : string) : prog Browser unit :=
  upd (set_tab t);;
  if bool_decide (t = "dashboard") then vDash
  else if bool_decide (t = "users") then vUsers
  else if bool_decide (t = "roles") then vRoles
  else if bool_decide (t = "policies") then vPolicies
  else if bool_decide (t = "flags") then vFlags
  else if bool_decide (t = "controls") then vControls
  else if bool_decide (t = "apimgmt") then vApiMgmt
  else if bool_decide (t = "ops") then vOps
  else if bool_decide (t = "treasury") then vTreasury
  else if bool_decide (t = "ledger") then vLedger
  else if bool_decide (t = "recon") then vRecon
  else if bool_decide (t = "banking") then vBanking
  else if bool_decide (t = "audit") then vAudit
  else if bool_decide (t = "compliance") then vCompliance
  else if bool_decide (t = "webhooks") then vWebhooks
  else if bool_decide (t ∈ ["security"; "provision"] ++ inherited_functions) then mret tt
  else lift (Err no_method).

(** * Signing in and out *)

Definition login_request (em pw code : string) : ConsoleRequest :=
  post "/api/v1/auth/login" (JObj [("email", JStr em); ("password", JStr pw); ("code", or_undefined code)]).

(** The [try] of [login] after the answer [r], up to the first view. *)
Definition signed_in (r : jsval) (now : Z) : prog Browser unit :=
  mfa ← lift (js_prop "mfaRequired" r);
  if js_truthy mfa then upd (set_loginErr "Enter your MFA code.")
  else
    tok ← lift (js_prop "token" r);
    upd (λ b, set_session (mkSession tok (email (session b)) (userId (session b))) b);;
    user ← lift (js_prop "user" r);
    em ← lift (js_prop "email" user);
    upd (λ b, set_session (mkSession tok em (userId (session b))) b);;
    upd (set_mfaEnabled (js_truthy (js_get "mfaEnabled" user)));;
    upd (set_session (mkSession tok em (js_get "userId" user)));;
    upd (set_stored (Some (stringify (JObj [("token", tok); ("email", em); ("userId", js_get "userId" user)]))));;
    show APP;;
    _ ← lift (match js_get "roles" user with
              | JArr _ => Ok tt
              | v => if js_truthy v then Err (JsError "TypeError" "join is not a function") else Ok tt
              end);
    scheduleExpiry now;;
    enrolled ← read mfaEnabled;
    go (if enrolled : bool then "dashboard" else "security").

Definition login (em pw code : string) (now : Z) : prog Browser unit :=
  upd (set_loginErr "");;
  r ← api (login_request (trim em) pw (trim code));
  match r with
  | Answer b => prog_catch (signed_in b now) (λ e, upd (set_loginErr (Scheduler.error_message e)))
  | Refused m _ status =>
      upd (set_loginErr (if bool_decide (status = Some 401) then "Invalid credentials or MFA code."
                         else if bool_decide (m = "") then "Login failed" else m))
  end.

(** The script as the page loads, with the [reset_token] of its address. *)
Definition restored (o : jsval) (now : Z) : prog Browser unit :=
  tok ← lift (js_prop "token" o);
  let exp := if js_truthy tok then tokenExp tok else 0 in
  if negb (js_truthy tok) || (negb (exp =? 0) && (exp <=? now)) then upd (set_stored None);; show LOGIN
  else
    upd (set_session (mkSession tok (js_get "email" o) (js_get "userId" o)));;
    show APP;; scheduleExpiry now;; go "dashboard".

Definition init (reset_token : string) (now : Z) : prog Browser unit :=
  if negb (bool_decide (reset_token = "")) then show RESET
  else
    s ← read stored;
    match truthy s with
    | None => show LOGIN
    | Some t =>
        match json_parse t with
        | Some o => prog_catch (restored o now) (λ _, show LOGIN)
        | None => show LOGIN
        end
    end.

(** [setTimeout(sessionExpired, ms)] has come. *)
Definition timer_fires (now : Z) : prog Browser unit :=
  t ← read expTimer;
  match t with
  | Some exp => if exp <=? now then sessionExpired else mret tt
  | None => mret tt
  end.

Definition forgot_request (em : string) : ConsoleRequest := post "/api/v1/auth/forgot-password" (JObj [("email", JStr em)]).

(** The address of the field, or the one asked for. *)
Definition forgot (field : string) (asked : option string) : prog Browser unit :=
  let em := if bool_decide (trim field = "") then default "" asked else trim field in
  if bool_decide (em = "") then mret tt
  else api_then (forgot_request em) (λ _, upd (set_loginErr "If that email exists, a reset link has been sent."))
         (λ m, upd (set_loginErr (if bool_decide (m = "") then "Could not send reset email" else m))).

Definition doReset_request (resetToken : option string) (p : string) : ConsoleRequest :=
  post "/api/v1/auth/reset-password"
    (JObj [("token", match resetToken with Some t => JStr t | None => JNull end); ("newPassword", JStr p)]).

(** After a reset the page is loaded again without its query. *)
Definition doReset (p p2 : string) (resetToken : option string) (now : Z) : prog Browser unit :=
  if negb (bool_decide (p = p2)) then mret tt
  else api_then (doReset_request resetToken p)
         (λ _, alert "Password reset. Please sign in.";; upd loaded;; init "" now)
         (λ _, mret tt).

Definition changePw_request (c n : string) : ConsoleRequest :=
  post "/api/v1/auth/change-password" (JObj [("currentPassword", JStr c); ("newPassword", JStr n)]).
Definition changePw (c n : string) : prog Browser unit :=
  api_then (changePw_request c n) (λ _, alert "Password changed.") (λ _, mret tt).

(** The element the setup is shown in is only there while the second factor is off;
    without it the function throws before its request, outside its [try]. *)
Definition startMfaSetup_request : ConsoleRequest := post_ "/api/v1/auth/mfa/setup".
Definition startMfaSetup : prog Browser unit :=
  on ← read mfaEnabled;
  if on : bool then lift (Err (JsError "TypeError" "Cannot set properties of null"))
  else show_all [startMfaSetup_request].

Definition enableMfa_request (code : string) : ConsoleRequest :=
  post "/api/v1/auth/mfa/enable" (JObj [("code", JStr code)]).
Definition enableMfa (code : string) : prog Browser unit :=
  api_then (enableMfa_request (trim code))
    (λ _, alert "2FA activated. Please sign in again with your authenticator code.";; logout) (λ _, mret tt).

(** * What an operator does *)

(** The error of an action is told in an [alert] or beside its button. *)
Definition quiet (_ : string) : prog Browser unit := mret tt.

(** What is done with the property [k] of an answer, which may have none to read. *)
Definition with_prop (k : string) (failed : string → prog Browser unit) (use : jsval → prog Browser unit) (b : jsval) : prog Browser unit :=
  match js_prop k b with
  | Ok v => use v
  | Err e => failed (Scheduler.error_message e)
  end.
(** It is shown. *)
Definition shown (_ : jsval) : prog Browser unit := mret tt.

(** [s.split(',').map(s => s.trim()).filter(Boolean)] *)
Definition comma_list (s : string) : list string :=
  filter (λ x, x ≠ "") (trim <$> split_on "," s).

(** ** Users, policies, flags, controls *)

Definition editRoles_request (s : Session) (id roles : string) : ConsoleRequest :=
  put ("/api/v1/admin/users/" +:+ id +:+ "/roles") (JObj [("roles", JArr (JStr <$> comma_list roles)); actor s]).
Definition editRoles (id : string) (roles : option string) : prog Browser unit :=
  match roles with
  | None => mret tt
  | Some l => s ← read session; api_then (editRoles_request s id l) (λ _, vUsers) alert
  end.

Definition createOperator_request (s : Session) (name em role : string) : ConsoleRequest :=
  post "/api/v1/admin/users"
    (JObj [("displayName", JStr name); ("email", JStr em); ("institution", JStr "TRUSTEE_BANK");
           ("roles", JArr [JStr role]); actor s]).
Definition createOperator (name em role : string) : prog Browser unit :=
  if bool_decide (trim name = "") || bool_decide (trim em = "") then alert "Name and email required"
  else s ← read session; api_then (createOperator_request s (trim name) (trim em) role) (with_prop "tempPassword" alert shown) alert.

Definition resetUserPw_request (id np : string) : ConsoleRequest :=
  put ("/api/v1/admin/users/" +:+ id +:+ "/password") (JObj [("newPassword", JStr np)]).
(** [random] is [Math.random().toString(36)]. *)
Definition resetUserPw (id : string) (np : option string) (random : string) : prog Browser unit :=
  match np with
  | None => mret tt
  | Some np =>
      let np := if bool_decide (np = "") then "Tmp!" +:+ take_string 10 (drop_string 2 random) +:+ "A1" else np in
      api_then (resetUserPw_request id np) (λ _, alert ("Password set to: " +:+ np +:+ "  (share securely)")) alert
  end.

Definition toggleUser_request (s : Session) (id : string) (dis : bool) : ConsoleRequest :=
  put ("/api/v1/admin/users/" +:+ id +:+ "/disabled") (JObj [("disabled", JBool dis); actor s]).
Definition toggleUser (id : string) (dis confirmed : bool) : prog Browser unit :=
  if confirmed then s ← read session; api_then (toggleUser_request s id dis) (λ _, vUsers) alert else mret tt.

Definition evalPolicy_request (type amt cur : string) : ConsoleRequest :=
  post "/api/v1/admin/policies/evaluate"
    (JObj [("transactionType", JStr type); ("amountMinor", or_undefined amt); ("currency", or_undefined cur)]).
Definition evalPolicy (type amt cur : string) : prog Browser unit :=
  api_then (evalPolicy_request type amt cur) (λ _, mret tt) quiet.

Definition toggleFlag_request (s : Session) (key : string) (to : bool) : ConsoleRequest :=
  put ("/api/v1/admin/feature-flags/" +:+ key) (JObj [("enabled", JBool to); actor s]).
Definition risky (key : string) : bool := includes "real-funds" key || includes "automatic-approval" key.
Definition toggleFlag (key : string) (to confirmed : bool) : prog Browser unit :=
  if risky key && to && negb confirmed then mret tt
  else s ← read session; api_then (toggleFlag_request s key to) (λ _, vFlags) alert.

Definition setControl_request (s : Session) (key : string) (to : bool) (reason : string) : ConsoleRequest :=
  put ("/api/v1/admin/controls/" +:+ key) (JObj [("value", JBool to); ("reason", JStr reason); actor s]).
(** A reason that is cancelled or empty is none. *)
Definition toggleCtl (key : string) (to : bool) (reason : option string) : prog Browser unit :=
  match truthy reason with
  | None => mret tt
  | Some r => s ← read session; api_then (setControl_request s key to r) (λ _, vControls) alert
  end.
Definition toggleHold (on : bool) (reason : option string) : prog Browser unit :=
  match truthy reason with
  | None => mret tt
  | Some r =>
      s ← read session; p ← selected;
      api_then (setControl_request s ("compliance.hold.program." +:+ p) on r) (λ _, vCompliance) alert
  end.

(** ** Clients and programs *)

Definition saveRl_request (s : Session) (platform : string) (v : Z) : ConsoleRequest :=
  put ("/api/v1/admin/clients/" +:+ platform +:+ "/rate-limit") (JObj [("rateLimitPerMin", JNum (Num v)); actor s]).
Definition saveRl (platform : string) (v : Z) : prog Browser unit :=
  s ← read session; api_then (saveRl_request s platform v) (λ _, vApiMgmt) alert.

Definition toggleClient_request (s : Session) (platform : string) (to : bool) : ConsoleRequest :=
  put ("/api/v1/admin/clients/" +:+ platform +:+ "/disabled") (JObj [("disabled", JBool to); actor s]).
Definition toggleClient (platform : string) (to confirmed : bool) : prog Browser unit :=
  if confirmed then s ← read session; api_then (toggleClient_request s platform to) (λ _, vApiMgmt) alert else mret tt.

(** The fields of the program form; the numbers are those of their texts. *)
Record ProgramForm : Type := mkProgramForm {
  pg_code : string; pg_assetId : string; pg_ccy : string; pg_issuer : string; pg_legalEntity : string;
  pg_trusteeBank : string; pg_legalModel : string; pg_regStatus : string; pg_reservePolicy : string;
  pg_ratio : option Z; pg_buffer : option Z; pg_agreements : string; pg_effective : string
}.
Definition createProgramSubmit_request (s : Session) (f : ProgramForm) (now : Z) : ConsoleRequest :=
  post "/api/v1/admin/programs"
    (JObj [("code", JStr (pg_code f)); ("assetId", JStr (pg_assetId f)); ("referenceCurrency", JStr (pg_ccy f));
           ("issuerId", JStr (pg_issuer f)); ("legalEntityId", JStr (pg_legalEntity f));
           ("trusteeBankId", JStr (pg_trusteeBank f)); ("legalModel", JStr (pg_legalModel f));
           ("regulatoryStatus", JStr (pg_regStatus f)); ("reservePolicy", JStr (pg_reservePolicy f));
           ("requiredRatioBps", JNum (Num (default 10000 (pg_ratio f)))); ("safetyBufferBps", JNum (Num (default 0 (pg_buffer f))));
           ("agreementReferences", JArr (JStr <$> comma_list (pg_agreements f)));
           ("effectiveDate", JStr (if bool_decide (pg_effective f = "") then toISOString now else pg_effective f)); actor s]).
Definition createProgramSubmit (f : ProgramForm) (now : Z) : prog Browser unit :=
  s ← read session;
  api_then (createProgramSubmit_request s f now) (with_prop "id" quiet (λ id, upd (set_newProgramId id))) quiet.

Record AccountForm : Type := mkAccountForm {
  ac_masked : string; ac_name : string; ac_bank : string; ac_core : string; ac_branch : string; ac_ccy : string;
  ac_class : string; ac_src : string; ac_intmode : string
}.
Definition addAccountSubmit_request (s : Session) (p : string) (f : AccountForm) : ConsoleRequest :=
  post ("/api/v1/admin/programs/" +:+ p +:+ "/accounts")
    (JObj [("maskedAccountNumber", JStr (ac_masked f)); ("accountName", JStr (ac_name f)); ("bankLegalEntity", JStr (ac_bank f));
           ("coreBankingRef", JStr (ac_core f)); ("branch", JStr (ac_branch f)); ("currency", JStr (ac_ccy f));
           ("classification", JStr (ac_class f)); ("balanceSource", JStr (ac_src f)); ("integrationMode", JStr (ac_intmode f));
           actor s]).
Definition addAccountSubmit (f : AccountForm) : prog Browser unit :=
  s ← read session; p ← read (λ b, js_String (newProgramId b));
  api_then (addAccountSubmit_request s p f) (λ _, mret tt) quiet.

Definition saveWebhook_request (s : Session) (platform url : string) : ConsoleRequest :=
  put ("/api/v1/admin/clients/" +:+ platform +:+ "/webhook") (JObj [("webhookUrl", JStr url); actor s]).
Definition saveWebhook (platform url : string) : prog Browser unit :=
  s ← read session;
  api_then (saveWebhook_request s platform url) (λ _, alert (platform +:+ " webhook URL saved")) alert.

Definition rotateSecret_request (s : Session) (platform : string) : ConsoleRequest :=
  post ("/api/v1/admin/clients/" +:+ platform +:+ "/rotate-secret") (JObj [actor s]).
Definition rotateSecret (platform : string) (confirmed : bool) : prog Browser unit :=
  if confirmed then s ← read session; api_then (rotateSecret_request s platform) (with_prop "clientSecret" alert shown) alert else mret tt.

Definition activateProgram_request (s : Session) (p : string) : ConsoleRequest :=
  put ("/api/v1/admin/programs/" +:+ p +:+ "/status") (JObj [("status", JStr "ACTIVE"); actor s]).
Definition activateProgram (confirmed : bool) : prog Browser unit :=
  if confirmed then
    s ← read session; p ← read (λ b, js_String (newProgramId b));
    api_then (activateProgram_request s p) (λ _, mret tt) quiet
  else mret tt.

(** ** The queues *)

(** An element of [join] *)
Definition join_text (v : jsval) : string := match v with JUndefined | JNull => "" | _ => js_String v end.
(** The blocking reasons of the error's body, when it has some; they are joined outside
    the [try], so what is no array ends the function with an error. *)
Definition act_error (m : string) (body : jsval) : prog Browser unit :=
  match js_get "reasons" body with
  | JArr l => alert ("Blocked: " +:+ join_with ", " (map join_text l))
  | v => if js_truthy v then lift (Err no_method) else alert m
  end.
Definition act (rq : ConsoleRequest) : prog Browser unit :=
  r ← api rq;
  match r with
  | Answer _ => vOps
  | Refused m body _ => act_error m body
  end.

Definition reviewMint_request (s : Session) (id : string) : ConsoleRequest :=
  post ("/api/v1/bank/mint-authorizations/" +:+ id +:+ "/review") (JObj [("makerId", userId s)]).
Definition approveMint_request (s : Session) (id : string) : ConsoleRequest :=
  post ("/api/v1/bank/mint-authorizations/" +:+ id +:+ "/approve")
    (JObj [("checkerId", userId s); ("reason", JStr "approved via console")]).
Definition rejectMint_request (s : Session) (id reason : string) : ConsoleRequest :=
  post ("/api/v1/bank/mint-authorizations/" +:+ id +:+ "/reject") (JObj [("checkerId", userId s); ("reason", JStr reason)]).
Definition approveRedemption_request (s : Session) (id : string) : ConsoleRequest :=
  post ("/api/v1/bank/redemptions/" +:+ id +:+ "/approve")
    (JObj [("approverId", userId s); ("reason", JStr "approved via console")]).
Definition submitPayout_request (s : Session) (id : string) : ConsoleRequest :=
  post ("/api/v1/bank/redemptions/" +:+ id +:+ "/submit-payout") (JObj [actor s]).
Definition confirmPayout_request (s : Session) (id : string) : ConsoleRequest :=
  post ("/api/v1/bank/redemptions/" +:+ id +:+ "/confirm-payout") (JObj [actor s]).
Definition matchDeposit_request (s : Session) (id fi : string) : ConsoleRequest :=
  post ("/api/v1/bank/deposits/" +:+ id +:+ "/match") (JObj [("fundingInstructionId", JStr fi); actor s]).
Definition clearDeposit_request (s : Session) (id : string) : ConsoleRequest :=
  post ("/api/v1/bank/deposits/" +:+ id +:+ "/clear") (JObj [actor s]).
Definition approveSettlement_request (s : Session) (id : string) : ConsoleRequest :=
  post ("/api/v1/admin/settlements/" +:+ id +:+ "/approve") (JObj [("checkerId", userId s)]).
Definition confirmSettlement_request (s : Session) (id : string) : ConsoleRequest :=
  post ("/api/v1/admin/settlements/" +:+ id +:+ "/confirm") (JObj [actor s]).

(** An answer to a prompt, unless it is cancelled or empty. *)
Definition when_given (answer : option string) (k : string → prog Browser unit) : prog Browser unit :=
  match truthy answer with Some x => k x | None => mret tt end.

Definition reviewMint (id : string) : prog Browser unit := s ← read session; act (reviewMint_request s id).
Definition approveMint (id : string) : prog Browser unit := s ← read session; act (approveMint_request s id).
Definition rejectMint (id : string) (reason : option string) : prog Browser unit :=
  when_given reason (λ r, s ← read session; act (rejectMint_request s id r)).
Definition approveRedemption (id : string) : prog Browser unit := s ← read session; act (approveRedemption_request s id).
Definition submitPayout (id : string) : prog Browser unit := s ← read session; act (submitPayout_request s id).
Definition confirmPayout (id : string) : prog Browser unit := s ← read session; act (confirmPayout_request s id).
Definition matchDeposit (id : string) (fi : option string) : prog Browser unit :=
  when_given fi (λ f, s ← read session; act (matchDeposit_request s id f)).
Definition clearDeposit (id : string) : prog Browser unit := s ← read session; act (clearDeposit_request s id).
Definition approveSettlement (id : string) : prog Browser unit := s ← read session; act (approveSettlement_request s id).
Definition confirmSettlement (id : string) : prog Browser unit := s ← read session; act (confirmSettlement_request s id).

(** ** Treasury, banking, compliance, webhooks *)

Definition genPor_request (p : string) : ConsoleRequest := post_ ("/api/v1/admin/proof-of-reserve/" +:+ p +:+ "/snapshots").
Definition genPor : prog Browser unit := p ← selected; api_then (genPor_request p) (with_prop "id" alert shown) alert.

Definition reconReserve_request (s : Session) (p : jsval) : ConsoleRequest :=
  post "/api/v1/admin/reconciliations/reserve" (JObj [("programId", p); actor s]).
Definition reconReserve : prog Browser unit :=
  s ← read session; p ← read S_prog;
  if js_truthy p then api_then (reconReserve_request s p) (λ _, vRecon) alert
  else alert "Pick a program in Treasury first".

Record BankForm : Type := mkBankForm {
  bk_id : string; bk_name : string; bk_country : string; bk_mode : string; bk_url : string; bk_env : string
}.
Definition bkRegister_request (s : Session) (f : BankForm) : ConsoleRequest :=
  post "/api/v1/bank/bank-connections"
    (JObj [("bankId", JStr (bk_id f)); ("bankLegalName", JStr (bk_name f)); ("country", or_undefined (bk_country f));
           ("integrationMode", JStr (bk_mode f)); ("baseUrl", or_undefined (bk_url f)); ("authTokenEnv", or_undefined (bk_env f));
           actor s]).
Definition bkRegister (f : BankForm) : prog Browser unit :=
  s ← read session; api_then (bkRegister_request s f) (λ _, bkLoad) quiet.

(** [mock] is the balance field, which counts as 0 when it is empty. *)
Definition bkSaveAcc_request (id bankId mock : string) : ConsoleRequest :=
  post ("/api/v1/bank/reserve-accounts/" +:+ id +:+ "/bank")
    (JObj [("bankId", or_undefined bankId); ("mockClearedMinor", JStr (if bool_decide (mock = "") then "0" else mock))]).
Definition bkSaveAcc (id bankId mock : string) : prog Browser unit :=
  api_then (bkSaveAcc_request id bankId mock) (λ _, bkLoad) quiet.

Definition adjAdd_request (s : Session) (p kind amt reason : string) : ConsoleRequest :=
  post ("/api/v1/bank/reserves/" +:+ p +:+ "/adjustments")
    (JObj [("kind", JStr kind); ("amountMinor", JStr amt); ("reason", or_undefined reason); actor s]).
Definition adjAdd (kind amt reason : string) : prog Browser unit :=
  s ← read session; p ← selected; api_then (adjAdd_request s p kind amt reason) (λ _, adjLoad) quiet.

Definition adjLift_request (s : Session) (id : string) : ConsoleRequest :=
  post ("/api/v1/bank/reserve-adjustments/" +:+ id +:+ "/lift") (JObj [actor s]).
Definition adjLift (id : string) : prog Browser unit :=
  s ← read session; api_then (adjLift_request s id) (λ _, adjLoad) alert.

Definition bkReconcile_request (p : string) : ConsoleRequest := post_ ("/api/v1/bank/reserves/" +:+ p +:+ "/bank-reconcile").
Definition bkReconcile : prog Browser unit := p ← selected; show_all [bkReconcile_request p].

Definition loyRecon_request (id : string) : ConsoleRequest := post_ ("/api/v1/bank/loyalty-liabilities/" +:+ id +:+ "/reconcile").
Definition loyRecon (id : string) : prog Browser unit := api_then (loyRecon_request id) (λ _, bkLoad) alert.

Definition newAtt_request (s : Session) (period auditor : string) : ConsoleRequest :=
  post "/api/v1/bank/attestations"
    (JObj [("period", JStr period); ("scope", JStr "RESERVE"); ("auditor", JStr auditor); actor s]).
Definition newAtt (period auditor : option string) : prog Browser unit :=
  when_given period (λ p, s ← read session;
    api_then (newAtt_request s p (default "Internal Audit" (truthy auditor))) (λ _, vCompliance) alert).

Inductive AttestationStep : Type := SUBMIT | APPROVE | PUBLISH.
Definition attestation_step (x : AttestationStep) : string :=
  match x with SUBMIT => "submit" | APPROVE => "approve" | PUBLISH => "publish" end.
Definition attStep_request (s : Session) (id : string) (x : AttestationStep) : ConsoleRequest :=
  post ("/api/v1/bank/attestations/" +:+ id +:+ "/" +:+ attestation_step x) (JObj [actor s]).
Definition attStep (id : string) (x : AttestationStep) : prog Browser unit :=
  s ← read session; api_then (attStep_request s id x) (λ _, vCompliance) alert.

Definition replayWh_request (s : Session) (id : string) : ConsoleRequest :=
  post ("/api/v1/admin/webhooks/" +:+ id +:+ "/replay") (JObj [actor s]).
Definition replayWh (id status : string) : prog Browser unit :=
  s ← read session; api_then (replayWh_request s id) (λ _, whLoad status) alert.

Definition replayDead_request (s : Session) : ConsoleRequest :=
  post "/api/v1/admin/webhooks/replay-dead-lettered" (JObj [actor s]).
Definition replayDead (status : string) (confirmed : bool) : prog Browser unit :=
  if confirmed then
    s ← read session;
    api_then (replayDead_request s)
      (with_prop "requeued" alert (λ n, alert ("Re-queued " +:+ js_String n +:+ " events.");; whLoad status)) alert
  else mret tt.

(** * What can happen to the page *)

(** The controls of the page with what the operator enters, and what comes by itself:
    the timers, a response of an earlier request, loading the page again. *)
Inductive Action : Type :=
| Login (em pw code : string) (now : Z)
| Logout
| Forgot (field : string) (asked : option string)
| DoReset (p p2 : string) (resetToken : option string) (now : Z)
| ChangePw (c n : string)
| StartMfaSetup
| EnableMfa (code : string)
| Go (tab : string)
| PickProg (id : string)
| EditRoles (id : string) (roles : option string)
| CreateOperator (name em role : string)
| ResetUserPw (id : string) (np : option string) (random : string)
| ToggleUser (id : string) (dis confirmed : bool)
| EvalPolicy (type amt cur : string)
| ToggleFlag (key : string) (to confirmed : bool)
| ToggleCtl (key : string) (to : bool) (reason : option string)
| ToggleHold (on : bool) (reason : option string)
| SaveRl (platform : string) (v : Z)
| ToggleClient (platform : string) (to confirmed : bool)
| CreateProgram (f : ProgramForm) (now : Z)
| AddAccount (f : AccountForm)
| SaveWebhook (platform url : string)
| RotateSecret (platform : string) (confirmed : bool)
| ActivateProgram (confirmed : bool)
| ReviewMint (id : string)
| ApproveMint (id : string)
| RejectMint (id : string) (reason : option string)
| ApproveRedemption (id : string)
| SubmitPayout (id : string)
| ConfirmPayout (id : string)
| MatchDeposit (id : string) (fi : option string)
| ClearDeposit (id : string)
| ApproveSettlement (id : string)
| ConfirmSettlement (id : string)
| GenPor
| ReconReserve
| BkRegister (f : BankForm)
| BkSaveAcc (id bankId mock : string)
| AdjAdd (kind amt reason : string)
| AdjLift (id : string)
| BkReconcile
| LoyRecon (id : string)
| AuditGo (q : string)
| NewAtt (period auditor : option string)
| AttStep (id : string) (x : AttestationStep)
| WhLoad (status : string)
| WhLog (id : string)
| ReplayWh (id status : string)
| ReplayDead (status : string) (confirmed : bool)
| IhTimer
| ExpTimer (now : Z)
| LateResponse (path : string) (r : outcome (FetchResponse * string))
| Load (reset_token : string) (now : Z).

(** [pickProg] shows the view again; the dashboard's timer checks its tab. *)
Definition perform (a : Action) : prog Browser unit :=
  match a with
  | Login em pw code now => login em pw code now
  | Logout => logout
  | Forgot field asked => forgot field asked
  | DoReset p p2 t now => doReset p p2 t now
  | ChangePw c n => changePw c n
  | StartMfaSetup => startMfaSetup
  | EnableMfa code => enableMfa code
  | Go t => go t
  | PickProg id => upd (set_S_prog (JStr id));; t ← read tab; go t
  | EditRoles id roles => editRoles id roles
  | CreateOperator name em role => createOperator name em role
  | ResetUserPw id np random => resetUserPw id np random
  | ToggleUser id dis confirmed => toggleUser id dis confirmed
  | EvalPolicy type amt cur => evalPolicy type amt cur
  | ToggleFlag key to confirmed => toggleFlag key to confirmed
  | ToggleCtl key to reason => toggleCtl key to reason
  | ToggleHold on reason => toggleHold on reason
  | SaveRl platform v => saveRl platform v
  | ToggleClient platform to confirmed => toggleClient platform to confirmed
  | CreateProgram f now => createProgramSubmit f now
  | AddAccount f => addAccountSubmit f
  | SaveWebhook platform url => saveWebhook platform url
  | RotateSecret platform confirmed => rotateSecret platform confirmed
  | ActivateProgram confirmed => activateProgram confirmed
  | ReviewMint id => reviewMint id
  | ApproveMint id => approveMint id
  | RejectMint id reason => rejectMint id reason
  | ApproveRedemption id => approveRedemption id
  | SubmitPayout id => submitPayout id
  | ConfirmPayout id => confirmPayout id
  | MatchDeposit id fi => matchDeposit id fi
  | ClearDeposit id => clearDeposit id
  | ApproveSettlement id => approveSettlement id
  | ConfirmSettlement id => confirmSettlement id
  | GenPor => genPor
  | ReconReserve => reconReserve
  | BkRegister f => bkRegister f
  | BkSaveAcc id bankId mock => bkSaveAcc id bankId mock
  | AdjAdd kind amt reason => adjAdd kind amt reason
  | AdjLift id => adjLift id
  | BkReconcile => bkReconcile
  | LoyRecon id => loyRecon id
  | AuditGo q => auditGo q
  | NewAtt period auditor => newAtt period auditor
  | AttStep id x => attStep id x
  | WhLoad status => whLoad status
  | WhLog id => whLog id
  | ReplayWh id status => replayWh id status
  | ReplayDead status confirmed => replayDead status confirmed
  | IhTimer => t ← read tab; if bool_decide (t = "dashboard") then ihLoad else mret tt
  | ExpTimer now => timer_fires now
  | LateResponse path r => _ ← receive path r; mret tt
  | Load reset_token now => upd loaded;; init reset_token now
  end.

(** The page after the actions [l]. *)
Definition after (l : list Action) (b : Browser) : Browser := fold_left (λ b a, (run (perform a) b).2) l b.
End console.
