(* ===== verification/ConsoleViews.v ===== *)
(** What the views of the operator console make of the answers
    ([packages/portal-ui/src/admin-console.html.ts]): which actions are offered for
    which rows, what the switches show and send, and the exported tables.  Where the
    HTML is concerned only these data are modelled. *)
From S2P Require Import Prelude.
From S2P Require Import Text.
From S2P Require Import Prog.
From S2P Require Import Crypto.
From S2P Require Import Json.
From S2P Require Import Domain.
From S2P Require Import Ledger.
From S2P Require Import Schema.
From S2P Require Import Prisma.
From S2P Require Import Infra.
From S2P Require Import Worker.
From S2P Require Import JsValue.
From S2P Require Import Console.
From S2P Require Operations.
#[local] Open Scope string_scope.
#[local] Open Scope list_scope.
#[local] Open Scope Z_scope.

(** [l.map(f)] where [f] may throw *)
Fixpoint each {A B} (f : A → outcome B) (l : list A) : outcome (list B) :=
  match l with
  | [] => Ok []
  | x :: l' => y ← f x; ys ← each f l'; Ok (y :: ys)
  end.

(** * Actions offered *)

(** A control with [data-act] and [data-id]. *)
Record Button : Type := mkButton { b_act : string; b_id : string }.

(** [v === s] *)
Definition is_text (v : jsval) (s : string) : bool := match v with JStr t => bool_decide (t = s) | _ => false end.

Definition with_id (acts : list string) (x : jsval) : list Button := (λ a, mkButton a (id_of x)) <$> acts.

Definition mint_acts (st : jsval) : list string :=
  if is_text st "PENDING_MAKER" then ["reviewMint"] else ["approveMint"; "rejectMint"].
Definition redemption_acts (st : jsval) : list string :=
  if is_text st "AWAITING_APPROVAL" then ["approveRedemption"]
  else if is_text st "BURN_CONFIRMED" then ["submitPayout"]
  else if is_text st "PAYOUT_SUBMITTED" then ["confirmPayout"]
  else [].
Definition deposit_acts (st : jsval) : list string := if is_text st "MATCHED" then ["clearDeposit"] else ["matchDeposit"].
Definition settlement_acts (st : jsval) : list string :=
  if is_text st "REQUESTED" then ["approveSettlement"] else ["confirmSettlement"].

(** [sec(title, items, cols, acts)] *)
Definition sec (items : jsval) (acts : jsval → list string) : outcome (list Button) :=
  match items with
  | JUndefined | JNull => Err (JsError "TypeError" "Cannot read properties of undefined")
  | JArr l => bs ← each (λ x, st ← js_prop "status" x; Ok (with_id (acts st) x)) l; Ok (concat bs)
  | JStr s => if bool_decide (s = "") then Ok [] else Err (JsError "TypeError" "items.map is not a function")
  | JObj _ => if js_truthy (js_get "length" items) then Err (JsError "TypeError" "items.map is not a function") else Ok []
  | _ => Ok []
  end.

(** The buttons of the operations view, of the answer [q]. *)
Definition queue_buttons (q : jsval) : outcome (list Button) :=
  mint ← js_prop "mint" q; m ← sec mint mint_acts;
  redemptions ← js_prop "redemptions" q; r ← sec redemptions redemption_acts;
  deposits ← js_prop "deposits" q; d ← sec deposits deposit_acts;
  settlements ← js_prop "settlements" q; s ← sec settlements settlement_acts;
  Ok (m ++ r ++ d ++ s).

Definition attestation_acts (st : jsval) : list AttestationStep :=
  if is_text st "DRAFT" then [SUBMIT]
  else if is_text st "UNDER_REVIEW" then [APPROVE]
  else if is_text st "APPROVED" then [PUBLISH]
  else [].

(** The delegated click: what a button of the queues does, with the answer to its prompt. *)
Definition press (b : Button) (answer : option string) : option Action :=
  let id := b_id b in
  if bool_decide (b_act b = "reviewMint") then Some (ReviewMint id)
  else if bool_decide (b_act b = "approveMint") then Some (ApproveMint id)
  else if bool_decide (b_act b = "rejectMint") then Some (RejectMint id answer)
  else if bool_decide (b_act b = "approveRedemption") then Some (ApproveRedemption id)
  else if bool_decide (b_act b = "submitPayout") then Some (SubmitPayout id)
  else if bool_decide (b_act b = "confirmPayout") then Some (ConfirmPayout id)
  else if bool_decide (b_act b = "matchDeposit") then Some (MatchDeposit id answer)
  else if bool_decide (b_act b = "clearDeposit") then Some (ClearDeposit id)
  else if bool_decide (b_act b = "approveSettlement") then Some (ApproveSettlement id)
  else if bool_decide (b_act b = "confirmSettlement") then Some (ConfirmSettlement id)
  else None.

(** * Switches *)

(** [(v.k||[])], of an answer *)
Definition rows_of (k : string) (v : jsval) : outcome (list jsval) :=
  r ← js_prop k v; if js_truthy r then match r with JArr l => Ok l | _ => Err (JsError "TypeError" "is not a function") end else Ok [].

(** [l.find(f => f.key === key)] *)
Definition keyed (key : string) (l : list jsval) : outcome (option jsval) :=
  js_find (λ x, k ← js_prop "key" x; Ok (is_text k key)) l.

(** The safety posture of the dashboard: a flag is shown ENABLED, else disabled. *)
Definition flag_shown (key : string) (flags : jsval) : outcome bool :=
  l ← rows_of "flags" flags; f ← keyed key l;
  Ok (match f with Some x => js_truthy (js_get "enabled" x) | None => false end).
Definition active_controls (controls : jsval) : outcome Z :=
  l ← rows_of "controls" controls;
  vs ← each (λ x, v ← js_prop "value" x; Ok (js_truthy v)) l;
  Ok (Z.of_nat (length (filter (λ b, b = true) vs))).

(** The emergency controls, those the page knows, with the state of each switch:
    [Object.fromEntries] keeps the last row of a key. *)
Definition known_controls : list string :=
  ["platform.read-only"; "mint.global-suspend"; "redemption.global-suspend"; "payout.global-suspend"; "paychain.api-suspend"; "paykh.api-suspend"].
Definition controls_shown (controls : jsval) : outcome (list (string * bool)) :=
  l ← rows_of "controls" controls; _ ← each (js_prop "key") l;
  each (λ k, r ← keyed k (rev l); Ok (k, match r with Some x => js_truthy (js_get "value" x) | None => false end)) known_controls.

(** What a click on the switch of [key] does, with the reason that is asked for. *)
Definition click_control (shown : string * bool) (reason : option string) : Action := ToggleCtl shown.1 (negb shown.2) reason.

(** The hold of the selected program [p], and what a click on its switch does. *)
Definition hold_shown (p : string) (controls : jsval) : outcome bool :=
  l ← rows_of "controls" controls; r ← keyed ("compliance.hold.program." +:+ p) l;
  Ok (match r with Some x => js_truthy (js_get "value" x) | None => false end).
Definition click_hold (shown : bool) (reason : option string) : Action := ToggleHold (negb shown) reason.

(** The condition of a policy, as the policies view shows it. *)
Definition bands (x : jsval) : string :=
  let part k p := if js_truthy (js_get k x) then [p +:+ js_String (js_get k x)] else [] in
  let s := join_with " " (part "minAmountMinor" "≥" ++ part "maxAmountMinor" "≤" ++ part "currency" "" ++ part "riskLevel" "") in
  if bool_decide (s = "") then "any" else s.

(** Whether the dashboard offers to replay dead-lettered events. *)
Definition replay_offered (r : jsval) : outcome bool :=
  clients ← js_prop "clients" r;
  clients ← match clients with JArr l => Ok l | _ => Err (JsError "TypeError" "some is not a function") end;
  green ← js_find (λ c, st ← js_prop "state" c; Ok (is_text st "CONFIGURED" || is_text st "ACCEPTING")) clients;
  outbox ← js_prop "outbox" r; dead ← js_prop "deadLettered" outbox;
  Ok (js_truthy dead && bool_decide (is_Some green)).

(** * Exported tables *)

Definition dq : ascii := "034"%char.
Definition newline : ascii := "010"%char.

(** Every double quote written twice. *)
Fixpoint double_quotes (s : string) : string :=
  match s with
  | EmptyString => ""
  | String a s' => if Ascii.eqb a dq then String dq (String dq (double_quotes s')) else String a (double_quotes s')
  end.

(** The text of a cell: nothing of null and undefined. *)
Definition cell_text (v : jsval) : string := match v with JUndefined | JNull => "" | _ => js_String v end.
Definition csv_cell (v : jsval) : string := String dq (double_quotes (cell_text v) +:+ String dq "").
Definition csv (rows : list (list jsval)) : string :=
  join_with (String newline "") (map (λ r, join_with "," (map csv_cell r)) rows).

Definition columns (ks : list string) (x : jsval) : outcome (list jsval) := each (λ k, js_prop k x) ks.

Definition csvTb (tb : jsval) : outcome string :=
  accounts ← js_prop "accounts" tb;
  accounts ← match accounts with JArr l => Ok l | _ => Err (JsError "TypeError" "map is not a function") end;
  rows ← each (columns ["account"; "type"; "debitMinor"; "creditMinor"; "balanceMinor"]) accounts;
  Ok (csv (map JStr ["account"; "type"; "debit"; "credit"; "balance"] :: rows)).

(** [logs] is what the last search kept, nothing before one. *)
Definition csvAudit (logs : list jsval) : outcome string :=
  rows ← each (columns ["createdAt"; "actor"; "action"; "subjectType"; "subjectId"; "reason"]) logs;
  Ok (csv (map JStr ["when"; "actor"; "action"; "subjectType"; "subjectId"; "reason"] :: rows)).

(** * Lemmas *)

(** ** Reading an export back *)

(** Where a reader of quoted cells is: before one, inside one, after a quote in one. *)
Inductive Reading : Type := BEFORE | INSIDE | AFTER.

Fixpoint csv_read (s : string) (st : Reading) (cell : string) (row : list string) : option (list (list string)) :=
  match s, st with
  | EmptyString, AFTER => Some [row ++ [cell]]
  | EmptyString, _ => None
  | String a t, BEFORE => if Ascii.eqb a dq then csv_read t INSIDE "" row else None
  | String a t, INSIDE => if Ascii.eqb a dq then csv_read t AFTER cell row else csv_read t INSIDE (cell +:+ String a "") row
  | String a t, AFTER =>
      if Ascii.eqb a dq then csv_read t INSIDE (cell +:+ String dq "") row
      else if Ascii.eqb a "," then csv_read t BEFORE "" (row ++ [cell])
      else if Ascii.eqb a newline then (λ rest, (row ++ [cell]) :: rest) <$> csv_read t BEFORE "" []
      else None
  end.

Lemma csv_read_chars s u cell row : csv_read (double_quotes s +:+ u) INSIDE cell row = csv_read u INSIDE (cell +:+ s) row.
Proof.
  revert cell. induction s as [|a s IH]; intros cell; [by rewrite string_app_nil|]. cbn [double_quotes].
  destruct (Ascii.eqb a dq) eqn:Ea; rewrite !app_String; cbn [csv_read].
  - apply Ascii.eqb_eq in Ea as ->. rewrite Ascii.eqb_refl. rewrite IH. by rewrite app_assoc_string.
  - rewrite Ea, IH. by rewrite app_assoc_string.
Qed.

Lemma csv_read_cell v u row : csv_read (csv_cell v +:+ u) BEFORE "" row = csv_read u AFTER (cell_text v) row.
Proof.
  unfold csv_cell. rewrite app_String. cbn [csv_read]. rewrite Ascii.eqb_refl, app_assoc_string, csv_read_chars. done.
Qed.

Lemma csv_read_row v r u row :
  csv_read (join_with "," (map csv_cell (v :: r)) +:+ u) BEFORE "" row =
    csv_read u AFTER (List.last (map cell_text (v :: r)) "") (row ++ removelast (map cell_text (v :: r))).
Proof.
  revert v row. induction r as [|v' r IH]; intros v row.
  - cbn [map join_with]. rewrite csv_read_cell. cbn. by rewrite app_nil_r.
  - change (join_with "," (map csv_cell (v :: v' :: r))) with (csv_cell v +:+ "," +:+ join_with "," (map csv_cell (v' :: r))).
    rewrite !app_assoc_string, csv_read_cell. change ("," +:+ ?x) with (String ","%char x). cbn [csv_read].
    change (Ascii.eqb "," dq) with false. change (Ascii.eqb "," ",") with true. cbv iota. rewrite IH.
    change (map cell_text (v :: v' :: r)) with (cell_text v :: map cell_text (v' :: r)).
    destruct (map cell_text (v' :: r)) as [|c cs] eqn:E; [discriminate E|]. by rewrite <- app_assoc.
Qed.

Lemma last_removelast (l : list string) : l ≠ [] → removelast l ++ [List.last l ""] = l.
Proof. intros H. symmetry. by apply app_removelast_last. Qed.

Lemma csv_read_back rows : rows ≠ [] → Forall (λ r, r ≠ []) rows → csv_read (csv rows) BEFORE "" [] = Some (map (map cell_text) rows).
Proof.
  intros Hne Hr. induction Hr as [|r rows Hr _ IH]; [done|]. destruct r as [|v r]; [done|]. unfold csv in *.
  destruct rows as [|r' rows].
  - change (csv_read (join_with "," (map csv_cell (v :: r))) BEFORE "" [] = Some [map cell_text (v :: r)]).
    rewrite <- (string_app_nil (join_with "," _)), csv_read_row. cbn [csv_read app]. by rewrite last_removelast.
  - change (join_with (String newline "") (map _ ((v :: r) :: r' :: rows))) with
      (join_with "," (map csv_cell (v :: r)) +:+ String newline "" +:+ join_with (String newline "") (map (λ r, join_with "," (map csv_cell r)) (r' :: rows))).
    rewrite csv_read_row. change (String newline "" +:+ ?x) with (String newline x). cbn [csv_read].
    change (Ascii.eqb newline dq) with false. change (Ascii.eqb newline ",") with false. rewrite Ascii.eqb_refl. cbv iota.
    rewrite IH by done. cbn [fmap option_fmap option_map app]. by rewrite last_removelast.
Qed.

Lemma csv_read_headed head rows :
  head ≠ [] → Forall (λ r, r ≠ []) rows → csv_read (csv (map JStr head :: rows)) BEFORE "" [] = Some (head :: map (map cell_text) rows).
Proof.
  intros Hh Hr. assert (map JStr head ≠ []) as Hm by by destruct head.
  rewrite csv_read_back; [|done|by apply Forall_cons]. cbn [map]. do 2 f_equal.
  clear Hh Hm. induction head as [|h head IH]; [done|]. cbn. by rewrite IH.
Qed.

Lemma each_ok {A B} (f : A → outcome B) l ys : each f l = Ok ys → Forall2 (λ x y, f x = Ok y) l ys.
Proof.
  revert ys. induction l as [|x l IH]; intros ys H; cbn in H; [by injection H as <-|].
  destruct (f x) as [y|e] eqn:E; [|discriminate H]. cbn in H. destruct (each f l) as [ys'|e]; [|discriminate H].
  injection H as <-. constructor; [done|by apply IH].
Qed.

Lemma js_prop_get k v x : js_prop k v = Ok x → x = js_get k v.
Proof. destruct v; by intros [= <-]. Qed.

(** The columns of the rows, as texts. *)
Lemma columns_texts ks l rows :
  each (columns ks) l = Ok rows → Forall2 (λ x row, row = map (λ k, cell_text (js_get k x)) ks) l (map (map cell_text) rows).
Proof.
  intros H%each_ok. apply Forall2_fmap_r. eapply Forall2_impl; [exact H|]. intros x row Hr%each_ok. unfold compose.
  clear H. induction Hr as [|k v ks row Hk _ IH]; [done|]. cbn [map]. by rewrite IH, (js_prop_get _ _ _ Hk).
Qed.
Lemma columns_nonempty k ks l rows : each (columns (k :: ks)) l = Ok rows → Forall (λ r, r ≠ []) rows.
Proof.
  intros H%each_ok. induction H as [|x row l rows Hr _ IH]; constructor; [|done].
  apply each_ok in Hr. by inversion Hr.
Qed.

(** Columns that are all there. *)
Lemma each_columns ks l :
  Forall (λ x, x ≠ JUndefined ∧ x ≠ JNull) l → each (columns ks) l = Ok (map (λ x, map (λ k, js_get k x) ks) l).
Proof.
  assert (∀ x, x ≠ JUndefined → x ≠ JNull → columns ks x = Ok (map (λ k, js_get k x) ks)) as Hc.
  { intros x Hu Hn. unfold columns. induction ks as [|k ks' IH]; [done|]. cbn [each map].
    assert (js_prop k x = Ok (js_get k x)) as -> by by destruct x. cbn [mbind outcome_bind]. by rewrite IH. }
  induction 1 as [|x l [Hu Hn] _ IH]; [done|]. cbn [each map]. rewrite (Hc x Hu Hn). cbn [mbind outcome_bind]. by rewrite IH.
Qed.

Lemma csvTb_accounts tb accounts text :
  js_get "accounts" tb = JArr accounts → csvTb tb = Ok text →
  ∃ rows, each (columns ["account"; "type"; "debitMinor"; "creditMinor"; "balanceMinor"]) accounts = Ok rows ∧
    text = csv (map JStr ["account"; "type"; "debit"; "credit"; "balance"] :: rows).
Proof.
  intros Ha H. unfold csvTb in H. destruct (js_prop "accounts" tb) as [x|e] eqn:E; [|discriminate H].
  apply js_prop_get in E as ->. rewrite Ha in H. cbn [mbind outcome_bind] in H.
  destruct (each _ accounts) as [rows|e]; [|discriminate H]. injection H as <-. by exists rows.
Qed.

(** The answer of the trial-balance route, exported: a row for each account. *)
Lemma csvTb_trial_balance (tb : Operations.TrialBalance) :
  csvTb (Operations.js_trial_balance tb) =
  Ok (csv (map JStr ["account"; "type"; "debit"; "credit"; "balance"] ::
           map (λ l, [JStr (Operations.tl_account l); JStr (Operations.LedgerAccountType_to_string (Operations.tl_type l));
                      js_big (Operations.tl_debit l); js_big (Operations.tl_credit l); js_big (Operations.tl_balance l)])
             (Operations.tb_accounts tb))).
Proof.
  unfold csvTb.
  change (js_prop "accounts" (Operations.js_trial_balance tb)) with (Ok (A := jsval) (JArr (map (λ l,
           JObj [("account", JStr (Operations.tl_account l)); ("type", JStr (Operations.LedgerAccountType_to_string (Operations.tl_type l)));
                 ("debitMinor", js_big (Operations.tl_debit l));
                 ("creditMinor", js_big (Operations.tl_credit l)); ("balanceMinor", js_big (Operations.tl_balance l))]) (Operations.tb_accounts tb)))).
  cbn [mbind outcome_bind].
  rewrite each_columns.
  - cbn [mbind outcome_bind]. do 3 f_equal. by rewrite map_map.
  - apply Forall_forall. intros x Hx. apply list_elem_of_fmap in Hx as (l & -> & _). done.
Qed.

(** Claim C36 (exports read back).  A table that is exported, whatever quotes, commas and
    line breaks its values hold, is read back by a reader of quoted cells as exactly the
    texts of its cells, row by row; the audit log and the trial balance export the
    columns they name, of every row of the answer in its order, and the export of an
    answer of the trial-balance route always succeeds and reads back as the code, type,
    debit, credit and balance of each account of that trial balance. *)
Theorem csv_roundtrip :
  (∀ rows, rows ≠ [] → Forall (λ r, r ≠ []) rows → csv_read (csv rows) BEFORE "" [] = Some (map (map cell_text) rows)) ∧
  (∀ logs text, csvAudit logs = Ok text → ∃ rows, csv_read text BEFORE "" [] = Some (["when"; "actor"; "action"; "subjectType"; "subjectId"; "reason"] :: rows) ∧
     Forall2 (λ l row, row = map (λ k, cell_text (js_get k l)) ["createdAt"; "actor"; "action"; "subjectType"; "subjectId"; "reason"]) logs rows) ∧
  (∀ tb accounts text, js_get "accounts" tb = JArr accounts → csvTb tb = Ok text →
     ∃ rows, csv_read text BEFORE "" [] = Some (["account"; "type"; "debit"; "credit"; "balance"] :: rows) ∧
     Forall2 (λ l row, row = map (λ k, cell_text (js_get k l)) ["account"; "type"; "debitMinor"; "creditMinor"; "balanceMinor"]) accounts rows) ∧
  (∀ tb, ∃ text, csvTb (Operations.js_trial_balance tb) = Ok text ∧
     csv_read text BEFORE "" [] = Some (["account"; "type"; "debit"; "credit"; "balance"] ::
       map (λ l, [Operations.tl_account l; Operations.LedgerAccountType_to_string (Operations.tl_type l); big_to_string (Operations.tl_debit l);
                  big_to_string (Operations.tl_credit l); big_to_string (Operations.tl_balance l)]) (Operations.tb_accounts tb))).
Proof.
  split; [exact csv_read_back|]. split_and!.
  - intros logs text H. unfold csvAudit in H. destruct (each _ logs) as [rows|e] eqn:E; [|discriminate H].
    injection H as <-. eexists. split; [apply (csv_read_headed ["when"; "actor"; "action"; "subjectType"; "subjectId"; "reason"]); [done|by eapply columns_nonempty]|].
    by apply columns_texts.
  - intros tb accounts text Ha H. destruct (csvTb_accounts _ _ _ Ha H) as (rows & E & ->).
    eexists. split; [apply (csv_read_headed ["account"; "type"; "debit"; "credit"; "balance"]); [done|by eapply columns_nonempty]|].
    by apply columns_texts.
  - intros tb. eexists. split; [apply csvTb_trial_balance|].
    rewrite (csv_read_headed ["account"; "type"; "debit"; "credit"; "balance"]); [|done|].
    + do 2 f_equal. by rewrite map_map.
    + apply Forall_forall. intros x Hx. by apply list_elem_of_fmap in Hx as (l & -> & _).
Qed.

Definition demo_balance : Operations.TrialBalance :=
  Operations.mkTrialBalance "p" [Operations.mkTrialLine "ASSET_TRUSTEE_BANK_CASH" ASSET 1000 0 1000] 1000 0 false.

Lemma csv_roundtrip_witness :
  (∃ text rows, csvAudit [JObj [("createdAt", JStr "2026"); ("actor", JStr "a,b"); ("action", JStr (String dq "x"));
                                ("subjectType", JStr "S"); ("subjectId", JNull); ("reason", JStr "")]] = Ok text ∧
    csv_read text BEFORE "" [] = Some (["when"; "actor"; "action"; "subjectType"; "subjectId"; "reason"] :: rows) ∧ length rows = 1%nat) ∧
  ∃ text, csvTb (Operations.js_trial_balance demo_balance) = Ok text ∧
    csv_read text BEFORE "" [] = Some [["account"; "type"; "debit"; "credit"; "balance"];
                                       ["ASSET_TRUSTEE_BANK_CASH"; "ASSET"; "1000"; "0"; "1000"]].
Proof.
  destruct csv_roundtrip as (_ & H & _ & Htb). split.
  - destruct (H [JObj [("createdAt", JStr "2026"); ("actor", JStr "a,b"); ("action", JStr (String dq "x"));
                       ("subjectType", JStr "S"); ("subjectId", JNull); ("reason", JStr "")]] _ eq_refl) as (rows & Hr & Hl).
    eexists. exists rows. split; [reflexivity|]. split; [exact Hr|]. by apply Forall2_length in Hl.
  - destruct (Htb demo_balance) as (text & Ht & Hr). exists text. split; [exact Ht|]. exact Hr.
Defined.
