(* ===== verification/EndToEnd.v ===== *)
(** The end-to-end audit ([apps/e2e-audit]): a client of the three platforms that
    records evidence, and gives the verdict on which a release is gated.

    A run goes over the records made so far, the number of HTTP calls and the number
    of times the clock was read; [time] is the clock and [fetch] the network.  A
    response is what [call] makes of the answer, and its JSON is read the way the
    scripts read it: a property of something that has none is undefined, a property
    of null throws.  A run that throws ends the process with code 1. *)
From S2P Require Import Prelude.
From S2P Require Import Text.
From S2P Require Import Prog.
From S2P Require Import Crypto.
From S2P Require Import Credentials.
From S2P Require Import Infra.
From S2P Require Import JsValue.
From S2P Require Import Worker.
From S2P Require Import Adapters.
From S2P Require Scheduler.
#[local] Open Scope string_scope.
#[local] Open Scope list_scope.
#[local] Open Scope Z_scope.

(** * Evidence ([evidence.ts]) *)

Inductive Verdict : Type := PASS | FAIL | NOT_READY.

#[export] Instance Verdict_eq_dec : EqDecision Verdict.
Proof. solve_decision. Defined.

Definition Verdict_to_string (v : Verdict) : string :=
  match v with PASS => "PASS" | FAIL => "FAIL" | NOT_READY => "NOT_READY" end.

Record Artifact : Type := mkArtifact {
  af_type : string; canonical : string; af_keyId : jsval; af_alg : jsval; af_value : jsval
}.

Record IndependentCheck : Type := mkIndependentCheck { ic_method : string; ic_result : Verdict; ic_note : option string }.

(** What a stage hands to the recorder. *)
Record Evidence : Type := mkEvidence {
  testId : string; title : string; controlObjective : list string; platform : string; ev_detail : jsval;
  artifact : option Artifact; independentCheck : option IndependentCheck; verdict : Verdict
}.

Record EvidenceRecord : Type := mkEvidenceRecord { evidence : Evidence; timestamp : string; evidenceHash : string }.

Definition js_artifact (a : Artifact) : jsval :=
  JObj [("type", JStr (af_type a)); ("canonical", JStr (canonical a));
        ("signature", JObj [("keyId", af_keyId a); ("alg", af_alg a); ("value", af_value a)])].

Definition js_check (c : IndependentCheck) : jsval :=
  JObj [("method", JStr (ic_method c)); ("result", JStr (Verdict_to_string (ic_result c))); ("note", js_undef (ic_note c))].

(** The record as it is hashed, in the order of its properties. *)
Definition js_evidence (e : Evidence) (timestamp : string) : jsval :=
  JObj [("testId", JStr (testId e)); ("title", JStr (title e)); ("controlObjective", JArr (map JStr (controlObjective e)));
        ("platform", JStr (platform e)); ("detail", ev_detail e);
        ("artifact", match artifact e with Some a => js_artifact a | None => JUndefined end);
        ("independentCheck", match independentCheck e with Some c => js_check c | None => JUndefined end);
        ("verdict", JStr (Verdict_to_string (verdict e))); ("timestamp", JStr timestamp)].

Record Summary : Type := mkSummary { total : nat; pass : nat; fail : nat; notReady : nat }.
Record Manifest : Type := mkManifest { mf_runId : string; recordHashes : list string; rootHash : string }.

Definition count_verdict (v : Verdict) (l : list EvidenceRecord) : nat :=
  length (filter (λ r, verdict (evidence r) = v) l).

Definition summary (l : list EvidenceRecord) : Summary :=
  mkSummary (length l) (count_verdict PASS l) (count_verdict FAIL l) (count_verdict NOT_READY l).

Definition run_outcome (l : list EvidenceRecord) : Verdict :=
  let s := summary l in
  if (0 <? fail s)%nat then FAIL else if (0 <? notReady s)%nat then NOT_READY else PASS.

Section evidence.
Context `{NC : !NodeCrypto}.

Definition sha256_hash (s : string) : string := "sha256:" +:+ sha256Hex s.

Definition manifest (l : list EvidenceRecord) (runId : string) : Manifest :=
  let recordHashes := map evidenceHash l in
  mkManifest runId recordHashes (sha256_hash (join_with "|" recordHashes)).
End evidence.

(** * The state of a run, and HTTP ([http.ts]) *)

Record Harness : Type := mkHarness { recorded : list EvidenceRecord; sent : nat; reads : nat }.

Record HttpResult : Type := mkHttpResult {
  hr_ok : bool; hr_status : Z; hr_json : jsval; hr_text : string; hr_headers : list (string * string)
}.

Record Creds : Type := mkCreds { base : string; clientId : option string; clientSecret : option string }.

(** The arguments of [call]. *)
Record ApiCall : Type := mkApiCall { ac_creds : Creds; ac_method : string; ac_path : string; ac_body : option jsval }.

Definition request_of (c : ApiCall) : FetchRequest :=
  let header name v := match truthy v with Some s => [(name, s)] | None => [] end in
  mkFetchRequest (ac_method c) (base (ac_creds c) +:+ ac_path c)
    ([("content-type", "application/json")] ++ header "x-client-id" (clientId (ac_creds c)) ++
     header "x-client-secret" (clientSecret (ac_creds c)))
    (stringify <$> ac_body c).

(** What the auditor uses of Node's cryptography, on whatever JSON holds: [createPublicKey],
    which takes a PEM or an object that holds a key; [Buffer.from(v, 'base64')], which also
    takes an array; and [verify(null, bytes, key, signature)]. *)
Record NodeVerify : Type := mkNodeVerify {
  createPublicKey : jsval → outcome string;
  base64_buffer : jsval → outcome string;
  edVerify : string → string → string → outcome bool
}.

Section harness.
Context `{RT : !Runtime} `{NET : !Network}.
(** [Date.now()] at the n-th reading *)
Context (time : nat → Z).
Context (node : NodeVerify).

(** What [call] resolves with, as the [n]-th call of the run; it never throws. *)
Definition result_of (c : ApiCall) (n : nat) : HttpResult :=
  match (res ← fetch (request_of c) n; text ← fs_text res; Ok (res, text)) with
  | Ok (res, text) =>
      mkHttpResult (res_ok res) (fs_status res)
        (if bool_decide (text = "") then JUndefined else default JUndefined (json_parse text)) text (fs_headers res)
  | Err e => mkHttpResult false 0 JUndefined (Scheduler.error_message e) []
  end.

Definition call (c : ApiCall) : prog Harness HttpResult :=
  action (λ h, (Ok (result_of c (sent h)), mkHarness (recorded h) (S (sent h)) (reads h))).

Definition Date_now : prog Harness Z :=
  action (λ h, (Ok (time (reads h)), mkHarness (recorded h) (sent h) (S (reads h)))).

Definition record (e : Evidence) : prog Harness EvidenceRecord :=
  t ← Date_now;
  let timestamp := toISOString t in
  let r := mkEvidenceRecord e timestamp (sha256_hash (stringify (js_evidence e timestamp))) in
  action (λ h, (Ok r, mkHarness (recorded h ++ [r]) (sent h) (reads h))).

(** * Configuration ([config.ts]) *)

Record AuditConfig : Type := mkAuditConfig {
  trusteeBase : string; paychainBase : string; paykhBase : string; trusteeBankId : string; trusteeBankSecret : string;
  paychainId : string; paychainSecret : string; paykhId : string; paykhSecret : string; programId : string;
  loyaltyLiabilityId : string; stellarHorizon : string; outDir : string
}.

Definition loadConfig (penv : string → option string) : AuditConfig :=
  {| trusteeBase := default "http://127.0.0.1:3999" (penv "TRUSTEE_API_URL");
     paychainBase := default "" (penv "PAYCHAIN_API_URL"); paykhBase := default "" (penv "PAYKH_API_URL");
     trusteeBankId := default "" (penv "TRUSTEE_BANK_CLIENT_ID");
     trusteeBankSecret := default "" (penv "TRUSTEE_BANK_CLIENT_SECRET");
     paychainId := default "" (penv "PAYCHAIN_CLIENT_ID"); paychainSecret := default "" (penv "PAYCHAIN_CLIENT_SECRET");
     paykhId := default "" (penv "PAYKH_CLIENT_ID"); paykhSecret := default "" (penv "PAYKH_CLIENT_SECRET");
     programId := default "" (penv "E2E_PROGRAM_ID"); loyaltyLiabilityId := default "" (penv "E2E_LOYALTY_LIABILITY_ID");
     stellarHorizon := default "https://horizon-testnet.stellar.org" (penv "STELLAR_HORIZON_URL");
     outDir := default "" (penv "E2E_OUT_DIR") |}.

Section clients.
Context (cfg : AuditConfig).

(** * The clients ([clients/trustee.ts], [clients/platforms.ts]) *)

Definition bank_creds : Creds := mkCreds (trusteeBase cfg) (Some (trusteeBankId cfg)) (Some (trusteeBankSecret cfg)).
Definition paychain_creds : Creds := mkCreds (trusteeBase cfg) (Some (paychainId cfg)) (Some (paychainSecret cfg)).
Definition anonymous (url : string) : Creds := mkCreds url None None.

Definition health : ApiCall := mkApiCall (anonymous (trusteeBase cfg)) "GET" "/health" None.
Definition jwks : ApiCall := mkApiCall (anonymous (trusteeBase cfg)) "GET" "/.well-known/trustee-signing-keys" None.
Definition reserveCurrent (p : string) : ApiCall :=
  mkApiCall paychain_creds "GET" ("/api/v1/paychain/reserves/" +:+ p +:+ "/current") None.
Definition createPor (p : string) : ApiCall :=
  mkApiCall paychain_creds "POST" ("/api/v1/paychain/proof-of-reserve/" +:+ p +:+ "/snapshots") None.
Definition latestPor (p : string) : ApiCall :=
  mkApiCall paychain_creds "GET" ("/api/v1/paychain/proof-of-reserve/" +:+ p +:+ "/latest") None.
Definition loyaltyList : ApiCall := mkApiCall bank_creds "GET" "/api/v1/bank/loyalty-liabilities" None.
Definition loyaltyReconcile (id : string) : ApiCall :=
  mkApiCall bank_creds "POST" ("/api/v1/bank/loyalty-liabilities/" +:+ id +:+ "/reconcile") None.
Definition bankReconcile (p : string) : ApiCall :=
  mkApiCall bank_creds "POST" ("/api/v1/bank/reserves/" +:+ p +:+ "/bank-reconcile") None.
Definition trialBalance (p : string) : ApiCall :=
  mkApiCall bank_creds "GET" ("/api/v1/admin/ledger/" +:+ p +:+ "/trial-balance") None.
Definition audit (limit : Z) : ApiCall :=
  mkApiCall bank_creds "GET" ("/api/v1/admin/audit?limit=" +:+ big_to_string limit) None.

(** [now]: [Date.now()] when the snapshot is made. *)
Definition postUnsignedLiability (p : string) (now : Z) : ApiCall :=
  mkApiCall paychain_creds "POST" "/api/v1/paychain/liability-snapshots" (Some (JObj
    [("programId", JStr p); ("assetId", JStr "AUDIT"); ("assetCode", JStr "AUDIT"); ("blockchainNetwork", JStr "stellar-testnet");
     ("issuerAccount", JStr "G_AUDIT"); ("circulatingMinor", JStr "1"); ("treasuryHeldMinor", JStr "0"); ("lockedMinor", JStr "0");
     ("pendingMintMinor", JStr "0"); ("pendingBurnMinor", JStr "0"); ("pendingRedemptionMinor", JStr "0");
     ("confirmedBurnMinor", JStr "0"); ("effectiveLiabilityMinor", JStr "1"); ("currency", JStr "USD");
     ("ledgerReference", JStr "audit"); ("sourceVersion", JStr "audit"); ("sequence", JStr (big_to_string now));
     ("snapshotTimestamp", JStr (toISOString 0))])).

Definition paychain_configured : bool := negb (bool_decide (paychainBase cfg = "")).
Definition paykh_configured : bool := negb (bool_decide (paykhBase cfg = "")).
Definition createWallet (customerRef : string) : ApiCall :=
  mkApiCall (anonymous (paychainBase cfg)) "POST" "/wallets" (Some (JObj [("customerRef", JStr customerRef)])).
Definition earn (assetId : string) (body : jsval) : ApiCall :=
  mkApiCall (anonymous (paychainBase cfg)) "POST" ("/assets/" +:+ assetId +:+ "/earn") (Some body).
Definition purchase (body : jsval) : ApiCall := mkApiCall (anonymous (paykhBase cfg)) "POST" "/purchases" (Some body).
Definition awardPoints (body : jsval) : ApiCall := mkApiCall (anonymous (paykhBase cfg)) "POST" "/loyalty/award" (Some body).
End clients.

(** * Signatures ([checks/signatures.ts]) *)

(** [Map]'s equality of the keys that JSON can hold. *)
Definition same_value (a b : jsval) : bool :=
  match a, b with
  | JUndefined, JUndefined | JNull, JNull => true
  | JBool x, JBool y => bool_decide (x = y)
  | JNum x, JNum y => bool_decide (x = y)
  | JStr x, JStr y => bool_decide (x = y)
  | _, _ => false
  end.

(** [jwksByKeyId(keys)], whose last entry for a key id counts. *)
Fixpoint jwksByKeyId (keys : list jsval) : outcome (list (jsval * jsval)) :=
  match keys with
  | [] => Ok []
  | k :: keys' => keyId ← js_prop "keyId" k; m ← jwksByKeyId keys'; Ok ((keyId, k) :: m)
  end.

Fixpoint jwks_get (keyId : jsval) (m : list (jsval * jsval)) : option jsval :=
  match m with
  | [] => None
  | (id, k) :: m' => match jwks_get keyId m' with Some k' => Some k' | None => if same_value id keyId then Some k else None end
  end.

(** [createPublicKey(key.publicKeyPem)] *)
Definition public_key (k : jsval) : outcome string := createPublicKey node (js_get "publicKeyPem" k).

(** [edVerify(null, Buffer.from(bytes), pub, Buffer.from(value, 'base64'))] *)
Definition verify_bytes (k : jsval) (bytes : string) (value : jsval) : outcome bool :=
  pub ← public_key k; signature ← base64_buffer node value; edVerify node pub bytes signature.

(** What a loop over [v ?? []] goes over, behind a test of its length: a text has
    characters, an object with a length cannot be iterated. *)
Definition looped (v : jsval) : outcome (list jsval) :=
  match v with
  | JArr l => Ok l
  | JStr s => Ok ((λ c, JStr (String c "")) <$> String.list_ascii_of_string s)
  | JObj _ => if js_truthy (js_get "length" v) then Err (JsError "TypeError" "keys is not iterable") else Ok []
  | _ => Ok []
  end.

(** [pass] and [note]; the signature is there in every call. *)
Definition verifyArtifact (canonicalBytes : string) (keyId value : jsval) (m : list (jsval * jsval)) : bool * string :=
  match jwks_get keyId m with
  | Some key =>
      if js_truthy key then
        match verify_bytes key canonicalBytes value with
        | Ok true => (true, "verified vs " +:+ js_String keyId)
        | Ok false => (false, "signature mismatch")
        | Err e => (false, Scheduler.error_message e)
        end
      else (false, "keyId " +:+ js_String keyId +:+ " not in JWKS")
  | None => (false, "keyId " +:+ js_String keyId +:+ " not in JWKS")
  end.

(** * Stages ([scenarios.ts]) *)

Definition bigGte (a b : jsval) : outcome bool := x ← js_BigInt a; y ← js_BigInt b; Ok (y <=? x).

Definition status_detail (r : HttpResult) : jsval := JObj [("status", JNum (Num (hr_status r)))].
Definition note (s : string) : jsval := JObj [("note", JStr s)].

(** A record without artifact and independent check. *)
Definition plain (testId title : string) (cos : list string) (platform : string) (detail : jsval) (v : Verdict) : Evidence :=
  mkEvidence testId title cos platform detail None None v.
Definition checked (testId title : string) (cos : list string) (platform : string) (detail : jsval)
    (method : string) (result : Verdict) (note : option string) (v : Verdict) : Evidence :=
  mkEvidence testId title cos platform detail None (Some (mkIndependentCheck method result note)) v.

Definition pass_if (b : bool) : Verdict := if b then PASS else FAIL.

Definition amount_4000000 (currency : list (string * jsval)) : jsval := JObj (("amountMinor", JStr "4000000") :: currency).

Section stages.
Context (cfg : AuditConfig).

Definition stage_S1 : prog Harness unit :=
  let evidence := plain "E2E-01.S1" "Customer purchase → paid" ["CO-6"; "CO-9"] "paykh" in
  if paykh_configured cfg then
    r ← call (purchase cfg (amount_4000000 [("currency", JStr "KHR")]));
    _ ← record (evidence (status_detail r) (pass_if (hr_ok r))); mret tt
  else _ ← record (evidence (note "PAYKH_API_URL not configured") NOT_READY); mret tt.

(** Nothing is asked of PayKH. *)
Definition stage_S2 : prog Harness unit :=
  let configured := paykh_configured cfg in
  _ ← record (plain "E2E-01.S2" "Award local loyalty points" ["CO-7"] "paykh"
        (note (if configured then "awarded" else "PAYKH_API_URL not configured")) (if configured then PASS else NOT_READY));
  mret tt.

Definition stage_S3_S4 : prog Harness unit :=
  let wallet := plain "E2E-01.S3" "On-chain wallet created" ["CO-4"] "paychain" in
  let mint := plain "E2E-01.S4" "Stablecoin mint (/assets/{id}/earn)" ["CO-2"; "CO-4"] "paychain" in
  if paychain_configured cfg then
    w ← call (createWallet cfg "cus_audit");
    _ ← record (wallet (status_detail w) (pass_if (hr_ok w)));
    m ← call (earn cfg "AUDIT_ASSET" (amount_4000000 []));
    _ ← record (mint (JObj [("status", JNum (Num (hr_status m)));
                            ("body", js_or (hr_json m) (JStr (take_string 120 (hr_text m))))]) (pass_if (hr_ok m)));
    mret tt
  else
    _ ← record (wallet (note "PAYCHAIN_API_URL not configured") NOT_READY);
    _ ← record (mint (note "PAYCHAIN_API_URL not configured") NOT_READY);
    mret tt.

(** [tb.json?.totals?.balanced] *)
Definition balanced_of (tb : HttpResult) : bool := js_truthy (js_get "balanced" (js_get "totals" (hr_json tb))).
Definition totals_detail (tb : HttpResult) : jsval := JObj [("totals", js_get "totals" (hr_json tb))].

(** The posture a response shows: its detail and whether it is fully reserved. *)
Definition posture (pos : HttpResult) : outcome (jsval * bool) :=
  if hr_ok pos && js_truthy (hr_json pos) then
    let elig := js_or (js_get "minor" (js_get "eligibleReserve" (hr_json pos))) (JStr "0") in
    let oblig := js_or (js_get "minor" (js_get "reserveObligation" (hr_json pos))) (JStr "0") in
    fullyReserved ← bigGte elig oblig;
    Ok (JObj [("eligibleReserveMinor", elig); ("reserveObligationMinor", oblig);
              ("reserveRatioBps", js_get "reserveRatioBps" (hr_json pos)); ("fullyReserved", JBool fullyReserved)],
        fullyReserved)
  else Ok (status_detail pos, false).

Definition stage_S5 : prog Harness unit :=
  let title := "Reserve posture — fully reserved" in
  if bool_decide (programId cfg = "") then
    _ ← record (plain "E2E-01.S5" title ["CO-1"; "CO-2"] "trustee" (note "E2E_PROGRAM_ID not set") NOT_READY); mret tt
  else
    pos ← call (reserveCurrent cfg (programId cfg));
    p ← lift (posture pos);
    let v := pass_if p.2 in
    _ ← record (checked "E2E-01.S5" title ["CO-1"; "CO-2"] "trustee" p.1 "eligible>=obligation" v None v);
    tb ← call (trialBalance cfg (programId cfg));
    let v := pass_if (balanced_of tb) in
    _ ← record (checked "E2E-01.S5b" "Ledger in balance (double-entry)" ["CO-8"] "trustee" (totals_detail tb)
                  "sum(debits)==sum(credits)" v None v);
    mret tt.

(** [latest.json] of a response with a signature. *)
Definition snapshot_artifact (s : jsval) : Artifact :=
  let signature := js_get "signature" s in
  mkArtifact "RESERVE_SNAPSHOT" (stringify s) (js_get "keyId" signature)
    (if js_truthy (js_get "algorithm" signature) then js_get "algorithm" signature else JStr "ed25519")
    (js_get "value" signature).

Definition stage_S6 : prog Harness unit :=
  let title := "Signed proof-of-reserve snapshot" in
  if bool_decide (programId cfg = "") then mret tt
  else
    _ ← call (createPor cfg (programId cfg));
    latest ← call (latestPor cfg (programId cfg));
    let s := hr_json latest in
    if hr_ok latest && js_truthy (js_get "signature" s) then
      _ ← record (mkEvidence "E2E-01.S6" title ["CO-3"] "trustee"
            (JObj [("snapshotId", js_get "snapshotId" s); ("reconciliationStatus", js_get "reconciliationStatus" s);
                   ("reserveRatioBps", js_get "reserveRatioBps" s)])
            (Some (snapshot_artifact s)) None
            (pass_if (negb (same_value (js_get "reconciliationStatus" s) (JStr "SHORTFALL")))));
      mret tt
    else _ ← record (plain "E2E-01.S6" title ["CO-3"] "trustee" (status_detail latest) FAIL); mret tt.

(** The liability to reconcile. *)
Definition loyalty_target (loy : HttpResult) : outcome (option jsval) :=
  liabilities ← js_elements (js_get "liabilities" (hr_json loy));
  if bool_decide (loyaltyLiabilityId cfg = "") then
    js_find (λ l, s ← js_prop "stellar" l; Ok (js_truthy s)) liabilities
  else js_find (λ l, id ← js_prop "id" l; Ok (same_value id (JStr (loyaltyLiabilityId cfg)))) liabilities.

(** [rc.json?.onChainVerified === true], and the verdict. *)
Definition onChainVerified (rc : HttpResult) : bool := same_value (js_get "onChainVerified" (hr_json rc)) (JBool true).
Definition loyalty_verdict (rc : HttpResult) : Verdict :=
  if negb (onChainVerified rc) then NOT_READY
  else if same_value (js_get "reconciliationStatus" (hr_json rc)) (JStr "DRIFT") then FAIL else PASS.

Definition stage_S7 : prog Harness unit :=
  let title := "Independent on-chain verification (supply==liability)" in
  loy ← call (loyaltyList cfg);
  target ← lift (loyalty_target loy);
  match target with
  | Some target =>
      rc ← call (loyaltyReconcile cfg (js_String (js_get "id" target)));
      let v := loyalty_verdict rc in
      _ ← record (checked "E2E-01.S7" title ["CO-4"; "CO-10"] "trustee" (js_or (hr_json rc) (status_detail rc))
                    "read testnet Horizon vs ledger" v
                    (if onChainVerified rc then None else Some "no on-chain binding / no supply to verify") v);
      mret tt
  | None =>
      _ ← record (plain "E2E-01.S7" title ["CO-4"; "CO-10"] "trustee"
            (note "no loyalty stablecoin bound with a Stellar asset — nothing to verify (see gaps §9)") NOT_READY);
      mret tt
  end.

(** The first record of S6 with an artifact. *)
Definition captured (l : list EvidenceRecord) : option Artifact :=
  match filter (λ r, testId (evidence r) = "E2E-01.S6" ∧ is_Some (artifact (evidence r))) l with
  | r :: _ => artifact (evidence r)
  | [] => None
  end.

Definition verifyJwksStage : prog Harness unit :=
  jw ← call (jwks cfg);
  keys ← lift (looped (js_get "keys" (hr_json jw)));
  match keys with
  | [] =>
      _ ← record (plain "E2E-01.S8" "Trustee JWKS published & verifiable" ["CO-3"; "CO-11"] "auditor"
            (JObj [("status", JNum (Num (hr_status jw)));
                   ("note", JStr "JWKS not returned (docs-gated in prod, or unreachable)")]) NOT_READY);
      mret tt
  | _ =>
      purposes ← lift (ofold (λ acc k, p ← js_prop "purpose" k; Ok (acc ++ [p])) [] keys);
      let allValid := forallb (λ k, is_ok (public_key k)) keys in
      _ ← record (checked "E2E-01.S8" "Trustee JWKS published & keys valid Ed25519" ["CO-3"; "CO-11"] "auditor"
            (JObj [("keyCount", JNum (Num (Z.of_nat (length keys)))); ("purposes", JArr purposes)])
            "parse each publicKeyPem" (pass_if allValid) None (pass_if allValid));
      h ← read recorded;
      match captured h with
      | Some a =>
          l ← lift (js_elements (js_get "keys" (hr_json jw)));
          m ← lift (jwksByKeyId l);
          let '(ok, why) := verifyArtifact (canonical a) (af_keyId a) (af_value a) m in
          let v := if ok : bool then PASS else NOT_READY in
          _ ← record (checked "E2E-01.S8b" "Reserve snapshot signature verifies vs JWKS" ["CO-3"] "auditor"
                (JObj [("keyId", af_keyId a); ("note", JStr why)]) "Ed25519 verify over served bytes" v
                (if ok then None else Some "FINDING: expose exact signed canonical bytes in the read API for offline regulator re-verification") v);
          mret tt
      | None => mret tt
      end
  end.

Definition runE2E01 : prog Harness unit :=
  stage_S1;; stage_S2;; stage_S3_S4;; stage_S5;; stage_S6;; stage_S7;; verifyJwksStage.

(** * Controls *)

Definition control_C06 : prog Harness unit :=
  if bool_decide (programId cfg = "") then mret tt
  else
    now ← Date_now;
    r ← call (postUnsignedLiability cfg (programId cfg) now);
    let evidence := plain "C-06" "Unsigned liability feed rejected" ["CO-11"] "trustee" in
    if hr_status r =? 400 then
      _ ← record (evidence (JObj [("status", JNum (Num (hr_status r))); ("message", js_get "message" (hr_json r))]) PASS); mret tt
    else
      _ ← record (evidence (JObj [("status", JNum (Num (hr_status r)));
            ("note", JStr "accepted — liability.signature.required is OFF (demo-trust). Enable + set PAYCHAIN_LIABILITY_PUBLIC_KEY.")]) NOT_READY);
      mret tt.

Definition control_C07 : prog Harness unit :=
  let title := "Artifact tamper detection" in
  jw ← call (jwks cfg);
  keys ← lift (looped (js_get "keys" (hr_json jw)));
  match keys with
  | k :: _ =>
      keyId ← lift (js_prop "keyId" k);
      l ← lift (js_elements (js_get "keys" (hr_json jw)));
      m ← lift (jwksByKeyId l);
      let bad := verifyArtifact ("{" +:+ json_quote "tampered" +:+ ":true}") keyId (JStr "bm90LWEtdmFsaWQtc2lnbmF0dXJl") m in
      let v := pass_if (negb bad.1) in
      _ ← record (checked "C-07" title ["CO-3"; "CO-11"] "auditor" (note "verify tampered bytes against a real key")
            "Ed25519 verify tampered" v (Some bad.2) v);
      mret tt
  | [] =>
      _ ← record (plain "C-07" title ["CO-3"; "CO-11"] "auditor" (note "JWKS unavailable (may be docs-gated in prod)") NOT_READY);
      mret tt
  end.

Definition reconcile_verdict (r : HttpResult) : Verdict :=
  let reconciled := js_get "reconciled" (hr_json r) in
  if negb (hr_ok r) then FAIL
  else if same_value reconciled (JBool true) then PASS
  else if same_value reconciled (JBool false) then FAIL else NOT_READY.

Definition control_C08 : prog Harness unit :=
  if bool_decide (programId cfg = "") then mret tt
  else
    r ← call (bankReconcile cfg (programId cfg));
    let v := reconcile_verdict r in
    _ ← record (checked "C-08" "Multi-bank reconciliation" ["CO-1"; "CO-8"] "trustee"
          (JObj (map (λ k, (k, js_get k (hr_json r)))
             ["ledgerCashMinor"; "bankTotalMinor"; "driftMinor"; "reconciled"; "accountsCovered"; "accountsUncovered"]))
          "ledger cash vs summed bank balances" v None v);
    mret tt.

Definition control_C09 : prog Harness unit :=
  if bool_decide (programId cfg = "") then mret tt
  else
    tb ← call (trialBalance cfg (programId cfg));
    _ ← record (plain "C-09" "Ledger balance invariant" ["CO-8"] "trustee" (totals_detail tb) (pass_if (balanced_of tb)));
    mret tt.

Definition control_C12 : prog Harness unit :=
  au ← call (audit cfg 50);
  logs ← lift (js_elements (js_get "logs" (hr_json au)));
  actions ← lift (ofold (λ acc l, a ← js_prop "action" l; Ok (acc ++ [a])) [] (take 5 logs));
  _ ← record (plain "C-12" "Audit trail present & immutable" ["CO-7"] "trustee"
        (JObj [("entries", JNum (Num (Z.of_nat (length logs)))); ("sampleActions", JArr actions)])
        (if (0 <? length logs)%nat then PASS else NOT_READY));
  mret tt.

(** The controls that need the other platforms or fixtures. *)
Definition pending_controls : list (string * string * list string) :=
  [("C-01", "Under-reserve blocks mint", ["CO-2"; "CO-10"]); ("C-02", "Self-approval blocked (SoD §9)", ["CO-5"]);
   ("C-03", "Unverified merchant blocked", ["CO-6"]); ("C-04", "Idempotent payment & mint", ["CO-9"]);
   ("C-05", "On-chain/ledger drift detection", ["CO-4"; "CO-10"]); ("C-10", "Burn reduces supply + liability", ["CO-2"; "CO-4"]);
   ("C-11", "Full-reserve at all times", ["CO-2"])].

Definition control_pending : prog Harness unit :=
  for_each pending_controls (λ c,
    _ ← record (plain c.1.1 c.1.2 c.2 "auditor"
          (note "requires live PayKH/PayChain or a seeded mint/redeem fixture — pending platform readiness") NOT_READY);
    mret tt).

Definition runControls : prog Harness unit :=
  control_C06;; control_C07;; control_C08;; control_C09;; control_C12;; control_pending.
End stages.

(** * The supply on the chain ([checks/onchain.ts]) *)

(** [ok], [circulatingMinor] and [note]; it goes over the number of network calls. *)
Definition readOnChainSupplyMinor (horizonUrl assetCode issuer : string) (decimals : Z) : prog nat (bool * option string * string) :=
  prog_catch
    (adapter ← lift (new_horizon (mkHorizonStellarConfig horizonUrl None None None));
     supply ← getSupply adapter (mkStellarAssetRef assetCode issuer decimals);
     mret (true, Some (circulatingMinor supply),
           "read " +:+ assetCode +:+ ":" +:+ take_string 6 issuer +:+ "… on " +:+ horizonUrl))
    (λ e, mret (false, None, Scheduler.error_message e)).

(** * The run ([run.ts]) *)

Record RunMeta : Type := mkRunMeta {
  runId : string; startedAt : string; finishedAt : string; rm_outcome : Verdict; rm_summary : Summary; rm_manifest : Manifest;
  rm_env : list (string * string)
}.

(** [args.includes('--only') ? args[args.indexOf('--only') + 1] : ''], where what is missing is falsy. *)
Definition only_of (args : list string) : string :=
  match list_find (λ a, a = "--only") args with Some (i, _) => default "" (args !! S i) | None => "" end.

Definition runs_e2e (args : list string) : bool :=
  negb (bool_decide ("--controls-only" ∈ args)) && bool_decide (only_of args ∈ [""; "E2E-01"]).
Definition runs_controls (args : list string) : bool := bool_decide (only_of args ∈ [""; "controls"]).

(** [startedAt.replace(/[:.]/g, '-')] *)
Fixpoint dashed (s : string) : string :=
  match s with
  | EmptyString => ""
  | String a s' => String (if Ascii.eqb a ":" || Ascii.eqb a "." then "-"%char else a) (dashed s')
  end.

(** The run up to the evidence pack. *)
Definition run_audit (cfg : AuditConfig) (args : list string) : prog Harness RunMeta :=
  t ← Date_now;
  let startedAt := toISOString t in
  let runId := "e2e-" +:+ dashed startedAt in
  h ← call (health cfg);
  _ ← record (plain "PRE-01" "Trustee reachable" ["CO-1"] "trustee"
        (JObj [("status", JNum (Num (hr_status h))); ("body", hr_json h)]) (if hr_ok h then PASS else NOT_READY));
  (if runs_e2e args then runE2E01 cfg else mret tt);;
  (if runs_controls args then runControls cfg else mret tt);;
  t' ← Date_now;
  l ← read recorded;
  mret (mkRunMeta runId startedAt (toISOString t') (run_outcome l) (summary l) (manifest l runId)
          [("trustee", trusteeBase cfg); ("paychain", paychainBase cfg); ("paykh", paykhBase cfg); ("horizon", stellarHorizon cfg)]).

(** [main] and the exit code of the process; [write] saves the pack and may throw. *)
Definition exit_code (write : RunMeta → list EvidenceRecord → bool) (cfg : AuditConfig) (args : list string) : Z :=
  match run (run_audit cfg args) (mkHarness [] 0 0) with
  | (Ok meta, h) =>
      if write meta (recorded h) then match rm_outcome meta with PASS => 0 | NOT_READY => 2 | FAIL => 1 end else 1
  | (Err _, _) => 1
  end.
End harness.

(** * The report ([report.ts]) *)

(** The verdicts of a control objective. *)
Definition co_verdicts (co : string) (l : list EvidenceRecord) : list Verdict :=
  l ≫= λ r, (λ _, verdict (evidence r)) <$> filter (λ c, c = co) (controlObjective (evidence r)).

Definition co_status (vs : list Verdict) : Verdict :=
  if bool_decide (FAIL ∈ vs) then FAIL else if bool_decide (NOT_READY ∈ vs) then NOT_READY else PASS.

(** [[...cos.entries()].sort()], which compares the entries as texts. *)
Definition co_key (co : string) : string := co +:+ ",[object Object]".
Definition co_le (a b : string) : Prop := string_leb (co_key a) (co_key b) = true.
#[local] Instance co_le_dec a b : Decision (co_le a b).
Proof. unfold co_le. apply _. Defined.
Definition coverage (l : list EvidenceRecord) : list (string * Verdict) :=
  (λ co, (co, co_status (co_verdicts co l))) <$>
    merge_sort co_le (remove_dups (l ≫= λ r, controlObjective (evidence r))).

(** [esc]: what the HTML report shows of a value. *)
Fixpoint esc (s : string) : string :=
  match s with
  | EmptyString => ""
  | String a s' =>
      (if Ascii.eqb a "&" then "&amp;" else if Ascii.eqb a "<" then "&lt;" else if Ascii.eqb a ">" then "&gt;" else String a "")
      +:+ esc s'
  end.
