(* ===== verification/AuditGate.v ===== *)
(** What a run of the end-to-end audit records, and what its exit code tells.

    [adds p Q]: the records that the program [p] adds, and its result, are in [Q].  Each
    stage has a lemma that says what it has seen when none of its records fails;
    [audit_exit_zero] puts them together for the exit code on which a release is
    gated. *)
From S2P Require Import Prelude.
From S2P Require Import Text.
From S2P Require Import Prog.
From S2P Require Import Crypto.
From S2P Require Import Credentials.
From S2P Require Import Infra.
From S2P Require Import Worker.
From S2P Require Import JsValue.
From S2P Require Import Adapters.
From S2P Require Import EndToEnd.
#[local] Open Scope string_scope.
#[local] Open Scope list_scope.
#[local] Open Scope Z_scope.

(** * What a run records *)

Section recording.
Context `{RT : !Runtime} `{NET : !Network} (time : nat → Z).

(** Whatever [p] is run on, the records it adds and its result are in [Q], which also
    sees the records from before. *)
Definition adds {A} (p : prog Harness A) (Q : list EvidenceRecord → list EvidenceRecord → A → Prop) : Prop :=
  ∀ h a h', run p h = (Ok a, h') → ∃ new, recorded h' = recorded h ++ new ∧ Q (recorded h) new a.

Lemma adds_mono {A} (p : prog Harness A) (Q Q' : _ → _ → A → Prop) :
  adds p Q → (∀ l new a, Q l new a → Q' l new a) → adds p Q'.
Proof. intros Hp HQ h a h' H. destruct (Hp h a h' H) as (new & ? & ?). exists new. auto. Qed.

Lemma adds_ret {A} (a : A) (Q : _ → _ → A → Prop) : (∀ l, Q l [] a) → adds (mret a) Q.
Proof. intros HQ h b h' [= <- <-]. exists []. by rewrite app_nil_r. Qed.

Lemma adds_bind {A B} (p : prog Harness A) (k : A → prog Harness B) Q1 (Q2 : A → _) (Q : _ → _ → B → Prop) :
  adds p Q1 → (∀ a, adds (k a) (Q2 a)) →
  (∀ l n1 a n2 b, Q1 l n1 a → Q2 a (l ++ n1) n2 b → Q l (n1 ++ n2) b) → adds (p ≫= k) Q.
Proof.
  intros Hp Hk HQ h b h' (a & h1 & H1 & H2)%run_bind_ok.
  destruct (Hp _ _ _ H1) as (n1 & E1 & HQ1), (Hk a _ _ _ H2) as (n2 & E2 & HQ2).
  rewrite E1 in E2, HQ2. exists (n1 ++ n2). split; [by rewrite app_assoc|by eapply HQ].
Qed.

Lemma adds_lift {A B} (o : outcome A) (k : A → prog Harness B) Q :
  (∀ a, o = Ok a → adds (k a) Q) → adds (lift o ≫= k) Q.
Proof. intros Hk h b h' (a & h1 & H1 & H2)%run_bind_ok. rewrite run_lift in H1. injection H1 as -> <-. by eapply Hk. Qed.

Lemma adds_call {B} c (k : HttpResult → prog Harness B) Q : (∀ n, adds (k (result_of c n)) Q) → adds (call c ≫= k) Q.
Proof.
  intros Hk h b h' (r & h1 & H1 & H2)%run_bind_ok. unfold call in H1. rewrite run_action in H1. injection H1 as <- <-.
  exact (Hk (sent h) _ _ _ H2).
Qed.

Lemma adds_date {B} (k : Z → prog Harness B) Q : (∀ t, adds (k t) Q) → adds (Date_now time ≫= k) Q.
Proof.
  intros Hk h b h' (r & h1 & H1 & H2)%run_bind_ok. unfold Date_now in H1. rewrite run_action in H1. injection H1 as <- <-.
  exact (Hk _ _ _ _ H2).
Qed.

Lemma adds_read {B} (k : list EvidenceRecord → prog Harness B) (Q : _ → _ → B → Prop) :
  (∀ l, adds (k l) (λ l' new b, l' = l → Q l new b)) → adds (read recorded ≫= k) Q.
Proof.
  intros Hk h b h' (r & h1 & H1 & H2)%run_bind_ok. rewrite run_read in H1. injection H1 as <- <-.
  destruct (Hk _ _ _ _ H2) as (new & E & HQ). exists new. split; [done|by apply HQ].
Qed.

Lemma adds_record {B} e (k : EvidenceRecord → prog Harness B) (Q : _ → _ → B → Prop) :
  (∀ r, evidence r = e → adds (k r) (λ l' new b, ∀ l, l' = l ++ [r] → Q l (r :: new) b)) → adds (record time e ≫= k) Q.
Proof.
  intros Hk h b h' (r & h1 & H1 & H2)%run_bind_ok. unfold record, Date_now in H1.
  rewrite run_bind, run_action, run_action in H1. injection H1 as <- <-.
  edestruct Hk as (new & E & HQ); [|exact H2|]; [done|]. cbn [recorded] in E, HQ.
  eexists (_ :: new). split; [by rewrite E, <- app_assoc|by apply HQ].
Qed.

(** One stage after the other. *)
Lemma adds_seq {B} (p : prog Harness unit) (q : prog Harness B) Q1 (Q2 : _ → _ → B → Prop) :
  adds p Q1 → adds q Q2 →
  adds (p;; q) (λ l new b, ∃ n1 n2, new = n1 ++ n2 ∧ Q1 l n1 tt ∧ Q2 (l ++ n1) n2 b).
Proof.
  intros Hp Hq. apply (adds_bind _ _ Q1 (λ _, Q2)); [done|done|]. intros l n1 [] n2 b H1 H2. by exists n1, n2.
Qed.

(** A record that ends a stage. *)
Lemma adds_record_last e (Q : _ → _ → unit → Prop) :
  (∀ l r, evidence r = e → Q l [r] tt) → adds (_ ← record time e; mret tt) Q.
Proof. intros HQ. apply adds_record. intros r Hr. apply adds_ret. intros l' l ->. by apply HQ. Qed.
End recording.

(** * What a passing run shows *)

Definition passes (new : list EvidenceRecord) : Prop := Forall (λ r, verdict (evidence r) = PASS) new.
Definition artifactless (new : list EvidenceRecord) : Prop := Forall (λ r, artifact (evidence r) = None) new.

Lemma passes_app l l' : passes (l ++ l') ↔ passes l ∧ passes l'.
Proof. unfold passes. by rewrite Forall_app. Qed.

Lemma passes_one r l : passes (r :: l) ↔ verdict (evidence r) = PASS ∧ passes l.
Proof. unfold passes. by rewrite Forall_cons. Qed.

Lemma pass_if_true b : pass_if b = PASS ↔ b = true.
Proof. by destruct b. Qed.

Lemma captured_after l l' : artifactless l → captured (l ++ l') = captured l'.
Proof.
  intros Hl. unfold captured. rewrite filter_app.
  assert (filter (λ r, testId (evidence r) = "E2E-01.S6" ∧ is_Some (artifact (evidence r))) l = []) as ->; [|done].
  induction Hl as [|r l Hr _ IH]; [done|]. rewrite filter_cons_False; [done|]. intros [_ [a Ha]]. by rewrite Hr in Ha.
Qed.

Lemma captured_before l l' a : captured l = Some a → captured (l ++ l') = Some a.
Proof. unfold captured. rewrite filter_app. by destruct (filter _ l). Qed.

(** The verdict of the run. *)
Lemma run_outcome_pass l : run_outcome l = PASS ↔ passes l.
Proof.
  unfold run_outcome, passes. cbn [summary fail notReady]. unfold count_verdict. split.
  - destruct (Nat.ltb_spec 0 (length (filter (λ r, verdict (evidence r) = FAIL) l))); [done|].
    destruct (Nat.ltb_spec 0 (length (filter (λ r, verdict (evidence r) = NOT_READY) l))); [done|]. intros _.
    assert (filter (λ r, verdict (evidence r) = FAIL) l = []) as Hf by (apply nil_length_inv; lia).
    assert (filter (λ r, verdict (evidence r) = NOT_READY) l = []) as Hn by (apply nil_length_inv; lia).
    apply Forall_forall. intros r Hr. destruct (verdict (evidence r)) eqn:E; [done| |]; exfalso.
    + apply (not_elem_of_nil r). rewrite <- Hf. by apply list_elem_of_filter.
    + apply (not_elem_of_nil r). rewrite <- Hn. by apply list_elem_of_filter.
  - intros Hl. rewrite Forall_forall in Hl.
    assert (∀ v, v ≠ PASS → filter (λ r, verdict (evidence r) = v) l = []) as E.
    { intros v Hv. apply elem_of_nil_inv. intros r [Hr Hin]%list_elem_of_filter. rewrite (Hl r Hin) in Hr. by destruct Hv. }
    by rewrite !E.
Qed.

Section passing.
Context `{RT : !Runtime} `{NET : !Network} (time : nat → Z) (node : NodeVerify) (cfg : AuditConfig).

(** Some call of the run got a response with [P]. *)
Definition answered (c : ApiCall) (P : HttpResult → Prop) : Prop := ∃ n, P (result_of c n).
Definition ok (r : HttpResult) : Prop := hr_ok r = true.

(** An amount the answer has under [k], in the figures of its reserve; one that it does
    not have counts as 0. *)
Definition figure (k : string) (pos : HttpResult) (z : Z) : Prop :=
  let v := js_get "minor" (js_get k (hr_json pos)) in
  (v = JUndefined ∨ v = JNull) ∧ z = 0 ∨ js_BigInt v = Ok z.

Definition covers (pos : HttpResult) : Prop :=
  ok pos ∧ js_truthy (hr_json pos) = true ∧
  ∃ elig oblig, figure "eligibleReserve" pos elig ∧ figure "reserveObligation" pos oblig ∧ oblig ≤ elig.

Lemma figure_read k pos z : js_BigInt (js_or (js_get "minor" (js_get k (hr_json pos))) (JStr "0")) = Ok z → figure k pos z.
Proof.
  unfold figure. cbv zeta. destruct (js_get "minor" _); cbn [js_or]; intros H; try (by right).
  - left. split; [by left|]. by injection H.
  - left. split; [by right|]. by injection H.
Qed.

Lemma posture_covers pos d : posture pos = Ok (d, true) → covers pos.
Proof.
  unfold posture, covers, ok. destruct (hr_ok pos); [|done]. cbn [andb]. destruct (js_truthy (hr_json pos)); [|done].
  set (x := js_or (js_get "minor" (js_get "eligibleReserve" _)) _). set (y := js_or (js_get "minor" (js_get "reserveObligation" _)) _).
  unfold bigGte. destruct (js_BigInt x) as [elig|e] eqn:E1; [|done]. destruct (js_BigInt y) as [oblig|e] eqn:E2; [|done].
  intros [= _ H%Z.leb_le].
  split; [done|]. split; [done|]. exists elig, oblig. split; [by apply figure_read|]. split; [by apply figure_read|done].
Qed.

(** The records at hand have no artifact. *)
Ltac no_artifact :=
  unfold artifactless;
  repeat (apply Forall_cons_2; [cbv beta; match goal with H : evidence ?r = _ |- artifact (evidence ?r) = None => by rewrite H end|]);
  apply Forall_nil_2.
Ltac one_record := apply adds_record_last; intros l r Hr; rewrite ?passes_one, Hr.

Lemma S1_passes :
  adds (stage_S1 time cfg) (λ _ new _, artifactless new ∧ (passes new →
    paykh_configured cfg = true ∧ answered (purchase cfg (amount_4000000 [("currency", JStr "KHR")])) ok)).
Proof.
  unfold stage_S1. destruct (paykh_configured cfg).
  - apply adds_call. intros n. one_record. split; [no_artifact|].
    intros [H%pass_if_true _]. split; [done|by exists n].
  - one_record. split; [no_artifact|]. by intros [H _].
Qed.

Lemma S2_passes : adds (stage_S2 time cfg) (λ _ new _, artifactless new).
Proof. unfold stage_S2. cbv zeta. apply adds_record_last. intros l r Hr. no_artifact. Qed.

Lemma S3_S4_passes :
  adds (stage_S3_S4 time cfg) (λ _ new _, artifactless new ∧ (passes new →
    paychain_configured cfg = true ∧ answered (createWallet cfg "cus_audit") ok ∧
    answered (earn cfg "AUDIT_ASSET" (amount_4000000 [])) ok)).
Proof.
  unfold stage_S3_S4. destruct (paychain_configured cfg).
  - apply adds_call. intros n. apply adds_record. intros r Hr. apply adds_call. intros m.
    apply adds_record_last. intros l r' Hr' l' ->. split; [no_artifact|].
    rewrite !passes_one, Hr, Hr'. intros (H%pass_if_true & H'%pass_if_true & _). split; [done|].
    split; [by exists n|by exists m].
  - apply adds_record. intros r Hr. apply adds_record_last. intros l r' Hr' l' ->.
    split; [no_artifact|]. rewrite passes_one, Hr. by intros [H _].
Qed.

Lemma S5_passes :
  adds (stage_S5 time cfg) (λ _ new _, artifactless new ∧ (passes new →
    programId cfg ≠ "" ∧ answered (reserveCurrent cfg (programId cfg)) covers ∧
    answered (trialBalance cfg (programId cfg)) (λ tb, balanced_of tb = true))).
Proof.
  unfold stage_S5. case_bool_decide as Hp.
  - one_record. split; [no_artifact|]. by intros [H _].
  - apply adds_call. intros n. apply adds_lift. intros [d full] Hpos. apply adds_record. intros r Hr.
    apply adds_call. intros m. apply adds_record_last. intros l r' Hr' l' ->.
    split; [no_artifact|].
    rewrite !passes_one, Hr, Hr'. intros (H%pass_if_true & H'%pass_if_true & _). cbn in H. subst full.
    split; [done|]. split; [exists n; by eapply posture_covers|by exists m].
Qed.

(** The proof of reserve that the platform serves, without a shortfall. *)
Definition proven (latest : HttpResult) : Prop :=
  ok latest ∧ js_truthy (js_get "signature" (hr_json latest)) = true ∧
  js_get "reconciliationStatus" (hr_json latest) ≠ JStr "SHORTFALL".

Lemma S6_passes :
  adds (stage_S6 time cfg) (λ _ new _, passes new → programId cfg ≠ "" →
    answered (latestPor cfg (programId cfg)) (λ latest, proven latest ∧ captured new = Some (snapshot_artifact (hr_json latest)))).
Proof.
  unfold stage_S6. case_bool_decide as Hp.
  - apply adds_ret. by intros l _ H.
  - apply adds_call. intros n0. apply adds_call. intros n.
    destruct (hr_ok (result_of (latestPor cfg (programId cfg)) n) && _) eqn:E.
    + apply andb_true_iff in E as [E1 E2]. apply adds_record_last. intros l r Hr. rewrite passes_one, Hr.
      intros [H%pass_if_true _] _. exists n. split; [split_and!; [done..|]|].
      * intros Hs. by rewrite Hs in H.
      * unfold captured. rewrite filter_cons_True; [by rewrite Hr|]. rewrite Hr. by split; [|eexists].
    + one_record. by intros [H _].
Qed.

Definition verified_on_chain (rc : HttpResult) : Prop :=
  js_get "onChainVerified" (hr_json rc) = JBool true ∧ js_get "reconciliationStatus" (hr_json rc) ≠ JStr "DRIFT".

Lemma same_value_eq a b : same_value a b = true → a = b.
Proof. destruct a, b; try done; cbn; by intros ->%bool_decide_eq_true. Qed.

Lemma S7_passes :
  adds (stage_S7 time cfg) (λ _ new _, passes new → ∃ id, answered (loyaltyReconcile cfg id) verified_on_chain).
Proof.
  unfold stage_S7. apply adds_call. intros n. apply adds_lift. intros [target|] _.
  - apply adds_call. intros m. one_record. intros [H _]. eexists. exists m. cbn in H. unfold loyalty_verdict in H.
    destruct (onChainVerified _) eqn:Eo; [|done]. cbn [negb] in H. split.
    + by apply same_value_eq.
    + intros Hd. by rewrite Hd in H.
  - one_record. by intros [H _].
Qed.

(** The published keys are all keys, and one of them verifies the bytes of the artifact. *)
Definition verified_by (a : Artifact) (jw : HttpResult) : Prop :=
  ∃ ks, js_get "keys" (hr_json jw) = JArr ks ∧ ks ≠ [] ∧
    Forall (λ k, is_ok (createPublicKey node (js_get "publicKeyPem" k)) = true) ks ∧
    ∃ k pub v, k ∈ ks ∧ js_get "keyId" k = af_keyId a ∧ createPublicKey node (js_get "publicKeyPem" k) = Ok pub ∧
      base64_buffer node (af_value a) = Ok v ∧ edVerify node pub (canonical a) v = Ok true.

Lemma jwks_get_in keyId ks m k : jwksByKeyId ks = Ok m → jwks_get keyId m = Some k → k ∈ ks ∧ js_get "keyId" k = keyId.
Proof.
  revert m. induction ks as [|x ks IH]; intros m; cbn [jwksByKeyId]; [by intros [= <-]|].
  unfold mbind, outcome_bind. destruct (js_prop "keyId" x) as [i|e] eqn:Ei; [|done].
  destruct (jwksByKeyId ks) as [m'|e]; [|done]. intros [= <-]. cbn [jwks_get].
  destruct (jwks_get keyId m') as [k'|] eqn:E.
  - intros [= <-]. destruct (IH _ eq_refl E) as [Hin Hk]. split; [by right|done].
  - destruct (same_value i keyId) eqn:Es; [|done]. intros [= <-]. split; [left|]. apply same_value_eq in Es as <-.
    unfold js_prop in Ei. destruct x; try discriminate Ei; by injection Ei.
Qed.

Lemma verifyArtifact_pass bytes keyId value m :
  (verifyArtifact node bytes keyId value m).1 = true →
  ∃ k pub v, jwks_get keyId m = Some k ∧ createPublicKey node (js_get "publicKeyPem" k) = Ok pub ∧
    base64_buffer node value = Ok v ∧ edVerify node pub bytes v = Ok true.
Proof.
  unfold verifyArtifact. destruct (jwks_get keyId m) as [k|]; [|done]. destruct (js_truthy k); [|done].
  unfold verify_bytes, public_key, mbind, outcome_bind. destruct (createPublicKey node _) as [pub|e] eqn:Ec; [|done].
  destruct (base64_buffer node value) as [v|e] eqn:Eb; [|done].
  destruct (edVerify node pub bytes v) as [[|]|e] eqn:Ev; try done. intros _. by exists k, pub, v.
Qed.

Lemma S8_passes :
  adds (verifyJwksStage time node cfg) (λ l new _, passes new →
    ∀ a, captured l = Some a → answered (jwks cfg) (verified_by a)).
Proof.
  unfold verifyJwksStage. apply adds_call. intros n. apply adds_lift. intros keys Hk.
  destruct keys as [|k0 keys]; [one_record; by intros [H _]|]. set (ks := k0 :: keys) in *. apply adds_lift. intros purposes _.
  cbv zeta. apply adds_record. intros r Hr. apply adds_read. intros h.
  destruct (captured h) as [a|] eqn:Eh.
  - apply adds_lift. intros ks' Hks. apply adds_lift. intros m Hm. destruct (verifyArtifact _ _ _ _ _) as [pass why] eqn:Ev.
    apply adds_record_last. intros l' r' Hr' -> l -> Hpass a' Ha'.
    rewrite (captured_before _ _ _ Ha') in Eh. injection Eh as <-.
    rewrite !passes_one, Hr, Hr' in Hpass. destruct Hpass as (Hall%pass_if_true & Hpass & _).
    assert (js_get "keys" (hr_json (result_of (jwks cfg) n)) = JArr ks ∧ ks' = ks) as [Ek ->].
    { destruct (js_get "keys" _); try discriminate Hk; try discriminate Hks. injection Hk as ->. by injection Hks as <-. }
    destruct pass; [|done]. pose proof (f_equal fst Ev) as E1. apply verifyArtifact_pass in E1 as (k & pub & v & Hg & Hc & Hv & He).
    destruct (jwks_get_in _ _ _ _ Hm Hg) as [Hin Hid]. exists n, ks. split; [done|]. split; [done|]. split; [|by exists k, pub, v].
    apply Forall_forall. intros x Hx. rewrite forallb_forall in Hall. apply Hall. by apply list_elem_of_In.
  - apply adds_ret. intros l' -> l -> _ a' Ha'. by rewrite (captured_before _ _ _ Ha') in Eh.
Qed.

(** What the end-to-end scenario has seen when none of its records fails. *)
Definition e2e_shown : Prop :=
  paykh_configured cfg = true ∧ answered (purchase cfg (amount_4000000 [("currency", JStr "KHR")])) ok ∧
  paychain_configured cfg = true ∧ answered (createWallet cfg "cus_audit") ok ∧
  answered (earn cfg "AUDIT_ASSET" (amount_4000000 [])) ok ∧
  programId cfg ≠ "" ∧ answered (reserveCurrent cfg (programId cfg)) covers ∧
  answered (trialBalance cfg (programId cfg)) (λ tb, balanced_of tb = true) ∧
  answered (latestPor cfg (programId cfg)) (λ latest, proven latest ∧
    answered (jwks cfg) (verified_by (snapshot_artifact (hr_json latest)))) ∧
  ∃ id, answered (loyaltyReconcile cfg id) verified_on_chain.

Lemma e2e_passes :
  adds (runE2E01 time node cfg) (λ l new _, artifactless l → passes new → e2e_shown).
Proof.
  unfold runE2E01.
  eapply adds_mono; [exact (adds_seq _ _ _ _ S1_passes (adds_seq _ _ _ _ S2_passes (adds_seq _ _ _ _ S3_S4_passes
    (adds_seq _ _ _ _ S5_passes (adds_seq _ _ _ _ S6_passes (adds_seq _ _ _ _ S7_passes S8_passes))))))|].
  intros l new [] (n1 & ? & -> & [Ha1 H1] & n2 & ? & -> & Ha2 & n3 & ? & -> & [Ha3 H3] & n5 & ? & -> & [Ha5 H5] & n6 & ? & -> & H6 & n7 & n8 & -> & H7 & H8).
  cbv beta in *. rewrite !passes_app. intros Hl (P1 & P2 & P3 & P5 & P6 & P7 & P8).
  destruct (H1 P1) as (? & ?), (H3 P3) as (? & ? & ?), (H5 P5) as (Hp & ? & ?).
  destruct (H6 P6 Hp) as (n & Hn & Hc). unfold e2e_shown. split_and!; [done..| |by apply H7].
  exists n. split; [done|]. apply H8; [done|].
  rewrite <- !app_assoc. do 5 (rewrite captured_after by done). by apply captured_before.
Qed.
End passing.

(** * The gate *)

Section gate.
Context `{RT : !Runtime} `{NET : !Network} (time : nat → Z) (node : NodeVerify) (cfg : AuditConfig).

Lemma adds_any {A} (p : prog Harness A) (Q : _ → _ → A → Prop) : adds p Q → adds p (λ _ _ _, True).
Proof. intros H. exact (adds_mono p Q _ H (λ _ _ _ _, I)). Qed.

Lemma adds_each {A} (l : list A) body :
  (∀ x, adds (body x) (λ _ _ _, True)) → adds (for_each l body) (λ _ _ _, True).
Proof.
  intros Hb. induction l as [|x l IH]; [by apply adds_ret|].
  by apply (adds_bind (body x) (λ _, for_each l body) (λ _ _ _, True) (λ _ _ _ _, True)).
Qed.

(** The controls that wait for the other platforms are recorded as not ready. *)
Lemma pending_fails : adds (control_pending time) (λ _ new _, ¬ passes new).
Proof.
  unfold control_pending. set (body := λ c : string * string * list string, _).
  apply (adds_bind (body _) (λ _, for_each (tail pending_controls) body) (λ _ new _, ¬ passes new) (λ _ _ _ _, True)).
  - unfold body. apply adds_record_last. intros l r Hr. rewrite passes_one, Hr. by intros [H _].
  - intros _. apply adds_each. intros c. apply adds_record_last. by intros.
  - intros l n1 _ n2 b H _. rewrite passes_app. by intros [H1 _].
Qed.

Ltac any_records :=
  repeat first
    [ apply adds_record_last; intros; exact I
    | apply adds_call; intros
    | apply adds_date; intros
    | apply adds_lift; intros
    | apply adds_ret; intros; exact I
    | match goal with |- adds (if ?b then _ else _) _ => destruct b end
    | match goal with |- adds (match ?x with _ => _ end) _ => destruct x end
    | progress cbv zeta ].

Lemma controls_fail : adds (runControls time node cfg) (λ _ new _, ¬ passes new).
Proof.
  assert (adds (control_C06 time cfg) (λ _ _ _, True)) as H6 by (unfold control_C06; any_records).
  assert (adds (control_C07 time node cfg) (λ _ _ _, True)) as H7 by (unfold control_C07; any_records).
  assert (adds (control_C08 time cfg) (λ _ _ _, True)) as H8 by (unfold control_C08; any_records).
  assert (adds (control_C09 time cfg) (λ _ _ _, True)) as H9 by (unfold control_C09; any_records).
  assert (adds (control_C12 time cfg) (λ _ _ _, True)) as H12 by (unfold control_C12; any_records).
  unfold runControls.
  eapply adds_mono; [exact (adds_seq _ _ _ _ H6 (adds_seq _ _ _ _ H7 (adds_seq _ _ _ _ H8 (adds_seq _ _ _ _ H9
    (adds_seq _ _ _ _ H12 pending_fails)))))|].
  intros l new [] (? & ? & -> & _ & ? & ? & -> & _ & ? & ? & -> & _ & ? & ? & -> & _ & ? & ? & -> & _ & H).
  rewrite !passes_app. intros (_ & _ & _ & _ & _ & P). by apply H.
Qed.

(** The verdict of a run that gets to its end, and what a run without a failed record
    has seen. *)
Lemma run_audit_records args :
  adds (run_audit time node cfg args) (λ l new m, artifactless l →
    rm_outcome m = run_outcome (l ++ new) ∧
    (passes new → answered (health cfg) ok ∧ runs_controls args = false ∧ (runs_e2e args = true → e2e_shown node cfg))).
Proof.
  unfold run_audit. apply adds_date. intros t. apply adds_call. intros n. apply adds_record. intros r Hr.
  apply (adds_mono _ (λ l' new m, ∃ n1 n2 n3, new = n1 ++ n2 ++ n3 ∧ (runs_e2e args = true → artifactless l' → passes n1 → e2e_shown node cfg) ∧
    (runs_controls args = true → ¬ passes n2) ∧ n3 = [] ∧ rm_outcome m = run_outcome (l' ++ n1 ++ n2))).
  - eapply adds_mono; [eapply (adds_seq _ _ (λ l new _, runs_e2e args = true → artifactless l → passes new → e2e_shown node cfg));
      [|eapply (adds_seq _ _ (λ _ new _, runs_controls args = true → ¬ passes new) (λ l new m, new = [] ∧ rm_outcome m = run_outcome l))]|].
    + destruct (runs_e2e args); [|by apply adds_ret]. eapply adds_mono; [apply e2e_passes|]. intros; auto.
    + destruct (runs_controls args); [|by apply adds_ret]. eapply adds_mono; [apply controls_fail|]. intros; auto.
    + apply adds_date. intros t'. apply adds_read. intros l0. apply adds_ret. by intros l ->.
    + cbv beta. intros l new m (n1 & ? & -> & H1 & n2 & ? & -> & H2 & -> & H3). exists n1, n2, [].
      by rewrite <- !app_assoc in H3.
  - cbv beta. intros l' new m (n1 & n2 & n3 & -> & H1 & H2 & -> & H3) l -> Hl. rewrite app_nil_r.
    split; [by rewrite <- app_assoc in H3|]. rewrite passes_one, passes_app, Hr. cbn. intros (Hh & P1 & P2).
    split; [exists n; unfold ok; by destruct (hr_ok _)|]. split.
    + destruct (runs_controls args); [by destruct (H2 eq_refl)|done].
    + intros He. apply H1; [done| |done]. apply Forall_app. split; [done|]. constructor; [|done]. by rewrite Hr.
Qed.

(** Claim C35 (what the release gate shows).  When the audit process exits with code 0,
    the trustee's health check was answered, the controls were not part of the run,
    and if the end-to-end scenario was, then: both platforms are configured and answered
    the purchase, the wallet and the mint with success; the position of the reserve was
    answered, and the eligible reserve in it covers the obligation, where a figure that the
    answer lacks counts as 0; the trial balance was answered as balanced; a proof of reserve
    without shortfall was served; of the published keys, which are not none, every one is a
    key, and the one with the id of the proof's signature verifies it over the served bytes;
    and a loyalty liability was answered as verified on the chain and without drift. *)
Theorem audit_exit_zero write args (H : exit_code time node write cfg args = 0) :
  answered (health cfg) ok ∧ runs_controls args = false ∧ (runs_e2e args = true → e2e_shown node cfg).
Proof.
  unfold exit_code in H. destruct (run _ _) as [[meta|e] h] eqn:Er; [|done]. destruct (write meta (recorded h)); [|done].
  destruct (run_audit_records _ _ _ _ Er) as (new & En & Hm). specialize (Hm (Forall_nil_2 _)) as [Hm Hshown].
  cbn [recorded app] in Hm. apply Hshown, run_outcome_pass. rewrite <- Hm. by destruct (rm_outcome meta).
Qed.
End gate.

(** A run that asks for no stage by name passes on the health check alone. *)
Lemma unknown_stage_passes `{RT : !Runtime} `{NET : !Network} time node write cfg args
  (He : runs_e2e args = false) (Hc : runs_controls args = false) (Hw : ∀ m l, write m l = true)
  (Hh : hr_ok (result_of (health cfg) 0) = true) :
  exit_code time node write cfg args = 0.
Proof. unfold exit_code, run_audit. rewrite He, Hc. cbn. by rewrite Hw, Hh. Qed.

(** An answer without any figure is a covered obligation. *)
Lemma empty_position_covers pos : hr_ok pos = true → hr_json pos = JObj [] → ∃ d, posture pos = Ok (d, true).
Proof. intros H1 H2. unfold posture. rewrite H1, H2. eexists. reflexivity. Qed.

(** * A run at concrete platforms

    The cryptography takes every signature: that a signature verifies bytes that hold
    the signature itself is not what the trustee's keys produce. *)

Definition text_of (v : jsval) : outcome string :=
  match v with JStr s => Ok s | _ => Err (JsError "TypeError" "must be of type string") end.
Definition lenient_node : NodeVerify := mkNodeVerify text_of text_of (λ _ _ _, Ok true).

Definition lenient_crypto : NodeCrypto.
Proof. by refine {| createPrivateKey := λ _, Ok tt; ed_sign := λ k m, m; ed_verify := λ _ _ _, true; key_pair := eq; sha256Hex := λ s, "h" +:+ s |}. Defined.

Definition audit_runtime : Runtime :=
  {| runtime_crypto := lenient_crypto; runtime_auth := toy_auth; uuid := λ n, ""; date_parse := string_to_bigint;
     bank_api := λ _ _ _ _, Ok (mkBankAccountBalance "0" "USD");
     paychain_execute := λ _ _ _, Ok (mkIssuanceExecutionResult true "CONFIRMED" None None);
     horizon_asset := λ _ _ _ _, Ok None; webhook_post := λ _ _ _ _, (true, Some 200, None);
     resend_api := λ _ _ _ _, Some true; webhook_probe := λ _ _, Ok 200 |}.

Definition audit_answers : list (string * jsval) :=
  [("T/health", JObj [("status", JStr "ok")]);
   ("K/purchases", JObj []); ("P/wallets", JObj []); ("P/assets/AUDIT_ASSET/earn", JObj []);
   ("T/api/v1/paychain/reserves/p/current", JObj [("eligibleReserve", JObj [("minor", JStr "1000")]); ("reserveObligation", JObj [("minor", JStr "999")])]);
   ("T/api/v1/admin/ledger/p/trial-balance", JObj [("totals", JObj [("balanced", JBool true)])]);
   ("T/api/v1/paychain/proof-of-reserve/p/snapshots", JObj []);
   ("T/api/v1/paychain/proof-of-reserve/p/latest",
    JObj [("reconciliationStatus", JStr "OK"); ("signature", JObj [("keyId", JStr "k"); ("value", JStr "v")])]);
   ("T/api/v1/bank/loyalty-liabilities", JObj [("liabilities", JArr [JObj [("id", JStr "L"); ("stellar", JObj [("assetCode", JStr "X")])]])]);
   ("T/api/v1/bank/loyalty-liabilities/L/reconcile", JObj [("onChainVerified", JBool true); ("reconciliationStatus", JStr "OK")]);
   ("T/.well-known/trustee-signing-keys",
    JObj [("keys", JArr [JObj [("purpose", JStr "RESERVE_SNAPSHOT"); ("keyId", JStr "k"); ("publicKeyPem", JStr "pem")]])])].

Definition audit_network : Network :=
  {| fetch := λ rq _, match list_find (λ a : string * jsval, a.1 = fq_url rq) audit_answers with
                      | Some (_, a) => Ok (mkFetchResponse 200 [] (Ok (stringify a.2)))
                      | None => Err (JsError "TypeError" "fetch failed")
                      end;
     public_key_of := λ s, Ok s; new_asset := λ _ _, Ok tt; new_operation := λ _, Ok tt; load_account := λ k _, Ok k;
     submit_transaction := λ _ _, Err (JsError "Error" ""); first_asset := λ _ _ _ _, Ok None; latest_ledger := λ _ _, Ok tt |}.

Definition audit_config : AuditConfig :=
  loadConfig (λ name, match list_find (λ a : string * string, a.1 = name)
                        [("TRUSTEE_API_URL", "T"); ("PAYCHAIN_API_URL", "P"); ("PAYKH_API_URL", "K"); ("E2E_PROGRAM_ID", "p")] with
                      | Some (_, a) => Some a.2 | None => None end).

Lemma audit_exit_zero_witness :
  let rt := audit_runtime in let net := audit_network in
  exit_code (λ n, Z.of_nat n) lenient_node (λ _ _, true) audit_config ["--only"; "E2E-01"] = 0 ∧
  e2e_shown lenient_node audit_config.
Proof.
  cbv zeta.
  assert (@exit_code audit_runtime audit_network (λ n, Z.of_nat n) lenient_node (λ _ _, true) audit_config ["--only"; "E2E-01"] = 0) as H
    by (vm_compute; reflexivity).
  split; [exact H|].
  destruct (@audit_exit_zero audit_runtime audit_network _ _ _ _ _ H) as (_ & _ & He).
  apply He. vm_compute. reflexivity.
Defined.

(** With the controls, the same platforms are at best not ready. *)
Example full_run_not_ready :
  @exit_code audit_runtime audit_network (λ n, Z.of_nat n) lenient_node (λ _ _, true) audit_config ["--only"; "controls"] ≠ 0 ∧
  @exit_code audit_runtime audit_network (λ n, Z.of_nat n) lenient_node (λ _ _, true) audit_config ["--only"; "none"] = 0.
Proof. split; vm_compute; [done|reflexivity]. Qed.

Example escaped : esc "<b>&" = "&lt;b&gt;&amp;".
Proof. reflexivity. Qed.

(** Nothing that the report escapes opens or closes a tag. *)
Lemma esc_no_tags s : lacks "<" (esc s) = true ∧ lacks ">" (esc s) = true.
Proof.
  induction s as [|a s [IH1 IH2]]; [done|]. cbn [esc]. rewrite !lacks_app, IH1, IH2, !andb_true_r.
  destruct (Ascii.eqb a "&"); [done|]. destruct (Ascii.eqb a "<") eqn:E1; [done|]. destruct (Ascii.eqb a ">") eqn:E2; [done|].
  cbn. destruct a as [[] [] [] [] [] [] [] []]; try done; try discriminate E1; discriminate E2.
Qed.
