(* ===== verification/Platform.v ===== *)
(** The platform as a whole: every request that may arrive, run concurrently.

    [handler] lists the operations the API offers that write the database, and
    [request] the programs that may be in flight: a handler called directly, a
    handler behind [IdempotencyService.run] (as the controllers call the
    commands), any program that only reads, a request after such a program, a signature check of the guards, the
    scheduler's reserve cycle, a notification, and the worker's delivery pass.
    [reachable w w'] runs any number of them over the database [w], interleaved
    at every database and outgoing call, each possibly crashing between two of
    them, while time passes.  The theorems say what holds of every [w'] so
    reached. *)
From S2P Require Import Prelude.
From S2P Require Import Money.
From S2P Require Import Domain.
From S2P Require Import Ledger.
From S2P Require Import Prog.
From S2P Require Import Crypto.
From S2P Require Import Schema.
From S2P Require Import Prisma.
From S2P Require Import Infra.
From S2P Require Import LedgerService.
From S2P Require Import Invariant.
From S2P Require Registry.
From S2P Require ReserveService.
From S2P Require MintService.
From S2P Require Deposits.
From S2P Require Redemption.
From S2P Require Paykh.
From S2P Require Loyalty.
From S2P Require Worker.
From S2P Require Assurance.
From S2P Require Accounts.
From S2P Require Admin.
From S2P Require Gate.
From S2P Require Scheduler.
#[local] Open Scope string_scope.
#[local] Open Scope list_scope.
#[local] Open Scope Z_scope.

(** A program that changes nothing. *)
Inductive reader {A} : prog World A → Prop :=
| reader_ret a : reader (Ret a)
| reader_throw e : reader (Throw e)
| reader_act f : (∀ s, (f s).2 = s) → (∀ s, reader (f s).1) → reader (Act f).

Lemma reader_bind {A B} (p : prog World A) (k : A → prog World B) : reader p → (∀ a, reader (k a)) → reader (p ≫= k).
Proof.
  intros Hp Hk. induction Hp as [a|e|f Hf Hr IH]; [apply Hk|apply reader_throw|].
  apply reader_act; intros s; specialize (Hf s); specialize (IH s); destruct (f s) as [p' s']; done.
Qed.
Lemma reader_read {A} (f : World → A) : reader (read f).
Proof. apply reader_act; [done|]. intros s. apply reader_ret. Qed.
Lemma reader_lift {A} (o : outcome A) : reader (lift o).
Proof. destruct o; constructor. Qed.
Lemma reader_or_throw {A} (o : option A) e : reader (or_throw o e).
Proof. destruct o; constructor. Qed.

Definition discard {A} (p : prog World A) : prog World unit := _ ← p; mret tt.

Section platform.
Context `{RT : !Runtime} `{PC : !PrismaClient} (env : Env).
(** The worker's key, from its own environment. *)
Context (webhookKey : option SigningKey).

(** The writing operations that answer with JSON. *)
Inductive handler : prog World jsval → Prop :=
| h_mint_request i : handler (MintService.request i)
| h_mint_review a m : handler (MintService.review a m)
| h_mint_approve a c r : handler (MintService.approve env a c r)
| h_mint_reject a c r : handler (MintService.reject env a c r)
| h_mint_revoke a u r : handler (MintService.revoke a u r)
| h_mint_expire a u : handler (MintService.expire env a u)
| h_mint_confirm a i : handler (MintService.confirm env a i)
| h_funding_create i : handler (Deposits.Funding.create_instruction env i)
| h_funding_cancel i u : handler (Deposits.Funding.cancel i u)
| h_deposit_register i : handler (Deposits.register env i)
| h_deposit_match d f u : handler (Deposits.match_deposit env d f u)
| h_deposit_clear d u : handler (Deposits.clear env d u)
| h_redemption_request i : handler (Redemption.request i)
| h_redemption_approve r u m : handler (Redemption.approve env r u m)
| h_redemption_burn r h u : handler (Redemption.confirmBurn env r h u)
| h_redemption_submit r u : handler (Redemption.submitPayout env r u)
| h_redemption_payout r u : handler (Redemption.confirmPayout env r u)
| h_merchant_register i : handler (Paykh.Merchants.register i)
| h_merchant_status i a b c u : handler (Paykh.Merchants.updateStatus i a b c u)
| h_profile_submit i : handler (Paykh.Profiles.submit i)
| h_profile_verify i u : handler (Paykh.Profiles.verify_profile env i u)
| h_profile_activate i u : handler (Paykh.Profiles.activate i u)
| h_profile_suspend i u r : handler (Paykh.Profiles.suspend env i u r)
| h_order_create i : handler (Paykh.Orders.create_order i)
| h_order_check o i : handler (Paykh.Orders.checkPayment env o i)
| h_order_refund o u r : handler (Paykh.Orders.refund env o u r)
| h_order_cancel o u : handler (Paykh.Orders.cancel o u)
| h_settlement_create t m a c u : handler (Paykh.Settlements.create_settlement t m a c u)
| h_settlement_approve s c : handler (Paykh.Settlements.approve env s c)
| h_settlement_confirm s u : handler (Paykh.Settlements.confirm env s u)
| h_settlement_cancel s u : handler (Paykh.Settlements.cancel s u)
| h_fund_create i : handler (Loyalty.Funds.create_fund i)
| h_fund_fund f a u : handler (Loyalty.Funds.fund env f a u)
| h_fund_reserve f a u : handler (Loyalty.Funds.reserve env f a u)
| h_fund_release f a u : handler (Loyalty.Funds.release f a u)
| h_loyalty_bind i : handler (Loyalty.bind_loyalty i)
| h_loyalty_issue i : handler (Loyalty.issue env i)
| h_loyalty_redeem i : handler (Loyalty.redeem env i)
| h_reserve_adjust p k a r u : handler (ReserveService.addAdjustment p k a r u)
| h_reserve_lift i u : handler (ReserveService.liftAdjustment i u)
| h_bank_register b n c m u t a : handler (ReserveService.registerBank b n c m u t a)
| h_bank_account i b m : handler (ReserveService.setAccountBank i b m)
| h_attestation_create i : handler (Assurance.Attestations.create_attestation i)
| h_attestation_transition i t u : handler (Assurance.Attestations.transition i t u)
| h_login e p c : handler (Accounts.login env e p c)
| h_password_change u a b : handler (Accounts.changePassword u a b)
| h_password_request e : handler (Accounts.requestPasswordReset env e)
| h_password_reset t p : handler (Accounts.resetPassword t p)
| h_password_set u p : handler (Accounts.adminSetPassword u p)
| h_mfa_setup u : handler (Accounts.setupMfa u)
| h_mfa_enable u c : handler (Accounts.enableMfa u c)
| h_user_create i : handler (Admin.createUser i)
| h_user_roles u r a : handler (Admin.setUserRoles u r a)
| h_user_disabled u d a : handler (Admin.setUserDisabled u d a)
| h_role_upsert i : handler (Admin.upsertRole i)
| h_role_delete r a : handler (Admin.deleteRole r a)
| h_policy_upsert i : handler (Admin.upsertPolicy i)
| h_policy_delete k a : handler (Admin.deletePolicy k a)
| h_flag_set k b a : handler (Admin.setFlag k b a)
| h_control_set k v r i a : handler (Admin.setControl env k v r i a)
| h_webhook_replay k a : handler (Admin.replayWebhook k a)
| h_webhook_replay_all a : handler (Admin.replayDeadLettered a)
| h_webhook_health : handler Admin.integrationHealth
| h_client_limit p n a : handler (Admin.setClientRateLimit p n a)
| h_client_disabled p d a : handler (Admin.setClientDisabled p d a)
| h_client_key p k b a : handler (Admin.setClientKey p k b a)
| h_client_secret p a : handler (Admin.rotateClientSecret p a)
| h_client_webhook p u a : handler (Admin.setClientWebhookUrl p u a)
| h_program_create i a : handler (Admin.createProgram i a)
| h_program_account p i a : handler (Admin.addTrusteeAccount p i a)
| h_program_status p st a : handler (Admin.setProgramStatus p st a)
| h_registry_create i : handler (Registry.create_entry i).

Inductive request : prog World unit → Prop :=
| r_handler h : handler h → request (discard h)
| r_idempotent key route body h : handler h → request (discard (idempotent key route body h))
| r_liability i : request (discard (Redemption.Liability.ingest env i))
| r_snapshot p : request (discard (ReserveService.createSnapshot env p))
| r_reconcile_bank p : request (discard (ReserveService.reconcileBank env p))
| r_reconcile_loyalty l : request (discard (Loyalty.reconcile env l))
| r_reconcile_reserve p u : request (discard (Assurance.Recon.reconcileReserve env p u))
| r_reconcile_orders t u : request (discard (Assurance.Recon.reconcilePaymentOrders t u))
| r_reconcile_settlements t u : request (discard (Assurance.Recon.reconcileSettlements t u))
| r_set_flag k b u : request (discard (set_flag k b u))
| r_read {A} (p : prog World A) : reader p → request (discard p)
| r_worker : request (Worker.delivery_pass env webhookKey)
| r_signature rq pr : request (discard (Gate.signature_guard env rq pr))
| r_reserve_cycle : request (discard (Scheduler.reserveCycle env))
| r_notify a b c : request (discard (notify env a b c))
| r_then {A B} (p : prog World A) (k : A → prog World B) :
    reader p → (∀ a, request (discard (k a))) → request (discard (p ≫= k))
| r_map {A B} (p : prog World A) (f : A → B) : request (discard p) → request (discard (a ← p; mret (f a))).

(** Time passes. *)
Inductive tick : World → World → Prop :=
| tick_clock w t : clock w ≤ t → tick w (set_clock t w).

Definition reachable (w w' : World) : Prop :=
  ∃ ps, rtc (pool_step request tick) ([], w) (ps, w').

(** ** Every request is safe *)

Lemma keeps_reader {A} (p : prog World A) : reader p → keeps_good p.
Proof.
  intros Hp s Hs. clear Hs. revert s. induction Hp as [a|e|f Hf Hr IH]; intros s; cbn; [done|done|].
  intros w HL Hg. specialize (Hf w). specialize (IH w). destruct (f w) as [p' w']; cbn in *. subst w'.
  split_and!; [done..|]. apply IH.
Qed.

Lemma keeps_discard {A} (p : prog World A) : keeps_good p → keeps_good (discard p).
Proof. intros Hp s Hs. unfold discard. by apply (safe_keeps good later). Qed.

Lemma keeps_of_discard {A} (p : prog World A) : keeps_good (discard p) → keeps_good p.
Proof.
  intros Hp s Hs. specialize (Hp s Hs). revert s Hs Hp.
  induction p as [a|e|f IH] using prog_ind'; intros s Hs; [done|done|]. intros H w HL Hg. specialize (H w HL Hg).
  specialize (IH w). cbn in H |- *. destruct (f w) as [p' w']. destruct H as (H1 & H2 & H3). split_and!; [done..|].
  by apply IH.
Qed.

Lemma keeps_handler h : handler h → keeps_good h.
Proof.
  destruct 1.
  - apply MintService.keeps_request_mint.
  - apply MintService.keeps_review.
  - apply MintService.keeps_approve_mint.
  - apply MintService.keeps_reject.
  - apply MintService.keeps_revoke.
  - apply MintService.keeps_expire.
  - apply MintService.keeps_confirm_mint.
  - apply Deposits.Funding.keeps_create_instruction.
  - apply Deposits.Funding.keeps_cancel.
  - apply Deposits.keeps_register_deposit.
  - apply Deposits.keeps_match.
  - apply Deposits.keeps_clear.
  - apply Redemption.keeps_request_redemption.
  - apply Redemption.keeps_approve_redemption.
  - apply Redemption.keeps_confirmBurn.
  - apply Redemption.keeps_submitPayout.
  - apply Redemption.keeps_confirmPayout.
  - apply Paykh.Merchants.keeps_register_merchant.
  - apply Paykh.Merchants.keeps_updateStatus.
  - apply Paykh.Profiles.keeps_submit.
  - apply Paykh.Profiles.keeps_verify_profile.
  - apply Paykh.Profiles.keeps_activate.
  - apply Paykh.Profiles.keeps_suspend.
  - apply Paykh.Orders.keeps_create_order.
  - apply Paykh.Orders.keeps_checkPayment.
  - apply Paykh.Orders.keeps_refund.
  - apply Paykh.Orders.keeps_cancel_order.
  - apply Paykh.Settlements.keeps_create_settlement.
  - apply Paykh.Settlements.keeps_approve_settlement.
  - apply Paykh.Settlements.keeps_confirm_settlement.
  - apply Paykh.Settlements.keeps_cancel_settlement.
  - apply Loyalty.Funds.keeps_create_fund.
  - apply Loyalty.Funds.keeps_fund.
  - apply Loyalty.Funds.keeps_reserve.
  - apply Loyalty.Funds.keeps_release.
  - apply Loyalty.keeps_bind_loyalty.
  - apply Loyalty.keeps_issue.
  - apply Loyalty.keeps_redeem.
  - apply ReserveService.keeps_addAdjustment.
  - apply ReserveService.keeps_liftAdjustment.
  - apply ReserveService.keeps_registerBank.
  - apply ReserveService.keeps_setAccountBank.
  - apply Assurance.Attestations.keeps_create_attestation.
  - apply Assurance.Attestations.keeps_transition.
  - apply Accounts.keeps_login.
  - apply Accounts.keeps_changePassword.
  - apply Accounts.keeps_requestPasswordReset.
  - apply Accounts.keeps_resetPassword.
  - apply Accounts.keeps_adminSetPassword.
  - apply Accounts.keeps_setupMfa.
  - apply Accounts.keeps_enableMfa.
  - apply Admin.keeps_createUser.
  - apply Admin.keeps_setUserRoles.
  - apply Admin.keeps_setUserDisabled.
  - apply Admin.keeps_upsertRole.
  - apply Admin.keeps_deleteRole.
  - apply Admin.keeps_upsertPolicy.
  - apply Admin.keeps_deletePolicy.
  - apply Admin.keeps_setFlag.
  - apply Admin.keeps_setControl.
  - apply Admin.keeps_replayWebhook.
  - apply Admin.keeps_replayDeadLettered.
  - apply Admin.keeps_integrationHealth.
  - apply Admin.keeps_setClientRateLimit.
  - apply Admin.keeps_setClientDisabled.
  - apply Admin.keeps_setClientKey.
  - apply Admin.keeps_rotateClientSecret.
  - apply Admin.keeps_setClientWebhookUrl.
  - apply Admin.keeps_createProgram.
  - apply Admin.keeps_addTrusteeAccount.
  - apply Admin.keeps_setProgramStatus.
  - apply Registry.keeps_create_entry.
Qed.

Lemma keeps_request_any p : request p → keeps_good p.
Proof.
  induction 1 as [| | | | | | | | | | | | | | |A B p k Hp _ IH|A B p f _ IH];
    [apply keeps_discard..|apply Worker.keeps_delivery_pass|apply keeps_discard|apply keeps_discard|apply keeps_discard| |].
  - by apply keeps_handler.
  - by apply keeps_idempotent, keeps_handler.
  - apply Redemption.Liability.keeps_ingest.
  - apply ReserveService.keeps_createSnapshot.
  - apply ReserveService.keeps_reconcileBank.
  - apply Loyalty.keeps_reconcile.
  - apply Assurance.Recon.keeps_reconcileReserve.
  - apply Assurance.Recon.keeps_reconcilePaymentOrders.
  - apply Assurance.Recon.keeps_reconcileSettlements.
  - apply keeps_set_flag.
  - by apply keeps_reader.
  - apply Gate.keeps_signature.
  - apply Scheduler.keeps_reserveCycle.
  - apply Scheduler.keeps_notify.
  - intros s. induction Hp as [a|e|f Hf _ IHf] in s |- *; intros Hs; [by apply IH|done|].
    intros w HL Hg. specialize (Hf w). specialize (IHf w). cbn. destruct (f w) as [p' w']. cbn in Hf, IHf |- *. subst w'.
    split_and!; [done..|]. by apply IHf.
  - apply keeps_discard. intros s Hs. by apply (safe_keeps good later); [|apply keeps_of_discard|].
Qed.

Lemma good_tick w w' : tick w w' → good w → good w' ∧ later w w'.
Proof. intros [? t ?] Hg. split; [by apply (good_frame w0)|by apply later_frame]. Qed.

Lemma reachable_refl w : reachable w w.
Proof. by exists []. Qed.

Lemma reachable_trans w w1 w2 : reachable w w1 → reachable w1 w2 → reachable w w2.
Proof.
  intros [ps H] [ps' H']. exists (ps ++ ps'). etrans; [exact H|].
  pose proof (pool_frame _ _ ps _ _ H') as HF. cbn in HF. by rewrite app_nil_r in HF.
Qed.

(** Requests in flight together, under a schedule. *)
Lemma reachable_schedule w ps sched :
  Forall request ps → reachable w (run_schedule sched ps w).2.
Proof.
  intros Hps. exists (run_schedule sched ps w).1. rewrite <- surjective_pairing. by apply pool_schedule.
Qed.

(** A request served alone. *)
Lemma reachable_run w w' p : reachable w w' → request p → reachable w (run p w').2.
Proof.
  intros [ps H] Hp. destruct (pool_arrival request tick ps p w' Hp) as [ps' H'].
  exists ps'. by etrans.
Qed.

Theorem reachable_good w w' : good w → reachable w w' → good w' ∧ later w w'.
Proof.
  intros Hg [ps H].
  destruct (pool_safe good later request tick _ _ keeps_request_any good_tick H) as (H1 & H2 & _);
    [done| |done].
  intros p Hp. by apply not_elem_of_nil in Hp.
Qed.
End platform.
