(* ===== verification/Controllers.v ===== *)
(** The controllers of the clients' namespaces: what each route of
    [apps/trustee-api/src/modules/*/*.controller.ts] is and what it runs.

    A controller is a type of calls, one constructor per method with the parameters
    of the path, the query and the body that the method takes, with [route] (the
    decorators: HTTP method, path, permission) and [serve] (the method's body).  The
    methods that Nest runs through [IdempotencyService] take the [Idempotency-Key]
    header and the body from the request itself.  This file holds PayChain's and
    PayKH's controllers; [TrusteeControllers] the others.

    The body of a call is what the global validation pipe has let through: with
    [whitelist] and [forbidNonWhitelisted] a body with a DTO class is the DTO. *)
From S2P Require Import Prelude.
From S2P Require Import Money.
From S2P Require Import Domain.
From S2P Require Import Prog.
From S2P Require Import Crypto.
From S2P Require Import Schema.
From S2P Require Import Prisma.
From S2P Require Import Infra.
From S2P Require Import Invariant.
From S2P Require Import Site.
From S2P Require Import Gate.
From S2P Require ReserveService.
From S2P Require MintService.
From S2P Require Deposits.
From S2P Require Redemption.
From S2P Require Paykh.
From S2P Require Loyalty.
From S2P Require Assurance.
From S2P Require Operations.
From S2P Require Import Platform.
#[local] Open Scope string_scope.
#[local] Open Scope list_scope.
#[local] Open Scope Z_scope.

(** * Routes *)

(** What the decorators of a method declare, with the values of the [:name]
    segments of its path, in their order. *)
Record Route : Type := mkRoute {
  rt_method : string;
  rt_path : string;
  rt_permission : option Permission;
  rt_params : list string
}.

Definition GET (path : string) (ps : list string) : Route := mkRoute "GET" path None ps.
Definition POST (path : string) (ps : list string) : Route := mkRoute "POST" path None ps.
Definition PUT (path : string) (ps : list string) : Route := mkRoute "PUT" path None ps.
Definition DELETE (path : string) (ps : list string) : Route := mkRoute "DELETE" path None ps.

(** [@RequirePermission(p)] *)
Definition RequirePermission (p : Permission) (r : Route) : Route :=
  mkRoute (rt_method r) (rt_path r) (Some p) (rt_params r).

(** [@Controller(prefix)]; a prefix or a path may be empty. *)
Definition Controller (prefix : string) (r : Route) : Route :=
  let full := "/" +:+ prefix +:+ (if bool_decide (prefix = "") || bool_decide (rt_path r = "") then "" else "/") +:+ rt_path r in
  mkRoute (rt_method r) full (rt_permission r) (rt_params r).

(** What a method returns, before Nest writes it to the response. *)
Inductive Page : Type := DEVELOPER_HUB | LANDING_HTML.

Inductive Body : Type :=
| Json (j : jsval)
| SnapshotTaken (snapshotId : string) (reserveRatioBps : option number)
| Ingested (snapshotId : string) (verified : bool)
| BankReconciled (r : ReserveService.BankReconciliation)
| LoyaltyReconciled (r : Loyalty.LoyaltyReconciliation)
| ReconciliationDone (r : ReconciliationRun.t)
| ReconciliationRead (r : ReconciliationRun.t) (exceptions : list ReconciliationException.t)
| Exceptions (l : list ReconciliationException.t)
| AttestationRead (content : jsval) (contentHash : string) (signature : option Signature)
| AttestationList (l : list Attestation.t)
| TrialBalanceRead (tb : Operations.TrialBalance)
| Decision (d : AbacDecision)
| Usage (u : list (ClientApplication.t * list (string * Z) * Z))
| Html (p : Page).

(** The result of a service call as the body of the response. *)
Definition returns {S A} (f : A → Body) (p : prog S A) : prog S Body := a ← p; mret (f a).
Definition json {S} (p : prog S jsval) : prog S Body := returns Json p.

(** [(await this.idempotency.run(key, route, dto, fn)).value] *)
Definition once `{RT : !Runtime} `{PC : !PrismaClient} (rq : HttpRequest) (route : string) (fn : prog World jsval) :
    prog World Body :=
  returns (λ r, Json r.2) (idempotent (rq_header rq "idempotency-key") route (rq_body rq) fn).

(** [ser.money] *)
Definition ser_money (m : Money) : jsval :=
  JObj [("minor", js_big (minor m)); ("currency", JStr (currency m))].

(** [resolved === 'true'] *)
Definition is_true (q : option string) : bool := bool_decide (q = Some "true").

(** * PayChain *)

(** [modules/mint/mint.controller.ts] *)
Module MintController.

Inductive Call : Type :=
| request (dto : MintService.RequestMintAuthorization)
| get (id : string)
| confirm (id : string) (dto : MintService.ConfirmMintInput).

Definition route (c : Call) : Route :=
  Controller "api/v1/paychain" match c with
  | request _ => POST "mint-authorizations" []
  | get id => GET "mint-authorizations/:id" [id]
  | confirm id _ => POST "mint-authorizations/:id/confirm" [id]
  end.

Definition serve `{RT : !Runtime} `{PC : !PrismaClient} (env : Env) (rq : HttpRequest) (c : Call) : prog World Body :=
  match c with
  | request dto => once rq "POST /mint-authorizations" (MintService.request dto)
  | get id => json (MintService.get id)
  | confirm id dto => once rq ("POST /mint-authorizations/" +:+ id +:+ "/confirm") (MintService.confirm env id dto)
  end.
End MintController.

(** [modules/funding/funding.controller.ts] *)
Module FundingController.

Inductive Call : Type :=
| create (dto : Deposits.Funding.CreateFundingInstruction)
| get (id : string)
| status (id : string)
| cancel (id actor : string).

Definition route (c : Call) : Route :=
  Controller "api/v1/paychain" match c with
  | create _ => POST "funding-instructions" []
  | get id => GET "funding-instructions/:id" [id]
  | status id => GET "funding-instructions/:id/status" [id]
  | cancel id _ => POST "funding-instructions/:id/cancel" [id]
  end.

Definition serve `{RT : !Runtime} `{PC : !PrismaClient} (env : Env) (rq : HttpRequest) (c : Call) : prog World Body :=
  match c with
  | create dto => once rq "POST /funding-instructions" (Deposits.Funding.create_instruction env dto)
  | get id => json (Deposits.Funding.get_instruction id)
  | status id => json (Deposits.Funding.status id)
  | cancel id actor => json (Deposits.Funding.cancel id actor)
  end.
End FundingController.

(** [modules/redemption/redemption.controller.ts] *)
Module RedemptionController.

Inductive Call : Type :=
| request (dto : Redemption.RequestRedemption)
| get (id : string)
| confirmBurn (id burnTxHash actor : string)
| payout (id : string).

Definition route (c : Call) : Route :=
  Controller "api/v1/paychain" match c with
  | request _ => POST "redemptions" []
  | get id => GET "redemptions/:id" [id]
  | confirmBurn id _ _ => POST "redemptions/:id/confirm-burn" [id]
  | payout id => GET "redemptions/:id/payout" [id]
  end.

Definition serve `{RT : !Runtime} `{PC : !PrismaClient} (env : Env) (rq : HttpRequest) (c : Call) : prog World Body :=
  match c with
  | request dto => once rq "POST /redemptions" (Redemption.request dto)
  | get id => json (Redemption.get id)
  | confirmBurn id burnTxHash actor => json (Redemption.confirmBurn env id burnTxHash actor)
  | payout id => json (Redemption.payoutStatus id)
  end.
End RedemptionController.

(** [modules/liability/liability.controller.ts] *)
Module LiabilityController.

Inductive Call : Type := ingest (body : Redemption.Liability.LiabilitySnapshotInput).

Definition route (c : Call) : Route :=
  Controller "api/v1/paychain" match c with ingest _ => POST "liability-snapshots" [] end.

Definition serve `{RT : !Runtime} `{PC : !PrismaClient} (env : Env) (c : Call) : prog World Body :=
  match c with ingest body => returns (λ r, Ingested r.1 r.2) (Redemption.Liability.ingest env body) end.
End LiabilityController.

(** [modules/reserve/reserve.controller.ts] *)
Module ReserveController.

Inductive Call : Type :=
| current (programId : string)
| mintCapacity (programId : string)
| history (programId : string)
| ratio (programId : string)
| accounts (programId : option string)
| account (accountId : string)
| accountBalance (accountId : string)
| snapshot (programId : string)
| latest (programId : string)
| byId (snapshotId : string).

Definition route (c : Call) : Route :=
  Controller "api/v1/paychain" match c with
  | current p => GET "reserves/:programId/current" [p]
  | mintCapacity p => GET "reserves/:programId/mint-capacity" [p]
  | history p => GET "reserves/:programId/history" [p]
  | ratio p => GET "reserves/:programId/ratio" [p]
  | accounts _ => GET "reserve-accounts" []
  | account a => GET "reserve-accounts/:accountId" [a]
  | accountBalance a => GET "reserve-accounts/:accountId/balance" [a]
  | snapshot p => POST "proof-of-reserve/:programId/snapshots" [p]
  | latest p => GET "proof-of-reserve/:programId/latest" [p]
  | byId s => GET "proof-of-reserve/snapshots/:snapshotId" [s]
  end.

Definition js_position (pos : ReserveService.ReservePosition) : jsval :=
  JObj [("programId", JStr (ReserveService.rp_programId pos)); ("currency", JStr (ReserveService.rp_currency pos));
        ("eligibleReserve", ser_money (ReserveService.rp_eligibleReserve pos));
        ("reserveObligation", ser_money (ReserveService.rp_reserveObligation pos));
        ("requiredReserve", ser_money (ReserveService.rp_requiredReserve pos));
        ("mintCapacity", ser_money (ReserveService.rp_mintCapacity pos));
        ("surplus", ser_money (ReserveService.rp_surplus pos));
        ("reserveRatioBps", ReserveService.js_number_opt (ReserveService.rp_reserveRatioBps pos));
        ("liabilityAgeSeconds", match ReserveService.rp_liabilityAgeSeconds pos with
                                | Some z => JNum (Num z) | None => JNull end)].

Definition serve `{RT : !Runtime} `{PC : !PrismaClient} (env : Env) (c : Call) : prog World Body :=
  match c with
  | current p => returns (λ pos, Json (js_position pos)) (ReserveService.position p)
  | mintCapacity p =>
      returns (λ pos, Json (JObj [("mintCapacity", ser_money (ReserveService.rp_mintCapacity pos))])) (ReserveService.position p)
  | history p => json (ReserveService.snapshotHistory p 50)
  | ratio p => json (ReserveService.ratio p)
  | accounts p => json (ReserveService.listAccounts p)
  | account a => json (ReserveService.getAccount a)
  | accountBalance a => json (ReserveService.reserveAccountBalance a)
  | snapshot p => returns (λ r, SnapshotTaken r.1 r.2) (ReserveService.createSnapshot env p)
  | latest p => json (ReserveService.latestSnapshot p)
  | byId s => json (ReserveService.getSnapshot s)
  end.
End ReserveController.

(** [modules/reconciliation/reconciliation.controller.ts] *)
Module PaychainReconciliationController.

Inductive Call : Type :=
| run (programId actor : string)
| get (id : string)
| exceptions (resolved : option string).

Definition route (c : Call) : Route :=
  Controller "api/v1/paychain" match c with
  | run _ _ => POST "reconciliations" []
  | get id => GET "reconciliations/:id" [id]
  | exceptions _ => GET "reconciliation-exceptions" []
  end.

Definition serve `{RT : !Runtime} `{PC : !PrismaClient} (env : Env) (c : Call) : prog World Body :=
  match c with
  | run p actor => returns ReconciliationDone (Assurance.Recon.reconcileReserve env p actor)
  | get id => returns (λ r, ReconciliationRead r.1 r.2) (Assurance.Recon.get_run id)
  | exceptions resolved => returns Exceptions (Assurance.Recon.listExceptions (is_true resolved))
  end.
End PaychainReconciliationController.

(** [modules/attestation/attestation.controller.ts]: PayChain's and PayKH's
    controllers have the same methods. *)
Module AttestationReader.

Inductive Call : Type :=
| list_ (programId : option string)
| get (id : string).

Definition route (prefix : string) (c : Call) : Route :=
  Controller prefix match c with
  | list_ _ => GET "attestations" []
  | get id => GET "attestations/:id" [id]
  end.

Definition serve `{RT : !Runtime} `{PC : !PrismaClient} (env : Env) (c : Call) : prog World Body :=
  match c with
  | list_ p => returns AttestationList (Assurance.Attestations.list_attestations p)
  | get id => returns (λ r, AttestationRead r.1.1 r.1.2 r.2) (Assurance.Attestations.get env id)
  end.
End AttestationReader.

(** * PayKH *)

(** [modules/reconciliation/reconciliation.controller.ts] *)
Module PaykhReconciliationController.

Inductive Call : Type :=
| orders (tenantId actor : string)
| settlements (tenantId actor : string)
| exceptions (resolved : option string).

Definition route (c : Call) : Route :=
  Controller "api/v1/paykh" match c with
  | orders _ _ => POST "reconciliations/payment-orders" []
  | settlements _ _ => POST "reconciliations/merchant-settlements" []
  | exceptions _ => GET "reconciliation-exceptions" []
  end.

Definition serve `{RT : !Runtime} `{PC : !PrismaClient} (env : Env) (c : Call) : prog World Body :=
  match c with
  | orders tenantId actor => returns ReconciliationDone (Assurance.Recon.reconcilePaymentOrders tenantId actor)
  | settlements tenantId actor => returns ReconciliationDone (Assurance.Recon.reconcileSettlements tenantId actor)
  | exceptions resolved => returns Exceptions (Assurance.Recon.listExceptions (is_true resolved))
  end.
End PaykhReconciliationController.

(** [modules/paykh/paykh.controller.ts] *)
Module PaykhController.

(** [dto] as [{ ...dto, tenantId }] *)
Definition for_tenant (tenantId : string) (dto : Paykh.Profiles.SubmitPaymentProfile) : Paykh.Profiles.SubmitPaymentProfile :=
  {| Paykh.Profiles.tenantId := tenantId; Paykh.Profiles.recipientName := Paykh.Profiles.recipientName dto;
     Paykh.Profiles.recipientAccountMasked := Paykh.Profiles.recipientAccountMasked dto;
     Paykh.Profiles.bankName := Paykh.Profiles.bankName dto; Paykh.Profiles.currency := Paykh.Profiles.currency dto;
     Paykh.Profiles.khqrPayload := Paykh.Profiles.khqrPayload dto; Paykh.Profiles.actor := Paykh.Profiles.actor dto |}.

Inductive Call : Type :=
| registerMerchant (dto : Paykh.Merchants.RegisterMerchantInput)
| getMerchant (id : string)
| listMerchants (tenantId : string)
| updateMerchantStatus (id : string) (kycStatus status riskLevel : option string) (actor : string)
| submitProfile (tenantId : string) (dto : Paykh.Profiles.SubmitPaymentProfile)
| listProfiles (tenantId : string)
| verifyProfile (profileId actor : string)
| activateProfile (profileId actor : string)
| getProfile (profileId : string)
| suspendProfile (profileId actor reason : string)
| createOrder (dto : Paykh.Orders.CreatePaymentOrder)
| getOrder (id : string)
| orderStatus (id : string)
| cancelOrder (id actor : string)
| refundOrder (id actor reason : string)
| checkPayment (id : string) (dto : Paykh.Orders.CheckPaymentInput)
| createFund (dto : Loyalty.Funds.CreateProgramFund)
| getFund (id : string)
| fundBalance (id : string)
| fund (id amountMinor actor : string)
| reserveFund (id amountMinor actor : string)
| releaseFund (id amountMinor actor : string)
| createSettlement (tenantId merchantId amountMinor currency actor : string)
| getSettlement (id : string)
| cancelSettlement (id actor : string)
| approveSettlement (id checkerId : string)
| confirmSettlement (id actor : string)
| bindLoyalty (dto : Loyalty.BindLoyaltyInput)
| getLoyalty (id : string)
| issueLoyalty (id customerRef : string) (amountMinor units : option string) (actor : string)
| redeemLoyalty (id merchantId customerRef : string) (amountMinor units : option string) (actor : string)
| reconcileLoyalty (id : string).

Definition route (c : Call) : Route :=
  Controller "api/v1/paykh" match c with
  | registerMerchant _ => POST "merchants" []
  | getMerchant id => GET "merchants/:id" [id]
  | listMerchants tenantId => GET "tenants/:tenantId/merchants" [tenantId]
  | updateMerchantStatus id _ _ _ _ => POST "merchants/:id/status" [id]
  | submitProfile tenantId _ => POST "tenants/:tenantId/payment-profiles" [tenantId]
  | listProfiles tenantId => GET "tenants/:tenantId/payment-profiles" [tenantId]
  | verifyProfile profileId _ => POST "payment-profiles/:profileId/verify" [profileId]
  | activateProfile profileId _ => POST "payment-profiles/:profileId/activate" [profileId]
  | getProfile profileId => GET "payment-profiles/:profileId" [profileId]
  | suspendProfile profileId _ _ => POST "payment-profiles/:profileId/suspend" [profileId]
  | createOrder _ => POST "payment-orders" []
  | getOrder id => GET "payment-orders/:id" [id]
  | orderStatus id => GET "payment-orders/:id/status" [id]
  | cancelOrder id _ => POST "payment-orders/:id/cancel" [id]
  | refundOrder id _ _ => POST "payment-orders/:id/refund" [id]
  | checkPayment id _ => POST "payment-orders/:id/check-payment" [id]
  | createFund _ => POST "program-funds" []
  | getFund id => GET "program-funds/:id" [id]
  | fundBalance id => GET "program-funds/:id/balance" [id]
  | fund id _ _ => POST "program-funds/:id/fund" [id]
  | reserveFund id _ _ => POST "program-funds/:id/reserve" [id]
  | releaseFund id _ _ => POST "program-funds/:id/release" [id]
  | createSettlement _ _ _ _ _ => POST "settlements" []
  | getSettlement id => GET "settlements/:id" [id]
  | cancelSettlement id _ => POST "settlements/:id/cancel" [id]
  | approveSettlement id _ => POST "settlements/:id/approve" [id]
  | confirmSettlement id _ => POST "settlements/:id/confirm" [id]
  | bindLoyalty _ => POST "loyalty" []
  | getLoyalty id => GET "loyalty/:id" [id]
  | issueLoyalty id _ _ _ _ => POST "loyalty/:id/issue" [id]
  | redeemLoyalty id _ _ _ _ _ => POST "loyalty/:id/redeem" [id]
  | reconcileLoyalty id => POST "loyalty/:id/reconcile" [id]
  end.

Definition serve `{RT : !Runtime} `{PC : !PrismaClient} (env : Env) (rq : HttpRequest) (c : Call) : prog World Body :=
  match c with
  | registerMerchant dto => json (Paykh.Merchants.register dto)
  | getMerchant id => json (Paykh.Merchants.get id)
  | listMerchants tenantId => json (Paykh.Merchants.listByTenant tenantId)
  | updateMerchantStatus id kycStatus status riskLevel actor =>
      json (Paykh.Merchants.updateStatus id kycStatus status riskLevel actor)
  | submitProfile tenantId dto => json (Paykh.Profiles.submit (for_tenant tenantId dto))
  | listProfiles tenantId => json (Paykh.Profiles.listByTenant tenantId)
  | verifyProfile profileId actor => json (Paykh.Profiles.verify_profile env profileId actor)
  | activateProfile profileId actor => json (Paykh.Profiles.activate profileId actor)
  | getProfile profileId => json (Paykh.Profiles.get profileId)
  | suspendProfile profileId actor reason => json (Paykh.Profiles.suspend env profileId actor reason)
  | createOrder dto => once rq "POST /paykh/payment-orders" (Paykh.Orders.create_order dto)
  | getOrder id => json (Paykh.Orders.get id)
  | orderStatus id => json (Paykh.Orders.status id)
  | cancelOrder id actor => json (Paykh.Orders.cancel id actor)
  | refundOrder id actor reason => json (Paykh.Orders.refund env id actor reason)
  | checkPayment id dto =>
      once rq ("POST /paykh/payment-orders/" +:+ id +:+ "/check-payment") (Paykh.Orders.checkPayment env id dto)
  | createFund dto => json (Loyalty.Funds.create_fund dto)
  | getFund id => json (Loyalty.Funds.get id)
  | fundBalance id => json (Loyalty.Funds.balance id)
  | fund id amountMinor actor => json (Loyalty.Funds.fund env id amountMinor actor)
  | reserveFund id amountMinor actor => json (Loyalty.Funds.reserve env id amountMinor actor)
  | releaseFund id amountMinor actor => json (Loyalty.Funds.release id amountMinor actor)
  | createSettlement tenantId merchantId amountMinor currency actor =>
      json (Paykh.Settlements.create_settlement tenantId merchantId amountMinor currency actor)
  | getSettlement id => json (Paykh.Settlements.get id)
  | cancelSettlement id actor => json (Paykh.Settlements.cancel id actor)
  | approveSettlement id checkerId => json (Paykh.Settlements.approve env id checkerId)
  | confirmSettlement id actor => json (Paykh.Settlements.confirm env id actor)
  | bindLoyalty dto => json (Loyalty.bind_loyalty dto)
  | getLoyalty id => json (Loyalty.get id)
  | issueLoyalty id customerRef amountMinor units actor =>
      once rq ("POST /paykh/loyalty/" +:+ id +:+ "/issue")
        (Loyalty.issue env (Loyalty.mkIssueLoyaltyInput id customerRef amountMinor units actor))
  | redeemLoyalty id merchantId customerRef amountMinor units actor =>
      once rq ("POST /paykh/loyalty/" +:+ id +:+ "/redeem")
        (Loyalty.redeem env (Loyalty.mkRedeemLoyaltyInput id merchantId customerRef amountMinor units actor))
  | reconcileLoyalty id => returns LoyaltyReconciled (Loyalty.reconcile env id)
  end.
End PaykhController.
