(* ===== verification/TrusteeControllers.v ===== *)
(** The controllers of the trustee bank's namespaces ([/api/v1/bank],
    [/api/v1/trustee], [/api/v1/admin]) and the open ones (login, the signing keys,
    the portal pages), in the form of [Controllers]: calls, [route], [serve].

    Only [AdminController] and [OperationsController] use [RequirePermission]. *)
From S2P Require Import Prelude.
From S2P Require Import Domain.
From S2P Require Import Prog.
From S2P Require Import Crypto.
From S2P Require Import Schema.
From S2P Require Import Prisma.
From S2P Require Import Infra.
From S2P Require Import Invariant.
From S2P Require Import Site.
From S2P Require Import Gate.
From S2P Require Registry.
From S2P Require ReserveService.
From S2P Require MintService.
From S2P Require Deposits.
From S2P Require Redemption.
From S2P Require Paykh.
From S2P Require Loyalty.
From S2P Require Assurance.
From S2P Require Operations.
From S2P Require Accounts.
From S2P Require Admin.
From S2P Require Import Controllers.
#[local] Open Scope string_scope.
#[local] Open Scope list_scope.
#[local] Open Scope Z_scope.

(** * The bank's systems *)

(** [modules/mint/mint.controller.ts] *)
Module TrusteeMintController.

Inductive Call : Type :=
| review (id makerId : string)
| approve (id checkerId reason : string)
| reject (id checkerId reason : string)
| revoke (id actor reason : string).

Definition route (c : Call) : Route :=
  Controller "api/v1/bank" match c with
  | review id _ => POST "mint-authorizations/:id/review" [id]
  | approve id _ _ => POST "mint-authorizations/:id/approve" [id]
  | reject id _ _ => POST "mint-authorizations/:id/reject" [id]
  | revoke id _ _ => POST "mint-authorizations/:id/revoke" [id]
  end.

Definition serve `{RT : !Runtime} `{PC : !PrismaClient} (env : Env) (c : Call) : prog World Body :=
  match c with
  | review id makerId => json (MintService.review id makerId)
  | approve id checkerId reason => json (MintService.approve env id checkerId reason)
  | reject id checkerId reason => json (MintService.reject env id checkerId reason)
  | revoke id actor reason => json (MintService.revoke id actor reason)
  end.
End TrusteeMintController.

(** [modules/deposits/deposits.controller.ts] *)
Module DepositsController.

Inductive Call : Type :=
| register (dto : Deposits.RegisterDeposit)
| get (id : string)
| match_ (id fundingInstructionId actor : string)
| clear (id actor : string).

Definition route (c : Call) : Route :=
  Controller "api/v1/bank" match c with
  | register _ => POST "deposits" []
  | get id => GET "deposits/:id" [id]
  | match_ id _ _ => POST "deposits/:id/match" [id]
  | clear id _ => POST "deposits/:id/clear" [id]
  end.

Definition serve `{RT : !Runtime} `{PC : !PrismaClient} (env : Env) (c : Call) : prog World Body :=
  match c with
  | register dto => json (Deposits.register env dto)
  | get id => json (Deposits.get_deposit id)
  | match_ id fundingInstructionId actor => json (Deposits.match_deposit env id fundingInstructionId actor)
  | clear id actor => json (Deposits.clear env id actor)
  end.
End DepositsController.

(** [modules/redemption/redemption.controller.ts] *)
Module TrusteeRedemptionController.

Inductive Call : Type :=
| approve (id approverId reason : string)
| submitPayout (id actor : string)
| confirmPayout (id actor : string).

Definition route (c : Call) : Route :=
  Controller "api/v1/bank" match c with
  | approve id _ _ => POST "redemptions/:id/approve" [id]
  | submitPayout id _ => POST "redemptions/:id/submit-payout" [id]
  | confirmPayout id _ => POST "redemptions/:id/confirm-payout" [id]
  end.

Definition serve `{RT : !Runtime} `{PC : !PrismaClient} (env : Env) (c : Call) : prog World Body :=
  match c with
  | approve id approverId reason => json (Redemption.approve env id approverId reason)
  | submitPayout id actor => json (Redemption.submitPayout env id actor)
  | confirmPayout id actor => json (Redemption.confirmPayout env id actor)
  end.
End TrusteeRedemptionController.

(** [modules/reserve/reserve-bank.controller.ts] *)
Module ReserveBankController.

Inductive Call : Type :=
| addAdjustment (programId kind amountMinor : string) (reason : option string) (actor : string)
| listAdjustments (programId : string)
| liftAdjustment (id actor : string)
| bankReconcile (programId : string)
| listAccounts (programId : string)
| registerBank (bankId bankLegalName : string) (country integrationMode baseUrl authTokenEnv : option string) (actor : string)
| listBanks
| setAccountBank (id : string) (bankId mockClearedMinor : option string).

Definition route (c : Call) : Route :=
  Controller "api/v1/bank" match c with
  | addAdjustment p _ _ _ _ => POST "reserves/:programId/adjustments" [p]
  | listAdjustments p => GET "reserves/:programId/adjustments" [p]
  | liftAdjustment id _ => POST "reserve-adjustments/:id/lift" [id]
  | bankReconcile p => POST "reserves/:programId/bank-reconcile" [p]
  | listAccounts p => GET "reserves/:programId/accounts" [p]
  | registerBank _ _ _ _ _ _ _ => POST "bank-connections" []
  | listBanks => GET "bank-connections" []
  | setAccountBank id _ _ => POST "reserve-accounts/:id/bank" [id]
  end.

Definition serve `{RT : !Runtime} `{PC : !PrismaClient} (env : Env) (c : Call) : prog World Body :=
  match c with
  | addAdjustment p kind amountMinor reason actor => json (ReserveService.addAdjustment p kind amountMinor reason actor)
  | listAdjustments p => json (ReserveService.listAdjustments p)
  | liftAdjustment id actor => json (ReserveService.liftAdjustment id actor)
  | bankReconcile p => returns BankReconciled (ReserveService.reconcileBank env p)
  | listAccounts p => json (ReserveService.listProgramAccounts p)
  | registerBank bankId name country mode url token actor =>
      json (ReserveService.registerBank bankId name country mode url token actor)
  | listBanks => json ReserveService.listBanks
  | setAccountBank id bankId mockClearedMinor => json (ReserveService.setAccountBank id bankId mockClearedMinor)
  end.
End ReserveBankController.

(** [modules/attestation/attestation.controller.ts] *)
Module TrusteeAttestationController.

Inductive Call : Type :=
| create (dto : Assurance.Attestations.CreateAttestation)
| submit (id actor : string)
| approve (id actor : string)
| publish (id actor : string).

Definition route (c : Call) : Route :=
  Controller "api/v1/bank" match c with
  | create _ => POST "attestations" []
  | submit id _ => POST "attestations/:id/submit" [id]
  | approve id _ => POST "attestations/:id/approve" [id]
  | publish id _ => POST "attestations/:id/publish" [id]
  end.

Definition serve `{RT : !Runtime} `{PC : !PrismaClient} (c : Call) : prog World Body :=
  match c with
  | create dto => json (Assurance.Attestations.create_attestation dto)
  | submit id actor => json (Assurance.Attestations.transition id "UNDER_REVIEW" actor)
  | approve id actor => json (Assurance.Attestations.transition id "APPROVED" actor)
  | publish id actor => json (Assurance.Attestations.transition id "PUBLISHED" actor)
  end.
End TrusteeAttestationController.

(** [modules/paykh/loyalty-bank.controller.ts] *)
Module LoyaltyBankController.

Inductive Call : Type :=
| list_
| get (id : string)
| reconcile (id : string).

Definition route (c : Call) : Route :=
  Controller "api/v1/bank" match c with
  | list_ => GET "loyalty-liabilities" []
  | get id => GET "loyalty-liabilities/:id" [id]
  | reconcile id => POST "loyalty-liabilities/:id/reconcile" [id]
  end.

Definition serve `{RT : !Runtime} `{PC : !PrismaClient} (env : Env) (c : Call) : prog World Body :=
  match c with
  | list_ => json Loyalty.listLiabilities
  | get id => json (Loyalty.get id)
  | reconcile id => returns LoyaltyReconciled (Loyalty.reconcile env id)
  end.
End LoyaltyBankController.

(** * The trustee's registry *)

(** [modules/registry/registry.controller.ts] *)
Module RegistryController.

Inductive Call : Type :=
| create (dto : Registry.CreateRegistryEntryDto)
| list_.

Definition route (c : Call) : Route :=
  Controller "api/v1/trustee" match c with
  | create _ => POST "liability-registry" []
  | list_ => GET "liability-registry" []
  end.

Definition serve `{RT : !Runtime} `{PC : !PrismaClient} (c : Call) : prog World Body :=
  match c with
  | create dto => json (Registry.create_entry dto)
  | list_ => json Registry.list_entries
  end.
End RegistryController.

(** [modules/programs/programs.controller.ts] *)
Module ProgramsController.

Inductive Call : Type :=
| list_
| get (id : string)
| status (id : string).

Definition route (c : Call) : Route :=
  Controller "api/v1/trustee" match c with
  | list_ => GET "programs" []
  | get id => GET "programs/:id" [id]
  | status id => GET "programs/:id/status" [id]
  end.

Definition serve `{RT : !Runtime} `{PC : !PrismaClient} (c : Call) : prog World Body :=
  match c with
  | list_ => json Registry.list_programs
  | get id => json (Registry.get_program id)
  | status id => json (Registry.program_status id)
  end.
End ProgramsController.

(** * The admin console *)

(** [modules/operations/operations.controller.ts].  A [limit] of the query is a
    number that Prisma takes, a natural one. *)
Module OperationsController.

Inductive Call : Type :=
| programs
| queues
| trialBalance (programId : string)
| entries (programId : string) (limit : option nat)
| audit (subjectType action actor : option string) (limit : option nat)
| reserveReport (programId : string)
| liabilityReport (programId : string)
| reconciliations
| attestations
| generateSnapshot (programId : string)
| reconReserve (programId actor : string)
| reconOrders (tenantId actor : string)
| approveSettlement (id checkerId : string)
| confirmSettlement (id actor : string).

Definition route (c : Call) : Route :=
  Controller "api/v1/admin" match c with
  | programs => GET "ops/programs" []
  | queues => GET "ops/queues" []
  | trialBalance p => GET "ledger/:programId/trial-balance" [p]
  | entries p _ => GET "ledger/:programId/entries" [p]
  | audit _ _ _ _ => GET "audit" []
  | reserveReport p => GET "reports/reserve/:programId" [p]
  | liabilityReport p => GET "reports/liability/:programId" [p]
  | reconciliations => GET "reconciliations" []
  | attestations => GET "attestations" []
  | generateSnapshot p => RequirePermission POR_GENERATE (POST "proof-of-reserve/:programId/snapshots" [p])
  | reconReserve _ _ => POST "reconciliations/reserve" []
  | reconOrders _ _ => POST "reconciliations/payment-orders" []
  | approveSettlement id _ => RequirePermission PAYKH_SETTLEMENT_APPROVE (POST "settlements/:id/approve" [id])
  | confirmSettlement id _ => RequirePermission PAYKH_SETTLEMENT_APPROVE (POST "settlements/:id/confirm" [id])
  end.

(** [limit ? Number(limit) : n]; a limit of 0 is the text ["0"], which is kept. *)
Definition limit_or (n : nat) (limit : option nat) : nat := default n limit.

Definition serve `{RT : !Runtime} `{PC : !PrismaClient} (env : Env) (c : Call) : prog World Body :=
  match c with
  | programs => json Operations.programs
  | queues => json Operations.queues
  | trialBalance p => returns TrialBalanceRead (Operations.trialBalance p)
  | entries p limit => json (Operations.ledgerEntries p (limit_or 50 limit))
  | audit subjectType action actor limit =>
      json (Operations.auditLogs (Operations.mkAuditFilter subjectType action actor (Some (limit_or 100 limit))))
  | reserveReport p => json (Operations.reserveReport p)
  | liabilityReport p => json (Operations.liabilityReport p)
  | reconciliations => json (Operations.reconciliationRuns 50)
  | attestations => json Operations.attestations
  | generateSnapshot p => returns (λ r, SnapshotTaken r.1 r.2) (ReserveService.createSnapshot env p)
  | reconReserve p actor => returns ReconciliationDone (Assurance.Recon.reconcileReserve env p actor)
  | reconOrders tenantId actor => returns ReconciliationDone (Assurance.Recon.reconcilePaymentOrders tenantId actor)
  | approveSettlement id checkerId => json (Paykh.Settlements.approve env id checkerId)
  | confirmSettlement id actor => json (Paykh.Settlements.confirm env id actor)
  end.
End OperationsController.

(** [modules/admin/admin.controller.ts].  Its bodies have no DTO class; the calls
    are those whose bodies have the types the methods declare. *)
Module AdminController.

(** The body of [policies/evaluate]. *)
Record EvaluateInput : Type := mkEvaluateInput {
  ei_transactionType : string; ei_amountMinor : option string; ei_currency : option string;
  ei_riskLevel : option string; ei_programId : option string; ei_assetId : option string;
  ei_jurisdiction : option string
}.

Inductive Call : Type :=
| permissions
| reservePosition (programId : string)
| listUsers
| createUser (b : Admin.CreateUserInput)
| setUserRoles (id : string) (roles : list string) (actor : string)
| setUserDisabled (id : string) (disabled : bool) (actor : string)
| effectivePermissions (id : string)
| setUserPassword (id newPassword : string)
| listRoles
| upsertRole (slug : string) (bodySlug : option string) (b : Admin.RoleInput)
| deleteRole (slug : string) (actor : option string)
| listPolicies
| createPolicy (b : Admin.PolicyInput)
| updatePolicy (id : string) (b : Admin.PolicyInput)
| deletePolicy (id : string) (actor : option string)
| evaluate (tx : EvaluateInput)
| listFlags
| setFlag (key : string) (enabled : bool) (actor : string)
| listControls
| setControl (key : string) (value : bool) (reason : string) (incidentRef : option string) (actor : string)
| listClients
| setClientKey (platform : string) (publicKeyPem : option string) (requireSignature : bool) (actor : string)
| rotateClientSecret (platform actor : string)
| setClientWebhook (platform webhookUrl actor : string)
| createProgram (input : Admin.CreateProgramInput) (actor : string)
| addTrusteeAccount (id : string) (input : Admin.CreateAccountInput) (actor : string)
| setProgramStatus (id status actor : string)
| setClientRateLimit (platform : string) (rateLimitPerMin : Z) (actor : string)
| setClientDisabled (platform : string) (disabled : bool) (actor : string)
| usage (hours : option nat)
| integrationHealth
| listWebhooks (status : option string)
| webhookDeliveries (id : string)
| replayWebhook (id actor : string)
| replayDead (actor : string).

Definition route (c : Call) : Route :=
  Controller "api/v1/admin" match c with
  | permissions => GET "permissions" []
  | reservePosition p => GET "reserve/:programId" [p]
  | listUsers => GET "users" []
  | createUser _ => RequirePermission ADMIN_USERS (POST "users" [])
  | setUserRoles id _ _ => RequirePermission ADMIN_USERS (PUT "users/:id/roles" [id])
  | setUserDisabled id _ _ => RequirePermission ADMIN_USERS (PUT "users/:id/disabled" [id])
  | effectivePermissions id => GET "users/:id/effective-permissions" [id]
  | setUserPassword id _ => RequirePermission ADMIN_USERS (PUT "users/:id/password" [id])
  | listRoles => GET "roles" []
  | upsertRole slug _ _ => RequirePermission ADMIN_ROLES (PUT "roles/:slug" [slug])
  | deleteRole slug _ => RequirePermission ADMIN_ROLES (DELETE "roles/:slug" [slug])
  | listPolicies => GET "policies" []
  | createPolicy _ => RequirePermission ADMIN_POLICIES (POST "policies" [])
  | updatePolicy id _ => RequirePermission ADMIN_POLICIES (PUT "policies/:id" [id])
  | deletePolicy id _ => RequirePermission ADMIN_POLICIES (DELETE "policies/:id" [id])
  | evaluate _ => POST "policies/evaluate" []
  | listFlags => GET "feature-flags" []
  | setFlag key _ _ => RequirePermission ADMIN_FEATURE_FLAGS (PUT "feature-flags/:key" [key])
  | listControls => GET "controls" []
  | setControl key _ _ _ _ => RequirePermission ADMIN_EMERGENCY (PUT "controls/:key" [key])
  | listClients => GET "clients" []
  | setClientKey p _ _ _ => RequirePermission ADMIN_ROLES (PUT "clients/:platform/key" [p])
  | rotateClientSecret p _ => RequirePermission ADMIN_ROLES (POST "clients/:platform/rotate-secret" [p])
  | setClientWebhook p _ _ => RequirePermission ADMIN_ROLES (PUT "clients/:platform/webhook" [p])
  | createProgram _ _ => RequirePermission ADMIN_ROLES (POST "programs" [])
  | addTrusteeAccount id _ _ => RequirePermission ADMIN_ROLES (POST "programs/:id/accounts" [id])
  | setProgramStatus id _ _ => RequirePermission ADMIN_EMERGENCY (PUT "programs/:id/status" [id])
  | setClientRateLimit p _ _ => RequirePermission ADMIN_FEATURE_FLAGS (PUT "clients/:platform/rate-limit" [p])
  | setClientDisabled p _ _ => RequirePermission ADMIN_EMERGENCY (PUT "clients/:platform/disabled" [p])
  | usage _ => GET "usage" []
  | integrationHealth => GET "integration-health" []
  | listWebhooks _ => GET "webhooks" []
  | webhookDeliveries id => GET "webhooks/:id/deliveries" [id]
  | replayWebhook id _ => RequirePermission ADMIN_FEATURE_FLAGS (POST "webhooks/:id/replay" [id])
  | replayDead _ => RequirePermission ADMIN_FEATURE_FLAGS (POST "webhooks/replay-dead-lettered" [])
  end.

Definition js_position (p : ReserveService.ReservePosition) : jsval :=
  JObj [("programId", JStr (ReserveService.rp_programId p)); ("currency", JStr (ReserveService.rp_currency p));
        ("eligibleReserve", ser_money (ReserveService.rp_eligibleReserve p));
        ("reserveObligation", ser_money (ReserveService.rp_reserveObligation p));
        ("mintCapacity", ser_money (ReserveService.rp_mintCapacity p));
        ("reserveRatioBps", ReserveService.js_number_opt (ReserveService.rp_reserveRatioBps p))].

(** [{ slug, ...b }]: a slug in the body, which no DTO class keeps out, wins. *)
Definition with_slug (slug : string) (bodySlug : option string) (b : Admin.RoleInput) : Admin.RoleInput :=
  Admin.mkRoleInput (default slug bodySlug) (Admin.ri_name b) (Admin.ri_institution b) (Admin.ri_description b)
    (Admin.ri_permissions b) (Admin.ri_actor b).

(** [{ ...b, id }] *)
Definition with_id (id : string) (b : Admin.PolicyInput) : Admin.PolicyInput :=
  Admin.mkPolicyInput (Some id) (Admin.pi_name b) (Admin.pi_description b) (Admin.pi_transactionType b)
    (Admin.pi_minAmountMinor b) (Admin.pi_maxAmountMinor b) (Admin.pi_currency b) (Admin.pi_riskLevel b)
    (Admin.pi_programId b) (Admin.pi_assetId b) (Admin.pi_jurisdiction b) (Admin.pi_requiredApprovals b)
    (Admin.pi_requiredRoles b) (Admin.pi_effect b) (Admin.pi_priority b) (Admin.pi_enabled b) (Admin.pi_actor b).

(** [{ ...tx, amountMinor: tx.amountMinor != null ? BigInt(tx.amountMinor) : undefined }] *)
Definition transaction_of (tx : EvaluateInput) : outcome AbacTransaction :=
  amount ← match ei_amountMinor tx with Some s => z ← BigInt s; Ok (Some z) | None => Ok None end;
  Ok (mkAbacTransaction (ei_transactionType tx) amount (ei_currency tx) (ei_riskLevel tx) (ei_programId tx)
        (ei_assetId tx) (ei_jurisdiction tx)).

(** A method that only uses the database. *)
Definition db_json `{RD : !Redis} (p : prog World jsval) : prog Site Body := on_db (json p).

Definition serve `{RT : !Runtime} `{PC : !PrismaClient} `{RD : !Redis} (env : Env) (c : Call) : prog Site Body :=
  match c with
  | permissions => db_json (mret (JObj [("permissions", Admin.js_strs Admin.permissionCatalog)]))
  | reservePosition p => on_db (returns (λ pos, Json (js_position pos)) (ReserveService.position p))
  | listUsers => db_json Admin.listUsers
  | createUser b => db_json (Admin.createUser b)
  | setUserRoles id roles actor => db_json (Admin.setUserRoles id roles actor)
  | setUserDisabled id disabled actor => db_json (Admin.setUserDisabled id disabled actor)
  | effectivePermissions id => db_json (Admin.effectivePermissions id)
  | setUserPassword id newPassword => db_json (Accounts.adminSetPassword id newPassword)
  | listRoles => db_json Admin.listRoles
  | upsertRole slug bodySlug b => db_json (Admin.upsertRole (with_slug slug bodySlug b))
  | deleteRole slug actor => db_json (Admin.deleteRole slug (default "admin" actor))
  | listPolicies => db_json Admin.listPolicies
  | createPolicy b => db_json (Admin.upsertPolicy b)
  | updatePolicy id b => db_json (Admin.upsertPolicy (with_id id b))
  | deletePolicy id actor => db_json (Admin.deletePolicy id (default "admin" actor))
  | evaluate tx => on_db (t ← lift (transaction_of tx); returns Decision (Admin.evaluate t))
  | listFlags => db_json Admin.listFlags
  | setFlag key enabled actor => db_json (Admin.setFlag key enabled actor)
  | listControls => db_json Admin.listControls
  | setControl key value reason incidentRef actor => db_json (Admin.setControl env key value reason incidentRef actor)
  | listClients => db_json Admin.listClients
  | setClientKey p pem requireSignature actor => db_json (Admin.setClientKey p pem requireSignature actor)
  | rotateClientSecret p actor => db_json (Admin.rotateClientSecret p actor)
  | setClientWebhook p webhookUrl actor => db_json (Admin.setClientWebhookUrl p webhookUrl actor)
  | createProgram input actor => db_json (Admin.createProgram input actor)
  | addTrusteeAccount id input actor => db_json (Admin.addTrusteeAccount id input actor)
  | setProgramStatus id status actor => db_json (Admin.setProgramStatus id status actor)
  | setClientRateLimit p n actor => db_json (Admin.setClientRateLimit p n actor)
  | setClientDisabled p disabled actor => db_json (Admin.setClientDisabled p disabled actor)
  | usage hours => returns Usage (clients_usage (OperationsController.limit_or 24 hours))
  | integrationHealth => db_json Admin.integrationHealth
  | listWebhooks status => db_json (Admin.listWebhooks status 100)
  | webhookDeliveries id => db_json (Admin.webhookDeliveries id)
  | replayWebhook id actor => db_json (Admin.replayWebhook id actor)
  | replayDead actor => db_json (Admin.replayDeadLettered actor)
  end.
End AdminController.

(** * Open routes *)

(** [modules/auth/auth.controller.ts] *)
Module AuthController.

Inductive Call : Type :=
| login (email password : string) (code : option string)
| me
| setup
| enable (code : string)
| changePassword (currentPassword newPassword : string)
| forgot (email : string)
| reset (token newPassword : string).

Definition route (c : Call) : Route :=
  Controller "api/v1/auth" match c with
  | login _ _ _ => POST "login" []
  | me => GET "me" []
  | setup => POST "mfa/setup" []
  | enable _ => POST "mfa/enable" []
  | changePassword _ _ => POST "change-password" []
  | forgot _ => POST "forgot-password" []
  | reset _ _ => POST "reset-password" []
  end.

(** [this.principal(authz)]; [bearer] has the token of the header. *)
Definition principal `{RT : !Runtime} `{PC : !PrismaClient} (env : Env) (rq : HttpRequest) : prog World Accounts.UserPrincipal :=
  t ← now;
  p ← match truthy (bearer rq) with Some token => lift (Accounts.verifyToken env token t) | None => mret None end;
  or_throw p (UnauthorizedException "Valid session token required").

Definition js_me (p : Accounts.UserPrincipal) : jsval :=
  JObj [("userId", JStr (Accounts.up_userId p)); ("email", JStr (Accounts.up_email p));
        ("institution", JStr (Accounts.up_institution p)); ("roles", Admin.js_strs (Accounts.up_roles p))].

Definition serve `{RT : !Runtime} `{PC : !PrismaClient} (env : Env) (rq : HttpRequest) (c : Call) : prog World Body :=
  match c with
  | login email password code => json (Accounts.login env email password code)
  | me => returns (λ p, Json (js_me p)) (principal env rq)
  | setup => p ← principal env rq; json (Accounts.setupMfa (Accounts.up_userId p))
  | enable code => p ← principal env rq; json (Accounts.enableMfa (Accounts.up_userId p) code)
  | changePassword old new => p ← principal env rq; json (Accounts.changePassword (Accounts.up_userId p) old new)
  | forgot email => json (Accounts.requestPasswordReset env email)
  | reset token newPassword => json (Accounts.resetPassword token newPassword)
  end.
End AuthController.

(** [modules/system/system.controller.ts].  [probe]: does the database answer
    [SELECT 1]? *)
Module SystemController.

Inductive Call : Type :=
| health
| keys.

Definition route (c : Call) : Route :=
  Controller "" match c with
  | health => GET "health" []
  | keys => GET ".well-known/trustee-signing-keys" []
  end.

Definition js_health (db : bool) : jsval :=
  JObj [("status", JStr (if db then "ok" else "degraded")); ("db", JBool db)].

Definition serve `{RT : !Runtime} `{PC : !PrismaClient} (env : Env) (probe : World → bool) (c : Call) : prog World Body :=
  match c with
  | health => returns (λ db, Json (js_health db)) (read probe)
  | keys => json (Registry.published_keys env)
  end.
End SystemController.

(** [modules/portal/portal.controller.ts]: pages rendered once, at the start. *)
Module PortalController.

Inductive Call : Type :=
| root
| developers
| status.

Definition route (c : Call) : Route :=
  Controller "" match c with
  | root => GET "" []
  | developers => GET "developers" []
  | status => GET "status" []
  end.

Definition serve {S} (c : Call) : prog S Body :=
  match c with
  | root | developers => mret (Html DEVELOPER_HUB)
  | status => mret (Html LANDING_HTML)
  end.
End PortalController.
