(* ===== verification/Routes.v ===== *)
(** The application ([app.module.ts]): every route of every controller behind the
    global guards.

    [Call] is a call of a method of a controller, [route] what the decorators
    declare of it, [serve] its method and [respond] the whole response: the four
    guards with the permission of the route, then the method.  [spelled rq c] says
    that the request [rq] has the method and the path of the call [c], the path
    written as it is declared. *)
From S2P Require Import Prelude.
From S2P Require Import Text.
From S2P Require Import Domain.
From S2P Require Import Prog.
From S2P Require Import Crypto.
From S2P Require Import Schema.
From S2P Require Import Prisma.
From S2P Require Import Infra.
From S2P Require Import Invariant.
From S2P Require Import Site.
From S2P Require Import Gate.
From S2P Require Import Platform.
From S2P Require Import Controllers.
From S2P Require Import TrusteeControllers.
#[local] Open Scope string_scope.
#[local] Open Scope list_scope.
#[local] Open Scope Z_scope.

(** * The calls of the application *)

Inductive Call : Type :=
| SystemCall (c : SystemController.Call)
| PortalCall (c : PortalController.Call)
| AuthCall (c : AuthController.Call)
| ProgramsCall (c : ProgramsController.Call)
| RegistryCall (c : RegistryController.Call)
| AdminCall (c : AdminController.Call)
| OperationsCall (c : OperationsController.Call)
| FundingCall (c : FundingController.Call)
| DepositsCall (c : DepositsController.Call)
| ReserveCall (c : ReserveController.Call)
| ReserveBankCall (c : ReserveBankController.Call)
| LiabilityCall (c : LiabilityController.Call)
| MintCall (c : MintController.Call)
| TrusteeMintCall (c : TrusteeMintController.Call)
| RedemptionCall (c : RedemptionController.Call)
| TrusteeRedemptionCall (c : TrusteeRedemptionController.Call)
| PaychainReconciliationCall (c : PaychainReconciliationController.Call)
| PaykhReconciliationCall (c : PaykhReconciliationController.Call)
| PaychainAttestationCall (c : AttestationReader.Call)
| PaykhAttestationCall (c : AttestationReader.Call)
| TrusteeAttestationCall (c : TrusteeAttestationController.Call)
| PaykhCall (c : PaykhController.Call)
| LoyaltyBankCall (c : LoyaltyBankController.Call).

Definition route (c : Call) : Route :=
  match c with
  | SystemCall c => SystemController.route c
  | PortalCall c => PortalController.route c
  | AuthCall c => AuthController.route c
  | ProgramsCall c => ProgramsController.route c
  | RegistryCall c => RegistryController.route c
  | AdminCall c => AdminController.route c
  | OperationsCall c => OperationsController.route c
  | FundingCall c => FundingController.route c
  | DepositsCall c => DepositsController.route c
  | ReserveCall c => ReserveController.route c
  | ReserveBankCall c => ReserveBankController.route c
  | LiabilityCall c => LiabilityController.route c
  | MintCall c => MintController.route c
  | TrusteeMintCall c => TrusteeMintController.route c
  | RedemptionCall c => RedemptionController.route c
  | TrusteeRedemptionCall c => TrusteeRedemptionController.route c
  | PaychainReconciliationCall c => PaychainReconciliationController.route c
  | PaykhReconciliationCall c => PaykhReconciliationController.route c
  | PaychainAttestationCall c => AttestationReader.route "api/v1/paychain" c
  | PaykhAttestationCall c => AttestationReader.route "api/v1/paykh" c
  | TrusteeAttestationCall c => TrusteeAttestationController.route c
  | PaykhCall c => PaykhController.route c
  | LoyaltyBankCall c => LoyaltyBankController.route c
  end.

(** * Readers *)

Create HintDb readers.
#[global] Hint Resolve reader_ret reader_throw reader_read reader_lift reader_or_throw : readers.

Ltac head_of t := match t with ?f _ => head_of f | _ => t end.

(** Database queries, and whatever is built from them without writing. *)
Ltac solve_reader :=
  repeat first
    [ progress intros
    | solve [auto with readers nocore]
    | apply reader_bind
    | match goal with |- reader (match ?x with _ => _ end) => destruct x end
    | match goal with |- reader (let _ := _ in _) => cbv zeta end
    | match goal with |- reader ?p => let h := head_of p in unfold h end ].

Section readers.
Context `{RT : !Runtime} `{PC : !PrismaClient} (env : Env) (webhookKey : option SigningKey).

Lemma reader_mret {A} (a : A) : reader (mret a). Proof. apply reader_ret. Qed.
Lemma reader_find_unique t k : reader (find_unique t k). Proof. apply reader_read. Qed.
Lemma reader_find_many t p : reader (find_many t p). Proof. apply reader_read. Qed.
Lemma reader_find_first t p : reader (find_first t p). Proof. apply reader_read. Qed.
Lemma reader_find_first_desc t p k : reader (find_first_desc t p k). Proof. apply reader_read. Qed.
Lemma reader_find_many_desc t p k n : reader (find_many_desc t p k n). Proof. apply reader_read. Qed.
Lemma reader_find_many_asc t p k n : reader (find_many_asc t p k n). Proof. apply reader_read. Qed.
Lemma reader_find_all_asc t p k : reader (find_all_asc t p k). Proof. apply reader_read. Qed.
Lemma reader_count t p : reader (count t p). Proof. apply reader_read. Qed.
Lemma reader_now : reader now. Proof. apply reader_read. Qed.
Lemma reader_nowIso : reader nowIso. Proof. apply reader_read. Qed.
End readers.
#[global] Hint Resolve reader_mret reader_find_unique reader_find_many reader_find_first reader_find_first_desc
  reader_find_many_desc reader_find_many_asc reader_find_all_asc reader_count reader_now reader_nowIso : readers.

(** * Every method is a request of the platform *)

(** Discriminated, so that a service's operation is found by its name. *)
Create HintDb operations discriminated.
#[global] Hint Constants Opaque : operations.
#[global] Hint Constructors handler : operations.
#[global] Hint Resolve r_liability r_snapshot r_reconcile_bank r_reconcile_loyalty r_reconcile_reserve
  r_reconcile_orders r_reconcile_settlements : operations.

(** A method's program: a service's operation, or one that only reads. *)
Ltac solve_served :=
  cbv beta iota delta [AttestationReader.serve AuthController.serve DepositsController.serve FundingController.serve LiabilityController.serve LoyaltyBankController.serve MintController.serve OperationsController.serve PaychainReconciliationController.serve PaykhController.serve PaykhReconciliationController.serve PortalController.serve ProgramsController.serve RedemptionController.serve RegistryController.serve ReserveBankController.serve ReserveController.serve SystemController.serve TrusteeAttestationController.serve TrusteeMintController.serve TrusteeRedemptionController.serve once json returns];
  first
    [ simple apply r_map; simple apply r_handler; solve [auto with operations nocore]
    | simple apply r_map; simple apply r_idempotent; solve [auto with operations nocore]
    | simple apply r_map; solve [auto with operations nocore]
    | simple apply r_read; solve [solve_reader] ].

Section served.
Context `{RT : !Runtime} `{PC : !PrismaClient} (env : Env) (webhookKey : option SigningKey).
Abbreviation served p := (request env webhookKey (discard p)) (only parsing).

Lemma served_mint rq c : served (MintController.serve env rq c).
Proof. destruct c; solve_served. Qed.
Lemma served_funding rq c : served (FundingController.serve env rq c).
Proof. destruct c; solve_served. Qed.
Lemma served_redemption rq c : served (RedemptionController.serve env rq c).
Proof. destruct c; solve_served. Qed.
Lemma served_liability c : served (LiabilityController.serve env c).
Proof. destruct c; solve_served. Qed.
Lemma served_reserve c : served (ReserveController.serve env c).
Proof. destruct c; solve_served. Qed.
Lemma served_paychain_reconciliation c : served (PaychainReconciliationController.serve env c).
Proof. destruct c; solve_served. Qed.
Lemma served_attestation c : served (AttestationReader.serve env c).
Proof. destruct c; solve_served. Qed.
Lemma served_paykh_reconciliation c : served (PaykhReconciliationController.serve env c).
Proof. destruct c; solve_served. Qed.
Lemma served_paykh rq c : served (PaykhController.serve env rq c).
Proof. destruct c; solve_served. Qed.
Lemma served_trustee_mint c : served (TrusteeMintController.serve env c).
Proof. destruct c; solve_served. Qed.
Lemma served_deposits c : served (DepositsController.serve env c).
Proof. destruct c; solve_served. Qed.
Lemma served_trustee_redemption c : served (TrusteeRedemptionController.serve env c).
Proof. destruct c; solve_served. Qed.
Lemma served_reserve_bank c : served (ReserveBankController.serve env c).
Proof. destruct c; solve_served. Qed.
Lemma served_trustee_attestation c : served (TrusteeAttestationController.serve c).
Proof. destruct c; solve_served. Qed.
Lemma served_loyalty_bank c : served (LoyaltyBankController.serve env c).
Proof. destruct c; solve_served. Qed.
Lemma served_registry c : served (RegistryController.serve c).
Proof. destruct c; solve_served. Qed.
Lemma served_programs c : served (ProgramsController.serve c).
Proof. destruct c; solve_served. Qed.
Lemma served_operations c : served (OperationsController.serve env c).
Proof. destruct c; solve_served. Qed.
Lemma served_system probe c : served (SystemController.serve env probe c).
Proof. destruct c; solve_served. Qed.
Lemma served_portal c : served (PortalController.serve c).
Proof. destruct c; solve_served. Qed.

Lemma reader_principal rq : reader (AuthController.principal env rq).
Proof. solve_reader. Qed.

Lemma served_auth rq c : served (AuthController.serve env rq c).
Proof.
  destruct c; try solve_served.
  - apply r_then; [apply reader_principal|intros p; solve_served].
  - apply r_then; [apply reader_principal|intros p; solve_served].
  - apply r_then; [apply reader_principal|intros p; solve_served].
Qed.
End served.

(** * The application *)

Section app.
Context `{RT : !Runtime} `{PC : !PrismaClient} `{RD : !Redis} (env : Env) (probe : World → bool).

(** The method of a call, on the process. *)
Definition serve (rq : HttpRequest) (c : Call) : prog Site Body :=
  match c with
  | SystemCall c => on_db (SystemController.serve env probe c)
  | PortalCall c => on_db (PortalController.serve c)
  | AuthCall c => on_db (AuthController.serve env rq c)
  | ProgramsCall c => on_db (ProgramsController.serve c)
  | RegistryCall c => on_db (RegistryController.serve c)
  | AdminCall c => AdminController.serve env c
  | OperationsCall c => on_db (OperationsController.serve env c)
  | FundingCall c => on_db (FundingController.serve env rq c)
  | DepositsCall c => on_db (DepositsController.serve env c)
  | ReserveCall c => on_db (ReserveController.serve env c)
  | ReserveBankCall c => on_db (ReserveBankController.serve env c)
  | LiabilityCall c => on_db (LiabilityController.serve env c)
  | MintCall c => on_db (MintController.serve env rq c)
  | TrusteeMintCall c => on_db (TrusteeMintController.serve env c)
  | RedemptionCall c => on_db (RedemptionController.serve env rq c)
  | TrusteeRedemptionCall c => on_db (TrusteeRedemptionController.serve env c)
  | PaychainReconciliationCall c => on_db (PaychainReconciliationController.serve env c)
  | PaykhReconciliationCall c => on_db (PaykhReconciliationController.serve env c)
  | PaychainAttestationCall c | PaykhAttestationCall c => on_db (AttestationReader.serve env c)
  | TrusteeAttestationCall c => on_db (TrusteeAttestationController.serve c)
  | PaykhCall c => on_db (PaykhController.serve env rq c)
  | LoyaltyBankCall c => on_db (LoyaltyBankController.serve env c)
  end.

(** [APP_GUARD]s in their order, then the method. *)
Definition respond (rq : HttpRequest) (c : Call) : prog Site Body :=
  _ ← guards env (permission_slug <$> rt_permission (route c)) rq; serve rq c.

(** A method is a database program of the platform, or the usage query. *)
Inductive method (webhookKey : option SigningKey) : prog Site Body → Prop :=
| method_db p : request env webhookKey (discard p) → method webhookKey (on_db p)
| method_usage hours : method webhookKey (returns Usage (clients_usage hours)).

Lemma method_admin wk c : method wk (AdminController.serve env c).
Proof.
  destruct c; try (cbv beta iota delta [AdminController.serve AdminController.db_json]; apply method_db; solve_served).
  apply method_usage.
Qed.

Lemma method_serve wk rq c : method wk (serve rq c).
Proof.
  destruct c; try solve [apply method_admin]; apply method_db;
    auto using served_system, served_portal, served_auth, served_programs, served_registry, served_operations,
      served_funding, served_deposits, served_reserve, served_reserve_bank, served_liability, served_mint,
      served_trustee_mint, served_redemption, served_trustee_redemption, served_paychain_reconciliation,
      served_paykh_reconciliation, served_attestation, served_trustee_attestation, served_paykh, served_loyalty_bank.
Qed.
End app.
