(* ===== verification/Router.v ===== *)
(** Declared paths: what the path of a decorator ([mint-authorizations/:id/approve])
    says of the paths of requests, and the table of all routes.

    [route_match path q] is the meaning of a declared path: the request path [q] has
    its segments, the literal ones in any letter case, and the values of the [:name]
    ones are the result.  [fill] builds the request path of given values. *)
From S2P Require Import Prelude.
From S2P Require Import Text.
From S2P Require Import Controllers.
From S2P Require Import TrusteeControllers.
From S2P Require Import Routes.
#[local] Open Scope string_scope.
#[local] Open Scope list_scope.

(** * Segments *)

(** [path.split('/')] *)
Fixpoint segments (s : string) : list string :=
  match s with
  | EmptyString => [""]
  | String a s' =>
      if Ascii.eqb a "/" then "" :: segments s'
      else match segments s' with x :: l => String a x :: l | [] => [String a ""] end
  end.

(** [l.join('/')] *)
Fixpoint join (l : list string) : string :=
  match l with
  | [] => ""
  | [x] => x
  | x :: l' => x +:+ "/" +:+ join l'
  end.

Definition is_name (segment : string) : bool := starts_with ":" segment.

Fixpoint fill_segments (path ps : list string) : list string :=
  match path with
  | [] => []
  | x :: path' => if is_name x then default "" (head ps) :: fill_segments path' (tail ps) else x :: fill_segments path' ps
  end.

Definition fill (path : string) (ps : list string) : string := join (fill_segments (segments path) ps).

Definition same_letters (a b : string) : bool := bool_decide (to_lower a = to_lower b).

Fixpoint match_segments (path q : list string) : option (list string) :=
  match path, q with
  | [], [] => Some []
  | x :: path', y :: q' =>
      ps ← match_segments path' q';
      if is_name x then (if bool_decide (y = "") then None else Some (y :: ps))
      else if same_letters x y then Some ps else None
  | _, _ => None
  end.

Definition route_match (path q : string) : option (list string) := match_segments (segments path) (segments q).

(** ** Splitting and joining *)

Fixpoint has_slash (s : string) : bool :=
  match s with EmptyString => false | String a s' => Ascii.eqb a "/" || has_slash s' end.

Lemma segments_slashless s : has_slash s = false → segments s = [s].
Proof.
  induction s as [|a s IH]; [done|]. cbn [has_slash segments]. intros [Ha Hs]%orb_false_iff. by rewrite Ha, IH.
Qed.

Lemma segments_app s t : has_slash s = false → segments (s +:+ "/" +:+ t) = s :: segments t.
Proof.
  induction s as [|a s IH]; [done|]. cbn [has_slash]. intros [Ha Hs]%orb_false_iff.
  change (String a s +:+ "/" +:+ t) with (String a (s +:+ "/" +:+ t)). cbn [segments]. by rewrite Ha, IH.
Qed.

Lemma segments_join l : l ≠ [] → Forall (λ x, has_slash x = false) l → segments (join l) = l.
Proof.
  induction l as [|x l IH]; [done|]. intros _ [Hx Hl]%Forall_cons. destruct l as [|y l]; [by apply segments_slashless|].
  change (join (x :: y :: l)) with (x +:+ "/" +:+ join (y :: l)). by rewrite segments_app, IH.
Qed.

Lemma segments_nonnil s : segments s ≠ [].
Proof. destruct s as [|a s]; [done|]. cbn [segments]. destruct (Ascii.eqb a "/"), (segments s); done. Qed.

Lemma segments_slashfree s : Forall (λ x, has_slash x = false) (segments s).
Proof.
  induction s as [|a s IH]; [by repeat constructor|]. cbn [segments]. destruct (Ascii.eqb a "/") eqn:Ha; [by constructor|].
  destruct (segments s) as [|x l]; [by repeat constructor; cbn [has_slash]; rewrite Ha|].
  apply Forall_cons in IH as [Hx Hl]. constructor; [|done]. cbn [has_slash]. by rewrite Ha, Hx.
Qed.

(** ** A filled path is matched, with its values *)

Definition names (path : list string) : nat := length (List.filter is_name path).

Definition value_ok (v : string) : Prop := v ≠ "" ∧ has_slash v = false.

Lemma fill_segments_slashfree path ps :
  Forall (λ x, has_slash x = false) path → Forall value_ok ps → Forall (λ x, has_slash x = false) (fill_segments path ps).
Proof.
  intros Hp. revert ps. induction Hp as [|x path Hx _ IH]; intros ps Hps; [done|]. cbn [fill_segments]. destruct (is_name x).
  - destruct Hps as [|v ps [_ Hv] Hps]; cbn [head tail default]; constructor; auto.
  - constructor; auto.
Qed.

Lemma is_name_lower x : is_name (to_lower x) = is_name x.
Proof.
  destruct x as [|a x]; [done|]. cbn [to_lower]. unfold is_name. cbn [starts_with]. rewrite !andb_true_r.
  destruct a as [[] [] [] [] [] [] [] []]; reflexivity.
Qed.

Lemma segments_lower s : segments (to_lower s) = map to_lower (segments s).
Proof.
  induction s as [|a s IH]; [done|]. cbn [to_lower segments].
  replace (Ascii.eqb (ascii_lower a) "/") with (Ascii.eqb a "/") by (destruct a as [[] [] [] [] [] [] [] []]; reflexivity).
  rewrite IH. destruct (Ascii.eqb a "/"); [done|]. by destruct (segments s).
Qed.

Lemma match_fill_segments p p' ps :
  map to_lower p' = map to_lower p → length ps = names p → Forall value_ok ps → match_segments p (fill_segments p' ps) = Some ps.
Proof.
  revert p' ps. induction p as [|x p IH]; intros [|x' p'] ps Hp; try done;
    unfold names; cbn [List.filter fill_segments match_segments]; [by destruct ps|].
  injection Hp as Hx Hp.
  assert (is_name x' = is_name x) as -> by by rewrite <- (is_name_lower x), <- Hx, is_name_lower.
  destruct (is_name x) eqn:Hn; cbn [length].
  - destruct ps as [|v ps]; [done|]. intros [= Hl] [[Hv _] Hps]%Forall_cons. cbn [head tail default from_option].
    rewrite IH by done. cbn [mbind option_bind]. by rewrite bool_decide_eq_false_2.
  - intros Hl Hps. rewrite IH by done. cbn [mbind option_bind]. unfold same_letters. by rewrite bool_decide_eq_true_2.
Qed.

(** Whatever the case of its letters. *)
Lemma route_match_fill path path' ps :
  to_lower path' = to_lower path → length ps = names (segments path) → Forall value_ok ps →
  route_match path (fill path' ps) = Some ps.
Proof.
  intros Hc Hl Hps. unfold route_match, fill. rewrite segments_join.
  - apply match_fill_segments; [|done..]. by rewrite <- !segments_lower, Hc.
  - pose proof (segments_nonnil path') as H. destruct (segments path') as [|x l]; [done|]. cbn [fill_segments]. by destruct (is_name x).
  - apply fill_segments_slashfree; [apply segments_slashfree|done].
Qed.

(** ** Overlap *)

(** Some request path is matched by both, paths in lower case. *)
Fixpoint overlap (p q : list string) : bool :=
  match p, q with
  | [], [] => true
  | x :: p', y :: q' => (is_name x || is_name y || String.eqb x y) && overlap p' q'
  | _, _ => false
  end.

Lemma match_overlap p q l ps qs :
  match_segments p l = Some ps → match_segments q l = Some qs → overlap (map to_lower p) (map to_lower q) = true.
Proof.
  revert q l ps qs. induction p as [|x p IH]; intros [|y q] [|z l] ps qs; cbn [match_segments overlap map]; [done..|].
  intros Hp Hq. apply bind_Some in Hp as (ps' & Hp & Hx), Hq as (qs' & Hq & Hy).
  rewrite (IH _ _ _ _ Hp Hq), andb_true_r, !is_name_lower.
  destruct (is_name x); [done|]. destruct (is_name y); [done|]. cbn [orb]. unfold same_letters in *.
  case_bool_decide as Hxz; [|done]. case_bool_decide as Hyz; [|done]. apply String.eqb_eq. by rewrite Hxz, Hyz.
Qed.

Definition lowered (path : string) : list string := map to_lower (segments path).

(** * The routes of the application *)

Definition route_table : list (string * string) :=
  [("POST", "/api/v1/paychain/mint-authorizations"); ("GET", "/api/v1/paychain/mint-authorizations/:id");
   ("POST", "/api/v1/paychain/mint-authorizations/:id/confirm");
   ("POST", "/api/v1/paychain/funding-instructions"); ("GET", "/api/v1/paychain/funding-instructions/:id");
   ("GET", "/api/v1/paychain/funding-instructions/:id/status");
   ("POST", "/api/v1/paychain/funding-instructions/:id/cancel");
   ("POST", "/api/v1/paychain/redemptions"); ("GET", "/api/v1/paychain/redemptions/:id");
   ("POST", "/api/v1/paychain/redemptions/:id/confirm-burn"); ("GET", "/api/v1/paychain/redemptions/:id/payout");
   ("POST", "/api/v1/paychain/liability-snapshots");
   ("GET", "/api/v1/paychain/reserves/:programId/current");
   ("GET", "/api/v1/paychain/reserves/:programId/mint-capacity");
   ("GET", "/api/v1/paychain/reserves/:programId/history"); ("GET", "/api/v1/paychain/reserves/:programId/ratio");
   ("GET", "/api/v1/paychain/reserve-accounts"); ("GET", "/api/v1/paychain/reserve-accounts/:accountId");
   ("GET", "/api/v1/paychain/reserve-accounts/:accountId/balance");
   ("POST", "/api/v1/paychain/proof-of-reserve/:programId/snapshots");
   ("GET", "/api/v1/paychain/proof-of-reserve/:programId/latest");
   ("GET", "/api/v1/paychain/proof-of-reserve/snapshots/:snapshotId");
   ("POST", "/api/v1/paychain/reconciliations"); ("GET", "/api/v1/paychain/reconciliations/:id");
   ("GET", "/api/v1/paychain/reconciliation-exceptions");
   ("GET", "/api/v1/paychain/attestations"); ("GET", "/api/v1/paychain/attestations/:id");
   ("GET", "/api/v1/paykh/attestations"); ("GET", "/api/v1/paykh/attestations/:id");
   ("POST", "/api/v1/paykh/reconciliations/payment-orders");
   ("POST", "/api/v1/paykh/reconciliations/merchant-settlements");
   ("GET", "/api/v1/paykh/reconciliation-exceptions");
   ("POST", "/api/v1/paykh/merchants"); ("GET", "/api/v1/paykh/merchants/:id");
   ("GET", "/api/v1/paykh/tenants/:tenantId/merchants"); ("POST", "/api/v1/paykh/merchants/:id/status");
   ("POST", "/api/v1/paykh/tenants/:tenantId/payment-profiles");
   ("GET", "/api/v1/paykh/tenants/:tenantId/payment-profiles");
   ("POST", "/api/v1/paykh/payment-profiles/:profileId/verify");
   ("POST", "/api/v1/paykh/payment-profiles/:profileId/activate");
   ("GET", "/api/v1/paykh/payment-profiles/:profileId");
   ("POST", "/api/v1/paykh/payment-profiles/:profileId/suspend"); ("POST", "/api/v1/paykh/payment-orders");
   ("GET", "/api/v1/paykh/payment-orders/:id"); ("GET", "/api/v1/paykh/payment-orders/:id/status");
   ("POST", "/api/v1/paykh/payment-orders/:id/cancel"); ("POST", "/api/v1/paykh/payment-orders/:id/refund");
   ("POST", "/api/v1/paykh/payment-orders/:id/check-payment"); ("POST", "/api/v1/paykh/program-funds");
   ("GET", "/api/v1/paykh/program-funds/:id"); ("GET", "/api/v1/paykh/program-funds/:id/balance");
   ("POST", "/api/v1/paykh/program-funds/:id/fund"); ("POST", "/api/v1/paykh/program-funds/:id/reserve");
   ("POST", "/api/v1/paykh/program-funds/:id/release"); ("POST", "/api/v1/paykh/settlements");
   ("GET", "/api/v1/paykh/settlements/:id"); ("POST", "/api/v1/paykh/settlements/:id/cancel");
   ("POST", "/api/v1/paykh/settlements/:id/approve"); ("POST", "/api/v1/paykh/settlements/:id/confirm");
   ("POST", "/api/v1/paykh/loyalty"); ("GET", "/api/v1/paykh/loyalty/:id");
   ("POST", "/api/v1/paykh/loyalty/:id/issue"); ("POST", "/api/v1/paykh/loyalty/:id/redeem");
   ("POST", "/api/v1/paykh/loyalty/:id/reconcile");
   ("POST", "/api/v1/bank/mint-authorizations/:id/review"); ("POST", "/api/v1/bank/mint-authorizations/:id/approve");
   ("POST", "/api/v1/bank/mint-authorizations/:id/reject"); ("POST", "/api/v1/bank/mint-authorizations/:id/revoke");
   ("POST", "/api/v1/bank/deposits"); ("GET", "/api/v1/bank/deposits/:id");
   ("POST", "/api/v1/bank/deposits/:id/match"); ("POST", "/api/v1/bank/deposits/:id/clear");
   ("POST", "/api/v1/bank/redemptions/:id/approve"); ("POST", "/api/v1/bank/redemptions/:id/submit-payout");
   ("POST", "/api/v1/bank/redemptions/:id/confirm-payout");
   ("POST", "/api/v1/bank/reserves/:programId/adjustments"); ("GET", "/api/v1/bank/reserves/:programId/adjustments");
   ("POST", "/api/v1/bank/reserve-adjustments/:id/lift");
   ("POST", "/api/v1/bank/reserves/:programId/bank-reconcile"); ("GET", "/api/v1/bank/reserves/:programId/accounts");
   ("POST", "/api/v1/bank/bank-connections"); ("GET", "/api/v1/bank/bank-connections");
   ("POST", "/api/v1/bank/reserve-accounts/:id/bank");
   ("POST", "/api/v1/bank/attestations"); ("POST", "/api/v1/bank/attestations/:id/submit");
   ("POST", "/api/v1/bank/attestations/:id/approve"); ("POST", "/api/v1/bank/attestations/:id/publish");
   ("GET", "/api/v1/bank/loyalty-liabilities"); ("GET", "/api/v1/bank/loyalty-liabilities/:id");
   ("POST", "/api/v1/bank/loyalty-liabilities/:id/reconcile");
   ("POST", "/api/v1/trustee/liability-registry"); ("GET", "/api/v1/trustee/liability-registry");
   ("GET", "/api/v1/trustee/programs"); ("GET", "/api/v1/trustee/programs/:id");
   ("GET", "/api/v1/trustee/programs/:id/status");
   ("GET", "/api/v1/admin/ops/programs"); ("GET", "/api/v1/admin/ops/queues");
   ("GET", "/api/v1/admin/ledger/:programId/trial-balance"); ("GET", "/api/v1/admin/ledger/:programId/entries");
   ("GET", "/api/v1/admin/audit"); ("GET", "/api/v1/admin/reports/reserve/:programId");
   ("GET", "/api/v1/admin/reports/liability/:programId"); ("GET", "/api/v1/admin/reconciliations");
   ("GET", "/api/v1/admin/attestations"); ("POST", "/api/v1/admin/proof-of-reserve/:programId/snapshots");
   ("POST", "/api/v1/admin/reconciliations/reserve"); ("POST", "/api/v1/admin/reconciliations/payment-orders");
   ("POST", "/api/v1/admin/settlements/:id/approve"); ("POST", "/api/v1/admin/settlements/:id/confirm");
   ("GET", "/api/v1/admin/permissions"); ("GET", "/api/v1/admin/reserve/:programId"); ("GET", "/api/v1/admin/users");
   ("POST", "/api/v1/admin/users"); ("PUT", "/api/v1/admin/users/:id/roles");
   ("PUT", "/api/v1/admin/users/:id/disabled"); ("GET", "/api/v1/admin/users/:id/effective-permissions");
   ("PUT", "/api/v1/admin/users/:id/password"); ("GET", "/api/v1/admin/roles"); ("PUT", "/api/v1/admin/roles/:slug");
   ("DELETE", "/api/v1/admin/roles/:slug"); ("GET", "/api/v1/admin/policies"); ("POST", "/api/v1/admin/policies");
   ("PUT", "/api/v1/admin/policies/:id"); ("DELETE", "/api/v1/admin/policies/:id");
   ("POST", "/api/v1/admin/policies/evaluate"); ("GET", "/api/v1/admin/feature-flags");
   ("PUT", "/api/v1/admin/feature-flags/:key"); ("GET", "/api/v1/admin/controls");
   ("PUT", "/api/v1/admin/controls/:key"); ("GET", "/api/v1/admin/clients");
   ("PUT", "/api/v1/admin/clients/:platform/key"); ("POST", "/api/v1/admin/clients/:platform/rotate-secret");
   ("PUT", "/api/v1/admin/clients/:platform/webhook"); ("POST", "/api/v1/admin/programs");
   ("POST", "/api/v1/admin/programs/:id/accounts"); ("PUT", "/api/v1/admin/programs/:id/status");
   ("PUT", "/api/v1/admin/clients/:platform/rate-limit"); ("PUT", "/api/v1/admin/clients/:platform/disabled");
   ("GET", "/api/v1/admin/usage"); ("GET", "/api/v1/admin/integration-health"); ("GET", "/api/v1/admin/webhooks");
   ("GET", "/api/v1/admin/webhooks/:id/deliveries"); ("POST", "/api/v1/admin/webhooks/:id/replay");
   ("POST", "/api/v1/admin/webhooks/replay-dead-lettered");
   ("POST", "/api/v1/auth/login"); ("GET", "/api/v1/auth/me"); ("POST", "/api/v1/auth/mfa/setup");
   ("POST", "/api/v1/auth/mfa/enable"); ("POST", "/api/v1/auth/change-password");
   ("POST", "/api/v1/auth/forgot-password"); ("POST", "/api/v1/auth/reset-password");
   ("GET", "/health"); ("GET", "/.well-known/trustee-signing-keys");
   ("GET", "/"); ("GET", "/developers"); ("GET", "/status")].

Lemma route_listed c : (rt_method (route c), rt_path (route c)) ∈ route_table.
Proof.
  destruct c as [c|c|c|c|c|c|c|c|c|c|c|c|c|c|c|c|c|c|c|c|c|c|c]; destruct c;
    apply (bool_decide_unpack _); vm_compute; exact I.
Qed.

(** The only two routes of a method that a path can match both of:
    [/proof-of-reserve/snapshots/latest]. *)
Definition shared : list string :=
  ["/api/v1/paychain/proof-of-reserve/:programId/latest"; "/api/v1/paychain/proof-of-reserve/snapshots/:snapshotId"].

Definition apart (r r' : string * string) (path path' : list string) : bool :=
  negb (String.eqb r.1 r'.1) || negb (overlap path path') || String.eqb r.2 r'.2 ||
  (bool_decide (r.2 ∈ shared) && bool_decide (r'.2 ∈ shared)).

Lemma table_apart :
  let table := map (λ r, (r, lowered r.2)) route_table in
  forallb (λ r, forallb (λ r', apart r.1 r'.1 r.2 r'.2) table) table = true.
Proof. vm_compute. reflexivity. Qed.

(** The names of a route are as many as its values. *)
Lemma route_names c : length (rt_params (route c)) = names (segments (rt_path (route c))).
Proof. destruct c as [c|c|c|c|c|c|c|c|c|c|c|c|c|c|c|c|c|c|c|c|c|c|c]; destruct c; reflexivity. Qed.

Lemma table_nodup : NoDup route_table.
Proof. apply (bool_decide_unpack _). vm_compute. exact I. Qed.

(** No route hides another.  The path that a call fills in is matched by
    the route of the call, with the values it was given; and if a path is matched by
    the routes of two calls of one HTTP method, in whatever case its letters are,
    the two are declared alike, but for [/proof-of-reserve/snapshots/latest], which
    is both the latest proof of a program and a snapshot by its id. *)
Theorem routes_unambiguous c :
  (Forall value_ok (rt_params (route c)) →
     route_match (rt_path (route c)) (fill (rt_path (route c)) (rt_params (route c))) = Some (rt_params (route c))) ∧
  ∀ c' q ps ps', rt_method (route c) = rt_method (route c') →
    route_match (rt_path (route c)) q = Some ps → route_match (rt_path (route c')) q = Some ps' →
    (rt_path (route c) = rt_path (route c') ∧ ps = ps') ∨
    (rt_path (route c) ∈ shared ∧ rt_path (route c') ∈ shared).
Proof.
  split; [intros Hps; apply route_match_fill; [done|apply route_names|done]|].
  intros c' q ps ps' Hm Hq Hq'. pose proof (match_overlap _ _ _ _ _ Hq Hq') as Ho.
  pose proof table_apart as H. cbv zeta in H. rewrite forallb_forall in H.
  specialize (H _ (in_map (λ r, (r, lowered r.2)) _ _ (proj1 (list_elem_of_In _ _) (route_listed c)))).
  rewrite forallb_forall in H.
  specialize (H _ (in_map (λ r, (r, lowered r.2)) _ _ (proj1 (list_elem_of_In _ _) (route_listed c')))).
  unfold apart, lowered in H. cbn [fst snd] in H. rewrite Ho, (proj2 (String.eqb_eq _ _) Hm) in H. cbn [negb orb] in H.
  apply orb_true_iff in H as [H|H].
  - apply String.eqb_eq in H. left. split; [done|]. rewrite <- H in Hq'. congruence.
  - apply andb_true_iff in H as [H1 H2]. right. by apply bool_decide_eq_true in H1, H2.
Qed.
