(* ===== verification/System.v ===== *)
(** What holds of the database after any number of concurrent requests.

    Every theorem of this file is about [Platform.reachable]: all the handlers of
    [Platform.handler], any schedule of their database calls, any crash.  The
    scenario at the end runs one of each flow to completion and is the witness
    of all of them. *)
From S2P Require Import Prelude.
From S2P Require Import Money.
From S2P Require Import Domain.
From S2P Require Import Ledger.
From S2P Require Import Prog.
From S2P Require Import Crypto.
From S2P Require Import Schema.
From S2P Require Import Prisma.
From S2P Require Import Infra.
From S2P Require Import LedgerService.
From S2P Require Import Invariant.
From S2P Require MintService.
From S2P Require Deposits.
From S2P Require Redemption.
From S2P Require Paykh.
From S2P Require Import Platform.
From S2P Require Import Demo.
#[local] Open Scope string_scope.
#[local] Open Scope list_scope.
#[local] Open Scope Z_scope.

(** * The scenario of the witnesses *)

Section scenario.
Local Existing Instance demo_runtime.
Local Existing Instance ref_client.

Definition demo_handlers : list (prog World jsval) :=
  [Deposits.Funding.create_instruction demo_env
     (Deposits.Funding.mkCreateFundingInstruction "p" "fr" "PUSD" "payer" None "acc" "1000" "USD"
        "BANK_TRANSFER" None "ops");
   Deposits.register demo_env (Deposits.mkRegisterDeposit "p" "acc" "bt1" "1000" "USD" None None "0" "ops");
   Deposits.match_deposit demo_env "c" "c" "ops"; Deposits.clear demo_env "c" "ops"].

Definition demo_liability : Redemption.Liability.LiabilitySnapshotInput :=
  Redemption.Liability.mkLiabilitySnapshotInput "p" "PUSD" "PUSD" "stellar" "G" "100" "0" "0" "0" "0" "0"
    "0" "100" "USD" "l" "1" "1" "0" None.

Definition demo_mint : list (prog World jsval) :=
  [MintService.request (MintService.mkRequestMintAuthorization "p" "mr" "500" ["c"] None None);
   MintService.review "c" "maker"; MintService.approve demo_env "c" "checker" "ok";
   MintService.confirm demo_env "c"
     (MintService.mkConfirmMintInput "ptx" "hash" "500" "dest" (Some "7") "0" "sig" "paychain")].

Definition demo_redemption : list (prog World jsval) :=
  [Redemption.request (Redemption.mkRequestRedemption "p" "rr" "50" "Bob" "***9" None);
   Redemption.approve demo_env "c" "checker" "ok"; Redemption.confirmBurn demo_env "c" "burn" "paychain";
   Redemption.submitPayout demo_env "c" "ops"; Redemption.confirmPayout demo_env "c" "ops"].

Definition demo_paykh : list (prog World jsval) :=
  [Paykh.Profiles.submit (Paykh.Profiles.mkSubmitPaymentProfile "t" "Shop" "***2" "Bank" "USD" "khqr" "ops");
   Paykh.Profiles.verify_profile demo_env "c" "ops"; Paykh.Profiles.activate "c" "ops";
   Paykh.Orders.create_order (Paykh.Orders.mkCreatePaymentOrder "t" "c" "30" "USD" None "ops");
   Paykh.Orders.checkPayment demo_env "c"
     (Paykh.Orders.mkCheckPaymentInput "bt9" "30" "USD" "KHQR-UUID-3" "***2" "acc" "ops");
   Paykh.Settlements.create_settlement "t" "m" "20" "USD" "maker";
   Paykh.Settlements.approve demo_env "c" "checker"; Paykh.Settlements.confirm demo_env "c" "ops"].

(** A deposit funded and cleared, a liability snapshot, a mint issued and
    confirmed, a redemption paid out, a payment order collected and a settlement
    paid. *)
Definition demo_requests : list (prog World unit) :=
  map discard demo_handlers ++ [discard (Redemption.Liability.ingest demo_env demo_liability)] ++
  map discard (demo_mint ++ demo_redemption ++ demo_paykh).

Definition serve (w : World) (ps : list (prog World unit)) : World := fold_left (λ w p, (run p w).2) ps w.

Definition demo_final : World := serve demo_world demo_requests.
End scenario.

(** * The ledger and the history *)

Section properties.
Context `{RT : !Runtime} `{PC : !PrismaClient} (env : Env) (webhookKey : option SigningKey).
Abbreviation reaches := (reachable env webhookKey) (only parsing).

(** Tables whose rows never change and never go. *)
Definition append_only : list table :=
  [TLedgerEntry; TLedgerPosting; TAuditLog; TMintConfirmation; TLiabilitySnapshot; TReserveSnapshot;
   TWebhookDelivery; TIdempotencyKey; TPaykhLoyaltyIssuance].

Lemma append_only_eq t : t ∈ append_only → deletable t = false ∧ ∀ r r', evolves t r r' → r = r'.
Proof.
  unfold append_only. intros H. repeat (apply elem_of_cons in H as [->|H]; [split; [done|by intros]|]).
  by apply not_elem_of_nil in H.
Qed.

(** The facts of a row of a reachable database. *)
Lemma reachable_row w w' t k r :
  good w → reaches w w' → tbl w' t !! k = Some r → row_key t r = k ∧ row_inv t r w'.
Proof.
  intros Hg H Hr. destruct (reachable_good env webhookKey w w' Hg H) as [Hg' _].
  split; [by apply (good_key w' Hg')|by apply (good_row w' Hg' t k)].
Qed.

Lemma reachable_unique w w' t k k' r r' :
  good w → reaches w w' → tbl w' t !! k = Some r → tbl w' t !! k' = Some r' →
  shares_key t r r' = true → k = k'.
Proof.
  intros Hg H. destruct (reachable_good env webhookKey w w' Hg H) as [Hg' _]. apply (good_unique w' Hg').
Qed.

(** Claim C3 (double entry).  Whatever requests run concurrently, from a
    consistent database, however their calls interleave and wherever they
    crash: every stored journal entry has the totals of its own stored postings,
    which balance and are positive; every posting is one-sided, positive and
    belongs to a stored entry; and the trustee's balance check answers that
    every program's subledger nets to zero. *)
Theorem ledger_double_entry w w' (Hg : good w) (H : reaches w w') :
  (∀ k e, tbl w' TLedgerEntry !! k = Some e →
     0 < LedgerEntry.totalDebitMinor e ∧
     entry_debits w' k = LedgerEntry.totalDebitMinor e ∧
     entry_credits w' k = LedgerEntry.totalDebitMinor e) ∧
  (∀ k p, tbl w' TLedgerPosting !! k = Some p →
     is_Some (tbl w' TLedgerEntry !! LedgerPosting.entryId p) ∧
     ((0 < LedgerPosting.debitMinor p ∧ LedgerPosting.creditMinor p = 0) ∨
      (LedgerPosting.debitMinor p = 0 ∧ 0 < LedgerPosting.creditMinor p))) ∧
  (∀ programId, run (subledgerBalances programId) w' = (Ok (true, 0), w')).
Proof.
  destruct (reachable_good env webhookKey w w' Hg H) as [Hg' _]. pose proof (good_ledger w' Hg') as Hl.
  split_and!.
  - intros k e He. destruct (ledger_entry_balanced w' Hl k e He) as (_ & ? & Ht & ? & ?).
    rewrite Ht in *. by split_and!.
  - intros k p Hp. by apply (ledger_posting_entry w' Hl k p).
  - intros p. by apply run_subledgerBalances.
Qed.

(** Claim C11 (append-only history).  No sequence of requests changes or removes
    a journal entry or posting, an audit record, a mint confirmation, a liability
    or reserve snapshot, a delivery log line, a recorded idempotent response or a
    loyalty issuance; and no row of any table but roles and approval policies
    disappears. *)
Theorem history_append_only w w' (Hg : good w) (H : reaches w w') :
  (∀ t k r, t ∈ append_only → tbl w t !! k = Some r → tbl w' t !! k = Some r) ∧
  (∀ t k, deletable t = false → is_Some (tbl w t !! k) → is_Some (tbl w' t !! k)).
Proof.
  destruct (reachable_good env webhookKey w w' Hg H) as [_ HL]. split.
  - intros t k r [Hd He]%append_only_eq Hr. by apply (later_eq w w').
  - intros t k Hd [r Hr]. destruct (later_row w w' HL t k r Hr Hd) as (r' & Hr' & _). by exists r'.
Qed.

(** * The records *)

(** Claim C12 (what was agreed stays agreed).  The program, asset, amount,
    currency, nonce and funding deposits of a mint authorization, the amount,
    account and bank transaction of a deposit, the amount and beneficiary of a
    redemption, the amount and reference of a payment order and the amount and
    merchant of a settlement never change once recorded, whatever requests run;
    and a signature, an approver, a burn hash, a payout reference or a matched
    bank transaction once recorded is never erased. *)
Theorem records_immutable w w' (Hg : good w) (H : reaches w w') :
  (∀ k a, tbl w TMintAuthorization !! k = Some a → ∃ a', tbl w' TMintAuthorization !! k = Some a' ∧
     MintAuthorization.programId a' = MintAuthorization.programId a ∧
     MintAuthorization.assetId a' = MintAuthorization.assetId a ∧
     MintAuthorization.amountMinor a' = MintAuthorization.amountMinor a ∧
     MintAuthorization.currency a' = MintAuthorization.currency a ∧
     MintAuthorization.nonce a' = MintAuthorization.nonce a ∧
     MintAuthorization.fundingDepositIds a' = MintAuthorization.fundingDepositIds a ∧
     (is_Some (MintAuthorization.signatureValue a) → is_Some (MintAuthorization.signatureValue a'))) ∧
  (∀ k d, tbl w TDeposit !! k = Some d → ∃ d', tbl w' TDeposit !! k = Some d' ∧
     Deposit.amountMinor d' = Deposit.amountMinor d ∧ Deposit.currency d' = Deposit.currency d ∧
     Deposit.trusteeAccountId d' = Deposit.trusteeAccountId d ∧
     Deposit.bankTransactionId d' = Deposit.bankTransactionId d) ∧
  (∀ k r, tbl w TRedemption !! k = Some r → ∃ r', tbl w' TRedemption !! k = Some r' ∧
     Redemption.amountMinor r' = Redemption.amountMinor r ∧
     Redemption.currency r' = Redemption.currency r ∧
     Redemption.beneficiaryAccountMasked r' = Redemption.beneficiaryAccountMasked r ∧
     (is_Some (Redemption.approvedById r) → is_Some (Redemption.approvedById r')) ∧
     (is_Some (Redemption.burnTxHash r) → is_Some (Redemption.burnTxHash r')) ∧
     (is_Some (Redemption.payoutReference r) → is_Some (Redemption.payoutReference r'))) ∧
  (∀ k o, tbl w TPaykhPaymentOrder !! k = Some o → ∃ o', tbl w' TPaykhPaymentOrder !! k = Some o' ∧
     PaykhPaymentOrder.amountMinor o' = PaykhPaymentOrder.amountMinor o ∧
     PaykhPaymentOrder.paymentReference o' = PaykhPaymentOrder.paymentReference o ∧
     (is_Some (PaykhPaymentOrder.matchedBankTransactionId o) →
      is_Some (PaykhPaymentOrder.matchedBankTransactionId o'))) ∧
  (∀ k s, tbl w TPaykhSettlement !! k = Some s → ∃ s', tbl w' TPaykhSettlement !! k = Some s' ∧
     PaykhSettlement.amountMinor s' = PaykhSettlement.amountMinor s ∧
     PaykhSettlement.merchantId s' = PaykhSettlement.merchantId s).
Proof.
  destruct (reachable_good env webhookKey w w' Hg H) as [_ HL].
  pose proof (later_row w w' HL) as Hrow. split_and!; intros k r Hr.
  - destruct (Hrow TMintAuthorization k r Hr eq_refl) as (r' & Hr' & E & S & _). exists r'.
    destruct r, r'; injection E as; cbn in *; subst; by split_and!.
  - destruct (Hrow TDeposit k r Hr eq_refl) as (r' & Hr' & E & _). exists r'.
    destruct r, r'; injection E as; cbn in *; subst; by split_and!.
  - destruct (Hrow TRedemption k r Hr eq_refl) as (r' & Hr' & E & ? & ? & ?). exists r'.
    destruct r, r'; injection E as; cbn in *; subst; by split_and!.
  - destruct (Hrow TPaykhPaymentOrder k r Hr eq_refl) as (r' & Hr' & E & ?). exists r'.
    destruct r, r'; injection E as; cbn in *; subst; by split_and!.
  - destruct (Hrow TPaykhSettlement k r Hr eq_refl) as (r' & Hr' & E & _). exists r'.
    destruct r, r'; injection E as; cbn in *; subst; by split_and!.
Qed.

(** Claim C6 (mint authorizations).  In every reachable database, an
    authorization is for a positive amount; one that left PENDING_MAKER has an
    approval record; one that is ISSUED or CONSUMED is signed, has an expiry, and
    its reservation for exactly its amount is in the ledger; one that is CONSUMED
    was confirmed for exactly its amount, the release is in the ledger, and there
    is exactly one confirmation of it: an authorization is single-use. *)
Theorem mint_authorizations_sound w w' (Hg : good w) (H : reaches w w') k a
    (Ha : tbl w' TMintAuthorization !! k = Some a) :
  MintAuthorization.id a = k ∧ 0 < MintAuthorization.amountMinor a ∧
  (MintAuthorization.status a ≠ PENDING_MAKER →
     ∃ i ap, tbl w' TApproval !! i = Some ap ∧ Approval.mintAuthorizationId ap = Some k) ∧
  (MintAuthorization.status a ∈ [ISSUED; CONSUMED] →
     is_Some (MintAuthorization.signatureValue a) ∧ is_Some (MintAuthorization.expiresAt a) ∧
     booked ("mint-auth:" +:+ k) (MintAuthorization.amountMinor a) w') ∧
  (MintAuthorization.status a = CONSUMED →
     booked ("mint-confirm:" +:+ k) (MintAuthorization.amountMinor a) w' ∧
     ∃ i c, tbl w' TMintConfirmation !! i = Some c ∧ MintConfirmation.mintAuthorizationId c = k ∧
       MintConfirmation.amountMinor c = MintAuthorization.amountMinor a ∧
       ∀ j c', tbl w' TMintConfirmation !! j = Some c' →
         MintConfirmation.mintAuthorizationId c' = k → j = i).
Proof.
  destruct (reachable_row w w' TMintAuthorization k a Hg H Ha) as [Hk Hi]. cbn in Hk. subst k.
  destruct Hi as (Hpos & Hap & Hs & Hc).
  split_and!; [done|done|naive_solver| |].
  - rewrite !elem_of_cons, elem_of_nil. intros [?|[?|[]]]; apply Hs; auto.
  - intros Hst. destruct (Hc Hst) as (Hb & i & c & Hi & Hid & Hamt). split; [done|].
    exists i, c. split_and!; [done..|]. intros j c' Hj Hj'.
    apply (reachable_unique w w' TMintConfirmation j i c' c Hg H Hj Hi).
    unfold shares_key. cbn. rewrite Hid, Hj', bool_decide_true; done.
Qed.

(** Claim C7 (segregation of duties).  In every reachable database, the maker of
    an approval is a trustee-bank user, the checker is never the maker, an
    approval that is APPROVED has a checker, an authorization has at most one
    approval record, and whoever approved a redemption is a trustee-bank user. *)
Theorem duties_segregated w w' (Hg : good w) (H : reaches w w') :
  (∀ k ap, tbl w' TApproval !! k = Some ap →
     is_user "TRUSTEE_BANK" (Approval.makerId ap) w' ∧
     Approval.checkerId ap ≠ Some (Approval.makerId ap) ∧
     (Approval.decision ap = DECISION_APPROVED → is_Some (Approval.checkerId ap))) ∧
  (∀ k k' ap ap' m, tbl w' TApproval !! k = Some ap → tbl w' TApproval !! k' = Some ap' →
     Approval.mintAuthorizationId ap = Some m → Approval.mintAuthorizationId ap' = Some m → k = k') ∧
  (∀ k r u, tbl w' TRedemption !! k = Some r → Redemption.approvedById r = Some u →
     is_user "TRUSTEE_BANK" u w').
Proof.
  split_and!.
  - intros k ap Hap. destruct (reachable_row w w' TApproval k ap Hg H Hap) as [_ (Hm & Hc & Hd)].
    split_and!; [done| |done]. intros E. by apply (Hc _ E).
  - intros k k' ap ap' m H1 H2 E1 E2.
    apply (reachable_unique w w' TApproval k k' ap ap' Hg H H1 H2).
    unfold shares_key. cbn. rewrite E1, E2. cbn. by rewrite bool_decide_true.
  - intros k r u Hr Hu. destruct (reachable_row w w' TRedemption k r Hg H Hr) as [_ Hi].
    destruct Hi as (_ & _ & Hap & _). by apply Hap.
Qed.

(** Claim C15 (deposits).  In every reachable database a deposit is DETECTED,
    MATCHED or CLEARED; one that is matched or cleared names a funding
    instruction that exists and is for exactly its amount and currency; one that
    is CLEARED, the only status minting accepts, has its clearance in the ledger
    for exactly its amount; and no bank transaction is the source of two
    deposits. *)
Theorem deposits_sound w w' (Hg : good w) (H : reaches w w') k d
    (Hd : tbl w' TDeposit !! k = Some d) :
  Deposit.status d ∈ [DETECTED; MATCHED; CLEARED] ∧
  (Deposit.status d ≠ DETECTED → ∃ f fi, Deposit.fundingInstructionId d = Some f ∧
     tbl w' TFundingInstruction !! f = Some fi ∧
     FundingInstruction.amountMinor fi = Deposit.amountMinor d ∧
     FundingInstruction.currency fi = Deposit.currency d) ∧
  (Deposit.status d ∈ MINT_ELIGIBLE_DEPOSIT_STATUSES →
     0 < Deposit.amountMinor d ∧ booked ("deposit-clear:" +:+ k) (Deposit.amountMinor d) w') ∧
  (∀ k' d', tbl w' TDeposit !! k' = Some d' →
     Deposit.bankTransactionId d' = Deposit.bankTransactionId d → k' = k).
Proof.
  destruct (reachable_row w w' TDeposit k d Hg H Hd) as [Hk (Hf & Hm & Hc & Hs)]. cbn in Hk. subst k.
  split_and!; [done| | |].
  - intros Hne. destruct Hm as [f Ef].
    { rewrite !elem_of_cons, elem_of_nil in Hs. naive_solver. }
    destruct (Hf f Ef) as (fi & ? & ? & ?). by exists f, fi.
  - intros He. apply Hc. unfold MINT_ELIGIBLE_DEPOSIT_STATUSES in He.
    clear - Hs He. destruct (Deposit.status d); set_solver.
  - intros k' d' Hd' E. apply (reachable_unique w w' TDeposit k' (Deposit.id d) d' d Hg H Hd' Hd).
    unfold shares_key. cbn. rewrite E. by rewrite bool_decide_true.
Qed.


(** Claim C17 (payment orders).  In every reachable database a CONFIRMED or
    REFUNDED payment order names the bank transaction that paid it, no other
    order names the same one, and its collection is in the ledger for exactly
    its amount; a REFUNDED one also has its refund there. *)
Theorem payment_orders_sound w w' (Hg : good w) (H : reaches w w') k o
    (Ho : tbl w' TPaykhPaymentOrder !! k = Some o)
    (Hst : PaykhPaymentOrder.status o ∈ [ORDER_CONFIRMED; ORDER_REFUNDED]) :
  (∃ txn, PaykhPaymentOrder.matchedBankTransactionId o = Some txn ∧
     ∀ k' o', tbl w' TPaykhPaymentOrder !! k' = Some o' →
       PaykhPaymentOrder.matchedBankTransactionId o' = Some txn → k' = k) ∧
  booked ("paykh-order:" +:+ k) (PaykhPaymentOrder.amountMinor o) w' ∧
  (PaykhPaymentOrder.status o = ORDER_REFUNDED →
     booked ("paykh-refund:" +:+ k) (PaykhPaymentOrder.amountMinor o) w').
Proof.
  destruct (reachable_row w w' TPaykhPaymentOrder k o Hg H Ho) as [Hk (Hc & Hr)]. cbn in Hk. subst k.
  destruct Hc as [[txn Et] Hb].
  { rewrite !elem_of_cons, elem_of_nil in Hst. naive_solver. }
  split_and!; [|done|done]. exists txn. split; [done|]. intros k' o' Ho' Et'.
  apply (reachable_unique w w' TPaykhPaymentOrder k' (PaykhPaymentOrder.id o) o' o Hg H Ho' Ho).
  apply (shares_key_intro _ _ _ ("matchedBankTransactionId", [txn])); cbn; rewrite ?Et, ?Et'; set_solver.
Qed.

(** Claim C18 (settlements).  In every reachable database an APPROVED or
    CONFIRMED settlement has an approver, and a CONFIRMED one has its payment in
    the ledger for exactly its amount. *)
Theorem settlements_sound w w' (Hg : good w) (H : reaches w w') k s
    (Hs : tbl w' TPaykhSettlement !! k = Some s) :
  (PaykhSettlement.status s ∈ [SETTLEMENT_APPROVED; SETTLEMENT_CONFIRMED] →
     is_Some (PaykhSettlement.approvedById s)) ∧
  (PaykhSettlement.status s = SETTLEMENT_CONFIRMED →
     booked ("paykh-settlement:" +:+ k) (PaykhSettlement.amountMinor s) w').
Proof.
  destruct (reachable_row w w' TPaykhSettlement k s Hg H Hs) as [Hk (Ha & Hc & _)]. cbn in Hk. subst k.
  split; [|done]. rewrite !elem_of_cons, elem_of_nil. intros [?|[?|[]]]; apply Ha; auto.
Qed.

(** Liability feed.  In every reachable database each liability
    snapshot was accepted as verified, and no two snapshots of a program carry
    the same sequence number: a feed message is applied at most once. *)
Theorem liability_feed_sound w w' (Hg : good w) (H : reaches w w') :
  (∀ k s, tbl w' TLiabilitySnapshot !! k = Some s → LiabilitySnapshot.signatureVerified s = true) ∧
  (∀ k k' s s', tbl w' TLiabilitySnapshot !! k = Some s → tbl w' TLiabilitySnapshot !! k' = Some s' →
     LiabilitySnapshot.programId s = LiabilitySnapshot.programId s' →
     LiabilitySnapshot.sequence s = LiabilitySnapshot.sequence s' → k = k').
Proof.
  split.
  - intros k s Hs. by destruct (reachable_row w w' TLiabilitySnapshot k s Hg H Hs).
  - intros k k' s s' H1 H2 Ep Es.
    apply (reachable_unique w w' TLiabilitySnapshot k k' s s' Hg H H1 H2).
    unfold shares_key. cbn. rewrite Ep, Es. by rewrite bool_decide_true.
Qed.
End properties.

(** * Witnesses *)

Lemma reachable_serve `{RT : !Runtime} `{PC : !PrismaClient} env key w ps :
  Forall (request env key) ps → reachable env key w (serve w ps).
Proof.
  intros Hps. unfold serve. pose proof (reachable_refl env key w) as H. revert H. generalize w at 2 4.
  induction Hps as [|p ps Hp _ IH]; intros w' H; cbn; [done|]. apply IH. by apply reachable_run.
Qed.

Lemma demo_requests_all : Forall (request (RT := demo_runtime) (PC := ref_client) demo_env None) demo_requests.
Proof.
  unfold demo_requests, demo_handlers, demo_mint, demo_redemption, demo_paykh. cbn [map app].
  repeat (apply Forall_cons; split; [first [by apply r_liability|apply r_handler; by constructor]|]).
  by apply Forall_nil.
Qed.

Lemma demo_reached : reachable (RT := demo_runtime) (PC := ref_client) demo_env None demo_world demo_final.
Proof. apply (reachable_serve (RT := demo_runtime) (PC := ref_client)), demo_requests_all. Qed.

(** Every prefix of the scenario leaves a consistent database. *)
Lemma good_prefix n : good (serve demo_world (take n demo_requests)).
Proof.
  eapply (reachable_good (RT := demo_runtime) (PC := ref_client)); [exact good_demo|].
  apply (reachable_serve (RT := demo_runtime) (PC := ref_client)). apply Forall_take, demo_requests_all.
Qed.

(** A row of the final database, with what the scenario left in it. *)
Ltac demo_row := eexists; split_and!; vm_compute; reflexivity.

Lemma demo_final_mint : ∃ a, tbl demo_final TMintAuthorization !! "c" = Some a ∧
  MintAuthorization.status a = CONSUMED ∧ MintAuthorization.amountMinor a = 500.
Proof. demo_row. Qed.

Lemma demo_final_deposit : ∃ d, tbl demo_final TDeposit !! "c" = Some d ∧
  Deposit.status d = CLEARED ∧ Deposit.amountMinor d = 1000.
Proof. demo_row. Qed.


Lemma demo_final_order : ∃ o, tbl demo_final TPaykhPaymentOrder !! "c" = Some o ∧
  PaykhPaymentOrder.status o = ORDER_CONFIRMED ∧ PaykhPaymentOrder.amountMinor o = 30.
Proof. demo_row. Qed.

Lemma demo_final_settlement : ∃ s, tbl demo_final TPaykhSettlement !! "c" = Some s ∧
  PaykhSettlement.status s = SETTLEMENT_CONFIRMED ∧ PaykhSettlement.amountMinor s = 20.
Proof. demo_row. Qed.

Lemma ledger_double_entry_witness :
  run (subledgerBalances (PC := ref_client) "p") demo_final = (Ok (true, 0), demo_final).
Proof.
  apply (@ledger_double_entry demo_runtime ref_client demo_env None demo_world demo_final good_demo demo_reached).
Defined.

Lemma history_append_only_witness : is_Some (tbl demo_final TProgram !! "p").
Proof.
  apply (@history_append_only demo_runtime ref_client demo_env None demo_world demo_final good_demo demo_reached);
    [reflexivity|]. exists demo_program. vm_compute. reflexivity.
Defined.

Lemma good_demo_final : good demo_final.
Proof. apply (reachable_good _ _ _ _ good_demo demo_reached). Qed.

(** One more request on the final database. *)
Definition demo_after : World :=
  serve demo_final [discard (MintService.reject (RT := demo_runtime) (PC := ref_client) demo_env "c" "checker" "late")].

Lemma demo_after_reached : reachable (RT := demo_runtime) (PC := ref_client) demo_env None demo_final demo_after.
Proof.
  apply (reachable_serve (RT := demo_runtime) (PC := ref_client)).
  apply Forall_cons; split; [apply r_handler; by constructor|by apply Forall_nil].
Qed.

Lemma records_immutable_witness :
  ∃ a, tbl demo_after TMintAuthorization !! "c" = Some a ∧ MintAuthorization.amountMinor a = 500.
Proof.
  destruct demo_final_mint as (a & Ha & _ & Hz).
  destruct (@records_immutable demo_runtime ref_client demo_env None demo_final demo_after
              good_demo_final demo_after_reached) as (Hm & _).
  destruct (Hm "c" a Ha) as (a' & Ha' & _ & _ & E & _). exists a'. split; [exact Ha'|].
  rewrite E. exact Hz.
Defined.

Lemma mint_authorizations_sound_witness : booked "mint-confirm:c" 500 demo_final.
Proof.
  destruct demo_final_mint as (a & Ha & Hs & Hz).
  destruct (@mint_authorizations_sound demo_runtime ref_client demo_env None demo_world demo_final
              good_demo demo_reached "c" a Ha) as (_ & _ & _ & _ & H).
  rewrite <- Hz. exact (proj1 (H Hs)).
Defined.

Lemma demo_final_approval : ∃ ap, tbl demo_final TApproval !! "c" = Some ap ∧
  Approval.makerId ap = "maker" ∧ Approval.checkerId ap = Some "checker".
Proof. demo_row. Qed.

Lemma duties_segregated_witness :
  ∃ ap, tbl demo_final TApproval !! "c" = Some ap ∧ Approval.checkerId ap = Some "checker" ∧
        Approval.checkerId ap ≠ Some (Approval.makerId ap).
Proof.
  destruct demo_final_approval as (ap & Hap & _ & Hc).
  destruct (@duties_segregated demo_runtime ref_client demo_env None demo_world demo_final
              good_demo demo_reached) as (H & _).
  destruct (H "c" ap Hap) as (_ & Hne & _). exact (ex_intro _ ap (conj Hap (conj Hc Hne))).
Defined.

Lemma deposits_sound_witness : booked "deposit-clear:c" 1000 demo_final.
Proof.
  destruct demo_final_deposit as (d & Hd & Hs & Hz).
  destruct (@deposits_sound demo_runtime ref_client demo_env None demo_world demo_final
              good_demo demo_reached "c" d Hd) as (_ & _ & H & _).
  rewrite <- Hz. apply H. rewrite Hs. apply list_elem_of_here.
Defined.


Lemma payment_orders_sound_witness : booked "paykh-order:c" 30 demo_final.
Proof.
  destruct demo_final_order as (o & Ho & Hs & Hz).
  destruct (@payment_orders_sound demo_runtime ref_client demo_env None demo_world demo_final
              good_demo demo_reached "c" o Ho) as (_ & H & _).
  - rewrite Hs. apply list_elem_of_here.
  - rewrite <- Hz. exact H.
Defined.

Lemma settlements_sound_witness : booked "paykh-settlement:c" 20 demo_final.
Proof.
  destruct demo_final_settlement as (s & Hs & Hst & Hz).
  destruct (@settlements_sound demo_runtime ref_client demo_env None demo_world demo_final
              good_demo demo_reached "c" s Hs) as (_ & H).
  rewrite <- Hz. exact (H Hst).
Defined.

Lemma demo_final_snapshot : ∃ s, tbl demo_final TLiabilitySnapshot !! "c" = Some s ∧
  LiabilitySnapshot.sequence s = 1.
Proof. eexists. split; vm_compute; reflexivity. Qed.

Lemma liability_feed_sound_witness :
  ∃ s, tbl demo_final TLiabilitySnapshot !! "c" = Some s ∧ LiabilitySnapshot.signatureVerified s = true.
Proof.
  destruct demo_final_snapshot as (s & Hs & _).
  destruct (@liability_feed_sound demo_runtime ref_client demo_env None demo_world demo_final
                  good_demo demo_reached) as [H _].
  exact (ex_intro _ s (conj Hs (H "c" s Hs))).
Defined.
