(* ===== verification/Book.v ===== *)
(** The account book: what the stored ledger promises to everyone who reads balances.

    A [Book] gives every account of every program and currency a balance; the only
    thing that ever happens to it is a movement, one of the twelve kinds of
    [Ledger.BookKind], of a positive amount between the two accounts of its kind.
    The refinement theorem says that, whatever requests run and however they
    interleave, crash and retry, the balances the ledger service answers change by
    a list of such movements and nothing else. *)
From S2P Require Import Prelude.
From S2P Require Import Money.
From S2P Require Import Ledger.
From S2P Require Import Prog.
From S2P Require Import Crypto.
From S2P Require Import Schema.
From S2P Require Import Prisma.
From S2P Require Import Infra.
From S2P Require Import LedgerService.
From S2P Require Import Invariant.
From S2P Require Import Demo.
From S2P Require Import Platform.
From S2P Require Import System.
#[local] Open Scope string_scope.
#[local] Open Scope list_scope.
#[local] Open Scope Z_scope.

(** * The abstract book *)

(** Balances by program, currency and account, positive on the account's own side. *)
Definition Book : Type := string → string → string → Z.

Record Movement : Type := mkMovement {
  mv_kind : BookKind; mv_program : string; mv_currency : string; mv_amount : Z
}.

(** What a booking of a kind does to an account. *)
Definition kind_effect (k : BookKind) (z : Z) (acct : string) (dp : bool) : Z :=
  transfer_effect (book_debit k) (book_credit k) acct dp z.

Definition normal_debit (acct : string) : bool :=
  match ledgerAccountTypeOf acct with Ok t => debit_positive t | Err _ => true end.

Definition move (b : Book) (m : Movement) : Book := λ p c a,
  b p c a + (if bool_decide (mv_program m = p) && bool_decide (mv_currency m = c)
             then kind_effect (mv_kind m) (mv_amount m) a (normal_debit a) else 0).

Definition run_book (ms : list Movement) (b : Book) : Book := fold_left move ms b.

(** The book of a stored ledger. *)
Definition book_of (w : World) : Book := λ p c a, ledger_balance w p a c.

(** The accounts the movements use besides cash. *)
Definition book_liabilities : list string :=
  [LIABILITY_PAYCHAIN_RESERVE_OBLIGATION; LIABILITY_PENDING_MINT; LIABILITY_PENDING_REDEMPTION;
   LIABILITY_UNMATCHED_DEPOSIT; LIABILITY_PAYKH_MERCHANT_PAYABLE; LIABILITY_PAYKH_PROGRAM_FUND;
   LIABILITY_PAYKH_LOYALTY_STABLECOIN].

(** Cash less what it is owed to. *)
Definition net_assets (b : Book) (p c : string) : Z :=
  b p c ASSET_TRUSTEE_BANK_CASH - sumZ (b p c) book_liabilities.

Lemma run_book_sum ms b p c a :
  run_book ms b p c a = b p c a + sumZ (λ m, if bool_decide (mv_program m = p) && bool_decide (mv_currency m = c)
                                             then kind_effect (mv_kind m) (mv_amount m) a (normal_debit a) else 0) ms.
Proof.
  unfold run_book. revert b. induction ms as [|m ms IH]; intros b; cbn [fold_left sumZ]; [lia|].
  rewrite IH. unfold move. lia.
Qed.

Lemma kind_effect_unit k z a dp : kind_effect k z a dp = z * kind_effect k 1 a dp.
Proof. unfold kind_effect, transfer_effect. destruct (bool_decide (_ = _)), (bool_decide (_ = _)), dp; lia. Qed.

(** Every movement keeps the net assets, and leaves other accounts alone. *)
Lemma kind_effect_balanced k z :
  kind_effect k z ASSET_TRUSTEE_BANK_CASH (normal_debit ASSET_TRUSTEE_BANK_CASH) =
  sumZ (λ a, kind_effect k z a (normal_debit a)) book_liabilities.
Proof.
  assert (∀ l, sumZ (λ a, kind_effect k z a (normal_debit a)) l = z * sumZ (λ a, kind_effect k 1 a (normal_debit a)) l) as Hl.
  { induction l as [|a l IH]; cbn [sumZ]; [lia|]. rewrite IH, (kind_effect_unit k z). lia. }
  rewrite Hl, kind_effect_unit. f_equal. by destruct k; vm_compute.
Qed.

Lemma kind_effect_other k z a dp :
  a ∉ ASSET_TRUSTEE_BANK_CASH :: book_liabilities → kind_effect k z a dp = 0.
Proof.
  intros Ha. unfold kind_effect, transfer_effect.
  rewrite !bool_decide_false; [done| |]; intros <-; apply Ha; destruct k; cbn; set_solver.
Qed.

Lemma net_assets_run ms b p c : net_assets (run_book ms b) p c = net_assets b p c.
Proof.
  unfold run_book. revert b. induction ms as [|m ms IH]; intros b; [done|]. cbn [fold_left]. rewrite IH.
  unfold net_assets, move. destruct (bool_decide _ && bool_decide _).
  - rewrite sumZ_add, kind_effect_balanced. lia.
  - rewrite sumZ_add, sumZ_zero. lia.
Qed.

(** * The stored ledger, entry by entry *)

(** The one row of a non-negative sum that carries it all. *)
Lemma map_sum_only {A} (f : A → Z) (T : gmap string A) k x :
  T !! k = Some x → (∀ k' y, T !! k' = Some y → 0 ≤ f y) → map_sum f T = f x →
  ∀ k' y, T !! k' = Some y → k' ≠ k → f y = 0.
Proof.
  intros Hk Hn Hs k' y Hy Hne. rewrite (map_sum_delete f T k x Hk) in Hs.
  assert (delete k T !! k' = Some y) as Hy' by by rewrite lookup_delete_ne.
  rewrite (map_sum_delete f _ k' y Hy') in Hs.
  assert (0 ≤ map_sum f (delete k' (delete k T))).
  { apply map_sum_nonneg. intros j z Hz. apply lookup_delete_Some in Hz as [_ Hz].
    apply lookup_delete_Some in Hz as [_ Hz]. by apply (Hn j). }
  pose proof (Hn k' y Hy). lia.
Qed.

(** A sum over postings, split by entry. *)
Lemma postings_by_entry (f : LedgerPosting.t → Z) (P : LedgerEntry.t → bool) (E : gmap string LedgerEntry.t) T :
  map_sum (λ q, match E !! LedgerPosting.entryId q with Some e => if P e then f q else 0 | None => 0 end) T =
  sumZ (λ ke, if P ke.2 then map_sum (λ q, if bool_decide (LedgerPosting.entryId q = ke.1) then f q else 0) T else 0)
    (map_to_list E).
Proof.
  induction E as [|k e E Hk IH] using map_ind.
  - rewrite map_to_list_empty. cbn. rewrite (map_sum_ext _ (λ _, 0)); [apply map_sum_zero|]. intros. by rewrite lookup_empty.
  - rewrite (sumZ_perm _ _ _ (map_to_list_insert E k e Hk)). cbn [sumZ fst snd]. rewrite <- IH. clear IH.
    transitivity (map_sum (λ q, (if P e then if bool_decide (LedgerPosting.entryId q = k) then f q else 0 else 0) +
      match E !! LedgerPosting.entryId q with Some e => if P e then f q else 0 | None => 0 end) T).
    + apply map_sum_ext. intros j q _. destruct (decide (LedgerPosting.entryId q = k)) as [->|Hne].
      * rewrite lookup_insert_eq, Hk, bool_decide_true by done. destruct (P e); lia.
      * rewrite lookup_insert_ne, bool_decide_false by done. destruct (P e); lia.
    + unfold map_sum. rewrite sumZ_add. f_equal. destruct (P e); [done|]. apply sumZ_zero.
Qed.

(** The postings of a booking are its two, so it moves what its kind says. *)
Lemma entry_moves w k e kind a dp :
  ledger_ok w → tbl w TLedgerEntry !! k = Some e → booked_as kind e w →
  map_sum (λ q, if bool_decide (LedgerPosting.entryId q = k)
                then (if bool_decide (LedgerPosting.account q = a) then posting_delta dp q else 0) else 0) (tbl w TLedgerPosting)
  = kind_effect kind (LedgerEntry.totalDebitMinor e) a dp.
Proof.
  intros Hok He (kp & kq & p & q & Hp & Hq & Ep & Eq & Ap & Dp & Aq & Cq).
  destruct (ledger_entry_balanced w Hok k e He) as (Hid & Hpos & Htot & Hd & Hc). rewrite Hid in Ep, Eq.
  set (z := LedgerEntry.totalDebitMinor e) in *.
  destruct (ledger_posting_entry w Hok kp p Hp) as [_ Hsp]. destruct (ledger_posting_entry w Hok kq q Hq) as [_ Hsq].
  assert (kp ≠ kq) as Hne by (intros ->; assert (p = q) as -> by exact (tbl_fun TLedgerPosting _ _ _ _ Hp Hq); lia).
  assert (∀ k' r, tbl w TLedgerPosting !! k' = Some r → k' ≠ kp → k' ≠ kq → LedgerPosting.entryId r ≠ k) as Hother.
  { intros k' r Hr H1 H2 Er. destruct (ledger_posting_entry w Hok k' r Hr) as [_ Hside].
    assert (LedgerPosting.debitMinor r = 0).
    { pose proof (map_sum_only (λ x, if bool_decide (LedgerPosting.entryId x = k) then LedgerPosting.debitMinor x else 0)
        (tbl w TLedgerPosting) kp p Hp) as Ho. cbn beta in Ho. rewrite bool_decide_true in Ho by done. rewrite Dp in Ho.
      specialize (Ho ltac:(intros j y Hy; destruct (ledger_posting_entry w Hok j y Hy); case_bool_decide; lia) Hd k' r Hr H1).
      by rewrite bool_decide_true in Ho. }
    assert (LedgerPosting.creditMinor r = 0).
    { pose proof (map_sum_only (λ x, if bool_decide (LedgerPosting.entryId x = k) then LedgerPosting.creditMinor x else 0)
        (tbl w TLedgerPosting) kq q Hq) as Ho. cbn beta in Ho. rewrite bool_decide_true in Ho by done. rewrite Cq in Ho.
      specialize (Ho ltac:(intros j y Hy; destruct (ledger_posting_entry w Hok j y Hy); case_bool_decide; lia)
                     ltac:(unfold entry_credits in Hc; lia) k' r Hr H2).
      by rewrite bool_decide_true in Ho. }
    lia. }
  rewrite (map_sum_delete _ _ kp p Hp), (map_sum_delete _ (delete kp _) kq q) by by rewrite lookup_delete_ne.
  rewrite (map_sum_ext _ (λ _, 0) (delete kq _)), map_sum_zero.
  - rewrite (bool_decide_true (LedgerPosting.entryId p = k)), (bool_decide_true (LedgerPosting.entryId q = k)) by done.
    unfold kind_effect, transfer_effect, posting_delta. rewrite Ap, Aq.
    assert (LedgerPosting.creditMinor p = 0 ∧ LedgerPosting.debitMinor q = 0) as [-> ->] by lia. rewrite Dp, Cq.
    destruct (bool_decide (book_debit kind = a)), (bool_decide (book_credit kind = a)), dp; lia.
  - intros k' r Hr. apply lookup_delete_Some in Hr as [H1 Hr]. apply lookup_delete_Some in Hr as [H2 Hr].
    rewrite bool_decide_false; [done|]. by apply (Hother k').
Qed.

(** A balance is the sum of the entries' effects. *)
Lemma ledger_balance_entries w p a c t :
  ledgerAccountTypeOf a = Ok t →
  ledger_balance w p a c =
  sumZ (λ ke, if bool_decide (LedgerEntry.programId ke.2 = p) && bool_decide (LedgerEntry.currency ke.2 = c)
              then map_sum (λ q, if bool_decide (LedgerPosting.entryId q = ke.1)
                   then (if bool_decide (LedgerPosting.account q = a) then posting_delta (debit_positive t) q else 0) else 0)
                   (tbl w TLedgerPosting) else 0) (map_to_list (tbl w TLedgerEntry)).
Proof.
  intros Ht. unfold ledger_balance. rewrite Ht.
  etransitivity; [|exact (postings_by_entry (λ q, if bool_decide (LedgerPosting.account q = a) then posting_delta (debit_positive t) q else 0)
    (λ e, bool_decide (LedgerEntry.programId e = p) && bool_decide (LedgerEntry.currency e = c))
    (tbl w TLedgerEntry) (tbl w TLedgerPosting))].
  apply map_sum_ext. intros k q _. unfold of_program. destruct (_ !! LedgerPosting.entryId q) as [e|].
  - destruct (bool_decide (LedgerPosting.account q = a)), (bool_decide _ && bool_decide _); done.
  - by rewrite andb_false_r.
Qed.

Lemma choose_list {A B} (R : A → B → Prop) l : (∀ x, x ∈ l → ∃ y, R x y) → ∃ k, Forall2 R l k.
Proof.
  induction l as [|x l IH]; intros H; [by exists []|].
  destruct (H x ltac:(set_solver)) as [y Hy]. destruct IH as [k Hk]; [set_solver|]. exists (y :: k). by constructor.
Qed.

Lemma map_to_list_split {A} (m m' : gmap string A) :
  m ⊆ m' → map_to_list m' ≡ₚ map_to_list m ++ map_to_list (m' ∖ m).
Proof.
  intros Hs. rewrite map_subseteq_spec in Hs. apply NoDup_Permutation.
  - apply NoDup_map_to_list.
  - apply NoDup_app. split_and!; [apply NoDup_map_to_list| |apply NoDup_map_to_list].
    intros [k x] Hx%elem_of_map_to_list [_ Hn]%elem_of_map_to_list%lookup_difference_Some. congruence.
  - intros [k x]. rewrite elem_of_app, !elem_of_map_to_list, lookup_difference_Some. split.
    + intros Hx. destruct (m !! k) as [y|] eqn:Hy; [|by right]. left. rewrite (Hs k y Hy) in Hx. congruence.
    + intros [Hx|[Hx _]]; eauto.
Qed.

Definition movement_of (w : World) (ke : string * LedgerEntry.t) (m : Movement) : Prop :=
  booked_as (mv_kind m) ke.2 w ∧ mv_program m = LedgerEntry.programId ke.2 ∧
  mv_currency m = LedgerEntry.currency ke.2 ∧ mv_amount m = LedgerEntry.totalDebitMinor ke.2.

Lemma movements_sum w p c a t (l : list (string * LedgerEntry.t)) ms :
  good w → (∀ ke, ke ∈ l → tbl w TLedgerEntry !! ke.1 = Some ke.2) → Forall2 (movement_of w) l ms →
  sumZ (λ ke, if bool_decide (LedgerEntry.programId ke.2 = p) && bool_decide (LedgerEntry.currency ke.2 = c)
              then map_sum (λ q, if bool_decide (LedgerPosting.entryId q = ke.1)
                   then (if bool_decide (LedgerPosting.account q = a) then posting_delta (debit_positive t) q else 0) else 0)
                   (tbl w TLedgerPosting) else 0) l =
  sumZ (λ m, if bool_decide (mv_program m = p) && bool_decide (mv_currency m = c)
             then kind_effect (mv_kind m) (mv_amount m) a (debit_positive t) else 0) ms.
Proof.
  intros Hg Hin Hms. induction Hms as [|[k e] m l ms (Hb & Ep & Ec & Ea) _ IH]; [done|]. cbn [sumZ fst snd].
  rewrite IH by set_solver. f_equal. rewrite Ep, Ec, Ea. cbn [fst snd]. destruct (bool_decide _ && bool_decide _); [|done].
  apply entry_moves; [by apply good_ledger|apply (Hin (k, e)); set_solver|done].
Qed.

Lemma book_later w w' :
  good w → good w' → later w w' →
  ∃ ms, Forall (λ m, 0 < mv_amount m) ms ∧
    Forall2 (movement_of w') (map_to_list (tbl w' TLedgerEntry ∖ tbl w TLedgerEntry)) ms ∧
    ∀ p c a, is_ok (ledgerAccountTypeOf a) = true → book_of w' p c a = run_book ms (book_of w) p c a.
Proof.
  intros Hg Hg' HL. set (E := tbl w TLedgerEntry). set (E' := tbl w' TLedgerEntry).
  assert (E ⊆ E') as Hsub.
  { apply map_subseteq_spec. intros k e He. by apply (later_eq w w' TLedgerEntry). }
  assert (map_to_list E' ≡ₚ map_to_list E ++ map_to_list (E' ∖ E)) as HP.
  { by apply map_to_list_split. }
  destruct (choose_list (movement_of w') (map_to_list (E' ∖ E))) as [ms Hms].
  { intros [k e] [He _]%elem_of_map_to_list%lookup_difference_Some.
    destruct (good_row w' Hg' TLedgerEntry k e He) as [kind Hk].
    by exists (mkMovement kind (LedgerEntry.programId e) (LedgerEntry.currency e) (LedgerEntry.totalDebitMinor e)). }
  exists ms. split_and!; [|done|].
  - apply Forall_forall. intros m [i Hi]%list_elem_of_lookup. destruct (Forall2_lookup_r _ _ _ _ _ Hms Hi) as ([k e] & He & (_ & _ & _ & ->)).
    apply list_elem_of_lookup_2, elem_of_map_to_list, lookup_difference_Some in He as [He _].
    by destruct (ledger_entry_balanced w' (good_ledger w' Hg') k e He) as (_ & ? & _).
  - intros p c a Ha. destruct (ledgerAccountTypeOf a) as [t|] eqn:Et; [|done].
    rewrite run_book_sum. unfold book_of. rewrite !(ledger_balance_entries _ _ _ _ _ Et).
    rewrite (sumZ_perm _ _ _ HP), sumZ_app. f_equal.
    + apply sumZ_ext. intros [k e] He%elem_of_map_to_list. cbn [fst snd]. destruct (bool_decide _ && bool_decide _); [|done].
      destruct (good_row w Hg TLedgerEntry k e He) as [kind Hk].
      rewrite (entry_moves w k e kind a _ (good_ledger w Hg) He Hk).
      apply (entry_moves w' k e kind); [by apply good_ledger|by eapply lookup_weaken|by apply (booked_as_later kind e w)].
    + assert (normal_debit a = debit_positive t) as -> by (unfold normal_debit; by rewrite Et).
      apply (movements_sum w' p c a t (map_to_list (E' ∖ E)) ms Hg'); [|done].
      intros [k e] [He _]%elem_of_map_to_list%lookup_difference_Some. done.
Qed.

Section book.
Context `{RT : !Runtime} `{PC : !PrismaClient} (env : Env) (webhookKey : option SigningKey).

(** Claim C4 (the ledger implements the account book).  Whatever requests run,
    interleaved at every database call, crashing and retried, the balances that the
    ledger service answers afterwards are those of the account book after a list of
    movements, one for each journal entry stored meanwhile: each of one of the
    twelve kinds, of a positive amount, between the two accounts of its kind. *)
Theorem ledger_refines_book w w' (Hg : good w) (H : reachable env webhookKey w w') :
  ∃ ms, Forall (λ m, 0 < mv_amount m) ms ∧
    Forall2 (movement_of w') (map_to_list (tbl w' TLedgerEntry ∖ tbl w TLedgerEntry)) ms ∧
    ∀ p c a, is_ok (ledgerAccountTypeOf a) = true →
      run (accountBalance p a c) w = (Ok (money (book_of w p c a) c), w) ∧
      run (accountBalance p a c) w' = (Ok (money (run_book ms (book_of w) p c a) c), w').
Proof.
  destruct (reachable_good env webhookKey w w' Hg H) as [Hg' HL].
  destruct (book_later w w' Hg Hg' HL) as (ms & Hpos & Hms & Hb). exists ms. split_and!; [done..|].
  intros p c a Ha. pose proof Ha as Ha'. destruct (ledgerAccountTypeOf a) as [t|] eqn:Et; [|done].
  split; [exact (run_accountBalance p a c w t Et)|].
  rewrite (run_accountBalance p a c w' t Et). do 3 f_equal. apply Hb. by rewrite Et.
Qed.

(** Claim C14 (cash is owed).  In every reachable database the trustee cash of a
    program, less its seven liability accounts (reserve obligation, pending mint,
    pending redemption, unmatched deposits, merchant payables, program funds and
    loyalty value), is what it was at the start: nothing, from an empty ledger.  The
    other accounts of the chart never move. *)
Theorem cash_is_owed w w' p c (Hg : good w) (H : reachable env webhookKey w w') :
  net_assets (book_of w') p c = net_assets (book_of w) p c ∧
  (tbl w TLedgerEntry = ∅ → book_of w' p c ASSET_TRUSTEE_BANK_CASH = sumZ (book_of w' p c) book_liabilities) ∧
  ∀ a, a ∉ ASSET_TRUSTEE_BANK_CASH :: book_liabilities → book_of w' p c a = book_of w p c a.
Proof.
  destruct (reachable_good env webhookKey w w' Hg H) as [Hg' HL].
  destruct (book_later w w' Hg Hg' HL) as (ms & _ & _ & Hb).
  assert (net_assets (book_of w') p c = net_assets (book_of w) p c) as Hnet.
  { rewrite <- (net_assets_run ms (book_of w)). unfold net_assets. apply (f_equal2 Z.sub); [by apply Hb|].
    apply sumZ_ext. intros a Ha. apply Hb. revert a Ha. apply Forall_forall.
    unfold book_liabilities. repeat constructor. }
  split_and!; [done| |].
  - intros HE. assert (∀ a, book_of w p c a = 0) as H0.
    { intros a. unfold book_of. destruct (ledgerAccountTypeOf a) as [t|] eqn:Et.
      - rewrite (ledger_balance_entries _ _ _ _ _ Et), HE, map_to_list_empty. done.
      - unfold ledger_balance. by rewrite Et. }
    unfold net_assets in Hnet. rewrite H0, (sumZ_ext (book_of w p c) (λ _, 0) book_liabilities), sumZ_zero in Hnet by (intros; apply H0). lia.
  - intros a Ha. destruct (is_ok (ledgerAccountTypeOf a)) eqn:Et.
    + rewrite Hb, run_book_sum by done. rewrite (sumZ_ext _ (λ _, 0)), sumZ_zero; [lia|].
      intros m _. rewrite kind_effect_other by done. by destruct (_ && _).
    + unfold book_of, ledger_balance. by destruct (ledgerAccountTypeOf a).
Qed.
End book.

#[local] Opaque encode.

(** The demonstration's eight movements: a deposit received and cleared, a mint
    reserved and confirmed, a redemption reserved and paid out, an order collected and
    a settlement paid. *)
Lemma ledger_refines_book_witness : ∃ ms, length ms = 8%nat ∧ Forall (λ m, 0 < mv_amount m) ms ∧
  run (accountBalance (PC := ref_client) "p" ASSET_TRUSTEE_BANK_CASH "USD") demo_final =
  (Ok (money (run_book ms (book_of demo_world) "p" "USD" ASSET_TRUSTEE_BANK_CASH) "USD"), demo_final).
Proof.
  destruct (@ledger_refines_book demo_runtime ref_client demo_env None demo_world demo_final good_demo demo_reached)
    as (ms & Hp & Hm & Hb).
  exists ms. split_and!; [|done|by apply Hb]. rewrite <- (Forall2_length _ _ _ Hm). by vm_compute.
Defined.

Lemma cash_is_owed_witness :
  book_of demo_final "p" "USD" ASSET_TRUSTEE_BANK_CASH = sumZ (book_of demo_final "p" "USD") book_liabilities ∧
  book_of demo_final "p" "USD" ASSET_TRUSTEE_BANK_CASH = 950.
Proof.
  split; [|by vm_compute].
  apply (@cash_is_owed demo_runtime ref_client demo_env None demo_world demo_final "p" "USD" good_demo demo_reached).
  by vm_compute.
Defined.
