(* ===== verification/Delivery.v ===== *)
(** The webhook worker's promises.

    Two of them: what a receiver can check of a delivery (the signed bytes are the
    delivered bytes), and that the queue drains (each pass costs every event of its
    batch one attempt and ends in a delivery or, at the limit, in the dead-letter
    state, so that a bounded number of passes leaves nothing pending). *)
From S2P Require Import Prelude.
From S2P Require Import Text.
From S2P Require Import Money.
From S2P Require Import Domain.
From S2P Require Import Ledger.
From S2P Require Import Prog.
From S2P Require Import Crypto.
From S2P Require Import Schema.
From S2P Require Import Prisma.
From S2P Require Import Infra.
From S2P Require Import LedgerService.
From S2P Require Import Invariant.
From S2P Require Import Effects.
From S2P Require Import Worker.
From S2P Require Import Demo.
From S2P Require Import System.
#[local] Open Scope string_scope.
#[local] Open Scope list_scope.
#[local] Open Scope Z_scope.

(** * The bytes *)

(** Assigning a new, non-index property appends it. *)
Lemma obj_set_new l k v :
  array_index k = None → k ≠ "__proto__" → k ∉ l.*1 → obj_set l (k, v) = l ++ [(k, v)].
Proof.
  intros Hi Hp Hk. unfold obj_set; cbn [fst snd]. rewrite bool_decide_false by done.
  assert (existsb (λ p : string * jsval, bool_decide (p.1 = k)) l = false) as ->.
  { apply not_true_is_false. intros (p & Hp' & He)%existsb_exists. apply bool_decide_eq_true in He. subst k.
    apply Hk, list_elem_of_fmap. exists p. split; [done|by apply list_elem_of_In]. }
  clear Hk. induction l as [|[k' v'] l IH]; [done|]. cbn [obj_insert app]. rewrite Hi, IH.
  by destruct (array_index k').
Qed.

Lemma js_get_app l l' k : k ∉ l.*1 → js_get k (JObj (l ++ l')) = js_get k (JObj l').
Proof.
  intros Hk. induction l as [|[k' v'] l IH]; [done|]. cbn in Hk. apply not_elem_of_cons in Hk as [Hne Hk].
  rewrite <- IH by done. cbn. rewrite decide_False by done.
  by destruct (list_find _ (l ++ l')) as [[? ?]|].
Qed.

Lemma js_get_app_l l l' k : k ∈ l.*1 → js_get k (JObj (l ++ l')) = js_get k (JObj l).
Proof.
  intros Hk. induction l as [|[k' v'] l IH]; [by apply not_elem_of_nil in Hk|]. cbn.
  destruct (decide (k' = k)); [done|]. apply elem_of_cons in Hk as [?|Hk]; [done|]. cbn in IH.
  specialize (IH Hk). by destruct (list_find _ (l ++ l')) as [[? ?]|], (list_find _ l) as [[? ?]|].
Qed.

Section bytes.
Context `{RT : !Runtime} (webhookKey : option SigningKey).

(** The properties of an event's envelope, in order. *)
Lemma envelope_keys now cid e :
  ∃ l, event_envelope now cid e = JObj l ∧
    l.*1 = ["eventId"; "eventType"; "eventSequence"; "targetPlatform"; "timestamp"; "clientId"; "programId";
            "correlationId"; "requestId"; "nonce"; "apiVersion"; "payload"; "id"; "type"; "bodyHash";
            "signingKeyId"; "signature"; "occurredAt"] ++
           match truthy (OutboxEvent.artifact e) with Some _ => ["artifact"] | None => [] end.
Proof. unfold event_envelope. destruct (truthy _); eexists; by split. Qed.

Lemma big_to_string_nonempty z : big_to_string z ≠ "".
Proof.
  intros E. pose proof (string_to_bigint_of_big z) as H. rewrite E in H. injection H as <-. discriminate E.
Qed.

(** The envelope with the header-only fields, and without them again. *)
Lemma sign_envelope_app now l :
  "timestampMs" ∉ l.*1 → "requestSignature" ∉ l.*1 →
  sign_envelope webhookKey now (JObj l) =
  JObj (l ++ [("timestampMs", JStr (big_to_string now));
              ("requestSignature", js_undef (stripeSignature webhookKey (big_to_string now) (stringify (JObj l))))]).
Proof.
  intros H1 H2. unfold sign_envelope, js_assign. cbv zeta. cbn [js_entries].
  rewrite (obj_set_new l "timestampMs") by done. rewrite obj_set_new; [by rewrite <- app_assoc|done|done|].
  rewrite fmap_app. apply not_elem_of_app. split; [done|]. cbn. by rewrite list_elem_of_singleton.
Qed.

Lemma wireBody_app l x y :
  "timestampMs" ∉ l.*1 → "requestSignature" ∉ l.*1 →
  wireBody (JObj (l ++ [("timestampMs", x); ("requestSignature", y)])) = JObj l.
Proof.
  intros H1 H2. unfold wireBody. cbn [js_entries]. f_equal. rewrite filter_app.
  assert (filter (λ kv : string * jsval, kv.1 ≠ "requestSignature" ∧ kv.1 ≠ "timestampMs") l = l) as ->.
  { clear x y. induction l as [|[k v] l IH]; [done|]. apply not_elem_of_cons in H1 as [N1 H1], H2 as [N2 H2].
    rewrite filter_cons_True by (split; congruence). by rewrite IH. }
  cbn. by rewrite app_nil_r.
Qed.

Lemma headers_signed e ts sig :
  js_get "timestampMs" e = JStr ts → js_get "requestSignature" e = JStr sig → ts ≠ "" → sig ≠ "" →
  ("x-timestamp", ts) ∈ envelopeHeaders e ∧ ("x-trustee-timestamp", ts) ∈ envelopeHeaders e ∧
  ("x-signature", sig) ∈ envelopeHeaders e ∧ ("x-trustee-signature", sig) ∈ envelopeHeaders e.
Proof.
  intros Ht Hs Nt Ns. unfold envelopeHeaders. rewrite Ht, Hs. cbv zeta. cbn [js_string truthy].
  rewrite !bool_decide_false by done. split_and!; repeat first [left|right].
Qed.

(** Signed bytes are delivered bytes.  For every event, the body the
    worker posts is exactly the JSON it signed, whatever header-only fields the
    envelope carries at that point; with a webhook key, the signature headers hold
    that key's signature over the timestamp header, a dot and the delivered body,
    so a receiver that recomputes it from what it received accepts. *)
Theorem delivered_bytes_signed now cid e k
    (Hkey : webhookKey = Some k) (Hpair : key_pair (privateKeyPem k) (publicKeyPem k))
    (Hsig : ∀ m, ed_sign (privateKeyPem k) m ≠ "") :
  let envelope := sign_envelope webhookKey now (event_envelope now cid e) in
  let body := stringify (wireBody envelope) in
  body = stringify (event_envelope now cid e) ∧
  ∃ ts sig, ts = big_to_string now ∧
    ("x-timestamp", ts) ∈ envelopeHeaders envelope ∧ ("x-trustee-timestamp", ts) ∈ envelopeHeaders envelope ∧
    ("x-signature", sig) ∈ envelopeHeaders envelope ∧ ("x-trustee-signature", sig) ∈ envelopeHeaders envelope ∧
    ed_verify (publicKeyPem k) (ts +:+ "." +:+ body) sig = true.
Proof.
  destruct (envelope_keys now cid e) as (l & -> & Hl). cbv zeta.
  assert ("timestampMs" ∉ l.*1) as H1.
  { rewrite Hl. destruct (truthy _); refine (bool_decide_unpack _ _); vm_compute; exact I. }
  assert ("requestSignature" ∉ l.*1) as H2.
  { rewrite Hl. destruct (truthy _); refine (bool_decide_unpack _ _); vm_compute; exact I. }
  rewrite sign_envelope_app, wireBody_app by done. split; [done|].
  set (sig := ed_sign (privateKeyPem k) (big_to_string now +:+ "." +:+ stringify (JObj l))).
  exists (big_to_string now), sig. split; [done|].
  destruct (headers_signed (JObj (l ++ [("timestampMs", JStr (big_to_string now));
     ("requestSignature", js_undef (stripeSignature webhookKey (big_to_string now) (stringify (JObj l))))]))
     (big_to_string now) sig) as (? & ? & ? & ?).
  - by rewrite js_get_app.
  - by rewrite js_get_app, Hkey.
  - apply big_to_string_nonempty.
  - apply Hsig.
  - split_and!; try done. by apply ed_verify_sign.
Qed.
End bytes.

(** * The queue *)

Section queue.
Context `{RT : !Runtime} `{PC : !PrismaClient} (env : Env) (webhookKey : option SigningKey).

(** What a receiver answers is an HTTP status code and a text without U+0000, and
    the configured limit fits the column. *)
Context (status_code : ∀ url body headers n,
  opt_ok in_int32 (webhook_post url body headers n).1.2 = true).
Context (clean_text : ∀ url body headers n s,
  (webhook_post url body headers n).2 = Some s → lacks Ascii.zero s = true).
Context (max_attempts : WEBHOOK_MAX_ATTEMPTS env ≤ int32_max).

(** The database takes what the worker writes: a line of the delivery log for a
    stored event, and new counters of a stored event, when their numbers fit the
    columns and no text that is new holds U+0000. *)
Context (takes_log : ∀ k r w,
  is_Some (tbl w TOutboxEvent !! WebhookDelivery.eventId r) → in_range TWebhookDelivery r = true →
  (∀ s, WebhookDelivery.error r = Some s → lacks Ascii.zero s = true) → refuse TWebhookDelivery k r w = None).
Context (takes_event : ∀ k r r0 w,
  tbl w TOutboxEvent !! k = Some r0 → outbox_core r = outbox_core r0 → in_range TOutboxEvent r = true →
  refuse TOutboxEvent k r w = None).

(** One more attempt, with its outcome. *)
Definition attempted (now : Z) (e e' : OutboxEvent.t) : Prop :=
  outbox_core e' = outbox_core e ∧ OutboxEvent.attempts e' = OutboxEvent.attempts e + 1 ∧
  (OutboxEvent.deliveredAt e' = Some now ∨
   OutboxEvent.deliveredAt e' = OutboxEvent.deliveredAt e ∧
   OutboxEvent.deadLettered e' = (WEBHOOK_MAX_ATTEMPTS env <=? OutboxEvent.attempts e + 1)).

(** The numbers of a pending event fit their columns, with one attempt more. *)
Definition event_ok (k : string) (e : OutboxEvent.t) : Prop :=
  OutboxEvent.id e = k ∧
  (is_pending e = true →
     in_int32 (OutboxEvent.attempts e + 1) = true ∧ in_int64 (OutboxEvent.sequence e) = true).

Definition queue_ok (w : World) : Prop := ∀ k e, tbl w TOutboxEvent !! k = Some e → event_ok k e.

(** The attempts the pending events have left: at least one each. *)
Definition attempts_left (e : OutboxEvent.t) : Z :=
  if is_pending e then Z.max 1 (WEBHOOK_MAX_ATTEMPTS env - OutboxEvent.attempts e) else 0.
Definition backlog (w : World) : Z := map_sum attempts_left (tbl w TOutboxEvent).

Lemma attempted_ok now k e e' :
  event_ok k e → is_pending e = true → attempted now e e' →
  event_ok k e' ∧ attempts_left e' ≤ attempts_left e - 1 ∧ 0 ≤ attempts_left e'.
Proof.
  intros [Hid Hp] He (Hc & Ha & Ho). destruct (Hp He) as [Hr Hs].
  assert (OutboxEvent.id e' = k) as Hid' by (destruct e, e'; injection Hc as; cbn in *; congruence).
  assert (OutboxEvent.sequence e' = OutboxEvent.sequence e) as Hs' by (destruct e, e'; injection Hc as; done).
  unfold attempts_left. rewrite He. unfold event_ok. rewrite Hs', Ha.
  destruct (is_pending e') eqn:He'; [|split_and!; [done|done|lia|lia]].
  enough (OutboxEvent.attempts e + 1 < WEBHOOK_MAX_ATTEMPTS env).
  { unfold in_int32 in *. apply andb_true_iff in Hr as [Hlo%Z.leb_le Hhi%Z.leb_le].
    split_and!; [done|intros _; split; [|done]|lia|lia]. apply andb_true_iff. rewrite !Z.leb_le. lia. }
  unfold is_pending in He'. apply andb_true_iff in He' as [Hn Hd].
  destruct Ho as [Hdel|[_ Hdead]].
  - rewrite Hdel in Hn. by rewrite bool_decide_true in Hn.
  - rewrite Hdead in Hd. apply negb_true_iff, Z.leb_gt in Hd. done.
Qed.

Lemma lacks_take c n s : lacks c s = true → lacks c (take_string n s) = true.
Proof.
  revert n. induction s as [|a s IH]; intros [|n]; cbn; try done.
  intros [-> H]%andb_true_iff. by apply IH.
Qed.

(** The event of a batch after its turn. *)
Lemma run_markAttempt e n w :
  tbl w TOutboxEvent !! OutboxEvent.id e = Some e → in_int64 (OutboxEvent.sequence e) = true → in_int32 n = true →
  run (markAttempt env (OutboxEvent.id e) n) w =
    (Ok tt, put TOutboxEvent (OutboxEvent.id e)
       (OutboxEvent.set_attempts n (OutboxEvent.set_deadLettered (WEBHOOK_MAX_ATTEMPTS env <=? n) e)) w).
Proof.
  intros He Hs Hn. unfold markAttempt. rewrite run_bind, (run_update_to TOutboxEvent _ _ _ e); [done|exact He|].
  eapply takes_event; [exact He|by destruct e|]. cbn. destruct e; cbn in *. by rewrite Hs, Hn.
Qed.

Definition turned (now : Z) (e : OutboxEvent.t) (w w' : World) : Prop :=
  ∃ e', tbl w' TOutboxEvent = <[OutboxEvent.id e := e']> (tbl w TOutboxEvent) ∧ attempted now e e'.

Lemma run_deliver_event now n e w :
  tbl w TOutboxEvent !! OutboxEvent.id e = Some e → is_pending e = true → event_ok (OutboxEvent.id e) e →
  ∃ n' w', run (deliver_event env webhookKey now n e) w = (Ok n', w') ∧ turned now e w w'.
Proof.
  intros He Hpend [_ Hok]. destruct (Hok Hpend) as [Hint Hseq].
  assert (∀ w0, tbl w0 TOutboxEvent = tbl w TOutboxEvent →
    ∃ n' w', run (markAttempt env (OutboxEvent.id e) (OutboxEvent.attempts e + 1);; mret n) w0 = (Ok n', w') ∧
      turned now e w w') as Hmark.
  { intros w0 E. rewrite run_bind, run_markAttempt; [|by rewrite E|done|done].
    exists n, (put TOutboxEvent (OutboxEvent.id e) (OutboxEvent.set_attempts (OutboxEvent.attempts e + 1)
      (OutboxEvent.set_deadLettered (WEBHOOK_MAX_ATTEMPTS env <=? OutboxEvent.attempts e + 1) e)) w0).
    split; [done|]. eexists. rewrite tbl_put_same, E. split; [done|].
    split_and!; [by destruct e|by destruct e|right; by destruct e]. }
  unfold deliver_event. cbv zeta. rewrite run_bind, (run_find_first TClientApplication).
  destruct (head _) as [c|]; [|by apply Hmark].
  destruct (truthy (ClientApplication.webhookUrl c)) as [url|]; [|by apply Hmark].
  destruct (ClientApplication.disabled c); [by apply Hmark|].
  rewrite run_bind. unfold submitSignedEvent. rewrite run_action.
  match goal with |- context [webhook_post ?u ?b ?h ?m] => pose proof (status_code u b h m) as Hcode;
    pose proof (clean_text u b h m) as Hclean; destruct (webhook_post u b h m) as [[ok st] err] end.
  cbn [fst snd] in Hcode, Hclean. cbv beta iota.
  rewrite run_bind, (run_create_to TWebhookDelivery).
  2: { apply takes_log; [by exists e|cbn; by rewrite Hint, Hcode|]. intros s (x & Hx & ->)%fmap_Some_1.
       apply lacks_take, Hclean. destruct err as [y|]; [|done]. unfold truthy in Hx. by case_bool_decide; [|injection Hx as ->]. }
  match goal with |- context [put TWebhookDelivery ?k ?r ?w0] => set (w1 := put TWebhookDelivery k r w0) end.
  assert (tbl w1 TOutboxEvent = tbl w TOutboxEvent) as E by (unfold w1; by rewrite tbl_put_ne).
  cbv beta iota. destruct ok; [|by apply Hmark].
  rewrite run_bind, (run_update_to TOutboxEvent _ _ _ e);
    [|by rewrite E|eapply takes_event; [by rewrite E|by destruct e|cbn; destruct e; cbn in *; by rewrite Hseq, Hint]].
  do 2 eexists. split; [done|]. eexists. rewrite tbl_put_same, E. split; [done|].
  split_and!; [by destruct e|by destruct e|left; by destruct e].
Qed.

Lemma queue_turned now e w w' :
  queue_ok w → tbl w TOutboxEvent !! OutboxEvent.id e = Some e → is_pending e = true → turned now e w w' →
  queue_ok w' ∧ backlog w' ≤ backlog w - 1.
Proof.
  intros Hq He Hp (e' & E & Ha).
  destruct (attempted_ok now _ e e' (Hq _ _ He) Hp Ha) as (Hok & Hle & _). split.
  - intros k x Hx. rewrite E in Hx. apply lookup_insert_Some in Hx as [[<- <-]|[_ Hx]]; [done|by apply Hq].
  - unfold backlog. rewrite E, (map_sum_insert _ _ _ _ e He). lia.
Qed.

(** A batch: distinct pending rows of the table. *)
Definition batch_of (l : list OutboxEvent.t) (w : World) : Prop :=
  NoDup (OutboxEvent.id <$> l) ∧
  ∀ e, e ∈ l → tbl w TOutboxEvent !! OutboxEvent.id e = Some e ∧ is_pending e = true.

Lemma run_batch now l : ∀ n w, queue_ok w → batch_of l w →
  ∃ n' w', run (fold_each l n (deliver_event env webhookKey now)) w = (Ok n', w') ∧ queue_ok w' ∧
    backlog w' ≤ backlog w - Z.of_nat (length l) ∧
    (∀ e, e ∈ l → ∃ e', tbl w' TOutboxEvent !! OutboxEvent.id e = Some e' ∧ attempted now e e') ∧
    (∀ k, k ∉ OutboxEvent.id <$> l → tbl w' TOutboxEvent !! k = tbl w TOutboxEvent !! k).
Proof.
  induction l as [|e l IH]; intros n w Hq [Hnd Hb].
  { exists n, w. split_and!; [done|done|cbn; lia| |done]. intros e He. by apply not_elem_of_nil in He. }
  rewrite fmap_cons in Hnd. apply NoDup_cons in Hnd as [Hne Hnd].
  destruct (Hb e) as [He Hp]; [by left|].
  destruct (run_deliver_event now n e w He Hp (Hq _ _ He)) as (n1 & w1 & Hr & Ht).
  destruct (queue_turned now e w w1 Hq He Hp Ht) as [Hq1 Hle1]. destruct Ht as (e1 & E1 & Ha1).
  assert (∀ k, k ≠ OutboxEvent.id e → tbl w1 TOutboxEvent !! k = tbl w TOutboxEvent !! k) as Hsame
    by (intros k Hk; by rewrite E1, lookup_insert_ne).
  destruct (IH n1 w1 Hq1) as (n2 & w2 & Hr2 & Hq2 & Hle2 & Hin2 & Hout2).
  { split; [done|]. intros x Hx. rewrite Hsame; [by apply Hb; right|].
    intros E. apply Hne. rewrite <- E. by apply list_elem_of_fmap_2. }
  exists n2, w2. cbn [fold_each length].
  split_and!; [by etransitivity; [apply run_bind|]; rewrite Hr|done|lia| |].
  - intros x [->|Hx]%elem_of_cons; [|by apply Hin2]. exists e1. split; [|done].
    rewrite Hout2 by done. rewrite E1. apply lookup_insert_eq.
  - intros k Hk. rewrite fmap_cons in Hk. apply not_elem_of_cons in Hk as [Hk1 Hk2].
    by rewrite Hout2, Hsame.
Qed.

(** The batch of a pass. *)
Definition pending_batch (w : World) : list OutboxEvent.t :=
  take (WEBHOOK_BATCH_SIZE env) (merge_sort (asc_by OutboxEvent.sequence) (where_rows is_pending (scan TOutboxEvent w))).

Lemma pending_batch_of w : queue_ok w → batch_of (pending_batch w) w.
Proof.
  intros Hq. set (rows := where_rows is_pending (scan TOutboxEvent w)).
  assert (merge_sort (asc_by OutboxEvent.sequence) rows ≡ₚ rows) as HP by apply merge_sort_Permutation.
  assert (∀ e, e ∈ rows → tbl w TOutboxEvent !! OutboxEvent.id e = Some e ∧ is_pending e = true) as Hrows.
  { intros e He. unfold rows in He. rewrite elem_of_where, (elem_of_scan TOutboxEvent) in He.
    destruct He as [Hp [k Hk]]. destruct (Hq k e Hk) as [<- _]. done. }
  split.
  - assert (NoDup (OutboxEvent.id <$> merge_sort (asc_by OutboxEvent.sequence) rows)) as Hnd.
    { rewrite HP. apply (where_keys_NoDup TOutboxEvent). intros k r Hr. apply (Hq k r Hr). }
    unfold pending_batch. fold rows.
    rewrite <- (take_drop (WEBHOOK_BATCH_SIZE env) (merge_sort _ rows)), fmap_app in Hnd.
    by apply NoDup_app in Hnd as (Hnd & _).
  - intros e He. apply Hrows. rewrite <- HP. unfold pending_batch in He. fold rows in He.
    by apply elem_of_take in He as (i & Hi%list_elem_of_lookup_2 & _).
Qed.

Lemma run_deliverPending now w : queue_ok w →
  ∃ n w', run (deliverPending env webhookKey now) w = (Ok n, w') ∧ queue_ok w' ∧
    backlog w' ≤ backlog w - Z.of_nat (length (pending_batch w)) ∧
    (∀ e, e ∈ pending_batch w → ∃ e', tbl w' TOutboxEvent !! OutboxEvent.id e = Some e' ∧ attempted now e e') ∧
    (∀ k, k ∉ OutboxEvent.id <$> pending_batch w → tbl w' TOutboxEvent !! k = tbl w TOutboxEvent !! k).
Proof.
  intros Hq. destruct (run_batch now (pending_batch w) 0 w Hq (pending_batch_of w Hq)) as (n & w' & Hr & H).
  exists n, w'. split; [|exact H]. unfold deliverPending. rewrite run_bind. unfold find_many_asc. by rewrite run_read.
Qed.

(** A pass attempts its batch.  When the database takes the worker's writes, a delivery pass reads the first
    pending events in sequence order, up to the batch size, and always returns:
    each of them has one attempt more and is delivered at the time of the pass or,
    at the attempt limit, dead-lettered; its content is unchanged, and so is every
    other event. *)
Theorem pass_attempts_batch now w (Hq : queue_ok w) :
  ∃ n w', run (deliverPending env webhookKey now) w = (Ok n, w') ∧ queue_ok w' ∧
    (∀ e, e ∈ pending_batch w → ∃ e', tbl w' TOutboxEvent !! OutboxEvent.id e = Some e' ∧ attempted now e e') ∧
    (∀ k, k ∉ OutboxEvent.id <$> pending_batch w → tbl w' TOutboxEvent !! k = tbl w TOutboxEvent !! k).
Proof.
  destruct (run_deliverPending now w Hq) as (n & w' & H1 & H2 & _ & H3). by exists n, w'.
Qed.

(** ** Draining *)

Definition pass (w : World) : World := (run (delivery_pass env webhookKey) w).2.

Lemma pass_progress w :
  queue_ok w → queue_ok (pass w) ∧ backlog (pass w) ≤ backlog w - Z.of_nat (length (pending_batch w)).
Proof.
  intros Hq. unfold pass, delivery_pass. rewrite run_catch, run_bind. unfold now. rewrite run_read, run_bind.
  destruct (run_deliverPending (clock w) w Hq) as (n & w' & Hr & Hq' & Hle & _). by rewrite Hr.
Qed.

Lemma backlog_nonneg w : queue_ok w → 0 ≤ backlog w.
Proof.
  intros Hq. apply map_sum_nonneg. intros k e He. unfold attempts_left.
  destruct (is_pending e); lia.
Qed.

Lemma no_batch w k e :
  (0 < WEBHOOK_BATCH_SIZE env)%nat → pending_batch w = [] → tbl w TOutboxEvent !! k = Some e → is_pending e = false.
Proof.
  intros HB Hb He. apply (where_rows_nil TOutboxEvent is_pending w k e); [|done].
  apply Permutation_nil. symmetry. rewrite <- (merge_sort_Permutation (asc_by OutboxEvent.sequence)).
  unfold pending_batch in Hb. destruct (merge_sort _ _); [done|]. by destruct (WEBHOOK_BATCH_SIZE env); [lia|].
Qed.

(** Claim C31 (the queue drains).  As long as the database takes the worker's
    writes (log lines and counters whose numbers fit the columns and whose new
    texts hold no U+0000), and for receivers that answer an HTTP status and a text
    without U+0000, whatever they are otherwise: with a positive batch size and an
    attempt limit that fits the column, from a queue of stored events none of whose
    attempt counters is about to overflow, at most as many passes as the pending
    events have attempts left (at least one each), with no new event in between,
    leave no event pending: each is delivered or dead-lettered.  The condition on
    the text is needed: see [nul_answer_blocks]. *)
Theorem outbox_drains w (Hq : queue_ok w) (HB : (0 < WEBHOOK_BATCH_SIZE env)%nat) :
  ∃ n, Z.of_nat n ≤ backlog w ∧
    ∀ k e, tbl (Nat.iter n pass w) TOutboxEvent !! k = Some e →
      is_Some (OutboxEvent.deliveredAt e) ∨ OutboxEvent.deadLettered e = true.
Proof.
  assert (∀ m w, queue_ok w → backlog w ≤ Z.of_nat m → ∃ n, Z.of_nat n ≤ backlog w ∧
    ∀ k e, tbl (Nat.iter n pass w) TOutboxEvent !! k = Some e → is_pending e = false) as H.
  { clear w Hq. induction m as [|m IH]; intros w Hq Hm; pose proof (backlog_nonneg w Hq) as Hn;
      destruct (pending_batch w) as [|e l] eqn:Hb;
      try (exists 0%nat; split; [done|intros k x; by apply no_batch]);
      destruct (pass_progress w Hq) as [Hq' Hle]; rewrite Hb in Hle; cbn [length] in Hle;
      pose proof (backlog_nonneg _ Hq'); [lia|].
    destruct (IH (pass w) Hq') as (n & Hle' & Hdone); [lia|]. exists (S n). split; [lia|].
    intros k x. rewrite Nat.iter_succ_r. apply Hdone. }
  destruct (H (Z.to_nat (backlog w)) w Hq) as (n & Hle & Hdone).
  { pose proof (backlog_nonneg w Hq). lia. }
  exists n. split; [done|]. intros k e He. specialize (Hdone k e He). unfold is_pending in Hdone.
  apply andb_false_iff in Hdone as [Hd|Hd]; [left|right].
  - by apply negb_false_iff, bool_decide_eq_true in Hd.
  - by apply negb_false_iff in Hd.
Qed.
End queue.

(** ** An answer the log cannot hold *)

Section nul_answer.
Context `{RT : !Runtime} `{PC : !PrismaClient} (env : Env) (webhookKey : option SigningKey).

(** PostgreSQL refuses a text with U+0000. *)
Context (refuses_nul : ∀ k r w s,
  WebhookDelivery.error r = Some s → lacks Ascii.zero s = false → refuse TWebhookDelivery k r w ≠ None).

(** The receiver of [e] answers an error whose text holds U+0000. *)
Context (w : World) (e : OutboxEvent.t) (c : ClientApplication.t) (url s : string).
Context (client : head (where_rows (λ c, bool_decide (ClientApplication.platform c = OutboxEvent.targetPlatform e))
                          (scan TClientApplication w)) = Some c).
Context (webhook : truthy (ClientApplication.webhookUrl c) = Some url) (enabled : ClientApplication.disabled c = false).
Context (nul : lacks Ascii.zero (take_string 500 s) = false).
Context (answer : ∀ body headers n, webhook_post url body headers n = (false, Some 500, Some s)).

(** The insert into the delivery log throws before the attempt is counted. *)
Lemma nul_answer_throws now n :
  ∃ x w', run (deliver_event env webhookKey now n e) w = (Err x, w') ∧ tbl w' = tbl w.
Proof.
  unfold deliver_event. cbv zeta. rewrite run_bind, (run_find_first TClientApplication).
  destruct (head _) as [c'|]; [injection client as ->|discriminate client].
  cbv iota beta. rewrite webhook, enabled, run_bind. unfold submitSignedEvent. rewrite run_action, answer. cbv iota beta.
  rewrite run_bind, (run_create TWebhookDelivery). unfold write_row.
  assert (truthy (Some s) = Some s) as -> by (unfold truthy; rewrite bool_decide_false; [done|by intros ->]).
  match goal with |- context [refuse ?t ?k ?r ?w0] =>
    pose proof (refuses_nul k r w0 _ eq_refl nul) as Hr; destruct (refuse t k r w0) as [code|] end; [|done].
  by do 2 eexists.
Qed.

(** The pass that starts with [e] ends there, and no event of the queue has moved. *)
Lemma nul_answer_blocks l : pending_batch env w = e :: l → tbl (pass env webhookKey w) = tbl w.
Proof.
  intros Hbatch. destruct (nul_answer_throws (clock w) 0) as (x & w' & Hr & E).
  assert (run (deliverPending env webhookKey (clock w)) w = (Err x, w')) as Hp.
  { unfold deliverPending, find_many_asc. rewrite run_bind, run_read.
    change (take _ _) with (pending_batch env w). rewrite Hbatch. cbn [fold_each].
    etransitivity; [apply run_bind|]. by rewrite Hr. }
  unfold pass, delivery_pass. rewrite run_catch, run_bind. unfold now. by rewrite run_read, run_bind, Hp.
Qed.
End nul_answer.

(** * Witnesses *)

Definition demo_event : OutboxEvent.t :=
  {| OutboxEvent.id := "e1"; OutboxEvent.eventType := "mint.confirmed"; OutboxEvent.targetPlatform := "PAYCHAIN";
     OutboxEvent.sequence := 1; OutboxEvent.payload := JObj [("authorizationId", JStr "c")];
     OutboxEvent.artifact := None; OutboxEvent.signatureKeyId := "k"; OutboxEvent.signatureValue := "k:x";
     OutboxEvent.deliveredAt := None; OutboxEvent.attempts := 0; OutboxEvent.deadLettered := false;
     OutboxEvent.createdAt := 0 |}.

Lemma delivered_bytes_signed_witness :
  ∃ ts sig, ed_verify (NodeCrypto := toy_crypto) "w" (ts +:+ "." +:+ stringify
    (wireBody (sign_envelope (RT := demo_runtime) (Some (toy_key WEBHOOK "w")) 7
       (event_envelope (RT := demo_runtime) 7 "client" demo_event)))) sig = true.
Proof.
  destruct (@delivered_bytes_signed demo_runtime (Some (toy_key WEBHOOK "w")) 7 "client" demo_event
              (toy_key WEBHOOK "w") eq_refl eq_refl) as [_ (ts & sig & _ & _ & _ & _ & _ & H)].
  - intros m. discriminate.
  - exists ts, sig. exact H.
Defined.

Lemma admissible_plain t k r w :
  unique_keys t r = [] → foreign_keys t r = [] → in_range t r = true → admissible t k r w = true.
Proof.
  intros Hu Hf Hr. unfold admissible, conflicts, references_exist, shares_key. rewrite Hf, Hr, Hu. cbn.
  assert (∀ l : list (string * row t),
    existsb (λ kr, negb (bool_decide (kr.1 = k)) && false) l = false) as ->; [|done].
  induction l as [|x l IH]; [done|]. cbn. by rewrite andb_false_r.
Qed.

Lemma demo_status_code url body headers n :
  opt_ok in_int32 (@webhook_post demo_runtime url body headers n).1.2 = true.
Proof. reflexivity. Qed.

Lemma demo_max_attempts : WEBHOOK_MAX_ATTEMPTS demo_env ≤ int32_max.
Proof. vm_compute. discriminate. Qed.

Lemma demo_clean_text url body headers n s :
  (@webhook_post demo_runtime url body headers n).2 = Some s → lacks Ascii.zero s = true.
Proof. by intros [= <-]. Qed.

Lemma demo_takes_log k r w :
  is_Some (tbl w TOutboxEvent !! WebhookDelivery.eventId r) → in_range TWebhookDelivery r = true →
  (∀ s, WebhookDelivery.error r = Some s → lacks Ascii.zero s = true) →
  refuse (PrismaClient := ref_client) TWebhookDelivery k r w = None.
Proof. intros _ Hr _. by apply ref_client_accepts, admissible_plain. Qed.

Lemma demo_takes_event k r r0 w :
  tbl w TOutboxEvent !! k = Some r0 → outbox_core r = outbox_core r0 → in_range TOutboxEvent r = true →
  refuse (PrismaClient := ref_client) TOutboxEvent k r w = None.
Proof. intros _ _ Hr. by apply ref_client_accepts, admissible_plain. Qed.

Definition queue_check (w : World) : bool :=
  forallb (λ ke : string * row TOutboxEvent, bool_decide (OutboxEvent.id ke.2 = ke.1) &&
    (negb (is_pending ke.2) || in_int32 (OutboxEvent.attempts ke.2 + 1) && in_int64 (OutboxEvent.sequence ke.2)))
    (map_to_list (tbl w TOutboxEvent)).

Lemma queue_check_ok w : queue_check w = true → queue_ok w.
Proof.
  intros H k e He. unfold queue_check in H. rewrite forallb_forall in H.
  specialize (H (k, e)). cbn [fst snd] in H.
  destruct (andb_prop _ _ (H ltac:(by apply list_elem_of_In, elem_of_map_to_list))) as [Hid Hr].
  split; [by apply bool_decide_eq_true in Hid|]. intros Hp. rewrite Hp in Hr. cbn [negb orb] in Hr.
  by apply andb_true_iff in Hr.
Qed.

Lemma demo_queue_ok : queue_ok demo_final.
Proof. apply queue_check_ok. vm_compute. reflexivity. Qed.

Lemma pass_attempts_batch_witness :
  ∃ n w', run (deliverPending (RT := demo_runtime) (PC := ref_client) demo_env None 5) demo_final = (Ok n, w').
Proof.
  destruct (@pass_attempts_batch demo_runtime ref_client demo_env None demo_status_code demo_clean_text demo_max_attempts
              demo_takes_log demo_takes_event 5 demo_final demo_queue_ok) as (n & w' & H & _).
  exists n, w'. exact H.
Defined.

Lemma outbox_drains_witness : ∃ n, Z.of_nat n ≤ backlog demo_env demo_final.
Proof.
  destruct (@outbox_drains demo_runtime ref_client demo_env None demo_status_code demo_clean_text demo_max_attempts
              demo_takes_log demo_takes_event demo_final demo_queue_ok) as (n & H & _).
  - apply Nat.ltb_lt. reflexivity.
  - exists n. exact H.
Defined.
