(* ===== verification/MintFlow.v ===== *)
(** Minting, run to completion: what an approval requires of the database and
    what it does to the reserve ([mint.service.ts]). *)
From S2P Require Import Prelude.
From S2P Require Import Money.
From S2P Require Import Domain.
From S2P Require Import Ledger.
From S2P Require Import Reserve.
From S2P Require Import Prog.
From S2P Require Import Crypto.
From S2P Require Import Schema.
From S2P Require Import Prisma.
From S2P Require Import Infra.
From S2P Require Import LedgerService.
From S2P Require Import Invariant.
From S2P Require Import ReserveService.
From S2P Require Import Effects.
From S2P Require Import MintService.
From S2P Require Import Platform.
From S2P Require Import Demo.
From S2P Require Import System.
#[local] Open Scope string_scope.
#[local] Open Scope list_scope.
#[local] Open Scope Z_scope.

Section mint_flow.
Context `{RT : !Runtime} `{PC : !PrismaClient} (env : Env).

(** ** Inversions *)

Lemma run_requireAuth_ok i w a w' :
  run (requireAuth i) w = (Ok a, w') → w' = w ∧ tbl w TMintAuthorization !! i = Some a.
Proof. unfold requireAuth. intros H. inv_run. unfold find_unique in *. inv_run. done. Qed.

Lemma run_requireAuthWithApproval_ok i w x w' :
  run (requireAuthWithApproval i) w = (Ok x, w') →
  w' = w ∧ tbl w TMintAuthorization !! i = Some (fst x) ∧
  ∀ ap, snd x = Some ap → (∃ k, tbl w TApproval !! k = Some ap) ∧ Approval.mintAuthorizationId ap = Some i.
Proof.
  unfold requireAuthWithApproval. rewrite run_bind, run_read, run_or_throw.
  destruct (tbl w TMintAuthorization !! i) as [a|]; [|done]. intros [= <- <-].
  split_and!; [done..|]. cbn [snd]. intros ap Hh. apply (head_where_Some TApproval) in Hh as (Hp & k & Hk).
  apply bool_decide_eq_true in Hp. split; [by exists k|done].
Qed.

(** ** The guard's view of the database *)

(** The newest reserve snapshot of a program, and its newest reconciliation run. *)
Definition latest_snapshot (w : World) (programId : string) : option ReserveSnapshot.t :=
  max_by ReserveSnapshot.createdAt
    (where_rows (λ s, bool_decide (ReserveSnapshot.programId s = programId)) (scan TReserveSnapshot w)).

Definition latest_reconciliation (w : World) (programId : string) : option ReconciliationRun.t :=
  max_by ReconciliationRun.createdAt
    (where_rows (λ r, bool_decide (ReconciliationRun.programId r = Some programId)) (scan TReconciliationRun w)).

(** Every condition under which the facts [gatherGuardFacts] collects let the
    guard allow: one field per reason the guard can block for, on the tables. *)
Record mint_conditions (w : World) (auth : MintAuthorization.t) (p : Program.t) : Prop := {
  mc_amount : 0 < MintAuthorization.amountMinor auth ≤ capacity_at w p;
  mc_same_currency :
    to_upper (MintAuthorization.currency auth) = to_upper (Program.referenceCurrency p);
  mc_buffer : 0 ≤ Program.safetyBufferBps p;
  mc_feature : ∃ f, tbl w TFeatureFlag !! "mint.authorization.enabled" = Some f ∧ FeatureFlag.enabled f = true;
  mc_controls k c : tbl w TPlatformControl !! k = Some c → PlatformControl.value c = true →
    PlatformControl.key c ∉ ["compliance.hold.program." +:+ Program.id p; "compliance.hold.global";
                             "asset.suspend." +:+ MintAuthorization.assetId auth; "mint.global-suspend"];
  mc_program : Program.status p ≠ PROGRAM_SUSPENDED;
  mc_accounts k a : tbl w TTrusteeAccount !! k = Some a → TrusteeAccount.programId a = Program.id p →
    TrusteeAccount.status a ∉ [ACCOUNT_RESTRICTED; ACCOUNT_ON_HOLD];
  mc_deposits : MintAuthorization.fundingDepositIds auth ≠ [] ∧
    ∀ d, d ∈ MintAuthorization.fundingDepositIds auth →
      ∃ r, tbl w TDeposit !! d = Some r ∧ Deposit.status r ∈ MINT_ELIGIBLE_DEPOSIT_STATUSES;
  mc_liability : (∃ s, latest_liability w (Program.id p) = Some s ∧
    age_seconds (clock w) (LiabilitySnapshot.snapshotTimestamp s) ≤ MAX_LIABILITY_FEED_AGE_S env) ∨
    MAX_SAFE_AGE ≤ MAX_LIABILITY_FEED_AGE_S env;
  mc_bank : default 0 (age_seconds (clock w) <$> lastSuccessfulCheck w) ≤ MAX_BANK_CONNECTIVITY_AGE_S env;
  mc_reserve_age : 0 ≤ MAX_RESERVE_SNAPSHOT_AGE_S env;
  mc_proof mx : MAX_PROOF_OF_RESERVE_AGE_S env = Some mx →
    ∃ s, latest_snapshot w (Program.id p) = Some s ∧
      age_seconds (clock w) (ReserveSnapshot.createdAt s) ≤ mx;
  mc_reconciliation r : latest_reconciliation w (Program.id p) = Some r →
    ReconciliationRun.status r ≠ "EXCEPTIONS"
}.

(** As many rows with an id of the list as the list is long: each id of the
    list is the id of a row. *)
Lemma all_found w (ids : list string) :
  good w → length (where_rows (λ d, bool_decide (Deposit.id d ∈ ids)) (scan TDeposit w)) = length ids →
  ∀ i, i ∈ ids → ∃ r, tbl w TDeposit !! i = Some r ∧
    r ∈ where_rows (λ d, bool_decide (Deposit.id d ∈ ids)) (scan TDeposit w).
Proof.
  intros Hg Hlen i Hi. set (rows := where_rows _ _) in *.
  assert (∀ r, r ∈ rows ↔ tbl w TDeposit !! Deposit.id r = Some r ∧ Deposit.id r ∈ ids) as Hrow.
  { intros r. unfold rows. rewrite elem_of_where, (elem_of_scan TDeposit), bool_decide_eq_true. split.
    - intros [? [k Hk]]. pose proof (good_key w Hg TDeposit k r Hk) as E. cbn in E. by subst k.
    - intros [? ?]. split; [done|]. by exists (Deposit.id r). }
  assert (NoDup (Deposit.id <$> rows)) as Hnd
    by (apply (where_keys_NoDup TDeposit), (good_key w Hg TDeposit)).
  assert (i ∈ Deposit.id <$> rows) as Hin.
  { assert (Deposit.id <$> rows ≡ₚ ids) as E; [|by rewrite E].
    apply submseteq_length_Permutation; [|by rewrite length_fmap; lia].
    apply NoDup_submseteq; [done|]. intros j (r & -> & Hr)%list_elem_of_fmap. by apply Hrow. }
  apply list_elem_of_fmap in Hin as (r & -> & Hr). exists r. split; [by apply Hrow|done].
Qed.

Lemma run_requireAuth i w a : tbl w TMintAuthorization !! i = Some a → run (requireAuth i) w = (Ok a, w).
Proof.
  intros Ha. unfold requireAuth. rewrite run_bind, (run_find_unique_Some TMintAuthorization _ a) by exact Ha.
  by rewrite run_or_throw.
Qed.

(** The funding deposits the guard reads: none are looked up for an empty list. *)
Lemma run_funding_deposits ids w :
  run (match ids with [] => mret [] | _ => find_many TDeposit (λ d, bool_decide (Deposit.id d ∈ ids)) end) w =
  (Ok (match ids with [] => [] | _ => where_rows (λ d, bool_decide (Deposit.id d ∈ ids)) (scan TDeposit w) end), w).
Proof. by destruct ids. Qed.

Lemma deposits_cleared w ids :
  good w →
  (0 <? length ids)%nat &&
  (length (match ids with [] => [] | _ => where_rows (λ d, bool_decide (Deposit.id d ∈ ids)) (scan TDeposit w) end)
     =? length ids)%nat &&
  forallb (λ d, bool_decide (Deposit.status d ∈ MINT_ELIGIBLE_DEPOSIT_STATUSES))
    (match ids with [] => [] | _ => where_rows (λ d, bool_decide (Deposit.id d ∈ ids)) (scan TDeposit w) end) = true →
  ids ≠ [] ∧ ∀ d, d ∈ ids →
    ∃ r, tbl w TDeposit !! d = Some r ∧ Deposit.status r ∈ MINT_ELIGIBLE_DEPOSIT_STATUSES.
Proof.
  intros Hg [[H1%Nat.ltb_lt H2%Nat.eqb_eq]%andb_true_iff H3]%andb_true_iff.
  assert (ids ≠ []) as Hne by (intros ->; simpl in H1; lia). split; [done|].
  assert (match ids with [] => [] | _ => where_rows (λ d, bool_decide (Deposit.id d ∈ ids)) (scan TDeposit w) end =
          where_rows (λ d, bool_decide (Deposit.id d ∈ ids)) (scan TDeposit w)) as E by by destruct ids.
  rewrite E in H2, H3.
  intros d Hd. destruct (all_found w ids Hg H2 d Hd) as (r & Hr & Hin). exists r. split; [done|].
  rewrite forallb_forall in H3. apply list_elem_of_In in Hin. specialize (H3 r Hin).
  by apply bool_decide_eq_true in H3.
Qed.

(** With nothing left to deduct, the guard's capacity is the position's. *)
Lemma guard_capacity cap c :
  0 ≤ cap →
  mintCapacity {| mc_currency := c; mc_eligibleReserve := mkMoney cap (to_upper c);
                  existingReserveObligation := money 0 c; mc_requiredSafetyBuffer := money 0 c;
                  pendingMintAuthorizations := money 0 c |} = Ok (mkMoney cap (to_upper c)).
Proof.
  intros H. rewrite mintCapacity_upper by by repeat constructor.
  f_equal. f_equal. unfold capacity_spec. cbn [mc_eligibleReserve existingReserveObligation
    mc_requiredSafetyBuffer pendingMintAuthorizations minor money]. lia.
Qed.

Lemma run_gatherGuardFacts w auth p i b :
  good w → tbl w TMintAuthorization !! i = Some auth →
  tbl w TProgram !! MintAuthorization.programId auth = Some p → 0 ≤ Program.safetyBufferBps p →
  ∃ f, run (gatherGuardFacts env i b) w = (Ok f, w) ∧
    ∀ d, evaluateMintGuard f = Ok d → allowed d = true → mint_conditions w auth p.
Proof.
  intros Hg Ha Hp Hb. pose proof (good_key w Hg TProgram _ _ Hp) as Hk. cbn in Hk.
  unfold gatherGuardFacts.
  rewrite run_bind, (run_requireAuth _ _ _ Ha).
  rewrite run_bind, (run_find_unique_Some TProgram _ p) by exact Hp.
  rewrite run_bind, run_or_throw. cbv zeta.
  rewrite run_bind, (run_position w _ p Hg Hp Hb), run_bind, run_funding_deposits.
  rewrite run_bind, (run_find_first_desc TLiabilitySnapshot).
  unfold isEnabled. rewrite run_bind, run_bind, (run_find_unique TFeatureFlag), run_ret.
  rewrite run_bind, (run_find_many TPlatformControl), run_bind, (run_find_first_desc TReserveSnapshot).
  unfold now. rewrite run_bind, run_read, run_bind, (run_find_first_desc TReconciliationRun).
  rewrite run_bind, (run_find_first TTrusteeAccount), run_bind, (run_find_first TPlatformControl).
  unfold lastCheckAgeSeconds. rewrite run_bind, run_read, run_bind, run_read, run_ret.
  eexists. split; [reflexivity|]. intros d Hd Hal.
  apply evaluateMintGuard_ok in Hd as (Hcap & Hpre & _). apply Hpre in Hal. clear Hpre.
  unfold mint_preconditions in Hal.
  cbn [mintFeatureEnabled requested reserveSnapshotAgeSeconds maxReserveSnapshotAgeSeconds
    bankConnectivityAgeSeconds maxBankConnectivityAgeSeconds liabilityFeedAgeSeconds
    maxLiabilityFeedAgeSeconds proofOfReserveAgeSeconds maxProofOfReserveAgeSeconds
    hasUnresolvedReconciliation complianceHoldActive assetMintingSuspended programSuspended
    accountRestricted fundingDepositsCleared makerCheckerComplete] in Hal.
  destruct Hal as (Hfeat & Hpos & Hcur & Hle & Hage & Hbank & Hfeed & Hproof & Hrec & Hhold & Hsusp & Hps & Hacc & Hdep & _).
  apply bool_decide_eq_false in Hsusp, Hacc, Hps, Hrec. apply eq_None_not_Some in Hsusp, Hacc.
  apply Nat.ltb_ge, Nat.le_0_r, nil_length_inv in Hhold.
  assert (mkMoney (capacity_at w p) (to_upper (Program.referenceCurrency p)) = capacity d) as Ed.
  { pose proof (guard_capacity (capacity_at w p) (Program.referenceCurrency p) (Z.le_max_l _ _)) as Hc.
    enough (Ok (mkMoney (capacity_at w p) (to_upper (Program.referenceCurrency p))) = Ok (capacity d)) by congruence.
    rewrite <- Hc. exact Hcap. }
  clear Hcap. rewrite <- Ed in Hcur, Hle. cbn [minor currency mint_amount money] in Hcur, Hle, Hpos.
  rewrite <- Hk in *. split.
  - by split.
  - done.
  - done.
  - destruct (tbl w TFeatureFlag !! _) as [f|] eqn:Ef in Hfeat; [|done]. by exists f.
  - intros k c Hc Hv Hin.
    change (?a :: ?b :: ?l) with ([a; b] ++ l) in Hin. apply elem_of_app in Hin as [Hin|Hin].
    + apply (where_rows_nil TPlatformControl _ w k c) in Hhold; [|done].
      cbn beta in Hhold. rewrite Hv, bool_decide_true in Hhold by done. done.
    + apply (head_where_None TPlatformControl _ w k c) in Hsusp; [|done].
      cbn beta in Hsusp. rewrite Hv, bool_decide_true in Hsusp by done. done.
  - done.
  - intros k a Hka Hpa Hin. apply (head_where_None TTrusteeAccount _ w k a) in Hacc; [|done].
    cbn beta in Hacc. rewrite !bool_decide_true in Hacc by done. done.
  - by apply deposits_cleared.
  - assert (match latest_liability w (Program.id p) with
            | Some s => age_seconds (clock w) (LiabilitySnapshot.snapshotTimestamp s)
            | None => MAX_SAFE_AGE
            end ≤ MAX_LIABILITY_FEED_AGE_S env) as Hf by exact Hfeed.
    destruct (latest_liability w _) as [l|]; [left; by exists l|by right].
  - exact Hbank.
  - exact Hage.
  - intros mx Hmx. destruct (Hproof mx Hmx) as (age & Hl & Hle').
    change (max_by _ _) with (latest_snapshot w (Program.id p)) in Hl.
    destruct (latest_snapshot w _) as [s|]; [|done]. injection Hl as <-. by exists s.
  - intros r Hr. change (max_by _ _) with (latest_reconciliation w (Program.id p)) in Hrec.
    rewrite Hr in Hrec. cbn in Hrec. congruence.
Qed.

(** Facts gathered: the program exists and its position could be computed. *)
Lemma run_gatherGuardFacts_program w auth i b f w' :
  good w → tbl w TMintAuthorization !! i = Some auth → run (gatherGuardFacts env i b) w = (Ok f, w') →
  ∃ p, tbl w TProgram !! MintAuthorization.programId auth = Some p ∧ 0 ≤ Program.safetyBufferBps p.
Proof.
  intros Hg Ha H. unfold gatherGuardFacts in H. rewrite run_bind, (run_requireAuth _ _ _ Ha) in H.
  apply run_bind_ok in H as (op & w1 & H0 & H). rewrite (run_find_unique TProgram) in H0. injection H0 as Hp <-.
  apply run_bind_ok in H as (p & w1 & H0 & H). rewrite run_or_throw in H0.
  destruct op as [p'|]; [|done]. injection H0 as -> <-. cbv zeta in H.
  apply run_bind_ok in H as (pos & w1 & H0 & _).
  apply (run_position_ok w _ p) in H0 as (_ & _ & Hb); [|done..]. by exists p.
Qed.

(** ** Issuing *)

Definition mint_tables : list table := [TMintAuthorization; TApproval; TAuditLog; TOutboxEvent].

Lemma mint_tables_off : off_ledger mint_tables.
Proof. unfold off_ledger, mint_tables. set_solver. Qed.

Lemma run_issue_mint_ok auth c reason ap cap w v w' :
  run (issue_mint env auth c reason ap cap) w = (Ok v, w') →
  ∃ e a0 a, mintReservationEntry (mint_amount auth)
           (mint_refs ("mint-auth:" +:+ MintAuthorization.id auth) auth c (Some (Approval.id ap))) = Ok e ∧
    books e mint_tables w w' ∧
    tbl w TMintAuthorization !! MintAuthorization.id auth = Some a0 ∧
    tbl w' TMintAuthorization !! MintAuthorization.id auth = Some a ∧
    mint_core a = mint_core a0 ∧ MintAuthorization.status a = ISSUED ∧
    MintAuthorization.expiresAt a = Some (clock w + MINT_AUTH_TTL_S env * 1000).
Proof.
  unfold issue_mint. cbv zeta. intros H.
  apply run_bind_ok in H as (t & w0 & H0 & H). unfold now in H0. rewrite run_read in H0. injection H0 as <- <-.
  apply run_bind_ok in H as (sg & w0 & H0 & H). rewrite run_lift in H0. injection H0 as Hsg <-.
  apply run_bind_ok in H as (e & w0 & H0 & H). rewrite run_lift in H0. injection H0 as He <-.
  apply run_bind_ok in H as (eid & w1 & Hpost & H).
  apply run_bind_ok in H as (r & w2 & Hup & H).
  apply (run_update_ok TMintAuthorization) in Hup as (r0 & Hr0 & -> & -> & _).
  assert (same_but [TApproval; TAuditLog; TOutboxEvent] (put TMintAuthorization (MintAuthorization.id auth)
     (MintAuthorization.set_status ISSUED
          (MintAuthorization.set_signingKeyId (Some (keyId sg))
             (MintAuthorization.set_signatureValue (Some (value sg))
                (MintAuthorization.set_issuedAt (Some (clock w))
                   (MintAuthorization.set_expiresAt (Some (clock w + MINT_AUTH_TTL_S env * 1000)) r0))))) w1) w') as Hs.
  { eapply writes_run; [|exact H]. solve_writes. }
  pose proof (run_post_frames e w eid w1 mint_tables Hpost) as HB.
  exists e, r0. eexists. split; [done|]. split; [|split; [|split]].
  - eapply books_after; [exact HB|]. eapply same_but_trans; [apply (same_but_put_in _ TMintAuthorization); set_solver|].
    eapply same_but_weaken; [|exact Hs]. unfold mint_tables. set_solver.
  - rewrite <- (books_tbl e [] w w1 TMintAuthorization); [exact Hr0|by eapply run_post_frames|set_solver|].
    unfold ledger_tables. set_solver.
  - rewrite (same_but_tbl _ _ _ TMintAuthorization Hs) by set_solver.
    rewrite tbl_put_same. apply lookup_insert_eq.
  - by destruct r0.
Qed.

Lemma writes_block_mint ts i c ap rs :
  TMintAuthorization ∈ ts → TApproval ∈ ts → TOutboxEvent ∈ ts → writes ts (block_mint env i c ap rs).
Proof. intros ???. unfold block_mint. solve_writes. Qed.

Lemma block_mint_throws i c ap rs w v w' : run (block_mint env i c ap rs) w ≠ (Ok v, w').
Proof.
  unfold block_mint. cbv zeta. intros H. do 4 (apply run_bind_ok in H as (? & ? & _ & H)). discriminate H.
Qed.

(** What a successful approval read, and what it did. *)
Lemma run_approve_ok i c reason w v w' :
  good w → run (approve env i c reason) w = (Ok v, w') →
  ∃ auth ap p e a,
    tbl w TMintAuthorization !! i = Some auth ∧ MintAuthorization.status auth = PENDING_CHECKER ∧
    tbl w TApproval !! Approval.id ap = Some ap ∧ Approval.mintAuthorizationId ap = Some i ∧
    Approval.makerId ap ≠ c ∧ is_Some (tbl w TUser !! c) ∧
    tbl w TProgram !! MintAuthorization.programId auth = Some p ∧ mint_conditions w auth p ∧
    mintReservationEntry (mint_amount auth)
      (mint_refs ("mint-auth:" +:+ i) auth c (Some (Approval.id ap))) = Ok e ∧
    books e mint_tables w w' ∧
    tbl w' TMintAuthorization !! i = Some a ∧ mint_core a = mint_core auth ∧
    MintAuthorization.status a = ISSUED ∧
    MintAuthorization.expiresAt a = Some (clock w + MINT_AUTH_TTL_S env * 1000).
Proof.
  intros Hg H. unfold approve in H.
  apply run_bind_ok in H as (x & w1 & H0 & H).
  apply run_requireAuthWithApproval_ok in H0 as (-> & Ha & Hap). cbv zeta in H.
  destruct x as [auth oap]; cbn [fst snd] in *.
  apply run_bind_ok in H as ([] & w1 & H0 & H). rewrite run_throw_if in H0.
  injection H0 as Hst <-. apply throw_when_ok, negb_false_iff, bool_decide_eq_true in Hst.
  apply run_bind_ok in H as (ap & w1 & H0 & H). rewrite run_or_throw in H0.
  destruct oap as [ap'|]; [|done]. injection H0 as -> <-.
  destruct (Hap ap eq_refl) as [[k Hk] Hid].
  pose proof (good_key w Hg TApproval k ap Hk) as Ek. cbn in Ek. subst k.
  apply run_bind_ok in H as ([] & w1 & H0 & H). rewrite run_throw_if in H0.
  injection H0 as Hne <-. apply throw_when_ok, bool_decide_eq_false in Hne.
  apply run_bind_ok in H as (u & w1 & H0 & H). rewrite (run_find_unique TUser) in H0. injection H0 as Hu <-.
  apply run_bind_ok in H as (u0 & w1 & H0 & H). rewrite run_or_throw in H0.
  destruct u as [u'|]; [|done]. injection H0 as _ <-.
  pose proof (good_key w Hg TMintAuthorization i auth Ha) as Ei. cbn in Ei.
  apply run_bind_ok in H as (f & w1 & H0 & H).
  destruct (run_gatherGuardFacts_program _ _ _ _ _ _ Hg Ha H0) as (p & Hp & Hb).
  destruct (run_gatherGuardFacts w auth p i true Hg Ha Hp Hb) as (f' & Hf & Hcond).
  rewrite Hf in H0. injection H0 as <- <-.
  apply run_bind_ok in H as (d & w1 & H0 & H). rewrite run_lift in H0. injection H0 as Hd <-.
  destruct (allowed d) eqn:Hal; cbn [negb] in H; [|by apply block_mint_throws in H].
  apply run_issue_mint_ok in H as (e & a0 & a & He & HB & Ha0 & Ha' & Hc & Hs & Hx).
  rewrite Ei in *. exists auth, ap, p, e, a.
  pose proof (tbl_fun TMintAuthorization _ _ _ _ Ha Ha0) as <-.
  split_and!; try done. by apply Hcond with d.
Qed.
End mint_flow.

(** * Properties *)

Section mint_properties.
Context `{RT : !Runtime} `{PC : !PrismaClient} (env : Env).

(** A reservation raises the pending mint of its program in its currency. *)
Lemma pending_after_reservation amt refs e w w' id c :
  good w → mintReservationEntry amt refs = Ok e → books e mint_tables w w' →
  ledger_balance w' id LIABILITY_PENDING_MINT c = ledger_balance w id LIABILITY_PENDING_MINT c +
    (if bool_decide (ref_programId refs = id) && bool_decide (currency amt = c) then minor amt else 0).
Proof.
  intros Hg He HB. pose proof (good_ledger w Hg) as Hok.
  exact (books_transfer _ _ _ _ _ _ _ _ _ _ LIABILITY_PENDING_MINT _ LIABILITY He HB mint_tables_off Hok eq_refl).
Qed.

(** A transfer from the reserve obligation to pending mint changes, of a
    position, the pending mint only. *)
Lemma position_after_reservation amt refs e w w' p :
  good w → mintReservationEntry amt refs = Ok e → books e mint_tables w w' →
  eligible_at w' p = eligible_at w p ∧ obligation_at w' p = obligation_at w p ∧
  buffer_at w' p = buffer_at w p ∧
  pending_mint_at w' p = pending_mint_at w p +
    (if bool_decide (ref_programId refs = Program.id p) && bool_decide (currency amt = Program.referenceCurrency p)
     then minor amt else 0).
Proof.
  intros Hg He HB. pose proof (good_ledger w Hg) as Hok. pose proof mint_tables_off as N.
  assert (tbl w' TLiabilitySnapshot = tbl w TLiabilitySnapshot) as EL.
  { eapply books_tbl; [exact HB|..]; unfold mint_tables, ledger_tables; set_solver. }
  assert (tbl w' TReserveAdjustment = tbl w TReserveAdjustment) as EA.
  { eapply books_tbl; [exact HB|..]; unfold mint_tables, ledger_tables; set_solver. }
  assert (obligation_at w' p = obligation_at w p) as EO.
  { unfold obligation_at. rewrite (circulating_frame w w') by done.
    by rewrite (books_untouched _ _ _ _ _ _ _ _ _ _ LIABILITY_PENDING_REDEMPTION _ LIABILITY He HB N Hok). }
  split_and!; [|done|unfold buffer_at; by rewrite EO|].
  - unfold eligible_at. rewrite !(adjustments_of_frame w w') by done.
    rewrite (books_untouched _ _ _ _ _ _ _ _ _ _ ASSET_TRUSTEE_BANK_CASH _ ASSET He HB N Hok) by done.
    rewrite (books_untouched _ _ _ _ _ _ _ _ _ _ LIABILITY_UNMATCHED_DEPOSIT _ LIABILITY He HB N Hok) by done.
    by rewrite (books_untouched _ _ _ _ _ _ _ _ _ _ LIABILITY_PENDING_REDEMPTION _ LIABILITY He HB N Hok) by done.
  - by apply (pending_after_reservation amt refs e).
Qed.

(** Claim C1 (no mint without every precondition).  If a checker's approval
    succeeds, on any tables within their integrity constraints, then at that
    moment the authorization awaited approval, the checker is an existing user
    other than the maker, and every precondition of the guard held in the
    database: the amount is positive, within the program's mint capacity and in
    its currency (up to case); minting is enabled; no compliance hold or
    suspension applies to the program, its asset or all minting; the program is
    not suspended; no account of the program is restricted or on hold; every
    funding deposit it names, at least one, exists and is cleared; the newest
    verified liability snapshot, the last bank check and, where an age is
    configured for it, the newest proof of reserve are fresh enough; and the
    newest reconciliation run of the program raised no exceptions. *)
Theorem approve_only_when_permitted i c reason w v w'
    (Hg : good w) (H : run (approve env i c reason) w = (Ok v, w')) :
  ∃ auth ap p,
    tbl w TMintAuthorization !! i = Some auth ∧ MintAuthorization.status auth = PENDING_CHECKER ∧
    tbl w TApproval !! Approval.id ap = Some ap ∧ Approval.mintAuthorizationId ap = Some i ∧
    Approval.makerId ap ≠ c ∧ is_Some (tbl w TUser !! c) ∧
    tbl w TProgram !! MintAuthorization.programId auth = Some p ∧ mint_conditions env w auth p.
Proof.
  destruct (run_approve_ok env i c reason w v w' Hg H) as (auth & ap & p & e & a & H').
  destruct_and! H'. exists auth, ap, p. by split_and!.
Qed.

(** Claim C2 (what an approval reserves).  A successful approval leaves the
    authorization ISSUED with an expiry of its time plus the TTL and raises the
    program's pending mint, in the upper-case form of its reference currency, by
    exactly the amount.  Eligible reserve and obligation do not move, and
    obligation, buffer and pending mints stay within the eligible reserve.  The
    capacity falls by exactly the amount when the reference currency is stored
    in upper case; stored otherwise (nothing forbids it), positions read the
    ledger under the stored spelling and the capacity does not move.  No other
    program's capacity changes. *)
Theorem approve_reserves_exactly i c reason w v w'
    (Hg : good w) (H : run (approve env i c reason) w = (Ok v, w')) :
  ∃ auth p a,
    tbl w TMintAuthorization !! i = Some auth ∧
    tbl w TProgram !! MintAuthorization.programId auth = Some p ∧
    tbl w' TMintAuthorization !! i = Some a ∧ MintAuthorization.status a = ISSUED ∧
    MintAuthorization.expiresAt a = Some (clock w + MINT_AUTH_TTL_S env * 1000) ∧
    (let pending x := ledger_balance x (Program.id p) LIABILITY_PENDING_MINT
                        (to_upper (Program.referenceCurrency p)) in
     pending w' = pending w + MintAuthorization.amountMinor auth) ∧
    capacity_at w' p = capacity_at w p -
      (if bool_decide (to_upper (Program.referenceCurrency p) = Program.referenceCurrency p)
       then MintAuthorization.amountMinor auth else 0) ∧
    eligible_at w' p = eligible_at w p ∧ obligation_at w' p = obligation_at w p ∧
    obligation_at w' p + buffer_at w' p + pending_mint_at w' p ≤ eligible_at w' p ∧
    ∀ q, Program.id q ≠ Program.id p → capacity_at w' q = capacity_at w q.
Proof.
  destruct (run_approve_ok env i c reason w v w' Hg H) as (auth & ap & p & e & a & H').
  destruct H' as (Ha & Hst & Hap & Hid & Hne & Hu & Hp & Hc & He & HB & Ha' & Hcore & Hs & Hx).
  pose proof (good_key w Hg TProgram _ _ Hp) as Hk. cbn in Hk.
  pose proof (position_after_reservation _ _ _ _ _ p Hg He HB) as (E1 & E2 & E3 & E4).
  cbn [ref_programId mint_refs currency mint_amount money minor] in E4.
  rewrite bool_decide_true, (mc_same_currency _ _ _ _ Hc) in E4 by done. cbn [andb] in E4.
  pose proof (pending_after_reservation _ _ _ _ _ (Program.id p) (to_upper (Program.referenceCurrency p)) Hg He HB) as EP.
  cbn [ref_programId mint_refs currency mint_amount money minor] in EP.
  rewrite !bool_decide_true in EP by (congruence || apply Hc). cbn [andb] in EP.
  destruct (mc_amount _ _ _ _ Hc) as [Hpos Hle].
  exists auth, p, a. unfold capacity_at in *. rewrite E1, E2, E3, E4. cbv zeta. split_and!; try done; try lia.
  1,2: case_bool_decide; lia.
  intros q Hq. pose proof (position_after_reservation _ _ _ _ _ q Hg He HB) as (F1 & F2 & F3 & F4).
  cbn [ref_programId mint_refs] in F4. rewrite bool_decide_false in F4 by congruence. cbn [andb] in F4.
  rewrite F1, F2, F3, F4. lia.
Qed.
End mint_properties.

(** ** Witnesses: the approval of the scenario *)

Definition demo_pending : World := serve demo_world (take 7 demo_requests).

Definition demo_approve : outcome jsval * World :=
  run (approve (RT := demo_runtime) (PC := ref_client) demo_env "c" "checker" "ok") demo_pending.

Lemma demo_approve_ok : ∃ v, demo_approve = (Ok v, demo_approve.2).
Proof.
  assert (∃ v, demo_approve.1 = Ok v) as [v Hv] by (eexists; vm_compute; reflexivity).
  exists v. rewrite <- Hv. apply surjective_pairing.
Qed.

Lemma approve_only_when_permitted_witness :
  ∃ ap, tbl demo_pending TApproval !! Approval.id ap = Some ap ∧ Approval.makerId ap ≠ "checker".
Proof.
  destruct demo_approve_ok as [v Hv].
  destruct (@approve_only_when_permitted demo_runtime ref_client demo_env "c" "checker" "ok"
              demo_pending v demo_approve.2 (good_prefix 7)) as (auth & ap & p & _ & _ & H1 & _ & H2 & _).
  - exact Hv.
  - exists ap. split; [exact H1|exact H2].
Defined.

Lemma approve_reserves_exactly_witness :
  ∃ p, capacity_at (PC := ref_client) demo_approve.2 p = 900 - 500 ∧
       capacity_at (PC := ref_client) demo_pending p = 900.
Proof.
  destruct demo_approve_ok as [v Hv].
  destruct (@approve_reserves_exactly demo_runtime ref_client demo_env "c" "checker" "ok"
              demo_pending v demo_approve.2 (good_prefix 7)) as (auth & p & a & Ha & Hp & _ & _ & _ & _ & Hc & _).
  - exact Hv.
  - vm_compute in Ha. injection Ha as <-. vm_compute in Hp. injection Hp as <-.
    eexists. split; [etransitivity; [exact Hc|]|]; vm_compute; reflexivity.
Defined.
