(* ===== verification/Flows.v ===== *)
(** What the money-moving operations do when they succeed.

    [moves w w' p c a b z]: between [w] and [w'] the amount [z] went, in the
    books of program [p] and currency [c], from a debit on [a] to a credit on [b],
    and no other balance changed.  [posts ts oe q] and [sets t k P q] are the two
    shapes of a handler that give it: it posts the entry [oe] and otherwise writes
    only the tables [ts]; it leaves row [k] of [t] in a state [P].  The properties
    state, for deposits, mint releases, redemptions, payment orders, settlements
    and loyalty issues, from which state an operation succeeds, what it moves and
    which state it leaves. *)
From S2P Require Import Prelude.
From S2P Require Import Money.
From S2P Require Import Domain.
From S2P Require Import Ledger.
From S2P Require Import Prog.
From S2P Require Import Crypto.
From S2P Require Import Schema.
From S2P Require Import Prisma.
From S2P Require Import Infra.
From S2P Require Import LedgerService.
From S2P Require Import Invariant.
From S2P Require Import ReserveService.
From S2P Require Import Effects.
From S2P Require MintService.
From S2P Require Deposits.
From S2P Require Redemption.
From S2P Require Paykh.
From S2P Require Loyalty.
From S2P Require Import Platform.
From S2P Require Import Demo.
From S2P Require Import System.
From S2P Require Import MintFlow.
#[local] Open Scope string_scope.
#[local] Open Scope list_scope.
#[local] Open Scope Z_scope.

(** * One transfer *)

Definition moves (w w' : World) (p : string) (c : CurrencyCode) (a b : string) (z : Z) : Prop :=
  ∀ q acct d t, ledgerAccountTypeOf acct = Ok t →
    ledger_balance w' q acct d = ledger_balance w q acct d +
      (if bool_decide (p = q) && bool_decide (c = d) then transfer_effect a b acct (debit_positive t) z else 0).

Section shapes.
Context `{RT : !Runtime} `{PC : !PrismaClient} (env : Env).

Definition posts {A} (ts : list table) (oe : outcome JournalEntry) (q : prog World A) : Prop :=
  ∀ w v w', run q w = (Ok v, w') → ∃ e, oe = Ok e ∧ books e ts w w'.

Lemma posts_bind {A B} ts oe (q : prog World A) (k : A → prog World B) :
  writes ts q → (∀ a, posts ts oe (k a)) → posts ts oe (q ≫= k).
Proof.
  intros Hq Hk w v w' H. apply run_bind_ok in H as (a & w1 & H0 & H).
  apply Hk in H as (e & He & HB). exists e. split; [done|].
  eapply books_before; [|exact HB]. by eapply writes_run.
Qed.

Lemma posts_here {A} ts oe (k : string → prog World A) :
  (∀ i, writes ts (k i)) → posts ts oe (e ← lift oe; i ← post e; k i).
Proof.
  intros Hk w v w' H. apply run_bind_ok in H as (e & w1 & H0 & H). rewrite run_lift in H0. injection H0 as He <-.
  apply run_bind_ok in H as (i & w1 & Hp & H). exists e. split; [done|].
  eapply books_after; [by eapply run_post_frames|]. eapply writes_run; [apply Hk|exact H].
Qed.

Lemma posts_throw {A} ts oe (q : prog World A) e : posts ts oe (_ ← q; Throw (A:=A) e).
Proof. intros w v w' H. by apply run_bind_ok in H as (? & ? & _ & H). Qed.

Lemma posts_err {A} ts oe e : posts ts oe (Throw (A:=A) e).
Proof. intros w v w' H. done. Qed.

Definition sets {A} (t : table) (k : string) (P : row t → Prop) (q : prog World A) : Prop :=
  ∀ w v w', run q w = (Ok v, w') → ∃ r, tbl w' t !! k = Some r ∧ P r.

Lemma sets_bind {A B} t k P (q : prog World A) (g : A → prog World B) :
  (∀ a, sets t k P (g a)) → sets t k P (q ≫= g).
Proof. intros Hg w v w' H. apply run_bind_ok in H as (a & w1 & _ & H). by eapply Hg. Qed.

Lemma sets_here {A} ts t k P f (g : row t → prog World A) :
  (∀ r, P (f r)) → t ∉ ts → (∀ r, writes ts (g r)) → sets t k P (update t k f ≫= g).
Proof.
  intros HP Ht Hg w v w' H. apply run_bind_ok in H as (r & w1 & H0 & H).
  apply run_update_ok in H0 as (r0 & Hr0 & -> & -> & _). exists (f r0). split; [|apply HP].
  assert (same_but ts (put t k (f r0) w) w') as Hs by (eapply writes_run; [apply Hg|exact H]).
  rewrite (same_but_tbl _ _ _ t Hs Ht), tbl_put_same. apply lookup_insert_eq.
Qed.

(** What a part of a handler leaves stays when the rest writes elsewhere. *)
Lemma sets_keep {A B} ts t k P (q : prog World A) (g : A → prog World B) :
  sets t k P q → t ∉ ts → (∀ a, writes ts (g a)) → sets t k P (q ≫= g).
Proof.
  intros Hq Ht Hg w v w' H. apply run_bind_ok in H as (a & w1 & H0 & H).
  destruct (Hq _ _ _ H0) as (r & Hr & HP). exists r. split; [|done].
  rewrite (same_but_tbl ts w1 w'); [done|by eapply writes_run|done].
Qed.

Lemma sets_transaction {A} t k P (q : prog World A) : sets t k P q → sets t k P (transaction q).
Proof.
  intros Hq w v w'. rewrite run_transaction. destruct (run q w) as [[a|e] w1] eqn:E; [|done].
  intros [= <- <-]. by eapply Hq.
Qed.

(** The last update of a row, and events after it. *)
Lemma sets_last {A} t k P f (g : row t → prog World A) :
  t ∉ [TAuditLog; TOutboxEvent] → (∀ r, P (f r)) → (∀ r, writes [TAuditLog; TOutboxEvent] (g r)) →
  sets t k P (update t k f ≫= g).
Proof. intros Ht HP Hg. by apply (sets_here [TAuditLog; TOutboxEvent]). Qed.

(** From a posted template to balances. *)
Lemma moves_transfer d a b amt refs e ts w w' :
  transfer_entry d a b amt refs = Ok e → books e ts w w' → off_ledger ts → ledger_ok w →
  moves w w' (ref_programId refs) (currency amt) a b (minor amt) ∧ 0 < minor amt.
Proof.
  intros He HB N Hok. split.
  - intros p acct c t Ht. exact (books_transfer _ _ _ _ _ _ _ _ _ _ _ _ _ He HB N Hok Ht).
  - apply transfer_entry_ok in He as [(? & _) _]. done.
Qed.

(** The reversal of a template moves the amount back. *)
Lemma moves_reversal d a b amt refs e e' source actor reason ts w w' :
  transfer_entry d a b amt refs = Ok e → reverse e source actor reason = Ok e' →
  books e' ts w w' → off_ledger ts → ledger_ok w →
  moves w w' (ref_programId refs) (currency amt) b a (minor amt).
Proof.
  intros He Hr HB N Hok. pose proof (buildJournalEntry_valid _ _ He) as Hv.
  rewrite (reverse_ok _ _ _ _ Hv) in Hr. injection Hr as <-.
  apply transfer_entry_ok in He as [_ ->]. intros p acct c t Ht.
  rewrite (books_balance _ _ _ _ _ _ _ _ HB N Hok Ht). f_equal.
  unfold reversal_of, entry_of. cbn [je_references je_currency je_postings in_references in_currency in_postings ref_programId].
  destruct (_ && _); [|done]. rewrite effect_on_swap, effect_on_transfer. unfold transfer_effect.
  repeat case_bool_decide; destruct (debit_positive t); lia.
Qed.

Lemma moves_deposit d a b c z refs e ts w w' :
  Deposits.deposit_entry d a b c z refs = Ok e → books e ts w w' → off_ledger ts → ledger_ok w →
  moves w w' (ref_programId refs) c a b z ∧ 0 < z.
Proof.
  intros (_ & Hz & _ & ->)%Deposits.deposit_entry_ok HB N Hok. split; [|done].
  intros p acct c' t Ht.
  replace (transfer_effect a b acct (debit_positive t) z)
    with (effect_on acct (debit_positive t) [debit_line a (mkMoney z c); credit_line b (mkMoney z c)])
    by apply effect_on_transfer.
  exact (books_balance _ _ _ _ _ _ _ _ HB N Hok Ht).
Qed.

(** A handler that posts nothing moves nothing. *)
Lemma writes_balance {A} ts (q : prog World A) w v w' p acct c :
  run q w = (Ok v, w') → writes ts q → off_ledger ts →
  ledger_balance w' p acct c = ledger_balance w p acct c.
Proof. intros H Hq [N1 N2]. apply (ledger_balance_frame ts); [|done..]. by eapply writes_run. Qed.

(** The tail of a handler that posts a template and then updates a row. *)
Lemma run_transferred {A} ts t i P d a b amt refs (k : string → prog World A) w v w' :
  good w → off_ledger ts → (∀ x, writes ts (k x)) → (∀ x, sets t i P (k x)) →
  run (e ← lift (transfer_entry d a b amt refs); x ← post e; k x) w = (Ok v, w') →
  (∃ r, tbl w' t !! i = Some r ∧ P r) ∧
  moves w w' (ref_programId refs) (currency amt) a b (minor amt).
Proof.
  intros Hg N Hw Hs H. split.
  - assert (sets t i P (e ← lift (transfer_entry d a b amt refs); x ← post e; k x)) as Hq
      by (apply sets_bind; intros; apply sets_bind; intros; apply Hs).
    exact (Hq _ _ _ H).
  - apply (posts_here ts) in H as (e & He & HB); [|exact Hw].
    by apply (moves_transfer _ _ _ _ _ _ _ _ _ He HB N), good_ledger.
Qed.

Lemma moves_frame ts w w1 w' p c a b z :
  same_but ts w w1 → off_ledger ts → moves w1 w' p c a b z → moves w w' p c a b z.
Proof. intros Hs [N1 N2] H q acct d t Ht. rewrite (H q acct d t Ht). by rewrite (ledger_balance_frame ts w w1). Qed.
End shapes.

Section found.
Context `{PC : !PrismaClient}.
(** A row required by its key, and a guard on it. *)
Lemma run_found {B} t i e (k : row t → prog World B) w v w' :
  run (r ← (r ← find_unique t i; or_throw r e); k r) w = (Ok v, w') →
  ∃ r, tbl w t !! i = Some r ∧ run (k r) w = (Ok v, w').
Proof.
  rewrite run_bind, run_bind, (run_find_unique t), run_or_throw.
  destruct (tbl w t !! i) as [r|]; [|done]. intros H. by exists r.
Qed.
Lemma run_guarded {B} b e (k : prog World B) w v w' :
  run (throw_if b e;; k) w = (Ok v, w') → b = false ∧ run k w = (Ok v, w').
Proof. rewrite run_bind, run_throw_if. by destruct b. Qed.
End found.

(** A handler that reads, checks, posts, updates and reports. *)
Ltac solve_posts :=
  cbv zeta beta;
  repeat first
    [ apply posts_here; intros; solve_writes
    | apply posts_throw | apply posts_err
    | apply posts_bind; [solve_writes|intros; cbv zeta beta]
    | match goal with |- posts _ _ (match ?x with _ => _ end) => destruct x end ].
Ltac solve_sets :=
  cbv zeta beta;
  repeat first
    [ apply sets_last; [solve_in|by intros []; eauto|intros; solve_writes]
    | apply sets_bind; intros; cbv zeta beta ].

(** The state in which a successful run of the rest of a handler leaves a row. *)
Ltac settled t k P H r Hr HP :=
  let Hq := fresh in
  match type of H with
  | run ?q _ = _ => assert (sets t k P q) as Hq by solve_sets; destruct (Hq _ _ _ H) as (r & Hr & HP); clear Hq
  end.

(** The entry a successful run of the rest of a handler booked. *)
Ltac posted ts H e He HB :=
  let Hq := fresh in
  match type of H with
  | run ?q _ = _ => eassert (posts ts _ q) as Hq by solve_posts; destruct (Hq _ _ _ H) as (e & He & HB); clear Hq
  end.

(** * Deposits *)

Section deposits.
Context `{RT : !Runtime} `{PC : !PrismaClient} (env : Env).

Definition event_tables : list table := [TAuditLog; TOutboxEvent].


(** Deposits move their amount.  A registration that succeeds stores a
    DETECTED deposit for a positive amount and moves it from bank cash to the
    unmatched liability; a clearance succeeds only on a MATCHED deposit, leaves it
    CLEARED and moves exactly its amount from the unmatched liability to the
    reserve obligation, in the program and currency of the deposit; no other
    balance of any program changes. *)
Theorem deposits_move w (Hg : good w) :
  (∀ input v w', run (Deposits.register env input) w = (Ok v, w') →
     ∃ i d, tbl w TDeposit !! i = None ∧ tbl w' TDeposit !! i = Some d ∧
       Deposit.status d = DETECTED ∧ 0 < Deposit.amountMinor d ∧
       BigInt (Deposits.rd_amountMinor input) = Ok (Deposit.amountMinor d) ∧
       Deposit.bankTransactionId d = Deposits.rd_bankTransactionId input ∧
       moves w w' (Deposits.rd_programId input) (Deposits.rd_currency input)
         ASSET_TRUSTEE_BANK_CASH LIABILITY_UNMATCHED_DEPOSIT (Deposit.amountMinor d)) ∧
  (∀ i actor v w', run (Deposits.clear env i actor) w = (Ok v, w') →
     ∃ d d', tbl w TDeposit !! i = Some d ∧ Deposit.status d = MATCHED ∧
       tbl w' TDeposit !! i = Some d' ∧ Deposit.status d' = CLEARED ∧
       moves w w' (Deposit.programId d) (Deposit.currency d)
         LIABILITY_UNMATCHED_DEPOSIT LIABILITY_PAYCHAIN_RESERVE_OBLIGATION (Deposit.amountMinor d)).
Proof.
  split.
  - intros input v w' H. unfold Deposits.register in H.
    apply run_bind_ok in H as (oa & w1 & H0 & H). rewrite (run_find_unique TTrusteeAccount) in H0. injection H0 as _ <-.
    apply run_bind_ok in H as (a & w1 & H0 & H). rewrite run_or_throw in H0.
    destruct oa as [a'|]; [|done]. injection H0 as _ <-.
    apply run_bind_ok in H as (z & w1 & H0 & H). rewrite run_lift in H0. injection H0 as Hz <-. cbv zeta in H.
    apply run_bind_ok in H as (t & w1 & H0 & H). unfold new_Date in H0. rewrite run_or_throw in H0.
    destruct (date_parse _) as [t'|]; [|done]. injection H0 as _ <-.
    apply run_bind_ok in H as (d & w1 & H0 & H).
    apply (run_create_ok TDeposit) in H0 as (i & Hi & Ed & -> & _).
    posted event_tables H e He HB.
    assert (same_but [TDeposit] w (put TDeposit i d w)) as Hs by by apply same_but_put_in; left.
    apply (moves_deposit _ _ _ _ _ _ _ _ _ _ He) in HB as HM.
    2: { by apply off_ledger_closed. }
    2: { eapply ledger_ok_frame; [..|exact (good_ledger w Hg)]; apply (same_but_tbl _ _ _ _ Hs); solve_in. }
    destruct HM as [HM Hz0]. apply (moves_frame _ _ _ _ _ _ _ _ _ Hs) in HM; [|by apply off_ledger_closed].
    exists i, d. split_and!; [exact Hi| |by rewrite Ed|by rewrite Ed|by rewrite Ed|by rewrite Ed|].
    + rewrite (books_tbl _ _ _ _ TDeposit HB) by solve_in.
      rewrite tbl_put_same. apply lookup_insert_eq.
    + replace (Deposit.amountMinor d) with z by by rewrite Ed. exact HM.
  - intros i actor v w' H. unfold Deposits.clear, Deposits.requireDeposit in H.
    apply (run_found TDeposit) in H as (d & Hd & H). apply run_guarded in H as [Hst H].
    apply negb_false_iff, bool_decide_eq_true in Hst.
    apply (run_found TTrusteeAccount) in H as (a & _ & H).
    settled TDeposit i (λ d', Deposit.status d' = CLEARED) H d' Hd' Hst'.
    posted (TDeposit :: event_tables) H e He HB.
    apply (moves_deposit _ _ _ _ _ _ _ _ _ _ He) in HB as [HM _];
      [|by apply off_ledger_closed|apply good_ledger, Hg].
    by exists d, d'.
Qed.
End deposits.

(** * Mint releases *)

Section mints.
Context `{RT : !Runtime} `{PC : !PrismaClient} (env : Env).

(** A required authorization, checked for a status. *)
Lemma run_issued {B} i (e : MintAuthorization.t → exn) (k : MintAuthorization.t → prog World B) w v w' :
  run (a ← MintService.requireAuth i;
       throw_if (negb (bool_decide (MintAuthorization.status a = ISSUED))) (e a);; k a) w = (Ok v, w') →
  ∃ a, tbl w TMintAuthorization !! i = Some a ∧ MintAuthorization.status a = ISSUED ∧ run (k a) w = (Ok v, w').
Proof.
  intros H. apply run_bind_ok in H as (a & w1 & H0 & H). apply run_requireAuth_ok in H0 as [-> Ha].
  apply run_guarded in H as [Hst H]. apply negb_false_iff, bool_decide_eq_true in Hst. by exists a.
Qed.

Definition released (w w' : World) (i : string) (st : MintAuthorizationStatus) : Prop :=
  ∃ a a', tbl w TMintAuthorization !! i = Some a ∧ MintAuthorization.status a = ISSUED ∧
    tbl w' TMintAuthorization !! i = Some a' ∧ MintAuthorization.status a' = st ∧
    moves w w' (MintAuthorization.programId a) (to_upper (MintAuthorization.currency a))
      LIABILITY_PENDING_MINT LIABILITY_PAYCHAIN_RESERVE_OBLIGATION (MintAuthorization.amountMinor a).

Definition mint_release_tables : list table := TMintAuthorization :: TMintConfirmation :: event_tables.

(** The shape of the three releases. *)
Lemma run_released {A} i a st source actor (k : string → prog World A) w v w' :
  good w → tbl w TMintAuthorization !! i = Some a → MintAuthorization.status a = ISSUED →
  (∀ x, writes mint_release_tables (k x)) →
  (∀ x, sets TMintAuthorization i (λ a', MintAuthorization.status a' = st) (k x)) →
  run (e ← lift (mintReleaseEntry (MintService.mint_amount a) (MintService.mint_refs source a actor None));
       x ← post e; k x) w = (Ok v, w') →
  released w w' i st.
Proof.
  intros Hg Ha Hst Hw Hs H. eapply (run_transferred mint_release_tables) in H as [(a' & Ha' & Hst') HM];
    [|done|by apply off_ledger_closed|done|done].
  by exists a, a'.
Qed.

Lemma run_expire_ok i actor w v w' :
  good w → run (MintService.expire env i actor) w = (Ok v, w') →
  released w w' i EXPIRED ∨
  (w' = w ∧ ∃ a, tbl w TMintAuthorization !! i = Some a ∧ MintAuthorization.status a ≠ ISSUED).
Proof.
  intros Hg H. unfold MintService.expire in H.
  apply run_bind_ok in H as (a & w1 & H0 & H). apply run_requireAuth_ok in H0 as [-> Ha].
  destruct (bool_decide (MintAuthorization.status a = ISSUED)) eqn:Hst; cbn [negb] in H.
  - apply bool_decide_eq_true in Hst. left.
    eapply run_released; [exact Hg|exact Ha|exact Hst| | |exact H].
    + intros x. solve_writes.
    + intros x. solve_sets.
  - apply bool_decide_eq_false in Hst. injection H as _ <-. right. split; [done|by exists a].
Qed.

Lemma run_revoke_ok i actor reason w v w' :
  good w → run (MintService.revoke i actor reason) w = (Ok v, w') → released w w' i REVOKED.
Proof.
  intros Hg H. unfold MintService.revoke in H. apply run_issued in H as (a & Ha & Hst & H).
  eapply run_released; [exact Hg|exact Ha|exact Hst| | |exact H].
  - intros x. solve_writes.
  - intros x. solve_sets.
Qed.

Lemma run_confirm_ok i input w v w' :
  good w → run (MintService.confirm env i input) w = (Ok v, w') →
  released w w' i CONSUMED ∧
  ∃ a, tbl w TMintAuthorization !! i = Some a ∧
    (∀ t, MintAuthorization.expiresAt a = Some t → clock w ≤ t) ∧
    BigInt (MintService.cm_amountMinor input) = Ok (MintAuthorization.amountMinor a).
Proof.
  intros Hg H. unfold MintService.confirm in H. apply run_issued in H as (a & Ha & Hst & H).
  apply run_bind_ok in H as (t & w1 & H0 & H). unfold now in H0. rewrite run_read in H0. injection H0 as <- <-.
  cbv zeta in H. destruct (match MintAuthorization.expiresAt a with Some e => e <? clock w | None => false end) eqn:Hx.
  { by apply run_bind_ok in H as (? & ? & _ & H). }
  apply run_bind_ok in H as (amount & w1 & H0 & H). rewrite run_lift in H0. injection H0 as Hamt <-.
  apply run_guarded in H as [Hz H]. apply negb_false_iff, Z.eqb_eq in Hz. subst amount. split.
  - eapply run_released; [exact Hg|exact Ha|exact Hst| | |exact H].
    + intros x. solve_writes.
    + intros x. solve_sets.
  - exists a. split_and!; [done| |done]. intros t Ht. rewrite Ht in Hx. by apply Z.ltb_ge.
Qed.

(** Claim C38 (releases restore).  Revoking, expiring and confirming a mint
    succeed only on an ISSUED authorization (expiry of any other is a no-op), a
    confirmation only before its expiry and for exactly its amount; each leaves it
    in its final status and moves exactly the reserved amount back from pending
    mint to the reserve obligation of its program, and no other balance changes. *)
Theorem mint_releases_restore w (Hg : good w) :
  (∀ i actor reason v w', run (MintService.revoke i actor reason) w = (Ok v, w') → released w w' i REVOKED) ∧
  (∀ i actor v w', run (MintService.expire env i actor) w = (Ok v, w') →
     released w w' i EXPIRED ∨
     (w' = w ∧ ∃ a, tbl w TMintAuthorization !! i = Some a ∧ MintAuthorization.status a ≠ ISSUED)) ∧
  (∀ i input v w', run (MintService.confirm env i input) w = (Ok v, w') →
     released w w' i CONSUMED ∧
     ∃ a, tbl w TMintAuthorization !! i = Some a ∧
       (∀ t, MintAuthorization.expiresAt a = Some t → clock w ≤ t) ∧
       BigInt (MintService.cm_amountMinor input) = Ok (MintAuthorization.amountMinor a)).
Proof.
  split_and!.
  - intros i actor reason v w'. apply run_revoke_ok, Hg.
  - intros i actor v w'. apply run_expire_ok, Hg.
  - intros i input v w'. apply run_confirm_ok, Hg.
Qed.
End mints.

(** * Redemptions *)

Section redemptions.
Context `{RT : !Runtime} `{PC : !PrismaClient} (env : Env).

(** Claim C13 (redemptions move their amount).  An approval succeeds only on a
    redemption AWAITING_APPROVAL and by a trustee-bank user, and moves its amount
    from the reserve obligation to pending redemption; a confirmed payout succeeds
    only on a PAYOUT_SUBMITTED one, completes it, and moves the amount from pending
    redemption out of bank cash; the burn and payout steps in between succeed only
    in their order and touch no balance. *)
Theorem redemptions_move w (Hg : good w) :
  (∀ i u reason v w', run (Redemption.approve env i u reason) w = (Ok v, w') →
     ∃ r r' x, tbl w TRedemption !! i = Some r ∧ Redemption.status r = AWAITING_APPROVAL ∧
       tbl w TUser !! u = Some x ∧ User.institution x = "TRUSTEE_BANK" ∧
       tbl w' TRedemption !! i = Some r' ∧ Redemption.status r' = RAPPROVED ∧
       moves w w' (Redemption.programId r) (to_upper (Redemption.currency r))
         LIABILITY_PAYCHAIN_RESERVE_OBLIGATION LIABILITY_PENDING_REDEMPTION (Redemption.amountMinor r)) ∧
  (∀ i h actor v w', run (Redemption.confirmBurn env i h actor) w = (Ok v, w') →
     ∃ r r', tbl w TRedemption !! i = Some r ∧ Redemption.status r ∈ [RAPPROVED; ASSET_LOCKED] ∧
       tbl w' TRedemption !! i = Some r' ∧ Redemption.status r' = BURN_CONFIRMED ∧
       Redemption.burnTxHash r' = Some h ∧ ∀ p acct c, ledger_balance w' p acct c = ledger_balance w p acct c) ∧
  (∀ i actor v w', run (Redemption.submitPayout env i actor) w = (Ok v, w') →
     ∃ r r', tbl w TRedemption !! i = Some r ∧ Redemption.status r = BURN_CONFIRMED ∧
       tbl w' TRedemption !! i = Some r' ∧ Redemption.status r' = PAYOUT_SUBMITTED ∧
       is_Some (Redemption.payoutReference r') ∧
       ∀ p acct c, ledger_balance w' p acct c = ledger_balance w p acct c) ∧
  (∀ i actor v w', run (Redemption.confirmPayout env i actor) w = (Ok v, w') →
     ∃ r r', tbl w TRedemption !! i = Some r ∧ Redemption.status r = PAYOUT_SUBMITTED ∧
       tbl w' TRedemption !! i = Some r' ∧ Redemption.status r' = COMPLETED ∧
       moves w w' (Redemption.programId r) (to_upper (Redemption.currency r))
         LIABILITY_PENDING_REDEMPTION ASSET_TRUSTEE_BANK_CASH (Redemption.amountMinor r)).
Proof.
  split_and!.
  - intros i u reason v w' H. unfold Redemption.approve in H.
    apply (run_found TRedemption) in H as (r & Hr & H). apply run_guarded in H as [Hst H].
    apply negb_false_iff, bool_decide_eq_true in Hst.
    apply run_bind_ok in H as (x & w1 & H0 & H). rewrite (run_find_unique TUser) in H0. injection H0 as Hx <-.
    apply run_guarded in H as [Hi H]. destruct x as [x|]; [|done]. apply negb_false_iff, bool_decide_eq_true in Hi.
    eapply (run_transferred (TRedemption :: event_tables) TRedemption i (λ r', Redemption.status r' = RAPPROVED))
      in H as [(r' & Hr' & Hst') HM]; [|done|by apply off_ledger_closed|intros; solve_writes|intros; solve_sets].
    by exists r, r', x.
  - intros i h actor v w' H. unfold Redemption.confirmBurn in H.
    apply (run_found TRedemption) in H as (r & Hr & H). apply run_guarded in H as [Hst H].
    settled TRedemption i (λ r', Redemption.status r' = BURN_CONFIRMED ∧ Redemption.burnTxHash r' = Some h) H r' Hr' HP.
    exists r, r'. destruct HP as [Hs' Hh]. split_and!; try done.
    + apply andb_false_iff in Hst. rewrite !negb_false_iff, !bool_decide_eq_true in Hst. set_solver.
    + intros. eapply (writes_balance (TRedemption :: event_tables)); [exact H|solve_writes|by apply off_ledger_closed].
  - intros i actor v w' H. unfold Redemption.submitPayout in H.
    apply (run_found TRedemption) in H as (r & Hr & H). apply run_guarded in H as [Hst H].
    apply negb_false_iff, bool_decide_eq_true in Hst.
    settled TRedemption i (λ r', Redemption.status r' = PAYOUT_SUBMITTED ∧ is_Some (Redemption.payoutReference r')) H r' Hr' HP.
    exists r, r'. destruct HP as [Hs' Hh]. split_and!; try done.
    intros. eapply (writes_balance (TRedemption :: event_tables)); [exact H|solve_writes|by apply off_ledger_closed].
  - intros i actor v w' H. unfold Redemption.confirmPayout in H.
    apply (run_found TRedemption) in H as (r & Hr & H). apply run_guarded in H as [Hst H].
    apply negb_false_iff, bool_decide_eq_true in Hst.
    eapply (run_transferred (TRedemption :: event_tables) TRedemption i (λ r', Redemption.status r' = COMPLETED))
      in H as [(r' & Hr' & Hst') HM]; [|done|by apply off_ledger_closed|intros; solve_writes|intros; solve_sets].
    by exists r, r'.
Qed.
End redemptions.

(** * PayKH payments *)

Section payments.
Context `{RT : !Runtime} `{PC : !PrismaClient} (env : Env).

Definition order_moves (w w' : World) (o : PaykhPaymentOrder.t) (a b : string) : Prop :=
  moves w w' (PaykhPaymentOrder.tenantId o) (to_upper (PaykhPaymentOrder.currency o)) a b
    (PaykhPaymentOrder.amountMinor o).

(** The search for a prior use of a bank transaction finds no other order. *)
Lemma first_use w i txn prior k x :
  good w →
  head (where_rows (λ o, bool_decide (PaykhPaymentOrder.matchedBankTransactionId o = Some txn))
          (scan TPaykhPaymentOrder w)) = prior →
  match prior with
  | Some o => if bool_decide (PaykhPaymentOrder.id o = i) then None else Some o
  | None => None
  end = None →
  tbl w TPaykhPaymentOrder !! k = Some x → PaykhPaymentOrder.matchedBankTransactionId x = Some txn → k = i.
Proof.
  intros Hg Hp Ho Hk Hx. destruct prior as [o|].
  - case_bool_decide as Hid; [|done].
    apply (head_where_Some TPaykhPaymentOrder) in Hp as (Ht%bool_decide_eq_true & k' & Hk').
    pose proof (good_key w Hg TPaykhPaymentOrder k' o Hk') as E. cbn in E. rewrite <- Hid, E.
    apply (good_unique w Hg TPaykhPaymentOrder k k' x o Hk Hk').
    apply (shares_key_intro TPaykhPaymentOrder _ _ ("matchedBankTransactionId", [txn])); cbn [unique_keys].
    + rewrite Hx. right. by left.
    + rewrite Ht. right. by left.
  - apply (head_where_None TPaykhPaymentOrder _ w k x) in Hp; [|done]. cbn beta in Hp.
    by rewrite bool_decide_true in Hp.
Qed.

(** Payments move their amount once.  A payment check succeeds either
    by repeating the confirmation of a CONFIRMED order by the same bank
    transaction, which changes nothing, or on an unexpired order awaiting payment,
    by a transaction no other order has used and whose amount, currency, reference
    and recipient match: the order is then CONFIRMED and its amount moves from bank
    cash to the merchant payable.  A refund succeeds only on a CONFIRMED order and
    moves the amount back; a settlement confirmation only on an approved one, and
    pays its amount from the merchant payable out of bank cash. *)
Theorem payments_move w (Hg : good w) :
  (∀ i input v w', run (Paykh.Orders.checkPayment env i input) w = (Ok v, w') →
     (w' = w ∧ ∃ o, tbl w TPaykhPaymentOrder !! i = Some o ∧ PaykhPaymentOrder.status o = ORDER_CONFIRMED ∧
        PaykhPaymentOrder.matchedBankTransactionId o = Some (Paykh.Orders.cp_bankTransactionId input)) ∨
     ∃ o o', tbl w TPaykhPaymentOrder !! i = Some o ∧
       PaykhPaymentOrder.status o ∈ [ORDER_AWAITING_PAYMENT; ORDER_PAYMENT_DETECTED] ∧
       clock w ≤ PaykhPaymentOrder.expiresAt o ∧
       (∀ k x, tbl w TPaykhPaymentOrder !! k = Some x →
          PaykhPaymentOrder.matchedBankTransactionId x = Some (Paykh.Orders.cp_bankTransactionId input) → k = i) ∧
       BigInt (Paykh.Orders.cp_amountMinor input) = Ok (PaykhPaymentOrder.amountMinor o) ∧
       Paykh.Orders.cp_currency input = PaykhPaymentOrder.currency o ∧
       Paykh.Orders.cp_paymentReference input = PaykhPaymentOrder.paymentReference o ∧
       tbl w' TPaykhPaymentOrder !! i = Some o' ∧ PaykhPaymentOrder.status o' = ORDER_CONFIRMED ∧
       order_moves w w' o ASSET_TRUSTEE_BANK_CASH LIABILITY_PAYKH_MERCHANT_PAYABLE) ∧
  (∀ i actor reason v w', run (Paykh.Orders.refund env i actor reason) w = (Ok v, w') →
     ∃ o o', tbl w TPaykhPaymentOrder !! i = Some o ∧ PaykhPaymentOrder.status o = ORDER_CONFIRMED ∧
       tbl w' TPaykhPaymentOrder !! i = Some o' ∧ PaykhPaymentOrder.status o' = ORDER_REFUNDED ∧
       order_moves w w' o LIABILITY_PAYKH_MERCHANT_PAYABLE ASSET_TRUSTEE_BANK_CASH) ∧
  (∀ i actor v w', run (Paykh.Settlements.confirm env i actor) w = (Ok v, w') →
     ∃ s s', tbl w TPaykhSettlement !! i = Some s ∧
       PaykhSettlement.status s ∈ [SETTLEMENT_APPROVED; SETTLEMENT_SUBMITTED] ∧
       tbl w' TPaykhSettlement !! i = Some s' ∧ PaykhSettlement.status s' = SETTLEMENT_CONFIRMED ∧
       moves w w' (PaykhSettlement.tenantId s) (to_upper (PaykhSettlement.currency s))
         LIABILITY_PAYKH_MERCHANT_PAYABLE ASSET_TRUSTEE_BANK_CASH (PaykhSettlement.amountMinor s)).
Proof.
  split_and!.
  - intros i input v w' H. unfold Paykh.Orders.checkPayment in H.
    apply (run_found TPaykhPaymentOrder) in H as (o & Ho & H).
    destruct (bool_decide (PaykhPaymentOrder.status o = ORDER_CONFIRMED)) eqn:Hc.
    { apply bool_decide_eq_true in Hc. case_bool_decide as Hm; [|done]. injection H as _ <-. left. split; [done|by exists o]. }
    right. apply run_guarded in H as [Hst H]. apply andb_false_iff in Hst.
    rewrite !negb_false_iff, !bool_decide_eq_true in Hst.
    apply run_bind_ok in H as (t & w1 & H0 & H). unfold now in H0. rewrite run_read in H0. injection H0 as <- <-.
    destruct (PaykhPaymentOrder.expiresAt o <? clock w) eqn:Hx.
    { by apply run_bind_ok in H as (? & ? & _ & H). }
    apply Z.ltb_ge in Hx.
    apply run_bind_ok in H as (prior & w1 & H0 & H). rewrite (run_find_first TPaykhPaymentOrder) in H0. injection H0 as Hp <-.
    destruct (match prior with Some o => _ | None => None end) as [other|] eqn:Hother.
    { by apply run_bind_ok in H as (? & ? & _ & H). }
    apply run_bind_ok in H as (amount & w1 & H0 & H). rewrite run_lift in H0. injection H0 as Hamt <-.
    apply run_bind_ok in H as (prof & w1 & H0 & H). rewrite (run_find_unique TPaykhPaymentProfile) in H0. injection H0 as Hprof <-.
    destruct (Paykh.Orders.mismatches_of o prof amount input) eqn:Hm.
    2: { by apply run_bind_ok in H as (? & ? & _ & H). }
    unfold Paykh.Orders.mismatches_of in Hm.
    destruct (amount =? PaykhPaymentOrder.amountMinor o) eqn:Ha; [|done].
    destruct (bool_decide (Paykh.Orders.cp_currency input = _)) eqn:Hcur; [|done].
    destruct (bool_decide (Paykh.Orders.cp_paymentReference input = _)) eqn:Href; [|done].
    apply Z.eqb_eq in Ha. apply bool_decide_eq_true in Hcur, Href. subst amount.
    eapply (run_transferred (TPaykhPaymentOrder :: event_tables) TPaykhPaymentOrder i
              (λ o', PaykhPaymentOrder.status o' = ORDER_CONFIRMED))
      in H as [(o' & Ho' & Hst') HM]; [|done|by apply off_ledger_closed|intros; solve_writes|intros; solve_sets].
    exists o, o'. split_and!; try done; [set_solver|].
    intros k x Hk Hmx. by eapply (first_use w i).
  - intros i actor reason v w' H. unfold Paykh.Orders.refund in H.
    apply (run_found TPaykhPaymentOrder) in H as (o & Ho & H). apply run_guarded in H as [Hst H].
    apply negb_false_iff, bool_decide_eq_true in Hst.
    apply run_bind_ok in H as (c & w1 & H0 & H). rewrite run_lift in H0. injection H0 as He <-.
    settled TPaykhPaymentOrder i (λ o', PaykhPaymentOrder.status o' = ORDER_REFUNDED) H o' Ho' Hst'.
    posted (TPaykhPaymentOrder :: event_tables) H e Hr HB.
    exists o, o'. split_and!; try done.
    by eapply (moves_reversal _ _ _ _ _ _ _ _ _ _ _ _ _ He Hr HB); [apply off_ledger_closed|apply good_ledger].
  - intros i actor v w' H. unfold Paykh.Settlements.confirm in H.
    apply (run_found TPaykhSettlement) in H as (s & Hs & H). apply run_guarded in H as [Hst H].
    apply andb_false_iff in Hst. rewrite !negb_false_iff, !bool_decide_eq_true in Hst.
    eapply (run_transferred (TPaykhSettlement :: event_tables) TPaykhSettlement i
              (λ s', PaykhSettlement.status s' = SETTLEMENT_CONFIRMED))
      in H as [(s' & Hs' & Hst') HM]; [|done|by apply off_ledger_closed|intros; solve_writes|intros; solve_sets].
    exists s, s'. split_and!; try done. set_solver.
Qed.
End payments.

(** * Loyalty value *)

Section loyalty.
Context `{RT : !Runtime} `{PC : !PrismaClient} (env : Env).

Definition loyalty_tables : list table :=
  TPaykhProgramFund :: TPaykhLoyaltyLiability :: TPaykhLoyaltyIssuance :: TPaykhLoyaltyRedemption :: event_tables.

Lemma writes_authorizeOnChain ts op l z : writes ts (Loyalty.authorizeOnChain env op l z).
Proof. unfold Loyalty.authorizeOnChain. solve_writes. Qed.

Lemma run_requireEnabled {B} k (q : prog World B) w v w' :
  run (requireEnabled k;; q) w = (Ok v, w') → run q w = (Ok v, w').
Proof.
  intros H. apply run_bind_ok in H as ([] & w1 & H0 & H).
  unfold requireEnabled, isEnabled in H0. apply run_bind_ok in H0 as (b & w2 & H1 & H0).
  rewrite run_bind, (run_find_unique TFeatureFlag) in H1. injection H1 as _ <-.
  rewrite run_throw_if in H0. by injection H0 as _ <-.
Qed.

#[local] Hint Resolve writes_authorizeOnChain : effects.

(** A row updated in the transaction at the end of a handler. *)
Ltac sets_in ts :=
  repeat lazymatch goal with
  | |- sets _ _ _ (transaction _ ≫= _) => apply (sets_keep event_tables); [apply sets_transaction|solve_in|intros; solve_writes]
  | |- sets ?t ?k _ (update ?t ?k _ ≫= _) => apply (sets_here ts); [by intros []|solve_in|intros; solve_writes]
  | |- sets _ _ _ (_ ≫= _) => apply sets_bind; intros; cbv zeta beta
  end.
Ltac settled_in ts t k P H r Hr HP :=
  let Hq := fresh in
  match type of H with
  | run ?q _ = _ => assert (sets t k P q) as Hq by sets_in ts; destruct (Hq _ _ _ H) as (r & Hr & HP); clear Hq
  end.

Lemma run_requireActive {B} m (k : PaykhMerchant.t → prog World B) w v w' :
  run (r ← Paykh.Merchants.requireActive m; k r) w = (Ok v, w') →
  ∃ r, tbl w TPaykhMerchant !! m = Some r ∧ PaykhMerchant.status r = "ACTIVE" ∧
    PaykhMerchant.kycStatus r = "VERIFIED" ∧ run (k r) w = (Ok v, w').
Proof.
  intros H. apply run_bind_ok in H as (r & w1 & H0 & H). unfold Paykh.Merchants.requireActive in H0.
  apply (run_found TPaykhMerchant) in H0 as (x & Hx & H0).
  apply run_guarded in H0 as [Ha H0]. apply run_guarded in H0 as [Hv H0]. injection H0 as <- <-.
  apply negb_false_iff, bool_decide_eq_true in Ha, Hv. by exists x.
Qed.

(** Claim C39 (loyalty value is issued against free funding and redeemed within
    what is outstanding).  An issue succeeds only for a positive amount within the
    part of the program fund that is funded and not reserved; it reserves that
    amount, raises the outstanding value by it, and moves it from the program fund
    to the loyalty liability.  A redemption succeeds only at an active, verified
    merchant and for a positive amount within what is outstanding; it lowers the
    outstanding value by it and moves it to the merchant payable. *)
Theorem loyalty_moves w (Hg : good w) :
  (∀ input v w', run (Loyalty.issue env input) w = (Ok v, w') →
     ∃ l f amt u l' f',
       tbl w TPaykhLoyaltyLiability !! Loyalty.il_liabilityId input = Some l ∧
       tbl w TPaykhProgramFund !! PaykhLoyaltyLiability.programFundId l = Some f ∧
       Loyalty.resolveAmount l (Loyalty.il_amountMinor input) (Loyalty.il_units input) = Ok (amt, u) ∧
       0 < minor amt ≤ PaykhProgramFund.fundedMinor f - PaykhProgramFund.reservedMinor f ∧
       tbl w' TPaykhProgramFund !! PaykhLoyaltyLiability.programFundId l = Some f' ∧
       PaykhProgramFund.reservedMinor f' = PaykhProgramFund.reservedMinor f + minor amt ∧
       tbl w' TPaykhLoyaltyLiability !! Loyalty.il_liabilityId input = Some l' ∧
       PaykhLoyaltyLiability.outstandingMinor l' = PaykhLoyaltyLiability.outstandingMinor l + minor amt ∧
       moves w w' (PaykhLoyaltyLiability.tenantId l) (currency amt)
         LIABILITY_PAYKH_PROGRAM_FUND LIABILITY_PAYKH_LOYALTY_STABLECOIN (minor amt)) ∧
  (∀ input v w', run (Loyalty.redeem env input) w = (Ok v, w') →
     ∃ m l amt u l',
       tbl w TPaykhMerchant !! Loyalty.rl_merchantId input = Some m ∧
       PaykhMerchant.status m = "ACTIVE" ∧ PaykhMerchant.kycStatus m = "VERIFIED" ∧
       tbl w TPaykhLoyaltyLiability !! Loyalty.rl_liabilityId input = Some l ∧
       Loyalty.resolveAmount l (Loyalty.rl_amountMinor input) (Loyalty.rl_units input) = Ok (amt, u) ∧
       0 < minor amt ≤ PaykhLoyaltyLiability.outstandingMinor l ∧
       tbl w' TPaykhLoyaltyLiability !! Loyalty.rl_liabilityId input = Some l' ∧
       PaykhLoyaltyLiability.outstandingMinor l' = PaykhLoyaltyLiability.outstandingMinor l - minor amt ∧
       moves w w' (PaykhLoyaltyLiability.tenantId l) (currency amt)
         LIABILITY_PAYKH_LOYALTY_STABLECOIN LIABILITY_PAYKH_MERCHANT_PAYABLE (minor amt)).
Proof.
  split; intros input v w' H.
  - unfold Loyalty.issue in H. apply run_requireEnabled in H.
    apply (run_found TPaykhLoyaltyLiability) in H as (l & Hl & H).
    apply (run_found TPaykhProgramFund) in H as (f & Hf & H).
    apply run_bind_ok in H as ([amt u] & w1 & H0 & H). rewrite run_lift in H0. injection H0 as Hamt <-.
    cbv zeta in H. cbn [fst snd] in H.
    apply run_guarded in H as [Hpos%Z.leb_gt H]. apply run_guarded in H as [Hle%Z.ltb_ge H].
    pose proof (good_key w Hg TPaykhProgramFund _ _ Hf) as Ef. cbn in Ef. rewrite Ef in H.
    pose proof (good_key w Hg TPaykhLoyaltyLiability _ _ Hl) as El. cbn in El. rewrite El in H.
    settled_in (TPaykhLoyaltyLiability :: TPaykhLoyaltyIssuance :: event_tables) TPaykhProgramFund
      (PaykhLoyaltyLiability.programFundId l)
      (λ f', PaykhProgramFund.reservedMinor f' = PaykhProgramFund.reservedMinor f + minor amt) H f' Hf' HPf.
    settled_in (TPaykhLoyaltyIssuance :: event_tables) TPaykhLoyaltyLiability (Loyalty.il_liabilityId input)
      (λ l', PaykhLoyaltyLiability.outstandingMinor l' = PaykhLoyaltyLiability.outstandingMinor l + minor amt)
      H l' Hl' HPl.
    posted loyalty_tables H e He HB.
    apply (moves_transfer _ _ _ _ _ _ _ _ _ He) in HB as [HM _];
      [|by apply off_ledger_closed|apply good_ledger, Hg].
    exists l, f, amt, u, l', f'. by split_and!.
  - unfold Loyalty.redeem in H. apply run_requireEnabled in H. apply run_requireActive in H as (m & Hm & Ha & Hv & H).
    apply (run_found TPaykhLoyaltyLiability) in H as (l & Hl & H).
    apply run_bind_ok in H as ([amt u] & w1 & H0 & H). rewrite run_lift in H0. injection H0 as Hamt <-.
    cbv zeta in H. cbn [fst snd] in H.
    apply run_guarded in H as [Hpos%Z.leb_gt H]. apply run_guarded in H as [Hle%Z.ltb_ge H].
    pose proof (good_key w Hg TPaykhLoyaltyLiability _ _ Hl) as El. cbn in El. rewrite El in H.
    settled_in (TPaykhLoyaltyRedemption :: event_tables) TPaykhLoyaltyLiability (Loyalty.rl_liabilityId input)
      (λ l', PaykhLoyaltyLiability.outstandingMinor l' = PaykhLoyaltyLiability.outstandingMinor l - minor amt)
      H l' Hl' HPl.
    posted loyalty_tables H e He HB.
    apply (moves_transfer _ _ _ _ _ _ _ _ _ He) in HB as [HM _];
      [|by apply off_ledger_closed|apply good_ledger, Hg].
    exists m, l, amt, u, l'. by split_and!.
Qed.
End loyalty.

(** * Witnesses: the scenario's operations *)

Section witnesses.
Local Existing Instance demo_runtime.
Local Existing Instance ref_client.

Definition before (n : nat) : World := serve demo_world (take n demo_requests).

(** A fund of 1000, its stablecoin bound. *)
Definition demo_loyalty : list (prog World unit) :=
  map discard
    [Loyalty.Funds.create_fund (Loyalty.Funds.mkCreateProgramFund "t" "lp" BACKED_LOYALTY_STABLECOIN "USD" "acc" "ops");
     Loyalty.Funds.fund demo_env "c" "1000" "ops";
     Loyalty.bind_loyalty (Loyalty.mkBindLoyaltyInput "c" None None None None None "ops")].

Definition demo_bound : World := serve demo_world demo_loyalty.

Definition demo_issue : prog World jsval :=
  Loyalty.issue demo_env (Loyalty.mkIssueLoyaltyInput "c" "customer" (Some "400") None "ops").

Lemma good_demo_bound : good demo_bound.
Proof.
  eapply (reachable_good (RT := demo_runtime) (PC := ref_client)); [exact good_demo|].
  apply (reachable_serve (RT := demo_runtime) (PC := ref_client) demo_env None). unfold demo_loyalty. cbn [map].
  repeat apply Forall_cons_2; [..|by apply Forall_nil]; apply r_handler;
    [apply h_fund_create|apply h_fund_fund|apply h_loyalty_bind].
Qed.
End witnesses.

Lemma before_clear : ∃ d, tbl (before 3) TDeposit !! "c" = Some d ∧ Deposit.programId d = "p" ∧
  Deposit.currency d = "USD" ∧ Deposit.amountMinor d = 1000.
Proof. demo_row. Qed.

Lemma before_confirm : ∃ a, tbl (before 8) TMintAuthorization !! "c" = Some a ∧
  MintAuthorization.programId a = "p" ∧ MintAuthorization.currency a = "USD" ∧ MintAuthorization.amountMinor a = 500.
Proof. demo_row. Qed.

Lemma before_payout : ∃ r, tbl (before 13) TRedemption !! "c" = Some r ∧
  Redemption.programId r = "p" ∧ Redemption.currency r = "USD" ∧ Redemption.amountMinor r = 50.
Proof. demo_row. Qed.

Lemma before_settlement : ∃ s, tbl (before 21) TPaykhSettlement !! "c" = Some s ∧
  PaykhSettlement.tenantId s = "t" ∧ PaykhSettlement.currency s = "USD" ∧ PaykhSettlement.amountMinor s = 20.
Proof. demo_row. Qed.

Lemma before_issue : ∃ l, tbl demo_bound TPaykhLoyaltyLiability !! "c" = Some l ∧
  PaykhLoyaltyLiability.tenantId l = "t" ∧
  Loyalty.resolveAmount l (Some "400") None = Ok (mkMoney 400 "USD", None).
Proof. demo_row. Qed.

Lemma deposits_move_witness :
  ∃ w', moves (before 3) w' "p" "USD" LIABILITY_UNMATCHED_DEPOSIT LIABILITY_PAYCHAIN_RESERVE_OBLIGATION 1000.
Proof.
  destruct before_clear as (d & Hd & Hp & Hc & Hz).
  destruct (run_is_ok (Deposits.clear (RT := demo_runtime) (PC := ref_client) demo_env "c" "ops") (before 3))
    as [v Hv]; [vm_compute; reflexivity|].
  destruct (@deposits_move demo_runtime ref_client demo_env (before 3) (good_prefix 3)) as [_ H].
  destruct (H "c" "ops" v _ Hv) as (d0 & d' & Hd0 & _ & _ & _ & HM).
  pose proof (tbl_fun TDeposit _ _ _ _ Hd0 Hd) as ->. rewrite Hp, Hc, Hz in HM. eexists. exact HM.
Defined.

Lemma mint_releases_restore_witness :
  ∃ w', moves (before 8) w' "p" "USD" LIABILITY_PENDING_MINT LIABILITY_PAYCHAIN_RESERVE_OBLIGATION 500.
Proof.
  destruct before_confirm as (a & Ha & Hp & Hc & Hz).
  destruct (run_is_ok (MintService.confirm (RT := demo_runtime) (PC := ref_client) demo_env "c"
     (MintService.mkConfirmMintInput "ptx" "hash" "500" "dest" (Some "7") "0" "sig" "paychain")) (before 8))
    as [v Hv]; [vm_compute; reflexivity|].
  destruct (@mint_releases_restore demo_runtime ref_client demo_env (before 8) (good_prefix 8)) as (_ & _ & H).
  destruct (H "c" _ v _ Hv) as [(a0 & a' & Ha0 & _ & _ & _ & HM) _].
  pose proof (tbl_fun TMintAuthorization _ _ _ _ Ha0 Ha) as ->. rewrite Hp, Hc, Hz in HM. eexists. exact HM.
Defined.

Lemma redemptions_move_witness :
  ∃ w', moves (before 13) w' "p" "USD" LIABILITY_PENDING_REDEMPTION ASSET_TRUSTEE_BANK_CASH 50.
Proof.
  destruct before_payout as (r & Hr & Hp & Hc & Hz).
  destruct (run_is_ok (Redemption.confirmPayout (RT := demo_runtime) (PC := ref_client) demo_env "c" "ops") (before 13))
    as [v Hv]; [vm_compute; reflexivity|].
  destruct (@redemptions_move demo_runtime ref_client demo_env (before 13) (good_prefix 13)) as (_ & _ & _ & H).
  destruct (H "c" _ v _ Hv) as (r0 & r' & Hr0 & _ & _ & _ & HM).
  pose proof (tbl_fun TRedemption _ _ _ _ Hr0 Hr) as ->. rewrite Hp, Hc, Hz in HM. eexists. exact HM.
Defined.

Lemma payments_move_witness :
  ∃ w', moves (before 21) w' "t" "USD" LIABILITY_PAYKH_MERCHANT_PAYABLE ASSET_TRUSTEE_BANK_CASH 20.
Proof.
  destruct before_settlement as (s & Hs & Hp & Hc & Hz).
  destruct (run_is_ok (Paykh.Settlements.confirm (RT := demo_runtime) (PC := ref_client) demo_env "c" "ops") (before 21))
    as [v Hv]; [vm_compute; reflexivity|].
  destruct (@payments_move demo_runtime ref_client demo_env (before 21) (good_prefix 21)) as (_ & _ & H).
  destruct (H "c" _ v _ Hv) as (s0 & s' & Hs0 & _ & _ & _ & HM).
  pose proof (tbl_fun TPaykhSettlement _ _ _ _ Hs0 Hs) as ->. rewrite Hp, Hc, Hz in HM. eexists. exact HM.
Defined.

Lemma loyalty_moves_witness :
  ∃ w', moves demo_bound w' "t" "USD" LIABILITY_PAYKH_PROGRAM_FUND LIABILITY_PAYKH_LOYALTY_STABLECOIN 400.
Proof.
  destruct before_issue as (l & Hl & Hp & Hz).
  destruct (run_is_ok demo_issue demo_bound) as [v Hv]; [vm_compute; reflexivity|].
  destruct (@loyalty_moves demo_runtime ref_client demo_env demo_bound good_demo_bound) as [H _].
  destruct (H _ v _ Hv) as (l0 & f & amt & u & l' & f' & Hl0 & _ & Hr & _ & _ & _ & _ & _ & HM).
  pose proof (tbl_fun TPaykhLoyaltyLiability _ _ _ _ Hl0 Hl) as ->.
  cbn [Loyalty.il_amountMinor Loyalty.il_units] in Hr. rewrite Hz in Hr. injection Hr as <- _.
  rewrite Hp in HM. eexists. exact HM.
Defined.

