(* ===== verification/Findings.v ===== *)
(** Where the code does less than it means to.

    Each theorem exhibits a database reached from the seeded one of [Demo] by
    requests of [Platform.request] alone (or a law of one handler), in which a
    rule the platform states for itself is broken.  The two general laws, of
    [reject] and [confirm], hold in any database. *)
From S2P Require Import Prelude.
From S2P Require Import Money.
From S2P Require Import Domain.
From S2P Require Import Ledger.
From S2P Require Import Prog.
From S2P Require Import Crypto.
From S2P Require Import Schema.
From S2P Require Import Prisma.
From S2P Require Import Infra.
From S2P Require Import LedgerService.
From S2P Require Import Invariant.
From S2P Require Import ReserveService.
From S2P Require Import Effects.
From S2P Require MintService.
From S2P Require Redemption.
From S2P Require Paykh.
From S2P Require Loyalty.
From S2P Require Import Platform.
From S2P Require Import Demo.
From S2P Require Import System.
From S2P Require Import MintFlow.
#[local] Open Scope string_scope.
#[local] Open Scope list_scope.
#[local] Open Scope Z_scope.

(** * The schedules *)

Section schedules.
Local Existing Instance demo_runtime.
Local Existing Instance ref_client.

(** Two handlers in lockstep. *)
Definition lockstep (n : nat) : list nat := concat (replicate n [0; 1]%nat).

Definition confirm_mint (i amount : string) : prog World jsval :=
  MintService.confirm demo_env i
    (MintService.mkConfirmMintInput "ptx" "hash" amount "dest" (Some "7") "0" "sig" "paychain").

(** After the deposit and the liability snapshot: 1000 cleared, 100 circulating;
    two requests of 900 on the same deposit, both reviewed. *)
Definition two_requests : list (prog World unit) :=
  take 5 demo_requests ++ map discard
    [MintService.request (MintService.mkRequestMintAuthorization "p" "r1" "900" ["c"] None None);
     MintService.review "c" "maker";
     MintService.request (MintService.mkRequestMintAuthorization "p" "r2" "900" ["c"] None None);
     MintService.review "cc" "maker"].

(** One approved and confirmed, then the other. *)
Definition one_by_one : list (prog World unit) :=
  two_requests ++ map discard
    [MintService.approve demo_env "c" "checker" "ok"; confirm_mint "c" "900";
     MintService.approve demo_env "cc" "checker" "ok"; confirm_mint "cc" "900"].

(** Both approvals at once. *)
Definition two_approvals : list (prog World unit) :=
  map discard [MintService.approve demo_env "c" "checker" "ok"; MintService.approve demo_env "cc" "checker" "ok"].

(** One authorization, confirmed twice at once. *)
Definition two_confirmations : list (prog World unit) :=
  map discard [confirm_mint "c" "500"; confirm_mint "c" "500"].

(** A settlement approved between its creation and its maker record. *)
Definition self_approval : list (prog World unit) :=
  map discard [Paykh.Settlements.create_settlement "t" "m" "20" "USD" "maker";
               Paykh.Settlements.approve demo_env "c" "maker"].
Definition self_approval_schedule : list nat := [0; 0; 0]%nat ++ replicate 20 1%nat ++ replicate 10 0%nat.

(** A payout submitted while another one is submitted and confirmed: the first one has
    read the redemption and not yet written it. *)
Definition two_payouts : list (prog World unit) :=
  map discard [Redemption.submitPayout demo_env "c" "ops"; Redemption.submitPayout demo_env "c" "ops";
               Redemption.confirmPayout demo_env "c" "ops"].
Definition two_payouts_schedule : list nat := [0]%nat ++ replicate 20 1%nat ++ replicate 40 2%nat ++ replicate 20 0%nat.

(** A funded program, its stablecoin issued, the earmark released, issued again. *)
Definition issue_loyalty : prog World jsval :=
  Loyalty.issue demo_env (Loyalty.mkIssueLoyaltyInput "c" "customer" (Some "100") None "ops").
Definition release_and_reissue : list (prog World unit) :=
  map discard
    [Loyalty.Funds.create_fund (Loyalty.Funds.mkCreateProgramFund "t" "lp" BACKED_LOYALTY_STABLECOIN "USD" "acc" "ops");
     Loyalty.Funds.fund demo_env "c" "100" "ops";
     Loyalty.bind_loyalty (Loyalty.mkBindLoyaltyInput "c" None None None None None "ops");
     issue_loyalty; Loyalty.Funds.release "c" "100" "ops"; issue_loyalty].
End schedules.

Abbreviation demo_reaches := (reachable (RT := demo_runtime) (PC := ref_client) demo_env None) (only parsing).
Abbreviation demo_request := (request (RT := demo_runtime) (PC := ref_client) demo_env None) (only parsing).

Ltac requests := repeat (apply Forall_cons; split; [apply r_handler; by constructor|]); by apply Forall_nil.

Lemma two_requests_ok : Forall demo_request two_requests.
Proof. apply Forall_app. split; [apply Forall_take, demo_requests_all|]. cbn [map]. requests. Qed.

Lemma one_by_one_ok : Forall demo_request one_by_one.
Proof. apply Forall_app. split; [apply two_requests_ok|]. unfold confirm_mint. cbn [map]. requests. Qed.

Lemma demo_serve_reached ps : Forall demo_request ps → demo_reaches demo_world (serve demo_world ps).
Proof. apply (reachable_serve (RT := demo_runtime) (PC := ref_client)). Qed.

Lemma demo_schedule_reached ps sched qs :
  Forall demo_request ps → Forall demo_request qs →
  demo_reaches demo_world (run_schedule sched qs (serve demo_world ps)).2.
Proof.
  intros Hp Hq. apply (reachable_trans (RT := demo_runtime) (PC := ref_client) _ _ _ (serve demo_world ps));
    [by apply demo_serve_reached|].
  by apply (reachable_schedule (RT := demo_runtime) (PC := ref_client)).
Qed.

(** * Minting *)

(** Confirmation reopens capacity.  Confirming a mint releases its
    reservation, while the confirmed amount counts as liability only from PayChain's
    next snapshot.  So two mints of 900 on the same deposit, requested, reviewed,
    approved and confirmed strictly one after the other with valid inputs, are both
    authorized and confirmed although 1000 is cleared and 100 already circulates:
    issued value is then not backed by the reserve. *)
Theorem confirmed_mints_exceed_reserve :
  ∃ w', demo_reaches demo_world w' ∧
    ∃ k1 c1 k2 c2, k1 ≠ k2 ∧
      tbl w' TMintConfirmation !! k1 = Some c1 ∧ tbl w' TMintConfirmation !! k2 = Some c2 ∧
      eligible_at w' demo_program <
        circulating_of (PC := ref_client) w' "p" + MintConfirmation.amountMinor c1 + MintConfirmation.amountMinor c2.
Proof.
  exists (serve demo_world one_by_one). split; [apply demo_serve_reached, one_by_one_ok|].
  exists "c". eexists. exists "cc". eexists. split; [done|]. split; [vm_compute; reflexivity|].
  split; vm_compute; reflexivity.
Qed.

(** Concurrent approvals.  The guard is evaluated before the
    reservation is posted and the two are not one transaction: two approvals in
    flight together both pass it, and the pending mints then exceed what the
    reserve covers. *)
Theorem concurrent_approvals_overissue :
  ∃ w', demo_reaches demo_world w' ∧
    eligible_at w' demo_program <
      obligation_at (PC := ref_client) w' demo_program + pending_mint_at w' demo_program.
Proof.
  exists (run_schedule (lockstep 60) two_approvals (serve demo_world two_requests)).2. split.
  - apply demo_schedule_reached; [apply two_requests_ok|]. unfold two_approvals. cbn [map]. requests.
  - vm_compute. reflexivity.
Qed.

(** Concurrent confirmations.  The release is posted before the unique
    confirmation row is written: of two confirmations of one authorization in
    flight together one fails, but both releases are in the ledger, and pending
    mint is negative. *)
Theorem concurrent_confirmations_double_release :
  ∃ w', demo_reaches demo_world w' ∧ pending_mint_at w' demo_program < 0.
Proof.
  exists (run_schedule (lockstep 40) two_confirmations (serve demo_world (take 8 demo_requests))).2. split.
  - apply demo_schedule_reached; [apply Forall_take, demo_requests_all|].
    unfold two_confirmations, confirm_mint. cbn [map]. requests.
  - vm_compute. reflexivity.
Qed.

(** * Redemptions *)

(** A completed redemption reopened.  A payout is submitted by a handler that read the
    redemption before another one submitted and confirmed its payout: the redemption is
    back in PAYOUT_SUBMITTED with its payout in the ledger, where it can be confirmed, and
    booked, again. *)
Theorem completed_redemption_reopened :
  ∃ w', demo_reaches demo_world w' ∧
    ∃ r, tbl w' TRedemption !! "c" = Some r ∧ Schema.Redemption.status r = PAYOUT_SUBMITTED ∧
      is_Some (Schema.Redemption.completedAt r) ∧ booked "redemption-payout:c" (Schema.Redemption.amountMinor r) w'.
Proof.
  exists (run_schedule two_payouts_schedule two_payouts (serve demo_world (take 12 demo_requests))).2. split.
  - apply demo_schedule_reached; [apply Forall_take, demo_requests_all|]. unfold two_payouts. cbn [map]. requests.
  - eexists. split; [vm_compute; reflexivity|]. split; [vm_compute; reflexivity|]. split; [vm_compute; eexists; reflexivity|].
    exists "cccccc". eexists. split_and!; vm_compute; reflexivity.
Qed.

(** * PayKH *)

(** Self-approved settlement.  The maker of a settlement is recorded two
    writes after the settlement itself, and an approval that finds no maker record
    is not refused: scheduled in between, the maker approves its own settlement. *)
Theorem settlement_self_approval :
  ∃ w', demo_reaches demo_world w' ∧
    ∃ s k l u, tbl w' TPaykhSettlement !! "c" = Some s ∧
      PaykhSettlement.status s = SETTLEMENT_APPROVED ∧ PaykhSettlement.approvedById s = Some u ∧
      tbl w' TAuditLog !! k = Some l ∧ AuditLog.action l = "paykh.settlement.maker" ∧
      AuditLog.subjectId l = Some "c" ∧ AuditLog.actor l = u.
Proof.
  exists (run_schedule self_approval_schedule self_approval (serve demo_world [])).2. split.
  - apply demo_schedule_reached; [by apply Forall_nil|]. unfold self_approval. cbn [map]. requests.
  - eexists. exists "ccc". eexists. exists "maker". split_and!; vm_compute; reflexivity.
Qed.

(** Unbacked loyalty value.  Releasing a program fund does not look at
    the loyalty value issued against it: fund 100, issue 100, release the 100 and
    issue 100 again, and 200 is outstanding against 100 of funding. *)
Theorem loyalty_overissue :
  ∃ w', demo_reaches demo_world w' ∧
    ∃ l f, tbl w' TPaykhLoyaltyLiability !! "c" = Some l ∧
      tbl w' TPaykhProgramFund !! PaykhLoyaltyLiability.programFundId l = Some f ∧
      PaykhProgramFund.fundedMinor f < PaykhLoyaltyLiability.outstandingMinor l.
Proof.
  exists (serve demo_world release_and_reissue). split.
  - apply demo_serve_reached. unfold release_and_reissue, issue_loyalty. cbn [map].
    repeat apply Forall_cons_2; [..|by apply Forall_nil]; apply r_handler;
      [apply h_fund_create|apply h_fund_fund|apply h_loyalty_bind|apply h_loyalty_issue
      |apply h_fund_release|apply h_loyalty_issue].
  - eexists. eexists. split; [vm_compute; reflexivity|]. split; vm_compute; reflexivity.
Qed.

(** * Two laws of the mint handlers *)

Section laws.
Context `{RT : !Runtime} `{PC : !PrismaClient} (env : Env).

(** Rejection whatever the status.  [reject] never looks at the
    status: whenever it succeeds the authorization becomes REJECTED, from
    whatever status it had, ISSUED and CONSUMED included, and no journal entry is
    posted, so the earmark of an issued authorization is never released. *)
Theorem reject_ignores_status i c reason w v w'
    (H : run (MintService.reject env i c reason) w = (Ok v, w')) :
  (∃ a a', tbl w TMintAuthorization !! i = Some a ∧ tbl w' TMintAuthorization !! i = Some a' ∧
     MintAuthorization.status a' = REJECTED) ∧
  ∀ p acct cur, ledger_balance w' p acct cur = ledger_balance w p acct cur.
Proof.
  assert (same_but mint_tables w w') as Hs.
  { eapply writes_run; [|exact H]. unfold MintService.reject, MintService.requireAuthWithApproval, mint_tables.
    solve_writes. }
  split; [|intros; by apply (ledger_balance_frame mint_tables); [|apply mint_tables_off..]].
  unfold MintService.reject in H.
  apply run_bind_ok in H as (x & w1 & H0 & H). apply run_requireAuthWithApproval_ok in H0 as (-> & Ha & _).
  apply run_bind_ok in H as (ap & w1 & H0 & H). rewrite run_or_throw in H0.
  destruct (snd x) as [ap'|]; [|done]. injection H0 as _ <-.
  apply run_bind_ok in H as ([] & w1 & H0 & H). rewrite run_throw_if in H0. injection H0 as _ <-.
  apply run_bind_ok in H as (r & w1 & H0 & H).
  apply (run_update_ok TMintAuthorization) in H0 as (r0 & Hr0 & -> & -> & _).
  exists (fst x), (MintAuthorization.set_status REJECTED r0). split_and!; [done| |by destruct r0].
  assert (same_but [TApproval; TOutboxEvent]
    (put TMintAuthorization i (MintAuthorization.set_status REJECTED r0) w) w') as Hs'.
  { eapply writes_run; [|exact H]. solve_writes. }
  rewrite (same_but_tbl _ _ _ TMintAuthorization Hs') by set_solver. rewrite tbl_put_same. apply lookup_insert_eq.
Qed.

(** Confirmation validates after it releases.  A confirmation of an
    ISSUED, unexpired authorization for the right amount but with a ledger height
    [BigInt] refuses (the controller accepts any numeric string, such as "1.5")
    fails, yet the release of the reservation stays in the ledger while the
    authorization stays ISSUED: the same request can be sent again, each time
    lowering pending mint by the amount. *)
Theorem confirm_releases_then_fails i input w a p s e
    (accepts : takes_ledger_rows) (Hg : good w) (Ha : tbl w TMintAuthorization !! i = Some a)
    (Hst : MintAuthorization.status a = ISSUED)
    (Hexp : ∀ t, MintAuthorization.expiresAt a = Some t → clock w ≤ t)
    (Hamt : BigInt (MintService.cm_amountMinor input) = Ok (MintAuthorization.amountMinor a))
    (Hcur : to_upper (MintAuthorization.currency a) = Program.referenceCurrency p)
    (Hprog : MintAuthorization.programId a = Program.id p)
    (Hrange : in_int64 (MintAuthorization.amountMinor a) = true)
    (Hh : truthy (MintService.cm_ledgerHeight input) = Some s) (Hbad : BigInt s = Err e) :
  ∃ w', run (MintService.confirm env i input) w = (Err e, w') ∧
    tbl w' TMintAuthorization !! i = Some a ∧
    pending_mint_at w' p = pending_mint_at w p - MintAuthorization.amountMinor a.
Proof.
  pose proof (good_row w Hg TMintAuthorization i a Ha) as (Hpos & _).
  unfold MintService.confirm. rewrite run_bind, (run_requireAuth _ _ _ Ha).
  rewrite run_bind, run_throw_if, Hst. cbn [bool_decide decide negb throw_when].
  rewrite run_bind. unfold now. rewrite run_read. cbv zeta.
  replace (match MintAuthorization.expiresAt a with Some e => e <? clock w | None => false end) with false.
  2: { destruct (MintAuthorization.expiresAt a) as [t|]; [|done]. symmetry. apply Z.ltb_ge. by apply Hexp. }
  rewrite run_bind, run_lift, Hamt. rewrite run_bind, run_throw_if, Z.eqb_refl. cbn [negb throw_when].
  set (refs := MintService.mint_refs _ _ _ _).
  assert (∃ e0, mintReleaseEntry (MintService.mint_amount a) refs = Ok e0 ∧ minor (je_totalDebit e0) = MintAuthorization.amountMinor a)
    as (e0 & He0 & Ht).
  { eexists. split; [apply transfer_entry_ok; split; [|reflexivity]|].
    - split_and!; [done|apply to_upper_idem|done|done].
    - unfold debits, entry_of. cbn. lia. }
  rewrite run_bind, run_lift, He0.
  destruct (run_post_total accepts e0 w) as (eid & w' & Hpost).
  { by eapply buildJournalEntry_valid. } { by rewrite Ht. }
  rewrite run_bind, Hpost. rewrite run_bind, Hh, run_bind, run_lift, Hbad.
  pose proof (run_post_frames e0 w eid w' [] Hpost) as HB.
  assert (off_ledger []) as N by (unfold off_ledger; set_solver).
  exists w'. split; [done|]. split.
  - rewrite (books_tbl _ _ _ _ TMintAuthorization HB); [done|set_solver|unfold ledger_tables; set_solver].
  - unfold pending_mint_at.
    rewrite (books_transfer _ _ _ _ _ _ _ _ _ _ LIABILITY_PENDING_MINT _ LIABILITY He0 HB N (good_ledger w Hg)) by done.
    unfold refs. cbn [MintService.mint_refs ref_programId MintService.mint_amount money currency minor].
    rewrite !bool_decide_true by done.
    change (transfer_effect _ _ _ _ _) with (- (MintAuthorization.amountMinor a) + 0).
    cbn [andb]. lia.
Qed.
End laws.

(** ** Witnesses: the scenario's minted authorization, and its issued one *)

Definition demo_reject : outcome jsval * World :=
  run (MintService.reject (RT := demo_runtime) (PC := ref_client) demo_env "c" "checker" "no") demo_final.

Lemma demo_reject_ok : ∃ v, demo_reject = (Ok v, demo_reject.2).
Proof.
  assert (∃ v, demo_reject.1 = Ok v) as [v Hv] by (eexists; vm_compute; reflexivity).
  exists v. rewrite <- Hv. apply surjective_pairing.
Qed.

(** The authorization PayChain has already minted on becomes REJECTED. *)
Lemma reject_ignores_status_witness :
  (∃ a, tbl demo_final TMintAuthorization !! "c" = Some a ∧ MintAuthorization.status a = CONSUMED) ∧
  ∃ a', tbl demo_reject.2 TMintAuthorization !! "c" = Some a' ∧ MintAuthorization.status a' = REJECTED.
Proof.
  split; [destruct demo_final_mint as (a & H1 & H2 & _); exact (ex_intro _ a (conj H1 H2))|].
  destruct demo_reject_ok as [v Hv].
  destruct (@reject_ignores_status demo_runtime ref_client demo_env "c" "checker" "no" demo_final v demo_reject.2 Hv)
    as [(a & a' & _ & H & Hs) _].
  exact (ex_intro _ a' (conj H Hs)).
Defined.

Definition demo_issued : World := serve demo_world (take 8 demo_requests).

Definition demo_bad_height : MintService.ConfirmMintInput :=
  MintService.mkConfirmMintInput "ptx" "hash" "500" "dest" (Some "1.5") "0" "sig" "paychain".

Lemma demo_issued_mint : ∃ a x, tbl demo_issued TMintAuthorization !! "c" = Some a ∧
  MintAuthorization.status a = ISSUED ∧ MintAuthorization.expiresAt a = Some x ∧ (clock demo_issued <=? x) = true ∧
  MintAuthorization.amountMinor a = 500 ∧ MintAuthorization.currency a = "USD" ∧
  MintAuthorization.programId a = "p".
Proof. do 2 eexists. split_and!; vm_compute; reflexivity. Qed.

Lemma confirm_releases_then_fails_witness :
  ∃ w' e, run (MintService.confirm (RT := demo_runtime) (PC := ref_client) demo_env "c" demo_bad_height) demo_issued
            = (Err e, w') ∧
    pending_mint_at w' demo_program =
    pending_mint_at demo_issued demo_program - 500.
Proof.
  destruct demo_issued_mint as (a & x & Ha & Hs & Hx & Hle & Hamt & Hcur & Hp).
  destruct (BigInt "1.5") as [z|e] eqn:Hbad; [vm_compute in Hbad; discriminate Hbad|].
  destruct (@confirm_releases_then_fails demo_runtime ref_client demo_env "c" demo_bad_height demo_issued
              a demo_program "1.5" e (λ t k r w _, ref_client_accepts t k r w) (good_prefix 8) Ha Hs) as (w' & Hr & _ & Hm).
  - intros t Ht. rewrite Hx in Ht. injection Ht as <-. by apply Z.leb_le.
  - rewrite Hamt. reflexivity.
  - rewrite Hcur. reflexivity.
  - rewrite Hp. reflexivity.
  - rewrite Hamt. reflexivity.
  - reflexivity.
  - exact Hbad.
  - exists w', e. rewrite Hamt in Hm. split; [exact Hr|exact Hm].
Defined.
