(* ===== verification/Access.v ===== *)
(** Who reaches which route.

    [audience] says which platform a controller is for, as the comments of the
    controllers say it; [api_access] that a request written as the route is declared
    is only served for that platform: an operator of the trustee bank with the
    permission the route names, or an enabled client of the platform.  The router,
    which is Express, is a parameter; [anonymous_case_variant] shows what its
    treatment of letter case does to the guards. *)
From S2P Require Import Prelude.
From S2P Require Import Text.
From S2P Require Import Domain.
From S2P Require Import Prog.
From S2P Require Import Crypto.
From S2P Require Import Schema.
From S2P Require Import Prisma.
From S2P Require Import Infra.
From S2P Require Import Invariant.
From S2P Require Import Site.
From S2P Require Import Demo.
From S2P Require Import Accounts.
From S2P Require Import Gate.
From S2P Require Import Platform.
From S2P Require Import Controllers.
From S2P Require Import TrusteeControllers.
From S2P Require Import Routes.
From S2P Require Import Router.
From S2P Require Deposits.
From S2P Require MintFlow.
#[local] Open Scope string_scope.
#[local] Open Scope list_scope.
#[local] Open Scope Z_scope.

(** The request is for the call: its method and its path, written as declared. *)
Definition spelled (rq : HttpRequest) (c : Call) : Prop :=
  rq_method rq = rt_method (route c) ∧ rq_path rq = fill (rt_path (route c)) (rt_params (route c)).

(** * The platform of a controller *)

Definition audience (c : Call) : option string :=
  match c with
  | SystemCall _ | PortalCall _ | AuthCall _ => None
  | FundingCall _ | ReserveCall _ | LiabilityCall _ | MintCall _ | RedemptionCall _
  | PaychainReconciliationCall _ | PaychainAttestationCall _ => Some "PAYCHAIN"
  | PaykhReconciliationCall _ | PaykhAttestationCall _ | PaykhCall _ => Some "PAYKH"
  | ProgramsCall _ | RegistryCall _ | AdminCall _ | OperationsCall _ | DepositsCall _ | ReserveBankCall _
  | TrusteeMintCall _ | TrusteeRedemptionCall _ | TrusteeAttestationCall _ | LoyaltyBankCall _ => Some "TRUSTEE_BANK"
  end.

Lemma namespace_audience c : requiredPlatform (fill (rt_path (route c)) (rt_params (route c))) = audience c.
Proof. destruct c as [c|c|c|c|c|c|c|c|c|c|c|c|c|c|c|c|c|c|c|c|c|c|c]; destruct c; reflexivity. Qed.

Section access.
Context `{RT : !Runtime} `{PC : !PrismaClient} `{RD : !Redis} (env : Env) (probe : World → bool).

(** An operator's session, for the trustee's routes, with the permission. *)
Definition operator_admitted (rq : HttpRequest) (c : Call) (w : World) : Prop :=
  audience c = Some "TRUSTEE_BANK" ∧
  ∃ u, session_shown env rq u w ∧
    ∀ p, rt_permission (route c) = Some p →
      ∃ k r, tbl w TRole !! k = Some r ∧ Role.slug r ∈ up_roles u ∧ permission_slug p ∈ Role.permissions r.

(** An enabled client of the platform, whose request is signed where it must be. *)
Definition client_admitted (rq : HttpRequest) (c : Call) (w w' : World) : Prop :=
  ∃ p, audience c = Some (ac_platform p) ∧ client_shown rq p w ∧
    ∀ k row, tbl w TClientApplication !! k = Some row → ClientApplication.oauthClientId row = ac_oauthClientId p →
      changes_value rq = true → ClientApplication.requireSignature row = true → signature_shown env rq row w w'.

(** Claim C9 (client separation).  A request that is written as a route is declared
    reaches the method only if the route is open; or the route is the trustee bank's
    and the request carries a valid session of one of its operators, past enrolment,
    with a role that holds the permission the route names; or it carries the
    credentials of an enabled client of the platform the controller is for, and a
    fresh signature where the client signs.  Nothing in the database but a nonce has
    changed before the method runs (the counters of the rate limit and the usage, in
    memory or in Redis, do). *)
Theorem api_access rq c s b s' (Hg : site_good s) (Hrq : spelled rq c)
    (H : run (respond env probe rq c) s = (Ok b, s')) :
  ∃ s1, run (serve env probe rq c) s1 = (Ok b, s') ∧
    (db s1 = db s ∨ ∃ nonce r, db s1 = put TNonceUsage nonce r (db s)) ∧
    (audience c = None ∨ operator_admitted rq c (db s) ∨ client_admitted rq c (db s) (db s1)).
Proof.
  unfold respond in H. apply run_bind_ok in H as (pr & s1 & Hgd & H). exists s1. split; [done|].
  destruct (guards_sound env _ rq s pr s1 Hg Hgd) as [Hdb Hpr]. split; [done|].
  destruct Hrq as [_ Hpath]. pose proof (namespace_audience c) as Hns. rewrite <- Hpath in Hns. rewrite <- Hns.
  destruct pr as [[u|p]|]; [| |by left].
  - right; left. destruct Hpr as [Hs Hp]. unfold operator_admitted. rewrite <- Hns. split; [apply Hs|]. exists u. split; [done|].
    intros p Hperm. apply Hp. by rewrite Hperm.
  - right; right. destruct Hpr as [Hs Hsig]. exists p. rewrite <- Hns. split; [apply Hs|]. by split.
Qed.

(** ** Letter case

    Express takes a request to a route whatever the case of the letters of its path
    ("case sensitive routing" is off unless an application sets it, and this one does
    not), and leaves [req.path] as it was sent.  [matches path ps q]: the router takes
    the request path [q] to the declared [path], its names being [ps]. *)
Definition shouted (c : Call) (body : jsval) : HttpRequest :=
  mkHttpRequest (rt_method (route c)) (fill (to_upper (rt_path (route c))) (rt_params (route c))) (λ _, None) body.

Lemma shouted_namespace c : requiredPlatform (fill (to_upper (rt_path (route c))) (rt_params (route c))) = None.
Proof. destruct c as [c|c|c|c|c|c|c|c|c|c|c|c|c|c|c|c|c|c|c|c|c|c|c]; destruct c; reflexivity. Qed.

Lemma shouted_letters c : to_lower (to_upper (rt_path (route c))) = to_lower (rt_path (route c)).
Proof. destruct c as [c|c|c|c|c|c|c|c|c|c|c|c|c|c|c|c|c|c|c|c|c|c|c]; destruct c; reflexivity. Qed.

(** Letter case opens every route.  With a router that does not mind the
    case of letters, every route of the application, whatever its platform and
    permission, can be reached by a request without any header: the guards let it
    pass unseen, and it is served as if there were none. *)
Theorem anonymous_case_variant (matches : string → list string → string → Prop)
    (Hcase : ∀ path path' ps, to_lower path' = to_lower path → length ps = names (segments path) → Forall value_ok ps →
               matches path ps (fill path' ps))
    c body (Hps : Forall value_ok (rt_params (route c))) :
  ∃ rq, rq_method rq = rt_method (route c) ∧ matches (rt_path (route c)) (rt_params (route c)) (rq_path rq) ∧
    (∀ h, rq_header rq h = None) ∧ rq_body rq = body ∧
    ∀ s, run (respond env probe rq c) s = run (serve env probe rq c) s.
Proof.
  exists (shouted c body). split_and!; [done|by apply Hcase; [apply shouted_letters|apply route_names|]|done|done|]. intros s.
  unfold respond, guards, separation_guard. cbn [rq_path shouted]. rewrite shouted_namespace.
  by destruct (permission_slug <$> rt_permission (route c)).
Qed.
(** ** Roles and names

    No route of the bank's or the registry's controllers names a permission, and no
    method asks who is logged in: the [makerId], [checkerId] or [actor] it records is
    the one the body gives. *)
Lemma bank_routes_unrestricted c :
  audience c = Some "TRUSTEE_BANK" → rt_permission (route c) = None ∨ (∃ a, c = AdminCall a) ∨ ∃ o, c = OperationsCall o.
Proof. destruct c as [c|c|c|c|c|c|c|c|c|c|c|c|c|c|c|c|c|c|c|c|c|c|c]; destruct c; try discriminate; intros _; eauto. Qed.

(** Any operator under any name.  A valid session of the trustee bank,
    whatever its roles and whoever its user, passes the guards of every route of the
    bank that names no permission (the review, approval, rejection and revocation of
    mints, deposits, payouts, reserves, attestations), and the method runs as it
    would for any other request: the maker and the checker of an approval are what
    the body says. *)
Theorem operator_acts_as_anyone rq c s t u (Hrq : spelled rq c) (Ha : audience c = Some "TRUSTEE_BANK")
    (Hp : rt_permission (route c) = None) (Hb : bearer rq = Some t) (Ht : t ≠ "")
    (Hu : verifyToken env t (clock (db s)) = Ok (Some u)) (Hi : up_institution u = "TRUSTEE_BANK")
    (Hm : up_mfaPending u = false) :
  run (respond env probe rq c) s = run (serve env probe rq c) s ∧ ∀ rq', serve env probe rq' c = serve env probe rq c.
Proof.
  split; [|intros rq'; by destruct c].
  destruct Hrq as [_ Hpath].
  assert (run (separation_guard env rq) (db s) = (Ok (Some (UserSession u)), db s)) as Hsep.
  { unfold separation_guard. rewrite Hpath, namespace_audience, Ha, Hb. unfold truthy. rewrite bool_decide_eq_false_2 by done.
    cbn. rewrite Hu. cbn. by rewrite Hi, Hm. }
  unfold respond. rewrite (run_bind_at _ _ s (Some (UserSession u)) s); [done|].
  unfold guards. rewrite (run_bind_at _ _ s (Some (UserSession u)) s); [by rewrite Hp|].
  rewrite run_on_db, Hsep. by destruct s.
Qed.
End access.

(** * The properties at concrete requests *)

(** A signed request of the PayChain client. *)
Definition demo_signed (path : string) (body : jsval) : HttpRequest :=
  let unsigned := mkHttpRequest "POST" path (demo_headers "") body in
  mkHttpRequest "POST" path
    (demo_headers (@ed_sign toy_crypto "client-key"
       (canonicalize (@signed_subject demo_runtime unsigned "paychain-1" "1700000020000" "nonce-1")))) body.

Definition demo_funding : Call :=
  FundingCall (FundingController.create (Deposits.Funding.mkCreateFundingInstruction "p" "req-9" "PUSD" "Depositor" None
    "acc" "500" "USD" "BANK_TRANSFER" None "paychain")).

Definition demo_funding_request : HttpRequest :=
  demo_signed "/api/v1/paychain/funding-instructions"
    (JObj [("programId", JStr "p"); ("paychainRequestId", JStr "req-9"); ("assetId", JStr "PUSD");
           ("depositor", JStr "Depositor"); ("beneficiaryAccountId", JStr "acc"); ("amountMinor", JStr "500");
           ("currency", JStr "USD"); ("permittedMethod", JStr "BANK_TRANSFER"); ("actor", JStr "paychain")]).

Lemma api_access_witness :
  ∃ b s', run (@respond demo_runtime ref_client (toy_redis true) demo_env (λ _, true) demo_funding_request demo_funding) (demo_site true) = (Ok b, s') ∧
    (@operator_admitted demo_runtime demo_env demo_funding_request demo_funding demo_access ∨
     ∃ w', @client_admitted demo_runtime demo_env demo_funding_request demo_funding demo_access w').
Proof.
  destruct (run_is_ok (@respond demo_runtime ref_client (toy_redis true) demo_env (λ _, true) demo_funding_request demo_funding) (demo_site true))
    as [b Hrun]; [vm_compute; reflexivity|].
  exists b. eexists. split; [exact Hrun|].
  destruct (@api_access demo_runtime ref_client (toy_redis true) demo_env (λ _, true) demo_funding_request demo_funding
              (demo_site true) b _ good_demo_access (conj eq_refl eq_refl) Hrun) as (s1 & _ & _ & [H|[H|H]]);
    [discriminate H|left; exact H|right; exists (db s1); exact H].
Defined.

(** An approval of the mint that [MintFlow] leaves pending, sent by nobody. *)
Definition demo_approval : Call := TrusteeMintCall (TrusteeMintController.approve "c" "checker" "ok").

Definition demo_pending_site : @Site (toy_redis true) :=
  @mkSite (toy_redis true) MintFlow.demo_pending ∅ false (∅ : gmap string (rvalue * option Z)).

Lemma anonymous_case_variant_witness :
  ∃ rq, (∀ h, rq_header rq h = None) ∧
    ∃ b, (run (@respond demo_runtime ref_client (toy_redis true) demo_env (λ _, true) rq demo_approval) demo_pending_site).1 = Ok b.
Proof.
  destruct (@anonymous_case_variant demo_runtime ref_client (toy_redis true) demo_env (λ _, true)
              (λ path ps q, route_match path q = Some ps) route_match_fill demo_approval (JObj []))
    as (rq & _ & _ & Hh & _ & Hrun); [repeat constructor; discriminate|].
  exists rq. split; [exact Hh|]. rewrite Hrun.
  destruct (run_is_ok (@serve demo_runtime ref_client (toy_redis true) demo_env (λ _, true) (shouted demo_approval (JObj [])) demo_approval) demo_pending_site)
    as [b Hb]; [vm_compute; reflexivity|].
  exists b. exact (f_equal fst Hb).
Defined.

(** A session without roles approves that mint in the name of [checker]. *)
Definition demo_nobody : UserPrincipal := mkUserPrincipal "intern" "intern@bank" "TRUSTEE_BANK" [] false.

Definition demo_session_request : HttpRequest :=
  mkHttpRequest "POST" "/api/v1/bank/mint-authorizations/c/approve"
    (λ h, if bool_decide (h = "authorization")
          then Some ("Bearer " +:+ @token_at demo_runtime demo_env demo_nobody (clock MintFlow.demo_pending)) else None)
    (JObj [("checkerId", JStr "checker"); ("reason", JStr "ok")]).

Lemma operator_acts_as_anyone_witness :
  ∃ b, (run (@respond demo_runtime ref_client (toy_redis true) demo_env (λ _, true) demo_session_request demo_approval) demo_pending_site).1 = Ok b.
Proof.
  destruct (@operator_acts_as_anyone demo_runtime ref_client (toy_redis true) demo_env (λ _, true) demo_session_request demo_approval
              demo_pending_site (@token_at demo_runtime demo_env demo_nobody (clock MintFlow.demo_pending)) demo_nobody)
    as [Hrun _]; [split; vm_compute; reflexivity|reflexivity|reflexivity|vm_compute; reflexivity|vm_compute; discriminate
                 |vm_compute; reflexivity|reflexivity|reflexivity|].
  rewrite Hrun.
  destruct (run_is_ok (@serve demo_runtime ref_client (toy_redis true) demo_env (λ _, true) demo_session_request demo_approval) demo_pending_site)
    as [b Hb]; [vm_compute; reflexivity|].
  exists b. exact (f_equal fst Hb).
Defined.
