(* ===== verification/AuditFlow.v ===== *)
(** The audit against the platform: its requests are routes of the application, what
    the platform answers makes the ledger check pass, and what the control of the
    liability feed does to a platform that accepts unsigned snapshots. *)
From S2P Require Import Prelude.
From S2P Require Import Text.
From S2P Require Import Money.
From S2P Require Import Prog.
From S2P Require Import Crypto.
From S2P Require Import Credentials.
From S2P Require Import Schema.
From S2P Require Import Prisma.
From S2P Require Import Infra.
From S2P Require Import Invariant.
From S2P Require Import Demo.
From S2P Require Import ReserveService.
From S2P Require Import Worker.
From S2P Require Import JsValue.
From S2P Require Import Adapters.
From S2P Require Import EndToEnd.
From S2P Require Import AuditGate.
From S2P Require Import Controllers.
From S2P Require Import TrusteeControllers.
From S2P Require Import Routes.
From S2P Require Import Router.
From S2P Require Import Access.
From S2P Require Redemption.
From S2P Require Operations.
#[local] Open Scope string_scope.
#[local] Open Scope list_scope.
#[local] Open Scope Z_scope.

(** * The requests of the audit are routes of the application *)

(** The credentials for a controller's platform. *)
Definition creds_for (cfg : AuditConfig) (o : option string) : Creds :=
  match o with
  | Some p => if bool_decide (p = "PAYCHAIN") then paychain_creds cfg else bank_creds cfg
  | None => anonymous (trusteeBase cfg)
  end.

(** The snapshot that the control C-06 posts. *)
Definition audit_snapshot (p : string) (now : Z) : Redemption.Liability.LiabilitySnapshotInput :=
  Redemption.Liability.mkLiabilitySnapshotInput p "AUDIT" "AUDIT" "stellar-testnet" "G_AUDIT" "1" "0" "0" "0" "0" "0" "0" "1"
    "USD" "audit" "audit" (big_to_string now) (toISOString 0) None.

(** The calls of [TrusteeClient] and the methods of the application they are for. *)
Definition contract (cfg : AuditConfig) (p id : string) (now : Z) : list (ApiCall * Call) :=
  [(health cfg, SystemCall SystemController.health); (jwks cfg, SystemCall SystemController.keys);
   (reserveCurrent cfg p, ReserveCall (ReserveController.current p));
   (createPor cfg p, ReserveCall (ReserveController.snapshot p)); (latestPor cfg p, ReserveCall (ReserveController.latest p));
   (loyaltyList cfg, LoyaltyBankCall LoyaltyBankController.list_);
   (loyaltyReconcile cfg id, LoyaltyBankCall (LoyaltyBankController.reconcile id));
   (bankReconcile cfg p, ReserveBankCall (ReserveBankController.bankReconcile p));
   (trialBalance cfg p, OperationsCall (OperationsController.trialBalance p));
   (postUnsignedLiability cfg p now, LiabilityCall (LiabilityController.ingest (audit_snapshot p now)))].

(** The audit speaks the API: method, path and credentials of every call are those of
    a route of the application, and the body of C-06 is the snapshot. *)
Theorem audit_speaks_api cfg p id now :
  Forall (λ ac, ac_method ac.1 = rt_method (route ac.2) ∧
                ac_path ac.1 = fill (rt_path (route ac.2)) (rt_params (route ac.2)) ∧
                ac_creds ac.1 = creds_for cfg (audience ac.2)) (contract cfg p id now) ∧
  ac_body (postUnsignedLiability cfg p now) = Some (Redemption.Liability.signable (audit_snapshot p now)).
Proof. split; [|reflexivity]. repeat (apply Forall_cons_2; [split_and!; reflexivity|]). apply Forall_nil_2. Qed.

(** * The control of the liability feed *)

Section feed.
Context `{RT : !Runtime} `{PC : !PrismaClient} (env : Env).
Import Redemption.Liability.

Lemma run_lift_step {A B} (o : outcome A) (k : A → prog World B) (w : World) b w' :
  run (lift o ≫= k) w = (Ok b, w') → ∃ a, o = Ok a ∧ run (k a) w = (Ok b, w').
Proof. rewrite run_bind, run_lift. destruct o as [a|e]; [by exists a|done]. Qed.

Lemma verify_snapshot_reads input w b w' : run (verify_snapshot env input) w = (Ok b, w') → w' = w ∧ b = true.
Proof.
  unfold verify_snapshot. intros H.
  assert (run (required ← isEnabled "liability.signature.required" false;
    throw_if required (BadRequestException "Liability snapshot must be signed and PAYCHAIN_LIABILITY_PUBLIC_KEY configured (liability.signature.required is enabled)." []);;
    mret true) w = (Ok b, w') → w' = w ∧ b = true) as Hflag.
  { clear. intros H. unfold isEnabled, find_unique in H. by inv_run. }
  destruct (truthy _), (signature input); try by apply Hflag. cbv zeta in H.
  apply run_bind_ok in H as ([] & w1 & H1 & H2). rewrite run_throw_if in H1. injection H1 as H1 <-.
  apply throw_when_ok, negb_false_iff in H1. injection H2 as <- <-. by rewrite H1.
Qed.

(** What an accepted snapshot leaves: a row with its sequence, above all others of the
    program. *)
Lemma ingest_stores input w r w' :
  run (ingest env input) w = (Ok r, w') →
  ∃ k row seq circ t, BigInt (sequence input) = Ok seq ∧ BigInt (circulatingMinor input) = Ok circ ∧
    date_parse (snapshotTimestamp input) = Some t ∧
    tbl w TLiabilitySnapshot !! k = None ∧ w' = put TLiabilitySnapshot k row w ∧
    LiabilitySnapshot.programId row = programId input ∧ LiabilitySnapshot.sequence row = seq ∧
    LiabilitySnapshot.circulatingMinor row = circ ∧ LiabilitySnapshot.signatureVerified row = true ∧
    LiabilitySnapshot.snapshotTimestamp row = t ∧
    ∀ k' s, tbl w TLiabilitySnapshot !! k' = Some s → LiabilitySnapshot.programId s = programId input →
      LiabilitySnapshot.sequence s < seq.
Proof.
  unfold ingest. intros (seq & Hseq & H)%run_lift_step. unfold find_first_desc in H. rewrite run_bind, run_read in H. cbv beta iota in H.
  set (latest := max_by _ _) in *. apply run_bind_ok in H as ([] & w1 & H1 & H). rewrite run_throw_if in H1. injection H1 as H1 <-.
  apply throw_when_ok in H1. apply run_bind_ok in H as (v & w2 & [-> ->]%verify_snapshot_reads & H).
  apply run_lift_step in H as (circ & Hc & H). do 7 (apply run_lift_step in H as (? & _ & H)).
  apply run_bind_ok in H as (t & w1 & H2 & H). unfold new_Date in H2. rewrite run_or_throw in H2. injection H2 as H2 <-.
  apply run_bind_ok in H as (created & w2 & H3 & H). injection H as _ <-.
  apply (run_create_ok TLiabilitySnapshot) in H3 as (k & Hk & Hr & -> & _).
  exists k, created, seq, circ, t. rewrite Hr. cbn. split_and!; try done.
  - destruct (date_parse (snapshotTimestamp input)); [by injection H2 as ->|discriminate H2].
  - intros k' s Hs Hp.
    assert (s ∈ where_rows (λ s, bool_decide (LiabilitySnapshot.programId s = programId input)) (scan TLiabilitySnapshot w)) as Hin.
    { apply elem_of_where. split; [by apply bool_decide_eq_true|]. apply (elem_of_scan TLiabilitySnapshot). by exists k'. }
    destruct latest as [l|] eqn:El; [|apply max_by_None in El; destruct (not_elem_of_nil s); exact (eq_ind _ (λ l, s ∈ l) Hin _ El)].
    apply max_by_Some in El as [_ Hmax]. specialize (Hmax s Hin). apply Z.leb_gt in H1. lia.
Qed.

Lemma max_by_top {A} (f : A → Z) l x : x ∈ l → (∀ y, y ∈ l → y = x ∨ f y < f x) → max_by f l = Some x.
Proof.
  intros Hx Hl. destruct (max_by f l) as [y|] eqn:E.
  - apply max_by_Some in E as [Hy Hmax]. f_equal. destruct (Hl y Hy) as [->|Hlt]; [done|]. specialize (Hmax x Hx). lia.
  - apply max_by_None in E. rewrite E in Hx. by apply not_elem_of_nil in Hx.
Qed.

(** The snapshot that counts after it. *)
Lemma ingest_latest input w r w' :
  run (ingest env input) w = (Ok r, w') →
  ∃ row seq, BigInt (sequence input) = Ok seq ∧ LiabilitySnapshot.sequence row = seq ∧
    BigInt (circulatingMinor input) = Ok (LiabilitySnapshot.circulatingMinor row) ∧
    date_parse (snapshotTimestamp input) = Some (LiabilitySnapshot.snapshotTimestamp row) ∧
    latest_liability w' (programId input) = Some row ∧
    max_by LiabilitySnapshot.sequence
      (where_rows (λ s, bool_decide (LiabilitySnapshot.programId s = programId input)) (scan TLiabilitySnapshot w')) = Some row.
Proof.
  intros (k & row & seq & circ & t & Hseq & Hcirc & Ht & Hk & -> & Hp & Es & Ec & Hv & Et & Hbelow)%ingest_stores.
  exists row, seq. rewrite Es, Ec, Et. split_and!; try done.
  all: try unfold latest_liability; apply max_by_top.
  1, 3: apply elem_of_where; rewrite Hp, ?Hv, bool_decide_eq_true_2 by done; split; [done|];
    apply (elem_of_scan TLiabilitySnapshot); exists k; rewrite tbl_put_same; apply lookup_insert_eq.
  all: intros y [Hq [k' Hy]%(elem_of_scan TLiabilitySnapshot)]%elem_of_where; rewrite tbl_put_same in Hy;
    destruct (decide (k' = k)) as [->|Hne]; [left; rewrite lookup_insert_eq in Hy; by injection Hy|right];
    rewrite lookup_insert_ne in Hy by done; rewrite Es; apply (Hbelow k' y Hy).
  - by apply andb_true_iff in Hq as [Hq%bool_decide_eq_true _].
  - by apply bool_decide_eq_true in Hq.
Qed.

(** A snapshot whose sequence is not above the latest is refused. *)
Lemma ingest_refused input w seq row (Hseq : BigInt (sequence input) = Ok seq)
    (Hmax : max_by LiabilitySnapshot.sequence
      (where_rows (λ s, bool_decide (LiabilitySnapshot.programId s = programId input)) (scan TLiabilitySnapshot w)) = Some row)
    (Hle : seq ≤ LiabilitySnapshot.sequence row) :
  run (ingest env input) w = (Err (ConflictException ("Liability snapshot sequence " +:+ big_to_string seq +:+
    " is not greater than latest (duplicate or out-of-order)")), w).
Proof.
  unfold ingest, find_first_desc. rewrite run_bind, run_lift, Hseq. cbv beta iota. rewrite run_bind, run_read. cbv beta iota.
  rewrite run_bind, run_throw_if. set (latest := max_by _ _).
  assert (latest = Some row) as -> by exact Hmax. unfold throw_when. by rewrite (proj2 (Z.leb_le seq _) Hle).
Qed.

(** The audit's probe replaces the liability feed.  The control C-06 of the
    end-to-end audit posts a snapshot without signature to the program it audits.  A
    platform that accepts it, because signatures are not enforced, then counts one
    minor unit in circulation, as of 1970, as what the program owes; and every genuine
    snapshot whose sequence number is not above the audit's clock in milliseconds is
    refused as out of order. *)
Theorem probe_replaces_feed cfg p now w r w' (H : run (ingest env (audit_snapshot p now)) w = (Ok r, w')) :
  ac_body (postUnsignedLiability cfg p now) = Some (signable (audit_snapshot p now)) ∧
  circulating_of w' p = 1 ∧
  (∃ row, latest_liability w' p = Some row ∧ date_parse (toISOString 0) = Some (LiabilitySnapshot.snapshotTimestamp row)) ∧
  ∀ input seq, programId input = p → BigInt (sequence input) = Ok seq → seq ≤ now →
    ∃ m, run (ingest env input) w' = (Err (ConflictException m), w').
Proof.
  destruct (ingest_latest _ _ _ _ H) as (row & s & Hs & Es & Hc & Ht & Hl & Hmax). cbn [sequence circulatingMinor snapshotTimestamp programId audit_snapshot] in *.
  rewrite BigInt_to_string in Hs. injection Hs as <-.
  split_and!; [reflexivity| |by exists row|].
  - unfold circulating_of. rewrite Hl. vm_compute in Hc. by injection Hc.
  - intros input seq Hp Hseq Hle. eexists. apply (ingest_refused _ _ seq row Hseq); [by rewrite Hp|lia].
Qed.
End feed.

(** A runtime whose [Date.parse] reads the epoch. *)
Definition epoch_runtime : Runtime :=
  {| runtime_crypto := @runtime_crypto demo_runtime; runtime_auth := @runtime_auth demo_runtime; uuid := @uuid demo_runtime;
     date_parse := λ s, if bool_decide (s = "1970-01-01T00:00:00.000Z") then Some 0 else None;
     bank_api := @bank_api demo_runtime; paychain_execute := @paychain_execute demo_runtime;
     horizon_asset := @horizon_asset demo_runtime; webhook_post := @webhook_post demo_runtime;
     resend_api := @resend_api demo_runtime; webhook_probe := @webhook_probe demo_runtime |}.

(** The platform after the probe. *)
Definition demo_probed : outcome (string * bool) * World :=
  run (@Redemption.Liability.ingest epoch_runtime ref_client demo_env (audit_snapshot "p" 1700000000000)) demo_world.

Lemma probe_replaces_feed_witness : @circulating_of ref_client demo_probed.2 "p" = 1.
Proof.
  destruct (run_is_ok (@Redemption.Liability.ingest epoch_runtime ref_client demo_env (audit_snapshot "p" 1700000000000)) demo_world)
    as [r Hr]; [vm_compute; reflexivity|].
  exact (proj1 (proj2 (@probe_replaces_feed epoch_runtime ref_client demo_env (loadConfig (λ _, None)) "p" 1700000000000 demo_world r _ Hr))).
Defined.
