(* ===== verification/ConsoleFlow.v ===== *)
(** The operator console against the API: its requests are routes of the application
    that carry the arguments of their methods, and its sessions end when they should,
    or do not. *)
From S2P Require Import Prelude.
From S2P Require Import Text.
From S2P Require Import Prog.
From S2P Require Import Crypto.
From S2P Require Import Json.
From S2P Require Import Credentials.
From S2P Require Import Infra.
From S2P Require Import JsValue.
From S2P Require Import Worker.
From S2P Require Import Adapters.
From S2P Require Import Accounts.
From S2P Require Import Demo.
From S2P Require Import Gate.
From S2P Require Import Controllers.
From S2P Require Import TrusteeControllers.
From S2P Require Import Routes.
From S2P Require Import Router.
From S2P Require Import Access.
From S2P Require Import Console.
From S2P Require Schema.
From S2P Require Dto.
From S2P Require Admin.
From S2P Require Assurance.
#[local] Open Scope string_scope.
#[local] Open Scope list_scope.
#[local] Open Scope Z_scope.

(** * The requests of the console are routes of the application *)

(** The body as Express hands it to the pipe. *)
Definition received (rq : ConsoleRequest) : jsval :=
  match cq_body rq with Some b => json_roundtrip_value b | None => JObj [] end.

(** What a method takes from the body: nothing, its DTO, or the properties it reads. *)
Inductive Expected : Type :=
| NoBody
| Typed {A : Type} (d : Dto.Dto A) (a : A)
| Untyped (l : list (string * jsval)).

Definition js_opt_text (o : option string) : jsval := match o with Some s => JStr s | None => JUndefined end.
Definition js_opt_int (o : option Z) : jsval := match o with Some z => JNum (Num z) | None => JUndefined end.
Definition js_texts_of (l : list string) : jsval := JArr (JStr <$> l).

Definition expected_admin (c : AdminController.Call) : Expected :=
  match c with
  | AdminController.createUser b =>
      Untyped [("email", JStr (Admin.cu_email b)); ("displayName", JStr (Admin.cu_displayName b));
               ("institution", JStr (Admin.cu_institution b)); ("roles", js_texts_of (Admin.cu_roles b));
               ("attributes", default JUndefined (Admin.cu_attributes b)); ("password", js_opt_text (Admin.cu_password b));
               ("actor", JStr (Admin.cu_actor b))]
  | AdminController.setUserRoles _ roles actor => Untyped [("roles", js_texts_of roles); ("actor", JStr actor)]
  | AdminController.setUserDisabled _ disabled actor => Untyped [("disabled", JBool disabled); ("actor", JStr actor)]
  | AdminController.setUserPassword _ np => Untyped [("newPassword", JStr np)]
  | AdminController.evaluate tx =>
      Untyped [("transactionType", JStr (AdminController.ei_transactionType tx));
               ("amountMinor", js_opt_text (AdminController.ei_amountMinor tx));
               ("currency", js_opt_text (AdminController.ei_currency tx));
               ("riskLevel", js_opt_text (AdminController.ei_riskLevel tx));
               ("programId", js_opt_text (AdminController.ei_programId tx));
               ("assetId", js_opt_text (AdminController.ei_assetId tx));
               ("jurisdiction", js_opt_text (AdminController.ei_jurisdiction tx))]
  | AdminController.setFlag _ enabled actor => Untyped [("enabled", JBool enabled); ("actor", JStr actor)]
  | AdminController.setControl _ value reason incidentRef actor =>
      Untyped [("value", JBool value); ("reason", JStr reason); ("incidentRef", js_opt_text incidentRef); ("actor", JStr actor)]
  | AdminController.rotateClientSecret _ actor => Untyped [("actor", JStr actor)]
  | AdminController.setClientWebhook _ url actor => Untyped [("webhookUrl", JStr url); ("actor", JStr actor)]
  | AdminController.createProgram i actor =>
      Untyped [("code", js_opt_text (Admin.cpi_code i)); ("legalEntityId", js_opt_text (Admin.cpi_legalEntityId i));
               ("issuerId", js_opt_text (Admin.cpi_issuerId i)); ("trusteeBankId", js_opt_text (Admin.cpi_trusteeBankId i));
               ("assetId", js_opt_text (Admin.cpi_assetId i)); ("referenceCurrency", js_opt_text (Admin.cpi_referenceCurrency i));
               ("legalModel", js_opt_text (Admin.cpi_legalModel i)); ("regulatoryStatus", js_opt_text (Admin.cpi_regulatoryStatus i));
               ("reservePolicy", js_opt_text (Admin.cpi_reservePolicy i));
               ("requiredRatioBps", js_opt_int (Admin.cpi_requiredRatioBps i));
               ("safetyBufferBps", js_opt_int (Admin.cpi_safetyBufferBps i));
               ("agreementReferences", from_option js_texts_of JUndefined (Admin.cpi_agreementReferences i));
               ("effectiveDate", js_opt_text (Admin.cpi_effectiveDate i)); ("actor", JStr actor)]
  | AdminController.addTrusteeAccount _ i actor =>
      Untyped [("maskedAccountNumber", js_opt_text (Admin.cai_maskedAccountNumber i));
               ("coreBankingRef", js_opt_text (Admin.cai_coreBankingRef i)); ("accountName", js_opt_text (Admin.cai_accountName i));
               ("bankLegalEntity", js_opt_text (Admin.cai_bankLegalEntity i)); ("branch", js_opt_text (Admin.cai_branch i));
               ("currency", js_opt_text (Admin.cai_currency i)); ("classification", js_opt_text (Admin.cai_classification i));
               ("supportedAssetId", js_opt_text (Admin.cai_supportedAssetId i));
               ("balanceSource", js_opt_text (Admin.cai_balanceSource i));
               ("integrationMode", js_opt_text (Admin.cai_integrationMode i));
               ("restricted", match Admin.cai_restricted i with Some b => JBool b | None => JUndefined end); ("actor", JStr actor)]
  | AdminController.setProgramStatus _ status actor => Untyped [("status", JStr status); ("actor", JStr actor)]
  | AdminController.setClientRateLimit _ n actor => Untyped [("rateLimitPerMin", JNum (Num n)); ("actor", JStr actor)]
  | AdminController.setClientDisabled _ disabled actor => Untyped [("disabled", JBool disabled); ("actor", JStr actor)]
  | AdminController.replayWebhook _ actor | AdminController.replayDead actor => Untyped [("actor", JStr actor)]
  | _ => NoBody
  end.

(** The methods the console is for. *)
Definition expected (c : Call) : Expected :=
  match c with
  | AdminCall c => expected_admin c
  | AuthCall (AuthController.login e p code) => Typed Dto.LoginDto (e, p, code)
  | AuthCall (AuthController.enable code) => Typed Dto.CodeDto code
  | AuthCall (AuthController.changePassword o n) => Typed Dto.ChangePasswordDto (o, n)
  | AuthCall (AuthController.forgot e) => Typed Dto.ForgotPasswordDto e
  | AuthCall (AuthController.reset t p) => Typed Dto.ResetPasswordDto (t, p)
  | OperationsCall (OperationsController.reconReserve p a) => Untyped [("programId", JStr p); ("actor", JStr a)]
  | OperationsCall (OperationsController.approveSettlement _ ck) => Typed Dto.OperationsApproveSettlementDto ck
  | OperationsCall (OperationsController.confirmSettlement _ a) => Typed Dto.OperationsActorDto a
  | TrusteeMintCall (TrusteeMintController.review _ m) => Typed Dto.ReviewMintDto m
  | TrusteeMintCall (TrusteeMintController.approve _ ck r) => Typed Dto.ApproveMintDto (ck, r)
  | TrusteeMintCall (TrusteeMintController.reject _ ck r) => Typed Dto.ApproveMintDto (ck, r)
  | TrusteeMintCall (TrusteeMintController.revoke _ a r) => Typed Dto.RevokeMintDto (a, r)
  | DepositsCall (DepositsController.match_ _ f a) => Typed Dto.MatchDepositDto (f, a)
  | DepositsCall (DepositsController.clear _ a) => Typed Dto.ClearDepositDto a
  | TrusteeRedemptionCall (TrusteeRedemptionController.approve _ ap r) => Typed Dto.ApproveRedemptionDto (ap, r)
  | TrusteeRedemptionCall (TrusteeRedemptionController.submitPayout _ a)
  | TrusteeRedemptionCall (TrusteeRedemptionController.confirmPayout _ a) => Typed Dto.ActorReasonDto (a, None)
  | ReserveBankCall (ReserveBankController.addAdjustment _ k a r ac) =>
      Typed Dto.AddAdjustmentDto (Dto.mkAddAdjustmentInput k a r ac)
  | ReserveBankCall (ReserveBankController.liftAdjustment _ a) => Typed Dto.ActorBodyDto a
  | ReserveBankCall (ReserveBankController.registerBank i n co m u e a) =>
      Typed Dto.RegisterBankDto (Dto.mkRegisterBankInput i n co m u e a)
  | ReserveBankCall (ReserveBankController.setAccountBank _ b m) => Typed Dto.SetAccountBankDto (b, m)
  | TrusteeAttestationCall (TrusteeAttestationController.create dto) =>
      Untyped [("period", JStr (Assurance.Attestations.period dto)); ("scope", JStr (Assurance.Attestations.scope dto));
               ("auditor", JStr (Assurance.Attestations.auditor dto)); ("actor", JStr (Assurance.Attestations.actor dto));
               ("programId", js_opt_text (Assurance.Attestations.programId dto));
               ("methodology", js_opt_text (Assurance.Attestations.methodology dto));
               ("reserveAmountMinor", js_opt_text (Assurance.Attestations.reserveAmountMinor dto));
               ("liabilityAmountMinor", js_opt_text (Assurance.Attestations.liabilityAmountMinor dto));
               ("currency", js_opt_text (Assurance.Attestations.currency dto));
               ("opinion", js_opt_text (Assurance.Attestations.opinion dto));
               ("documentHash", js_opt_text (Assurance.Attestations.documentHash dto))]
  | TrusteeAttestationCall (TrusteeAttestationController.submit _ a)
  | TrusteeAttestationCall (TrusteeAttestationController.approve _ a)
  | TrusteeAttestationCall (TrusteeAttestationController.publish _ a) => Typed Dto.AttestationActorDto a
  | _ => NoBody
  end.

Definition only_declared (names : list string) (body : jsval) : bool :=
  match body with JObj kvs => forallb (λ kv, bool_decide (kv.1 ∈ names)) kvs | _ => false end.

(** The body is read as the arguments of the method, and has no property for which
    the pipe refuses it. *)
Definition accepted (e : Expected) (body : jsval) : Prop :=
  match e with
  | NoBody => True
  | Typed d a => Dto.read d body = Some a ∧ only_declared (map Dto.f_name (Dto.fields d)) body = true
  | Untyped l => Forall (λ kv, js_field kv.1 body = kv.2) l ∧ only_declared (map fst l) body = true
  end.

(** Method and path are the route's, the path perhaps with a query. *)
Definition addressed (rq : ConsoleRequest) (c : Call) : Prop :=
  cq_method rq = rt_method (route c) ∧
  (cq_path rq = fill (rt_path (route c)) (rt_params (route c)) ∨
   ∃ q, cq_path rq = fill (rt_path (route c)) (rt_params (route c)) +:+ "?" +:+ q).

(** A text of an input field that may be left empty. *)
Definition given (x : string) : option string := if bool_decide (x = "") then None else Some x.

Section contract.
Context (token email userId : string).

(** The session of an operator. *)
Definition operator : Session := mkSession (JStr token) (JStr email) (JStr userId).

(** The requests of the views. *)
Definition view_contract (p id q status : string) : list (ConsoleRequest * Call) :=
  [(programs_request, ProgramsCall ProgramsController.list_);
   (flags_request, AdminCall AdminController.listFlags);
   (controls_request, AdminCall AdminController.listControls);
   (reserve_request p, AdminCall (AdminController.reservePosition p));
   (ihLoad_request, AdminCall AdminController.integrationHealth);
   (users_request, AdminCall AdminController.listUsers);
   (roles_request, AdminCall AdminController.listRoles);
   (policies_request, AdminCall AdminController.listPolicies);
   (clients_request, AdminCall AdminController.listClients);
   (usage_request, AdminCall (AdminController.usage None));
   (progPicker_request, OperationsCall OperationsController.programs);
   (queues_request, OperationsCall OperationsController.queues);
   (reserveReport_request p, OperationsCall (OperationsController.reserveReport p));
   (liabilityReport_request p, OperationsCall (OperationsController.liabilityReport p));
   (trialBalance_request p, OperationsCall (OperationsController.trialBalance p));
   (entries_request p, OperationsCall (OperationsController.entries p (Some 40%nat)));
   (reconciliations_request, OperationsCall OperationsController.reconciliations);
   (banks_request, ReserveBankCall ReserveBankController.listBanks);
   (accounts_request p, ReserveBankCall (ReserveBankController.listAccounts p));
   (loyalty_request, LoyaltyBankCall LoyaltyBankController.list_);
   (adjustments_request p, ReserveBankCall (ReserveBankController.listAdjustments p));
   (attestations_request, OperationsCall OperationsController.attestations);
   (audit_request q, OperationsCall (OperationsController.audit None (given q) None (Some 200%nat)));
   (webhooks_request status, AdminCall (AdminController.listWebhooks (given status)));
   (deliveries_request id, AdminCall (AdminController.webhookDeliveries id))].

(** The requests about the operator's own session. *)
Definition session_contract (pw code resetToken new : string) : list (ConsoleRequest * Call) :=
  [(login_request email pw code, AuthCall (AuthController.login email pw (given code)));
   (forgot_request email, AuthCall (AuthController.forgot email));
   (doReset_request (Some resetToken) new, AuthCall (AuthController.reset resetToken new));
   (changePw_request pw new, AuthCall (AuthController.changePassword pw new));
   (startMfaSetup_request, AuthCall AuthController.setup);
   (enableMfa_request code, AuthCall (AuthController.enable code))].

(** Users, policies, flags, controls, clients. *)
Definition admin_contract (id key platform x y z : string) (b : bool) (n : Z) : list (ConsoleRequest * Call) :=
  [(editRoles_request operator id x, AdminCall (AdminController.setUserRoles id (comma_list x) email));
   (createOperator_request operator x y z,
    AdminCall (AdminController.createUser (Admin.mkCreateUserInput y x "TRUSTEE_BANK" [z] None None email)));
   (resetUserPw_request id x, AdminCall (AdminController.setUserPassword id x));
   (toggleUser_request operator id b, AdminCall (AdminController.setUserDisabled id b email));
   (evalPolicy_request x y z,
    AdminCall (AdminController.evaluate (AdminController.mkEvaluateInput x (given y) (given z) None None None None)));
   (toggleFlag_request operator key b, AdminCall (AdminController.setFlag key b email));
   (setControl_request operator key b x, AdminCall (AdminController.setControl key b x None email));
   (saveRl_request operator platform n, AdminCall (AdminController.setClientRateLimit platform n email));
   (toggleClient_request operator platform b, AdminCall (AdminController.setClientDisabled platform b email));
   (saveWebhook_request operator platform x, AdminCall (AdminController.setClientWebhook platform x email));
   (rotateSecret_request operator platform, AdminCall (AdminController.rotateClientSecret platform email));
   (activateProgram_request operator id, AdminCall (AdminController.setProgramStatus id "ACTIVE" email));
   (replayWh_request operator id, AdminCall (AdminController.replayWebhook id email));
   (replayDead_request operator, AdminCall (AdminController.replayDead email))].

Definition program_input (f : ProgramForm) (now : Z) : Admin.CreateProgramInput :=
  Admin.mkCreateProgramInput (Some (pg_code f)) (Some (pg_legalEntity f)) (Some (pg_issuer f)) (Some (pg_trusteeBank f))
    (Some (pg_assetId f)) (Some (pg_ccy f)) (Some (pg_legalModel f)) (Some (pg_regStatus f)) (Some (pg_reservePolicy f))
    (Some (default 10000 (pg_ratio f))) (Some (default 0 (pg_buffer f))) (Some (comma_list (pg_agreements f)))
    (Some (if bool_decide (pg_effective f = "") then toISOString now else pg_effective f)).

Definition account_input (f : AccountForm) : Admin.CreateAccountInput :=
  Admin.mkCreateAccountInput (Some (ac_masked f)) (Some (ac_core f)) (Some (ac_name f)) (Some (ac_bank f)) (Some (ac_branch f))
    (Some (ac_ccy f)) (Some (ac_class f)) None (Some (ac_src f)) (Some (ac_intmode f)) None.

(** Programs, accounts, banks, the reserve and assurance. *)
Definition treasury_contract (p id x y z : string) (f : ProgramForm) (g : AccountForm) (k : BankForm) (now : Z) :
    list (ConsoleRequest * Call) :=
  [(createProgramSubmit_request operator f now, AdminCall (AdminController.createProgram (program_input f now) email));
   (addAccountSubmit_request operator p g, AdminCall (AdminController.addTrusteeAccount p (account_input g) email));
   (genPor_request p, OperationsCall (OperationsController.generateSnapshot p));
   (reconReserve_request operator (JStr p), OperationsCall (OperationsController.reconReserve p email));
   (bkRegister_request operator k,
    ReserveBankCall (ReserveBankController.registerBank (bk_id k) (bk_name k) (given (bk_country k)) (Some (bk_mode k))
                       (given (bk_url k)) (given (bk_env k)) email));
   (bkSaveAcc_request id x y,
    ReserveBankCall (ReserveBankController.setAccountBank id (given x) (Some (default "0" (given y)))));
   (adjAdd_request operator p x y z, ReserveBankCall (ReserveBankController.addAdjustment p x y (given z) email));
   (adjLift_request operator id, ReserveBankCall (ReserveBankController.liftAdjustment id email));
   (bkReconcile_request p, ReserveBankCall (ReserveBankController.bankReconcile p));
   (loyRecon_request id, LoyaltyBankCall (LoyaltyBankController.reconcile id));
   (newAtt_request operator x y,
    TrusteeAttestationCall (TrusteeAttestationController.create
      (Assurance.Attestations.mkCreateAttestation None x "RESERVE" None None None None None y None email)));
   (attStep_request operator id SUBMIT, TrusteeAttestationCall (TrusteeAttestationController.submit id email));
   (attStep_request operator id APPROVE, TrusteeAttestationCall (TrusteeAttestationController.approve id email));
   (attStep_request operator id PUBLISH, TrusteeAttestationCall (TrusteeAttestationController.publish id email))].

(** The queues. *)
Definition queue_contract (id x : string) : list (ConsoleRequest * Call) :=
  [(reviewMint_request operator id, TrusteeMintCall (TrusteeMintController.review id userId));
   (approveMint_request operator id, TrusteeMintCall (TrusteeMintController.approve id userId "approved via console"));
   (rejectMint_request operator id x, TrusteeMintCall (TrusteeMintController.reject id userId x));
   (approveRedemption_request operator id,
    TrusteeRedemptionCall (TrusteeRedemptionController.approve id userId "approved via console"));
   (submitPayout_request operator id, TrusteeRedemptionCall (TrusteeRedemptionController.submitPayout id email));
   (confirmPayout_request operator id, TrusteeRedemptionCall (TrusteeRedemptionController.confirmPayout id email));
   (matchDeposit_request operator id x, DepositsCall (DepositsController.match_ id x email));
   (clearDeposit_request operator id, DepositsCall (DepositsController.clear id email));
   (approveSettlement_request operator id, OperationsCall (OperationsController.approveSettlement id userId));
   (confirmSettlement_request operator id, OperationsCall (OperationsController.confirmSettlement id email))].
End contract.

Lemma texts_received l : map (λ x, match json_roundtrip_value x with JUndefined => JNull | y => y end) (JStr <$> l) = JStr <$> l.
Proof. induction l as [|x l IH]; [done|]. cbn. by f_equal. Qed.

(** A request and the call it is for. *)
Definition speaks (rc : ConsoleRequest * Call) : Prop :=
  addressed rc.1 rc.2 ∧ (audience rc.2 = Some "TRUSTEE_BANK" ∨ audience rc.2 = None) ∧ accepted (expected rc.2) (received rc.1).

#[local] Arguments comma_list : simpl never.
#[local] Arguments toISOString : simpl never.

Ltac solve_speaks :=
  split; [split; [reflexivity|left; reflexivity]|split; [first [left; reflexivity|right; reflexivity]|]];
  cbn [fst snd accepted expected expected_admin]; try exact I;
  unfold received; match goal with |- context [cq_body ?rq] => let h := head_of rq in unfold h end;
  unfold post, put, post_; cbn [cq_body]; unfold or_undefined, given, program_input, account_input; repeat case_bool_decide; subst;
  cbn; rewrite ?texts_received; split;
  first [reflexivity|repeat (apply Forall_cons_2; [reflexivity|]); apply Forall_nil_2].

(** Every request of a list, for an operator with an address. *)
Ltac solve_contract :=
  match goal with He : ?email ≠ "" |- Forall speaks ?l =>
    destruct email as [|? ?]; [done|]; let h := head_of l in unfold h
  end;
  repeat (apply Forall_cons_2; [solve_speaks|]); apply Forall_nil_2.

Lemma session_speaks email pw code rt new (He : email ≠ "") :
  Forall speaks (session_contract email pw code rt new).
Proof. solve_contract. Qed.
Lemma queue_speaks token email userId id x (He : email ≠ "") : Forall speaks (queue_contract token email userId id x).
Proof. solve_contract. Qed.
Lemma admin_speaks token email userId id key platform x y z b n (He : email ≠ "") :
  Forall speaks (admin_contract token email userId id key platform x y z b n).
Proof. solve_contract. Qed.
Lemma treasury_speaks token email userId p id x y z f g k now (He : email ≠ "") :
  Forall speaks (treasury_contract token email userId p id x y z f g k now).
Proof. solve_contract. Qed.

Lemma view_speaks p id q status : Forall speaks (view_contract p id q status).
Proof.
  unfold view_contract.
  repeat (apply Forall_cons_2; [split; [split; [reflexivity|]|split; [first [left; reflexivity|right; reflexivity]|exact I]]|]);
    try apply Forall_nil_2; try (left; reflexivity).
  - right. exists "limit=40". cbn [fst]. unfold entries_request. exact (eq_sym (app_assoc_string ("/api/v1/admin/ledger/" +:+ p) "/entries" "?limit=40")).
  - right. by exists ("limit=200" +:+ (if bool_decide (q = "") then "" else "&action=" +:+ q)).
  - cbn [fst snd]. unfold webhooks_request. case_bool_decide; [by left|right]. by exists ("status=" +:+ status).
Qed.

(** Claim C32 (the console speaks the API).  For an operator with an address, every
    request that a view or a control of the console sends is, by method and path, a
    route of the application, in the namespaces of the trustee bank or an open one; and
    the body it carries is read by the method's DTO, or property by property where it
    has none, as exactly the arguments meant: the operator's id as maker and checker, the
    address as actor, the entered values, what is left empty absent; and no body has a
    property for which the validation pipe refuses it. *)
Theorem console_speaks_api token email userId p id q status pw code resetToken new key platform x y z b n f g k now (He : email ≠ "") :
  Forall speaks
    (view_contract p id q status ++ session_contract email pw code resetToken new ++ queue_contract token email userId id x ++
     admin_contract token email userId id key platform x y z b n ++ treasury_contract token email userId p id x y z f g k now).
Proof.
  rewrite !Forall_app. split_and!;
    [apply view_speaks|by apply session_speaks|by apply queue_speaks|by apply admin_speaks|by apply treasury_speaks].
Qed.

Lemma console_speaks_api_witness :
  speaks (approveMint_request (operator "tok" "ops@bank" "u1") "m1", TrusteeMintCall (TrusteeMintController.approve "m1" "u1" "approved via console")).
Proof.
  pose proof (console_speaks_api "tok" "ops@bank" "u1" "p" "m1" "" "" "pw" "" "rt" "new" "flag" "PAYKH" "1" "2" "3" true 600
    (mkProgramForm "" "" "" "" "" "" "" "" "" None None "" "") (mkAccountForm "" "" "" "" "" "" "" "" "")
    (mkBankForm "" "" "" "" "" "") 0 ltac:(discriminate)) as H.
  apply Forall_app in H as [_ H]. apply Forall_app in H as [_ H]. apply Forall_app in H as [H _].
  unfold queue_contract in H. apply Forall_cons in H as [_ H]. by apply Forall_cons in H as [H _].
Defined.

Lemma run_upd f b : run (upd f) b = (Ok tt, f b).
Proof. unfold upd. by rewrite run_action. Qed.

(** * What the script makes of texts and tokens *)

(** Nothing that [h] writes opens or closes a tag or ends a quoted attribute. *)
Lemma escape_html_no_tags s : lacks "<" (escape_html s) = true ∧ lacks ">" (escape_html s) = true ∧ lacks "034" (escape_html s) = true.
Proof.
  induction s as [|a s (IH1 & IH2 & IH3)]; [done|]. cbn [escape_html]. rewrite !lacks_app, IH1, IH2, IH3, !andb_true_r.
  destruct a as [[] [] [] [] [] [] [] []]; vm_compute; by split_and!.
Qed.

(** It leaves the single quote that ends an argument of [onclick]. *)
Example escape_html_single_quote : escape_html "x','y" = "x','y".
Proof. reflexivity. Qed.

Section tokens.
Context `{RT : !Runtime} `{WB : !Web} (env : Env).

(** The second part of a token of the platform is its signature: the payload, with the
    instant it expires at, is not read. *)
Lemma tokenExp_reads_signature a b sig :
  lacks "." a = true → lacks "." b = true → lacks "." sig = true →
  tokenExp (JStr (a +:+ "." +:+ sig)) = tokenExp (JStr (b +:+ "." +:+ sig)).
Proof.
  assert (∀ x, lacks "." x = true → lacks "." sig = true → split_on "." (x +:+ "." +:+ sig) = [x; sig]) as Hs.
  { intros x Hx Hg. change ("." +:+ sig) with (String "." sig). by rewrite split_on_app, split_on_lacks. }
  assert (∀ x, js_truthy (JStr (x +:+ "." +:+ sig)) = true) as Ht by by intros [|? ?].
  intros Ha Hb Hg. unfold tokenExp. by rewrite !Ht, !Hs by done.
Qed.

(** So the sign-out on expiry is set by the signature's bytes: never, when they are no
    base64 of a JSON text. *)
Lemma expiry_not_scheduled p t0 now b :
  let body := base64url (default "" (json_stringify (session_payload p (t0 / 1000 + SESSION_TTL_SECONDS env)))) in
  (∀ s, atob (unurl (session_signature env body)) = Ok s → json_parse s = None) →
  token (session b) = JStr (token_at env p t0) → run (scheduleExpiry now) b = (Ok tt, set_expTimer None b).
Proof.
  intros body Hno Ht. unfold scheduleExpiry. rewrite run_bind, run_upd, run_bind, run_read. cbv beta iota.
  change (token (session (set_expTimer None b))) with (token (session b)). rewrite Ht.
  assert (tokenExp (JStr (token_at env p t0)) = 0) as ->; [|done].
  unfold token_at. fold body. unfold tokenExp. destruct (js_truthy _); [|done].
  change ("." +:+ session_signature env body) with (String "." (session_signature env body)).
  rewrite split_on_app, split_on_lacks by (apply hmac_sha256_no_dot || apply base64url_no_dot).
  cbn [lookup list_lookup]. case_bool_decide; [done|].
  destruct (atob _) as [s|e] eqn:E; [|done]. cbn [mbind outcome_bind]. by rewrite (Hno s eq_refl).
Qed.
End tokens.

(** * Sessions *)

(** A request for a route of the bank or an open one. *)
Definition known (rq : ConsoleRequest) : Prop :=
  ∃ c, addressed rq c ∧ (audience c = Some "TRUSTEE_BANK" ∨ audience c = None).

Lemma known_of l rq : Forall speaks l → Exists (λ rc, cq_method rc.1 = cq_method rq ∧ cq_path rc.1 = cq_path rq) l → known rq.
Proof.
  intros Hl ([rq' c] & Hin & Hm & Hp)%Exists_exists. rewrite Forall_forall in Hl. destruct (Hl _ Hin) as ((Hm' & Hp') & Ha & _).
  exists c. cbn in *. unfold addressed. by rewrite <- Hm, <- Hp.
Qed.

Ltac find_request := first [apply Exists_cons_hd; split; reflexivity|apply Exists_cons_tl; find_request].
Ltac known_in H := solve [eapply known_of; [apply H; try discriminate|find_request]].
Ltac solve_known :=
  unshelve
    (first
      [ known_in view_speaks
      | known_in (queue_speaks "" "a" "")
      | known_in (session_speaks "a")
      | known_in (admin_speaks "" "a" "")
      | known_in (treasury_speaks "" "a" "") ]);
  first
    [ exact "" | exact true | exact 0 | exact (mkProgramForm "" "" "" "" "" "" "" "" "" None None "" "")
    | exact (mkAccountForm "" "" "" "" "" "" "" "" "") | exact (mkBankForm "" "" "" "" "" "") ].

(** What is stored of a session. *)
Definition js_session (t e u : string) : jsval := JObj [("token", JStr t); ("email", JStr e); ("userId", JStr u)].
Definition store_of (t e u : string) : string := stringify (js_session t e u).

(** The page shows the application to an operator with a token, who is the one that is
    stored; the login page has neither; the page of a reset link has no session. *)
Definition page_session (b : Browser) : Prop :=
  (screen b = Some APP ∧ ∃ t e u, t ≠ "" ∧ session b = operator t e u ∧ stored b = Some (store_of t e u)) ∨
  (screen b = Some LOGIN ∧ session b = no_session ∧ stored b = None ∧ expTimer b = None) ∨
  (screen b = Some RESET ∧ session b = no_session ∧ expTimer b = None ∧
   (stored b = None ∨ ∃ t e u, t ≠ "" ∧ stored b = Some (store_of t e u))).

Definition good_page (b : Browser) : Prop := page_session b ∧ Forall known (requests b).

Section sessions.
Context `{RT : !Runtime} `{WB : !Web} (env : Env) (API : string).

Create HintDb tidy discriminated.

(** [p] leaves a good page good, also when it ends with an error. *)
Definition tidy {A} (p : prog Browser A) : Prop := ∀ b, good_page b → good_page (run p b).2.
(** [p] ends without an error. *)
Definition settles {A} (p : prog Browser A) : Prop := ∀ b, is_ok (run p b).1 = true.

Lemma tidy_ret {A} (a : A) : tidy (mret a). Proof. by intros b. Qed.
Lemma tidy_read {A} (f : Browser → A) : tidy (read f). Proof. by intros b. Qed.
Lemma tidy_bind {A B} (p : prog Browser A) (k : A → prog Browser B) : tidy p → (∀ a, tidy (k a)) → tidy (p ≫= k).
Proof.
  intros Hp Hk b Hb. rewrite run_bind. specialize (Hp b Hb). destruct (run p b) as [[a|e] b']; [by apply Hk|done].
Qed.
Lemma tidy_lift {A} (o : outcome A) : tidy (lift o). Proof. intros b Hb. by rewrite run_lift. Qed.
Lemma tidy_catch {A} (p : prog Browser A) h : tidy p → (∀ e, tidy (h e)) → tidy (prog_catch p h).
Proof.
  intros Hp Hh b Hb. rewrite run_catch. specialize (Hp b Hb). destruct (run p b) as [[a|e] b']; [done|by apply Hh].
Qed.

Lemma settles_ret {A} (a : A) : settles (mret a). Proof. by intros b. Qed.
Lemma settles_read {A} (f : Browser → A) : settles (read f). Proof. by intros b. Qed.
Lemma settles_upd f : settles (upd f). Proof. by intros b. Qed.
Lemma settles_bind {A B} (p : prog Browser A) (k : A → prog Browser B) : settles p → (∀ a, settles (k a)) → settles (p ≫= k).
Proof.
  intros Hp Hk b. rewrite run_bind. specialize (Hp b). destruct (run p b) as [[a|e] b']; [apply Hk|discriminate Hp].
Qed.
Lemma settles_transfer rq : settles (transfer API rq). Proof. by intros b. Qed.
Lemma settles_expired : settles sessionExpired.
Proof. by intros b. Qed.
Lemma settles_receive path r : settles (receive path r).
Proof.
  destruct r as [[res t]|e]; [|apply settles_ret]. apply settles_bind; [apply settles_read|]. intros held.
  destruct (_ && _); [apply settles_bind; [apply settles_expired|intros _; apply settles_ret]|].
  destruct (res_ok res); apply settles_ret.
Qed.
Lemma settles_load l : settles (load API l).
Proof.
  apply settles_bind.
  - induction l as [|rq l IH]; [apply settles_ret|]. apply settles_bind; [apply settles_transfer|]. intros r.
    apply settles_bind; [exact IH|]. intros rs. apply settles_ret.
  - intros rs. induction rs as [|[path r] rs IH]; [apply settles_ret|]. apply settles_bind; [apply settles_receive|]. intros x.
    apply settles_bind; [exact IH|]. intros xs. apply settles_ret.
Qed.
Lemma settles_show l : settles (show_all API l).
Proof. apply settles_bind; [apply settles_load|]. intros _. apply settles_ret. Qed.
Lemma settles_dashboard : settles (go API "dashboard").
Proof.
  apply settles_bind; [apply settles_upd|]. intros _. apply settles_bind; [apply settles_load|]. intros rs.
  repeat match goal with |- settles (match ?x with _ => _ end) => destruct x end; first [apply settles_ret|apply settles_show].
Qed.
Lemma settles_schedule now : settles (scheduleExpiry now).
Proof.
  apply settles_bind; [apply settles_upd|]. intros _. apply settles_bind; [apply settles_read|]. intros exp.
  destruct (exp =? 0); [apply settles_ret|]. destruct (_ <=? 0); [apply settles_expired|apply settles_upd].
Qed.

(** What does not concern the session. *)
Definition aside (f : Browser → Browser) : Prop :=
  ∀ b, session (f b) = session b ∧ stored (f b) = stored b ∧ screen (f b) = screen b ∧ expTimer (f b) = expTimer b ∧
       requests (f b) = requests b.
Lemma tidy_upd f : aside f → tidy (upd f).
Proof.
  intros Hf b [Hs Hr]. rewrite run_upd. destruct (Hf b) as (E1 & E2 & E3 & E4 & E5). unfold good_page, page_session.
  cbn [snd]. by rewrite E1, E2, E3, E4, E5.
Qed.

Lemma run_clear b :
  run clear_session b = (Ok tt, set_screen LOGIN (set_session no_session (set_stored None (set_expTimer None b)))).
Proof. done. Qed.
Lemma tidy_clear : tidy clear_session.
Proof. intros b [_ Hr]. rewrite run_clear. split; [|done]. right; left. done. Qed.
Lemma tidy_expired : tidy sessionExpired.
Proof. apply tidy_bind; [apply tidy_clear|]. intros _. by apply tidy_upd. Qed.

Lemma tidy_receive path r : tidy (receive path r).
Proof.
  destruct r as [[res t]|e]; [|apply tidy_ret]. unfold receive. apply tidy_bind; [apply tidy_read|]. intros held.
  destruct ((fs_status res =? 401) && held && negb (includes "/auth/login" path));
    [apply tidy_bind; [apply tidy_expired|intros _; apply tidy_ret]|]. destruct (res_ok res); apply tidy_ret.
Qed.
Lemma tidy_transfer rq : known rq → tidy (transfer API rq).
Proof.
  intros Hrq b [Hs Hr]. unfold transfer. rewrite run_action.
  split; [exact Hs|]. cbn. by apply Forall_app_2; [|apply Forall_singleton].
Qed.
Lemma tidy_api rq : known rq → tidy (api API rq).
Proof. intros H. apply tidy_bind; [by apply tidy_transfer|]. intros r. apply tidy_receive. Qed.
Lemma tidy_load l : Forall known l → tidy (load API l).
Proof.
  intros Hl. apply tidy_bind.
  - induction Hl as [|rq l Hrq Hl IH]; [apply tidy_ret|]. apply tidy_bind; [by apply tidy_transfer|]. intros r.
    apply tidy_bind; [exact IH|]. intros rs. apply tidy_ret.
  - intros rs. induction rs as [|[path r] rs IH]; [apply tidy_ret|]. apply tidy_bind; [apply tidy_receive|]. intros x.
    apply tidy_bind; [exact IH|]. intros xs. apply tidy_ret.
Qed.
Lemma tidy_show l : Forall known l → tidy (show_all API l).
Proof. intros Hl. apply tidy_bind; [by apply tidy_load|]. intros _. apply tidy_ret. Qed.
Lemma tidy_await l : Forall known l → tidy (await_all API l).
Proof. intros Hl. apply tidy_bind; [by apply tidy_load|]. intros rs. apply tidy_lift. Qed.
Lemma tidy_await_api rq : known rq → tidy (await_api API rq).
Proof. intros H. apply tidy_bind; [by apply tidy_api|]. intros r. apply tidy_lift. Qed.
Lemma tidy_then rq k failed : known rq → (∀ b, tidy (k b)) → (∀ m, tidy (failed m)) → tidy (api_then API rq k failed).
Proof. intros H Hk Hf. apply tidy_bind; [by apply tidy_api|]. intros [x|m x st]; [apply Hk|apply Hf]. Qed.

Ltac solve_all_known := repeat first [apply Forall_cons_2; [solve_known|]|apply Forall_nil_2].

(** A program of the console, down to its requests. *)
Ltac solve_tidy :=
  repeat
    lazymatch goal with
    | |- ∀ _, _ => intros ?
    | |- tidy (mret _) => apply tidy_ret
    | |- tidy (read _) => apply tidy_read
    | |- tidy (lift _) => apply tidy_lift
    | |- tidy (upd _) => apply tidy_upd; intros ?; split_and!; reflexivity
    | |- tidy sessionExpired => apply tidy_expired
    | |- tidy clear_session => apply tidy_clear
    | |- tidy (receive _ _) => apply tidy_receive
    | |- tidy (api_then _ _ _ _) => apply tidy_then; [solve_known|intros ?|intros ?]
    | |- tidy (api _ _) => apply tidy_api; solve_known
    | |- tidy (await_api _ _) => apply tidy_await_api; solve_known
    | |- tidy (await_all _ _) => apply tidy_await; solve_all_known
    | |- tidy (show_all _ _) => apply tidy_show; solve_all_known
    | |- tidy (load _ _) => apply tidy_load; solve_all_known
    | |- tidy (mbind _ _) => apply tidy_bind
    | |- tidy (match ?x with _ => _ end) => destruct x
    | |- tidy (let _ := _ in _) => cbv zeta
    | |- tidy ?p => first [solve [auto with tidy nocore]|let h := head_of p in unfold h]
    end.

(** ** Views *)

Lemma tidy_in_turn l k : Forall (λ x, known x.1) l → tidy k → tidy (load_in_turn API l k).
Proof.
  intros Hl Hk. induction Hl as [|[rq shows] l Hrq Hl IH]; [exact Hk|]. cbn [load_in_turn]. apply tidy_then; [done| |].
  - intros v. destruct (shows v); [exact IH|apply tidy_ret].
  - intros _. apply tidy_ret.
Qed.
Lemma tidy_picker : tidy (progPicker API). Proof. solve_tidy. Qed.
#[local] Hint Resolve tidy_picker : tidy.

Lemma tidy_ihLoad : tidy (ihLoad API). Proof. solve_tidy. Qed.
Lemma tidy_vDash : tidy (vDash API). Proof. solve_tidy. Qed.
Lemma tidy_vUsers : tidy (vUsers API). Proof. solve_tidy. Qed.
Lemma tidy_vRoles : tidy (vRoles API). Proof. solve_tidy. Qed.
Lemma tidy_vPolicies : tidy (vPolicies API). Proof. solve_tidy. Qed.
Lemma tidy_vFlags : tidy (vFlags API). Proof. solve_tidy. Qed.
Lemma tidy_vControls : tidy (vControls API). Proof. solve_tidy. Qed.
Lemma tidy_vApiMgmt : tidy (vApiMgmt API). Proof. solve_tidy. Qed.
Lemma tidy_vOps : tidy (vOps API). Proof. solve_tidy. Qed.
Lemma tidy_vRecon : tidy (vRecon API). Proof. solve_tidy. Qed.
Lemma tidy_vTreasury : tidy (vTreasury API). Proof. solve_tidy. Qed.
Lemma tidy_vLedger : tidy (vLedger API). Proof. solve_tidy. Qed.
Lemma tidy_vCompliance : tidy (vCompliance API). Proof. solve_tidy. Qed.
Lemma tidy_adjLoad : tidy (adjLoad API). Proof. solve_tidy. Qed.
Lemma tidy_bkLoad : tidy (bkLoad API).
Proof.
  apply tidy_in_turn; [solve_all_known|]. apply tidy_bind; [apply tidy_read|]. intros picked.
  apply tidy_bind; [apply tidy_read|]. intros p. apply tidy_in_turn; [|apply tidy_adjLoad].
  destruct picked; cbn [app]; solve_all_known.
Qed.
Lemma tidy_vBanking : tidy (vBanking API). Proof. apply tidy_bind; [apply tidy_picker|]. intros _. apply tidy_bkLoad. Qed.
Lemma tidy_auditGo q : tidy (auditGo API q). Proof. solve_tidy. Qed.
Lemma tidy_whLoad status : tidy (whLoad API status). Proof. solve_tidy. Qed.
#[local] Hint Resolve tidy_ihLoad tidy_vDash tidy_vUsers tidy_vRoles tidy_vPolicies tidy_vFlags tidy_vControls tidy_vApiMgmt tidy_vOps tidy_vRecon
  tidy_vTreasury tidy_vLedger tidy_vCompliance tidy_adjLoad tidy_bkLoad tidy_vBanking tidy_auditGo tidy_whLoad : tidy.

Lemma tidy_go t : tidy (go API t).
Proof. apply tidy_bind; [apply tidy_upd; intros b; split_and!; reflexivity|]. intros _. repeat case_bool_decide; solve_tidy. Qed.
#[local] Hint Resolve tidy_go : tidy.

Lemma tidy_act rq : known rq → tidy (act API rq).
Proof. intros H. apply tidy_bind; [by apply tidy_api|]. intros [b|m b st]; solve_tidy. Qed.
#[local] Hint Extern 1 (tidy (act _ _)) => apply tidy_act; solve_known : tidy.

(** ** Signing in and out *)

Lemma tidy_schedule now : tidy (scheduleExpiry now).
Proof.
  intros b [Hs Hr]. unfold scheduleExpiry. rewrite run_bind, run_upd, run_bind, run_read. cbv beta iota.
  assert (good_page (set_expTimer None b)) as Hb.
  { split; [|exact Hr]. destruct Hs as [Hs|[Hs|Hs]]; [left; exact Hs|right; left|right; right]; naive_solver. }
  destruct (tokenExp (token (session (set_expTimer None b))) =? 0) eqn:E0; [exact Hb|].
  destruct (_ <=? 0); [by apply tidy_expired|]. rewrite run_upd. split; [|exact Hr].
  destruct Hs as [Hs|[(_ & Es & _)|(_ & Es & _)]]; [left; exact Hs|..]; cbn in E0; by rewrite Es in E0.
Qed.

Lemma store_nonempty t e u : store_of t e u ≠ "".
Proof. unfold store_of, stringify. cbn. discriminate. Qed.
Lemma store_parses t e u : json_parse (store_of t e u) = Some (js_session t e u).
Proof. by apply (json_parse_stringify (js_session t e u)). Qed.

(** What a good page has stored. *)
Lemma good_stored b : good_page b → stored b = None ∨ ∃ t e u, t ≠ "" ∧ stored b = Some (store_of t e u).
Proof. intros [[(_ & t & e & u & Ht & _ & Hs)|[(_ & _ & Hs & _)|(_ & _ & _ & Hs)]] _]; [right; by exists t, e, u|by left|exact Hs]. Qed.

Lemma truthy_store t e u : truthy (Some (store_of t e u)) = Some (store_of t e u).
Proof. unfold truthy. by rewrite (bool_decide_eq_false_2 _ (store_nonempty t e u)). Qed.
Lemma truthy_text t : t ≠ "" → js_truthy (JStr t) = true.
Proof. by destruct t. Qed.

(** Into the application, with the session [t], [e], [u]. *)
Lemma good_app b t e u :
  t ≠ "" → session b = operator t e u → stored b = Some (store_of t e u) → screen b = Some APP → Forall known (requests b) →
  good_page b.
Proof. intros. split; [left|done]. split; [done|]. by exists t, e, u. Qed.

Lemma restored_good t e u now b :
  t ≠ "" → session b = no_session → expTimer b = None → stored b = Some (store_of t e u) → Forall known (requests b) →
  let r := run (restored API (js_session t e u) now) b in good_page r.2 ∧ is_ok r.1 = true.
Proof.
  intros Ht Es Et Hst Hr. cbv zeta. unfold restored. rewrite run_bind.
  change (js_prop "token" (js_session t e u)) with (Ok (A := jsval) (JStr t)).
  rewrite run_lift. cbv beta iota zeta. rewrite (truthy_text t Ht). cbn [negb orb].
  destruct (negb _ && _).
  - rewrite run_bind, run_upd. split; [|done]. split; [right; left; by split_and!|exact Hr].
  - rewrite run_bind, run_upd. cbv beta iota. unfold show. rewrite run_bind, run_upd. cbv beta iota.
    split.
    + apply (tidy_bind (scheduleExpiry now)); [apply tidy_schedule|intros _; apply tidy_go|]. by apply (good_app _ t e u).
    + apply (settles_bind (scheduleExpiry now)); [apply settles_schedule|intros _; apply settles_dashboard].
Qed.

(** A page that is loaded, over what a good one stored. *)
Lemma load_good reset_token now b :
  (stored b = None ∨ ∃ t e u, t ≠ "" ∧ stored b = Some (store_of t e u)) → Forall known (requests b) →
  good_page (run (upd loaded;; init API reset_token now) b).2.
Proof.
  intros Hst Hr. rewrite run_bind, run_upd. cbv beta iota.
  unfold init. case_bool_decide as Hrt; cbn [negb]; [|split; [right; right; done|exact Hr]].
  rewrite run_bind, run_read. cbv beta iota. cbn [stored loaded].
  destruct Hst as [Es|(t & e & u & Ht & Es)]; rewrite Es; [split; [right; left; done|exact Hr]|].
  rewrite truthy_store, store_parses, run_catch.
  destruct (restored_good t e u now (loaded b) Ht eq_refl eq_refl Es Hr) as [Hg Ho].
  destruct (run (restored API (js_session t e u) now) (loaded b)) as [[x|x] b']; [done|discriminate Ho].
Qed.

Lemma tidy_load_page reset_token now : tidy (upd loaded;; init API reset_token now).
Proof. intros b Hb. apply load_good; [by apply good_stored|by destruct Hb]. Qed.

Lemma tidy_timer now : tidy (timer_fires now).
Proof. solve_tidy. Qed.
#[local] Hint Resolve tidy_load_page tidy_timer : tidy.

(** What the platform answers to a login ([Accounts.login]). *)
Definition login_answer (v : jsval) : Prop :=
  v = JObj [("mfaRequired", JBool true)] ∨ ∃ u tok, tok ≠ "" ∧ v = login_result env u tok.
Definition platform_answers : Prop :=
  ∀ s rq n res t, cq_path rq = "/api/v1/auth/login" → web_fetch (fetch_request API s rq) n = Ok res → fs_text res = Ok t →
    res_ok res = true → login_answer (answer_of t).

Lemma tidy_signed_in v now : login_answer v → tidy (signed_in API v now).
Proof.
  intros [->|(u & tok & Ht & ->)] b Hb.
  - apply (tidy_upd (set_loginErr "Enter your MFA code.")); [|done]. intros ?. by split_and!.
  - pose (b' := set_screen APP (set_stored (Some (store_of tok (Schema.User.email u) (Schema.User.id u)))
      (set_session (operator tok (Schema.User.email u) (Schema.User.id u)) (set_mfaEnabled (js_truthy (JBool (Schema.User.mfaEnabled u)))
        (set_session (mkSession (JStr tok) (JStr (Schema.User.email u)) (userId (session b)))
          (set_session (mkSession (JStr tok) (email (session b)) (userId (session b))) b)))))).
    change (run (signed_in API (login_result env u tok) now) b) with
      (run (scheduleExpiry now;; enrolled ← read mfaEnabled; go API (if enrolled : bool then "dashboard" else "security")) b').
    apply (tidy_bind (scheduleExpiry now)); [apply tidy_schedule| |].
    + intros _. apply tidy_bind; [apply tidy_read|]. intros [|]; apply tidy_go.
    + apply (good_app _ tok (Schema.User.email u) (Schema.User.id u)); [done..|]. by destruct Hb.
Qed.

(** Where an answer comes from. *)
Lemma api_answer rq b v b' :
  run (api API rq) b = (Ok (Answer v), b') →
  ∃ res t, web_fetch (fetch_request API (session b) rq) (length (requests b)) = Ok res ∧ fs_text res = Ok t ∧
    res_ok res = true ∧ v = answer_of t.
Proof.
  unfold api, transfer. rewrite run_bind, run_action.
  destruct (web_fetch _ _) as [res|e]; cbn [mbind outcome_bind]; [|done].
  destruct (fs_text res) as [t|e] eqn:Et; cbn [mbind outcome_bind]; [|done].
  unfold receive. rewrite run_bind, run_read. cbv beta iota. destruct (_ && _).
  - intros H. rewrite run_bind in H. discriminate H.
  - destruct (res_ok res) eqn:Eo; intros H; [injection H as <- <-; by exists res, t|].
    unfold refusal in H. destruct (js_prop _ _); discriminate H.
Qed.

Lemma tidy_login em pw code now : platform_answers → tidy (login API em pw code now).
Proof.
  intros Hp. apply tidy_bind; [apply tidy_upd; intros ?; by split_and!|]. intros _ b Hb.
  assert (known (login_request (trim em) pw (trim code))) as Hk by solve_known.
  rewrite run_bind. pose proof (tidy_api _ Hk b Hb) as Hg.
  destruct (run (api API _) b) as [[[v|m v st]|x] b'] eqn:E; [| |exact Hg].
  - destruct (api_answer _ _ _ _ E) as (res & t & Hf & Ht & Hok & ->).
    apply tidy_catch; [|intros x; apply tidy_upd; intros ?; by split_and!|exact Hg]. apply tidy_signed_in. by apply (Hp (session b) (login_request (trim em) pw (trim code)) (length (requests b)) res).
  - by apply (tidy_upd (set_loginErr _)); [intros ?; split_and!|].
Qed.

Lemma tidy_doReset p p2 t now : tidy (doReset API p p2 t now).
Proof.
  unfold doReset. destruct (negb _); [apply tidy_ret|]. apply tidy_then; [|intros _|intros m; apply tidy_ret].
  - unfold doReset_request. solve_known.
  - apply tidy_bind; [apply tidy_upd; intros ?; by split_and!|]. intros _. apply tidy_load_page.
Qed.
#[local] Hint Resolve tidy_doReset : tidy.

Lemma tidy_attStep id x : tidy (attStep API id x).
Proof. unfold attStep. apply tidy_bind; [apply tidy_read|]. intros s. apply tidy_then; [destruct x; solve_known| |]; solve_tidy. Qed.
#[local] Hint Resolve tidy_attStep : tidy.

Lemma tidy_perform a : platform_answers → tidy (perform API a).
Proof.
  intros Hp. destruct a; cbn [perform];
    lazymatch goal with
    | |- tidy (login _ _ _ _ _) => by apply tidy_login
    | |- tidy (upd loaded ≫= _) => apply tidy_load_page
    | _ => solve_tidy
    end.
Qed.

Lemma good_after l b : platform_answers → good_page b → good_page (after API l b).
Proof.
  intros Hp. unfold after. revert b. induction l as [|a l IH]; intros b Hb; [done|]. cbn [fold_left]. apply IH.
  by apply (tidy_perform a Hp b Hb).
Qed.

(** The page of a browser that has never been here. *)
Definition blank : Browser := loaded (mkBrowser no_session false (JStr "") JUndefined "dashboard" None None None "" [] []).

(** The session is over: neither the page nor its storage has one. *)
Definition signed_out (b : Browser) : Prop := session b = no_session ∧ stored b = None ∧ screen b = Some LOGIN.

(** What ends a session: signing out, the timer when it is due, and a response 401 to any
    request but a login, early or late. *)
Definition ends_session (b : Browser) (a : Action) : Prop :=
  match a with
  | Logout => True
  | ExpTimer now => ∃ exp, expTimer b = Some exp ∧ exp <= now
  | LateResponse path (Ok (res, _)) => fs_status res = 401 ∧ includes "/auth/login" path = false ∧ screen b = Some APP
  | _ => False
  end.

(** Claim C34 (the sessions of the console).  Whatever an operator does with the console
    from its first page on, and whatever responses and timers come late, as long as the
    platform answers logins the way it does, and also when functions of the script end
    with an error that nobody handles (the views of users, roles, policies, flags and
    controls and the program picker have no [try]): every request the script sends is, by
    method and path, a route of the trustee bank's namespaces or an open one; the
    application is shown only with the token of a session, the one that is stored for a
    reload; with the login page there is neither.  Signing out, the timer once it is due,
    and a response 401 to any request but a login end the session that is then held, on
    the page and in its storage.  Each function runs to its end before the next action; of a
    late response there is what [api] does with it. *)
Theorem console_sessions reset_token now l (Hp : platform_answers) (b := after API l (run (perform API (Load reset_token now)) blank).2) :
  page_session b ∧ Forall known (requests b) ∧
  ∀ a, ends_session b a → signed_out (run (perform API a) b).2.
Proof.
  assert (good_page b) as Hb.
  { apply good_after; [done|]. by apply (load_good reset_token now blank); [left|]. }
  split; [apply Hb|]. split; [apply Hb|]. intros a Ha.
  destruct a; try contradiction Ha; [by split_and!|..].
  - destruct Ha as (exp & He & Hn). cbn [perform]. unfold timer_fires. rewrite run_bind, run_read. cbv beta iota. rewrite He.
    apply Z.leb_le in Hn. rewrite Hn. by split_and!.
  - destruct r as [[res t]|e]; [|contradiction Ha]. destruct Ha as (Hs & Hpath & Happ).
    destruct Hb as [[(_ & tok & e & u & Ht & Es & _)|[(Ex & _)|(Ex & _)]] _]; [|by rewrite Happ in Ex..].
    cbn [perform receive]. rewrite !run_bind, run_read. cbv beta iota. rewrite Es, Hs, Hpath.
    change (js_truthy (token (operator tok e u))) with (js_truthy (JStr tok)). rewrite (truthy_text tok Ht). by split_and!.
Qed.

(** A view without a [try]: a request that is refused ends the function with an error,
    which no handler gets. *)
Lemma view_error_escapes b m body st :
  (run (api API roles_request) (set_tab "roles" b)).1 = Ok (Refused m body st) →
  (run (perform API (Go "roles")) b).1 = Err (JsError "Error" m).
Proof.
  intros H. cbn [perform]. change (go API "roles") with (upd (set_tab "roles");; vRoles API). rewrite run_bind, run_upd.
  unfold vRoles, await_api. rewrite !run_bind. cbv beta iota in *.
  destruct (run (api API roles_request) _) as [[r|x] b']; cbn [fst] in H; [|discriminate H].
  injection H as ->. by rewrite run_lift.
Qed.

(** With the second factor on, its setup cannot be started: there is no element to show
    it in. *)
Lemma setup_with_mfa b : mfaEnabled b = true → run (perform API StartMfaSetup) b = (Err (JsError "TypeError" "Cannot set properties of null"), b).
Proof. intros H. cbn [perform]. unfold startMfaSetup. rewrite run_bind, run_read. cbv beta iota. by rewrite H, run_lift. Qed.
End sessions.

(** ** A concrete platform *)

Definition demo_operator_row : Schema.User.t :=
  Schema.User.mk "u1" "ops@bank" "Ops" "TRUSTEE_BANK" ["trustee_super_admin"] None None None true false 0.

(** It takes every login, answers a change of password with 401, and the rest with an
    empty object. *)
Definition demo_web : Web :=
  {| web_fetch := λ rq _,
       if bool_decide (fq_url rq = "https://api/api/v1/auth/login") then
         Ok (mkFetchResponse 200 [] (Ok (stringify (login_result demo_env demo_operator_row "head.sig"))))
       else if bool_decide (fq_url rq = "https://api/api/v1/auth/change-password") then
         Ok (mkFetchResponse 401 [] (Ok (stringify (JObj [("message", JStr "Current password is incorrect")]))))
       else Ok (mkFetchResponse 200 [] (Ok "{}"));
     atob := λ _, Err (JsError "InvalidCharacterError" "atob") |}.

Lemma demo_answers : @platform_answers demo_runtime demo_web demo_env "https://api".
Proof.
  intros s rq n res t Hpath Hf Ht _. cbn [web_fetch demo_web fetch_request fq_url] in Hf. rewrite Hpath in Hf.
  rewrite bool_decide_eq_true_2 in Hf by done. injection Hf as <-. injection Ht as <-. right.
  exists demo_operator_row, "head.sig". split; [done|]. vm_compute. reflexivity.
Qed.

#[local] Abbreviation demo_page :=
  (@after demo_runtime demo_web "https://api" [Login "ops@bank" "pw" "123456" 0]
    (run (@perform demo_runtime demo_web "https://api" (Load "" 0)) blank).2) (only parsing).

(** The operator is signed in, mistypes the current password, and is signed out; a late
    401 to another request does the same. *)
Definition late_401 : Action := LateResponse "/api/v1/admin/users" (Ok (mkFetchResponse 401 [] (Ok "{}"), "{}")).

Lemma console_sessions_witness :
  screen demo_page = Some APP ∧ page_session demo_page ∧ Forall known (requests demo_page) ∧
  page_session (@after demo_runtime demo_web "https://api" [Login "ops@bank" "pw" "123456" 0; ChangePw "mistyped" "new"]
    (run (@perform demo_runtime demo_web "https://api" (Load "" 0)) blank).2) ∧
  signed_out (run (@perform demo_runtime demo_web "https://api" late_401) demo_page).2.
Proof.
  assert (screen demo_page = Some APP) as Happ by (vm_compute; reflexivity).
  destruct (@console_sessions demo_runtime demo_web demo_env "https://api" "" 0 [Login "ops@bank" "pw" "123456" 0] demo_answers) as (H1 & H2 & H3).
  destruct (@console_sessions demo_runtime demo_web demo_env "https://api" "" 0
    [Login "ops@bank" "pw" "123456" 0; ChangePw "mistyped" "new"] demo_answers) as (H4 & _).
  split; [exact Happ|]. split; [exact H1|]. split; [exact H2|]. split; [exact H4|].
  exact (H3 late_401 (conj eq_refl (conj eq_refl Happ))).
Defined.
