(* ===== verification/ConsoleQueues.v ===== *)
(** The work queues in the operator console: the buttons it offers for the rows of the
    queues against what the methods behind them do with those rows. *)
From S2P Require Import Prelude.
From S2P Require Import Prog.
From S2P Require Import Crypto.
From S2P Require Import Domain.
From S2P Require Import Schema.
From S2P Require Import Prisma.
From S2P Require Import Infra.
From S2P Require Import Invariant.
From S2P Require Import Worker.
From S2P Require Import JsValue.
From S2P Require Import Money.
From S2P Require Import Ledger.
From S2P Require Import Controllers.
From S2P Require Import TrusteeControllers.
From S2P Require Import Console.
From S2P Require Import ConsoleViews.
From S2P Require Import Platform.
From S2P Require Import System.
From S2P Require Import Demo.
From S2P Require Operations.
From S2P Require MintService.
From S2P Require Redemption.
From S2P Require Deposits.
From S2P Require Paykh.
#[local] Open Scope string_scope.
#[local] Open Scope list_scope.
#[local] Open Scope Z_scope.

(** * The buttons of a row *)

(** The actions of the view for a status, which [queue_buttons] turns into buttons. *)
Definition next_mint (s : MintAuthorizationStatus) : list string := mint_acts (JStr (MintAuthorizationStatus_to_string s)).
Definition next_redemption (s : RedemptionStatus) : list string := redemption_acts (JStr (RedemptionStatus_to_string s)).
Definition next_deposit (s : DepositStatus) : list string := deposit_acts (JStr (DepositStatus_to_string s)).
Definition next_settlement (s : SettlementStatus) : list string := settlement_acts (JStr (SettlementStatus_to_string s)).

Definition steps {A} (id : A → string) (acts : A → list string) (l : list A) : list Button :=
  concat (map (λ x, (λ a, mkButton a (id x)) <$> acts x) l).

(** A section of the view, of rows that keep through JSON. *)
Lemma sec_steps {A} (js : A → jsval) id acts next (l : list A) :
  (∀ x, x ∈ l → json_roundtrip_value (js x) = js x ∧ js_prop "status" (js x) = Ok (js_get "status" (js x)) ∧
     id_of (js x) = id x ∧ acts (js_get "status" (js x)) = next x) →
  sec (json_roundtrip_value (JArr (map js l))) acts = Ok (steps id next l).
Proof.
  intros H. cbn [json_roundtrip_value sec].
  assert (each (λ x, st ← js_prop "status" x; Ok (with_id (acts st) x))
    (map (λ x, match json_roundtrip_value x with JUndefined => JNull | y => y end) (map js l)) =
    Ok (map (λ x, (λ a, mkButton a (id x)) <$> next x) l)) as ->; [|done].
  induction l as [|x l IH]; [done|]. destruct (H x) as (Hr & Hp & Hi & Ha); [left|]. cbn [map each]. rewrite Hr.
  assert (js x ≠ JUndefined) as Hu by (intros E; rewrite E in Hp; discriminate Hp).
  assert (match js x with JUndefined => JNull | y => y end = js x) as -> by by destruct (js x).
  rewrite Hp. cbn [mbind outcome_bind]. rewrite IH by (intros y Hy; apply H; by right). cbn [mbind outcome_bind]. unfold with_id.
  by rewrite Ha, Hi.
Qed.

Lemma steps_in {A} (id : A → string) next l b : b ∈ steps id next l ↔ ∃ x a, x ∈ l ∧ a ∈ next x ∧ b = mkButton a (id x).
Proof.
  unfold steps. rewrite list_elem_of_In, in_concat. split.
  - intros (y & (x & <- & Hx)%in_map_iff & Hb). apply list_elem_of_In, list_elem_of_fmap in Hb as (a & -> & Ha).
    exists x, a. by rewrite list_elem_of_In.
  - intros (x & a & Hx & Ha & ->). eexists. split; [apply in_map_iff; exists x; split; [done|by apply list_elem_of_In]|].
    apply list_elem_of_In, list_elem_of_fmap. by exists a.
Qed.

Section queues.
Context `{RT : !Runtime} `{PC : !PrismaClient} (env : Env) (webhookKey : option SigningKey).

(** The rows of a queue: the oldest hundred. *)
Definition queue_rows (t : table) (p : row t → bool) (created : row t → Z) (w : World) : list (row t) :=
  take 100 (merge_sort (asc_by created) (where_rows p (scan t w))).

Lemma queue_rows_in t p created w r : r ∈ queue_rows t p created w → p r = true ∧ ∃ k, tbl w t !! k = Some r.
Proof.
  intros (i & Hi%list_elem_of_lookup_2 & _)%elem_of_take. rewrite merge_sort_Permutation in Hi.
  unfold where_rows in Hi. apply list_elem_of_filter in Hi as [Hp Hr]. by apply elem_of_scan in Hr.
Qed.

(** A row in a queue: its id, its status and the actions there are for the queue. *)
Inductive queued (w : World) : string → string → list string → Prop :=
| queued_mint m : m ∈ queue_rows TMintAuthorization Operations.queue_mint MintAuthorization.createdAt w →
    queued w (MintAuthorization.id m) (MintAuthorizationStatus_to_string (MintAuthorization.status m))
      ["reviewMint"; "approveMint"; "rejectMint"]
| queued_redemption r : r ∈ queue_rows TRedemption Operations.queue_redemption Schema.Redemption.createdAt w →
    queued w (Schema.Redemption.id r) (RedemptionStatus_to_string (Schema.Redemption.status r))
      ["approveRedemption"; "submitPayout"; "confirmPayout"]
| queued_deposit d : d ∈ queue_rows TDeposit Operations.queue_deposit Deposit.createdAt w →
    queued w (Deposit.id d) (DepositStatus_to_string (Deposit.status d)) ["matchDeposit"; "clearDeposit"]
| queued_settlement x : x ∈ queue_rows TPaykhSettlement Operations.queue_settlement PaykhSettlement.createdAt w →
    queued w (PaykhSettlement.id x) (SettlementStatus_to_string (PaykhSettlement.status x)) ["approveSettlement"; "confirmSettlement"].

(** * The methods behind the buttons *)

(** The method that the request of a button calls, whatever the request carries besides
    the id; how it refuses a row for its status; and what it needs besides the status to
    go on to its next query: a caller who did not review the mint authorization, and a
    settlement of a positive amount. *)
Inductive asks (w : World) : Button → prog World Body → (string → string) → Prop → Prop :=
| asks_reviewMint i maker :
    asks w (mkButton "reviewMint" i) (TrusteeMintController.serve env (TrusteeMintController.review i maker))
      (λ st, "Authorization is " +:+ st +:+ ", not awaiting maker review") True
| asks_approveMint i checker reason :
    asks w (mkButton "approveMint" i) (TrusteeMintController.serve env (TrusteeMintController.approve i checker reason))
      (λ st, "Authorization is " +:+ st +:+ ", not awaiting approval")
      (∀ k a, tbl w TApproval !! k = Some a → Approval.mintAuthorizationId a = Some i → Approval.makerId a ≠ checker)
| asks_approveRedemption i approver reason :
    asks w (mkButton "approveRedemption" i) (TrusteeRedemptionController.serve env (TrusteeRedemptionController.approve i approver reason))
      (λ st, "Redemption is " +:+ st +:+ ", not awaiting approval") True
| asks_submitPayout i actor :
    asks w (mkButton "submitPayout" i) (TrusteeRedemptionController.serve env (TrusteeRedemptionController.submitPayout i actor))
      (λ st, "Cannot pay out before burn is confirmed (is " +:+ st +:+ ")") True
| asks_confirmPayout i actor :
    asks w (mkButton "confirmPayout" i) (TrusteeRedemptionController.serve env (TrusteeRedemptionController.confirmPayout i actor))
      (λ st, "Redemption must be PAYOUT_SUBMITTED to confirm, is " +:+ st) True
| asks_matchDeposit i instruction actor :
    asks w (mkButton "matchDeposit" i) (DepositsController.serve env (DepositsController.match_ i instruction actor))
      (λ st, "Deposit " +:+ i +:+ " cannot be matched from " +:+ st) True
| asks_clearDeposit i actor :
    asks w (mkButton "clearDeposit" i) (DepositsController.serve env (DepositsController.clear i actor))
      (λ st, "Deposit " +:+ i +:+ " must be MATCHED before clearance, is " +:+ st) True
| asks_approveSettlement i checker :
    asks w (mkButton "approveSettlement" i) (OperationsController.serve env (OperationsController.approveSettlement i checker))
      (λ st, "Settlement cannot be approved from " +:+ st) True
| asks_confirmSettlement i actor :
    asks w (mkButton "confirmSettlement" i) (OperationsController.serve env (OperationsController.confirmSettlement i actor))
      (λ st, "Settlement must be APPROVED/SUBMITTED to confirm, is " +:+ st)
      (∀ x, tbl w TPaykhSettlement !! i = Some x → 0 < PaykhSettlement.amountMinor x).

(** What is left of a method after its first query, which reads the row; and that it
    makes another query then. *)
Definition after_query {A} (p : prog World A) (w : World) : prog World A :=
  match p with Act f => (f w).1 | _ => p end.
Definition goes_on {A} (p : prog World A) (w : World) : Prop := ∃ f, after_query p w = Act f.

(** What a method does with a row, by whether its action is among the [next] ones. *)
Definition decides (w : World) (p : prog World Body) (msg : string) (P : Prop) (offered : Prop) : Prop :=
  (offered → P → goes_on p w) ∧ (¬ offered → run p w = (Err (BadRequestException msg []), w)).

Ltac not_among H := exfalso; apply list_elem_of_In in H; vm_compute in H; intuition discriminate.
Ltac among := apply list_elem_of_In; vm_compute; tauto.
(** The first query of a method, and its check of the status. *)
Ltac first_query Hr :=
  cbv [goes_on after_query json returns mbind prog_mbind prog_bind read or_throw find_unique lift throw_if throw_when
    TrusteeMintController.serve TrusteeRedemptionController.serve DepositsController.serve OperationsController.serve
    MintService.review MintService.approve MintService.requireAuthWithApproval Redemption.approve Redemption.submitPayout
    Redemption.confirmPayout Redemption.require Deposits.match_deposit Deposits.clear Deposits.requireDeposit
    Paykh.Settlements.approve Paykh.Settlements.confirm Paykh.Settlements.require row];
  cbv [row] in Hr; cbn [run fst snd]; rewrite Hr; cbv iota beta zeta; cbn [fst snd].
Ltac in_queue Hq := apply bool_decide_eq_true, list_elem_of_In in Hq.
Ltac out_of_queue Hq := exfalso; vm_compute in Hq; intuition discriminate.
(** In each status of the row [st] that its queue [Hq] has: the action is offered and the
    next query follows, or it is not and the method ends. *)
Ltac by_status Hr Hq st :=
  let Hin := fresh "Hin" in split; [intros Hin _|intros Hin]; first_query Hr; in_queue Hq;
  unfold Redemption.redemption_status, Deposits.deposit_status, Paykh.Settlements.settlement_status;
  destruct st; try out_of_queue Hq;
  first [not_among Hin | exfalso; apply Hin; among | eexists; reflexivity | reflexivity].

Lemma reviewMint_decides w r maker : tbl w TMintAuthorization !! MintAuthorization.id r = Some r → Operations.queue_mint r = true →
  decides w (TrusteeMintController.serve env (TrusteeMintController.review (MintAuthorization.id r) maker)) ("Authorization is " +:+ MintAuthorizationStatus_to_string (MintAuthorization.status r) +:+ ", not awaiting maker review") True
    ("reviewMint" ∈ next_mint (MintAuthorization.status r)).
Proof. intros Hr Hq. by_status Hr Hq (MintAuthorization.status r). Qed.
Lemma approveRedemption_decides w r approver reason : tbl w TRedemption !! Schema.Redemption.id r = Some r → Operations.queue_redemption r = true →
  decides w (TrusteeRedemptionController.serve env (TrusteeRedemptionController.approve (Schema.Redemption.id r) approver reason)) ("Redemption is " +:+ RedemptionStatus_to_string (Schema.Redemption.status r) +:+ ", not awaiting approval") True
    ("approveRedemption" ∈ next_redemption (Schema.Redemption.status r)).
Proof. intros Hr Hq. by_status Hr Hq (Schema.Redemption.status r). Qed.
Lemma submitPayout_decides w r actor : tbl w TRedemption !! Schema.Redemption.id r = Some r → Operations.queue_redemption r = true →
  decides w (TrusteeRedemptionController.serve env (TrusteeRedemptionController.submitPayout (Schema.Redemption.id r) actor)) ("Cannot pay out before burn is confirmed (is " +:+ RedemptionStatus_to_string (Schema.Redemption.status r) +:+ ")") True
    ("submitPayout" ∈ next_redemption (Schema.Redemption.status r)).
Proof. intros Hr Hq. by_status Hr Hq (Schema.Redemption.status r). Qed.
Lemma matchDeposit_decides w r instruction actor : tbl w TDeposit !! Deposit.id r = Some r → Operations.queue_deposit r = true →
  decides w (DepositsController.serve env (DepositsController.match_ (Deposit.id r) instruction actor)) ("Deposit " +:+ Deposit.id r +:+ " cannot be matched from " +:+ DepositStatus_to_string (Deposit.status r)) True
    ("matchDeposit" ∈ next_deposit (Deposit.status r)).
Proof. intros Hr Hq. by_status Hr Hq (Deposit.status r). Qed.
Lemma clearDeposit_decides w r actor : tbl w TDeposit !! Deposit.id r = Some r → Operations.queue_deposit r = true →
  decides w (DepositsController.serve env (DepositsController.clear (Deposit.id r) actor)) ("Deposit " +:+ Deposit.id r +:+ " must be MATCHED before clearance, is " +:+ DepositStatus_to_string (Deposit.status r)) True
    ("clearDeposit" ∈ next_deposit (Deposit.status r)).
Proof. intros Hr Hq. by_status Hr Hq (Deposit.status r). Qed.
Lemma approveSettlement_decides w r checker : tbl w TPaykhSettlement !! PaykhSettlement.id r = Some r → Operations.queue_settlement r = true →
  decides w (OperationsController.serve env (OperationsController.approveSettlement (PaykhSettlement.id r) checker)) ("Settlement cannot be approved from " +:+ SettlementStatus_to_string (PaykhSettlement.status r)) True
    ("approveSettlement" ∈ next_settlement (PaykhSettlement.status r)).
Proof. intros Hr Hq. by_status Hr Hq (PaykhSettlement.status r). Qed.

Lemma entry_built d a b z c refs : 0 < z → is_ok (ledgerAccountTypeOf a) = true → is_ok (ledgerAccountTypeOf b) = true →
  ∃ e, transfer_entry d a b (money z c) refs = Ok e.
Proof. intros Hz Ha Hb. eexists. apply transfer_entry_ok. split; [|reflexivity]. split_and!; [done|apply to_upper_idem|done..]. Qed.

(** A payout always has its entry: the amount of a redemption is positive. *)
Lemma confirmPayout_decides w r actor : tbl w TRedemption !! Schema.Redemption.id r = Some r → Operations.queue_redemption r = true → 0 < Schema.Redemption.amountMinor r →
  decides w (TrusteeRedemptionController.serve env (TrusteeRedemptionController.confirmPayout (Schema.Redemption.id r) actor)) ("Redemption must be PAYOUT_SUBMITTED to confirm, is " +:+ RedemptionStatus_to_string (Schema.Redemption.status r)) True
    ("confirmPayout" ∈ next_redemption (Schema.Redemption.status r)).
Proof. 
  intros Hr Hq Hz.
  destruct (entry_built "Fiat payout confirmed; pending redemption discharged" LIABILITY_PENDING_REDEMPTION ASSET_TRUSTEE_BANK_CASH
    (Schema.Redemption.amountMinor r) (Schema.Redemption.currency r)
    (Redemption.redemption_refs ("redemption-payout:" +:+ Schema.Redemption.id r) r actor) Hz eq_refl eq_refl) as [e He].
  change (payoutConfirmedEntry (Redemption.redemption_amount r)
    (Redemption.redemption_refs ("redemption-payout:" +:+ Schema.Redemption.id r) r actor) = Ok e) in He.
  split; intros Hin.
  - intros _. first_query Hr. in_queue Hq. destruct (Schema.Redemption.status r); try out_of_queue Hq; try not_among Hin.
    cbv iota beta. rewrite He. eexists. reflexivity.
  - first_query Hr. in_queue Hq. unfold Redemption.redemption_status. destruct (Schema.Redemption.status r); try out_of_queue Hq;
      first [exfalso; apply Hin; among|reflexivity].
 Qed.
Lemma confirmSettlement_decides w r actor : tbl w TPaykhSettlement !! PaykhSettlement.id r = Some r → Operations.queue_settlement r = true →
  decides w (OperationsController.serve env (OperationsController.confirmSettlement (PaykhSettlement.id r) actor)) ("Settlement must be APPROVED/SUBMITTED to confirm, is " +:+ SettlementStatus_to_string (PaykhSettlement.status r)) (∀ x, tbl w TPaykhSettlement !! PaykhSettlement.id r = Some x → 0 < PaykhSettlement.amountMinor x)
    ("confirmSettlement" ∈ next_settlement (PaykhSettlement.status r)).
Proof. 
  intros Hr Hq. split; intros Hin.
  - intros Hz. specialize (Hz r Hr).
    destruct (entry_built "PayKH merchant settlement executed" LIABILITY_PAYKH_MERCHANT_PAYABLE ASSET_TRUSTEE_BANK_CASH
      (PaykhSettlement.amountMinor r) (PaykhSettlement.currency r) (Paykh.Settlements.settlement_refs r actor) Hz eq_refl eq_refl) as [e He].
    change (paykhMerchantSettlementEntry (Paykh.Settlements.settlement_amount r) (Paykh.Settlements.settlement_refs r actor) = Ok e) in He.
    first_query Hr. in_queue Hq. destruct (PaykhSettlement.status r); try out_of_queue Hq; try not_among Hin;
      (cbv iota beta; rewrite He; eexists; reflexivity).
  - first_query Hr. in_queue Hq. unfold Paykh.Settlements.settlement_status. destruct (PaykhSettlement.status r); try out_of_queue Hq;
      first [exfalso; apply Hin; among|reflexivity].
 Qed.

(** An authorization beyond its maker's queue has an approval. *)
Lemma approval_found w r (Hr : tbl w TMintAuthorization !! MintAuthorization.id r = Some r) :
  good w → MintAuthorization.status r = PENDING_CHECKER →
  ∃ k a, tbl w TApproval !! k = Some a ∧
    head (where_rows (λ a, bool_decide (Approval.mintAuthorizationId a = Some (MintAuthorization.id r))) (scan TApproval w)) = Some a ∧
    Approval.mintAuthorizationId a = Some (MintAuthorization.id r).
Proof.
  intros Hg Hst. destruct (good_row w Hg TMintAuthorization _ r Hr) as (_ & H & _).
  destruct H as (k & a & Ha & Hm); [by rewrite Hst|].
  assert (a ∈ where_rows (λ a, bool_decide (Approval.mintAuthorizationId a = Some (MintAuthorization.id r))) (scan TApproval w)) as Hin.
  { apply list_elem_of_filter. split; [by apply bool_decide_eq_true|]. apply (elem_of_scan TApproval). by exists k. }
  destruct (where_rows _ _) as [|a' l] eqn:E; [by apply not_elem_of_nil in Hin|].
  assert (a' ∈ where_rows (λ a, bool_decide (Approval.mintAuthorizationId a = Some (MintAuthorization.id r))) (scan TApproval w)) as Hin'
    by (rewrite E; left).
  apply list_elem_of_filter in Hin' as [Hm'%bool_decide_eq_true (k' & Hk')%(elem_of_scan TApproval)]. by exists k', a'.
Qed.

Lemma approveMint_decides w r checker reason : tbl w TMintAuthorization !! MintAuthorization.id r = Some r → Operations.queue_mint r = true → good w →
  decides w (TrusteeMintController.serve env (TrusteeMintController.approve (MintAuthorization.id r) checker reason)) ("Authorization is " +:+ MintAuthorizationStatus_to_string (MintAuthorization.status r) +:+ ", not awaiting approval") (∀ k a, tbl w TApproval !! k = Some a → Approval.mintAuthorizationId a = Some (MintAuthorization.id r) → Approval.makerId a ≠ checker)
    ("approveMint" ∈ next_mint (MintAuthorization.status r)).
Proof. 
  intros Hr Hq Hg. split; intros Hin.
  - intros Hnot. in_queue Hq. destruct (MintAuthorization.status r) eqn:E; try out_of_queue Hq; [not_among Hin|].
    destruct (approval_found w r Hr Hg E) as (k & a & Ha & Hh & Hm). specialize (Hnot k a Ha Hm).
    first_query Hr. rewrite E, Hh. cbv iota beta. cbn [negb bool_decide]. rewrite (bool_decide_eq_false_2 _ Hnot). eexists. reflexivity.
  - first_query Hr. in_queue Hq. destruct (MintAuthorization.status r); try out_of_queue Hq;
      first [exfalso; apply Hin; among|reflexivity].
 Qed.

Lemma queue_buttons_sections M R D S c bm br bd bs :
  sec (json_roundtrip_value (JArr M)) mint_acts = Ok bm → sec (json_roundtrip_value (JArr R)) redemption_acts = Ok br →
  sec (json_roundtrip_value (JArr D)) deposit_acts = Ok bd → sec (json_roundtrip_value (JArr S)) settlement_acts = Ok bs →
  queue_buttons (json_roundtrip_value (JObj [("mint", JArr M); ("redemptions", JArr R); ("deposits", JArr D); ("settlements", JArr S);
    ("counts", JObj c)])) = Ok (bm ++ br ++ bd ++ bs).
Proof.
  intros H1 H2 H3 H4. set (q := json_roundtrip_value (JObj _)). unfold queue_buttons.
  change (js_prop "mint" q) with (Ok (A := jsval) (json_roundtrip_value (JArr M))).
  change (js_prop "redemptions" q) with (Ok (A := jsval) (json_roundtrip_value (JArr R))).
  change (js_prop "deposits" q) with (Ok (A := jsval) (json_roundtrip_value (JArr D))).
  change (js_prop "settlements" q) with (Ok (A := jsval) (json_roundtrip_value (JArr S))).
  cbn [mbind outcome_bind]. rewrite H1. cbn [mbind outcome_bind]. rewrite H2. cbn [mbind outcome_bind]. rewrite H3.
  cbn [mbind outcome_bind]. by rewrite H4.
Qed.

Lemma queue_rows_all t (p : row t → bool) created w (P : row t → Prop) :
  (∀ r, p r = true → P r) → ∀ r, r ∈ queue_rows t p created w → P r.
Proof. intros H r Hr. apply H. by apply queue_rows_in in Hr as [Hp _]. Qed.

Ltac status_in Hp := apply bool_decide_eq_true in Hp; repeat (apply elem_of_cons in Hp as [Hp|Hp]); try (by apply not_elem_of_nil in Hp); rewrite Hp.

(** The four sections of the answer. *)
Lemma mint_section w : sec (json_roundtrip_value (JArr (map Operations.js_queue_mint (map (λ m, (m, Operations.approval_of w m))
    (queue_rows TMintAuthorization Operations.queue_mint MintAuthorization.createdAt w))))) mint_acts =
  Ok (steps MintAuthorization.id (λ m, next_mint (MintAuthorization.status m)) (queue_rows TMintAuthorization Operations.queue_mint MintAuthorization.createdAt w)).
Proof.
  rewrite map_map. apply sec_steps. apply (queue_rows_all TMintAuthorization). intros m Hp.
  split; [by destruct (Operations.approval_of w m)|]. do 2 (split; [done|]).
  change (mint_acts (JStr (MintAuthorizationStatus_to_string (MintAuthorization.status m))) = next_mint (MintAuthorization.status m)).
  status_in Hp; reflexivity.
Qed.
Lemma redemption_section w : sec (json_roundtrip_value (JArr (map Operations.js_queue_redemption
    (queue_rows TRedemption Operations.queue_redemption Schema.Redemption.createdAt w)))) redemption_acts =
  Ok (steps Schema.Redemption.id (λ r, next_redemption (Schema.Redemption.status r)) (queue_rows TRedemption Operations.queue_redemption Schema.Redemption.createdAt w)).
Proof.
  apply sec_steps. apply (queue_rows_all TRedemption). intros r Hp.
  split; [unfold Operations.js_queue_redemption; by destruct (Schema.Redemption.burnTxHash r)|]. do 2 (split; [done|]).
  change (redemption_acts (JStr (RedemptionStatus_to_string (Schema.Redemption.status r))) = next_redemption (Schema.Redemption.status r)).
  status_in Hp; reflexivity.
Qed.
Lemma deposit_section w : sec (json_roundtrip_value (JArr (map Operations.js_queue_deposit
    (queue_rows TDeposit Operations.queue_deposit Deposit.createdAt w)))) deposit_acts =
  Ok (steps Deposit.id (λ d, next_deposit (Deposit.status d)) (queue_rows TDeposit Operations.queue_deposit Deposit.createdAt w)).
Proof.
  apply sec_steps. apply (queue_rows_all TDeposit). intros d Hp.
  split; [unfold Operations.js_queue_deposit; by destruct (Deposit.fundingInstructionId d)|]. do 2 (split; [done|]).
  change (deposit_acts (JStr (DepositStatus_to_string (Deposit.status d))) = next_deposit (Deposit.status d)).
  status_in Hp; reflexivity.
Qed.
Lemma settlement_section w : sec (json_roundtrip_value (JArr (map Operations.js_queue_settlement
    (queue_rows TPaykhSettlement Operations.queue_settlement PaykhSettlement.createdAt w)))) settlement_acts =
  Ok (steps PaykhSettlement.id (λ s, next_settlement (PaykhSettlement.status s)) (queue_rows TPaykhSettlement Operations.queue_settlement PaykhSettlement.createdAt w)).
Proof.
  apply sec_steps. apply (queue_rows_all TPaykhSettlement). intros s Hp. do 3 (split; [done|]).
  change (settlement_acts (JStr (SettlementStatus_to_string (PaykhSettlement.status s))) = next_settlement (PaykhSettlement.status s)).
  status_in Hp; reflexivity.
Qed.

(** ** The buttons of all queues *)

Definition all_buttons (w : World) : list Button :=
  steps MintAuthorization.id (λ m, next_mint (MintAuthorization.status m))
    (queue_rows TMintAuthorization Operations.queue_mint MintAuthorization.createdAt w) ++
  steps Schema.Redemption.id (λ r, next_redemption (Schema.Redemption.status r))
    (queue_rows TRedemption Operations.queue_redemption Schema.Redemption.createdAt w) ++
  steps Deposit.id (λ d, next_deposit (Deposit.status d))
    (queue_rows TDeposit Operations.queue_deposit Deposit.createdAt w) ++
  steps PaykhSettlement.id (λ s, next_settlement (PaykhSettlement.status s))
    (queue_rows TPaykhSettlement Operations.queue_settlement PaykhSettlement.createdAt w).

(** Each queue has its own actions. *)
Definition mint_actions : list string := ["reviewMint"; "approveMint"; "rejectMint"].
Definition redemption_actions : list string := ["approveRedemption"; "submitPayout"; "confirmPayout"].
Definition deposit_actions : list string := ["matchDeposit"; "clearDeposit"].
Definition settlement_actions : list string := ["approveSettlement"; "confirmSettlement"].

Lemma steps_acts {A} (id : A → string) (next : A → list string) (l : list A) (acts : list string) a i :
  (∀ x, Forall (λ a, a ∈ acts) (next x)) → mkButton a i ∈ steps id next l → a ∈ acts.
Proof.
  intros H (x & a' & _ & Ha & E)%steps_in. injection E as <- _. specialize (H x). rewrite Forall_forall in H. by apply H.
Qed.
Lemma next_mint_actions s : Forall (λ a, a ∈ mint_actions) (next_mint s).
Proof. apply Forall_forall. intros a Ha. apply list_elem_of_In. apply list_elem_of_In in Ha. destruct s; vm_compute in Ha |- *; tauto. Qed.
Lemma next_redemption_actions s : Forall (λ a, a ∈ redemption_actions) (next_redemption s).
Proof. apply Forall_forall. intros a Ha. apply list_elem_of_In. apply list_elem_of_In in Ha. destruct s; vm_compute in Ha |- *; tauto. Qed.
Lemma next_deposit_actions s : Forall (λ a, a ∈ deposit_actions) (next_deposit s).
Proof. apply Forall_forall. intros a Ha. apply list_elem_of_In. apply list_elem_of_In in Ha. destruct s; vm_compute in Ha |- *; tauto. Qed.
Lemma next_settlement_actions s : Forall (λ a, a ∈ settlement_actions) (next_settlement s).
Proof. apply Forall_forall. intros a Ha. apply list_elem_of_In. apply list_elem_of_In in Ha. destruct s; vm_compute in Ha |- *; tauto. Qed.

(** A row's buttons, in the queue of its table. *)
Lemma steps_row t (p : row t → bool) created w (id : row t → string) (next : row t → list string) r a :
  good w → (∀ r, row_key t r = id r) → r ∈ queue_rows t p created w →
  mkButton a (id r) ∈ steps id next (queue_rows t p created w) ↔ a ∈ next r.
Proof.
  intros Hg Hid Hr. rewrite steps_in. split; [|intros Ha; by exists r, a].
  intros (x & a' & Hx & Ha & E). injection E as -> E.
  apply queue_rows_in in Hr as (_ & k & Hk). apply queue_rows_in in Hx as (_ & k' & Hk').
  pose proof (good_key w Hg _ _ _ Hk) as K. pose proof (good_key w Hg _ _ _ Hk') as K'. rewrite Hid in K, K'.
  rewrite <- K' in Hk'. rewrite <- K in Hk. rewrite E in Hk. by rewrite (tbl_fun t _ _ _ _ Hk Hk').
Qed.

(** The buttons of an action are those of its queue. *)
Ltac of_other_queue H :=
  first [eapply (steps_acts _ _ _ mint_actions) in H; [|intros ?; apply next_mint_actions]
        |eapply (steps_acts _ _ _ redemption_actions) in H; [|intros ?; apply next_redemption_actions]
        |eapply (steps_acts _ _ _ deposit_actions) in H; [|intros ?; apply next_deposit_actions]
        |eapply (steps_acts _ _ _ settlement_actions) in H; [|intros ?; apply next_settlement_actions]].
Ltac in_its_queue Ha :=
  let H := fresh "H" in
  unfold all_buttons; rewrite !elem_of_app; split; [|tauto];
  intros H; destruct_or? H; try exact H; exfalso; of_other_queue H;
  apply list_elem_of_In in H; apply list_elem_of_In in Ha; cbn in H, Ha; destruct_or?; subst; discriminate.

Lemma mint_buttons w a i : a ∈ mint_actions → mkButton a i ∈ all_buttons w ↔
  mkButton a i ∈ steps MintAuthorization.id (λ m, next_mint (MintAuthorization.status m))
    (queue_rows TMintAuthorization Operations.queue_mint MintAuthorization.createdAt w).
Proof. intros Ha. in_its_queue Ha. Qed.
Lemma redemption_buttons w a i : a ∈ redemption_actions → mkButton a i ∈ all_buttons w ↔
  mkButton a i ∈ steps Schema.Redemption.id (λ r, next_redemption (Schema.Redemption.status r))
    (queue_rows TRedemption Operations.queue_redemption Schema.Redemption.createdAt w).
Proof. intros Ha. in_its_queue Ha. Qed.
Lemma deposit_buttons w a i : a ∈ deposit_actions → mkButton a i ∈ all_buttons w ↔
  mkButton a i ∈ steps Deposit.id (λ d, next_deposit (Deposit.status d))
    (queue_rows TDeposit Operations.queue_deposit Deposit.createdAt w).
Proof. intros Ha. in_its_queue Ha. Qed.
Lemma settlement_buttons w a i : a ∈ settlement_actions → mkButton a i ∈ all_buttons w ↔
  mkButton a i ∈ steps PaykhSettlement.id (λ s, next_settlement (PaykhSettlement.status s))
    (queue_rows TPaykhSettlement Operations.queue_settlement PaykhSettlement.createdAt w).
Proof. intros Ha. in_its_queue Ha. Qed.

(** A rejection is offered with an approval. *)
Lemma reject_with_approve w i : mkButton "rejectMint" i ∈ all_buttons w ↔ mkButton "approveMint" i ∈ all_buttons w.
Proof.
  rewrite !mint_buttons by (apply list_elem_of_In; vm_compute; tauto). rewrite !steps_in.
  split; intros (m & a & Hm & Ha & E); injection E as <- ->; eexists m, _; (split; [exact Hm|split; [|reflexivity]]);
    apply list_elem_of_In; apply list_elem_of_In in Ha; destruct (MintAuthorization.status m); vm_compute in Ha |- *;
    destruct_or? Ha; first [discriminate|tauto].
Qed.

(** Every button is for a row of its queue. *)
Lemma buttons_queued w b : b ∈ all_buttons w → ∃ st acts, queued w (b_id b) st acts ∧ b_act b ∈ acts.
Proof.
  unfold all_buttons. rewrite !elem_of_app. intros H. destruct_or! H; apply steps_in in H as (x & a & Hx & Ha & ->); eexists _, _.
  - split; [by apply queued_mint|]. pose proof (next_mint_actions (MintAuthorization.status x)) as F. rewrite Forall_forall in F. by apply F.
  - split; [by apply queued_redemption|]. pose proof (next_redemption_actions (Schema.Redemption.status x)) as F. rewrite Forall_forall in F. by apply F.
  - split; [by apply queued_deposit|]. pose proof (next_deposit_actions (Deposit.status x)) as F. rewrite Forall_forall in F. by apply F.
  - split; [by apply queued_settlement|]. pose proof (next_settlement_actions (PaykhSettlement.status x)) as F. rewrite Forall_forall in F. by apply F.
Qed.

Lemma decides_iff w p msg (P Q Q' : Prop) : (Q ↔ Q') → decides w p msg P Q → decides w p msg P Q'.
Proof. intros E [H1 H2]. split; intros H; [apply H1|apply H2]; tauto. Qed.

(** A row of a queue, in the table. *)
Lemma queue_row t (p : row t → bool) created w (id : row t → string) r :
  good w → (∀ r, row_key t r = id r) → r ∈ queue_rows t p created w → tbl w t !! id r = Some r ∧ p r = true.
Proof.
  intros Hg Hid Hr. apply queue_rows_in in Hr as (Hp & k & Hk). pose proof (good_key w Hg _ _ _ Hk) as K. rewrite Hid in K.
  by rewrite K.
Qed.

Lemma mints_decided w m a p msg P : good w → m ∈ queue_rows TMintAuthorization Operations.queue_mint MintAuthorization.createdAt w →
  a ∈ mint_actions → asks w (mkButton a (MintAuthorization.id m)) p msg P →
  decides w p (msg (MintAuthorizationStatus_to_string (MintAuthorization.status m))) P (mkButton a (MintAuthorization.id m) ∈ all_buttons w).
Proof.
  intros Hg Hm Ha Hasks. eapply decides_iff; [symmetry; etrans; [by apply mint_buttons|by apply (steps_row TMintAuthorization)]|].
  destruct (queue_row TMintAuthorization _ _ w MintAuthorization.id m Hg (λ _, eq_refl) Hm) as [Hr Hq].
  inversion Hasks; subst; try not_among Ha; [by apply reviewMint_decides|by apply approveMint_decides].
Qed.
Lemma redemptions_decided w r a p msg P : good w → r ∈ queue_rows TRedemption Operations.queue_redemption Schema.Redemption.createdAt w →
  a ∈ redemption_actions → asks w (mkButton a (Schema.Redemption.id r)) p msg P →
  decides w p (msg (RedemptionStatus_to_string (Schema.Redemption.status r))) P (mkButton a (Schema.Redemption.id r) ∈ all_buttons w).
Proof.
  intros Hg Hm Ha Hasks. eapply decides_iff; [symmetry; etrans; [by apply redemption_buttons|by apply (steps_row TRedemption)]|].
  destruct (queue_row TRedemption _ _ w Schema.Redemption.id r Hg (λ _, eq_refl) Hm) as [Hr Hq].
  inversion Hasks; subst; try not_among Ha; [by apply approveRedemption_decides|by apply submitPayout_decides|].
  apply confirmPayout_decides; [done..|]. apply (good_row w Hg TRedemption _ r Hr).
Qed.
Lemma deposits_decided w d a p msg P : good w → d ∈ queue_rows TDeposit Operations.queue_deposit Deposit.createdAt w →
  a ∈ deposit_actions → asks w (mkButton a (Deposit.id d)) p msg P →
  decides w p (msg (DepositStatus_to_string (Deposit.status d))) P (mkButton a (Deposit.id d) ∈ all_buttons w).
Proof.
  intros Hg Hm Ha Hasks. eapply decides_iff; [symmetry; etrans; [by apply deposit_buttons|by apply (steps_row TDeposit)]|].
  destruct (queue_row TDeposit _ _ w Deposit.id d Hg (λ _, eq_refl) Hm) as [Hr Hq].
  inversion Hasks; subst; try not_among Ha; [by apply matchDeposit_decides|by apply clearDeposit_decides].
Qed.
Lemma settlements_decided w x a p msg P : good w → x ∈ queue_rows TPaykhSettlement Operations.queue_settlement PaykhSettlement.createdAt w →
  a ∈ settlement_actions → asks w (mkButton a (PaykhSettlement.id x)) p msg P →
  decides w p (msg (SettlementStatus_to_string (PaykhSettlement.status x))) P (mkButton a (PaykhSettlement.id x) ∈ all_buttons w).
Proof.
  intros Hg Hm Ha Hasks. eapply decides_iff; [symmetry; etrans; [by apply settlement_buttons|by apply (steps_row TPaykhSettlement)]|].
  destruct (queue_row TPaykhSettlement _ _ w PaykhSettlement.id x Hg (λ _, eq_refl) Hm) as [Hr Hq].
  inversion Hasks; subst; try not_among Ha; [by apply approveSettlement_decides|by apply confirmSettlement_decides].
Qed.

Lemma buttons_decided w i st acts a p msg P : good w → queued w i st acts → a ∈ acts → asks w (mkButton a i) p msg P →
  decides w p (msg st) P (mkButton a i ∈ all_buttons w).
Proof.
  intros Hg Hq Ha Hasks. destruct Hq; [by apply mints_decided|by apply redemptions_decided|by apply deposits_decided|by apply settlements_decided].
Qed.

(** Claim C33 (the queues offer the next step).  In every reachable database the answer of
    the work queues, as the console reads it, gives buttons for the oldest hundred rows of
    each queue, and a button is there exactly if the method behind it takes the row in its
    status: whatever else the request carries, a method whose button is shown goes on past
    its check to its next query (an approval of a mint authorization for a caller who is
    not its maker, the confirmation of a settlement for one of a positive amount), and a
    method whose button is not shown ends with its message of the row's status and changes
    nothing.  A rejection, which asks for no status, is offered where an approval of the
    mint authorization is. *)
Theorem queues_offer_next_step w0 w v w' (Hg : good w0) (Hw : reachable env webhookKey w0 w)
    (Hrun : run Operations.queues w = (Ok v, w')) :
  ∃ bs, queue_buttons (json_roundtrip_value v) = Ok bs ∧
    (∀ b, b ∈ bs → ∃ st acts, queued w (b_id b) st acts ∧ b_act b ∈ acts) ∧
    (∀ i st acts a p msg P, queued w i st acts → a ∈ acts → asks w (mkButton a i) p msg P →
       (mkButton a i ∈ bs → P → goes_on p w) ∧
       (mkButton a i ∉ bs → run p w = (Err (BadRequestException (msg st) []), w))) ∧
    (∀ i, mkButton "rejectMint" i ∈ bs ↔ mkButton "approveMint" i ∈ bs).
Proof.
  destruct (reachable_good env webhookKey w0 w Hg Hw) as [Hgood _].
  unfold Operations.queues in Hrun. cbv [find_many_asc] in Hrun. rewrite !run_bind, !run_read in Hrun.
  cbv beta iota in Hrun. rewrite !run_bind, !run_read in Hrun. injection Hrun as <- <-.
  exists (all_buttons w). split; [|split; [apply buttons_queued|split; [|apply reject_with_approve]]].
  2: { intros i st acts a p msg P Hq Ha Hasks. exact (buttons_decided w i st acts a p msg P Hgood Hq Ha Hasks). }
  apply queue_buttons_sections; [apply mint_section|apply redemption_section|apply deposit_section|apply settlement_section].
Qed.
End queues.

(** After a review: the mint authorization waits for its checker. *)
Definition demo_queued : World := serve demo_world (take 7 demo_requests).

Lemma demo_queued_reached : reachable (RT := demo_runtime) (PC := ref_client) demo_env None demo_world demo_queued.
Proof. apply (reachable_serve (RT := demo_runtime) (PC := ref_client)). apply Forall_take, demo_requests_all. Qed.

Definition demo_queue_answer : jsval := match (run (Operations.queues (PC := ref_client)) demo_queued).1 with Ok v => v | Err _ => JUndefined end.

Lemma queues_offer_next_step_witness :
  (run (Operations.queues (PC := ref_client)) demo_queued).1 = Ok demo_queue_answer ∧
  ∃ bs, queue_buttons (json_roundtrip_value demo_queue_answer) = Ok bs ∧ bs = [mkButton "approveMint" "c"; mkButton "rejectMint" "c"] ∧
    goes_on (TrusteeMintController.serve (RT := demo_runtime) (PC := ref_client) demo_env
      (TrusteeMintController.approve "c" "checker" "ok")) demo_queued.
Proof.
  assert ((run (Operations.queues (PC := ref_client)) demo_queued).1 = Ok demo_queue_answer) as H by (vm_compute; reflexivity). split; [exact H|].
  assert (queue_buttons (json_roundtrip_value demo_queue_answer) = Ok [mkButton "approveMint" "c"; mkButton "rejectMint" "c"]) as E
    by (vm_compute; reflexivity).
  destruct (@queues_offer_next_step demo_runtime ref_client demo_env None demo_world demo_queued demo_queue_answer
    (run (Operations.queues (PC := ref_client)) demo_queued).2 good_demo demo_queued_reached) as (bs & Hb & Hrows & Hask & _).
  { rewrite <- H. by destruct (run (Operations.queues (PC := ref_client)) demo_queued). }
  exists bs. split; [exact Hb|]. rewrite E in Hb. injection Hb as <-. split; [reflexivity|].
  destruct (Hrows (mkButton "approveMint" "c")) as (st & acts & Hq & Ha); [left|].
  eapply (Hask "c" st acts "approveMint" _ _ _ Hq Ha (asks_approveMint demo_env demo_queued "c" "checker" "ok")); [left|].
  intros k a Hk _.
  assert (map_Forall (λ _ a, Approval.makerId a ≠ "checker") (tbl demo_queued TApproval)) as Hall
    by (apply (bool_decide_unpack _); vm_compute; exact I).
  exact (Hall k a Hk).
Defined.
