(* ===== verification/Receiver.v ===== *)
(** The other end of the webhooks: the worker's key, the check of artifacts that the
    developer hub shows ([packages/portal-ui/src/developer-hub.html.ts]), and the
    receiver that [docs/paychain-integration/webhook-receiver-example.md] offers for
    pasting, against what the platform publishes, delivers and serves. *)
From S2P Require Import Prelude.
From S2P Require Import Text.
From S2P Require Import Prog.
From S2P Require Import Crypto.
From S2P Require Import Json.
From S2P Require Import Credentials.
From S2P Require Import Schema.
From S2P Require Import Prisma.
From S2P Require Import Infra.
From S2P Require Import Boot.
From S2P Require Import Worker.
From S2P Require Import JsValue.
From S2P Require Import Demo.
From S2P Require Import Delivery.
From S2P Require Registry.
From S2P Require EndToEnd.
#[local] Open Scope string_scope.
#[local] Open Scope list_scope.
#[local] Open Scope Z_scope.

(** * Definitions *)

(** ** The worker's key *)

Section worker_key.
Context `{NA : !NodeAuth} (penv : string → option string).

(** Every failure is [null]: the worker then runs without a key. *)
Definition loadWebhookKey : option SigningKey :=
  match truthy (penv "TRUSTEE_SIGNING_KEYS") with
  | None => None
  | Some raw =>
      match parse_keys raw with
      | None => None
      | Some parsed => match entry_of parsed WEBHOOK with Ok (Some k) => Some (key_of WEBHOOK k) | _ => None end
      end
  end.
End worker_key.

Section receivers.
Context `{RT : !Runtime}.
(** [createPublicKey], which throws on a text that is no key. *)
Context (createPublicKey : string → outcome unit).

(** What a client reads of a body: [JSON.parse]. *)
Definition read_body (v : jsval) : option jsval := json_parse (stringify v).

(** [l.find(...)] of what should be an array *)
Definition js_array (v : jsval) : outcome (list jsval) :=
  match v with
  | JArr l => Ok l
  | _ => Err (JsError "TypeError" "find is not a function")
  end.

(** [Buffer.from(v)] of what should be a text *)
Definition js_buffer (v : jsval) : outcome string :=
  match v with
  | JStr s => Ok s
  | _ => Err (JsError "TypeError" "The first argument must be of type string or an instance of Buffer")
  end.

(** ** The developer hub: Verify an artifact (Node) *)

Definition hub_verify (jwks body : jsval) : outcome bool :=
  keys ← js_prop "keys" jwks;
  keys ← js_array keys;
  key ← js_find (λ k,
          id ← js_prop "keyId" k; s ← js_prop "signature" body; id' ← js_prop "keyId" s;
          Ok (EndToEnd.same_value id id')) keys;
  pem ← js_prop "publicKeyPem" (default JUndefined key);
  pem ← js_buffer pem;
  _ ← createPublicKey pem;
  artifact ← js_prop "artifact" body;
  artifact ← js_buffer artifact;
  s ← js_prop "signature" body;
  v ← js_prop "value" s;
  v ← js_buffer v;
  Ok (ed_verify pem artifact v).

(** The header signature the hub's table describes: the webhook key over
    [timestamp.rawBody]. *)
Definition hub_accepts (pem : string) (headers : list (string * string)) (rawBody : string) : bool :=
  match list_find (λ h : string * string, h.1 = "x-timestamp") headers, list_find (λ h : string * string, h.1 = "x-signature") headers with
  | Some (_, ts), Some (_, sig) => ed_verify pem (ts.2 +:+ "." +:+ rawBody) sig.2
  | _, _ => false
  end.

(** ** The receiver for pasting *)

(** [getWebhookKey] of the keys it fetched *)
Definition getWebhookKey (jwks : jsval) : outcome string :=
  keys ← js_prop "keys" jwks;
  keys ← js_array keys;
  k ← js_find (λ x, p ← js_prop "purpose" x; Ok (EndToEnd.same_value p (JStr "WEBHOOK"))) keys;
  match k with
  | None => Err (JsError "Error" "WEBHOOK key not found")
  | Some k => pem ← js_prop "publicKeyPem" k; pem ← js_buffer pem; createPublicKey pem;; Ok pem
  end.

(** The handler: the status it answers with, and the ids it has seen. *)
Definition checked_event (jwks : jsval) (now : Z) (seen : list jsval) (env : jsval) : outcome (Z * list jsval) :=
  let subject := JObj [("eventType", js_get "eventType" env); ("targetPlatform", js_get "targetPlatform" env);
                       ("payload", js_get "payload" env)] in
  pem ← getWebhookKey jwks;
  signature ← js_buffer (js_get "signature" env);
  if negb (ed_verify pem (canonicalize subject) signature) then Ok (401, seen)
  else
    let bodyHash := sha256Hex (canonicalize (js_get "payload" env)) in
    if js_truthy (js_get "bodyHash" env) && negb (EndToEnd.same_value (js_get "bodyHash" env) (JStr bodyHash)) then Ok (400, seen)
    else if match js_get "timestamp" env with
            | JStr t => negb (bool_decide (t = "")) &&
                        match date_parse t with Some z => 10 * 60000 <? Z.abs (now - z) | None => false end
            | _ => false
            end then Ok (400, seen)
    else if existsb (EndToEnd.same_value (js_get "eventId" env)) seen then Ok (200, seen)
    else Ok (200, js_get "eventId" env :: seen).

Definition respond (jwks : jsval) (now : Z) (seen : list jsval) (env : jsval) : Z * list jsval :=
  match checked_event jwks now seen env with Ok r => r | Err _ => (500, seen) end.
End receivers.

(** * Lemmas *)

(** A JSON value that a body or a column keeps as it is. *)
Definition is_json (v : jsval) : Prop := no_big v = true ∧ plain_names v = true ∧ json_roundtrip_value v = v.

Lemma js_get_fresh k l : k ∉ l.*1 → js_get k (JObj l) = JUndefined.
Proof.
  induction l as [|[k' v] l IH]; [done|]. cbn [fmap list_fmap fst]. intros [Hk Hl]%not_elem_of_cons. cbn.
  rewrite decide_False by done. specialize (IH Hl). cbn in IH. destruct (list_find _ l) as [[? ?]|]; exact IH.
Qed.

Lemma js_get_cons k k' v l : js_get k (JObj ((k', v) :: l)) = if decide (k' = k) then v else js_get k (JObj l).
Proof. cbn. destruct (decide (k' = k)); [done|]. by destruct (list_find _ l) as [[? ?]|]. Qed.

(** Reading a property of what was written and read back. *)
Lemma js_get_roundtrip k l :
  NoDup l.*1 → js_get k (json_roundtrip_value (JObj l)) = json_roundtrip_value (js_get k (JObj l)).
Proof.
  induction l as [|[k' v] l IH]; [done|]. cbn [fmap list_fmap fst]. intros [Hk Hl]%NoDup_cons. specialize (IH Hl).
  rewrite js_get_cons. cbn [json_roundtrip_value map omap list_omap fst snd] in *.
  destruct (decide (k' = k)) as [->|Hne].
  - destruct (json_roundtrip_value v) eqn:Ev; [|rewrite js_get_cons, decide_True; done..].
    rewrite IH. by rewrite (js_get_fresh _ _ Hk).
  - destruct (json_roundtrip_value v); [exact IH|rewrite js_get_cons, decide_False by done; exact IH..].
Qed.

Section events.
Context `{RT : !Runtime}.

Lemma read_body_json l : no_big (JObj l) = true → plain_names (JObj l) = true → read_body (JObj l) = Some (json_roundtrip_value (JObj l)).
Proof. intros Hb Hp. unfold read_body, stringify. by eapply json_parse_stringify. Qed.

(** What the platform publishes as its keys, read by a client. *)
Definition published (sv : SigningService) : jsval := JObj [("keys", JArr (Registry.allPublicKeys sv))].

Lemma published_read sv : read_body (published sv) = Some (published sv).
Proof.
  unfold published. set (l := Registry.allPublicKeys sv).
  assert (Forall (λ v, is_json v ∧ v ≠ JUndefined) l) as Hl.
  { apply Forall_app. split; apply Forall_fmap; apply Forall_true; by intros [p k]. }
  assert (forallb no_big l = true ∧ forallb plain_names l = true ∧
    map (λ x, match json_roundtrip_value x with JUndefined => JNull | y => y end) l = l) as (H1 & H2 & H3).
  { clearbody l. induction Hl as [|v l [(Hb & Hp & Hr) Hn] _ (IH1 & IH2 & IH3)]; [done|]. cbn. rewrite Hb, Hp, IH1, IH2, IH3, Hr.
    split_and!; [done..|]. f_equal. by destruct v. }
  rewrite read_body_json; [cbn; by rewrite H3|cbn; by rewrite H1|cbn; rewrite H2; done].
Qed.

Definition payload_of (e : OutboxEvent.t) : jsval := match OutboxEvent.payload e with JNull => JObj [] | p => p end.

(** The body of a delivery, property by property. *)
Definition envelope_body (now : Z) (cid : string) (e : OutboxEvent.t) : list (string * jsval) :=
  let P := payload_of e in
  let id := OutboxEvent.id e in
  [("eventId", JStr id); ("eventType", JStr (OutboxEvent.eventType e));
   ("eventSequence", JStr (big_to_string (OutboxEvent.sequence e))); ("targetPlatform", JStr (OutboxEvent.targetPlatform e));
   ("timestamp", JStr (toISOString now)); ("clientId", JStr cid);
   ("programId", match js_string (js_get "programId" P) with Some s => JStr s | None => JUndefined end);
   ("correlationId", JStr (default ("corr_" +:+ id) (js_string (js_get "correlationId" P))));
   ("requestId", JStr ("req_" +:+ id)); ("nonce", JStr (id +:+ "-" +:+ big_to_string (OutboxEvent.sequence e)));
   ("apiVersion", JStr "v1"); ("payload", P); ("id", JStr id); ("type", JStr (OutboxEvent.eventType e));
   ("bodyHash", JStr (sha256Hex (canonicalize P))); ("signingKeyId", JStr (OutboxEvent.signatureKeyId e));
   ("signature", match truthy (OutboxEvent.artifact e) with
                 | Some _ => JObj [("keyId", JStr (OutboxEvent.signatureKeyId e)); ("alg", JStr "ed25519");
                                   ("value", JStr (OutboxEvent.signatureValue e))]
                 | None => JStr (OutboxEvent.signatureValue e)
                 end);
   ("occurredAt", JStr (toISOString (OutboxEvent.createdAt e)))] ++
  match truthy (OutboxEvent.artifact e) with Some a => [("artifact", JStr a)] | None => [] end.

Lemma envelope_is_body now cid e : event_envelope now cid e = JObj (envelope_body now cid e).
Proof. unfold event_envelope, envelope_body. destruct (truthy _); reflexivity. Qed.

Lemma envelope_body_keys now cid e : NoDup (envelope_body now cid e).*1.
Proof. unfold envelope_body. destruct (truthy _); refine (bool_decide_unpack _ _); vm_compute; exact I. Qed.

(** The posted body, read by a receiver: its properties, the payload as it is stored. *)
Lemma delivered_body wk now cid e :
  is_json (payload_of e) →
  let envelope := sign_envelope wk now (event_envelope now cid e) in
  wireBody envelope = event_envelope now cid e ∧
  js_get "timestampMs" envelope = JStr (big_to_string now) ∧
  js_get "requestSignature" envelope = js_undef (stripeSignature wk (big_to_string now) (stringify (event_envelope now cid e))) ∧
  ∃ body, read_body (wireBody envelope) = Some (JObj body) ∧
    ∀ k, js_get k (JObj body) = json_roundtrip_value (js_get k (JObj (envelope_body now cid e))).
Proof.
  intros (Hb & Hp & Hr). rewrite !envelope_is_body. cbv zeta. set (l := envelope_body now cid e).
  assert ("timestampMs" ∉ l.*1 ∧ "requestSignature" ∉ l.*1) as [H1 H2].
  { unfold l, envelope_body. destruct (truthy _); split; refine (bool_decide_unpack _ _); vm_compute; exact I. }
  rewrite sign_envelope_app, wireBody_app by done. rewrite !js_get_app by done. do 3 (split; [reflexivity|]).
  assert (no_big (JObj l) = true ∧ plain_names (JObj l) = true) as [Hbl Hpl].
  { unfold l, envelope_body. cbn [no_big plain_names]. split.
    - destruct (truthy _), (js_string _); cbn [forallb app fst snd no_big]; by rewrite Hb.
    - rewrite bool_decide_eq_true_2 by exact (envelope_body_keys now cid e).
      destruct (truthy _), (js_string _); cbn [forallb app fst snd plain_names]; rewrite Hp; vm_compute; reflexivity. }
  rewrite (read_body_json l Hbl Hpl). eexists. split; [reflexivity|]. intros k.
  exact (js_get_roundtrip k l (envelope_body_keys now cid e)).
Qed.

(** The header check of the hub, of an envelope with both header fields. *)
Lemma hub_accepts_signed e ts sig pem body :
  js_get "timestampMs" e = JStr ts → js_get "requestSignature" e = JStr sig → ts ≠ "" → sig ≠ "" →
  hub_accepts pem (envelopeHeaders e) body = ed_verify pem (ts +:+ "." +:+ body) sig.
Proof.
  intros Ht Hs Nt Ns. unfold hub_accepts, envelopeHeaders. rewrite Ht, Hs. cbv zeta. cbn [js_string truthy].
  rewrite !bool_decide_false by done. reflexivity.
Qed.

Lemma js_get_prop k l : js_prop k (JObj l) = Ok (js_get k (JObj l)).
Proof. done. Qed.

(** The first published key of a purpose or with an id. *)
Definition published_first (P : SigningKey → Prop) `{!∀ k, Decision (P k)} (sv : SigningService) : option SigningKey :=
  (λ x, x.2) <$> (list_find P (map snd (keys sv ++ previousKeys sv))).

Lemma js_find_keys (P : SigningKey → Prop) `{!∀ k, Decision (P k)} f st l rest :
  (∀ st' e, f (Registry.js_key st' e) = Ok (bool_decide (P e.2))) →
  js_find f (map (Registry.js_key st) l ++ rest) =
    match list_find P (map snd l) with
    | Some (_, k) => Ok (Some (JObj [("purpose", JStr (Registry.SigningPurpose_to_string (sk_purpose k))); ("keyId", JStr (sk_keyId k));
                                     ("publicKeyPem", JStr (publicKeyPem k)); ("status", JStr st)]))
    | None => js_find f rest
    end.
Proof.
  intros Hf. induction l as [|e l IH]; [done|]. cbn [map app js_find list_find]. rewrite Hf. cbn [mbind outcome_bind].
  destruct (decide (P e.2)) as [?|?]; [by rewrite bool_decide_eq_true_2|]. rewrite bool_decide_eq_false_2, IH by done.
  by destruct (list_find P (map snd l)) as [[? ?]|].
Qed.

Lemma js_find_published (P : SigningKey → Prop) `{!∀ k, Decision (P k)} f sv k :
  (∀ st e, f (Registry.js_key st e) = Ok (bool_decide (P e.2))) → published_first P sv = Some k →
  ∃ x, js_find f (Registry.allPublicKeys sv) = Ok (Some x) ∧ js_prop "publicKeyPem" x = Ok (JStr (publicKeyPem k)).
Proof.
  intros Hf Hk. unfold Registry.allPublicKeys. rewrite (js_find_keys P f _ _ _ Hf).
  rewrite <- (app_nil_r (map (Registry.js_key "superseded") (previousKeys sv))), (js_find_keys P f _ _ _ Hf).
  unfold published_first in Hk. rewrite map_app in Hk.
  destruct (list_find P (map snd (keys sv))) as [[i k1]|] eqn:E1.
  - apply (list_find_app_l P _ (map snd (previousKeys sv))) in E1. rewrite E1 in Hk. injection Hk as ->. by eexists.
  - apply (list_find_app_r P _ (map snd (previousKeys sv))) in E1. rewrite E1 in Hk.
    destruct (list_find P (map snd (previousKeys sv))) as [[i k1]|]; [|discriminate Hk]. injection Hk as ->. by eexists.
Qed.
End events.

(** * The worker signs with the key the platform publishes *)

(** Where the secret is set, the worker's key is the platform's active one. *)
Lemma worker_key_active `{RT : !Runtime} penv gen sv raw :
  load_keys penv gen = Ok sv → truthy (penv "TRUSTEE_SIGNING_KEYS") = Some raw →
  ∃ k, loadWebhookKey penv = Some k ∧ key sv WEBHOOK = Ok k.
Proof.
  intros (_ & f & Hf & Hraw)%load_keys_ok Hr. rewrite Hr in Hraw. destruct Hraw as (parsed & Hp & -> & Hk).
  destruct (Hk WEBHOOK) as [k Hw]. exists (key_of WEBHOOK k). unfold loadWebhookKey. rewrite Hr, Hp, Hw. split; [done|].
  rewrite (proj1 (Hf WEBHOOK)). unfold parsed_key. by rewrite Hw.
Qed.

(** Where it is not set, the worker has none, whatever the platform generated. *)
Lemma worker_without_key `{RT : !Runtime} penv : truthy (penv "TRUSTEE_SIGNING_KEYS") = None → loadWebhookKey penv = None.
Proof. intros Hr. unfold loadWebhookKey. by rewrite Hr. Qed.

Section verified.
Context `{RT : !Runtime} `{PC : !PrismaClient} (createPublicKey : string → outcome unit) (env : Env).

(** The row of an artifact that is published. *)
Lemma published_artifact ev payload artifact p w id w' :
  run (publishWithArtifact env ev payload artifact p) w = (Ok id, w') →
  ∃ k e, key (signing env) p = Ok k ∧ tbl w' TOutboxEvent !! id = Some e ∧ OutboxEvent.id e = id ∧
    OutboxEvent.payload e = json_roundtrip_value payload ∧ OutboxEvent.artifact e = Some (canonicalize artifact) ∧
    OutboxEvent.signatureKeyId e = sk_keyId k ∧ OutboxEvent.signatureValue e = ed_sign (privateKeyPem k) (canonicalize artifact).
Proof.
  unfold publishWithArtifact. cbv zeta. rewrite run_bind, run_lift.
  destruct (sign _ _ _) as [sg|x] eqn:Es; [|done]. unfold sign in Es.
  destruct (key (signing env) p) as [k|x]; [|done]. apply signPayload_ok in Es as [_ ->].
  rewrite run_bind. unfold create_seq. rewrite run_action.
  destruct (write_row _ _ _ _) as [[r|x] w1] eqn:E; [|done]. intros [= <- <-].
  apply write_row_ok in E as (-> & -> & _). exists k. eexists. split; [done|]. split; [rewrite tbl_put_same; apply lookup_insert_eq|]. done.
Qed.

Lemma published_plain ev payload target w id w' :
  run (publish_named env ev payload target) w = (Ok id, w') →
  ∃ k e, key (signing env) WEBHOOK = Ok k ∧ tbl w' TOutboxEvent !! id = Some e ∧ OutboxEvent.id e = id ∧
    OutboxEvent.payload e = json_roundtrip_value payload ∧ OutboxEvent.artifact e = None ∧
    OutboxEvent.eventType e = ev ∧ OutboxEvent.targetPlatform e = target ∧
    OutboxEvent.signatureValue e = ed_sign (privateKeyPem k)
      (canonicalize (JObj [("eventType", JStr ev); ("targetPlatform", JStr target); ("payload", payload)])).
Proof.
  unfold publish_named. rewrite run_bind, run_lift.
  destruct (sign _ _ _) as [sg|x] eqn:Es; [|done]. unfold sign in Es.
  destruct (key (signing env) WEBHOOK) as [k|x]; [|done]. apply signPayload_ok in Es as [_ ->].
  rewrite run_bind. unfold create_seq. rewrite run_action.
  destruct (write_row _ _ _ _) as [[r|x] w1] eqn:E; [|done]. intros [= <- <-].
  apply write_row_ok in E as (-> & -> & _). exists k. eexists. split; [done|]. split; [rewrite tbl_put_same; apply lookup_insert_eq|]. done.
Qed.

(** The search for a published key, which finds [k]. *)
Ltac find_published P :=
  lazymatch goal with
  | Hk : published_first _ ?sv = Some ?k |- context [js_find ?f (Registry.allPublicKeys ?sv)] =>
      destruct (js_find_published P f sv k) as (x & Hx & Hpem); [|exact Hk|]
  end.

(** The check of the developer hub, of a body with an artifact and its signature. *)
Lemma hub_verify_signed sv body artifact id value k :
  published_first (λ k, sk_keyId k = id) sv = Some k → createPublicKey (publicKeyPem k) = Ok tt →
  js_get "signature" (JObj body) = JObj [("keyId", JStr id); ("alg", JStr "ed25519"); ("value", JStr value)] →
  js_get "artifact" (JObj body) = JStr artifact →
  hub_verify createPublicKey (published sv) (JObj body) = Ok (ed_verify (publicKeyPem k) artifact value).
Proof.
  intros Hk Hc Hs Ha. unfold hub_verify. rewrite !js_get_prop, Hs, Ha.
  change (js_prop "keys" (published sv)) with (Ok (A := jsval) (JArr (Registry.allPublicKeys sv))). cbn [mbind outcome_bind js_array].
  find_published (λ k, sk_keyId k = id).
  - done.
  - rewrite Hx. cbn [mbind outcome_bind]. change (default JUndefined (Some x)) with x. rewrite Hpem. cbn [mbind outcome_bind js_buffer]. rewrite Hc. reflexivity.
Qed.

Lemma getWebhookKey_published sv k :
  published_first (λ k, sk_purpose k = WEBHOOK) sv = Some k → createPublicKey (publicKeyPem k) = Ok tt →
  getWebhookKey createPublicKey (published sv) = Ok (publicKeyPem k).
Proof.
  intros Hk Hc. unfold getWebhookKey, published. rewrite js_get_prop. cbn [mbind outcome_bind js_array].
  change (js_get "keys" (JObj [("keys", ?l)])) with l. cbn [mbind outcome_bind js_array].
  find_published (λ k, sk_purpose k = WEBHOOK).
  - intros st [q k']. cbn. f_equal. destruct (sk_purpose k'); vm_compute; reflexivity.
  - rewrite Hx. cbn [mbind outcome_bind]. rewrite Hpem. cbn [mbind outcome_bind js_buffer]. rewrite Hc. reflexivity.
Qed.
End verified.

(** * What receivers see *)

Section partners.
Context `{RT : !Runtime} `{PC : !PrismaClient} (createPublicKey : string → outcome unit) (env : Env).
Context (penv : string → option string) (gen : SigningPurpose → string * string) (raw : string).

(** The platform and the worker run with the same secret, whose keys are key pairs. *)
Definition shared_secret : Prop :=
  load_keys penv gen = Ok (signing env) ∧ truthy (penv "TRUSTEE_SIGNING_KEYS") = Some raw ∧
  ∀ p k, key (signing env) p = Ok k →
    key_pair (privateKeyPem k) (publicKeyPem k) ∧ createPublicKey (publicKeyPem k) = Ok tt ∧ ∀ m, ed_sign (privateKeyPem k) m ≠ "".

(** The served keys find, for [k], a key with its public part. *)
Definition serves (P : SigningKey → Prop) `{!∀ k, Decision (P k)} (sv : SigningService) (k : SigningKey) : Prop :=
  ∃ k', published_first P sv = Some k' ∧ publicKeyPem k' = publicKeyPem k.

(** Claim C30 (partners can verify what they are sent).  With one secret for the platform
    and its worker, an event published with an artifact, whenever it is delivered: the
    body carries the artifact as the exact text that was signed; the check the developer
    hub shows accepts it against the served keys, also after rotations, as long as the
    first served key with its id is the one that signed; and the signature header is,
    under the platform's active webhook key, over the timestamp header, a dot and the
    posted body. *)
Theorem artifacts_verify ev payload l artifact p w id w' now cid sv
    (Hsecret : shared_secret) (Hpayload : is_json (JObj payload)) (Ha : artifact = JObj l)
    (Hrun : run (publishWithArtifact env ev (JObj payload) artifact p) w = (Ok id, w'))
    (Hserves : ∀ k, key (signing env) p = Ok k → serves (λ k', sk_keyId k' = sk_keyId k) sv k) :
  ∃ e webhook body, tbl w' TOutboxEvent !! id = Some e ∧ key (signing env) WEBHOOK = Ok webhook ∧
    let envelope := sign_envelope (loadWebhookKey penv) now (event_envelope now cid e) in
    read_body (wireBody envelope) = Some body ∧ read_body (published sv) = Some (published sv) ∧
    js_get "artifact" body = JStr (canonicalize artifact) ∧
    hub_verify createPublicKey (published sv) body = Ok true ∧
    hub_accepts (publicKeyPem webhook) (envelopeHeaders envelope) (stringify (wireBody envelope)) = true.
Proof.
  destruct Hsecret as (Hload & Hraw & Hpairs).
  destruct (published_artifact env _ _ _ _ _ _ _ Hrun) as (k & e & Hk & He & _ & Hp & Hart & Hid & Hval).
  destruct (worker_key_active _ _ _ _ Hload Hraw) as (kw & Hwk & Hkw). destruct (Hpairs _ _ Hkw) as (Hpw & _ & Hnw).
  destruct (Hserves k Hk) as (k' & Hfirst & Hpem). destruct (Hpairs _ _ Hk) as (Hpk & Hck & _).
  assert (payload_of e = JObj payload) as HP by (unfold payload_of; by rewrite Hp, (proj2 (proj2 Hpayload))).
  assert (truthy (Some (canonicalize artifact)) = Some (canonicalize artifact)) as Ht by (subst artifact; reflexivity).
  destruct (delivered_body (loadWebhookKey penv) now cid e) as (Hwire & Hts & Hsig & body & Hread & Hget); [by rewrite HP|].
  exists e, kw, (JObj body). cbv zeta. rewrite Hwire in Hread |- *. split_and!; try done.
  - apply published_read.
  - rewrite Hget. unfold envelope_body. by rewrite Hart, Ht.
  - rewrite (hub_verify_signed createPublicKey sv body (canonicalize artifact) (sk_keyId k) (OutboxEvent.signatureValue e) k' Hfirst).
    + by rewrite Hpem, Hval, ed_verify_sign.
    + by rewrite Hpem.
    + rewrite Hget. unfold envelope_body. by rewrite Hart, Ht, Hid.
    + rewrite Hget. unfold envelope_body. by rewrite Hart, Ht.
  - rewrite Hwk in Hsig, Hts |- *. rewrite (hub_accepts_signed _ _ _ _ _ Hts Hsig); [by apply ed_verify_sign|apply big_to_string_nonempty|apply Hnw].
Qed.

Lemma not_stale now clock :
  (∀ t, date_parse (toISOString now) = Some t → Z.abs (clock - t) ≤ 600000) →
  match date_parse (toISOString now) with Some z => 10 * 60000 <? Z.abs (clock - z) | None => false end = false.
Proof. intros H. destruct (date_parse _) as [t|]; [|done]. specialize (H t eq_refl). by apply Z.ltb_ge. Qed.

Lemma unseen id seen : JStr id ∉ seen → existsb (EndToEnd.same_value (JStr id)) seen = false.
Proof.
  intros H. apply not_true_is_false. intros (x & Hx & Hs)%existsb_exists. apply H.
  destruct x; try discriminate Hs. apply bool_decide_eq_true in Hs as ->. by apply list_elem_of_In.
Qed.

(** The receiver offered for pasting.  With the active webhook key as the first
    served one, the receiver accepts, once, every fresh event that is published without an
    artifact; to an event with an artifact, mint authorizations and reserve snapshots, it
    answers 500 whatever keys it has, so that the worker repeats it to its last attempt. *)
Theorem pasted_receiver ev payload target e' artifact l p w id w' w2 id2 w2' now cid sv clock seen
    (Hsecret : shared_secret) (Hpayload : is_json (JObj payload)) (Ha : artifact = JObj l)
    (Hplain : run (publish_named env ev (JObj payload) target) w = (Ok id, w'))
    (Hartifact : run (publishWithArtifact env e' (JObj payload) artifact p) w2 = (Ok id2, w2'))
    (Hserves : ∀ k, key (signing env) WEBHOOK = Ok k → serves (λ k', sk_purpose k' = WEBHOOK) sv k)
    (Hfresh : ∀ t, date_parse (toISOString now) = Some t → Z.abs (clock - t) ≤ 600000) (Hseen : JStr id ∉ seen) :
  (∃ e body, tbl w' TOutboxEvent !! id = Some e ∧
     read_body (wireBody (sign_envelope (loadWebhookKey penv) now (event_envelope now cid e))) = Some body ∧
     respond createPublicKey (published sv) clock seen body = (200, JStr id :: seen) ∧
     respond createPublicKey (published sv) clock (JStr id :: seen) body = (200, JStr id :: seen)) ∧
  (∃ e body, tbl w2' TOutboxEvent !! id2 = Some e ∧
     read_body (wireBody (sign_envelope (loadWebhookKey penv) now (event_envelope now cid e))) = Some body ∧
     ∀ jwks, respond createPublicKey jwks clock seen body = (500, seen)).
Proof.
  destruct Hsecret as (_ & _ & Hpairs). split.
  - destruct (published_plain env _ _ _ _ _ _ Hplain) as (k & e & Hk & He & Hid & Hp & Hart & Hev & Htgt & Hval).
    assert (payload_of e = JObj payload) as HP by (unfold payload_of; by rewrite Hp, (proj2 (proj2 Hpayload))).
    destruct (delivered_body (loadWebhookKey penv) now cid e) as (_ & _ & _ & body & Hread & Hget); [by rewrite HP|].
    destruct (Hserves k Hk) as (k' & Hfirst & Hpem). destruct (Hpairs _ _ Hk) as (Hpk & Hck & _).
    exists e, (JObj body). do 2 (split; [done|]).
    assert (js_get "payload" (JObj body) = JObj payload) as Epay by (rewrite Hget; change (json_roundtrip_value (payload_of e) = JObj payload); rewrite HP; apply Hpayload).
    assert (js_get "signature" (JObj body) = JStr (OutboxEvent.signatureValue e)) as Esig by (rewrite Hget; unfold envelope_body; by rewrite Hart).
    assert (js_get "bodyHash" (JObj body) = JStr (sha256Hex (canonicalize (JObj payload)))) as Ehash by (rewrite Hget, <- HP; done).
    assert (js_get "eventType" (JObj body) = JStr ev ∧ js_get "targetPlatform" (JObj body) = JStr target ∧
      js_get "timestamp" (JObj body) = JStr (toISOString now) ∧ js_get "eventId" (JObj body) = JStr id) as (Eev & Etgt & Ets & Eid)
      by (rewrite !Hget, <- Hev, <- Htgt, <- Hid; done).
    assert (∀ seen, checked_event createPublicKey (published sv) clock seen (JObj body) =
      Ok (200, if existsb (EndToEnd.same_value (JStr id)) seen then seen else JStr id :: seen)) as Hc.
    { intros seen'. unfold checked_event. rewrite (getWebhookKey_published createPublicKey sv k' Hfirst) by by rewrite Hpem.
      rewrite Epay, Esig, Ehash, Eev, Etgt, Ets, Eid, Hpem, Hval. cbn [mbind outcome_bind js_buffer].
      rewrite ed_verify_sign by done. cbn [negb EndToEnd.same_value]. rewrite (bool_decide_eq_true_2 (_ = _)) by done.
      rewrite andb_false_r. rewrite (not_stale _ _ Hfresh), andb_false_r. by destruct (existsb _ seen'). }
    unfold respond. rewrite !Hc. cbn [existsb EndToEnd.same_value]. rewrite bool_decide_eq_true_2 by done. cbn [orb].
    split; [|done]. by rewrite (unseen _ _ Hseen).
  - destruct (published_artifact env _ _ _ _ _ _ _ Hartifact) as (k & e & _ & He & _ & Hp & Hart & _).
    assert (payload_of e = JObj payload) as HP by (unfold payload_of; by rewrite Hp, (proj2 (proj2 Hpayload))).
    destruct (delivered_body (loadWebhookKey penv) now cid e) as (_ & _ & _ & body & Hread & Hget); [by rewrite HP|].
    exists e, (JObj body). do 2 (split; [done|]). intros jwks. unfold respond, checked_event.
    assert (js_buffer (js_get "signature" (JObj body)) = Err (JsError "TypeError" "The first argument must be of type string or an instance of Buffer")) as Es
      by (rewrite Hget; unfold envelope_body; rewrite Hart; subst artifact; done).
    destruct (getWebhookKey createPublicKey jwks); [|done]. cbn [mbind outcome_bind]. by rewrite Es.
Qed.
End partners.

(** * Witnesses *)

Definition partner_keys : SigningService :=
  match @load_keys toy_crypto toy_auth toy_penv toy_generated with Ok sv => sv | Err _ => toy_service end.

Definition partner_env : Env :=
  mkEnv partner_keys toy_penv 900 300 900 None 900 8 25 "secret" 3600 true 3600 "https://trustee" 300 [] 3600000 300000 3600.

Definition any_pem (pem : string) : outcome unit := Ok tt.

Lemma partner_keys_are : partner_keys = mkSigningService (map (λ p, (p, toy_key p "k1")) all_purposes) [].
Proof. vm_compute. reflexivity. Qed.

Lemma partner_key p k : key (signing partner_env) p = Ok k → k = toy_key p "k1".
Proof. change (signing partner_env) with partner_keys. rewrite partner_keys_are. destruct p; by intros [= <-]. Qed.

Lemma partner_secret : @shared_secret demo_runtime any_pem partner_env toy_penv toy_generated (toy_secret "k1").
Proof.
  split; [|split; [vm_compute; reflexivity|by intros p k ->%partner_key]].
  change (signing partner_env) with partner_keys. rewrite partner_keys_are. vm_compute. reflexivity.
Qed.

Lemma partner_serves_id p k : key (signing partner_env) p = Ok k → serves (λ k', sk_keyId k' = sk_keyId k) partner_keys k.
Proof. intros ->%partner_key. exists (toy_key API_AUTH "k1"). split; [rewrite partner_keys_are; vm_compute|]; reflexivity. Qed.

Lemma partner_serves_webhook k : key (signing partner_env) WEBHOOK = Ok k → serves (λ k', sk_purpose k' = WEBHOOK) partner_keys k.
Proof. intros ->%partner_key. exists (toy_key WEBHOOK "k1"). split; [rewrite partner_keys_are; vm_compute|]; reflexivity. Qed.

Definition demo_artifact : jsval := JObj [("reference", JStr "mr-1"); ("amount", JStr "100")].
Definition demo_payload : list (string * jsval) := [("authorizationId", JStr "a1")].
Lemma demo_payload_json : is_json (JObj demo_payload). Proof. by split_and!. Qed.

Definition demo_approved : prog World string :=
  @publishWithArtifact demo_runtime ref_client partner_env MINT_AUTHORIZATION_APPROVED (JObj demo_payload) demo_artifact MINT_AUTHORIZATION.
Definition demo_confirmed : prog World string :=
  @publish_named demo_runtime ref_client partner_env "mint.confirmed" (JObj demo_payload) "PAYCHAIN".

(** What the worker posts of an event at time 7. *)
Definition demo_post (e : OutboxEvent.t) : option jsval :=
  @read_body demo_runtime (wireBody (@sign_envelope demo_runtime (@loadWebhookKey toy_auth toy_penv) 7 (@event_envelope demo_runtime 7 "client" e))).

Lemma artifacts_verify_witness :
  ∃ id e body, (run demo_approved empty_world).1 = Ok id ∧
    tbl (run demo_approved empty_world).2 TOutboxEvent !! id = Some e ∧ demo_post e = Some body ∧
    @hub_verify demo_runtime any_pem (published partner_keys) body = Ok true.
Proof.
  destruct (run_is_ok demo_approved empty_world) as [id Hid]; [vm_compute; reflexivity|].
  destruct (@artifacts_verify demo_runtime ref_client any_pem partner_env toy_penv toy_generated (toy_secret "k1")
    MINT_AUTHORIZATION_APPROVED demo_payload [("reference", JStr "mr-1"); ("amount", JStr "100")] demo_artifact
    MINT_AUTHORIZATION empty_world id (run demo_approved empty_world).2 7 "client" partner_keys partner_secret demo_payload_json eq_refl Hid
    (partner_serves_id MINT_AUTHORIZATION)) as (e & kw & body & H1 & _ & H2 & _ & _ & H3 & _).
  exists id, e, body. split; [by rewrite Hid|]. split; [exact H1|]. split; [exact H2|exact H3].
Defined.

Lemma demo_time_unread : @date_parse demo_runtime (toISOString 7) = None.
Proof. vm_compute. reflexivity. Qed.

Lemma pasted_receiver_witness :
  ∃ e body e2 body2, demo_post e = Some body ∧ (@respond demo_runtime any_pem (published partner_keys) 0 [] body).1 = 200 ∧
    OutboxEvent.eventType e2 = "mint.authorization.approved" ∧
    demo_post e2 = Some body2 ∧ (@respond demo_runtime any_pem (published partner_keys) 0 [] body2).1 = 500.
Proof.
  destruct (run_is_ok demo_confirmed empty_world) as [id Hid]; [vm_compute; reflexivity|].
  destruct (run_is_ok demo_approved empty_world) as [id2 Hid2]; [vm_compute; reflexivity|].
  destruct (@pasted_receiver demo_runtime ref_client any_pem partner_env toy_penv toy_generated (toy_secret "k1")
    "mint.confirmed" demo_payload "PAYCHAIN" MINT_AUTHORIZATION_APPROVED demo_artifact _ MINT_AUTHORIZATION
    empty_world id (run demo_confirmed empty_world).2 empty_world id2 (run demo_approved empty_world).2 7 "client" partner_keys 0 []
    partner_secret demo_payload_json eq_refl Hid Hid2 partner_serves_webhook) as [(e & body & _ & H1 & H2 & _) (e2 & body2 & He2 & H3 & H4)].
  - intros t Ht. by rewrite demo_time_unread in Ht.
  - by apply not_elem_of_nil.
  - exists e, body, e2, body2. split; [exact H1|]. split; [by rewrite H2|]. split; [|split; [exact H3|by rewrite H4]].
    assert (id2 = match (run demo_approved empty_world).1 with Ok i => i | Err _ => "" end) as E by by rewrite Hid2.
    rewrite E in He2. vm_compute in He2. injection He2 as <-. reflexivity.
Defined.
