(* ===== verification/Portal.v ===== *)
(** The portals: the pages of [packages/portal-ui/src/index.ts] with the base URL they
    are rendered for, the server of [apps/trustee-admin-portal/src/main.ts], and the
    script of the developer hub ([developer-hub.html.ts]).  The HTML of the templates is
    an argument of what renders them. *)
From S2P Require Import Prelude.
From S2P Require Import Text.
From S2P Require Import Prog.
From S2P Require Import Crypto.
From S2P Require Import Json.
From S2P Require Import Credentials.
From S2P Require Import Infra.
From S2P Require Import Boot.
From S2P Require Import Worker.
From S2P Require Import JsValue.
From S2P Require Import Demo.
From S2P Require Import Receiver.
From S2P Require Import Controllers.
From S2P Require Import TrusteeControllers.
From S2P Require Registry.
#[local] Open Scope string_scope.
#[local] Open Scope list_scope.
#[local] Open Scope Z_scope.

(** * Rendering *)

(** What follows a prefix. *)
Fixpoint strip (p s : string) : option string :=
  match p, s with
  | EmptyString, _ => Some s
  | String a p', String b s' => if Ascii.eqb a b then strip p' s' else None
  | _, EmptyString => None
  end.

(** What stands before and after the first occurrence. *)
Fixpoint find_text (p s : string) : option (string * string) :=
  match strip p s with
  | Some rest => Some ("", rest)
  | None => match s with
            | EmptyString => None
            | String a s' => (λ ba, (String a ba.1, ba.2)) <$> find_text p s'
            end
  end.

(** What a replacement text stands for: [$$], [$&], [$`] and [$'] are expanded. *)
Fixpoint expand (before matched after r : string) : string :=
  match r with
  | EmptyString => ""
  | String "$" (String "$" r') => String "$" (expand before matched after r')
  | String "$" (String "&" r') => matched +:+ expand before matched after r'
  | String "$" (String "`" r') => before +:+ expand before matched after r'
  | String "$" (String "'" r') => after +:+ expand before matched after r'
  | String a r' => String a (expand before matched after r')
  end.

(** [s.replace(p, r)] of texts: the first occurrence. *)
Definition replace (p r s : string) : string :=
  match find_text p s with
  | Some (before, after) => before +:+ expand before p after r +:+ after
  | None => s
  end.

(** [s.split(p).join(r)], of a non-empty [p]; every piece but the last is followed by one [p]. *)
Fixpoint split_join (fuel : nat) (p r s : string) : string :=
  match fuel with
  | O => s
  | S fuel => match find_text p s with
              | Some (before, after) => before +:+ r +:+ split_join fuel p r after
              | None => s
              end
  end.

Section pages.
Context `{NA : !NodeAuth} (DEVELOPER_HUB_TEMPLATE LANDING_HTML ADMIN_CONSOLE_TEMPLATE : string).

Definition developerHubHtml (apiBase : string) : string :=
  split_join (String.length DEVELOPER_HUB_TEMPLATE) "{{API_BASE}}" apiBase DEVELOPER_HUB_TEMPLATE.
Definition landingHtml (adminUrl : string) : string :=
  replace ("href=" +:+ json_quote "/admin") ("href=" +:+ String "034" (adminUrl +:+ String "034" "")) LANDING_HTML.
Definition inject (apiBase : string) : string :=
  "<script>window.__API_BASE__=" +:+ stringify (JStr apiBase) +:+ ";</script>".
Definition adminConsoleHtml (apiBase : string) : string :=
  replace "</head>" (inject apiBase +:+ "</head>") ADMIN_CONSOLE_TEMPLATE.

(** ** The server of the admin portal *)

Inductive Page : Type := PortalHealth | PortalHtml (text : string).

Record Portal : Type := mkPortal { p_port : option QArith_base.Q; p_apiBase : string; p_routes : list (string * Page) }.

(** [??]: a variable that is set and empty stays empty. *)
Definition admin_portal (penv : string → option string) : Portal :=
  let apiBase := default "https://api.trustee.cambobia.com" (penv "TRUSTEE_API_URL") in
  let adminUrl := default "https://trustee.cambobia.com" (penv "TRUSTEE_PUBLIC_URL") in
  let console_ := adminConsoleHtml apiBase in
  let LANDING := landingHtml adminUrl in
  mkPortal (match penv "PORT" with Some s => to_number s | None => Some (QArith_base.inject_Z 4000) end) apiBase
    [("/health", PortalHealth); ("/", PortalHtml console_); ("/admin", PortalHtml console_); ("/status", PortalHtml LANDING)].
End pages.

(** * The script of the developer hub *)

(** [textContent = v] *)
Definition text_content (v : jsval) : string := match v with JUndefined | JNull => "" | _ => js_String v end.

Record Status : Type := mkStatus { st_dot : string; st_text : string }.

(** The answer to [/health], or the failure of asking or reading it. *)
Definition hub_status (r : outcome jsval) : Status :=
  match r with
  | Err _ => mkStatus "dot err" "Unreachable"
  | Ok d =>
      if js_truthy d && match js_get "status" d with JStr s => bool_decide (s = "ok") | _ => false end
      then mkStatus "dot ok" "Platform operational" else mkStatus "dot err" "Degraded"
  end.

Record ShownKey : Type := mkShownKey { sh_purpose : string; sh_kid : string; sh_pem : option string }.
Inductive KeysShown : Type := KeysMessage (text : string) | KeysListed (l : list ShownKey).

Definition shown_key (k : jsval) : outcome ShownKey :=
  purpose ← js_prop "purpose" k;
  keyId ← js_prop "keyId" k;
  pem ← js_prop "publicKeyPem" k;
  pem ← (if js_truthy pem then
           match pem with
           | JStr s => Ok (Some (trim s))
           | _ => Err (JsError "TypeError" "k.publicKeyPem.trim is not a function")
           end
         else Ok None);
  Ok (mkShownKey (text_content purpose) (text_content keyId) pem).

Fixpoint shown_keys (l : list jsval) : outcome (list ShownKey) :=
  match l with
  | [] => Ok []
  | k :: l' => s ← shown_key k; ss ← shown_keys l'; Ok (s :: ss)
  end.

(** A failure half way replaces what was listed so far. *)
Definition hub_keys (r : outcome jsval) : KeysShown :=
  let failed := KeysMessage "Could not load signing keys." in
  let none := KeysMessage "No keys published." in
  match r with
  | Err _ => failed
  | Ok d =>
      if negb (js_truthy d) then none
      else match js_get "keys" d with
           | JArr [] => none
           | JArr l => match shown_keys l with Ok ss => KeysListed ss | Err _ => failed end
           | JStr s => if bool_decide (s = "") then none else failed
           | JObj kvs => if js_truthy (js_get "length" (JObj kvs)) then failed else none
           | _ => none
           end
  end.

(** * What the pages work with *)

Lemma strip_app p s : strip p (p +:+ s) = Some s.
Proof. induction p as [|a p IH]; [done|]. rewrite app_String. cbn. by rewrite Ascii.eqb_refl. Qed.

Lemma lacks_String c a s : lacks c (String a s) = true → Ascii.eqb a c = false ∧ lacks c s = true.
Proof. cbn. intros [H%negb_true_iff ?]%andb_true_iff. done. Qed.

(** A replacement without a dollar sign stands for itself. *)
Lemma expand_plain before matched after r : lacks "$" r = true → expand before matched after r = r.
Proof.
  induction r as [|a r IH]; [done|]. intros [Ha Hr]%lacks_String. specialize (IH Hr).
  destruct a as [[] [] [] [] [] [] [] []]; try discriminate Ha; cbn; by rewrite IH.
Qed.

Lemma json_escape_no_dollar a : Ascii.eqb a "$" = false → lacks "$" (json_escape a) = true.
Proof. destruct a as [[] [] [] [] [] [] [] []]; intros H; try discriminate H; vm_compute; reflexivity. Qed.

Lemma json_quote_no_dollar s : lacks "$" s = true → lacks "$" (json_quote s) = true.
Proof.
  intros H. unfold json_quote. rewrite !lacks_app. cbn [lacks dquote andb]. rewrite !andb_true_iff. split; [done|]. split; [|done].
  induction s as [|a s IH]; [done|]. apply lacks_String in H as [Ha Hs]. cbn [json_escape_all].
  rewrite lacks_app, json_escape_no_dollar by done. by apply IH.
Qed.

Lemma lacks_inject apiBase : lacks "$" apiBase = true → lacks "$" (inject apiBase +:+ "</head>") = true.
Proof.
  intros H. unfold inject. rewrite !lacks_app. change (stringify (JStr apiBase)) with (json_quote apiBase). by rewrite json_quote_no_dollar.
Qed.

Section portals.
Context `{RT : !Runtime} (landing template : string) (penv : string → option string).

(** The script of the console reads, as [window.__API_BASE__], the base the page was
    rendered for; the rest of the template is untouched. *)
Theorem console_api_base apiBase before after (Hplain : lacks "$" apiBase = true)
    (Hhead : find_text "</head>" template = Some (before, after)) :
  adminConsoleHtml template apiBase =
    before +:+ "<script>window.__API_BASE__=" +:+ stringify (JStr apiBase) +:+ ";</script>" +:+ "</head>" +:+ after ∧
  json_parse (stringify (JStr apiBase)) = Some (JStr apiBase).
Proof.
  split; [|by apply (json_parse_stringify (JStr apiBase))].
  unfold adminConsoleHtml, replace. rewrite Hhead, (expand_plain _ _ _ _ (lacks_inject _ Hplain)). unfold inject.
  by rewrite !app_assoc_string.
Qed.

Lemma req_value name fallback v : req penv name fallback = Ok v → v = default fallback (penv name) ∧ v ≠ "".
Proof. intros H. split; [|by apply req_ok in H]. unfold req in H. case_bool_decide; [done|]. by injection H as <-. Qed.

(** The portal and the API of one environment name each other: the console calls the API
    under the URL the API has for itself, and, unless the origins are set by hand, the API
    admits the origin the portal has for itself. *)
Theorem portal_reaches_api c (Hc : loadConfig penv = Ok c) :
  p_apiBase (admin_portal landing template penv) = trusteeApi (urls c) ∧
  (penv "CORS_ALLOWED_ORIGINS" = None →
   let adminUrl := default "https://trustee.cambobia.com" (penv "TRUSTEE_PUBLIC_URL") in
   lacks "," adminUrl = true → no_space adminUrl = true → adminUrl ∈ corsAllowedOrigins c).
Proof.
  unfold loadConfig in Hc.
  apply outcome_bind_ok in Hc as (public & [-> Hne]%req_value & Hc). apply outcome_bind_ok in Hc as (api & [-> _]%req_value & Hc).
  do 8 (apply outcome_bind_ok in Hc as (? & _ & Hc)). injection Hc as <-. split; [done|]. cbn [corsAllowedOrigins].
  intros Hd Hl Hs. rewrite Hd. change (default ?x None) with x. set (adminUrl := default _ _) in *.
  change ("," +:+ ?t) with (String ","%char t). rewrite (split_on_app "," adminUrl _ Hl). cbn [map]. rewrite trim_no_space by done.
  rewrite filter_cons_True by done. left.
Qed.

Lemma shown_published st l :
  Forall (λ k : SigningPurpose * SigningKey, publicKeyPem k.2 ≠ "") l →
  shown_keys (map (Registry.js_key st) l) =
    Ok (map (λ k, mkShownKey (Registry.SigningPurpose_to_string (sk_purpose k.2)) (sk_keyId k.2) (Some (trim (publicKeyPem k.2)))) l).
Proof.
  induction 1 as [|k l Hk _ IH]; [done|]. cbn [map shown_keys].
  assert (shown_key (Registry.js_key st k) =
    Ok (mkShownKey (Registry.SigningPurpose_to_string (sk_purpose k.2)) (sk_keyId k.2) (Some (trim (publicKeyPem k.2))))) as ->.
  { unfold shown_key, Registry.js_key. cbn. by destruct (publicKeyPem k.2). }
  cbn [mbind outcome_bind]. by rewrite IH.
Qed.

Lemma shown_app l1 l2 s1 s2 : shown_keys l1 = Ok s1 → shown_keys l2 = Ok s2 → shown_keys (l1 ++ l2) = Ok (s1 ++ s2).
Proof.
  revert s1. induction l1 as [|k l1 IH]; intros s1 H1 H2; cbn in *; [by injection H1 as <-|].
  destruct (shown_key k) as [s|e]; [|discriminate H1]. cbn in *. destruct (shown_keys l1) as [ss|e]; [|discriminate H1].
  cbn in *. injection H1 as <-. by rewrite (IH ss eq_refl H2).
Qed.

Lemma hub_lists l ss : l ≠ [] → shown_keys l = Ok ss → hub_keys (Ok (JObj [("keys", JArr l)])) = KeysListed ss.
Proof.
  intros Hl Hs. destruct l as [|k l]; [done|].
  change (match shown_keys (k :: l) with Ok ss => KeysListed ss | Err _ => KeysMessage "Could not load signing keys." end = KeysListed ss).
  by rewrite Hs.
Qed.

(** The developer hub lists exactly the keys the platform serves, the active ones first,
    and calls the platform operational exactly when its health check says so. *)
Theorem hub_shows_platform sv ok
    (Hpem : Forall (λ k : SigningPurpose * SigningKey, publicKeyPem k.2 ≠ "") (keys sv ++ previousKeys sv))
    (Hkeys : keys sv ++ previousKeys sv ≠ []) :
  hub_keys (Ok (default JUndefined (read_body (published sv)))) =
    KeysListed (map (λ k, mkShownKey (Registry.SigningPurpose_to_string (sk_purpose k.2)) (sk_keyId k.2) (Some (trim (publicKeyPem k.2))))
                  (keys sv ++ previousKeys sv)) ∧
  (st_text (hub_status (Ok (SystemController.js_health ok))) = "Platform operational" ↔ ok = true).
Proof.
  split; [|by destruct ok]. rewrite published_read. cbn [default]. apply Forall_app in Hpem as [H1 H2].
  apply hub_lists; [|rewrite map_app; by apply shown_app; apply shown_published].
  intros [E1%map_eq_nil E2%map_eq_nil]%app_eq_nil. by rewrite E1, E2 in Hkeys.
Qed.
End portals.

(** A base with a replacement pattern is not what the page gets: [$&] becomes the text
    that is replaced. *)
Example base_with_pattern :
  adminConsoleHtml "<head></head>" "x$&y" =
    "<head><script>window.__API_BASE__=" +:+ json_quote "x</head>y" +:+ ";</script></head>".
Proof. vm_compute. reflexivity. Qed.
