(* ===== verification/Enforcement.v ===== *)
(** What the policies of the operators decide: the emergency controls, the ABAC policies
    and the feature flags are tables, and a request is blind to a table, or to the rows of
    it that it does not see, when it proceeds in the same way whatever they hold.

    [alike R p q] relates two programs that, from states related by [R], perform their
    awaits in step, answer alike and leave related states; [blind R p] is [alike R p p],
    composed over a handler by the rules below.  The relation [apart T seen] is that of two
    databases that differ in the table [T] only, and there in rows that are not [seen]. *)
From S2P Require Import Prelude.
From S2P Require Import Money.
From S2P Require Import Domain.
From S2P Require Import Ledger.
From S2P Require Import Prog.
From S2P Require Import Crypto.
From S2P Require Import Schema.
From S2P Require Import Prisma.
From S2P Require Import Infra.
From S2P Require Import LedgerService.
From S2P Require Import Demo.
From S2P Require Registry.
From S2P Require ReserveService.
From S2P Require MintService.
From S2P Require Deposits.
From S2P Require Redemption.
From S2P Require Paykh.
From S2P Require Loyalty.
From S2P Require Assurance.
From S2P Require Accounts.
From S2P Require Admin.
From S2P Require Operations.
From S2P Require Import Site.
From S2P Require Gate.
From S2P Require Scheduler.
From S2P Require Worker.
From S2P Require Import Platform.
From S2P Require Import Controllers.
From S2P Require Import TrusteeControllers.
From S2P Require Import Routes.
From S2P Require ConsoleViews.
From S2P Require Seed.
From S2P Require MintFlow.
From S2P Require Access.
#[local] Open Scope string_scope.
#[local] Open Scope list_scope.
#[local] Open Scope Z_scope.

(** * Definitions *)

Inductive alike {S A} (R : S → S → Prop) : prog S A → prog S A → Prop :=
| alike_ret a : alike R (Ret a) (Ret a)
| alike_throw e : alike R (Throw e) (Throw e)
| alike_act f g :
    (∀ s s', R s s' → R (f s).2 (g s').2) → (∀ s s', R s s' → alike R (f s).1 (g s').1) → alike R (Act f) (Act g).

Definition blind {S A} (R : S → S → Prop) (p : prog S A) : Prop := alike R p p.

(** Two databases that differ in the table [T] only, and there only in rows that are not
    [seen]. *)
Definition apart (T : table) (seen : string → row T → bool) (w w' : World) : Prop :=
  (∀ t, t ≠ T → tbl w' t = tbl w t) ∧ clock w' = clock w ∧ uuids w' = uuids w ∧ outbox_seq w' = outbox_seq w ∧
  calls w' = calls w ∧ lastSuccessfulCheck w' = lastSuccessfulCheck w ∧
  filter (λ kr, seen kr.1 kr.2 = true) (tbl w' T) = filter (λ kr, seen kr.1 kr.2 = true) (tbl w T).

(** No row is seen. *)
Definition unseen (T : table) : string → row T → bool := λ _ _, false.

(** The client answers a query of one table, draws its ids and checks its writes without
    the rows of the table [T], which no foreign key refers to. *)
Class LocalClient `{PC : !PrismaClient} (T : table) : Prop := {
  scan_local t w w' : t ≠ T → apart T (unseen T) w w' → scan t w' = scan t w;
  new_id_local t w w' : t ≠ T → apart T (unseen T) w w' → new_id t w' = new_id t w;
  refuse_local t k r w w' : t ≠ T → apart T (unseen T) w w' → refuse t k r w' = refuse t k r w
}.

(** * Rules *)

Section rules.
Context {S : Type} (R : S → S → Prop).

Lemma alike_bind {A B} (p q : prog S A) (k k' : A → prog S B) :
  alike R p q → (∀ a, alike R (k a) (k' a)) → alike R (p ≫= k) (q ≫= k').
Proof.
  intros Hp Hk. induction Hp as [a|e|f g Hs Hf IH]; [apply Hk|apply alike_throw|].
  apply alike_act; intros s s' H; specialize (Hs s s' H); specialize (IH s s' H); destruct (f s), (g s'); done.
Qed.
Lemma alike_catch {A} (p q : prog S A) h h' :
  alike R p q → (∀ e, alike R (h e) (h' e)) → alike R (prog_catch p h) (prog_catch q h').
Proof.
  intros Hp Hh. induction Hp as [a|e|f g Hs Hf IH]; [apply alike_ret|apply Hh|].
  apply alike_act; intros s s' H; specialize (Hs s s' H); specialize (IH s s' H); destruct (f s), (g s'); done.
Qed.

(** What two such programs do, run alone. *)
Lemma alike_run {A} (p q : prog S A) s s' :
  alike R p q → R s s' → (run q s').1 = (run p s).1 ∧ R (run p s).2 (run q s').2.
Proof.
  intros Hp. revert s s'. induction Hp as [a|e|f g Hs Hf IH]; intros s s' H; [done..|]. cbn.
  specialize (Hs s s' H). specialize (IH s s' H). destruct (f s), (g s'). by apply IH.
Qed.

Lemma blind_ret {A} (a : A) : blind R (mret a : prog S A).
Proof. apply alike_ret. Qed.
Lemma blind_throw {A} e : blind (A:=A) R (Throw e).
Proof. apply alike_throw. Qed.
Lemma blind_bind {A B} (p : prog S A) (k : A → prog S B) : blind R p → (∀ a, blind R (k a)) → blind R (p ≫= k).
Proof. apply alike_bind. Qed.
Lemma blind_catch {A} (p : prog S A) h : blind R p → (∀ e, blind R (h e)) → blind R (prog_catch p h).
Proof. apply alike_catch. Qed.
Lemma blind_lift {A} (o : outcome A) : blind R (lift o : prog S A).
Proof. destruct o; [apply alike_ret|apply alike_throw]. Qed.
Lemma blind_throw_if b e : blind R (throw_if b e : prog S unit).
Proof. apply blind_lift. Qed.
Lemma blind_or_throw {A} (o : option A) e : blind R (or_throw o e : prog S A).
Proof. destruct o; [apply alike_ret|apply alike_throw]. Qed.
Lemma blind_read {A} (f : S → A) : (∀ s s', R s s' → f s' = f s) → blind R (read f).
Proof. intros H. apply alike_act; intros s s' Hs; [done|]. cbn. rewrite (H _ _ Hs). apply alike_ret. Qed.
Lemma blind_action {A} (f : S → outcome A * S) :
  (∀ s s', R s s' → (f s').1 = (f s).1 ∧ R (f s).2 (f s').2) → blind R (action f).
Proof.
  intros H. apply alike_act; intros s s' Hs; destruct (H s s' Hs) as [H1 H2]; destruct (f s), (f s'); cbn in *; [done|].
  subst. apply blind_lift.
Qed.
Lemma blind_transaction {A} (p : prog S A) : blind R p → blind R (transaction p).
Proof.
  intros Hp. apply blind_action. intros s s' Hs. destruct (alike_run p p s s' Hp Hs) as [H1 H2].
  destruct (run p s) as [[a|e] s1], (run p s') as [[a'|e'] s1']; cbn in *; try discriminate H1; (split; [congruence|done]).
Qed.
Lemma blind_for_each {A} (l : list A) body : (∀ x, blind R (body x)) → blind R (for_each (S:=S) l body).
Proof. intros H. induction l as [|x l IH]; [apply alike_ret|]. apply (alike_bind (body x)); [apply H|intros _; exact IH]. Qed.
Lemma blind_fold_each {A B} (l : list A) (acc : B) body : (∀ a x, blind R (body a x)) → blind R (fold_each (S:=S) l acc body).
Proof. intros H. revert acc. induction l as [|x l IH]; intros acc; [apply alike_ret|]. apply (alike_bind (body acc x)); [apply H|intros a; apply IH]. Qed.
End rules.

(** ** The database *)

Section tables.
Context `{PC : !PrismaClient} (T : table) `{LC : !LocalClient T} (seen : string → row T → bool).
Notation sees := (apart T seen).

Lemma apart_refl w : sees w w.
Proof. done. Qed.

(** Whatever is seen, the rows that are not are apart. *)
Lemma apart_weaken w w' : sees w w' → apart T (unseen T) w w'.
Proof.
  intros (? & ? & ? & ? & ? & ? & _). split_and!; [done..|].
  apply map_eq. intros k. unfold unseen. rewrite !map_lookup_filter. by destruct (tbl w' T !! k), (tbl w T !! k).
Qed.
Lemma sees_scan t w w' : t ≠ T → sees w w' → scan t w' = scan t w.
Proof. intros Ht H. apply scan_local; [done|by apply apart_weaken]. Qed.
Lemma sees_new_id t w w' : t ≠ T → sees w w' → new_id t w' = new_id t w.
Proof. intros Ht H. apply new_id_local; [done|by apply apart_weaken]. Qed.
Lemma sees_refuse t k r w w' : t ≠ T → sees w w' → refuse t k r w' = refuse t k r w.
Proof. intros Ht H. apply refuse_local; [done|by apply apart_weaken]. Qed.

Lemma apart_set_tbl t m w w' : t ≠ T → sees w w' → sees (set_tbl t m w) (set_tbl t m w').
Proof.
  intros HtT (H & ? & ? & ? & ? & ? & HF). unfold apart. rewrite !(tbl_set_ne t T) by done. split_and!; [|done..]. intros t' Ht. destruct (decide (t = t')) as [->|Hn]; [by rewrite !tbl_set_same|].
  rewrite !tbl_set_ne by done. by apply H.
Qed.

Lemma apart_write t k r w w' : t ≠ T → sees w w' →
  (write_row t k r w').1 = (write_row t k r w).1 ∧ sees (write_row t k r w).2 (write_row t k r w').2.
Proof.
  intros Ht H. unfold write_row. rewrite (sees_refuse t k r w w' Ht H). destruct (refuse t k r w); [done|]. split; [done|].
  unfold put. rewrite (proj1 H t Ht). by apply apart_set_tbl.
Qed.

Lemma blind_find_unique t k : t ≠ T → blind sees (find_unique t k).
Proof. intros Ht. apply blind_read. intros w w' H. by rewrite (proj1 H t Ht). Qed.
Lemma blind_scan {A} t (f : list (row t) → A) : t ≠ T → blind sees (read (λ w, f (scan t w))).
Proof. intros Ht. apply blind_read. intros w w' H. by rewrite (sees_scan t w w' Ht H). Qed.
Lemma blind_find_many t p : t ≠ T → blind sees (find_many t p).
Proof. exact (blind_scan t (where_rows p)). Qed.
Lemma blind_find_first t p : t ≠ T → blind sees (find_first t p).
Proof. exact (blind_scan t (λ l, head (where_rows p l))). Qed.
Lemma blind_find_first_desc t p key : t ≠ T → blind sees (find_first_desc t p key).
Proof. exact (blind_scan t (λ l, max_by key (where_rows p l))). Qed.
Lemma blind_find_many_desc t p key n : t ≠ T → blind sees (find_many_desc t p key n).
Proof. exact (blind_scan t (λ l, take n (merge_sort (desc_by key) (where_rows p l)))). Qed.
Lemma blind_find_many_asc t p key n : t ≠ T → blind sees (find_many_asc t p key n).
Proof. exact (blind_scan t (λ l, take n (merge_sort (asc_by key) (where_rows p l)))). Qed.
Lemma blind_find_all_asc t p key : t ≠ T → blind sees (find_all_asc t p key).
Proof. exact (blind_scan t (λ l, merge_sort (asc_by key) (where_rows p l))). Qed.
Lemma blind_count t p : t ≠ T → blind sees (count t p).
Proof. exact (blind_scan t (λ l, Z.of_nat (length (where_rows p l)))). Qed.

Lemma blind_create t f : t ≠ T → blind sees (create t f).
Proof.
  intros Ht. apply blind_action. intros w w' H. cbv zeta. rewrite (sees_new_id t w w' Ht H), (proj1 (proj2 H)). by apply apart_write.
Qed.
Lemma blind_create_seq t f : t ≠ T → blind sees (create_seq t f).
Proof.
  intros Ht. apply blind_action. intros w w' H. cbv zeta.
  rewrite (sees_new_id t w w' Ht H), (proj1 (proj2 H)), (proj1 (proj2 (proj2 (proj2 H)))).
  apply apart_write; [done|]. destruct H as (? & ? & ? & ? & ? & ? & ?). unfold apart. by split_and!.
Qed.
Lemma blind_create_at t k f : t ≠ T → blind sees (create_at t k f).
Proof.
  intros Ht. apply blind_action. intros w w' H. unfold has_row. rewrite (proj1 H t Ht), (proj1 (proj2 H)).
  destruct (tbl w t !! k); [done|]. by apply apart_write.
Qed.
Lemma blind_update t k f : t ≠ T → blind sees (update t k f).
Proof.
  intros Ht. apply blind_action. intros w w' H. rewrite (proj1 H t Ht). destruct (tbl w t !! k); [|done]. by apply apart_write.
Qed.
Lemma blind_update_by t p f : t ≠ T → blind sees (update_by t p f).
Proof.
  intros Ht. apply blind_action. intros w w' H. rewrite (sees_scan t w w' Ht H). destruct (head _); [|done]. by apply apart_write.
Qed.
Lemma blind_delete t k : t ≠ T → blind sees (delete_row t k).
Proof.
  intros Ht. apply blind_action. intros w w' H. rewrite (proj1 H t Ht). destruct (tbl w t !! k); [|done].
  split; [done|]. by apply apart_set_tbl.
Qed.
Lemma blind_update_many t p f : t ≠ T → blind sees (update_many t p f).
Proof.
  intros Ht. apply blind_action. intros w w' H. cbv zeta. rewrite (proj1 H t Ht).
  assert (∀ l, omap (λ kr : string * row t, refuse t kr.1 (f kr.2) w') l = omap (λ kr, refuse t kr.1 (f kr.2) w) l) as ->.
  { intros l. induction l as [|kr l IH]; [done|]. cbn. by rewrite (sees_refuse t _ _ w w' Ht H), IH. }
  destruct (omap _ _); [|done]. split; [done|]. by apply apart_set_tbl.
Qed.
Lemma blind_upsert_at t k f g : t ≠ T → blind sees (upsert_at t k f g).
Proof.
  intros Ht. apply blind_action. intros w w' H. rewrite (proj1 H t Ht), (proj1 (proj2 H)).
  destruct (tbl w t !! k); by apply apart_write.
Qed.
Lemma blind_upsert_by t p f g : t ≠ T → blind sees (upsert_by t p f g).
Proof.
  intros Ht. apply blind_action. intros w w' H. rewrite (sees_scan t w w' Ht H).
  destruct (head _); [by apply apart_write|]. cbv zeta. rewrite (sees_new_id t w w' Ht H), (proj1 (proj2 H)). by apply apart_write.
Qed.
End tables.

(** The tables of the operators' policies: emergency controls, ABAC rules and flags. *)
Definition policy_tables : list table := [TPlatformControl; TAbacPolicy; TFeatureFlag].

(** The flags that some service asks for. *)
Definition decisive_flags : list string :=
  ["mint.authorization.enabled"; "paychain.redemption.enabled"; "bank.payout.enabled"; "paykh.loyalty.enabled";
   "liability.signature.required"].
Definition decisive (k : string) (_ : FeatureFlag.t) : bool := bool_decide (k ∈ decisive_flags).

(** The head of a program, to unfold it. *)
Ltac program_head p := lazymatch p with ?f _ => program_head f | _ => p end.

(** A query: the rows it reads, in whatever table, are those of the other database. *)
Ltac same_rows other_table :=
  let w := fresh "w" in let w' := fresh "w'" in let H := fresh "Hsees" in
  intros w w' H; cbv beta; unfold of_program, Operations.approval_of, Operations.in_program;
  let Hc := fresh in let Hl := fresh in
  pose proof (proj1 (proj2 H)) as Hc; pose proof (proj1 (proj2 (proj2 (proj2 (proj2 (proj2 H)))))) as Hl;
  rewrite ?Hc, ?Hl;
  repeat lazymatch goal with
    | |- context [scan ?t w'] =>
        lazymatch type of H with apart ?T ?seen _ _ => rewrite (sees_scan T seen t w w') by first [exact H|other_table] end
    | |- context [tbl w' ?t] => rewrite (proj1 H t) by other_table
    end;
  reflexivity.

(** A call that leaves the tables alone: a draw, a request to a service outside. *)
Ltac outside_call :=
  let Hc := fresh in let Hu := fresh in let Hk := fresh in
  intros ? ? (? & Hc & Hu & ? & Hk & ? & ?); cbv beta; rewrite ?Hc, ?Hu, ?Hk; split; [reflexivity|];
  unfold apart; cbn; split_and!; first [assumption|congruence].

(** A handler of the rules above: its binds, cases, loops and transactions by their
    shape, a query or write by its table, anything else by its definition. *)
Ltac blind_step other_table :=
  lazymatch goal with
  | |- ∀ _, _ => intros ?
  | |- blind _ (mret _) => apply blind_ret
  | |- blind _ (Ret _) => apply blind_ret
  | |- blind _ (Throw _) => apply blind_throw
  | |- blind _ (mbind _ _) => apply blind_bind
  | |- blind _ (prog_bind _ _) => apply blind_bind
  | |- blind _ (prog_catch _ _) => apply blind_catch
  | |- blind _ (lift _) => apply blind_lift
  | |- blind _ (throw_if _ _) => apply blind_throw_if
  | |- blind _ (or_throw _ _) => apply blind_or_throw
  | |- blind _ (transaction _) => apply blind_transaction
  | |- blind _ (for_each _ _) => apply blind_for_each
  | |- blind _ (fold_each _ _ _) => apply blind_fold_each
  | H : ∀ w w', apart _ _ w w' → ?probe w' = ?probe w |- blind _ (read ?probe) => exact (blind_read _ _ H)
  | H : ∀ key fallback, key ∈ decisive_flags → _ |- blind _ (isEnabled _ _) =>
      apply H; refine (bool_decide_unpack _ _); vm_compute; exact I
  | |- blind _ (find_unique ?t _) => apply (blind_find_unique _ _ t); other_table
  | |- blind _ (find_many ?t _) => apply (blind_find_many _ _ t); other_table
  | |- blind _ (find_first ?t _) => apply (blind_find_first _ _ t); other_table
  | |- blind _ (find_first_desc ?t _ _) => apply (blind_find_first_desc _ _ t); other_table
  | |- blind _ (find_many_desc ?t _ _ _) => apply (blind_find_many_desc _ _ t); other_table
  | |- blind _ (find_many_asc ?t _ _ _) => apply (blind_find_many_asc _ _ t); other_table
  | |- blind _ (find_all_asc ?t _ _) => apply (blind_find_all_asc _ _ t); other_table
  | |- blind _ (count ?t _) => apply (blind_count _ _ t); other_table
  | |- blind _ (create ?t _) => apply (blind_create _ _ t); other_table
  | |- blind _ (create_seq ?t _) => apply (blind_create_seq _ _ t); other_table
  | |- blind _ (create_at ?t _ _) => apply (blind_create_at _ _ t); other_table
  | |- blind _ (update ?t _ _) => apply (blind_update _ _ t); other_table
  | |- blind _ (update_by ?t _ _) => apply (blind_update_by _ _ t); other_table
  | |- blind _ (update_many ?t _ _) => apply (blind_update_many _ _ t); other_table
  | |- blind _ (delete_row ?t _) => apply (blind_delete _ _ t); other_table
  | |- blind _ (upsert_at ?t _ _ _) => apply (blind_upsert_at _ _ t); other_table
  | |- blind _ (upsert_by ?t _ _ _) => apply (blind_upsert_by _ _ t); other_table
  | |- blind _ (read _) => apply blind_read; same_rows other_table
  | |- blind _ (action _) => apply blind_action; outside_call
  | |- blind _ (match ?x with _ => _ end) => destruct x
  | |- blind _ (let _ := _ in _) => cbv zeta
  | |- blind _ ?p => first [solve [auto with blind nocore]|let h := program_head p in unfold h; cbv beta]
  end.

(** * The platform's programs *)

Lemma not_policy t : bool_decide (t ∉ policy_tables) = true → ∀ T, T ∈ policy_tables → t ≠ T.
Proof. intros H%bool_decide_eq_true_1 T HT ->. done. Qed.

Create HintDb blind.

Section handlers.
Context `{RT : !Runtime} `{PC : !PrismaClient} (env : Env) (T : table) `{LC : !LocalClient T}.
Context (HT : T ∈ policy_tables) (seen : string → row T → bool).
(** The flags are in another table, or those asked for are seen. *)
Context (Hflags : ∀ key fallback, key ∈ decisive_flags → blind (apart T seen) (isEnabled key fallback)).
Notation blind := (blind (apart T seen)).

Ltac off_policies := refine (not_policy _ _ T HT); vm_compute; reflexivity.
Ltac solve_blind := repeat blind_step off_policies.

Lemma blind_audit a : blind (audit_record a). Proof. solve_blind. Qed.
Lemma blind_publish_named e p t : blind (publish_named env e p t). Proof. solve_blind. Qed.
Lemma blind_publish e p : blind (publish env e p). Proof. apply blind_publish_named. Qed.
Lemma blind_publishToPaykh e p : blind (publishToPaykh env e p). Proof. apply blind_publish_named. Qed.
Lemma blind_publishWithArtifact e p a u : blind (publishWithArtifact env e p a u). Proof. solve_blind. Qed.
Lemma blind_post e : blind (post e). Proof. solve_blind. Qed.
Lemma blind_notify a b c : blind (notify env a b c). Proof. solve_blind. Qed.
Lemma blind_randomUUID : blind randomUUID. Proof. solve_blind. Qed.
Lemma blind_randomBytes n : blind (randomBytes n). Proof. solve_blind. Qed.
Lemma blind_issuance r : blind (execute_issuance env r). Proof. solve_blind. Qed.
#[local] Hint Resolve blind_audit blind_publish_named blind_publish blind_publishToPaykh blind_publishWithArtifact blind_post
  blind_notify blind_randomUUID blind_randomBytes blind_issuance : blind.

(** The other programs the process starts. *)
Lemma blind_reserveCycle : blind (Scheduler.reserveCycle env). Proof. solve_blind. Qed.
Lemma blind_delivery_pass wk : blind (Worker.delivery_pass env wk). Proof. solve_blind. Qed.

(** The guards over the database. *)
Lemma blind_signature_guard rq pr : blind (Gate.signature_guard env rq pr). Proof. solve_blind. Qed.
Lemma blind_separation_guard rq : blind (Gate.separation_guard env rq). Proof. solve_blind. Qed.
Lemma blind_permission_guard p pr : blind (Gate.permission_guard p pr). Proof. solve_blind. Qed.

(** The methods of every controller, but those of the policies themselves. *)
Lemma blind_system probe c : (∀ w w', apart T seen w w' → probe w' = probe w) → blind (SystemController.serve env probe c).
Proof. intros Hp. destruct c; solve_blind. Qed.
Lemma blind_portal c : blind (PortalController.serve c).
Proof. destruct c; solve_blind. Qed.
Lemma blind_auth rq c : blind (AuthController.serve env rq c).
Proof. destruct c; solve_blind. Qed.
Lemma blind_programs c : blind (ProgramsController.serve c).
Proof. destruct c; solve_blind. Qed.
Lemma blind_registry c : blind (RegistryController.serve c).
Proof. destruct c; solve_blind. Qed.
Lemma blind_operations c : blind (OperationsController.serve env c).
Proof. destruct c; solve_blind. Qed.
Lemma blind_funding rq c : blind (FundingController.serve env rq c).
Proof. destruct c; solve_blind. Qed.
Lemma blind_deposits c : blind (DepositsController.serve env c).
Proof. destruct c; solve_blind. Qed.
Lemma blind_reserve c : blind (ReserveController.serve env c).
Proof. destruct c; solve_blind. Qed.
Lemma blind_reserve_bank c : blind (ReserveBankController.serve env c).
Proof. destruct c; solve_blind. Qed.
Lemma blind_liability c : blind (LiabilityController.serve env c).
Proof. destruct c; solve_blind. Qed.
Lemma blind_mint rq c : blind (MintController.serve env rq c).
Proof. destruct c; solve_blind. Qed.
Lemma blind_redemption rq c : blind (RedemptionController.serve env rq c).
Proof. destruct c; solve_blind. Qed.
Lemma blind_trustee_redemption c : blind (TrusteeRedemptionController.serve env c).
Proof. destruct c; solve_blind. Qed.
Lemma blind_paychain_reconciliation c : blind (PaychainReconciliationController.serve env c).
Proof. destruct c; solve_blind. Qed.
Lemma blind_paykh_reconciliation c : blind (PaykhReconciliationController.serve env c).
Proof. destruct c; solve_blind. Qed.
Lemma blind_attestation c : blind (AttestationReader.serve env c).
Proof. destruct c; solve_blind. Qed.
Lemma blind_trustee_attestation c : blind (TrusteeAttestationController.serve c).
Proof. destruct c; solve_blind. Qed.
Lemma blind_paykh rq c : blind (PaykhController.serve env rq c).
Proof. destruct c; solve_blind. Qed.
Lemma blind_loyalty_bank c : blind (LoyaltyBankController.serve env c).
Proof. destruct c; solve_blind. Qed.
End handlers.

(** * What a checker's approval consults *)

Section consulting.
Context `{RT : !Runtime} `{PC : !PrismaClient} (env : Env) (T : table) (seen : string → row T → bool).

Lemma map_to_list_filtered {A} (p : A → bool) (m : gmap string A) :
  map_to_list (filter (λ kr, p kr.2 = true) m) ≡ₚ filter (λ kr, p kr.2 = true) (map_to_list m).
Proof.
  apply NoDup_Permutation; [apply NoDup_map_to_list|apply NoDup_filter, NoDup_map_to_list|]. intros [k x].
  rewrite elem_of_map_to_list, map_lookup_filter_Some, list_elem_of_filter, elem_of_map_to_list. tauto.
Qed.

Lemma where_rows_values (p : row T → bool) w :
  where_rows p (scan T w) ≡ₚ map snd (map_to_list (filter (λ kr, p kr.2 = true) (tbl w T))).
Proof.
  unfold where_rows. rewrite (scan_perm T w), map_to_list_filtered. apply reflexive_eq.
  induction (map_to_list (tbl w T)) as [|[k r] l IH]; [done|]. cbn [map snd]. rewrite !filter_cons. cbn [snd].
  destruct (decide (p r = true)); cbn [map snd]; by rewrite IH.
Qed.

(** The rows that are seen are the same, in whatever order. *)
Lemma seen_rows (p : row T → bool) w w' :
  (∀ k r, p r = true → seen k r = true) → apart T seen w w' → where_rows p (scan T w') ≡ₚ where_rows p (scan T w).
Proof.
  intros Hp (_ & _ & _ & _ & _ & _ & HF). rewrite !where_rows_values. apply reflexive_eq. do 2 f_equal.
  apply map_eq. intros k. pose proof (f_equal (.!! k) HF) as E. cbn in E. rewrite !map_lookup_filter in *.
  destruct (tbl w' T !! k) as [r'|], (tbl w T !! k) as [r|]; cbn in *; repeat case_guard; cbn in *; try done; naive_solver.
Qed.

(** A query of such rows, of which only the number is used. *)
Lemma blind_number {B} (p : row T → bool) (k : list (row T) → prog World B) :
  (∀ k r, p r = true → seen k r = true) → (∀ l l', length l' = length l → alike (apart T seen) (k l) (k l')) →
  blind (apart T seen) (find_many T p ≫= k).
Proof.
  intros Hp Hk. apply alike_act; intros w w' H; cbn; [done|]. apply Hk. by rewrite (seen_rows p w w' Hp H).
Qed.
(** One such row, of which only the presence is used. *)
Lemma blind_presence {B} (p : row T → bool) (k : option (row T) → prog World B) :
  (∀ k r, p r = true → seen k r = true) → (∀ o o', bool_decide (is_Some o') = bool_decide (is_Some o) → alike (apart T seen) (k o) (k o')) →
  blind (apart T seen) (find_first T p ≫= k).
Proof.
  intros Hp Hk. apply alike_act; intros w w' H; cbn; [done|]. apply Hk. pose proof (seen_rows p w w' Hp H) as E.
  destruct (where_rows p (scan T w')), (where_rows p (scan T w)); cbn; try done.
  - by apply Permutation_nil_cons in E.
  - symmetry in E. by apply Permutation_nil_cons in E.
Qed.
End consulting.

(** The controls that the facts of the mint guard ask for: the holds of a program or of
    all, and the suspension of an asset or of all mints. *)
Definition consulted (c : PlatformControl.t) : bool :=
  starts_with "compliance.hold.program." (PlatformControl.key c) || bool_decide (PlatformControl.key c = "compliance.hold.global") ||
  starts_with "asset.suspend." (PlatformControl.key c) || bool_decide (PlatformControl.key c = "mint.global-suspend").

Lemma starts_with_app p s : starts_with p (p +:+ s) = true.
Proof. induction p as [|a p IH]; [by destruct s|]. change (bool_decide (a = a) && starts_with p (p +:+ s) = true). by rewrite bool_decide_eq_true_2, IH. Qed.

Lemma consulted_hold p (k : string) c :
  bool_decide (PlatformControl.key c ∈ ["compliance.hold.program." +:+ p; "compliance.hold.global"]) && PlatformControl.value c = true →
  consulted c = true.
Proof.
  intros [Hk%bool_decide_eq_true_1 _]%andb_true_iff. unfold consulted.
  apply elem_of_cons in Hk as [->|Hk]; [by rewrite starts_with_app|]. apply list_elem_of_singleton in Hk as ->. reflexivity.
Qed.
Lemma consulted_suspend a (k : string) c :
  bool_decide (PlatformControl.key c ∈ ["asset.suspend." +:+ a; "mint.global-suspend"]) && PlatformControl.value c = true →
  consulted c = true.
Proof.
  intros [Hk%bool_decide_eq_true_1 _]%andb_true_iff. unfold consulted.
  apply elem_of_cons in Hk as [->|Hk]; [rewrite (starts_with_app "asset.suspend."); by rewrite orb_true_r|].
  apply list_elem_of_singleton in Hk as ->. reflexivity.
Qed.

Section approval.
Context `{RT : !Runtime} `{PC : !PrismaClient} (env : Env) `{LC : !LocalClient TPlatformControl} `{LP : !LocalClient TAbacPolicy}.
Ltac off_table := discriminate.
Ltac solve_apart := repeat blind_step off_table.

Lemma blind_guard_facts a b : blind (apart TPlatformControl (λ _, consulted)) (MintService.gatherGuardFacts env a b).
Proof.
  unfold MintService.gatherGuardFacts. repeat lazymatch goal with
    | |- blind _ (find_many TPlatformControl _ ≫= _) =>
        apply (blind_number TPlatformControl); [apply consulted_hold|]; intros l l' ->;
        lazymatch goal with |- alike ?R ?p ?p => change (blind R p) end
    | |- blind _ (find_first TPlatformControl _ ≫= _) =>
        apply (blind_presence TPlatformControl); [apply consulted_suspend|]; intros o o' ->;
        lazymatch goal with |- alike ?R ?p ?p => change (blind R p) end
    | |- _ => blind_step off_table
    end.
Qed.

(** The checker's approval of a mint, and what it consults of the controls. *)
Lemma blind_approve a c r : blind (apart TPlatformControl (λ _, consulted)) (MintService.approve env a c r).
Proof.
  unfold MintService.approve. repeat lazymatch goal with
    | |- blind _ (MintService.gatherGuardFacts _ _ _) => apply blind_guard_facts
    | |- _ => blind_step off_table
    end.
Qed.

(** Of the ABAC policies it consults nothing. *)
Lemma blind_approve_policies seen a c r : blind (apart TAbacPolicy seen) (MintService.approve env a c r).
Proof. solve_apart. Qed.
End approval.

(** * Behind the guards *)

(** The console's own routes of the controls and of the policies, and the checker's
    approval of a mint. *)
Definition holds_controls (c : Call) : bool :=
  match c with AdminCall AdminController.listControls | AdminCall (AdminController.setControl _ _ _ _ _) => true | _ => false end.
Definition holds_policies (c : Call) : bool :=
  match c with
  | AdminCall (AdminController.listPolicies | AdminController.createPolicy _ | AdminController.updatePolicy _ _ |
               AdminController.deletePolicy _ _ | AdminController.evaluate _) => true
  | _ => false
  end.
Definition holds_flags (c : Call) : bool :=
  match c with AdminCall AdminController.listFlags | AdminCall (AdminController.setFlag _ _ _) => true | _ => false end.
Definition approves_mint (c : Call) : bool :=
  match c with TrusteeMintCall (TrusteeMintController.approve _ _ _) => true | _ => false end.

Section site.
Context `{RT : !Runtime} `{PC : !PrismaClient} `{RD : !Redis} (env : Env) (probe : World → bool).

(** Two sites that differ in their databases only, and there as [R] says. *)
Definition on_site (R : World → World → Prop) (s s' : Site) : Prop :=
  R (db s) (db s') ∧ mem s' = mem s ∧ ticking s' = ticking s ∧ redis s' = redis s.

Lemma alike_on_db {A} R (p q : prog World A) : alike R p q → alike (on_site R) (on_db p) (on_db q).
Proof.
  induction 1 as [a|e|f g Hs Hf IH]; [apply alike_ret|apply alike_throw|].
  apply alike_act; intros s s' (HR & Hm & Ht & Hr); specialize (Hs _ _ HR); specialize (IH _ _ HR);
    destruct (f (db s)), (g (db s')); [done|exact IH].
Qed.
Lemma blind_on_db {A} R (p : prog World A) : blind R p → blind (on_site R) (on_db p).
Proof. apply alike_on_db. Qed.

Section one.
Context (T : table) `{LC : !LocalClient T} (seen : string → row T → bool).
Notation sees := (on_site (apart T seen)).

Lemma blind_command {A} (f : Z → rstate → outcome A * rstate) : blind sees (command f).
Proof.
  apply blind_action. intros s s' (H & Hm & Ht & Hr). pose proof (proj1 (proj2 H)) as Hc. rewrite Hc, Hr.
  destruct (f (clock (db s)) (redis s)) as [o r]. split; [done|]. by split_and!.
Qed.
Lemma blind_query {A} (f : Z → rstate → outcome A) : blind sees (query f).
Proof.
  apply blind_action. intros s s' (H & Hm & Ht & Hr). pose proof (proj1 (proj2 H)) as Hc. rewrite Hc, Hr. split; [done|]. by split_and!.
Qed.
Lemma blind_site_clock : blind sees (read (λ s, clock (db s))).
Proof. apply blind_read. by intros s s' ((_ & Hc & _) & _). Qed.

(** A method with its guards, given the queries it may not make. *)
Ltac site_step other_table :=
  lazymatch goal with
  | |- blind _ (command _) => apply blind_command
  | |- blind _ (query _) => apply blind_query
  | |- blind _ (read (λ s, clock (db s))) => apply blind_site_clock
  | |- blind _ (on_db _) => apply blind_on_db
  | |- _ => blind_step other_table
  end.

Context (HT : T ∈ policy_tables).
Ltac off_policies := refine (not_policy _ _ T HT); vm_compute; reflexivity.

Lemma blind_consume i n : blind sees (Gate.consume i n).
Proof.
  unfold Gate.consume. destruct redis_available; [repeat site_step off_policies|].
  apply blind_action. intros s s' (H & Hm & Ht & Hr). pose proof (proj1 (proj2 H)) as Hc. cbv zeta. rewrite Hc, Hm.
  destruct (Gate.mem_hit _ _ _) as [n' m]. split; [done|]. by split_and!.
Qed.
Lemma blind_rate_guard pr : blind sees (Gate.rate_guard pr).
Proof.
  unfold Gate.rate_guard. repeat lazymatch goal with
    | |- blind _ (Gate.consume _ _) => apply blind_consume
    | |- _ => site_step off_policies
    end.
Qed.
Lemma blind_guards permission rq : blind sees (Gate.guards env permission rq).
Proof.
  unfold Gate.guards. repeat lazymatch goal with
    | |- blind _ (Gate.rate_guard _) => apply blind_rate_guard
    | |- _ => site_step off_policies
    end.
Qed.

Lemma blind_admin c :
  holds_controls (AdminCall c) = false → holds_policies (AdminCall c) = false → holds_flags (AdminCall c) = false →
  blind sees (AdminController.serve env c).
Proof. destruct c; try done; intros _ _ _; unfold AdminController.serve, AdminController.db_json; repeat site_step off_policies. Qed.

Lemma blind_trustee_mint c :
  approves_mint (TrusteeMintCall c) = false → blind (apart T seen) (TrusteeMintController.serve env c).
Proof. destruct c; try done; intros _; repeat site_step off_policies. Qed.

Context (Hprobe : ∀ w w', apart T seen w w' → probe w' = probe w).
Context (Hflags : ∀ key fallback, key ∈ decisive_flags → blind (apart T seen) (isEnabled key fallback)).

(** Every method that is not of the policies themselves. *)
Lemma blind_serve rq c :
  holds_controls c = false → holds_policies c = false → holds_flags c = false → approves_mint c = false →
  blind sees (serve env probe rq c).
Proof.
  destruct c as [c|c|c|c|c|c|c|c|c|c|c|c|c|c|c|c|c|c|c|c|c|c|c]; cbn [serve]; intros H1 H2 H3 H4;
    first [by apply blind_admin|apply blind_on_db];
    auto using blind_system, blind_portal, blind_auth, blind_programs, blind_registry, blind_operations, blind_funding,
      blind_deposits, blind_reserve, blind_reserve_bank, blind_liability, blind_mint, blind_trustee_mint, blind_redemption,
      blind_trustee_redemption, blind_paychain_reconciliation, blind_paykh_reconciliation, blind_attestation,
      blind_trustee_attestation, blind_paykh, blind_loyalty_bank.
Qed.

Lemma blind_respond rq c : blind sees (serve env probe rq c) → blind sees (respond env probe rq c).
Proof. intros H. apply blind_bind; [apply blind_guards|intros _; exact H]. Qed.
End one.
End site.

Section policies.
Context `{RT : !Runtime} `{PC : !PrismaClient} `{RD : !Redis} (env : Env) (probe : World → bool).
Context (HL : ∀ T, T ∈ policy_tables → LocalClient T).
(** The health check asks the database whether it answers, not what it holds. *)
Context (Hprobe : ∀ T seen w w', T ∈ policy_tables → apart T seen w w' → probe w' = probe w).

Lemma control_table : TPlatformControl ∈ policy_tables. Proof. left. Qed.
Lemma abac_table : TAbacPolicy ∈ policy_tables. Proof. right; left. Qed.
Lemma flag_table : TFeatureFlag ∈ policy_tables. Proof. do 2 right; left. Qed.

(** Flags, to a database with other controls or policies, or with other flags that no
    service asks for. *)
Lemma flags_elsewhere T `{LC : !LocalClient T} seen key fallback : TFeatureFlag ≠ T → blind (apart T seen) (isEnabled key fallback).
Proof. intros HT. repeat blind_step ltac:(exact HT). Qed.
Lemma flags_decisive key fallback : key ∈ decisive_flags → blind (apart TFeatureFlag decisive) (isEnabled key fallback).
Proof.
  intros Hk. apply blind_bind; [|intros f; apply blind_ret]. apply blind_read. intros w w' (_ & _ & _ & _ & _ & _ & HF).
  assert (∀ m : gmap string FeatureFlag.t, filter (λ kr, decisive kr.1 kr.2 = true) m !! key = m !! key) as Hs.
  { intros m. rewrite map_lookup_filter. destruct (m !! key) as [f|]; [|done]. cbn. case_guard as E; [done|]. destruct E.
    unfold decisive. by rewrite bool_decide_eq_true_2. }
  exact (eq_trans (eq_sym (Hs _)) (eq_trans (f_equal (.!! key) HF) (Hs _))).
Qed.

(** The methods of one policy table do not look at the others. *)
Definition of_table (T : table) (c : Call) : bool :=
  match T with
  | TPlatformControl => holds_controls c || approves_mint c
  | TAbacPolicy => holds_policies c
  | TFeatureFlag => holds_flags c
  | _ => false
  end.

Lemma blind_elsewhere T seen rq c :
  T ∈ policy_tables → (∀ key fallback, key ∈ decisive_flags → blind (apart T seen) (isEnabled key fallback)) →
  of_table T c = false → blind (on_site (apart T seen)) (serve env probe rq c).
Proof.
  intros HT Hflags Hc. pose proof (HL T HT) as HLT.
  destruct (holds_controls c || holds_policies c || holds_flags c || approves_mint c) eqn:E.
  - rewrite !orb_true_iff in E. destruct c; try (destruct E as [[[?|?]|?]|?]; discriminate).
    all: destruct c; try (destruct E as [[[?|?]|?]|?]; discriminate); clear E; apply blind_on_db.
    all: repeat (apply elem_of_cons in HT as [->|HT]); try (by apply not_elem_of_nil in HT); try discriminate Hc;
      clear Hc; repeat blind_step discriminate.
  - rewrite !orb_false_iff in E. destruct E as [[[? ?] ?] ?].
    apply (blind_serve env probe T seen HT); [|done..]. intros w w'. exact (Hprobe _ _ w w' HT).
Qed.

(** The controls, to every method but the console's own and, where a row is seen, the
    checker's approval. *)
Lemma respond_elsewhere T seen rq c :
  T ∈ policy_tables → (∀ key fallback, key ∈ decisive_flags → blind (apart T seen) (isEnabled key fallback)) →
  of_table T c = false → blind (on_site (apart T seen)) (respond env probe rq c).
Proof.
  intros HT Hflags Hc. pose proof (HL T HT) as HLT. apply (blind_respond env probe T seen HT). by apply blind_elsewhere.
Qed.
Lemma respond_consulted rq c :
  holds_controls c = false → blind (on_site (apart TPlatformControl (λ _, consulted))) (respond env probe rq c).
Proof.
  intros H1. pose proof (HL _ control_table) as HLC. destruct (approves_mint c) eqn:E.
  - apply (blind_respond env probe TPlatformControl _ control_table). destruct c; try discriminate E. destruct c; try discriminate E.
    apply blind_on_db, blind_bind; [apply blind_approve; exact HLC|intros v; apply blind_ret].
  - apply respond_elsewhere; [exact control_table|intros; by apply flags_elsewhere|]. cbn. by rewrite H1, E.
Qed.

(** Setting a row that is not seen, in place of one that is not. *)
Lemma apart_put T (seen : string → row T → bool) k r w :
  seen k r = false → (∀ old, tbl w T !! k = Some old → seen k old = false) → apart T seen w (put T k r w).
Proof.
  intros Hr Ho. split_and!; [intros t Ht; by apply tbl_put_ne|done..|]. rewrite tbl_put_same. apply map_eq. intros k'.
  rewrite !map_lookup_filter. destruct (decide (k = k')) as [<-|Hn]; [rewrite lookup_insert_eq|by rewrite lookup_insert_ne].
  destruct (tbl w T !! k) as [old|]; [specialize (Ho old eq_refl)|]; cbn; repeat case_guard; cbn in *; congruence.
Qed.

(** A row set in a policy table changes no answer and no other table. *)
Definition idle (T : table) (k : string) (r : row T) (rq : Gate.HttpRequest) (c : Call) : Prop :=
  ∀ s, (∀ old, tbl (db s) T !! k = Some old → row_key T old = k) →
    let s' := set_db (put T k r (db s)) s in
    (run (respond env probe rq c) s').1 = (run (respond env probe rq c) s).1 ∧
    ∀ t, t ≠ T → tbl (db (run (respond env probe rq c) s').2) t = tbl (db (run (respond env probe rq c) s).2) t.

Lemma idle_row T seen k r rq c :
  (∀ w, (∀ old, tbl w T !! k = Some old → row_key T old = k) → apart T seen w (put T k r w)) →
  blind (on_site (apart T seen)) (respond env probe rq c) → idle T k r rq c.
Proof.
  intros Hput Hb s Hold s'. assert (on_site (apart T seen) s s') as Hs by (split; [by apply Hput|done]).
  destruct (alike_run _ _ _ _ _ Hb Hs) as [H1 H2]. split; [exact H1|]. intros t Ht. by apply (proj1 H2).
Qed.

Lemma switches_unconsulted k c : k ∈ ConsoleViews.known_controls → k ≠ "mint.global-suspend" → PlatformControl.key c = k → consulted c = false.
Proof.
  intros Hk Hn E. unfold consulted. rewrite E. clear E.
  repeat (apply elem_of_cons in Hk as [->|Hk]; [done|]). by apply not_elem_of_nil in Hk.
Qed.

(** Claim C10 (what the policies decide).  Behind the guards, on every route but those of
    the console that hold them: a request proceeds, at every await, in the same way
    whatever the emergency controls hold, unless it approves a mint, and that one depends
    only on the holds and the mint suspensions; whatever the ABAC policies hold; and
    whatever the feature flags hold but five.  So no switch of the console but
    mint.global-suspend changes any answer or any other table, not platform.read-only nor
    the suspension of redemptions, payouts or a client; and of the flags the seed creates
    at most three do, not the master switch nor that for real funds.  The reserve cycle
    and the deliveries depend on none of the three. *)
Theorem policies_bind rq c wk :
  (holds_controls c = false → approves_mint c = false →
     blind (on_site (apart TPlatformControl (unseen TPlatformControl))) (respond env probe rq c)) ∧
  (holds_controls c = false → blind (on_site (apart TPlatformControl (λ _, consulted))) (respond env probe rq c)) ∧
  (holds_controls c = false → ∀ k row, k ∈ ConsoleViews.known_controls → k ≠ "mint.global-suspend" →
     PlatformControl.key row = k → idle TPlatformControl k row rq c) ∧
  (holds_policies c = false → blind (on_site (apart TAbacPolicy (unseen TAbacPolicy))) (respond env probe rq c)) ∧
  (holds_flags c = false → blind (on_site (apart TFeatureFlag decisive)) (respond env probe rq c)) ∧
  (holds_flags c = false → ∀ f row, f ∈ Seed.FEATURE_FLAGS →
     f.1.1 ∉ ["mint.authorization.enabled"; "paychain.redemption.enabled"; "bank.payout.enabled"] →
     idle TFeatureFlag f.1.1 row rq c) ∧
  (∀ T, T ∈ policy_tables → blind (apart T (unseen T)) (Scheduler.reserveCycle env) ∧
     blind (apart T (unseen T)) (Worker.delivery_pass env wk)).
Proof.
  pose proof (HL _ control_table). pose proof (HL _ abac_table).
  assert (holds_flags c = false → blind (on_site (apart TFeatureFlag decisive)) (respond env probe rq c)) as HF.
  { intros Hc. apply respond_elsewhere; [exact flag_table|apply flags_decisive|exact Hc]. }
  split_and!; [..|exact HF| |].
  - intros H1 H2. apply respond_elsewhere; [exact control_table|intros; by apply flags_elsewhere|]. cbn. by rewrite H1, H2.
  - apply respond_consulted.
  - intros Hc k row Hk Hn Hrow. apply (idle_row TPlatformControl (λ _, consulted)); [|by apply respond_consulted].
    intros w Hold. apply apart_put; [by apply (switches_unconsulted k)|].
    intros old Ho. apply (switches_unconsulted k); [done..|]. exact (Hold old Ho).
  - intros Hc. apply respond_elsewhere; [exact abac_table|intros; by apply flags_elsewhere|exact Hc].
  - intros Hc f row Hf Hn. apply (idle_row TFeatureFlag decisive); [|by apply HF]. intros w _. cut (f.1.1 ∉ decisive_flags).
    { intros Hk. apply apart_put; [|intros old _]; by apply bool_decide_eq_false_2. }
    intros Hk. apply Hn. clear Hn. unfold Seed.FEATURE_FLAGS in Hf. unfold decisive_flags in Hk.
    repeat (apply elem_of_cons in Hf as [->|Hf]; [revert Hk; refine (bool_decide_unpack _ _); vm_compute; exact I|]).
    by apply not_elem_of_nil in Hf.
  - intros T HT. pose proof (HL T HT). split; repeat blind_step ltac:(refine (not_policy _ _ T HT); vm_compute; reflexivity).
Qed.
End policies.

(** * A client and a site for which this holds *)

Lemma foreign_keys_off_policies t (r : row t) : forallb (λ f, bool_decide (f.1 ∉ policy_tables)) (foreign_keys t r) = true.
Proof.
  destruct t; try reflexivity; cbn [foreign_keys]; repeat case_match; vm_compute; reflexivity.
Qed.

Lemma ref_client_local T : T ∈ policy_tables → LocalClient (PC := ref_client) T.
Proof.
  intros HT. split; intros t; [intros w w' Ht (H & _)|intros w w' Ht (H & _)|intros k r w w' Ht (H & _)]; cbn; rewrite ?(H t Ht); [done..|].
  assert (admissible t k r w' = admissible t k r w) as ->; [|done].
  unfold admissible, conflicts, references_exist. rewrite (H t Ht). f_equal. f_equal.
  pose proof (foreign_keys_off_policies t r) as Hk. induction (foreign_keys t r) as [|f l IH]; [done|].
  cbn [forallb] in *. apply andb_true_iff in Hk as [Hf%bool_decide_eq_true_1 Hk]. rewrite (IH Hk). f_equal. unfold has_row.
  rewrite (H f.1); [done|]. intros E. by rewrite E in Hf.
Qed.

(** The read-only mode, set in the site where a mint waits for its checker. *)
Definition read_only : PlatformControl.t :=
  {| PlatformControl.key := "platform.read-only"; PlatformControl.value := true; PlatformControl.reason := Some "incident";
     PlatformControl.incidentRef := None; PlatformControl.setBy := Some "admin" |}.
Definition demo_read_only : @Site (toy_redis true) :=
  set_db (put TPlatformControl "platform.read-only" read_only (db Access.demo_pending_site)) Access.demo_pending_site.

(** The master switch of the seed, turned off there. *)
Definition platform_off : FeatureFlag.t := FeatureFlag.mk "trustee.platform.enabled" false None (Some "admin").
Definition demo_switched_off : @Site (toy_redis true) :=
  set_db (put TFeatureFlag "trustee.platform.enabled" platform_off (db Access.demo_pending_site)) Access.demo_pending_site.

(** The checker's approval of that mint: it is granted, in either site, as if nothing
    were set. *)
Lemma policies_bind_witness :
  ∃ b, (run (@respond demo_runtime ref_client (toy_redis true) demo_env (λ _, true) Access.demo_session_request Access.demo_approval)
          Access.demo_pending_site).1 = Ok b ∧
       (run (@respond demo_runtime ref_client (toy_redis true) demo_env (λ _, true) Access.demo_session_request Access.demo_approval)
          demo_read_only).1 = Ok b ∧
       (run (@respond demo_runtime ref_client (toy_redis true) demo_env (λ _, true) Access.demo_session_request Access.demo_approval)
          demo_switched_off).1 = Ok b.
Proof.
  destruct (@policies_bind demo_runtime ref_client (toy_redis true) demo_env (λ _, true) ref_client_local
    (λ _ _ _ _ _ _, eq_refl) Access.demo_session_request Access.demo_approval None) as (_ & _ & Hcontrol & _ & _ & Hflag & _).
  destruct (run_is_ok (@respond demo_runtime ref_client (toy_redis true) demo_env (λ _, true) Access.demo_session_request Access.demo_approval)
    Access.demo_pending_site) as [b Hb]; [vm_compute; reflexivity|].
  exists b. split; [exact (f_equal fst Hb)|]. unfold demo_read_only, demo_switched_off. split.
  - destruct (Hcontrol eq_refl "platform.read-only" read_only) with (s := Access.demo_pending_site) as [E _];
      [left|discriminate|reflexivity| |exact (eq_trans E (f_equal fst Hb))].
    intros old Ho. assert (tbl MintFlow.demo_pending TPlatformControl !! "platform.read-only" = None) as E by (vm_compute; reflexivity).
    change (tbl MintFlow.demo_pending TPlatformControl !! "platform.read-only" = Some old) in Ho.
    discriminate (eq_trans (eq_sym E) Ho).
  - destruct (Hflag eq_refl ("trustee.platform.enabled", true, "Master platform switch") platform_off) with (s := Access.demo_pending_site)
      as [E _]; [left|refine (bool_decide_unpack _ _); vm_compute; exact I| |exact (eq_trans E (f_equal fst Hb))].
    intros old Ho. assert (tbl MintFlow.demo_pending TFeatureFlag !! "trustee.platform.enabled" = None) as E by (vm_compute; reflexivity).
    change (tbl MintFlow.demo_pending TFeatureFlag !! "trustee.platform.enabled" = Some old) in Ho.
    discriminate (eq_trans (eq_sym E) Ho).
Defined.
