(* ===== verification/Api.v ===== *)
(** The process as a whole: requests over HTTP behind their guards, the scheduler's
    ticks and the worker, over the database, the memory of the process and Redis.

    [site_reachable s s'] runs any number of them over the site [s], interleaved at
    every database call and every Redis command, while time passes.  The refinement
    theorem says that what such an execution does to the database is an execution of
    [Platform]: whatever the theorems of [System] and [Delivery] state of reachable
    databases holds behind the guards and with the scheduler running. *)
From S2P Require Import Prelude.
From S2P Require Import Prog.
From S2P Require Import Crypto.
From S2P Require Import Schema.
From S2P Require Import Prisma.
From S2P Require Import Infra.
From S2P Require Import LedgerService.
From S2P Require Import Invariant.
From S2P Require Import Site.
From S2P Require Import Demo.
From S2P Require Import Gate.
From S2P Require Import Scheduler.
From S2P Require Worker.
From S2P Require Admin.
From S2P Require Import Platform.
From S2P Require MintService.
From S2P Require Import Controllers.
From S2P Require Import Routes.
#[local] Open Scope string_scope.
#[local] Open Scope list_scope.
#[local] Open Scope Z_scope.

(** * Simulation of a site thread by platform threads

    [sim p]: every step of [p] either leaves the database alone or is the step of a
    platform request that [p] has started; [mid q p]: [p] is inside the request of
    which [q] remains. *)

Section simulation.
Context `{RD : !Redis} (new : prog World unit → Prop) (env : World → World → Prop).

Inductive sim {A} : prog Site A → Prop :=
| sim_ret a : sim (Ret a)
| sim_throw e : sim (Throw e)
| sim_local f : (∀ s, db (f s).2 = db s) → (∀ s, sim (f s).1) → sim (Act f)
| sim_start q p : new q → mid q p → sim p
with mid {A} : prog World unit → prog Site A → Prop :=
| mid_done q p : sim p → mid q p
| mid_act f g :
    (∀ s, db (g s).2 = (f (db s)).2) → (∀ s, mid (f (db s)).1 (g s).1) → mid (Act f) (Act g).

Scheme sim_mut := Induction for sim Sort Prop
with mid_mut := Induction for mid Sort Prop.
Combined Scheme sim_mid_ind from sim_mut, mid_mut.

Lemma sim_bind_catch {A} :
  (∀ p : prog Site A, sim p →
     (∀ B (k : A → prog Site B), (∀ a, sim (k a)) → sim (p ≫= k)) ∧
     (∀ h, (∀ e, sim (h e)) → sim (prog_catch p h))) ∧
  (∀ q (p : prog Site A), mid q p →
     (∀ B (k : A → prog Site B), (∀ a, sim (k a)) → mid q (p ≫= k)) ∧
     (∀ h, (∀ e, sim (h e)) → mid q (prog_catch p h))).
Proof.
  apply (sim_mid_ind A (λ p _, _) (λ q p _, _)).
  - intros a. split; [intros B k Hk; apply Hk|intros h Hh; apply sim_ret].
  - intros e. split; [intros B k Hk; apply sim_throw|intros h Hh; apply Hh].
  - intros f Hf Hs IH. split.
    + intros B k Hk. apply sim_local; intros s; specialize (Hf s); destruct (IH s) as [IHb _]; destruct (f s) as [p' s']; cbn in *; [done|by apply IHb].
    + intros h Hh. apply sim_local; intros s; specialize (Hf s); destruct (IH s) as [_ IHc]; destruct (f s) as [p' s']; cbn in *; [done|by apply IHc].
  - intros q p Hq Hm [IHb IHc]. split; [intros B k Hk; apply (sim_start q); [done|by apply IHb]|intros h Hh; apply (sim_start q); [done|by apply IHc]].
  - intros q p Hs [IHb IHc]. split; [intros B k Hk; apply mid_done; by apply IHb|intros h Hh; apply mid_done; by apply IHc].
  - intros f g Hfg Hm IH. split.
    + intros B k Hk. apply mid_act; intros s; specialize (Hfg s); destruct (IH s) as [IHb _]; destruct (g s) as [p' s']; cbn in *; [done|by apply IHb].
    + intros h Hh. apply mid_act; intros s; specialize (Hfg s); destruct (IH s) as [_ IHc]; destruct (g s) as [p' s']; cbn in *; [done|by apply IHc].
Qed.

Lemma sim_bind {A B} (p : prog Site A) (k : A → prog Site B) : sim p → (∀ a, sim (k a)) → sim (p ≫= k).
Proof. intros Hp. by apply sim_bind_catch. Qed.
Lemma sim_catch {A} (p : prog Site A) h : sim p → (∀ e, sim (h e)) → sim (prog_catch p h).
Proof. intros Hp. by apply sim_bind_catch. Qed.

(** A database program on the site is the request itself. *)
Lemma mid_on_db {A} (q : prog World A) : mid (discard q) (on_db q).
Proof.
  induction q as [a|e|f IH] using prog_ind'; [apply mid_done, sim_ret|apply mid_done, sim_throw|].
  cbn. apply mid_act; intros s; specialize (IH (db s)); destruct (f (db s)) as [q' w']; cbn in *; [done|exact IH].
Qed.
Lemma mid_on_db_unit (q : prog World unit) : mid q (on_db q).
Proof.
  induction q as [a|e|f IH] using prog_ind'; [apply mid_done, sim_ret|apply mid_done, sim_throw|].
  cbn. apply mid_act; intros s; specialize (IH (db s)); destruct (f (db s)) as [q' w']; cbn in *; [done|exact IH].
Qed.
Lemma sim_on_db {A} (q : prog World A) : new (discard q) → sim (on_db q).
Proof. intros Hq. apply (sim_start (discard q)); [done|apply mid_on_db]. Qed.

Lemma sim_action {A} (f : Site → outcome A * Site) : (∀ s, db (f s).2 = db s) → sim (action f).
Proof.
  intros Hf. apply sim_local; intros s; specialize (Hf s); destruct (f s) as [[a|e] s']; cbn in *; [done..|apply sim_ret|apply sim_throw].
Qed.
Lemma sim_command {A} (f : Z → rstate → outcome A * rstate) : sim (command f).
Proof. apply sim_action. intros s. by destruct (f _ _). Qed.
Lemma sim_query {A} (f : Z → rstate → outcome A) : sim (query f).
Proof. by apply sim_action. Qed.
Lemma sim_read {A} (f : Site → A) : sim (read f).
Proof. apply sim_local; [done|]. intros s. apply sim_ret. Qed.
Lemma sim_lift {A} (o : outcome A) : sim (lift o).
Proof. destruct o; [apply sim_ret|apply sim_throw]. Qed.
Lemma sim_fold_each {A B} (l : list A) (acc : B) (body : B → A → prog Site B) :
  (∀ acc x, sim (body acc x)) → sim (fold_each l acc body).
Proof.
  intros Hb. revert acc. induction l as [|x l IH]; intros acc; cbn; [apply sim_ret|].
  apply (sim_bind (body acc x)); [apply Hb|apply IH].
Qed.

(** ** The pool *)

Lemma pool_step_perm (qs rest : list (prog World unit)) f q' w w' :
  qs ≡ₚ Act f :: rest → f w = (q', w') →
  ∃ qs', pool_step new env (qs, w) (qs', w') ∧ qs' ≡ₚ q' :: rest.
Proof.
  intros HP Hf. assert (Act f ∈ qs) as (l1 & l2 & ->)%list_elem_of_split by (rewrite HP; left).
  exists (l1 ++ q' :: l2). split.
  - pose proof (step_act new env (length l1) (l1 ++ Act f :: l2) w f q' w') as H.
    replace (<[length l1:=q']> (l1 ++ Act f :: l2)) with (l1 ++ q' :: l2) in H.
    2: { replace (length l1) with (length l1 + 0)%nat by lia. by rewrite insert_app_r. }
    apply H; [by apply list_lookup_middle|done].
  - rewrite <- Permutation_middle in HP. apply Permutation_cons_inv in HP. by rewrite <- Permutation_middle, HP.
Qed.

(** What is left of a site thread's request on the platform. *)
Definition thread {A} (p : prog Site A) (o : option (prog World unit)) : Prop :=
  match o with None => sim p | Some q => mid q p end.

Lemma thread_step {A} :
  (∀ p : prog Site A, sim p → ∀ f s p' s' qs rest, p = Act f → f s = (p', s') → qs ≡ₚ rest →
     ∃ qs' o' stale, rtc (pool_step new env) (qs, db s) (qs', db s') ∧ thread p' o' ∧
       qs' ≡ₚ option_list o' ++ stale ++ rest) ∧
  (∀ q (p : prog Site A), mid q p → ∀ f s p' s' qs rest, p = Act f → f s = (p', s') → qs ≡ₚ q :: rest →
     ∃ qs' o' stale, rtc (pool_step new env) (qs, db s) (qs', db s') ∧ thread p' o' ∧
       qs' ≡ₚ option_list o' ++ stale ++ rest).
Proof.
  apply (sim_mid_ind A (λ p _, _) (λ q p _, _)).
  - done.
  - done.
  - intros f Hf Hs IH f' s p' s' qs rest [= <-] E HP. specialize (Hf s). specialize (Hs s). rewrite E in Hf, Hs.
    cbn in *. rewrite Hf. exists qs, None, []. by split_and!.
  - intros q p Hq Hm IH f s p' s' qs rest -> E HP.
    destruct (IH f s p' s' (qs ++ [q]) rest eq_refl E) as (qs' & o' & stale & Hr & Ht & HP').
    { rewrite HP. by rewrite <- Permutation_cons_append. }
    exists qs', o', stale. split_and!; [|done|done]. eapply rtc_l; [by apply step_spawn|done].
  - intros q p Hs IH f s p' s' qs rest -> E HP.
    destruct (IH f s p' s' qs (q :: rest) eq_refl E HP) as (qs' & o' & stale & Hr & Ht & HP').
    exists qs', o', (stale ++ [q]). split_and!; [done|done|]. rewrite HP'. by rewrite <- (assoc_L (++) stale).
  - intros f0 g Hfg Hm IH f s p' s' qs rest [= <-] E HP. specialize (Hfg s). specialize (Hm s). rewrite E in Hfg, Hm. cbn in *.
    destruct (f0 (db s)) as [q' w'] eqn:Ef. cbn in *. subst w'.
    destruct (pool_step_perm qs rest f0 q' (db s) (db s') HP Ef) as (qs' & Hst & HP').
    exists qs', (Some q'), []. split_and!; [by apply rtc_once|done|done].
Qed.

(** The site's pool and a platform pool that simulates it. *)
Definition simulated (ps : list (prog Site unit)) (qs : list (prog World unit)) : Prop :=
  ∃ os stale, Forall2 thread ps os ∧ qs ≡ₚ omap id os ++ stale.

Lemma simulated_at ps qs i p :
  simulated ps qs → ps !! i = Some p →
  ∃ o rest, thread p o ∧ qs ≡ₚ option_list o ++ rest ∧
    ∀ p' o' qs' stale, thread p' o' → qs' ≡ₚ option_list o' ++ stale ++ rest → simulated (<[i := p']> ps) qs'.
Proof.
  intros (os & stale & HF & HP) Hi. destruct (Forall2_lookup_l _ _ _ _ _ HF Hi) as (o & Ho & Ht).
  pose proof (take_drop_middle os i o Ho) as Eo.
  exists o, (omap id (take i os) ++ omap id (drop (S i) os) ++ stale). split_and!; [done| |].
  - rewrite HP. rewrite <- Eo at 1. rewrite omap_app. cbn. destruct o as [q|]; cbn; solve_Permutation.
  - intros p' o' qs' stale' Ht' HP'. exists (<[i := o']> os), (stale' ++ stale). split; [by apply Forall2_insert|].
    rewrite HP'. rewrite insert_take_drop by by eapply lookup_lt_Some.
    rewrite omap_app. cbn. destruct o' as [q|]; cbn; solve_Permutation.
Qed.
End simulation.

(** * The requests of the process *)

Section api.
Context `{RT : !Runtime} `{PC : !PrismaClient} `{RD : !Redis} (env : Env) (probe : World → bool).
Context (webhookKey : option SigningKey).

Abbreviation request := (request env webhookKey) (only parsing).

Definition answer {A} (p : prog Site A) : prog Site unit := _ ← p; mret tt.

Inductive site_request : prog Site unit → Prop :=
| sr_call rq c : site_request (answer (respond env probe rq c))
| sr_tick : site_request (Scheduler.tick env)
| sr_worker : site_request (on_db (Worker.delivery_pass env webhookKey)).

(** Time passes. *)
Inductive site_tick : Site → Site → Prop :=
| site_tick_clock s w : Platform.tick (db s) w → site_tick s (set_db w s).

Definition site_reachable (s s' : Site) : Prop :=
  ∃ ps, rtc (pool_step site_request site_tick) ([], s) (ps, s').

(** ** Every request of the process is simulated *)

Lemma reader_separation rq : reader (separation_guard env rq).
Proof.
  unfold separation_guard. destruct (requiredPlatform _) as [required|]; [|constructor].
  destruct (truthy _) as [token|].
  - apply reader_bind; [apply reader_read|]. intros t. apply reader_bind; [apply reader_lift|]. intros u.
    apply reader_bind; [apply reader_or_throw|]. intros u'. apply reader_bind; [apply reader_lift|]. intros _.
    apply reader_bind; [apply reader_lift|]. intros _. constructor.
  - apply reader_bind; [apply reader_or_throw|]. intros creds. apply reader_bind.
    { unfold verify_client. destruct (_ || _); [constructor|]. apply reader_bind; [apply reader_read|]. constructor. }
    intros oc. apply reader_bind; [apply reader_or_throw|]. intros c.
    apply reader_bind; [apply reader_lift|]. constructor.
Qed.

Lemma reader_permission required pr : reader (permission_guard required pr).
Proof.
  unfold permission_guard. destruct required as [p|]; [|constructor]. destruct pr as [[u|c]|]; [|constructor..].
  apply reader_bind; [apply reader_read|]. intros roles. apply reader_lift.
Qed.

Lemma sim_reader {A} (p : prog World A) : reader p → sim request (on_db p).
Proof. intros Hp. by apply sim_on_db, r_read. Qed.

Lemma sim_consume c l : sim request (consume c l).
Proof.
  unfold consume. destruct redis_available; cbv zeta.
  - apply sim_bind; [apply sim_read|]. intros t. apply sim_bind; [apply sim_command|]. intros n.
    apply sim_bind; [destruct (n =? 1); [apply sim_bind; [apply sim_command|]|]; intros; apply sim_ret|]. intros [].
    apply sim_bind; [|intros; apply sim_ret]. apply sim_catch; [|intros; apply sim_ret].
    apply sim_bind; [apply sim_command|]. intros u.
    destruct (u =? 1); [apply sim_bind; [apply sim_command|]|]; intros; apply sim_ret.
  - apply sim_action. intros s. by destruct (mem_hit _ _ _).
Qed.

Lemma sim_guards permission rq : sim request (guards env permission rq).
Proof.
  unfold guards. apply sim_bind; [apply sim_reader, reader_separation|]. intros pr.
  apply sim_bind; [apply sim_on_db, r_signature|]. intros [].
  apply sim_bind.
  { unfold rate_guard. destruct pr as [[u|p]|]; [apply sim_ret| |apply sim_ret]. destruct (bool_decide _); [apply sim_ret|].
    apply sim_bind; [apply sim_reader, reader_read|]. intros oc. cbv zeta.
    apply sim_bind; [apply sim_consume|]. intros d. apply sim_bind; [apply sim_lift|]. intros; apply sim_ret. }
  intros d. apply sim_bind; [apply sim_reader, reader_permission|]. intros; apply sim_ret.
Qed.

Lemma sim_clients_usage hours : sim request (clients_usage hours).
Proof.
  unfold clients_usage. apply sim_bind; [apply sim_reader, reader_read|]. intros cs. apply sim_fold_each. intros acc c.
  apply sim_bind; [|intros; apply sim_ret]. unfold usage. destruct redis_available; [|apply sim_ret].
  apply sim_bind; [apply sim_read|]. intros t. cbv zeta. apply sim_bind; [apply sim_query|]. intros; apply sim_ret.
Qed.

Lemma sim_acquire job ttl : sim request (acquire job ttl).
Proof.
  unfold acquire. destruct redis_available; [|apply sim_ret]. apply sim_bind; [apply sim_read|]. intros t.
  apply sim_catch; [apply sim_command|]. intros; apply sim_ret.
Qed.

Lemma sim_deadLetterAlert : sim request (deadLetterAlert env).
Proof.
  unfold deadLetterAlert. apply sim_bind; [apply sim_reader, reader_read|]. intros [|d dead]; [apply sim_ret|].
  destruct redis_available; [|apply sim_ret].
  apply sim_bind; [apply sim_catch; [apply sim_bind; [apply sim_query|]|]; intros; apply sim_ret|]. intros rs.
  destruct (unreported _ _) as [|x fresh]; [apply sim_ret|].
  apply sim_bind; [apply sim_on_db, r_notify|]. intros _. apply sim_bind; [apply sim_command|]. intros; apply sim_ret.
Qed.

Lemma sim_tick : sim request (Scheduler.tick env).
Proof.
  unfold Scheduler.tick. apply sim_bind; [by apply sim_action|]. intros [|]; [apply sim_ret|].
  assert (sim request stop_ticking) as Hstop by by apply sim_action.
  assert (∀ p : prog Site unit, sim request p → sim request (runSafely p)) as Hrun
    by (intros p Hp; apply sim_catch; [done|]; intros; apply sim_ret).
  apply sim_catch; [|intros e; apply sim_bind; [done|]; intros; apply sim_throw].
  apply sim_bind; [|done]. unfold tick_body. apply sim_bind; [apply sim_acquire|]. intros a.
  apply sim_bind; [destruct a; [apply Hrun, sim_on_db, r_reserve_cycle|apply sim_ret]|]. intros _.
  apply sim_bind; [apply sim_acquire|]. intros b. destruct b; [apply Hrun, sim_deadLetterAlert|apply sim_ret].
Qed.

Lemma sim_site_request p : site_request p → sim request p.
Proof.
  destruct 1 as [rq c| |].
  - apply sim_bind; [|intros; apply sim_ret]. apply sim_bind; [apply sim_guards|]. intros _.
    destruct (method_serve env probe webhookKey rq c) as [p Hp|hours]; [by apply sim_on_db|].
    apply sim_bind; [apply sim_clients_usage|]. intros; apply sim_ret.
  - apply sim_tick.
  - apply (sim_start request (Worker.delivery_pass env webhookKey)); [apply r_worker|apply mid_on_db_unit].
Qed.

(** One step of the process is some steps of the platform. *)
Lemma site_step ps s ps' s' qs :
  pool_step site_request site_tick (ps, s) (ps', s') → simulated request ps qs →
  ∃ qs', rtc (pool_step request Platform.tick) (qs, db s) (qs', db s') ∧ simulated request ps' qs'.
Proof.
  intros Hstep Hsim. inversion Hstep as [i ? ? f p' ? Hi Hf|i ? ? e|? ? p Hp|? ? ? He]; subst.
  - destruct (simulated_at _ _ _ _ _ Hsim Hi) as (o & rest & Ht & HP & Hback).
    destruct (thread_step request Platform.tick (A := unit)) as [Hs Hm].
    assert (∃ qs' o' stale, rtc (pool_step request Platform.tick) (qs, db s) (qs', db s') ∧ thread request p' o' ∧
              qs' ≡ₚ option_list o' ++ stale ++ rest) as (qs' & o' & stale & Hr & Ht' & HP').
    { destruct o as [q|]; [by apply (Hm q (Act f) Ht f s)|by apply (Hs (Act f) Ht f s)]. }
    exists qs'. split; [done|]. by eapply Hback.
  - exists qs. split; [done|]. destruct (decide (i < length ps)%nat) as [Hlt|Hge]; [|by rewrite list_insert_ge by lia].
    apply lookup_lt_is_Some_2 in Hlt as [p Hi].
    destruct (simulated_at _ _ _ _ _ Hsim Hi) as (o & rest & Ht & HP & Hback).
    apply (Hback (Throw e) None qs (option_list o)); [apply sim_throw|exact HP].
  - exists qs. split; [done|]. destruct Hsim as (os & stale & HF & HP).
    exists (os ++ [None]), stale. split; [apply Forall2_app; [done|constructor; [by apply sim_site_request|constructor]]|].
    by rewrite omap_app, app_nil_r.
  - destruct He as [s w Hw]. exists qs. split; [|done]. by apply rtc_once, step_env.
Qed.

Lemma site_steps c c' qs :
  rtc (pool_step site_request site_tick) c c' → simulated request c.1 qs →
  ∃ qs', rtc (pool_step request Platform.tick) (qs, db c.2) (qs', db c'.2) ∧ simulated request c'.1 qs'.
Proof.
  intros H. revert qs. induction H as [c|[ps s] [ps1 s1] c' Hstep _ IH]; intros qs Hsim; [by exists qs|].
  destruct (site_step _ _ _ _ _ Hstep Hsim) as (qs1 & H1 & Hsim1).
  destruct (IH qs1 Hsim1) as (qs2 & H2 & Hsim2). exists qs2. split; [|done]. by etrans.
Qed.

Lemma keeps_answer {A} (p : prog Site A) : keeps site_good site_later p → keeps site_good site_later (answer p).
Proof. intros Hp. unfold answer. apply keeps_bind; [done|]. intros _. apply keeps_ret. Qed.

Lemma keeps_clients_usage hours : keeps site_good site_later (clients_usage hours).
Proof.
  unfold clients_usage. apply keeps_bind; [apply keeps_on_db, keeps_read|]. intros cs s Hs.
  apply (safe_fold_each site_good site_later); [done|]. intros acc c s' _ Hs'.
  by apply (keeps_bind _ (λ hourly, mret (acc ++ [(c, hourly, sumZ snd hourly)])) (keeps_usage _ _) (λ _, keeps_ret _)).
Qed.

Lemma keeps_site_request p : site_request p → keeps site_good site_later p.
Proof.
  destruct 1 as [rq c| |].
  - apply keeps_answer. apply keeps_bind; [apply keeps_guards|]. intros _.
    destruct (method_serve env probe webhookKey rq c) as [p Hp|hours].
    + by apply keeps_on_db, keeps_of_discard, (keeps_request_any env webhookKey).
    + apply keeps_bind; [apply keeps_clients_usage|]. intros; apply keeps_ret.
  - apply keeps_tick.
  - apply keeps_on_db, Worker.keeps_delivery_pass.
Qed.

Lemma site_tick_later s1 s2 : site_tick s1 s2 → site_good s1 → site_good s2 ∧ site_later s1 s2.
Proof.
  intros [s0 w Hw] Hs. destruct (good_tick (db s0) w Hw Hs) as [H1 H2]. split; [done|by apply site_later_same].
Qed.

(** Claim C5 (the process refines the platform).  Whatever an execution of the
    process (requests behind their guards, usage queries, scheduler ticks and worker
    passes, interleaved at every database call and Redis command, with crashes and
    passing time) does to the database, an execution of the platform does.  From a
    consistent database it ends in a consistent one, and no lock of a job that Redis
    held is gone before it expired. *)
Theorem process_refines_platform s s' (H : site_reachable s s') :
  reachable env webhookKey (db s) (db s') ∧ (site_good s → site_good s' ∧ site_later s s').
Proof.
  destruct H as [ps H]. split.
  - destruct (site_steps _ _ [] H) as (qs & Hq & _); [by exists [], []|]. by exists qs.
  - intros Hg. destruct (pool_safe site_good site_later site_request site_tick _ _ keeps_site_request site_tick_later H) as (H1 & H2 & _);
      [done| |done].
    intros p Hp. by apply not_elem_of_nil in Hp.
Qed.
End api.

(** * The property at a concrete execution

    A tick of the scheduler and a signed request, taking turns. *)

Definition demo_route : prog (@Site (toy_redis true)) unit :=
  @answer (toy_redis true) _ (@respond demo_runtime ref_client (toy_redis true) demo_env (λ _, true) demo_request
    (MintCall (MintController.request (MintService.mkRequestMintAuthorization "prog-1" "req-1" "100" ["dep-1"] None None)))).

Definition demo_turns : list (prog (@Site (toy_redis true)) unit) * @Site (toy_redis true) :=
  run_schedule (concat (repeat [0; 1]%nat 60))
    [@Scheduler.tick demo_runtime ref_client (toy_redis true) demo_env; demo_route] (demo_site true).

Lemma process_refines_platform_witness :
  @site_reachable demo_runtime ref_client (toy_redis true) demo_env (λ _, true) None (demo_site true) demo_turns.2 ∧
  is_Some (tbl (db demo_turns.2) TNonceUsage !! "nonce-1") ∧
  @reachable demo_runtime ref_client demo_env None (db (demo_site true)) (db demo_turns.2).
Proof.
  assert (@site_reachable demo_runtime ref_client (toy_redis true) demo_env (λ _, true) None (demo_site true) demo_turns.2) as H.
  { exists demo_turns.1. unfold demo_turns. rewrite <- surjective_pairing. apply pool_schedule.
    repeat (apply Forall_cons; split); [apply sr_tick|apply sr_call|by apply Forall_nil]. }
  split; [exact H|]. split; [|exact (proj1 (@process_refines_platform demo_runtime ref_client (toy_redis true) demo_env (λ _, true) None _ _ H))].
  assert (bool_decide (is_Some (tbl (db demo_turns.2) TNonceUsage !! "nonce-1")) = true) as E by (vm_compute; reflexivity).
  exact (proj1 (bool_decide_eq_true _) E).
Defined.
